(* ===== verification/_CoqProject ===== *)
-Q . S2P
Prelude.v
Util.v
Libc.v
MemState.v
EntryPool.v
FrameAllocator.v
FrameInvariant.v
FrameProofs.v
FrameAlloc.v
FrameRange.v
FrameContiguous.v
FrameSessions.v
FrameInit.v
PageEntry.v
AddressSpace.v
Paging.v
FrameRelease.v
FrameExamples.v
Memory.v
MemoryTypes.v
PagingInvariant.v
PagingProofs.v
PagingGrowth.v
PagingKernel.v
PagingSpec.v
PagingUser.v
PagingInit.v
PagingExamples.v
Slab.v
PagingStart.v
PagingStartProofs.v
PagingStartExamples.v
SlabFree.v
SlabHeap.v
SlabLinks.v
SlabLists.v
SlabRefine.v
SlabExamples.v
Descriptors.v
Asm.v
Ports.v
Boot.v
Font.v
Rendering.v
RenderingProofs.v
Exceptions.v
Devices.v
IoApic.v
Acpi.v
AcpiExamples.v
Apic.v
ApicProofs.v
Ps2.v
KeyboardSetup.v
ProcessInit.v
ApicExamples.v
Pci.v
Ahci.v
AhciProofs.v
DriverExamples.v
Machine.v
PagingIsolation.v
PagingIsolationExamples.v
Elf.v
Bootloader.v
BootloaderProofs.v
BootExamples.v
ProcessSystem.v
ContextSwitch.v
ProcessExamples.v
ProcessStart.v
Syscalls.v
SyscallExamples.v
Kernel.v
KernelScreen.v
KernelGates.v
KernelExamples.v
Terminal.v
TerminalExamples.v
