(* ===== verification/Prelude.v ===== *)
(** * A verification library for the plusplus-os kernel

    plusplus-os is an x86-64 operating system in C: a UEFI boot loader
    (src/bootloader), a kernel (src/kernel), a freestanding C library (src/libc) and a user
    program (src/apps/terminal). This library models their C and inline
    assembly and proves what their parts do.

    ** How the program fits together

    The boot loader reads the kernel's ELF file into physical memory, asks the firmware for
    its memory map, frame buffer and ACPI root pointer, and jumps to the kernel with the
    three (Bootloader.v, Boot.v). [kernel_entry] (kernel/src/main.c) then brings up one
    component after the other:
    - physical frames (a buddy allocator), 16-byte memory entries for every list of the
      memory subsystem (a pool that refills itself from the frames), the kernel's page
      tables and address ranges, and a slab allocator on top. They call each other in a
      circle: mapping needs entries, an empty pool needs mapped pages;
    - the processor's tables (segments, task state, interrupt gates) and the exceptions;
    - the firmware's tables, and from them the PCI devices, the interrupt controllers, the
      disk controller and the keyboard;
    - system calls, the timer, and processes that are loaded from ELF files, have an address
      space each, and take turns at the timer's interrupts.
    A user process enters the kernel by the syscall instruction; the dispatcher calls one of
    five functions on processes, memory, keyboard or screen.

    ** How it is modelled

    A function of the source that changes state is a computation [M S A] below: state
    passing over the component's record [S], with a fault for everything at which the C
    program has no defined continuation or stops: a failed KERNEL_ASSERT, a null or
    wild pointer, an index out of bounds, a division by zero. A theorem with [wp m Q s] says
    that [m] returns from [s], without a fault, and that [Q] holds of result and state.
    Machine integers are [Z] with the wrap-around of their width written where the C
    operation can leave it ([u8] to [u64]); bit fields are [get_bits] and [set_bits].
    Strings, tables and files are lists of bytes; memory is a [gmap] from addresses. Linked
    lists that are only reached from their head are lists whose nodes keep their address;
    lists whose pointers the code packs or compares (free address ranges, the process queue)
    are heaps of structs, and so are those of the slab allocator in SlabLinks.v.

    Loops whose bound is not a number of the source run on fuel, and [OutOfFuel] is a fault,
    so that a [wp] theorem includes that the fuel it names is enough: [merge_step] runs at
    most once per order (8, fuel 9), [uefi_order] 10; page tables are walked one page at a
    time with fuel from the number of pages; parsing loops take the length of the table;
    polling loops (disk, keyboard) take the number of polls, and their theorems say how many
    are enough. [Memory.kernel n] ties the circle of the allocators with [n] levels of
    nesting; 3 suffice in every run.

    [kernel_entry] runs over one state that has every component's (Kernel.v); a component's
    computation is lifted to it by [on_part], through the lens of a [Part] instance. There the
    devices are behind the kernel's page tables: a register is reached at the virtual address
    it is mapped at.

    The processor's own work is modelled where the code relies on it: what it reads out of
    descriptors and page tables, the syscall, sysret and iretq instructions, pushes and
    jumps (Asm.v), the translation behind every access of a program (Machine.v).

    ** Interfaces

    - [MemoryEntries], [MemoryEntriesSpec] (MemState.v): taking and returning a memory
      entry; the frame allocator is proved against it and EntryPool.v implements it.
    - [PageSource] (SlabHeap.v): the ranges of pages a client of a page allocator holds; the
      slab allocator is proved against it, SlabExamples.v has an instance.
    - [Grows] (PagingGrowth.v): an address space that can be given more pages of entries, and
      what that leaves alone; mapping is proved against it once. The kernel's address space,
      which takes them from the page pool (PagingKernel.v), and a process's, which takes
      frames and has the kernel map them (PagingUser.v), are its instances.
    - [UserSpaces], [UserSpacesSpec] (Machine.v): loads and stores in the mapped address
      space, for addresses of the first slot of the PML4, where processes live; processes,
      the ELF loader and the terminal are proved against it. [machine] implements it with
      the page tables, ProcessExamples.v with plain memory.
    - [Part], [PartLaws] (below): a component's state as a part of a larger one.
    - [Devices] (Devices.v), [IoApicAt] (IoApic.v): ports, device registers and model-specific
      registers; [Firmware] (Bootloader.v): the UEFI services; [Environment] (Asm.v): what a
      call, port access or store of an assembly function does.

    ** The files and the code they model

    - Prelude.v: integers, bit fields, faults, the state monad with its rules ([wp_step]),
      loops, lists indexed by [Z]. Util.v: kernel/src/util.c, util.h, uefi.h.
    - Libc.v: libc/src/string, libc/src/stdlib.
    - MemState.v: the memory subsystem's state. EntryPool.v: kernel/src/memory/entry_pool.c.
    - FrameAllocator.v: the operations of kernel/src/memory/frame_allocator.c.
      FrameInvariant.v: the buddy invariant. FrameProofs.v, FrameAlloc.v, FrameRange.v,
      FrameContiguous.v: what the operations do. FrameInit.v: its initialisation.
      FrameSessions.v: clients that take and give back. FrameExamples.v: a small machine.
    - PageEntry.v, AddressSpace.v, Paging.v: kernel/src/memory/paging.c and
      kernel/include/memory/paging.h. PagingInvariant.v: page tables as trees and their
      translation. PagingProofs.v: walking and changing the tables of any address space;
      PagingGrowth.v, PagingKernel.v, PagingUser.v: mapping, with new pages of entries;
      PagingSpec.v: map, unmap, set flags. PagingIsolation.v: the kernel's and all processes'
      address spaces together; PagingIsolationExamples.v: two processes. PagingInit.v,
      PagingStart.v: initialize_paging, and initialize_memory of kernel/src/memory.c;
      PagingStartProofs.v: the tables they leave. PagingExamples.v, PagingStartExamples.v.
      FrameRelease.v: the firmware's memory given to the frame allocator.
    - Memory.v: kernel/src/memory.c, the kernel's wrappers, the life of an address space.
      MemoryTypes.v: sequences of calls of the memory system, and the types of its state.
    - Slab.v, SlabFree.v: kernel/src/memory/slab_allocator.c. SlabHeap.v: the objects in use
      over every path of [kalloc] and [kfree], in an array with room for the caches of all
      orders (the code's is one short: [initialize_slab_allocator_overflow]).
      SlabLinks.v: the same allocator with its linked lists in memory; SlabLists.v: those
      lists; SlabRefine.v: it implements the one of Slab.v. SlabExamples.v: a heap over a
      concrete page allocator.
    - Descriptors.v: kernel/src/gdt.c and idt.c. Exceptions.v: exceptions.c and kassert.h.
    - Asm.v: the instructions of the naked functions. Ports.v: port_io.c. Boot.v:
      the assembly of bootloader/src/main.c, stage1_entry.c and main.c.
    - Font.v, Rendering.v, RenderingProofs.v: rendering.c and font.h.
    - Devices.v, Acpi.v (acpi.c), IoApic.v, Apic.v, ApicProofs.v (apic.c), Ps2.v,
      KeyboardSetup.v (ps2.c), Pci.v (pci.c), Ahci.v, AhciProofs.v (ahci.c), ProcessInit.v
      (the timer); AcpiExamples.v, ApicExamples.v, DriverExamples.v.
    - Machine.v: memory as programs see it. Elf.v: elf_loader.c. ProcessSystem.v,
      ContextSwitch.v, ProcessStart.v: process_system.c; ProcessExamples.v.
    - Bootloader.v, BootloaderProofs.v, BootExamples.v: bootloader/src.
    - Syscalls.v, SyscallExamples.v: syscalls.c. Terminal.v, TerminalExamples.v:
      apps/terminal/src/main.c.
    - Kernel.v: kernel_entry (kernel/src/main.c). KernelScreen.v: the lines it draws.
      KernelGates.v: the interrupt gates it leaves. KernelExamples.v: a whole machine.
    Definitions have the names of the C functions; a helper without one is a loop or a
    block of the function it is used in, and says which.

    ** What the theorems show

    - Memory: the buddy invariant holds from initialisation on and is kept by every
      operation; allocation returns disjoint free memory of the size asked for and freeing
      gives it back (FrameAlloc.v, FrameContiguous.v, FrameRange.v, FrameInit.v); free memory
      and what clients hold stay a partition of what there was (FrameSessions.v). Mapping makes
      exactly the asked pages translate, to the asked frames, and unmapping undoes it
      (PagingSpec.v); start-up reaches the invariant those theorems need
      (PagingStartProofs.v). A new address space, and an allocation mapped for a process with
      the frames and kernel mappings its page tables take, keep the processes isolated: no
      frame is reached by two pages, none that is reached is free or holds page entries, and
      nobody else's translations change (PagingIsolation.v); the firmware's memory is given back exactly (FrameRelease.v).
      Whatever is called, every field stays in the range of its C type (MemoryTypes.v).
      Objects of the slab allocator never overlap, freeing one never fails or moves another,
      and pages without objects go back, whatever the page allocator as long as it keeps
      [PageSource] (SlabHeap.v); the code with its linked lists does the same (SlabRefine.v).
    - Processor and devices: gates, segments, the timer and the keyboard's route through the
      interrupt controllers; parsing of the firmware's tables; the device list equals a
      reference enumeration; a disk command describes its buffer byte by byte.
    - Processes: the timer's interrupt, assembly and C together, refines one rotation of a
      queue of processes, each of which gets its turn with its registers and memory as it
      left them. The dispatcher refines a call of the chosen function.
    - Boot: the kernel's segments are in memory and what the kernel is handed is what the
      firmware said. [kernel_entry] draws every line of its report wherever it goes through
      without one (KernelScreen.v), and leaves interrupts on with the gates of exceptions,
      keyboard and timer leading to their handlers (KernelGates.v).
    - C library: copies of overlapping blocks, comparisons and conversions of numbers against
      reference functions.
    - Runs of the composed model on concrete machines: the whole of [kernel_entry] on a
      machine with a disk and a keyboard, from an ELF file to a running process, its system calls, and the
      pixels of the terminal.
    Each theorem with hypotheses that is listed as a property has a closed instance,
    named after it with [_witness]. Theorems also state where the code falls short
    of what it means to do: a request in a free list that makes the list longer
    ([alloc_addr_space_overlap]), the frame [unmap_and_free_frames] never frees, system
    calls with negative numbers, a second segment written over the first, caches written past
    their array, an entry of length zero parsed for ever.

    ** What is not modelled

    - The headers in src/efilib are declarations of a third party; the constants and
      macros the boot loader computes with are listed with it.
    - The build files and linker scripts: addresses of symbols are arguments of the
      definitions that use them.
    - Caches of the processor (the TLB; [invlpg] is a log of addresses), registers the
      compiler chooses, and code that is switched off in the source. *)

From stdpp Require Export base prelude gmap list strings.
From Stdlib Require Export ZArith Lia.

#[global] Open Scope Z_scope.
#[global] Set Default Goal Selector "!".

(** ** Machine integers

    A [w]-bit unsigned C integer is a [Z] in [0, 2^w); every operation of the
    source that can leave the range is followed by the [wrap] its type implies. *)

Declare Scope machine_scope.
Delimit Scope machine_scope with machine.
#[global] Open Scope machine_scope.

Definition wrap (w x : Z) : Z := x mod 2 ^ w.

Notation "'u8' x" := (wrap 8 x) (at level 10, x at level 9) : machine_scope.
Notation "'u16' x" := (wrap 16 x) (at level 10, x at level 9) : machine_scope.
Notation "'u32' x" := (wrap 32 x) (at level 10, x at level 9) : machine_scope.
Notation "'u64' x" := (wrap 64 x) (at level 10, x at level 9) : machine_scope.

(** Two's-complement reading of the low [w] bits. *)
Definition signed (w x : Z) : Z :=
  let y := wrap w x in if y <? 2 ^ (w - 1) then y else y - 2 ^ w.

(** A C bit field of width [w] at bit [lo]. *)
Definition get_bits (lo w x : Z) : Z := Z.land (Z.shiftr x lo) (Z.ones w).

Definition set_bits (lo w v x : Z) : Z :=
  Z.lor (Z.ldiff x (Z.shiftl (Z.ones w) lo)) (Z.shiftl (Z.land v (Z.ones w)) lo).

Section words.
Implicit Types w x v lo i : Z.

Lemma wrap_range w x : 0 ≤ w → 0 ≤ wrap w x < 2 ^ w.
Proof. intros. apply Z.mod_pos_bound. by apply Z.pow_pos_nonneg. Qed.

Lemma wrap_small w x : 0 ≤ x < 2 ^ w → wrap w x = x.
Proof. apply Z.mod_small. Qed.

Lemma wrap_wrap w x : 0 ≤ w → wrap w (wrap w x) = wrap w x.
Proof. intros. by apply wrap_small, wrap_range. Qed.
Lemma wrap_sub_l w x y : wrap w (wrap w x - y) = wrap w (x - y).
Proof. unfold wrap. by rewrite Zminus_mod_idemp_l. Qed.

Lemma testbit_wrap w x i : 0 ≤ w → 0 ≤ i → Z.testbit (wrap w x) i = Z.testbit x i && (i <? w).
Proof.
  intros Hw Hi. unfold wrap. destruct (Z.ltb_spec i w).
  - rewrite Z.mod_pow2_bits_low by done. by rewrite andb_true_r.
  - rewrite Z.mod_pow2_bits_high by lia. by rewrite andb_false_r.
Qed.

Lemma testbit_ones w i : 0 ≤ w → 0 ≤ i → Z.testbit (Z.ones w) i = (i <? w).
Proof.
  intros. destruct (Z.ltb_spec i w).
  - apply Z.ones_spec_low. lia.
  - apply Z.ones_spec_high. lia.
Qed.

Lemma testbit_get_bits lo w x i :
  0 ≤ lo → 0 ≤ w → 0 ≤ i →
  Z.testbit (get_bits lo w x) i = Z.testbit x (i + lo) && (i <? w).
Proof.
  intros. unfold get_bits.
  by rewrite Z.land_spec, Z.shiftr_spec, testbit_ones by done.
Qed.

Lemma testbit_set_bits lo w v x i :
  0 ≤ lo → 0 ≤ w → 0 ≤ i →
  Z.testbit (set_bits lo w v x) i =
    if (lo <=? i) && (i <? lo + w) then Z.testbit v (i - lo) else Z.testbit x i.
Proof.
  intros. unfold set_bits.
  rewrite Z.lor_spec, Z.ldiff_spec, !Z.shiftl_spec by done.
  destruct (Z.leb_spec lo i) as [Hlo|Hlo]; cbn [andb].
  - rewrite Z.land_spec, testbit_ones by lia.
    destruct (Z.ltb_spec (i - lo) w), (Z.ltb_spec i (lo + w)); try lia; cbn;
      by rewrite ?andb_false_r, ?andb_true_r, ?orb_false_r.
  - rewrite !(Z.testbit_neg_r _ (i - lo)) by lia. cbn.
    by rewrite andb_true_r, orb_false_r.
Qed.

Lemma get_bits_range lo w x : 0 ≤ w → 0 ≤ get_bits lo w x < 2 ^ w.
Proof.
  intros. unfold get_bits. rewrite Z.land_ones by done. by apply wrap_range.
Qed.

Lemma get_bits_div lo w x : 0 ≤ lo → 0 ≤ w → get_bits lo w x = wrap w (x / 2 ^ lo).
Proof. intros. unfold get_bits. by rewrite Z.land_ones, Z.shiftr_div_pow2. Qed.

Lemma get_set_bits_eq lo w v x : 0 ≤ lo → 0 ≤ w → get_bits lo w (set_bits lo w v x) = wrap w v.
Proof.
  intros. apply Z.bits_inj'. intros i Hi.
  rewrite testbit_get_bits, testbit_set_bits, testbit_wrap by lia.
  replace (i + lo - lo) with i by lia.
  destruct (Z.ltb_spec i w), (Z.leb_spec lo (i + lo)), (Z.ltb_spec (i + lo) (lo + w));
    try lia; cbn; by rewrite ?andb_false_r.
Qed.

Lemma get_set_bits_ne lo w v x lo' w' :
  0 ≤ lo → 0 ≤ w → 0 ≤ lo' → 0 ≤ w' → lo' + w' ≤ lo ∨ lo + w ≤ lo' →
  get_bits lo' w' (set_bits lo w v x) = get_bits lo' w' x.
Proof.
  intros. apply Z.bits_inj'. intros i Hi.
  rewrite !testbit_get_bits, testbit_set_bits by lia.
  destruct (Z.ltb_spec i w'), (Z.leb_spec lo (i + lo')), (Z.ltb_spec (i + lo') (lo + w));
    cbn; rewrite ?andb_false_r; done || lia.
Qed.

Lemma range_of_bits n x : 0 ≤ n → (∀ i, n ≤ i → Z.testbit x i = false) → 0 ≤ x < 2 ^ n.
Proof.
  intros Hn Hx. enough (x = wrap n x) as -> by by apply wrap_range.
  apply Z.bits_inj'. intros i Hi. rewrite testbit_wrap by done.
  destruct (Z.ltb_spec i n); [by rewrite andb_true_r|].
  rewrite andb_false_r. by apply Hx.
Qed.

Lemma bits_above n x i : 0 ≤ x < 2 ^ n → n ≤ i → 0 ≤ n → Z.testbit x i = false.
Proof.
  intros Hx Hi Hn. rewrite <- (wrap_small n x Hx), testbit_wrap by lia.
  destruct (Z.ltb_spec i n); [lia|]. by rewrite andb_false_r.
Qed.

Lemma set_bits_range lo w v x n :
  0 ≤ lo → 0 ≤ w → lo + w ≤ n → 0 ≤ x < 2 ^ n → 0 ≤ set_bits lo w v x < 2 ^ n.
Proof.
  intros ??? Hx. apply range_of_bits; [lia|]. intros i Hi.
  rewrite testbit_set_bits by lia.
  destruct (Z.leb_spec lo i), (Z.ltb_spec i (lo + w)); try lia; cbn;
    apply (bits_above n); lia.
Qed.
End words.

Create HintDb words discriminated.
#[export] Hint Resolve wrap_range get_bits_range set_bits_range : words.

(** Rewrites reads of bit fields through earlier writes of the same or other fields. *)
Ltac field_simpl :=
  repeat first
    [ rewrite get_set_bits_eq by lia
    | rewrite get_set_bits_ne by lia ].

(** ** Bytes

    Numbers in memory are little-endian. *)

Definition le_value (l : list Z) : Z := foldr (λ b w, b + 256 * w) 0 l.
Definition le_bytes (n : nat) (x : Z) : list Z := (λ i, u8 (Z.shiftr x (8 * Z.of_nat i))) <$> seq 0 n.
Definition is_byte (b : Z) : Prop := 0 ≤ b < 256.

Lemma length_le_bytes n x : length (le_bytes n x) = n.
Proof. unfold le_bytes. by rewrite length_fmap, length_seq. Qed.

Lemma le_bytes_S n x : le_bytes (S n) x = u8 x :: le_bytes n (x / 256).
Proof.
  unfold le_bytes. cbn [seq fmap list_fmap]. rewrite Z.shiftr_0_r. f_equal. rewrite <- fmap_S_seq, <- list_fmap_compose.
  apply list_fmap_ext. intros i j _. cbn. rewrite !Z.shiftr_div_pow2 by lia.
  replace (8 * Z.of_nat (S j)) with (8 + 8 * Z.of_nat j) by lia. rewrite Z.pow_add_r by lia.
  by rewrite <- Z.div_div by lia.
Qed.

Lemma le_value_bytes n x : le_value (le_bytes n x) = wrap (8 * Z.of_nat n) x.
Proof.
  revert x. induction n as [|n IH]; intros x; [symmetry; apply Z.mod_1_r|]. rewrite le_bytes_S. cbn [le_value foldr].
  fold (le_value (le_bytes n (x / 256))). rewrite IH. unfold wrap.
  replace (8 * Z.of_nat (S n)) with (8 + 8 * Z.of_nat n) by lia. rewrite Z.pow_add_r by lia.
  by rewrite Z.rem_mul_r by lia.
Qed.

Lemma le_bytes_value l : Forall is_byte l → le_bytes (length l) (le_value l) = l.
Proof.
  induction 1 as [|b l Hb _ IH]; [done|]. cbn [length]. rewrite le_bytes_S. cbn [le_value foldr].
  fold (le_value l). unfold is_byte in Hb. unfold wrap. f_equal.
  - replace (2 ^ 8) with 256 by done. rewrite Z.mul_comm, Z.mod_add by lia. by apply Z.mod_small.
  - rewrite Z.mul_comm, Z.div_add, Z.div_small by lia. done.
Qed.

Lemma le_value_range l : Forall is_byte l → 0 ≤ le_value l < 256 ^ Z.of_nat (length l).
Proof.
  induction 1 as [|b l Hb _ IH]; [done|]. cbn [le_value foldr length]. fold (le_value l).
  rewrite Nat2Z.inj_succ, Z.pow_succ_r by lia. unfold is_byte in Hb. lia.
Qed.

Lemma le_bytes_byte n x : Forall is_byte (le_bytes n x).
Proof. apply Forall_forall. intros b (i & -> & _)%list_elem_of_fmap. by apply (wrap_range 8). Qed.

(** Equations between a boolean test of integers and its value; [lia] alone does not see
    that lengths inside such a test are not negative. *)
Ltac blia_goal :=
  first
    [ apply Z.ltb_lt; lia | apply Z.ltb_ge; lia | apply Z.leb_le; lia | apply Z.leb_gt; lia
    | apply Z.eqb_eq; lia | apply Z.eqb_neq; lia
    | apply andb_true_intro; split; blia_goal | apply andb_false_intro1; blia_goal
    | apply andb_false_intro2; blia_goal ].
Ltac blia := first [lia | blia_goal | symmetry; blia_goal].

(** ** Faults, results and the state monad

    What the C code does when it goes wrong: a failed [KERNEL_ASSERT] (the kernel
    prints and hangs), an access through a null pointer or outside an array, a
    division by zero, a signed overflow, an access to an address with nothing behind it, and a loop that is given less
    fuel than it needs. *)
Inductive fault :=
  | AssertFailed (msg : string)
  | NullDeref
  | OutOfBounds
  | DivByZero
  | SignedOverflow
  | BadPointer (addr : Z)
  | OutOfFuel.

#[export] Instance fault_eq_dec : EqDecision fault.
Proof. solve_decision. Defined.

Inductive result (A : Type) :=
  | Ok (a : A)
  | Fault (f : fault).
Arguments Ok {A} a.
Arguments Fault {A} f.

#[export] Instance result_ret : MRet result := @Ok.
#[export] Instance result_bind : MBind result :=
  λ A B k m, match m with Ok a => k a | Fault f => Fault f end.

Definition M (S A : Type) : Type := S → result (A * S).

#[export] Instance M_ret {S} : MRet (M S) := λ A a s, Ok (a, s).
#[export] Instance M_bind {S} : MBind (M S) :=
  λ A B k m s, match m s with Ok (a, s') => k a s' | Fault f => Fault f end.

Definition throw {S A} (f : fault) : M S A := λ _, Fault f.
Definition gets {S A} (f : S → A) : M S A := λ s, Ok (f s, s).
Definition modify {S} (f : S → S) : M S unit := λ s, Ok (tt, f s).

(** [KERNEL_ASSERT(c, msg)]. *)
Definition kernel_assert {S} (c : bool) (msg : string) : M S unit :=
  if c then mret tt else throw (AssertFailed msg).

(** A read through a pointer or an index that may be invalid. *)
Definition of_option {S A} (f : fault) (o : option A) : M S A :=
  match o with Some a => mret a | None => throw f end.

(** Array access with an integer index. *)
Definition lookupZ {A} (l : list A) (i : Z) : option A :=
  if i <? 0 then None else l !! Z.to_nat i.
Definition insertZ {A} (i : Z) (x : A) (l : list A) : list A :=
  if i <? 0 then l else <[Z.to_nat i := x]> l.

(** The walk along a linked list to the first node that satisfies [P]: the nodes before
    it, the node, the nodes after it. *)
Fixpoint find_split {A} (P : A → bool) (l : list A) : option (list A * A * list A) :=
  match l with
  | [] => None
  | x :: l =>
      if P x then Some ([], x, l)
      else '(before, y, after) ← find_split P l; Some (x :: before, y, after)
  end.

(** A function that does not repeat on a list is injective on it. *)
Lemma fmap_inj_elem {A B} (f : A → B) l x y : NoDup (f <$> l) → x ∈ l → y ∈ l → f x = f y → x = y.
Proof.
  intros Hnd [i Hi]%list_elem_of_lookup [j Hj]%list_elem_of_lookup Ef. rewrite NoDup_alt in Hnd.
  assert (i = j) as <- by (apply (Hnd i j (f x)); rewrite list_lookup_fmap; [by rewrite Hi|by rewrite Hj, Ef]). congruence.
Qed.

Section arrays.
Context {A : Type}.
Implicit Types (l : list A) (i j : Z) (x : A).

Lemma lookupZ_insertZ_eq l i x : is_Some (lookupZ l i) → lookupZ (insertZ i x l) i = Some x.
Proof.
  unfold lookupZ, insertZ. destruct (Z.ltb_spec i 0); [by intros []|].
  intros [y Hy]. apply list_lookup_insert_eq. by eapply lookup_lt_Some.
Qed.

Lemma lookupZ_insertZ_ne l i j x : i ≠ j → lookupZ (insertZ i x l) j = lookupZ l j.
Proof.
  unfold lookupZ, insertZ. intros. destruct (Z.ltb_spec i 0), (Z.ltb_spec j 0); try done.
  apply list_lookup_insert_ne. lia.
Qed.

Lemma length_insertZ l i x : length (insertZ i x l) = length l.
Proof. unfold insertZ. destruct (i <? 0); [done|]. apply length_insert. Qed.

Lemma lookupZ_Some_range l i x : lookupZ l i = Some x → 0 ≤ i < Z.of_nat (length l).
Proof.
  unfold lookupZ. destruct (Z.ltb_spec i 0); [done|].
  intros Hx%lookup_lt_Some. lia.
Qed.

Lemma lookupZ_is_Some l i : is_Some (lookupZ l i) ↔ 0 ≤ i < Z.of_nat (length l).
Proof.
  split; [intros [x Hx]; by eapply lookupZ_Some_range|].
  unfold lookupZ. destruct (Z.ltb_spec i 0); [lia|]. intros. apply lookup_lt_is_Some. lia.
Qed.

Lemma lookupZ_Forall (P : A → Prop) l i x : Forall P l → lookupZ l i = Some x → P x.
Proof. unfold lookupZ. case_match; [done|]. intros Hl Hx. by eapply Forall_lookup_1. Qed.

Lemma insertZ_Forall (P : A → Prop) l i x : Forall P l → P x → Forall P (insertZ i x l).
Proof. unfold insertZ. case_match; [done|]. intros Hl Hx. by apply Forall_insert. Qed.

Lemma find_split_Some (P : A → bool) l before x after :
  find_split P l = Some (before, x, after) →
  l = before ++ x :: after ∧ P x = true ∧ Forall (λ y, P y = false) before.
Proof.
  revert before. induction l as [|y l IH]; intros before; cbn; [done|].
  destruct (P y) eqn:Hy; [intros [= <- <- <-]; by split_and!|].
  destruct (find_split P l) as [[[b z] a]|] eqn:Hf; cbn; [|done].
  intros [= <- <- <-]. destruct (IH b eq_refl) as (-> & ? & ?).
  split_and!; [done|done|by constructor].
Qed.

Lemma find_split_Forall (Q : A → Prop) (P : A → bool) l before x after :
  find_split P l = Some (before, x, after) → Forall Q l → Q x ∧ Forall Q (before ++ after).
Proof. intros (-> & _ & _)%find_split_Some [? [? ?]%Forall_cons]%Forall_app. split; [done|by apply Forall_app]. Qed.

Lemma find_split_None (P : A → bool) l :
  find_split P l = None ↔ Forall (λ y, P y = false) l.
Proof.
  induction l as [|y l IH]; cbn; [by split|].
  rewrite Forall_cons. destruct (P y) eqn:Hy; [naive_solver|].
  destruct (find_split P l) as [[[b z] a]|]; cbn; naive_solver.
Qed.

Lemma find_split_is_Some (P : A → bool) l x :
  x ∈ l → P x = true → is_Some (find_split P l).
Proof.
  intros Hx HP. destruct (find_split P l) eqn:E; [eauto|].
  apply find_split_None in E. rewrite Forall_forall in E. by rewrite E in HP.
Qed.

Lemma find_split_app (P : A → bool) before x after :
  Forall (λ y, P y = false) before → P x = true →
  find_split P (before ++ x :: after) = Some (before, x, after).
Proof.
  intros Hb Hx. induction Hb as [|y before Hy _ IH]; cbn; [by rewrite Hx|]. by rewrite Hy, IH.
Qed.
End arrays.

(** A computation that returned did so step by step. *)
Lemma bind_Ok {S A B} (m : M S A) (k : A → M S B) s b s' :
  (m ≫= k) s = Ok (b, s') → ∃ a s1, m s = Ok (a, s1) ∧ k a s1 = Ok (b, s').
Proof. unfold mbind, M_bind. destruct (m s) as [[a s1]|]; [|done]. intros E. by exists a, s1. Qed.
Lemma bind_eq {S A B} (m : M S A) (k : A → M S B) s a s1 : m s = Ok (a, s1) → (m ≫= k) s = k a s1.
Proof. intros E. unfold mbind, M_bind. by rewrite E. Qed.

(** ** Computations on a part of the state

    What a component does to its own state, as a step of a state that has it. *)
Class Part (T S : Type) := { part_of : S → T; with_part : T → S → S }.

Class PartLaws (T S : Type) `{!Part T S} : Prop := {
  part_of_with : ∀ (t : T) (s : S), part_of (with_part t s) = t;
  with_part_of : ∀ s : S, with_part (part_of s) s = s;
}.

Definition on_part {T S A} `{!Part T S} (m : M T A) : M S A := λ s,
  match m (part_of s) with
  | Ok (r, t) => Ok (r, with_part t s)
  | Fault f => Fault f
  end.

(** Every state is a part of itself. *)
#[export] Instance whole {S} : Part S S | 10 := {| part_of s := s; with_part t _ := t |}.
#[export] Instance whole_laws {S} : PartLaws S S.
Proof. by split. Qed.

Lemma on_part_gets {T S A} `{!Part T S, !PartLaws T S} (f : T → A) (s : S) : on_part (gets f) s = Ok (f (part_of s), s).
Proof. unfold on_part, gets. by rewrite with_part_of. Qed.

Lemma on_part_Ok {T S A} `{!Part T S} (m : M T A) (s : S) r s' :
  on_part m s = Ok (r, s') → ∃ t, m (part_of s) = Ok (r, t) ∧ s' = with_part t s.
Proof. unfold on_part. destruct (m (part_of s)) as [[a t]|]; [|done]. intros [= <- <-]. by exists t. Qed.

(** [m] does not change what [f] reads of the state. *)
Definition keeps {S X A} (f : S → X) (m : M S A) : Prop := ∀ s r s', m s = Ok (r, s') → f s' = f s.

(** [m] applies [g] to it. *)
Definition updates {S X A} (f : S → X) (g : X → X) (m : M S A) : Prop := ∀ s r s', m s = Ok (r, s') → f s' = g (f s).

Section keeps.
Context {S X : Type} (f : S → X).

Lemma keeps_ret {A} (a : A) : keeps f (mret a).
Proof. by intros s r s' [= _ <-]. Qed.
Lemma keeps_throw {A} e : keeps f (throw e : M S A).
Proof. by intros s r s'. Qed.
Lemma keeps_of_option {A} e (o : option A) : keeps f (of_option e o : M S A).
Proof. by destruct o; intros s r s' [= _ <-]. Qed.
Lemma keeps_assert c msg : keeps f (kernel_assert c msg : M S unit).
Proof. by destruct c; intros s r s' [= _ <-]. Qed.
Lemma keeps_gets {A} (g : S → A) : keeps f (gets g).
Proof. by intros s r s' [= _ <-]. Qed.
Lemma keeps_modify g : (∀ s, f (g s) = f s) → keeps f (modify g).
Proof. intros Hg s r s' [= _ <-]. apply Hg. Qed.
Lemma keeps_bind {A B} (m : M S A) (k : A → M S B) : keeps f m → (∀ a, keeps f (k a)) → keeps f (m ≫= k).
Proof. intros Hm Hk s r s' (a & s1 & E1 & E2)%bind_Ok. rewrite (Hk a _ _ _ E2). by apply Hm in E1. Qed.
Lemma keeps_on_part {T A} `{!Part T S} (m : M T A) : (∀ t s, f (with_part t s) = f s) → keeps f (on_part m).
Proof. intros Hf s r s' (t & _ & ->)%on_part_Ok. apply Hf. Qed.

Lemma updates_behind {A B} g (m : M S A) (k : A → M S B) : keeps f m → (∀ a, updates f g (k a)) → updates f g (m ≫= k).
Proof. intros Hm Hk s r s' (a & s1 & E1 & E2)%bind_Ok. rewrite (Hk a _ _ _ E2). f_equal. by apply Hm in E1. Qed.
Lemma updates_before {A B} g (m : M S A) (k : A → M S B) : updates f g m → (∀ a, keeps f (k a)) → updates f g (m ≫= k).
Proof. intros Hm Hk s r s' (a & s1 & E1 & E2)%bind_Ok. rewrite (Hk a _ _ _ E2). by apply Hm in E1. Qed.
Lemma updates_throw {A} g e : updates f g (throw e : M S A).
Proof. by intros s r s'. Qed.
End keeps.

Create HintDb keeps.
#[export] Hint Resolve keeps_ret keeps_throw keeps_of_option keeps_assert keeps_gets : keeps.
#[export] Hint Extern 1 (keeps _ (on_part _)) => apply keeps_on_part; done : keeps.
#[export] Hint Extern 1 (keeps _ (modify _)) => apply keeps_modify; done : keeps.
Ltac keeps := repeat first [ progress intros | apply keeps_bind | solve [eauto with keeps] | case_match ].

(** ** Total correctness

    [wp m Q s]: run from [s], [m] does not fault, finishes, and [Q] holds of what
    it returns and of the state it leaves. *)
Definition wp {S A} (m : M S A) (Q : A → S → Prop) (s : S) : Prop :=
  ∃ a s', m s = Ok (a, s') ∧ Q a s'.

Section wp.
Context {S : Type}.
Implicit Types s : S.

Lemma wp_ret {A} (a : A) Q s : Q a s → wp (mret a) Q s.
Proof. intros H. by exists a, s. Qed.

Lemma wp_bind {A B} (m : M S A) (k : A → M S B) Q s :
  wp m (λ a s', wp (k a) Q s') s → wp (m ≫= k) Q s.
Proof.
  intros (a & s' & Hm & b & s'' & Hk & HQ). exists b, s''. split; [|done].
  unfold mbind, M_bind. by rewrite Hm.
Qed.

Lemma wp_mono {A} (m : M S A) (P Q : A → S → Prop) s :
  wp m P s → (∀ a s', P a s' → Q a s') → wp m Q s.
Proof. intros (a & s' & Hm & HP) HPQ. exists a, s'. auto. Qed.

Lemma wp_gets {A} (f : S → A) Q s : Q (f s) s → wp (gets f) Q s.
Proof. intros H. by exists (f s), s. Qed.

Lemma wp_modify (f : S → S) Q s : Q tt (f s) → wp (modify f) Q s.
Proof. intros H. by exists tt, (f s). Qed.

Lemma wp_assert c msg Q s : c = true → Q tt s → wp (kernel_assert c msg) Q s.
Proof. intros -> H. by exists tt, s. Qed.

Lemma wp_of_option {A} (a : A) o f Q s : o = Some a → Q a s → wp (of_option f o) Q s.
Proof. intros -> H. by exists a, s. Qed.

Lemma wp_on_part {T A} `{!Part T S} (m : M T A) (Q : A → S → Prop) s :
  wp m (λ a t, Q a (with_part t s)) (part_of s) → wp (on_part m) Q s.
Proof. intros (a & t & Hm & HQ). exists a, (with_part t s). split; [|done]. unfold on_part. by rewrite Hm. Qed.

Lemma wp_eq {A} (m : M S A) a s s' : wp m (λ b s1, b = a ∧ s1 = s') s → m s = Ok (a, s').
Proof. by intros (b & s1 & -> & -> & ->). Qed.

Lemma wp_run {A} (m : M S A) Q s a s' : wp m Q s → m s = Ok (a, s') → Q a s'.
Proof. intros (b & s'' & Hm & HQ) Hm'. rewrite Hm in Hm'. by injection Hm' as -> ->. Qed.
End wp.

(** ** Loops *)

(** [for (i = a; i < a + k; ++i) body(i)]. *)
Fixpoint for_loop {S} (k : nat) (a : Z) (body : Z → M S unit) : M S unit :=
  match k with
  | O => mret tt
  | Datatypes.S k => _ ← body a; for_loop k (a + 1) body
  end.

Definition for_range {S} (a b : Z) (body : Z → M S unit) : M S unit :=
  for_loop (Z.to_nat (b - a)) a body.

(** A loop whose body either goes round again with new loop variables ([inl]) or
    leaves with a result ([inr]). *)
Fixpoint loop {S A B} (fuel : nat) (body : A → M S (A + B)) (a : A) : M S B :=
  match fuel with
  | O => throw OutOfFuel
  | Datatypes.S fuel =>
      r ← body a; match r with inl a' => loop fuel body a' | inr b => mret b end
  end.

Section loops.
Context {S : Type}.

Lemma wp_for_loop (I : Z → S → Prop) k a body Q s :
  I a s →
  (∀ i s', a ≤ i < a + Z.of_nat k → I i s' → wp (body i) (λ _, I (i + 1)) s') →
  (∀ s', I (a + Z.of_nat k) s' → Q tt s') →
  wp (for_loop k a body) Q s.
Proof.
  revert a s. induction k as [|k IH]; intros a s HI Hbody HQ; cbn [for_loop].
  - apply wp_ret, HQ. by rewrite Z.add_0_r.
  - apply wp_bind. eapply wp_mono; [apply Hbody; [lia|done]|].
    intros [] s' HI'. apply IH; [done| |].
    + intros i s'' Hi. apply Hbody. lia.
    + intros s''. replace (a + 1 + Z.of_nat k) with (a + Z.of_nat (Datatypes.S k)) by lia.
      apply HQ.
Qed.

Lemma wp_for_range (I : Z → S → Prop) a b body Q s :
  a ≤ b →
  I a s →
  (∀ i s', a ≤ i < b → I i s' → wp (body i) (λ _, I (i + 1)) s') →
  (∀ s', I b s' → Q tt s') →
  wp (for_range a b body) Q s.
Proof.
  intros Hab HI Hbody HQ. apply (wp_for_loop I); [done| |].
  - intros i s' Hi. apply Hbody. lia.
  - replace (a + Z.of_nat (Z.to_nat (b - a))) with b by lia. done.
Qed.

Lemma for_range_split {S'} a b c (body : Z → M S' unit) s :
  a ≤ b ≤ c → for_range a c body s = (_ ← for_range a b body; for_range b c body) s.
Proof.
  intros H. unfold for_range. replace (Z.to_nat (c - a)) with (Z.to_nat (b - a) + Z.to_nat (c - b))%nat by lia.
  assert (∀ k1 k2 a s, for_loop (k1 + k2) a body s = (_ ← for_loop k1 a body; for_loop k2 (a + Z.of_nat k1) body) s) as Hsplit.
  { induction k1 as [|k1 IH]; intros k2 x s'; cbn [for_loop Nat.add].
    - unfold mbind, M_bind. cbn. by rewrite Z.add_0_r.
    - unfold mbind, M_bind. destruct (body x s') as [[[] s'']|f]; [|done]. rewrite IH. unfold mbind, M_bind.
      destruct (for_loop k1 (x + 1) body s'') as [[[] s3]|f]; [|done].
      by replace (x + 1 + Z.of_nat k1) with (x + Z.of_nat (Datatypes.S k1)) by lia. }
  rewrite Hsplit. unfold mbind, M_bind. destruct (for_loop _ a body s) as [[[] s']|f]; [|done].
  by replace (a + Z.of_nat (Z.to_nat (b - a))) with b by lia.
Qed.

Lemma for_range_first {S'} a b (body : Z → M S' unit) s :
  a < b → for_range a b body s = (_ ← body a; for_range (a + 1) b body) s.
Proof.
  intros H. unfold for_range. replace (Z.to_nat (b - a)) with (Datatypes.S (Z.to_nat (b - (a + 1)))) by lia. done.
Qed.

Lemma loop_next {A B} fuel (body : A → M S (A + B)) a a' s s' :
  body a s = Ok (inl a', s') → loop (Datatypes.S fuel) body a s = loop fuel body a' s'.
Proof. intros Hb. cbn [loop]. unfold mbind, M_bind. by rewrite Hb. Qed.

Lemma loop_done {A B} fuel (body : A → M S (A + B)) a b s s' :
  body a s = Ok (inr b, s') → loop (Datatypes.S fuel) body a s = Ok (b, s').
Proof. intros Hb. cbn [loop]. unfold mbind, M_bind. by rewrite Hb. Qed.

Lemma wp_loop_unroll {A B} fuel (body : A → M S (A + B)) a (Q : B → S → Prop) s :
  wp (body a) (λ r s', match r with inl a' => wp (loop fuel body a') Q s' | inr b => Q b s' end) s →
  wp (loop (Datatypes.S fuel) body a) Q s.
Proof.
  intros H. cbn [loop]. apply wp_bind. eapply wp_mono; [exact H|].
  intros [a'|b] s'; [done|]. apply wp_ret.
Qed.

Lemma wp_loop {A B} (I : A → S → Prop) (V : A → S → nat) fuel
    (body : A → M S (A + B)) a (Q : B → S → Prop) s :
  I a s →
  (V a s < fuel)%nat →
  (∀ a s, I a s →
     wp (body a) (λ r s', match r with
                          | inl a' => I a' s' ∧ (V a' s' < V a s)%nat
                          | inr b => Q b s'
                          end) s) →
  wp (loop fuel body a) Q s.
Proof.
  intros HI HV Hbody. revert a s HI HV.
  induction fuel as [|fuel IH]; intros a s HI HV; [lia|].
  cbn [loop]. apply wp_bind. eapply wp_mono; [by apply Hbody|].
  intros [a'|b] s'; [intros [HI' HV']; apply IH; [done|lia]|]. apply wp_ret.
Qed.
End loops.

(** ** Types of the state

    [typed I m Q]: from a state with [I], when [m] returns, [I] holds again and [Q] of the
    result. Computations are checked for it the way a type checker would: [I] says that
    every field is in the range of its C type. *)
Definition typed {S A} (I : S → Prop) (m : M S A) (Q : A → Prop) : Prop :=
  ∀ s r s', I s → m s = Ok (r, s') → I s' ∧ Q r.

Section typed.
Context {S : Type} (I : S → Prop).

Lemma typed_ret {A} (a : A) (Q : A → Prop) : Q a → typed I (mret a) Q.
Proof. by intros HQ s r s' HI [= <- <-]. Qed.
Lemma typed_throw {A} f (Q : A → Prop) : typed I (throw f) Q.
Proof. by intros s r s'. Qed.
Lemma typed_assert c msg : typed I (kernel_assert c msg) (λ _, True).
Proof. by destruct c; intros s r s' HI [= <- <-]. Qed.
Lemma typed_of_option {A} f (o : option A) (Q : A → Prop) : (∀ a, o = Some a → Q a) → typed I (of_option f o) Q.
Proof. destruct o as [a|]; intros HQ s r s' HI [= <- <-]. split; [done|by apply HQ]. Qed.
Lemma typed_lookupZ {A} f (l : list A) i (P : A → Prop) : Forall P l → typed I (of_option f (lookupZ l i)) P.
Proof. intros Hl. apply typed_of_option. intros a. by apply lookupZ_Forall. Qed.
Lemma typed_gets {A} (f : S → A) (Q : A → Prop) : (∀ s, I s → Q (f s)) → typed I (gets f) Q.
Proof. intros HQ s r s' HI [= <- <-]. auto. Qed.
Lemma typed_modify f : (∀ s, I s → I (f s)) → typed I (modify f) (λ _, True).
Proof. intros Hf s r s' HI [= <- <-]. auto. Qed.
Lemma typed_bind {A B} (m : M S A) (k : A → M S B) (P : A → Prop) (Q : B → Prop) :
  typed I m P → (∀ a, P a → typed I (k a) Q) → typed I (m ≫= k) Q.
Proof. intros Hm Hk s r s' HI (a & s1 & E1 & E2)%bind_Ok. destruct (Hm _ _ _ HI E1). by eapply Hk. Qed.
Lemma typed_mono {A} (m : M S A) (P Q : A → Prop) : typed I m P → (∀ a, P a → Q a) → typed I m Q.
Proof. intros Hm HPQ s r s' HI E. destruct (Hm _ _ _ HI E). auto. Qed.
Lemma typed_loop {A B} (J : A → Prop) fuel (body : A → M S (A + B)) a (Q : B → Prop) :
  J a → (∀ a, J a → typed I (body a) (λ r, match r with inl a => J a | inr b => Q b end)) → typed I (loop fuel body a) Q.
Proof.
  intros Ha Hbody. revert a Ha. induction fuel as [|fuel IH]; intros a Ha; [apply typed_throw|].
  eapply typed_bind; [by apply Hbody|]. intros [a'|b] Hr; [by apply IH|by apply typed_ret].
Qed.
End typed.

Create HintDb typed.
#[export] Hint Resolve typed_throw typed_assert typed_lookupZ insertZ_Forall Forall_cons_2 Forall_nil_2 Forall_app_2 : typed.
#[export] Hint Extern 1 (typed _ (mret _) (λ _, True)) => by apply typed_ret : typed.

(** Checks one bind after the other; what is left are the typing goals of values. *)
Ltac typed_step :=
  lazymatch goal with
  | |- typed _ (mbind _ _) _ => eapply typed_bind; [solve [eauto 8 with typed]|cbn beta]
  | |- typed _ (mret _) _ => apply typed_ret; cbn beta iota
  | |- typed _ (throw _) _ => apply typed_throw
  | |- typed _ (match _ with _ => _ end) _ => case_match; cbn [fst snd] in *
  | |- typed _ _ _ => first [solve [eauto 8 with typed] | eapply typed_mono; [solve [eauto 8 with typed]|cbn beta]]
  end.
Ltac typed := repeat (progress intros || typed_step); try solve [eauto 8 with typed | repeat case_match; simplify_eq; eauto 8 with typed].

Create HintDb wp discriminated.
#[export] Hint Resolve wp_ret wp_gets wp_modify : wp.

(** One step of symbolic execution: a bind, then the primitive at its head. *)
Ltac wp_step :=
  lazymatch goal with
  | |- wp (mbind _ _) _ _ => apply wp_bind
  | |- wp (mret _) _ _ => apply wp_ret
  | |- wp (gets _) _ _ => apply wp_gets
  | |- wp (modify _) _ _ => apply wp_modify
  | |- wp (kernel_assert _ _) _ _ => apply wp_assert
  | |- wp (of_option _ _) _ _ => eapply wp_of_option
  | |- wp (on_part _) _ _ => apply wp_on_part
  end.
Ltac wp_steps := repeat (wp_step; cbn beta).
