(* ===== verification/Util.v ===== *)
(** The helpers every component uses: kernel/src/util.c, the MIN and MAX macros of
    kernel/include/util.h, PAGE_SIZE of kernel/include/memory/defs.h, and the memory
    map the boot loader hands over (kernel/include/uefi.h). *)
From S2P Require Import Prelude.

Module Util.

Definition PAGE_SIZE : Z := 0x1000.

Definition MAX (a b : Z) : Z := if b <? a then a else b.
Definition MIN (a b : Z) : Z := if a <? b then a else b.

(** 64-bit division: the processor traps on a zero divisor. *)
Definition udiv (n m : Z) : result Z := if m =? 0 then Fault DivByZero else Ok (n / m).

Definition round_up_to_multiple (n m : Z) : result Z :=
  q ← udiv (u64 (u64 (n + m) - 1)) m; Ok (u64 (q * m)).

Definition bound_contains (x lower upper : Z) : bool := (lower <=? x) && (x <? upper).

Definition range_contains (x lower size : Z) : bool :=
  bound_contains x lower (u64 (lower + size)).

(** __builtin_clzll: the number of leading zero bits; undefined on zero. *)
Definition clzll (x : Z) : result Z := if x =? 0 then Fault OutOfBounds else Ok (63 - Z.log2 x).

(** ** The memory map *)

Inductive UEFIMemoryType :=
  | EfiReservedMemoryType | EfiLoaderCode | EfiLoaderData
  | EfiBootServicesCode | EfiBootServicesData
  | EfiRuntimeServicesCode | EfiRuntimeServicesData
  | EfiConventionalMemory | EfiUnusableMemory
  | EfiACPIReclaimMemory | EfiACPIMemoryNVS
  | EfiMemoryMappedIO | EfiMemoryMappedIOPortSpace
  | EfiPalCode | EfiMaxMemoryType.

#[export] Instance UEFIMemoryType_eq_dec : EqDecision UEFIMemoryType.
Proof. solve_decision. Defined.

(** The fields the kernel reads; [pad], [virtual_start] and [attribute] are never read. *)
Record UEFIMemoryDescriptor := {
  md_type : UEFIMemoryType;
  md_physical_start : Z;
  md_num_pages : Z;
}.

(** The end address every user of a descriptor computes. *)
Definition md_end (d : UEFIMemoryDescriptor) : Z :=
  u64 (md_physical_start d + u64 (md_num_pages d * PAGE_SIZE)).

(** ** Properties *)

Lemma round_up_to_multiple_eq n m :
  0 ≤ n → 0 < m → n + m - 1 < 2 ^ 64 →
  round_up_to_multiple n m = Ok ((n + m - 1) / m * m).
Proof.
  intros Hn Hm Hb. unfold round_up_to_multiple, udiv.
  replace (m =? 0) with false by lia. cbn [mbind result_bind].
  assert (u64 (u64 (n + m) - 1) = n + m - 1) as ->.
  { unfold wrap. rewrite Zminus_mod_idemp_l. apply Z.mod_small. lia. }
  f_equal. apply wrap_small. split; [|].
  - apply Z.mul_nonneg_nonneg; [apply Z.div_pos; lia|lia].
  - pose proof (Z.mul_div_le (n + m - 1) m ltac:(lia)). lia.
Qed.

(** [round_up_to_multiple n m] is the least multiple of [m] that is at least [n],
    whenever the sum [n + m - 1] the code forms fits in 64 bits. *)
Theorem round_up_to_multiple_spec n m :
  0 ≤ n → 0 < m → n + m - 1 < 2 ^ 64 →
  ∃ r, round_up_to_multiple n m = Ok r ∧ (m | r) ∧ n ≤ r ∧
       ∀ r', (m | r') → n ≤ r' → r ≤ r'.
Proof.
  intros Hn Hm Hb. eexists. split; [by apply round_up_to_multiple_eq|].
  pose proof (Z.div_mod (n + m - 1) m ltac:(lia)) as Hdm.
  pose proof (Z.mod_pos_bound (n + m - 1) m ltac:(lia)).
  split; [apply Z.divide_factor_r|]. split; [lia|].
  intros r' [k ->] Hr'. apply Z.mul_le_mono_nonneg_r; [lia|].
  apply Z.lt_succ_r. apply Z.div_lt_upper_bound; lia.
Qed.

Lemma round_up_to_multiple_spec_witness :
  round_up_to_multiple 4097 4096 = Ok 8192 ∧
  ∃ r, round_up_to_multiple 4097 4096 = Ok r ∧ (4096 | r) ∧ 4097 ≤ r ∧
       ∀ r', (4096 | r') → 4097 ≤ r' → r ≤ r'.
Proof. split; [reflexivity | apply (round_up_to_multiple_spec 4097 4096); lia]. Defined.

Lemma bound_contains_iff x lower upper :
  bound_contains x lower upper = true ↔ lower ≤ x < upper.
Proof. unfold bound_contains. lia. Qed.

Lemma range_contains_iff x lower size :
  0 ≤ lower → 0 ≤ size → lower + size < 2 ^ 64 →
  range_contains x lower size = true ↔ lower ≤ x < lower + size.
Proof.
  intros. unfold range_contains. rewrite wrap_small by lia. apply bound_contains_iff.
Qed.

(** A range that ends exactly at the top of the address space contains nothing: its
    upper bound wraps to zero. *)
Lemma range_contains_top x lower size :
  0 ≤ x → lower + size = 2 ^ 64 → range_contains x lower size = false.
Proof.
  intros Hx E. unfold range_contains, bound_contains.
  rewrite E. replace (u64 (2 ^ 64)) with 0 by done. lia.
Qed.

End Util.
