(* ===== verification/Libc.v ===== *)
(** The freestanding C library: libc/src/string and libc/src/stdlib.

    Memory is a finite map from byte addresses to bytes in [0, 256); an access to an
    address outside the map faults. [char] is signed on the target (x86-64, clang), so
    the comparisons read bytes through [signed 8]. *)
From S2P Require Import Prelude.

Module Libc.

Abbreviation mem := (gmap Z Z).

Definition load (a : Z) : M mem Z := m ← gets (λ m : mem, m !! a); of_option (BadPointer a) m.
Definition store (a v : Z) : M mem unit :=
  _ ← load a; modify (λ m : mem, <[a := v]> m).
Definition load_char (a : Z) : M mem Z := b ← load a; mret (signed 8 b).

Definition memset (str c n : Z) : M mem Z :=
  _ ← for_range 0 n (λ i, store (str + i) (u8 c)); mret str.

Definition memcpy (dest src n : Z) : M mem Z :=
  _ ← for_range 0 n (λ i, v ← load (src + i); store (dest + i) v);
  mret dest.

Definition memmove (dest src n : Z) : M mem Z :=
  _ ← (if dest <? src
       then for_range 0 n (λ i, v ← load (src + i); store (dest + i) v)
       else for_range 1 (n + 1) (λ i, v ← load (src + (n - i)); store (dest + (n - i)) v));
  mret dest.

Definition memcmp (str1 str2 n : Z) : M mem Z :=
  loop (Datatypes.S (Z.to_nat n)) (λ i,
    if i <? n then
      c1 ← load_char (str1 + i); c2 ← load_char (str2 + i);
      mret (if c1 =? c2 then inl (i + 1) else inr (c1 - c2))
    else mret (inr 0)) 0.

(** The fuel is the caller's bound on the length of the first string. *)
Definition strcmp (fuel : nat) (str1 str2 : Z) : M mem Z :=
  loop fuel (λ '(p1, p2),
    c1 ← load_char p1; c2 ← load_char p2;
    mret (if negb (c1 =? 0) && (c1 =? c2) then inl (p1 + 1, p2 + 1) else inr (c1 - c2)))
    (str1, str2).

(** ** Number parsing

    A string is the list of its characters before the terminating NUL; [*str] of the
    empty list is that NUL. The three functions differ only in the width of the
    result, whose overflow is undefined. *)

Definition deref (str : list Z) : Z := match str with c :: _ => c | [] => 0 end.

Fixpoint skip_spaces (str : list Z) : list Z :=
  match str with
  | c :: str' => if c =? 32 then skip_spaces str' else str
  | [] => []
  end.

(** Signed arithmetic at width [w]. *)
Definition sint (w x : Z) : result Z :=
  if (- 2 ^ (w - 1) <=? x) && (x <? 2 ^ (w - 1)) then Ok x else Fault SignedOverflow.

Fixpoint parse_digits (w : Z) (str : list Z) (res : Z) : result Z :=
  match str with
  | c :: str' =>
      if (0 <? c - 48) && (c - 48 <? 10) then
        ten ← sint w (10 * res); res' ← sint w (c - 48 + ten); parse_digits w str' res'
      else Ok res
  | [] => Ok res
  end.

Definition ato (w : Z) (str : list Z) : result Z :=
  let str := skip_spaces str in
  let '(sign, str) :=
    if deref str =? 45 then (true, tail str)
    else (false, if deref str =? 43 then tail str else str) in
  res ← parse_digits w str 0;
  if sign : bool then sint w (-1 * res) else Ok res.

Definition atoi : list Z → result Z := ato 32.
Definition atol : list Z → result Z := ato 64.
Definition atoll : list Z → result Z := ato 64.

(** ** Memory blocks *)

Definition mapped (m : mem) (a n : Z) : Prop := ∀ i, 0 ≤ i < n → is_Some (m !! (a + i)).

(** [m'] is [m] with the bytes [src, src+n) of [m] written at [dest]. *)
Definition copied (dest src n : Z) (m m' : mem) : Prop :=
  ∀ x, m' !! x = if decide (dest ≤ x < dest + n) then m !! (src + (x - dest)) else m !! x.

Lemma wp_load a (v : Z) (Q : Z → mem → Prop) m : m !! a = Some v → Q v m → wp (load a) Q m.
Proof. intros Hv HQ. unfold load. wp_steps; done. Qed.

Lemma wp_store a v (Q : unit → mem → Prop) m :
  is_Some (m !! a) → Q tt (<[a := v]> m) → wp (store a v) Q m.
Proof.
  intros [w Hw] HQ. unfold store. wp_step. eapply wp_load; [done|]. by wp_steps.
Qed.

Lemma mapped_insert m a n x v : mapped m a n → mapped (<[x := v]> m) a n.
Proof.
  intros Hm i Hi. destruct (Hm i Hi) as [w Hw].
  destruct (decide (x = a + i)) as [->|]; simplify_map_eq; eauto.
Qed.

(** One byte of a copy: a read at an address still holding the original byte, then a
    write. *)
Lemma wp_copy_byte a b v (Q : unit → mem → Prop) m :
  m !! a = Some v → is_Some (m !! b) → Q tt (<[b := v]> m) →
  wp (v ← load a; store b v) Q m.
Proof.
  intros. wp_step. eapply wp_load; [done|]. by apply wp_store.
Qed.

Lemma copied_lookup_src dest src k m m' i :
  copied dest src k m m' → (dest ≤ src ∨ src + i < dest) → k ≤ i →
  m' !! (src + i) = m !! (src + i).
Proof. intros Hc ??. rewrite Hc. rewrite decide_False by lia. done. Qed.

(** The forward loop, on its own: right when the destination does not start inside
    the source block. *)
Lemma wp_copy_forward dest src n m :
  0 ≤ n → mapped m src n → mapped m dest n → dest ≤ src ∨ src + n ≤ dest →
  wp (for_range 0 n (λ i, v ← load (src + i); store (dest + i) v))
     (λ _ m', copied dest src n m m') m.
Proof.
  intros Hn Hsrc Hdst Hov.
  apply (wp_for_range (λ i m', copied dest src i m m' ∧ mapped m' dest n)); [done| | |].
  - split; [|done]. intros x. by rewrite decide_False by lia.
  - intros i m' Hi [Hc Hm']. destruct (Hsrc i Hi) as [v Hv].
    eapply wp_copy_byte; [|by apply Hm'|].
    { rewrite (copied_lookup_src _ _ _ _ _ _ Hc); [done|lia|lia]. }
    split; [|by apply mapped_insert]. intros x. destruct (decide (x = dest + i)) as [->|Hx].
    + rewrite lookup_insert_eq, decide_True by lia.
      by replace (src + (dest + i - dest)) with (src + i) by lia.
    + rewrite lookup_insert_ne, Hc by done.
      destruct (decide (dest ≤ x < dest + i)), (decide (dest ≤ x < dest + (i + 1))); done || lia.
  - by intros m' [Hc _].
Qed.

(** The backward loop: after [i - 1] rounds the last [i - 1] bytes are in place. *)
Lemma wp_copy_backward dest src n m :
  0 ≤ n → mapped m src n → mapped m dest n → src ≤ dest →
  wp (for_range 1 (n + 1) (λ i, v ← load (src + (n - i)); store (dest + (n - i)) v))
     (λ _ m', copied dest src n m m') m.
Proof.
  intros Hn Hsrc Hdst Hov.
  apply (wp_for_range (λ i m',
    copied (dest + (n - i + 1)) (src + (n - i + 1)) (i - 1) m m' ∧ mapped m' dest n)); [lia| | |].
  - split; [|done]. intros x. by rewrite decide_False by lia.
  - intros i m' Hi [Hc Hm']. destruct (Hsrc (n - i)) as [v Hv]; [lia|].
    eapply wp_copy_byte; [|apply Hm'; lia|].
    { rewrite Hc, decide_False by lia. done. }
    split; [|by apply mapped_insert].
    intros x. destruct (decide (x = dest + (n - i))) as [->|Hx].
    + rewrite lookup_insert_eq, decide_True by lia. rewrite <- Hv. f_equal. lia.
    + rewrite lookup_insert_ne, Hc by done.
      destruct (decide _), (decide _); try lia; [f_equal; lia|done].
  - intros m' [Hc _]. revert Hc.
    replace (dest + (n - (n + 1) + 1)) with dest by lia.
    replace (src + (n - (n + 1) + 1)) with src by lia.
    by replace (n + 1 - 1) with n by lia.
Qed.

(** C36: [memmove] copies the source block as it was before the call, whatever the
    overlap of the two blocks, returns the destination, touches nothing else, and
    never faults on mapped blocks. *)
Theorem memmove_spec dest src n m :
  0 ≤ n → mapped m src n → mapped m dest n →
  wp (memmove dest src n) (λ r m', r = dest ∧ copied dest src n m m') m.
Proof.
  intros Hn Hsrc Hdst. unfold memmove. wp_step.
  destruct (Z.ltb_spec dest src).
  - eapply wp_mono; [apply wp_copy_forward; [done..|lia]|]. intros [] m' Hc. by wp_step.
  - eapply wp_mono; [apply wp_copy_backward; [done..|lia]|]. intros [] m' Hc. by wp_step.
Qed.

Definition demo_mem : mem := list_to_map [(10, 1); (11, 2); (12, 3); (13, 4); (14, 5)].

Lemma memmove_spec_witness :
  wp (memmove 11 10 4) (λ r m', r = 11 ∧ copied 11 10 4 demo_mem m') demo_mem.
Proof.
  apply (memmove_spec 11 10 4 demo_mem); [lia| |]; intros i Hi;
    assert (i = 0 ∨ i = 1 ∨ i = 2 ∨ i = 3) as [->|[->|[->| ->]]] by lia;
    vm_compute; eauto.
Defined.

(** [memcpy] has the same result as [memmove] exactly when the destination does not
    begin inside the source block; this is the precondition its callers must meet. *)
Theorem memcpy_spec dest src n m :
  0 ≤ n → mapped m src n → mapped m dest n → dest ≤ src ∨ src + n ≤ dest →
  wp (memcpy dest src n) (λ r m', r = dest ∧ copied dest src n m m') m.
Proof.
  intros. unfold memcpy. wp_step.
  eapply wp_mono; [by apply wp_copy_forward|]. intros [] m' Hc. by wp_step.
Qed.

Lemma memcpy_spec_witness :
  wp (memcpy 10 12 3) (λ r m', r = 10 ∧ copied 10 12 3 demo_mem m') demo_mem.
Proof.
  apply (memcpy_spec 10 12 3 demo_mem); [lia| | |lia]; intros i Hi;
    assert (i = 0 ∨ i = 1 ∨ i = 2) as [->|[->| ->]] by lia;
    vm_compute; eauto.
Defined.

(** [memset] writes the low byte of its argument to each byte of the block and
    touches nothing else. *)
Theorem memset_spec str c n m :
  0 ≤ n → mapped m str n →
  wp (memset str c n) (λ r m', r = str ∧
    ∀ x, m' !! x = if decide (str ≤ x < str + n) then Some (u8 c) else m !! x) m.
Proof.
  intros Hn Hm. unfold memset. wp_step.
  apply (wp_for_range (λ i m', mapped m' str n ∧
    ∀ x, m' !! x = if decide (str ≤ x < str + i) then Some (u8 c) else m !! x)); [done| | |].
  - split; [done|]. intros x. by rewrite decide_False by lia.
  - intros i m' Hi [Hm' Hx]. apply wp_store; [by apply Hm'|].
    split; [by apply mapped_insert|]. intros x.
    destruct (decide (x = str + i)) as [->|].
    + by rewrite lookup_insert_eq, decide_True by lia.
    + rewrite lookup_insert_ne, Hx by done. destruct (decide _), (decide _); done || lia.
  - intros m' [_ Hx]. by wp_step.
Qed.

Lemma memset_spec_witness :
  wp (memset 10 256 2) (λ r m', r = 10 ∧
    ∀ x, m' !! x = if decide (10 ≤ x < 10 + 2) then Some (u8 256) else demo_mem !! x) demo_mem.
Proof.
  apply (memset_spec 10 256 2 demo_mem); [lia|]. intros i Hi.
  assert (i = 0 ∨ i = 1) as [->| ->] by lia; vm_compute; eauto.
Defined.

(** ** Comparison *)

Lemma signed8_inj a b : 0 ≤ a < 256 → 0 ≤ b < 256 → signed 8 a = signed 8 b → a = b.
Proof.
  unfold signed. intros Ha Hb.
  rewrite !(wrap_small 8) by (cbn; lia). change (2 ^ (8 - 1)) with 128. change (2 ^ 8) with 256.
  destruct (Z.ltb_spec a 128), (Z.ltb_spec b 128); lia.
Qed.

Definition bytes (m : mem) (a n : Z) : Prop := ∀ i, 0 ≤ i < n → ∃ v, m !! (a + i) = Some v ∧ 0 ≤ v < 256.

Lemma wp_load_char a (v : Z) (Q : Z → mem → Prop) m :
  m !! a = Some v → Q (signed 8 v) m → wp (load_char a) Q m.
Proof. intros Hv HQ. unfold load_char. wp_step. eapply wp_load; [done|]. by wp_step. Qed.

(** [memcmp] returns zero exactly on equal blocks; otherwise the difference of the
    first two bytes that differ, read as signed characters. It never faults on mapped
    blocks and leaves memory alone. *)
Theorem memcmp_spec str1 str2 n m :
  0 ≤ n → bytes m str1 n → bytes m str2 n →
  wp (memcmp str1 str2 n) (λ r m', m' = m ∧
    ((r = 0 ∧ ∀ i, 0 ≤ i < n → m !! (str1 + i) = m !! (str2 + i)) ∨
     (r ≠ 0 ∧ ∃ i v1 v2, 0 ≤ i < n ∧ m !! (str1 + i) = Some v1 ∧ m !! (str2 + i) = Some v2 ∧
        r = signed 8 v1 - signed 8 v2 ∧
        ∀ j, 0 ≤ j < i → m !! (str1 + j) = m !! (str2 + j)))) m.
Proof.
  intros Hn H1 H2. unfold memcmp.
  apply (wp_loop (λ i m', m' = m ∧ 0 ≤ i ≤ n ∧
           ∀ j, 0 ≤ j < i → m !! (str1 + j) = m !! (str2 + j))
         (λ i _, Z.to_nat (n - i))); [|lia|].
  - split; [done|]. split; [lia|]. intros; lia.
  - intros i m' (-> & Hi & Heq). destruct (Z.ltb_spec i n) as [Hlt|].
    + destruct (H1 i) as (v1 & Hv1 & ?); [lia|]. destruct (H2 i) as (v2 & Hv2 & ?); [lia|].
      wp_step. eapply wp_load_char; [done|]. wp_step. eapply wp_load_char; [done|]. wp_step.
      destruct (Z.eqb_spec (signed 8 v1) (signed 8 v2)) as [E|E].
      * apply signed8_inj in E; [subst v2|lia..].
        split; [|lia]. split; [done|]. split; [lia|]. intros j Hj.
        destruct (decide (j = i)) as [->|]; [congruence|apply Heq; lia].
      * split; [done|]. right. split; [lia|]. exists i, v1, v2. naive_solver lia.
    + wp_step. split; [done|]. left. split; [done|]. intros j Hj. apply Heq. lia.
Qed.

Lemma memcmp_spec_witness :
  bytes demo_mem 10 2 ∧
  wp (memcmp 10 12 2) (λ r m', m' = demo_mem ∧
    ((r = 0 ∧ ∀ i, 0 ≤ i < 2 → demo_mem !! (10 + i) = demo_mem !! (12 + i)) ∨
     (r ≠ 0 ∧ ∃ i v1 v2, 0 ≤ i < 2 ∧ demo_mem !! (10 + i) = Some v1 ∧
        demo_mem !! (12 + i) = Some v2 ∧ r = signed 8 v1 - signed 8 v2 ∧
        ∀ j, 0 ≤ j < i → demo_mem !! (10 + j) = demo_mem !! (12 + j)))) demo_mem.
Proof.
  assert (bytes demo_mem 10 2 ∧ bytes demo_mem 12 2) as [H1 H2].
  { split; intros i Hi; assert (i = 0 ∨ i = 1) as [->| ->] by lia;
      eexists; (split; [vm_compute; reflexivity|lia]). }
  split; [done|]. by apply (memcmp_spec 10 12 2 demo_mem).
Defined.

(** A string in memory: its characters, none of them NUL, and a NUL. *)
Definition cstring (m : mem) (a : Z) (l : list Z) : Prop :=
  Forall (λ c, 0 < c < 256) l ∧ ∀ i c, (l ++ [0]) !! i = Some c → m !! (a + Z.of_nat i) = Some c.

(** The difference of the first characters that differ, the NUL included, read as signed
    characters. *)
Fixpoint string_difference (l1 l2 : list Z) : Z :=
  match l1, l2 with
  | c1 :: l1, c2 :: l2 => if c1 =? c2 then string_difference l1 l2 else signed 8 c1 - signed 8 c2
  | _, _ => signed 8 (deref l1) - signed 8 (deref l2)
  end.

Lemma string_difference_zero l1 l2 :
  Forall (λ c, 0 < c < 256) l1 → Forall (λ c, 0 < c < 256) l2 → string_difference l1 l2 = 0 ↔ l1 = l2.
Proof.
  intros H1. revert l2. induction H1 as [|c1 l1 Hc1 H1 IH]; intros l2 H2.
  - destruct H2 as [|c2 l2 Hc2 H2]; [done|]. split; [|done]. cbn [string_difference deref]. intros E.
    enough (0 = c2) by lia. apply signed8_inj; [lia..|]. lia.
  - destruct H2 as [|c2 l2 Hc2 H2]; cbn [string_difference deref].
    + split; [|done]. intros E. enough (c1 = 0) by lia. apply signed8_inj; [lia..|]. change (signed 8 0) with 0 in *. lia.
    + destruct (Z.eqb_spec c1 c2) as [->|Hne].
      * rewrite IH by done. naive_solver.
      * split; [|naive_solver]. intros E. destruct Hne. apply signed8_inj; lia.
Qed.

Lemma cstring_cons m a c l : cstring m a (c :: l) ↔ 0 < c < 256 ∧ m !! a = Some c ∧ cstring m (a + 1) l.
Proof.
  unfold cstring. rewrite Forall_cons. split.
  - intros [[Hc Hl] H]. split; [done|]. split; [specialize (H 0%nat c eq_refl); by rewrite Z.add_0_r in H|]. split; [done|].
    intros i x Hi. specialize (H (Datatypes.S i) x Hi). by replace (a + 1 + Z.of_nat i) with (a + Z.of_nat (Datatypes.S i)) by lia.
  - intros (Hc & Ha & Hl & H). split; [done|]. intros [|i] x Hi.
    + injection Hi as <-. by rewrite Z.add_0_r.
    + specialize (H i x Hi). by replace (a + Z.of_nat (Datatypes.S i)) with (a + 1 + Z.of_nat i) by lia.
Qed.

Lemma cstring_first m a l : cstring m a l → m !! a = Some (deref l).
Proof.
  destruct l as [|c l].
  - intros [_ H]. specialize (H 0%nat 0 eq_refl). by rewrite Z.add_0_r in H.
  - by intros (_ & ? & _)%cstring_cons.
Qed.

(** [strcmp] of two strings is their first difference, zero exactly when they are equal; the
    loop ends at the latest behind the first string. *)
Theorem strcmp_spec fuel str1 str2 l1 l2 m :
  cstring m str1 l1 → cstring m str2 l2 → (length l1 < fuel)%nat →
  wp (strcmp fuel str1 str2) (λ r m', r = string_difference l1 l2 ∧ (r = 0 ↔ l1 = l2) ∧ m' = m) m.
Proof.
  intros H1 H2 Hf. enough (wp (strcmp fuel str1 str2) (λ r m', r = string_difference l1 l2 ∧ m' = m) m) as H.
  { eapply wp_mono; [exact H|]. cbv beta. intros r m' [-> ->]. split; [done|]. split; [|done].
    apply string_difference_zero; [apply H1|apply H2]. }
  unfold strcmp. revert str1 str2 l2 fuel H1 H2 Hf. induction l1 as [|c1 l1 IH]; intros str1 str2 l2 fuel H1 H2 Hf;
    (destruct fuel as [|fuel]; [cbn in Hf; lia|]); cbn [loop];
    wp_step; wp_step; (eapply wp_load_char; [by apply cstring_first|]);
    wp_step; (eapply wp_load_char; [by apply cstring_first|]); wp_step; cbn [deref].
  - change (signed 8 0 =? 0) with true. cbn [negb andb]. wp_step. split; [|done]. by destruct l2.
  - apply cstring_cons in H1 as (Hc1 & Hm1 & H1). cbn in Hf.
    destruct (Z.eqb_spec (signed 8 c1) 0) as [E|Hne0].
    { change 0 with (signed 8 0) in E. apply signed8_inj in E; lia. }
    cbn [negb andb]. destruct l2 as [|c2 l2]; cbn [deref string_difference].
    + change (signed 8 0) with 0. destruct (Z.eqb_spec (signed 8 c1) 0); [done|]. by wp_step.
    + apply cstring_cons in H2 as (Hc2 & Hm2 & H2). destruct (Z.eqb_spec c1 c2) as [->|Hne].
      * rewrite Z.eqb_refl. apply IH; [done..|lia].
      * destruct (Z.eqb_spec (signed 8 c1) (signed 8 c2)) as [E|_]; [|by wp_step]. apply signed8_inj in E; lia.
Qed.

(** ** Number parsing *)

Definition nonzero_digit (c : Z) : bool := (0 <? c - 48) && (c - 48 <? 10).

(** The value of a digit string read after the prefix value [acc]. *)
Definition digits_value (ds : list Z) (acc : Z) : Z :=
  fold_left (λ acc c, c - 48 + 10 * acc) ds acc.

Lemma digits_value_mono ds acc :
  Forall (λ c, nonzero_digit c = true) ds → 0 ≤ acc → acc ≤ digits_value ds acc.
Proof.
  intros Hds. revert acc. induction Hds as [|c ds Hc _ IH]; intros acc Hacc; cbn; [lia|].
  unfold nonzero_digit in Hc. etrans; [|apply IH; lia]. lia.
Qed.

Lemma sint_ok w x : 0 ≤ x < 2 ^ (w - 1) → sint w x = Ok x.
Proof.
  intros. unfold sint. replace (_ && _) with true; [done|]. symmetry. lia.
Qed.

Lemma parse_digits_stop w ds rest acc :
  Forall (λ c, nonzero_digit c = true) ds →
  nonzero_digit (deref rest) = false →
  0 ≤ acc → digits_value ds acc < 2 ^ (w - 1) →
  parse_digits w (ds ++ rest) acc = Ok (digits_value ds acc).
Proof.
  intros Hds Hrest. revert acc.
  induction Hds as [|c ds Hc Hds IH]; intros acc Hacc Hmax; cbn [app parse_digits].
  - destruct rest as [|c rest]; [done|]. cbn in Hrest. unfold nonzero_digit in Hrest.
    cbn [parse_digits]. by rewrite Hrest.
  - unfold nonzero_digit in Hc. rewrite Hc.
    assert (c - 48 + 10 * acc ≤ digits_value ds (c - 48 + 10 * acc)) as Hmono
      by (apply digits_value_mono; [done|lia]).
    cbn [digits_value fold_left] in Hmax. fold (digits_value ds (c - 48 + 10 * acc)) in Hmax.
    rewrite sint_ok by lia. cbn [mbind result_bind].
    rewrite sint_ok by lia. cbn [mbind result_bind]. by apply IH; [lia|].
Qed.

Inductive sign := NoSign | Plus | Minus.
Definition sign_chars (g : sign) : list Z :=
  match g with NoSign => [] | Plus => [43] | Minus => [45] end.
Definition signed_value (g : sign) (v : Z) : Z := match g with Minus => - v | _ => v end.

(** Spaces, an optional sign and a run of digits from 1 to 9 are read as the number
    they denote, whatever follows, as long as it is not such a digit. *)
Lemma ato_correct w k g ds rest :
  0 < w →
  Forall (λ c, nonzero_digit c = true) ds →
  ds ≠ [] →
  nonzero_digit (deref rest) = false →
  digits_value ds 0 < 2 ^ (w - 1) →
  ato w (replicate k 32 ++ sign_chars g ++ ds ++ rest) =
    Ok (signed_value g (digits_value ds 0)).
Proof.
  intros Hw Hds Hne Hrest Hmax.
  assert (∀ l, deref l ≠ 32 → skip_spaces (replicate k 32 ++ l) = l) as Hskip.
  { intros l Hl. induction k as [|k IH]; [|done].
    destruct l as [|c l]; [done|]. cbn in Hl |- *. by destruct (Z.eqb_spec c 32). }
  assert (∃ c ds', ds = c :: ds' ∧ nonzero_digit c = true) as (c & ds' & Eds & Hc).
  { destruct Hds; [done|eauto]. }
  assert (49 ≤ deref (ds ++ rest)) as Hd.
  { rewrite Eds. unfold nonzero_digit in Hc. cbn. lia. }
  assert (0 ≤ digits_value ds 0) as Hpos by (by apply digits_value_mono).
  assert (∀ b : bool, (if b then sint w (-1 * digits_value ds 0) else Ok (digits_value ds 0))
    = Ok (if b then - digits_value ds 0 else digits_value ds 0)) as Hsgn.
  { intros []; [|done]. unfold sint.
    replace (_ && _) with true; [by f_equal|symmetry; lia]. }
  pose proof (parse_digits_stop w ds rest 0 Hds Hrest ltac:(lia) Hmax) as Hp.
  unfold ato.
  rewrite Hskip by (destruct g; cbn [sign_chars app]; [lia|done|done]).
  destruct g; cbn [sign_chars app].
  - destruct (Z.eqb_spec (deref (ds ++ rest)) 45), (Z.eqb_spec (deref (ds ++ rest)) 43); try lia.
    cbn. rewrite Hp. apply (Hsgn false).
  - cbn. rewrite Hp. apply (Hsgn false).
  - cbn. rewrite Hp. apply (Hsgn true).
Qed.

(** The digit test of [atoi] ([*str - '0' > 0]) rejects the digit zero, so a number is
    cut off at its first zero digit: [atoi] of a sign, digits [ds] from 1 to 9, a zero and
    anything else is the value of [ds] alone ("105" is 1, "20" is 2). *)
Theorem atoi_stops_at_zero k g ds rest :
  Forall (λ c, nonzero_digit c = true) ds →
  ds ≠ [] →
  digits_value ds 0 < 2 ^ 31 →
  atoi (replicate k 32 ++ sign_chars g ++ ds ++ 48 :: rest) =
    Ok (signed_value g (digits_value ds 0)).
Proof. intros. by apply ato_correct. Qed.

Lemma atoi_stops_at_zero_witness :
  atoi [32; 45; 49; 48; 53] = Ok (-1) ∧
  atoi (replicate 1 32 ++ sign_chars Minus ++ [49] ++ 48 :: [53]) =
    Ok (signed_value Minus (digits_value [49] 0)).
Proof. split; [reflexivity|]. apply (atoi_stops_at_zero 1 Minus [49] [53]); [by repeat constructor|done|done]. Defined.

(** [atol] reads a whole number that has no zero digit, sign included, up to the range
    of [long]. *)
Theorem atol_correct_without_zeros k g ds :
  Forall (λ c, nonzero_digit c = true) ds →
  ds ≠ [] →
  digits_value ds 0 < 2 ^ 63 →
  atol (replicate k 32 ++ sign_chars g ++ ds) = Ok (signed_value g (digits_value ds 0)) ∧
  atoll (replicate k 32 ++ sign_chars g ++ ds) = Ok (signed_value g (digits_value ds 0)).
Proof.
  intros Hds Hne Hmax. rewrite <- (app_nil_r ds) at 1 3.
  split; by apply ato_correct.
Qed.

Lemma atol_correct_without_zeros_witness :
  atol [43; 52; 50] = Ok 42 ∧
  (atol (replicate 0 32 ++ sign_chars Plus ++ [52; 50]) = Ok (signed_value Plus (digits_value [52; 50] 0)) ∧
   atoll (replicate 0 32 ++ sign_chars Plus ++ [52; 50]) = Ok (signed_value Plus (digits_value [52; 50] 0))).
Proof.
  split; [reflexivity|].
  apply (atol_correct_without_zeros 0 Plus [52; 50]); [by repeat constructor|done|done].
Defined.

End Libc.
