(* ===== verification/MemState.v ===== *)
(** The state of the memory subsystem: the globals of kernel/src/memory.c and of
    kernel/src/memory/{entry_pool,frame_allocator,paging}.c, in one record that every
    operation threads.

    A linked list whose nodes are only reached from its head is the list of its nodes;
    each node keeps the pointer of the 16-byte memory entry it lives in, so that giving
    the entry back to the pool is visible. *)
From S2P Require Import Prelude Util.

Module Mem.

(** ** entry_pool.c: g_memory_entry_pool *)
Record EntryPool := { ep_count : Z; ep_head : list Z }.

(** ** frame_allocator.c: g_free_lists and g_frame_order_sizes *)
Record ListEntry := { le_ptr : Z; le_addr : Z }.
Record FreeList := { fl_head : list ListEntry; fl_buddy_map : list Z }.
Record FrameAllocator := { fa_free_lists : list FreeList; fa_order_sizes : list Z }.

(** One node of the list [alloc_frames] returns; [addr] has 57 bits and [order] 7. *)
Record PageFrameAllocation := { pfa_ptr : Z; pfa_addr : Z; pfa_order : Z }.

#[export] Instance ListEntry_eq_dec : EqDecision ListEntry.
Proof. solve_decision. Defined.
#[export] Instance PageFrameAllocation_eq_dec : EqDecision PageFrameAllocation.
Proof. solve_decision. Defined.

(** ** paging.c *)

(** A node of a free list of addresses. [next] has 48 bits, so that a list is followed
    through SIGN_EXT_ADDR; [addr] is a page number of 36 bits and [pages] has 44. *)
Record FreeListEntry := { fle_next : Z; fle_addr : Z; fle_pages : Z }.

(** A page of page entries: its virtual page number (36 bits) and its physical one (38). *)
Record MappingEntry := { me_ptr : Z; me_virt_addr : Z; me_phys_addr : Z }.

Record AddressSpace := {
  as_current_address : Z;
  as_pdp_index : Z;
  as_pdp : Z;
  as_prot : Z;
  as_free_list : Z;
  (** entry_maps[PT] and entry_maps[PD] *)
  as_entry_maps : list (list MappingEntry);
}.

Record PagePool := { pp_count : Z; pp_head : list MappingEntry }.

(** Address spaces are known by the address of their struct. Pages of page entries are
    known by the virtual address the kernel reaches them at. [pg_invalidated] lists the
    addresses [invlpg] was executed for, the last one first. *)
Record PagingState := {
  pg_spaces : gmap Z AddressSpace;
  pg_free_nodes : gmap Z FreeListEntry;
  pg_tables : gmap Z (list Z);
  pg_page_pool : PagePool;
  pg_pml4 : list Z;
  pg_execute_disable : bool;
  pg_invalidated : list Z;
}.

(** ** The whole state; [km_memory_size] is g_memory_size of memory.c. *)
Record kmem := {
  km_pool : EntryPool;
  km_frames : FrameAllocator;
  km_memory_size : Z;
  km_paging : PagingState;
}.

Definition set_pool (p : EntryPool) (s : kmem) : kmem :=
  {| km_pool := p; km_frames := km_frames s; km_memory_size := km_memory_size s;
     km_paging := km_paging s |}.
Definition set_frames (f : FrameAllocator) (s : kmem) : kmem :=
  {| km_pool := km_pool s; km_frames := f; km_memory_size := km_memory_size s;
     km_paging := km_paging s |}.
Definition set_memory_size (z : Z) (s : kmem) : kmem :=
  {| km_pool := km_pool s; km_frames := km_frames s; km_memory_size := z;
     km_paging := km_paging s |}.
Definition set_paging (g : PagingState) (s : kmem) : kmem :=
  {| km_pool := km_pool s; km_frames := km_frames s; km_memory_size := km_memory_size s;
     km_paging := g |}.

Definition empty_paging : PagingState :=
  {| pg_spaces := ∅; pg_free_nodes := ∅; pg_tables := ∅;
     pg_page_pool := {| pp_count := 0; pp_head := [] |};
     pg_pml4 := replicate 512 0; pg_execute_disable := false; pg_invalidated := [] |}.

Abbreviation KM := (M kmem).

(** ** What the entry pool promises its clients

    The pool's operations, and the laws the other allocators rely on. [stock] entries can
    be handed out, and [room] given back, before the pool has to do anything but update
    its own list: such a call touches nothing but the pool. *)
Class MemoryEntries := {
  get_memory_entry : KM Z;
  free_memory_entry : Z → KM unit;
}.

Class MemoryEntriesSpec `{!MemoryEntries} := {
  stock : kmem → Z;
  room : kmem → Z;
  stock_frames : ∀ f s, stock (set_frames f s) = stock s;
  room_frames : ∀ f s, room (set_frames f s) = room s;
  stock_paging : ∀ g s, stock (set_paging g s) = stock s;
  room_paging : ∀ g s, room (set_paging g s) = room s;
  get_memory_entry_spec : ∀ s, 0 < stock s →
    ∃ e p, get_memory_entry s = Ok (e, set_pool p s) ∧
           stock (set_pool p s) = stock s - 1 ∧ room (set_pool p s) = room s + 1;
  free_memory_entry_spec : ∀ e s, 0 < room s →
    ∃ p, free_memory_entry e s = Ok (tt, set_pool p s) ∧
         stock (set_pool p s) = stock s + 1 ∧ room (set_pool p s) = room s - 1;
}.

End Mem.
