(* ===== verification/EntryPool.v ===== *)
(** The pool of 16-byte memory entries: kernel/src/memory/entry_pool.c.

    The pool refills itself with a page from [alloc_pages] (kernel/src/memory.c), which
    itself takes entries from the pool; here [alloc_pages] is an argument, so that the
    recursion is tied where the allocators meet. *)
From S2P Require Import Prelude Util MemState.

Module EntryPool.
Import Util Mem.

Definition ENTRY_THRESHOLD : Z := 20.
Definition sizeof_MemoryEntry : Z := 16.
Definition PAGING_WRITABLE : Z := 1.

Definition set_count (c : Z) (s : kmem) : kmem :=
  set_pool {| ep_count := c; ep_head := ep_head (km_pool s) |} s.

Definition set_head (h : list Z) (s : kmem) : kmem :=
  set_pool {| ep_count := ep_count (km_pool s); ep_head := h |} s.

(** for (i = 0; i < count; ++i): push [addr], then addr += sizeof(MemoryEntry). *)
Fixpoint push_entries (count : nat) (addr : Z) (head : list Z) : list Z :=
  match count with
  | O => head
  | S count => push_entries count (u64 (addr + sizeof_MemoryEntry)) (addr :: head)
  end.

Definition fill_memory_entry_pool (addr pages : Z) : KM unit :=
  let count := u64 (pages * PAGE_SIZE) / sizeof_MemoryEntry in
  _ ← modify (λ s, set_head (push_entries (Z.to_nat count) addr (ep_head (km_pool s))) s);
  modify (λ s, set_count (u64 (ep_count (km_pool s) + count)) s).

Section refill.
Context (alloc_pages : Z → Z → KM Z).

Definition get_memory_entry : KM Z :=
  count ← gets (λ s, ep_count (km_pool s));
  _ ← (if count <? ENTRY_THRESHOLD then
    _ ← modify (λ s, set_count (u64 (ep_count (km_pool s) + ENTRY_THRESHOLD)) s);
    memory ← alloc_pages 1 PAGING_WRITABLE;
    _ ← kernel_assert (negb (memory =? 0)) "Out of memory";
    _ ← fill_memory_entry_pool memory 1;
    modify (λ s, set_count (u64 (ep_count (km_pool s) - ENTRY_THRESHOLD)) s)
  else mret tt);
  head ← gets (λ s, ep_head (km_pool s));
  match head with
  | [] => throw NullDeref
  | entry :: next =>
      _ ← modify (set_head next);
      _ ← modify (λ s, set_count (u64 (ep_count (km_pool s) - 1)) s);
      mret entry
  end.
End refill.

Definition free_memory_entry (entry : Z) : KM unit :=
  _ ← modify (λ s, set_count (u64 (ep_count (km_pool s) + 1)) s);
  modify (λ s, set_head (entry :: ep_head (km_pool s)) s).

(** ** The invariant

    At rest the counter is the length of the list. While a refill is under way the
    counter runs [slack] ahead of it, so that the nested calls do not refill again. *)
Definition pool_wf (slack : Z) (s : kmem) : Prop :=
  ep_count (km_pool s) = Z.of_nat (length (ep_head (km_pool s))) + slack.

#[export] Instance pool_wf_dec slack s : Decision (pool_wf slack s).
Proof. unfold pool_wf. apply _. Defined.

Lemma length_push_entries n addr head :
  length (push_entries n addr head) = (n + length head)%nat.
Proof. revert addr head. induction n as [|n IH]; intros; cbn; [done|]. rewrite IH. cbn. lia. Qed.

(** The entries a fill adds: the addresses [addr + 16 * i], the last one first. *)
Definition page_entries (n : nat) (addr : Z) : list Z :=
  reverse ((λ i, addr + 16 * Z.of_nat i) <$> seq 0 n).

Lemma push_entries_eq n addr head :
  0 ≤ addr → addr + 16 * Z.of_nat n ≤ 2 ^ 64 →
  push_entries n addr head = page_entries n addr ++ head.
Proof.
  revert addr head. induction n as [|n IH]; intros addr head Ha Hb; [done|].
  cbn [push_entries]. destruct n as [|n].
  - cbn. unfold page_entries. cbn. f_equal. lia.
  - rewrite wrap_small by (unfold sizeof_MemoryEntry; lia).
    rewrite IH by (unfold sizeof_MemoryEntry; lia).
    unfold page_entries. change (seq 0 (S (S n))) with (0%nat :: seq 1 (S n)).
    rewrite fmap_cons, reverse_cons, <- app_assoc. cbn [app].
    replace (addr + 16 * Z.of_nat 0) with addr by lia. f_equal. f_equal.
    rewrite <- (fmap_S_seq 0 (S n)), <- list_fmap_compose.
    apply list_fmap_ext. intros i x _. unfold sizeof_MemoryEntry, compose. lia.
Qed.

Lemma wp_fill_memory_entry_pool slack addr pages (Q : unit → kmem → Prop) s :
  pool_wf slack s → 0 < addr → 0 ≤ pages → addr + pages * 4096 ≤ 2 ^ 64 →
  ep_count (km_pool s) + 256 * pages < 2 ^ 64 → 0 ≤ ep_count (km_pool s) →
  (∀ p s', s' = set_pool p s → pool_wf slack s' →
    ep_head p = page_entries (Z.to_nat (256 * pages)) addr ++ ep_head (km_pool s) → Q tt s') →
  wp (fill_memory_entry_pool addr pages) Q s.
Proof.
  intros Hwf Ha Hp Hb Hc Hc0 HQ. unfold fill_memory_entry_pool, PAGE_SIZE, sizeof_MemoryEntry.
  rewrite wrap_small by lia.
  replace (pages * 4096 / 16) with (256 * pages) by (replace (pages * 4096) with (256 * pages * 16) by lia; by rewrite Z.div_mul).
  wp_steps. eapply HQ; [reflexivity| |].
  - unfold pool_wf in *. cbn [set_count set_head set_pool km_pool ep_head ep_count km_frames].
    rewrite length_push_entries, wrap_small by lia. lia.
  - cbn [set_count set_head set_pool km_pool ep_head ep_count km_frames].
    apply push_entries_eq; lia.
Qed.

(** Filling the pool from fresh pages puts exactly the 16-byte slots of those pages
    in front of the list, and keeps the counter equal to the length of the list (plus
    the slack of a refill under way). *)
Theorem fill_memory_entry_pool_spec slack addr pages s :
  pool_wf slack s → 0 < addr → 0 ≤ pages → addr + pages * 4096 ≤ 2 ^ 64 →
  ep_count (km_pool s) + 256 * pages < 2 ^ 64 → 0 ≤ ep_count (km_pool s) →
  wp (fill_memory_entry_pool addr pages) (λ _ s',
    pool_wf slack s' ∧ km_frames s' = km_frames s ∧
    ep_head (km_pool s') = page_entries (Z.to_nat (256 * pages)) addr ++ ep_head (km_pool s)) s.
Proof.
  intros. apply (wp_fill_memory_entry_pool slack); [done..|]. intros p s' -> Hwf Hh. by split_and!.
Qed.

(** A call that finds enough entries only pops the list, whatever [alloc_pages] does;
    this covers the nested calls of a refill, which see a counter of at least 20. *)
Lemma get_memory_entry_pop alloc_pages e rest s :
  ENTRY_THRESHOLD ≤ ep_count (km_pool s) < 2 ^ 64 →
  ep_head (km_pool s) = e :: rest →
  get_memory_entry alloc_pages s =
    Ok (e, set_pool {| ep_count := ep_count (km_pool s) - 1; ep_head := rest |} s).
Proof.
  intros Hc Hh. unfold get_memory_entry, mbind, M_bind, gets.
  replace (_ <? _) with false by lia. cbn -[wrap]. rewrite Hh. cbn -[wrap].
  unfold set_count, set_head, set_pool. cbn -[wrap]. rewrite wrap_small; [done|].
  unfold ENTRY_THRESHOLD in *. lia.
Qed.

(** [get_memory_entry] keeps the counter equal to the length of the list. When it has
    to refill, this holds for every [alloc_pages] that returns a fresh page and keeps the
    counter 20 ahead while it runs, which is what the nested calls do. *)
Theorem get_memory_entry_wf alloc_pages s :
  pool_wf 0 s → ep_count (km_pool s) < 2 ^ 63 →
  (∀ s1, pool_wf ENTRY_THRESHOLD s1 → ep_count (km_pool s1) < 40 →
    wp (alloc_pages 1 PAGING_WRITABLE) (λ p s2,
      0 < p ∧ p + 4096 ≤ 2 ^ 64 ∧ pool_wf ENTRY_THRESHOLD s2 ∧ ep_count (km_pool s2) < 2 ^ 63) s1) →
  wp (get_memory_entry alloc_pages) (λ _ s', pool_wf 0 s') s.
Proof.
  intros Hwf Hmax Halloc. unfold get_memory_entry. do 2 wp_step. wp_step.
  destruct (Z.ltb_spec (ep_count (km_pool s)) ENTRY_THRESHOLD) as [Hlt|Hge];
    unfold pool_wf, ENTRY_THRESHOLD in *.
  - do 2 wp_step. wp_step.
    eapply wp_mono; [apply Halloc|].
    { cbn. rewrite wrap_small by lia. lia. }
    { cbn. rewrite wrap_small by lia. lia. }
    intros p s2 (Hp & Hp2 & Hwf2 & Hmax2). wp_step. wp_step; [lia|].
    wp_step. apply (wp_fill_memory_entry_pool 20); try (unfold pool_wf; lia).
    intros p3 s3 Es3 Hwf3 Hh3. unfold pool_wf in Hwf3. replace p3 with (km_pool s3) in Hh3 by by rewrite Es3.
    clear Es3.
    assert (Z.of_nat (length (ep_head (km_pool s3))) =
            256 + Z.of_nat (length (ep_head (km_pool s2)))) as Hlen.
    { rewrite Hh3, length_app. unfold page_entries.
      rewrite length_reverse, length_fmap, length_seq. lia. }
    clear Hh3.
    do 3 wp_step. cbn. destruct (ep_head (km_pool s3)) as [|e rest]; [cbn in Hlen; lia|].
    cbn [length] in *. wp_steps. cbn -[wrap Z.of_nat].
    rewrite (wrap_small 64 (ep_count (km_pool s3) - 20)) by lia. rewrite wrap_small; lia.
  - do 3 wp_step. destruct (ep_head (km_pool s)) as [|e rest]; [cbn in *; lia|].
    wp_steps. cbn in *. rewrite wrap_small; lia.
Qed.

Definition empty_kmem : kmem :=
  {| km_pool := {| ep_count := 0; ep_head := [] |};
     km_frames := {| fa_free_lists := []; fa_order_sizes := [] |};
     km_memory_size := 0; km_paging := empty_paging |}.

Lemma get_memory_entry_wf_witness :
  match get_memory_entry (λ _ _, mret 0x1000) empty_kmem with
  | Ok (e, s') => e = 0x1ff0 ∧ ep_count (km_pool s') = 255
  | Fault _ => False
  end ∧
  wp (get_memory_entry (λ _ _, mret 0x1000)) (λ _ s', pool_wf 0 s') empty_kmem.
Proof.
  split; [vm_compute; done|].
  apply (get_memory_entry_wf (λ _ _, mret 0x1000) empty_kmem); [done|done|].
  intros s1 Hwf Hmax. apply wp_ret. split; [lia|]. split; [lia|]. split; [done|lia].
Defined.

Lemma fill_memory_entry_pool_spec_witness :
  wp (fill_memory_entry_pool 0x2000 1) (λ _ s',
    pool_wf 0 s' ∧ km_frames s' = km_frames empty_kmem ∧
    ep_head (km_pool s') = page_entries (Z.to_nat (256 * 1)) 0x2000 ++ ep_head (km_pool empty_kmem))
    empty_kmem.
Proof. by apply (fill_memory_entry_pool_spec 0 0x2000 1 empty_kmem). Defined.

(** ** The pool implements the interface *)

Definition pool_stock (s : kmem) : Z :=
  if decide (pool_wf 0 s ∧ ep_count (km_pool s) < 2 ^ 64)
  then ep_count (km_pool s) - (ENTRY_THRESHOLD - 1) else 0.
Definition pool_room (s : kmem) : Z :=
  if decide (pool_wf 0 s ∧ ep_count (km_pool s) < 2 ^ 64)
  then 2 ^ 64 - 1 - ep_count (km_pool s) else 0.

Section instance.
Context (alloc_pages : Z → Z → KM Z).

#[export] Instance pool_entries : MemoryEntries :=
  {| Mem.get_memory_entry := get_memory_entry alloc_pages;
     Mem.free_memory_entry := free_memory_entry |}.

Lemma pool_get_spec s : 0 < pool_stock s →
  ∃ e p, get_memory_entry alloc_pages s = Ok (e, set_pool p s) ∧
         pool_stock (set_pool p s) = pool_stock s - 1 ∧ pool_room (set_pool p s) = pool_room s + 1.
Proof.
  unfold pool_stock, pool_room. destruct (decide _) as [[Hwf Hmax]|]; [|done].
  intros Hpos. unfold pool_wf, ENTRY_THRESHOLD in *.
  destruct (ep_head (km_pool s)) as [|e rest] eqn:Hh; [cbn in *; lia|].
  eexists e, _. split; [apply (get_memory_entry_pop _ e rest); unfold ENTRY_THRESHOLD; [lia|done]|].
  cbn in *. rewrite !decide_True by lia. lia.
Qed.

Lemma pool_free_spec e s : 0 < pool_room s →
  ∃ p, free_memory_entry e s = Ok (tt, set_pool p s) ∧
       pool_stock (set_pool p s) = pool_stock s + 1 ∧ pool_room (set_pool p s) = pool_room s - 1.
Proof.
  unfold pool_stock, pool_room. destruct (decide _) as [[Hwf Hmax]|]; [|done].
  intros Hpos. unfold pool_wf, ENTRY_THRESHOLD in *.
  eexists. split; [reflexivity|]. cbn -[Z.of_nat length] in *.
  rewrite wrap_small by lia. cbn [length]. rewrite !decide_True by lia. lia.
Qed.

#[export] Instance pool_entries_spec : MemoryEntriesSpec :=
  {| stock := pool_stock; room := pool_room;
     stock_frames := λ _ _, eq_refl; room_frames := λ _ _, eq_refl;
     stock_paging := λ _ _, eq_refl; room_paging := λ _ _, eq_refl;
     get_memory_entry_spec := pool_get_spec;
     free_memory_entry_spec := pool_free_spec |}.
End instance.

End EntryPool.
