(* ===== verification/FrameAllocator.v ===== *)
(** The buddy allocator for physical frames: kernel/src/memory/frame_allocator.c.

    This file holds the operations; FrameInvariant.v the invariant they keep and
    FrameProofs.v what they do. The memory entries the free lists live in come from the
    entry pool, through the interface of MemState.v. *)
From S2P Require Import Prelude Util MemState.

Module FrameAllocator.
Import Util Mem.

Definition FRAME_ORDERS : Z := 8.
Definition MIN_FRAME_ORDER_SIZE : Z := PAGE_SIZE.
Definition sizeof_ListEntry : Z := 16.

(** ** Access to g_free_lists and g_frame_order_sizes *)

Definition get_list (order : Z) : KM FreeList :=
  l ← gets (λ s, lookupZ (fa_free_lists (km_frames s)) order); of_option OutOfBounds l.

Definition set_list (order : Z) (l : FreeList) : KM unit :=
  modify (λ s, set_frames
    {| fa_free_lists := insertZ order l (fa_free_lists (km_frames s));
       fa_order_sizes := fa_order_sizes (km_frames s) |} s).

Definition get_head (order : Z) : KM (list ListEntry) := l ← get_list order; mret (fl_head l).

Definition set_head (order : Z) (h : list ListEntry) : KM unit :=
  l ← get_list order; set_list order {| fl_head := h; fl_buddy_map := fl_buddy_map l |}.

(** [entry = head; head = entry->next]. *)
Definition remove_head (order : Z) : KM ListEntry :=
  h ← get_head order;
  match h with
  | [] => throw NullDeref
  | entry :: next => _ ← set_head order next; mret entry
  end.

Definition order_size (order : Z) : KM Z :=
  sz ← gets (λ s, lookupZ (fa_order_sizes (km_frames s)) order); of_option OutOfBounds sz.

Definition is_null {A} (l : list A) : bool := match l with [] => true | _ => false end.

(** ** Orders and sizes *)

Definition get_frame_order_size (order : Z) : KM Z :=
  _ ← kernel_assert (order <? FRAME_ORDERS) "Not an order"; order_size order.

Definition get_min_size_frame_order (pages : Z) : KM Z :=
  _ ← kernel_assert (negb (pages =? 0)) "Can't have a zero sized allocation";
  order_0_blocks ←
    (if MIN_FRAME_ORDER_SIZE =? PAGE_SIZE then mret pages
     else sz ← order_size 0; mret (u64 (u64 (u64 (pages * PAGE_SIZE) + sz) - 1) / sz));
  if order_0_blocks =? 1 then mret 0
  else match clzll (order_0_blocks - 1) with
       | Ok z => mret (MIN (64 - z) FRAME_ORDERS)
       | Fault f => throw f
       end.

Fixpoint allocation_size (allocation : list PageFrameAllocation) (size : Z) : KM Z :=
  match allocation with
  | [] => mret size
  | a :: allocation =>
      sz ← get_frame_order_size (pfa_order a); allocation_size allocation (u64 (size + sz))
  end.

Definition calculate_allocation_pages (allocation : list PageFrameAllocation) : KM Z :=
  size ← allocation_size allocation 0; mret (size / PAGE_SIZE).

(** ** Buddy maps *)

Definition calc_buddy_index (addr order : Z) : KM (Z * Z) :=
  _ ← kernel_assert (order <? FRAME_ORDERS - 1) "Order does not have a buddy map";
  sz ← order_size order;
  let arr_index := addr / sz in
  let arr_index := arr_index - arr_index mod 2 in
  let arr_index := arr_index / 2 in
  let bit_index := Z.land arr_index 63 in
  let arr_index := Z.land arr_index (Z.lnot 63) in
  mret (arr_index / 64, bit_index).

Definition get_buddy_bit (addr order : Z) : KM bool :=
  '(arr_index, bit_index) ← calc_buddy_index addr order;
  l ← get_list order;
  word ← of_option OutOfBounds (lookupZ (fl_buddy_map l) arr_index);
  mret (negb (Z.land (Z.shiftr word bit_index) 1 =? 0)).

Definition toggle_buddy_bit (addr order : Z) : KM unit :=
  if order =? FRAME_ORDERS - 1 then mret tt
  else
    '(arr_index, bit_index) ← calc_buddy_index addr order;
    l ← get_list order;
    word ← of_option OutOfBounds (lookupZ (fl_buddy_map l) arr_index);
    set_list order
      {| fl_head := fl_head l;
         fl_buddy_map := insertZ arr_index (Z.lxor word (Z.shiftl 1 bit_index)) (fl_buddy_map l) |}.

(** ** Operations that need memory entries *)

Section operations.
Context `{!MemoryEntries}.

Definition split_entry (entry : ListEntry) (order : Z) : KM unit :=
  _ ← toggle_buddy_bit (le_addr entry) order;
  right_ptr ← get_memory_entry;
  sz ← order_size (order - 1);
  let right := {| le_ptr := right_ptr; le_addr := u64 (le_addr entry + sz) |} in
  next ← get_head (order - 1);
  set_head (order - 1) (entry :: right :: next).

Fixpoint free_frame_allocation_entries (allocations : list PageFrameAllocation) : KM unit :=
  match allocations with
  | [] => mret tt
  | a :: allocations =>
      _ ← free_memory_entry (pfa_ptr a); free_frame_allocation_entries allocations
  end.

(** The merging loop of [free_frames]. [entry] is at the head of the free list of
    [order] and [next] is what its next pointer holds. *)
Definition merge_step (st : ListEntry * list ListEntry * Z)
    : KM (ListEntry * list ListEntry * Z + unit) :=
  let '(entry, next, order) := st in
  if order <? FRAME_ORDERS - 1 then
    bit ← get_buddy_bit (le_addr entry) order;
    if bit : bool then mret (inr tt)
    else
      (* Remove entry from free list *)
      _ ← set_head order next;
      sz_up ← order_size (order + 1);
      sz ← order_size order;
      let other_addr :=
        if le_addr entry mod sz_up =? 0
        then u64 (le_addr entry + sz) else u64 (le_addr entry - sz) in
      head ← get_head order;
      match find_split (λ e, le_addr e =? other_addr) head with
      | None => throw (AssertFailed "Buddy entry not present")
      | Some (before, buddy_entry, after) =>
          (* Remove other entry from free list *)
          _ ← set_head order (before ++ after);
          (* Swap entries if the buddy entry is on the left *)
          let '(entry, buddy_entry) :=
            if other_addr <? le_addr entry then (buddy_entry, entry) else (entry, buddy_entry) in
          _ ← free_memory_entry (le_ptr buddy_entry);
          (* Put entry in free list *)
          head ← get_head (order + 1);
          _ ← set_head (order + 1) (entry :: head);
          _ ← toggle_buddy_bit (le_addr entry) (order + 1);
          mret (inl (entry, head, order + 1))
      end
  else mret (inr tt).

Definition merge (entry : ListEntry) (next : list ListEntry) (order : Z) : KM unit :=
  loop 9 merge_step (entry, next, order).

(** One round of the loop of [free_frames]. *)
Definition free_block (allocation : PageFrameAllocation) : KM unit :=
  let order := pfa_order allocation in
  _ ← kernel_assert (order <? FRAME_ORDERS) "Not an order";
  let entry := {| le_ptr := pfa_ptr allocation; le_addr := pfa_addr allocation |} in
  _ ← toggle_buddy_bit (le_addr entry) order;
  next ← get_head order;
  _ ← set_head order (entry :: next);
  merge entry next order.

Fixpoint free_frames (allocation : list PageFrameAllocation) : KM unit :=
  match allocation with
  | [] => mret tt
  | a :: allocation => _ ← free_block a; free_frames allocation
  end.

(** *** alloc_frames *)

(** The biggest order that fits in [size], or -1. *)
Definition biggest_order (size : Z) : KM Z :=
  order ← loop 9 (λ order,
    if order <? FRAME_ORDERS then
      sz ← order_size order;
      mret (if size <? sz then inr order else inl (order + 1))
    else mret (inr order)) 0;
  mret (order - 1).

(** The biggest order up to [order] with a free block, or -1. *)
Definition biggest_free_order (order : Z) : KM Z :=
  loop 10 (λ order,
    if 0 <=? order then
      h ← get_head order;
      mret (if is_null h then inl (order - 1) else inr order)
    else mret (inr order)) order.

(** Split bigger blocks until the list of [order_to_alloc] has a block, or settle for
    a smaller order. Returns the order to allocate from, negative if there is none. *)
Definition find_block (order_to_alloc : Z) : KM Z :=
  loop 20 (λ order,
    h ← get_head order_to_alloc;
    if is_null h then
      h ← get_head order;
      if is_null h then
        let order := order + 1 in
        if order <? FRAME_ORDERS then mret (inl order)
        else o ← biggest_free_order (order_to_alloc - 1); mret (inr o)
      else
        entry ← remove_head order;
        _ ← split_entry entry order;
        mret (inl (order - 1))
    else mret (inr order_to_alloc)) (order_to_alloc + 1).

(** [front] is the list built so far. *)
Definition alloc_step (st : Z * list PageFrameAllocation)
    : KM (Z * list PageFrameAllocation + list PageFrameAllocation) :=
  let '(size, front) := st in
  if size =? 0 then mret (inr front)
  else
    order_to_alloc ← biggest_order size;
    order_to_alloc ← find_block order_to_alloc;
    if order_to_alloc <? 0 then
      (* Cleanup allocation if we are out of memory *)
      _ ← free_frames front; mret (inr [])
    else
      entry ← remove_head order_to_alloc;
      _ ← toggle_buddy_bit (le_addr entry) order_to_alloc;
      sz ← order_size order_to_alloc;
      let back := {| pfa_ptr := le_ptr entry;
                     pfa_addr := wrap 57 (le_addr entry);
                     pfa_order := order_to_alloc |} in
      mret (inl (u64 (size - sz), front ++ [back])).

Definition alloc_frames (pages : Z) : KM (list PageFrameAllocation) :=
  loop (S (Z.to_nat pages)) alloc_step (u64 (pages * PAGE_SIZE), []).

(** *** Contiguous blocks *)

(** One round of the loop that looks for a block to split; false when out of memory. *)
Definition contiguos_step (order_to_alloc order : Z) : KM (Z + bool) :=
  h ← get_head order_to_alloc;
  if is_null h then
    h ← get_head order;
    let order := if is_null h then order + 1 else order in
    if is_null h && (FRAME_ORDERS <=? order) then mret (inr false)
    else
      entry ← remove_head order;
      _ ← split_entry entry order;
      mret (inl (order - 1))
  else mret (inr true).

Definition alloc_frames_contiguos (pages : Z) : KM (option Z) :=
  order_to_alloc ← get_min_size_frame_order pages;
  _ ← kernel_assert (order_to_alloc <? FRAME_ORDERS) "Not an order";
  found ← loop 20 (contiguos_step order_to_alloc) (order_to_alloc + 1);
  if found : bool then
    entry ← remove_head order_to_alloc;
    _ ← toggle_buddy_bit (le_addr entry) order_to_alloc;
    _ ← free_memory_entry (le_ptr entry);
    mret (Some (le_addr entry))
  else mret None.

Definition free_frames_contiguos (addr pages : Z) : KM unit :=
  ptr ← get_memory_entry;
  order ← get_min_size_frame_order pages;
  free_frames [{| pfa_ptr := ptr; pfa_addr := wrap 57 addr; pfa_order := order |}].

(** *** remove_range *)

(** The largest order the range starting at [addr] is aligned to and big enough for. *)
Definition range_order (addr size : Z) : KM Z :=
  order ← loop 9 (λ order,
    if order <? FRAME_ORDERS then
      sz ← order_size order;
      mret (if negb (addr mod sz =? 0) || negb (sz <=? size) then inr order else inl (order + 1))
    else mret (inr order)) 1;
  mret (order - 1).

(** Take the block of [order_to_alloc] at [addr] out of the free lists; false if it is
    not there. *)
Definition remove_block (addr order_to_alloc : Z) : KM bool :=
  loop 9 (λ order,
    if 0 <=? order then
      sz ← order_size order;
      head ← get_head order;
      match find_split (λ e, range_contains addr (le_addr e) sz) head with
      | None => mret (if order =? order_to_alloc then inr false else inl (order - 1))
      | Some (before, curr_entry, after) =>
          _ ← set_head order (before ++ after);
          if order =? order_to_alloc then
            _ ← toggle_buddy_bit (le_addr curr_entry) order;
            _ ← free_memory_entry (le_ptr curr_entry);
            mret (inr true)
          else
            _ ← kernel_assert (negb (order =? 0)) "Can't split order 0 block";
            _ ← split_entry curr_entry order;
            mret (inl (order - 1))
      end
    else mret (inr true)) (FRAME_ORDERS - 1).

Definition remove_range (addr pages : Z) : KM bool :=
  loop (S (Z.to_nat pages)) (λ '(addr, size),
    if size =? 0 then mret (inr true)
    else
      order_to_alloc ← range_order addr size;
      removed ← remove_block addr order_to_alloc;
      if removed : bool then
        sz ← order_size order_to_alloc;
        mret (inl (u64 (addr + sz), u64 (size - sz)))
      else mret (inr false)) (addr, u64 (pages * PAGE_SIZE)).
End operations.

End FrameAllocator.
