(* ===== verification/FrameInvariant.v ===== *)
(** The invariant of the buddy allocator, as a property of its lists and bit maps, and
    how the elementary list updates change it. *)
From S2P Require Import Prelude Util MemState FrameAllocator.

Module FrameInvariant.
Import Util Mem FrameAllocator.

(** ** Views of the state *)

(** The size in bytes of a block of order [o]. *)
Definition sz (o : Z) : Z := 4096 * 2 ^ o.

Definition heads (fs : FrameAllocator) (o : Z) : list ListEntry :=
  default [] (fl_head <$> lookupZ (fa_free_lists fs) o).

Definition addrs (fs : FrameAllocator) (o : Z) : list Z := le_addr <$> heads fs o.

Definition free_at (fs : FrameAllocator) (o a : Z) : Prop := a ∈ addrs fs o.

#[export] Instance free_at_dec fs o a : Decision (free_at fs o a).
Proof. unfold free_at. apply _. Defined.

Definition buddy_words (fs : FrameAllocator) (o : Z) : list Z :=
  default [] (fl_buddy_map <$> lookupZ (fa_free_lists fs) o).

(** Bit [i] of the buddy map of order [o]: the pair of blocks [2 * i] and [2 * i + 1]. *)
Definition buddy_bit (fs : FrameAllocator) (o i : Z) : bool :=
  Z.testbit (default 0 (lookupZ (buddy_words fs o) (i / 64))) (i mod 64).

Definition pair_index (o a : Z) : Z := a / (2 * sz o).

Definition in_block (o a x : Z) : Prop := a ≤ x < a + sz o.

Definition free_byte (fs : FrameAllocator) (x : Z) : Prop :=
  ∃ o a, free_at fs o a ∧ in_block o a x.

Definition separate (o a o' a' : Z) : Prop := a + sz o ≤ a' ∨ a' + sz o' ≤ a.

Definition apart_from (fs : FrameAllocator) (o a : Z) : Prop :=
  ∀ o' a', free_at fs o' a' → separate o a o' a'.

(** ** The invariant

    [lim] bounds the memory managed. *)

Definition standard_sizes : list Z := [4096; 8192; 16384; 32768; 65536; 131072; 262144; 524288].

(** A block the allocator may own: in range and aligned to its size. *)
Definition block_ok (lim o a : Z) : Prop := 0 ≤ o < 8 ∧ 0 ≤ a ∧ (sz o | a) ∧ a + sz o ≤ lim.

Record shape (lim : Z) (fs : FrameAllocator) : Prop := {
  shape_orders : length (fa_free_lists fs) = 8%nat;
  shape_sizes : fa_order_sizes fs = standard_sizes;
  shape_lim : lim < 2 ^ 57;
  (** every pair of blocks below [lim] has its bit *)
  shape_words : ∀ o, 0 ≤ o < 7 → lim ≤ 128 * sz o * Z.of_nat (length (buddy_words fs o));
}.

Record blocks_wf (lim : Z) (fs : FrameAllocator) : Prop := {
  blocks_ok : ∀ o a, free_at fs o a → block_ok lim o a;
  blocks_nodup : ∀ o, NoDup (addrs fs o);
  blocks_apart : ∀ o a o' a', free_at fs o a → free_at fs o' a' →
    (o, a) ≠ (o', a') → separate o a o' a';
}.

(** A buddy bit is set exactly when one of the two blocks of its pair is free at that
    order. *)
Definition bits_wf (fs : FrameAllocator) : Prop :=
  ∀ o i, 0 ≤ o < 7 → 0 ≤ i →
    buddy_bit fs o i =
      xorb (bool_decide (free_at fs o (2 * i * sz o)))
           (bool_decide (free_at fs o ((2 * i + 1) * sz o))).

Record frames_wf (lim : Z) (fs : FrameAllocator) : Prop := {
  wf_shape : shape lim fs;
  wf_blocks : blocks_wf lim fs;
  wf_bits : bits_wf fs;
}.

(** ** Sizes *)

Lemma sz_pos o : 0 ≤ o → 0 < sz o.
Proof. intros. unfold sz. pose proof (Z.pow_pos_nonneg 2 o ltac:(lia) ltac:(lia)). lia. Qed.

Lemma sz_succ o : 0 ≤ o → sz (o + 1) = 2 * sz o.
Proof. intros. unfold sz. rewrite Z.pow_add_r by lia. lia. Qed.

Lemma sz_pred o : 1 ≤ o → sz o = 2 * sz (o - 1).
Proof. intros. rewrite <- sz_succ by lia. f_equal. lia. Qed.

Lemma sz_mono o o' : 0 ≤ o ≤ o' → sz o ≤ sz o'.
Proof. intros. unfold sz. pose proof (Z.pow_le_mono_r 2 o o'). lia. Qed.

Lemma sz_range o : 0 ≤ o < 8 → 4096 ≤ sz o ≤ 524288.
Proof.
  intros. change 4096 with (sz 0). change 524288 with (sz 7).
  split; apply sz_mono; lia.
Qed.

Lemma lookup_standard_sizes o : 0 ≤ o < 8 → lookupZ standard_sizes o = Some (sz o).
Proof.
  intros. assert (o = 0 ∨ o = 1 ∨ o = 2 ∨ o = 3 ∨ o = 4 ∨ o = 5 ∨ o = 6 ∨ o = 7) by lia.
  naive_solver.
Qed.

Lemma aligned_down o a : 1 ≤ o → (sz o | a) → (sz (o - 1) | a).
Proof. intros Ho [k ->]. rewrite (sz_pred o) by done. exists (2 * k). lia. Qed.

(** ** Elementary updates *)

Definition with_list (o : Z) (l : FreeList) (fs : FrameAllocator) : FrameAllocator :=
  {| fa_free_lists := insertZ o l (fa_free_lists fs); fa_order_sizes := fa_order_sizes fs |}.

Definition with_head (o : Z) (h : list ListEntry) (fs : FrameAllocator) : FrameAllocator :=
  with_list o {| fl_head := h; fl_buddy_map := buddy_words fs o |} fs.

Definition flip (o a : Z) (fs : FrameAllocator) : FrameAllocator :=
  if o =? 7 then fs
  else
    let i := pair_index o a in
    let w := default 0 (lookupZ (buddy_words fs o) (i / 64)) in
    with_list o {| fl_head := heads fs o;
                   fl_buddy_map := insertZ (i / 64) (Z.lxor w (Z.shiftl 1 (i mod 64)))
                                           (buddy_words fs o) |} fs.

Section updates.
Context {lim : Z} {fs : FrameAllocator} (Hs : shape lim fs).

Lemma shape_lookup o : 0 ≤ o < 8 →
  lookupZ (fa_free_lists fs) o = Some {| fl_head := heads fs o; fl_buddy_map := buddy_words fs o |}.
Proof using Hs.
  intros Ho. unfold heads, buddy_words.
  destruct (lookupZ (fa_free_lists fs) o) as [[h b]|] eqn:E; [done|].
  assert (is_Some (lookupZ (fa_free_lists fs) o)) as [? ?]; [|congruence].
  apply lookupZ_is_Some. rewrite (shape_orders _ _ Hs). lia.
Qed.

Lemma lookup_with_list o o' l : 0 ≤ o < 8 →
  lookupZ (fa_free_lists (with_list o l fs)) o' =
    if decide (o = o') then Some l else lookupZ (fa_free_lists fs) o'.
Proof using Hs.
  intros Ho. cbn. destruct (decide (o = o')) as [<-|Hne].
  - apply lookupZ_insertZ_eq. by rewrite shape_lookup.
  - by apply lookupZ_insertZ_ne.
Qed.

Lemma heads_with_head o o' h : 0 ≤ o < 8 →
  heads (with_head o h fs) o' = if decide (o = o') then h else heads fs o'.
Proof using Hs.
  intros Ho. unfold heads at 1, with_head. rewrite lookup_with_list by done.
  by destruct (decide (o = o')).
Qed.

Lemma words_with_head o o' h : 0 ≤ o < 8 →
  buddy_words (with_head o h fs) o' = buddy_words fs o'.
Proof using Hs.
  intros Ho. unfold buddy_words at 1, with_head. rewrite lookup_with_list by done.
  by destruct (decide (o = o')) as [<-|].
Qed.

Lemma shape_with_head o h : 0 ≤ o < 8 → shape lim (with_head o h fs).
Proof using Hs.
  intros Ho. destruct Hs as [H1 H2 H3 H4]. split; [|done|done|].
  - cbn. by rewrite length_insertZ.
  - intros o' Ho'. rewrite words_with_head by done. by apply H4.
Qed.

Lemma heads_flip o a o' : 0 ≤ o < 8 → heads (flip o a fs) o' = heads fs o'.
Proof using Hs.
  intros Ho. unfold flip. destruct (Z.eqb_spec o 7) as [|]; [done|].
  unfold heads at 1. rewrite lookup_with_list by done.
  by destruct (decide (o = o')) as [<-|].
Qed.

Lemma words_flip o a o' : 0 ≤ o < 8 →
  length (buddy_words (flip o a fs) o') = length (buddy_words fs o').
Proof using Hs.
  intros Ho. unfold flip. destruct (Z.eqb_spec o 7) as [|]; [done|].
  unfold buddy_words at 1. rewrite lookup_with_list by done.
  destruct (decide (o = o')) as [<-|]; [|done]. cbn. by rewrite length_insertZ.
Qed.

Lemma shape_flip o a : 0 ≤ o < 8 → shape lim (flip o a fs).
Proof using Hs.
  intros Ho. pose proof (λ o', words_flip o a o' Ho) as Hw.
  destruct Hs as [H1 H2 H3 H4]. split; [| |done|].
  - unfold flip. destruct (o =? 7); [done|]. cbn. by rewrite length_insertZ.
  - unfold flip. by destruct (o =? 7).
  - intros o' Ho'. rewrite Hw. by apply H4.
Qed.

(** The word that holds the bit of a block exists. *)
Lemma word_in_range o a : 0 ≤ o < 7 → 0 ≤ a → a + sz o ≤ lim →
  is_Some (lookupZ (buddy_words fs o) (pair_index o a / 64)).
Proof using Hs.
  intros Ho Ha Hl. apply lookupZ_is_Some. unfold pair_index.
  pose proof (shape_words _ _ Hs o Ho) as Hw. pose proof (sz_pos o ltac:(lia)).
  rewrite Z.div_div by lia. split; [apply Z.div_pos; lia|].
  apply Z.div_lt_upper_bound; lia.
Qed.

Lemma buddy_bit_flip o a o' i : 0 ≤ o < 8 → 0 ≤ a → a + sz o ≤ lim → 0 ≤ i →
  buddy_bit (flip o a fs) o' i =
    xorb (buddy_bit fs o' i)
         (bool_decide (o = o' ∧ o ≠ 7 ∧ i = pair_index o a)).
Proof using Hs.
  intros Ho Ha Hl Hi. unfold flip. destruct (Z.eqb_spec o 7) as [->|Hne].
  { rewrite bool_decide_eq_false_2 by naive_solver. by rewrite xorb_false_r. }
  unfold buddy_bit. unfold buddy_words at 1. rewrite lookup_with_list by done.
  destruct (decide (o = o')) as [<-|Ho'].
  2: { rewrite bool_decide_eq_false_2 by naive_solver. by rewrite xorb_false_r. }
  cbn [fmap option_fmap option_map from_option fl_buddy_map].
  change (id (insertZ ?j ?x ?l)) with (insertZ j x l).
  destruct (word_in_range o a ltac:(lia) Ha Hl) as [w Hw].
  assert (0 ≤ pair_index o a) as Hp.
  { unfold pair_index. apply Z.div_pos; [done|]. pose proof (sz_pos o). lia. }
  pose proof (Z.mod_pos_bound i 64 ltac:(lia)).
  pose proof (Z.mod_pos_bound (pair_index o a) 64 ltac:(lia)).
  pose proof (Z.div_mod i 64 ltac:(lia)) as Ei.
  pose proof (Z.div_mod (pair_index o a) 64 ltac:(lia)) as Ep.
  destruct (decide (i / 64 = pair_index o a / 64)) as [Hd|Hd].
  - rewrite Hd, lookupZ_insertZ_eq by (rewrite Hw; eauto). rewrite Hw. cbn [from_option id].
    rewrite Z.lxor_spec, Z.shiftl_spec by lia. f_equal.
    destruct (decide (i mod 64 = pair_index o a mod 64)) as [Hm|Hm].
    + rewrite Hm, Z.sub_diag. cbn. symmetry. apply bool_decide_eq_true_2.
      split; [done|]. split; [done|]. lia.
    + rewrite bool_decide_eq_false_2 by (intros (_ & _ & ->); done).
      destruct (Z.lt_total (i mod 64) (pair_index o a mod 64)) as [|[|]]; [|done|].
      * by apply Z.testbit_neg_r; lia.
      * apply (bits_above 1); lia.
  - rewrite lookupZ_insertZ_ne by done.
    rewrite bool_decide_eq_false_2 by (intros (_ & _ & ->); done). by rewrite xorb_false_r.
Qed.
End updates.

(** ** Allocators that own the same blocks

    Neither the order of a free list nor the entries the blocks live in matter to what
    an allocator owns. *)
#[export] Instance frames_equiv : Equiv FrameAllocator :=
  λ fs fs', ∀ o, addrs fs o ≡ₚ addrs fs' o.

#[export] Instance frames_equivalence : Equivalence (≡@{FrameAllocator}).
Proof.
  split.
  - by intros fs o.
  - intros fs fs' H o. by rewrite (H o).
  - intros fs1 fs2 fs3 H1 H2 o. by rewrite (H1 o).
Qed.

#[export] Instance free_at_proper : Proper ((≡) ==> (=) ==> (=) ==> iff) free_at.
Proof. intros fs fs' H o ? <- a ? <-. unfold free_at. by rewrite (H o). Qed.

#[export] Instance free_byte_proper : Proper ((≡) ==> (=) ==> iff) free_byte.
Proof. intros fs fs' H x ? <-. unfold free_byte. by setoid_rewrite H. Qed.

#[export] Instance apart_from_proper : Proper ((≡) ==> (=) ==> (=) ==> iff) apart_from.
Proof.
  intros fs fs' H o ? <- a ? <-. unfold apart_from.
  split; intros Ha o' a' Hf; apply Ha; by rewrite H || by rewrite <- H.
Qed.

Lemma flip_equiv lim fs o a : shape lim fs → 0 ≤ o < 8 → flip o a fs ≡ fs.
Proof. intros Hs Ho o'. unfold addrs. by rewrite (heads_flip Hs). Qed.

(** ** Taking one block out *)

(** [fs'] is [fs] without the block [a] of order [o]. *)
Definition minus_block (fs fs' : FrameAllocator) (o a : Z) : Prop :=
  addrs fs o ≡ₚ a :: addrs fs' o ∧ ∀ o', o' ≠ o → addrs fs' o' ≡ₚ addrs fs o'.

Section minus.
Context {lim : Z} {fs fs' : FrameAllocator} {o a : Z} (Hm : minus_block fs fs' o a).

Lemma minus_free_at o' x : free_at fs o' x ↔ (o' = o ∧ x = a) ∨ free_at fs' o' x.
Proof using Hm.
  destruct Hm as [Hp Hother]. unfold free_at. destruct (decide (o' = o)) as [->|Hne].
  - rewrite Hp, elem_of_cons. naive_solver.
  - rewrite Hother by done. naive_solver.
Qed.

Lemma minus_free_byte x : free_byte fs x ↔ in_block o a x ∨ free_byte fs' x.
Proof using Hm.
  unfold free_byte. setoid_rewrite minus_free_at. naive_solver.
Qed.

Lemma minus_not_free : blocks_wf lim fs → ¬ free_at fs' o a.
Proof using Hm.
  intros Hwf Hin. pose proof (blocks_nodup _ _ Hwf o) as Hnd.
  destruct Hm as [Hp _]. rewrite Hp, NoDup_cons in Hnd. by destruct Hnd.
Qed.

Lemma minus_wf : blocks_wf lim fs → blocks_wf lim fs' ∧ apart_from fs' o a ∧ block_ok lim o a.
Proof using Hm.
  intros Hwf. pose proof (minus_not_free Hwf) as Hnot.
  destruct Hwf as [Hok Hnd Hap]. split_and!.
  - split.
    + intros o' x Hx. apply Hok, minus_free_at. by right.
    + intros o'. destruct Hm as [Hp Hother]. specialize (Hnd o').
      destruct (decide (o' = o)) as [->|Hne]; [|by rewrite Hother].
      rewrite Hp, NoDup_cons in Hnd. by destruct Hnd.
    + intros o1 a1 o2 a2 H1 H2. apply Hap; apply minus_free_at; by right.
  - intros o' x Hx. apply Hap; [apply minus_free_at; by left|apply minus_free_at; by right|].
    naive_solver.
  - apply Hok, minus_free_at. by left.
Qed.

Lemma plus_wf : blocks_wf lim fs' → block_ok lim o a → apart_from fs' o a → blocks_wf lim fs.
Proof using Hm.
  intros [Hok Hnd Hap] Hoka Hapa.
  assert (¬ free_at fs' o a) as Hnot.
  { intros Hin. destruct (Hapa o a Hin); pose proof (sz_pos o ltac:(apply Hoka)); lia. }
  split.
  - intros o' x Hx%minus_free_at. naive_solver.
  - intros o'. destruct Hm as [Hp Hother]. specialize (Hnd o').
    destruct (decide (o' = o)) as [->|Hne]; [|by rewrite Hother in Hnd].
    rewrite Hp, NoDup_cons. by split.
  - intros o1 a1 o2 a2 H1%minus_free_at H2%minus_free_at Hne.
    destruct H1 as [[-> ->]|H1], H2 as [[-> ->]|H2]; [done|by apply Hapa| |by apply Hap].
    destruct (Hapa o1 a1 H1); [by right|by left].
Qed.

Lemma minus_xorb o' x : ¬ free_at fs' o a →
  xorb (bool_decide (free_at fs o' x)) (bool_decide (free_at fs' o' x)) =
  bool_decide (o' = o ∧ x = a).
Proof using Hm.
  intros Hnot. rewrite (bool_decide_ext _ _ (minus_free_at o' x)).
  repeat case_bool_decide; naive_solver.
Qed.
End minus.

#[export] Instance minus_block_proper :
  Proper ((≡) ==> (≡) ==> (=) ==> (=) ==> iff) minus_block.
Proof.
  intros f1 f1' H1 f2 f2' H2 o ? <- a ? <-. unfold minus_block.
  rewrite (H1 o), (H2 o).
  split; (intros [Hp Ho]; split; [done|]; intros o' Hne; specialize (Ho o' Hne));
    [by rewrite <- (H1 o'), <- (H2 o')|by rewrite (H1 o'), (H2 o')].
Qed.

Lemma minus_with_head lim fs o e h :
  shape lim fs → 0 ≤ o < 8 → heads fs o ≡ₚ e :: h →
  minus_block fs (with_head o h fs) o (le_addr e).
Proof.
  intros Hs Ho Hp. split.
  - unfold addrs. rewrite (heads_with_head Hs), decide_True by done. by rewrite Hp.
  - intros o' Hne. unfold addrs. by rewrite (heads_with_head Hs), decide_False by done.
Qed.

Lemma minus_push lim fs o e :
  shape lim fs → 0 ≤ o < 8 →
  minus_block (with_head o (e :: heads fs o) fs) fs o (le_addr e).
Proof.
  intros Hs Ho. split.
  - unfold addrs. by rewrite (heads_with_head Hs), decide_True by done.
  - intros o' Hne. unfold addrs. by rewrite (heads_with_head Hs), decide_False by done.
Qed.

Lemma buddy_bit_with_head lim fs o h o' i :
  shape lim fs → 0 ≤ o < 8 → buddy_bit (with_head o h fs) o' i = buddy_bit fs o' i.
Proof. intros Hs Ho. unfold buddy_bit. by rewrite (words_with_head Hs). Qed.

(** ** The buddy bits follow the lists *)

Lemma xorb_pairs b b' l l' r r' :
  xorb b b' = xorb (xorb l l') (xorb r r') → b = xorb l r ↔ b' = xorb l' r'.
Proof. destruct b, b', l, l', r, r'; naive_solver. Qed.

Lemma bits_transfer fs fs' :
  (∀ o i, 0 ≤ o < 7 → 0 ≤ i →
    xorb (buddy_bit fs o i) (buddy_bit fs' o i) =
    xorb (xorb (bool_decide (free_at fs o (2 * i * sz o))) (bool_decide (free_at fs' o (2 * i * sz o))))
         (xorb (bool_decide (free_at fs o ((2 * i + 1) * sz o)))
               (bool_decide (free_at fs' o ((2 * i + 1) * sz o))))) →
  bits_wf fs ↔ bits_wf fs'.
Proof.
  intros Hx. unfold bits_wf. split; intros Hb o i Ho Hi;
    apply (xorb_pairs _ _ _ _ _ _ (Hx o i Ho Hi)); by apply Hb.
Qed.

Lemma pair_index_aligned o k : 0 ≤ o → pair_index o (k * sz o) = k / 2.
Proof.
  intros Ho. unfold pair_index. pose proof (sz_pos o Ho).
  by rewrite Z.div_mul_cancel_r by lia.
Qed.

Lemma mul_sz_inj o i j : 0 ≤ o → i * sz o = j * sz o ↔ i = j.
Proof. intros Ho. pose proof (sz_pos o Ho). rewrite Z.mul_cancel_r by lia. done. Qed.

(** Taking a block out of its list and flipping its bit. *)
Lemma bits_minus_flip fs fs' lim o a :
  minus_block fs fs' o a → ¬ free_at fs' o a → block_ok lim o a →
  (∀ o' i, 0 ≤ i → buddy_bit fs' o' i =
     xorb (buddy_bit fs o' i) (bool_decide (o = o' ∧ o ≠ 7 ∧ i = pair_index o a))) →
  bits_wf fs ↔ bits_wf fs'.
Proof.
  intros Hm Hnot (Ho & _ & [k ->] & _) Hbits. apply bits_transfer. intros o' i Ho' Hi.
  rewrite (minus_xorb Hm _ _ Hnot), (minus_xorb Hm _ _ Hnot), Hbits by done.
  rewrite pair_index_aligned by lia.
  assert (∀ b c, xorb b (xorb b c) = c) as -> by by intros [] [].
  destruct (decide (o = o')) as [<-|Hne].
  2: { repeat case_bool_decide; naive_solver. }
  pose proof (Z.div_mod k 2 ltac:(lia)). pose proof (Z.mod_pos_bound k 2 ltac:(lia)).
  pose proof (mul_sz_inj o (2 * i) k ltac:(lia)). pose proof (mul_sz_inj o (2 * i + 1) k ltac:(lia)).
  repeat case_bool_decide; try done; exfalso; intuition lia.
Qed.

(** Taking both blocks of a pair out leaves the bits right as they are. *)
Lemma bits_minus_pair fs fs1 fs' o a :
  0 ≤ o < 7 → (2 * sz o | a) →
  minus_block fs fs1 o a → minus_block fs1 fs' o (a + sz o) →
  ¬ free_at fs1 o a → ¬ free_at fs' o (a + sz o) →
  (∀ o' i, buddy_bit fs' o' i = buddy_bit fs o' i) →
  bits_wf fs ↔ bits_wf fs'.
Proof.
  intros Ho [k ->] Hm1 Hm2 Hn1 Hn2 Hbits. apply bits_transfer. intros o' i Ho' Hi.
  rewrite Hbits, xorb_nilpotent.
  assert (∀ x, xorb (bool_decide (free_at fs o' x)) (bool_decide (free_at fs' o' x)) =
    xorb (bool_decide (o' = o ∧ x = k * (2 * sz o))) (bool_decide (o' = o ∧ x = k * (2 * sz o) + sz o))) as E.
  { intros x. rewrite <- (minus_xorb Hm1 _ _ Hn1), <- (minus_xorb Hm2 _ _ Hn2).
    by destruct (bool_decide _), (bool_decide _), (bool_decide _). }
  rewrite !E. clear E. destruct (decide (o' = o)) as [->|Hne].
  2: { rewrite !bool_decide_eq_false_2 by naive_solver. done. }
  pose proof (sz_pos o ltac:(lia)).
  assert (2 * i * sz o = k * (2 * sz o) ↔ i = k) by nia.
  assert (2 * i * sz o = k * (2 * sz o) + sz o ↔ False) by nia.
  assert ((2 * i + 1) * sz o = k * (2 * sz o) ↔ False) by nia.
  assert ((2 * i + 1) * sz o = k * (2 * sz o) + sz o ↔ i = k) by nia.
  repeat case_bool_decide; try done; exfalso; intuition congruence.
Qed.

(** ** Steps that keep the invariant *)

(** The bits of [fs'] are those of [fs] with the bit of the block flipped. *)
Definition flipped (o a : Z) (fs fs' : FrameAllocator) : Prop :=
  ∀ o' i, 0 ≤ i → buddy_bit fs' o' i =
    xorb (buddy_bit fs o' i) (bool_decide (o = o' ∧ o ≠ 7 ∧ i = pair_index o a)).

Lemma flipped_sym o a fs fs' : flipped o a fs fs' → flipped o a fs' fs.
Proof.
  intros H o' i Hi. rewrite H by done. by destruct (buddy_bit _ _ _), (bool_decide _).
Qed.

Lemma take_wf lim fs fs' o a :
  frames_wf lim fs → minus_block fs fs' o a → shape lim fs' → flipped o a fs fs' →
  frames_wf lim fs' ∧ apart_from fs' o a ∧ block_ok lim o a.
Proof.
  intros [Hs Hb Hbits] Hm Hs' Hf. destruct (minus_wf Hm Hb) as (Hb' & Hap & Hok).
  split_and!; [|done..]. split; [done..|].
  by apply (bits_minus_flip fs fs' lim o a Hm (minus_not_free Hm Hb) Hok Hf).
Qed.

Lemma give_wf lim fs fs' o a :
  frames_wf lim fs → block_ok lim o a → apart_from fs o a →
  minus_block fs' fs o a → shape lim fs' → flipped o a fs fs' → frames_wf lim fs'.
Proof.
  intros [Hs Hb Hbits] Hok Hap Hm Hs' Hf.
  pose proof (plus_wf Hm Hb Hok Hap) as Hb'. split; [done..|].
  by apply (bits_minus_flip fs' fs lim o a Hm (minus_not_free Hm Hb') Hok (flipped_sym _ _ _ _ Hf)).
Qed.

Lemma half_separate o a b o' : 1 ≤ o → b = a ∨ b = a + sz (o - 1) →
  ∀ a', separate o a o' a' → separate (o - 1) b o' a'.
Proof.
  intros Ho Hb a' Hs. unfold separate in *. rewrite (sz_pred o Ho) in Hs.
  pose proof (sz_pos (o - 1) ltac:(lia)). lia.
Qed.

Lemma halves_ok lim o a : 1 ≤ o → block_ok lim o a →
  block_ok lim (o - 1) a ∧ block_ok lim (o - 1) (a + sz (o - 1)).
Proof.
  intros Ho (Hr & Ha & Hd & Hl). pose proof (aligned_down o a Ho Hd).
  pose proof (sz_pos (o - 1) ltac:(lia)). rewrite (sz_pred o Ho) in Hl.
  unfold block_ok. split_and!; try lia; [done|]. apply Z.divide_add_r; [done|reflexivity].
Qed.

Lemma in_halves o a x : 1 ≤ o →
  in_block o a x ↔ in_block (o - 1) a x ∨ in_block (o - 1) (a + sz (o - 1)) x.
Proof.
  intros Ho. unfold in_block. rewrite (sz_pred o Ho).
  pose proof (sz_pos (o - 1) ltac:(lia)). lia.
Qed.

(** The two halves of a block join the lists one order down. *)
Lemma give_halves_wf lim fs fs1 fs' o a :
  frames_wf lim fs → block_ok lim o a → 1 ≤ o → apart_from fs o a →
  minus_block fs1 fs (o - 1) (a + sz (o - 1)) → minus_block fs' fs1 (o - 1) a →
  shape lim fs' → (∀ o' i, buddy_bit fs' o' i = buddy_bit fs o' i) →
  frames_wf lim fs' ∧ ∀ x, free_byte fs' x ↔ in_block o a x ∨ free_byte fs x.
Proof.
  intros [Hs Hb Hbits] Hok Ho Hap Hm1 Hm2 Hs' Hf.
  destruct (halves_ok _ _ _ Ho Hok) as [Hok1 Hok2].
  pose proof (sz_pos (o - 1) ltac:(lia)) as Hsz.
  assert (blocks_wf lim fs1) as Hb1.
  { apply (plus_wf Hm1 Hb Hok2). intros o' a' Hin. eapply half_separate; [done|by right|]. by apply Hap. }
  assert (apart_from fs1 (o - 1) a) as Hap1.
  { intros o' a' [[-> ->]|Hin]%(minus_free_at Hm1); [left; lia|].
    eapply half_separate; [done|by left|]. by apply Hap. }
  pose proof (plus_wf Hm2 Hb1 Hok1 Hap1) as Hb'.
  split; [split; [done..|]|].
  - apply (bits_minus_pair fs' fs1 fs (o - 1) a); try done.
    + destruct Hok. lia.
    + rewrite <- sz_pred by done. apply Hok.
    + by apply (minus_not_free Hm2 Hb').
    + by apply (minus_not_free Hm1 Hb1).
  - intros x. rewrite (minus_free_byte Hm2), (minus_free_byte Hm1), (in_halves o) by done. tauto.
Qed.

(** The two halves of a block, both free, leave their list. *)
Lemma take_halves_wf lim fs fs1 fs' o a :
  frames_wf lim fs → 1 ≤ o < 8 → (sz o | a) →
  minus_block fs fs1 (o - 1) a → minus_block fs1 fs' (o - 1) (a + sz (o - 1)) →
  shape lim fs' → (∀ o' i, buddy_bit fs' o' i = buddy_bit fs o' i) →
  frames_wf lim fs' ∧ block_ok lim o a ∧ apart_from fs' o a ∧
  ∀ x, free_byte fs x ↔ in_block o a x ∨ free_byte fs' x.
Proof.
  intros [Hs Hb Hbits] Ho Hd Hm1 Hm2 Hs' Hf.
  destruct (minus_wf Hm1 Hb) as (Hb1 & Hap1 & Hok1).
  destruct (minus_wf Hm2 Hb1) as (Hb' & Hap2 & Hok2).
  split_and!.
  - split; [done..|]. apply (bits_minus_pair fs fs1 fs' (o - 1) a); try done; [lia| | |].
    + rewrite <- sz_pred by lia. done.
    + by apply (minus_not_free Hm1 Hb).
    + by apply (minus_not_free Hm2 Hb1).
  - destruct Hok1 as (? & ? & _ & _), Hok2 as (_ & _ & _ & Hl).
    unfold block_ok. rewrite (sz_pred o) in * by lia. split_and!; done || lia.
  - intros o' a' Hin. assert (free_at fs1 o' a') as Hin1 by (apply (minus_free_at Hm2); by right).
    destruct (Hap1 o' a' Hin1) as [H1|H1], (Hap2 o' a' Hin) as [H2|H2];
      unfold separate; rewrite (sz_pred o) by lia; try lia.
    pose proof (sz_pos o' ltac:(apply (blocks_ok _ _ Hb' _ _ Hin))). lia.
  - intros x. rewrite (minus_free_byte Hm1), (minus_free_byte Hm2), (in_halves o) by lia. tauto.
Qed.

(** The two entries of a pair leave their list. *)
Lemma take_pair_wf lim fs fs' o el er h :
  frames_wf lim fs → 0 ≤ o < 7 → heads fs o ≡ₚ el :: er :: h →
  (sz (o + 1) | le_addr el) → le_addr er = le_addr el + sz o →
  shape lim fs' → heads fs' o = h → (∀ o', o' ≠ o → heads fs' o' = heads fs o') →
  (∀ o' i, buddy_bit fs' o' i = buddy_bit fs o' i) →
  frames_wf lim fs' ∧ block_ok lim (o + 1) (le_addr el) ∧ apart_from fs' (o + 1) (le_addr el) ∧
  (∀ x, free_byte fs x ↔ in_block (o + 1) (le_addr el) x ∨ free_byte fs' x) ∧
  (∀ o' x, free_at fs o' x ↔ (o' = o ∧ (x = le_addr el ∨ x = le_addr er)) ∨ free_at fs' o' x) ∧
  ¬ free_at fs' o (le_addr el) ∧ ¬ free_at fs' o (le_addr er).
Proof.
  intros Hwf Ho Hp Hd Her Hs' Hh Hother Hbits. pose proof (wf_shape _ _ Hwf) as Hs.
  set (fs1 := with_head o (er :: h) fs).
  assert (minus_block fs fs1 o (le_addr el)) as Hm1 by (apply (minus_with_head lim); [done|lia|done]).
  assert (minus_block fs1 fs' o (le_addr er)) as Hm2.
  { split.
    - unfold addrs, fs1. rewrite (heads_with_head Hs), decide_True by lia. by rewrite Hh.
    - intros o' Hne. unfold addrs, fs1.
      by rewrite (heads_with_head Hs), decide_False, Hother by (done || lia). }
  destruct (minus_wf Hm1 (wf_blocks _ _ Hwf)) as (Hb1 & _ & _).
  pose proof (minus_not_free Hm1 (wf_blocks _ _ Hwf)) as Hn1.
  pose proof (minus_not_free Hm2 Hb1) as Hn2.
  destruct (take_halves_wf lim fs fs1 fs' (o + 1) (le_addr el)) as (? & ? & ? & ?);
    replace (o + 1 - 1) with o by lia; try done; [lia|by rewrite <- Her|].
  split_and!; [done..| | |done].
  - intros o' x. rewrite (minus_free_at Hm1), (minus_free_at Hm2). naive_solver.
  - intros Hin. apply Hn1, (minus_free_at Hm2). by right.
Qed.

(** ** Coalescing

    At rest no two free blocks are buddies: every pair that could be merged has been. *)
Definition both_free (fs : FrameAllocator) (o i : Z) : Prop :=
  free_at fs o (2 * i * sz o) ∧ free_at fs o ((2 * i + 1) * sz o).

Definition coalesced (fs : FrameAllocator) : Prop :=
  ∀ o i, 0 ≤ o < 7 → ¬ both_free fs o i.

(** The only pair that may be waiting to be merged is the one of the block [a]. *)
Definition near_coalesced (fs : FrameAllocator) (o a : Z) : Prop :=
  ∀ o' i, 0 ≤ o' < 7 → both_free fs o' i → o' = o ∧ i = pair_index o a.

Lemma half_even i : 2 * i / 2 = i.
Proof. rewrite Z.mul_comm. by apply Z.div_mul. Qed.

Lemma half_odd i : (2 * i + 1) / 2 = i.
Proof. symmetry. apply Z.div_unique with 1; lia. Qed.

(** Two blocks of one pair join a coalesced allocator. *)
Lemma coalesced_add2 fs fs' o a b :
  coalesced fs → 0 ≤ o → pair_index o a = pair_index o b →
  (∀ o' x, free_at fs' o' x → (o' = o ∧ (x = a ∨ x = b)) ∨ free_at fs o' x) →
  near_coalesced fs' o a.
Proof.
  intros Hc Ho Hab Hsub o' i Ho' [H1 H2]. pose proof (Hc o' i Ho') as Hnot.
  pose proof (pair_index_aligned o (2 * i) Ho) as P1. rewrite half_even in P1.
  pose proof (pair_index_aligned o (2 * i + 1) Ho) as P2. rewrite half_odd in P2.
  apply Hsub in H1, H2.
  destruct H1 as [[-> [<-|<-]]|H1]; [split; congruence..|].
  destruct H2 as [[-> [<-|<-]]|H2]; [split; congruence..|].
  exfalso. by apply Hnot.
Qed.

Lemma coalesced_add fs fs' o a :
  coalesced fs → 0 ≤ o → (∀ o' x, free_at fs' o' x → (o' = o ∧ x = a) ∨ free_at fs o' x) →
  near_coalesced fs' o a.
Proof.
  intros Hc Ho Hsub. apply (coalesced_add2 fs _ _ _ a); [done..|].
  intros o' x Hx. apply Hsub in Hx. tauto.
Qed.

Lemma near_coalesced_bit lim fs o a :
  frames_wf lim fs → 0 ≤ o < 8 → 0 ≤ a → near_coalesced fs o a →
  o = 7 ∨ buddy_bit fs o (pair_index o a) = true → coalesced fs.
Proof.
  intros Hwf Ho Ha Hn Hb o' i Ho' Hbf. destruct (Hn o' i Ho' Hbf) as [-> ->].
  destruct Hb as [->|Hb]; [lia|]. destruct Hbf as [H1 H2].
  rewrite (wf_bits _ _ Hwf) in Hb; [|lia|].
  - by rewrite !bool_decide_eq_true_2 in Hb.
  - unfold pair_index. pose proof (sz_pos o ltac:(lia)). apply Z.div_pos; lia.
Qed.

(** The buddy of an aligned block, as the code computes it, is the other block of the
    pair. *)
Lemma buddy_sides o a : 0 ≤ o → 0 ≤ a → (sz o | a) →
  let i := pair_index o a in
  if a mod sz (o + 1) =? 0
  then a = 2 * i * sz o ∧ a + sz o = (2 * i + 1) * sz o
  else a = (2 * i + 1) * sz o ∧ a - sz o = 2 * i * sz o.
Proof.
  intros Ho Ha [k ->] i. subst i. rewrite pair_index_aligned by done.
  pose proof (sz_pos o Ho). rewrite sz_succ by done.
  rewrite Z.mul_mod_distr_r by lia.
  pose proof (Z.div_mod k 2 ltac:(lia)). pose proof (Z.mod_pos_bound k 2 ltac:(lia)).
  destruct (Z.eqb_spec (k mod 2 * sz o) 0); [|];
    (assert (k mod 2 = 0 ∨ k mod 2 = 1) as [E|E] by lia); rewrite E in *; nia.
Qed.

(** ** Coalesced allocators are canonical *)

(** Two aligned blocks that share a byte are nested. *)
Lemma nested o a o' a' x :
  0 ≤ o ≤ o' → (sz o | a) → (sz o' | a') → in_block o a x → in_block o' a' x →
  a' ≤ a ∧ a + sz o ≤ a' + sz o'.
Proof.
  intros Ho [k ->] [k' ->] Hx Hx'. unfold in_block in *.
  pose proof (sz_pos o ltac:(lia)).
  assert (sz o' = 2 ^ (o' - o) * sz o) as E.
  { unfold sz. replace o' with (o' - o + o) at 1 by lia. rewrite Z.pow_add_r by lia. lia. }
  rewrite E, Z.mul_assoc in *. set (p := 2 ^ (o' - o)) in *. set (K := k' * p) in *.
  assert (K < k + 1 ∧ k < K + p) as [? ?]; [|nia].
  split; apply (Z.mul_lt_mono_pos_r (sz o)); lia.
Qed.

Lemma blocks_meet lim fs o a o' a' x :
  blocks_wf lim fs → free_at fs o a → free_at fs o' a' → in_block o a x → in_block o' a' x →
  o = o' ∧ a = a'.
Proof.
  intros Hb H1 H2 Hx Hx'. destruct (decide ((o, a) = (o', a'))) as [|Hne]; [naive_solver|].
  exfalso. unfold in_block in *. destruct (blocks_apart _ _ Hb _ _ _ _ H1 H2 Hne); lia.
Qed.

Lemma pair_index_block o a x : 0 ≤ o → (sz o | a) → in_block o a x → pair_index o x = pair_index o a.
Proof.
  intros Ho [k ->] Hx. rewrite pair_index_aligned by done. unfold pair_index, in_block in *.
  pose proof (sz_pos o Ho). rewrite (Z.mul_comm 2), <- Z.div_div by lia. f_equal.
  symmetry. apply Z.div_unique with (x - k * sz o); lia.
Qed.

Lemma pair_index_halves o a x : 1 ≤ o → (sz o | a) → in_block o a x →
  pair_index (o - 1) x = pair_index (o - 1) a.
Proof.
  intros Ho [k ->] Hx. unfold pair_index. rewrite <- sz_pred by done.
  pose proof (sz_pos o ltac:(lia)). rewrite Z.div_mul by lia.
  symmetry. apply Z.div_unique with (x - k * sz o); unfold in_block in Hx; lia.
Qed.

Lemma in_block_start o a : 0 ≤ o → in_block o a a.
Proof. intros Ho. unfold in_block. pose proof (sz_pos o Ho). lia. Qed.

(** What is free as a whole is inside one free block. *)
Lemma coalesced_maximal lim fs n a :
  frames_wf lim fs → coalesced fs → Z.of_nat n < 8 → (sz (Z.of_nat n) | a) →
  (∀ x, in_block (Z.of_nat n) a x → free_byte fs x) →
  ∃ o' a', Z.of_nat n ≤ o' ∧ free_at fs o' a' ∧ in_block o' a' a.
Proof.
  intros Hwf Hc. pose proof (wf_blocks _ _ Hwf) as Hb.
  revert a. induction n as [|n IH]; intros a Hn Hd Hfree.
  { destruct (Hfree a) as (o' & a' & Hf & Hx); [by apply in_block_start|].
    exists o', a'. split_and!; [apply (blocks_ok _ _ Hb _ _ Hf)|done|done]. }
  set (o := Z.of_nat (S n)) in *. replace (Z.of_nat n) with (o - 1) in * by lia.
  pose proof (sz_pos (o - 1) ltac:(lia)). pose proof (sz_pred o ltac:(lia)) as Hsz.
  pose proof (aligned_down o a ltac:(lia) Hd) as Hd1.
  assert (sz (o - 1) | a + sz (o - 1)) as Hd1' by (by apply Z.divide_add_r).
  destruct (IH a) as (o1 & a1 & Ho1 & Hf1 & Hx1); [lia|done| |].
  { intros x Hx. apply Hfree. unfold in_block in *. lia. }
  destruct (decide (o1 = o - 1)) as [->|]; [|exists o1, a1; split_and!; done || lia].
  destruct (IH (a + sz (o - 1))) as (o2 & a2 & Ho2 & Hf2 & Hx2); [lia|done| |].
  { intros x Hx. apply Hfree. unfold in_block in *. lia. }
  destruct (blocks_ok _ _ Hb _ _ Hf1) as (_ & _ & Hda1 & _).
  destruct (blocks_ok _ _ Hb _ _ Hf2) as (Hr2 & _ & Hda2 & _).
  pose proof (in_block_start (o - 1) a ltac:(lia)) as Hin1.
  pose proof (in_block_start (o - 1) (a + sz (o - 1)) ltac:(lia)) as Hin2.
  assert (a1 = a) as ->.
  { destruct (nested (o - 1) a (o - 1) a1 a); [lia|done..|lia]. }
  destruct (decide (o2 = o - 1)) as [->|].
  - assert (a2 = a + sz (o - 1)) as ->.
    { destruct (nested (o - 1) (a + sz (o - 1)) (o - 1) a2 (a + sz (o - 1))); [lia|done..|lia]. }
    destruct Hd as [k ->]. exfalso. apply (Hc (o - 1) k); [lia|].
    unfold both_free. replace (2 * k * sz (o - 1)) with (k * sz o) by lia.
    by replace ((2 * k + 1) * sz (o - 1)) with (k * sz o + sz (o - 1)) by lia.
  - exists o2, a2. split_and!; [lia|done|].
    destruct (nested o a o2 a2 (a + sz (o - 1))) as [? ?]; [lia|done|done|unfold in_block; lia|done|].
    unfold in_block in *. lia.
Qed.

Lemma coalesced_maximalZ lim fs o a :
  frames_wf lim fs → coalesced fs → 0 ≤ o < 8 → (sz o | a) →
  (∀ x, in_block o a x → free_byte fs x) →
  ∃ o' a', o ≤ o' ∧ free_at fs o' a' ∧ in_block o' a' a.
Proof.
  intros Hwf Hc Ho Hd Hx. destruct (coalesced_maximal lim fs (Z.to_nat o) a) as (o' & a' & H);
    rewrite ?Z2Nat.id in * by lia; [done|done|lia|done|done|].
  by exists o', a'.
Qed.

Lemma canonical_free_at lim fs fs' o a :
  frames_wf lim fs → coalesced fs → frames_wf lim fs' → coalesced fs' →
  (∀ x, free_byte fs x ↔ free_byte fs' x) → free_at fs o a → free_at fs' o a.
Proof.
  intros Hwf Hc Hwf' Hc' Hby Hf.
  pose proof (wf_blocks _ _ Hwf) as Hb. pose proof (wf_blocks _ _ Hwf') as Hb'.
  pose proof (blocks_ok _ _ Hb _ _ Hf) as (Ho & _ & Hd & _).
  destruct (coalesced_maximalZ lim fs' o a) as (o' & a' & Ho' & Hf' & Hx'); [done..| |].
  { intros x Hx. apply Hby. by exists o, a. }
  pose proof (blocks_ok _ _ Hb' _ _ Hf') as (Hr' & _ & Hd' & _).
  destruct (coalesced_maximalZ lim fs o' a') as (o2 & a2 & Ho2 & Hf2 & Hx2); [done..| |].
  { intros x Hx. apply Hby. by exists o', a'. }
  destruct (blocks_ok _ _ Hb _ _ Hf2) as (_ & _ & Hd2 & _).
  pose proof (in_block_start o' a' ltac:(lia)) as Hin'.
  pose proof (in_block_start o a ltac:(lia)) as Hin.
  destruct (nested o' a' o2 a2 a') as [? ?]; [lia|done..|].
  destruct (blocks_meet lim fs o a o2 a2 a) as [<- <-]; [done..| |].
  - unfold in_block in *. lia.
  - assert (o' = o) as -> by lia. unfold in_block in *.
    assert (a' = a) as -> by lia. done.
Qed.

(** The free bytes determine the blocks of a coalesced allocator. *)
Lemma coalesced_canonical lim fs fs' :
  frames_wf lim fs → coalesced fs → frames_wf lim fs' → coalesced fs' →
  (∀ x, free_byte fs x ↔ free_byte fs' x) → fs ≡ fs'.
Proof.
  intros Hwf Hc Hwf' Hc' Hby o. apply NoDup_Permutation.
  - apply (blocks_nodup _ _ (wf_blocks _ _ Hwf)).
  - apply (blocks_nodup _ _ (wf_blocks _ _ Hwf')).
  - intros a. split; by apply (canonical_free_at lim).
Qed.

End FrameInvariant.
