(* ===== verification/FrameProofs.v ===== *)
(** What the operations of the buddy allocator do: every operation run from a state
    that meets the invariant of FrameInvariant.v. *)
From S2P Require Import Prelude Util MemState FrameAllocator FrameInvariant.

Module FrameProofs.
Import Util Mem FrameAllocator FrameInvariant.

Abbreviation fr := km_frames.

(** ** The primitives *)

Section primitives.
Context {lim : Z}.
Implicit Types (s : kmem).

Lemma wp_get_list o (Q : FreeList → kmem → Prop) s :
  shape lim (fr s) → 0 ≤ o < 8 →
  Q {| fl_head := heads (fr s) o; fl_buddy_map := buddy_words (fr s) o |} s → wp (get_list o) Q s.
Proof. intros Hs Ho HQ. unfold get_list. wp_steps; [|done]. by apply (shape_lookup Hs). Qed.

Lemma wp_get_head o (Q : list ListEntry → kmem → Prop) s :
  shape lim (fr s) → 0 ≤ o < 8 → Q (heads (fr s) o) s → wp (get_head o) Q s.
Proof. intros Hs Ho HQ. unfold get_head. wp_step. apply wp_get_list; [done..|]. by wp_step. Qed.

Lemma wp_set_head o h (Q : unit → kmem → Prop) s :
  shape lim (fr s) → 0 ≤ o < 8 → Q tt (set_frames (with_head o h (fr s)) s) →
  wp (set_head o h) Q s.
Proof.
  intros Hs Ho HQ. unfold set_head. wp_step. apply wp_get_list; [done..|].
  unfold set_list. by wp_step.
Qed.

Lemma wp_remove_head o e h (Q : ListEntry → kmem → Prop) s :
  shape lim (fr s) → 0 ≤ o < 8 → heads (fr s) o = e :: h →
  Q e (set_frames (with_head o h (fr s)) s) → wp (remove_head o) Q s.
Proof.
  intros Hs Ho Hh HQ. unfold remove_head. wp_step. apply wp_get_head; [done..|].
  rewrite Hh. wp_step. apply wp_set_head; [done..|]. by wp_step.
Qed.

Lemma wp_order_size o (Q : Z → kmem → Prop) s :
  shape lim (fr s) → 0 ≤ o < 8 → Q (sz o) s → wp (order_size o) Q s.
Proof.
  intros Hs Ho HQ. unfold order_size. wp_steps; [|done].
  rewrite (shape_sizes _ _ Hs). by apply lookup_standard_sizes.
Qed.

Lemma wp_calc_buddy_index o a (Q : Z * Z → kmem → Prop) s :
  shape lim (fr s) → 0 ≤ o < 7 → 0 ≤ a →
  Q (pair_index o a / 64, pair_index o a mod 64) s → wp (calc_buddy_index a o) Q s.
Proof.
  intros Hs Ho Ha HQ. unfold calc_buddy_index. wp_step. wp_step; [unfold FRAME_ORDERS; lia|].
  wp_step. apply wp_order_size; [done|lia|]. wp_step.
  pose proof (sz_pos o ltac:(lia)).
  assert ((a / sz o - (a / sz o) mod 2) / 2 = pair_index o a) as ->.
  { unfold pair_index. rewrite (Z.mul_comm 2), <- Z.div_div by lia.
    rewrite (Z.div_mod (a / sz o) 2) at 1 by lia.
    rewrite Z.add_simpl_r, Z.mul_comm. by rewrite Z.div_mul. }
  assert (∀ i, Z.land i 63 = i mod 64) as E by (intros; by apply (Z.land_ones _ 6)).
  assert (∀ i, Z.land i (Z.lnot 63) / 64 = i / 64) as E'.
  { intros i. rewrite <- Z.ldiff_land. change 63 with (Z.ones 6). rewrite Z.ldiff_ones_r by lia.
    rewrite Z.shiftl_mul_pow2, Z.shiftr_div_pow2 by lia. by rewrite Z.div_mul. }
  by rewrite E, E'.
Qed.

Lemma wp_get_buddy_bit o a (Q : bool → kmem → Prop) s :
  shape lim (fr s) → block_ok lim o a → o < 7 →
  Q (buddy_bit (fr s) o (pair_index o a)) s → wp (get_buddy_bit a o) Q s.
Proof.
  intros Hs (Ho & Ha & _ & Hl) Ho7 HQ. unfold get_buddy_bit.
  wp_step. apply wp_calc_buddy_index; [done|lia|done|]. cbn.
  wp_step. apply wp_get_list; [done|lia|]. cbn.
  destruct (word_in_range Hs o a ltac:(lia) Ha Hl) as [w Hw].
  wp_step. wp_step; [done|]. wp_step.
  assert (buddy_bit (fr s) o (pair_index o a) =
          negb (Z.land (w ≫ (pair_index o a mod 64)) 1 =? 0)) as <-; [|done].
  unfold buddy_bit. rewrite Hw. cbn.
  pose proof (Z.mod_pos_bound (pair_index o a) 64 ltac:(lia)).
  change 1 with (Z.ones 1). rewrite Z.land_ones by lia.
  rewrite <- (Z.add_0_l (pair_index o a mod 64)) at 1.
  rewrite <- Z.shiftr_spec, Z.bit0_odd by lia. change (2 ^ 1) with 2.
  rewrite Zmod_odd. by destruct (Z.odd _).
Qed.

Lemma wp_toggle o a (Q : unit → kmem → Prop) s :
  shape lim (fr s) → block_ok lim o a →
  Q tt (set_frames (flip o a (fr s)) s) → wp (toggle_buddy_bit a o) Q s.
Proof.
  intros Hs (Ho & Ha & _ & Hl) HQ. unfold toggle_buddy_bit, flip in *.
  change (FRAME_ORDERS - 1) with 7.
  destruct (Z.eqb_spec o 7) as [->|Hne].
  { wp_step. by destruct s. }
  wp_step. apply wp_calc_buddy_index; [done|lia|done|]. cbn.
  wp_step. apply wp_get_list; [done|lia|]. cbn.
  destruct (word_in_range Hs o a ltac:(lia) Ha Hl) as [w Hw].
  wp_step. wp_step; [done|]. unfold set_list. wp_step. by rewrite Hw in HQ.
Qed.
End primitives.

(** ** Entries taken from and given back to the pool *)

Section allocator.
Context `{!MemoryEntries, !MemoryEntriesSpec} {lim : Z}.
Implicit Types (s : kmem).

(** Between [s] and [s'], [n] entries more were taken from the pool than given back;
    what is not the allocator's is as it was. *)
Definition took (n : Z) (s s' : kmem) : Prop :=
  stock s' = stock s - n ∧ room s' = room s + n ∧
  (km_memory_size s', km_paging s') = (km_memory_size s, km_paging s).

Lemma took_refl s : took 0 s s.
Proof. unfold took. split_and!; [lia|lia|done]. Qed.

Lemma took_trans n n' s1 s2 s3 : took n s1 s2 → took n' s2 s3 → took (n + n') s1 s3.
Proof.
  intros (H1 & H2 & H3) (H4 & H5 & H6). unfold took. split_and!; [lia|lia|congruence].
Qed.

Lemma took_frames n f s s' : took n s s' → took n s (set_frames f s').
Proof. unfold took. rewrite stock_frames, room_frames. done. Qed.

Lemma wp_get_memory_entry (Q : Z → kmem → Prop) s :
  0 < stock s →
  (∀ e s', fr s' = fr s → took 1 s s' → Q e s') → wp get_memory_entry Q s.
Proof.
  intros Hst HQ. destruct (get_memory_entry_spec s Hst) as (e & p & He & H1 & H2).
  exists e, (set_pool p s). split; [done|]. by apply HQ.
Qed.

Lemma wp_free_entry e (Q : unit → kmem → Prop) s :
  0 < room s →
  (∀ s', fr s' = fr s → took (-1) s s' → Q tt s') → wp (free_memory_entry e) Q s.
Proof.
  intros Hst HQ. destruct (free_memory_entry_spec e s Hst) as (p & He & H1 & H2).
  exists tt, (set_pool p s). split; [done|]. apply HQ; [done|].
  unfold took. split_and!; [lia|lia|done].
Qed.

Lemma flipped_flip fs o a : shape lim fs → block_ok lim o a → flipped o a fs (flip o a fs).
Proof. intros Hs (Ho & Ha & _ & Hl) o' i Hi. by apply (buddy_bit_flip Hs). Qed.

Lemma flipped_with_head o a o' h fs fs' :
  shape lim fs' → 0 ≤ o' < 8 → flipped o a fs fs' → flipped o a fs (with_head o' h fs').
Proof. intros Hs Ho Hf o1 i Hi. rewrite (buddy_bit_with_head lim) by done. by apply Hf. Qed.

(** *** A block leaves its list *)

(** [remove_head] followed by the toggle: the state of the allocator after a block
    has been handed out. *)
Lemma take_block fs o e h :
  frames_wf lim fs → 0 ≤ o < 8 → heads fs o ≡ₚ e :: h →
  let fs' := flip o (le_addr e) (with_head o h fs) in
  frames_wf lim fs' ∧ apart_from fs' o (le_addr e) ∧ block_ok lim o (le_addr e) ∧
  (∀ x, free_byte fs x ↔ in_block o (le_addr e) x ∨ free_byte fs' x) ∧
  ∀ o', heads fs' o' = if decide (o = o') then h else heads fs o'.
Proof.
  intros Hwf Ho Hp fs'. pose proof (wf_shape _ _ Hwf) as Hs.
  pose proof (minus_with_head lim fs o e h Hs Ho Hp) as Hm.
  pose proof (shape_with_head Hs o h Ho) as Hs1.
  destruct (minus_wf Hm (wf_blocks _ _ Hwf)) as (_ & _ & Hok).
  assert (minus_block fs fs' o (le_addr e)) as Hm'.
  { unfold fs'. by rewrite (flip_equiv lim). }
  assert (flipped o (le_addr e) fs fs') as Hf.
  { intros o' i Hi. unfold fs'. rewrite (flipped_flip _ _ _ Hs1 Hok o' i Hi).
    by rewrite (buddy_bit_with_head lim). }
  destruct (take_wf _ _ _ _ _ Hwf Hm' (shape_flip Hs1 _ _ Ho) Hf) as (Hwf' & Hap & _).
  split_and!; [done..| |].
  - intros x. by rewrite (minus_free_byte Hm').
  - intros o'. unfold fs'. by rewrite (heads_flip Hs1), (heads_with_head Hs) by done.
Qed.

(** *** A block joins its list *)

Lemma give_block fs o e :
  frames_wf lim fs → block_ok lim o (le_addr e) → apart_from fs o (le_addr e) →
  let fs1 := flip o (le_addr e) fs in
  let fs' := with_head o (e :: heads fs o) fs1 in
  frames_wf lim fs' ∧ minus_block fs' fs o (le_addr e).
Proof.
  intros Hwf Hok Hap fs1 fs'. pose proof (wf_shape _ _ Hwf) as Hs.
  assert (0 ≤ o < 8) as Ho by apply Hok.
  pose proof (shape_flip Hs o (le_addr e) Ho) as Hs1.
  assert (minus_block fs' fs o (le_addr e)) as Hm.
  { pose proof (minus_push lim fs1 o e Hs1 Ho) as Hm.
    assert (heads fs1 o = heads fs o) as Hh by (unfold fs1; by rewrite (heads_flip Hs)).
    rewrite Hh in Hm. fold fs' in Hm. revert Hm. generalize fs'. intros fs2.
    unfold fs1. by rewrite (flip_equiv lim fs). }
  assert (flipped o (le_addr e) fs fs') as Hf.
  { apply flipped_with_head; [done..|]. by apply flipped_flip. }
  split; [|done].
  by apply (give_wf _ fs fs' o (le_addr e)); [..|apply shape_with_head|].
Qed.

(** The same with the two updates the other way round, as the merging loop has them. *)
Lemma give_block' fs o e :
  frames_wf lim fs → block_ok lim o (le_addr e) → apart_from fs o (le_addr e) →
  let fs' := flip o (le_addr e) (with_head o (e :: heads fs o) fs) in
  frames_wf lim fs' ∧ (∀ x, free_byte fs' x ↔ in_block o (le_addr e) x ∨ free_byte fs x) ∧
  heads fs' o = e :: heads fs o.
Proof.
  intros Hwf Hok Hap fs'. pose proof (wf_shape _ _ Hwf) as Hs.
  assert (0 ≤ o < 8) as Ho by apply Hok.
  pose proof (shape_with_head Hs o (e :: heads fs o) Ho) as Hs1.
  assert (minus_block fs' fs o (le_addr e)) as Hm.
  { unfold fs'. rewrite (flip_equiv lim) by done. by apply (minus_push lim). }
  assert (flipped o (le_addr e) fs fs') as Hf.
  { intros o' i Hi. unfold fs'. rewrite (flipped_flip _ _ _ Hs1 Hok o' i Hi).
    by rewrite (buddy_bit_with_head lim). }
  split_and!; [|intros x; apply (minus_free_byte Hm)|].
  - by apply (give_wf _ fs fs' o (le_addr e)); [..|apply shape_flip|].
  - unfold fs'. by rewrite (heads_flip Hs1), (heads_with_head Hs), decide_True by done.
Qed.

(** *** split_entry *)

(** The block [e] of order [o] has just been taken off its list [fs0]; splitting it
    puts its halves at the head of the list below. *)
Lemma wp_split_entry fs0 h o e (Q : unit → kmem → Prop) s :
  frames_wf lim fs0 → 1 ≤ o < 8 → heads fs0 o ≡ₚ e :: h → fr s = with_head o h fs0 →
  0 < stock s →
  (∀ s' r, frames_wf lim (fr s') →
     heads (fr s') (o - 1) = e :: r :: heads fs0 (o - 1) →
     le_addr r = le_addr e + sz (o - 1) →
     (∀ o', o' ≠ o - 1 → heads (fr s') o' = if decide (o = o') then h else heads fs0 o') →
     (∀ x, free_byte (fr s') x ↔ free_byte fs0 x) →
     took 1 s s' → Q tt s') →
  wp (split_entry e o) Q s.
Proof.
  intros Hwf Ho Hp Hs0 Hst HQ.
  destruct (take_block fs0 o e h Hwf ltac:(lia) Hp) as (Hwf1 & Hap & Hok & Hbytes & Hheads).
  rewrite <- Hs0 in *. set (fs1 := flip o (le_addr e) (fr s)) in *.
  assert (shape lim (fr s)) as Hs.
  { rewrite Hs0. apply shape_with_head; [apply Hwf|lia]. }
  pose proof (wf_shape _ _ Hwf1) as Hs1.
  unfold split_entry. wp_step. apply (wp_toggle (lim := lim)); [done..|].
  wp_step. apply wp_get_memory_entry; [by rewrite stock_frames|]. intros rp s1 Hfr1 Ht1.
  cbn in Hfr1. fold fs1 in Hfr1.
  wp_step. apply (wp_order_size (lim := lim)); [by rewrite Hfr1|lia|].
  wp_step. apply (wp_get_head (lim := lim)); [by rewrite Hfr1|lia|].
  apply (wp_set_head (lim := lim)); [by rewrite Hfr1|lia|].
  rewrite Hfr1. pose proof Hok as (Ho' & Ha & Hd & Hl).
  pose proof (shape_lim _ _ Hs1) as Hlim. pose proof (sz_pred o ltac:(lia)) as Hszp.
  pose proof (sz_pos (o - 1) ltac:(lia)).
  rewrite (wrap_small 64) by lia.
  set (r := {| le_ptr := rp; le_addr := le_addr e + sz (o - 1) |}).
  set (fs2 := with_head (o - 1) (r :: heads fs1 (o - 1)) fs1).
  assert (shape lim fs2) as Hs2 by (apply shape_with_head; [done|lia]).
  assert (heads fs2 (o - 1) = r :: heads fs1 (o - 1)) as Hh2.
  { unfold fs2. by rewrite (heads_with_head Hs1), decide_True by lia. }
  set (fs3 := with_head (o - 1) (e :: r :: heads fs1 (o - 1)) fs1).
  assert (fs3 ≡ with_head (o - 1) (e :: heads fs2 (o - 1)) fs2) as E3.
  { intros o'. unfold addrs. unfold fs3.
    rewrite (heads_with_head Hs1), (heads_with_head Hs2), Hh2 by lia.
    destruct (decide _) as [|Hne]; [done|]. unfold fs2.
    by rewrite (heads_with_head Hs1), decide_False by (done || lia). }
  destruct (give_halves_wf lim fs1 fs2 fs3 o (le_addr e)) as [Hwf3 Hbytes3].
  - done.
  - done.
  - lia.
  - done.
  - apply (minus_push lim fs1 (o - 1) r); [done|lia].
  - rewrite E3. apply (minus_push lim fs2 (o - 1) e); [done|lia].
  - apply shape_with_head; [done|lia].
  - intros o' i. unfold fs3. apply (buddy_bit_with_head lim); [done|lia].
  - assert (heads fs1 (o - 1) = heads fs0 (o - 1)) as Hh0.
    { rewrite Hheads. by rewrite decide_False by lia. }
    apply (HQ _ r).
    + done.
    + cbn. fold fs3. unfold fs3. rewrite (heads_with_head Hs1), decide_True by lia.
      by rewrite Hh0.
    + done.
    + intros o' Hne. cbn. fold fs3. unfold fs3.
      rewrite (heads_with_head Hs1), decide_False by lia. apply Hheads.
    + intros x. cbn. fold fs3. by rewrite Hbytes3, Hbytes.
    + apply took_frames. unfold took in *. rewrite stock_frames, room_frames in Ht1. done.
Qed.
(** *** Merging *)

(** The pair of [e] is merged into the block [el], which joins the next order. *)
Lemma merge_pair fs fs' o e el er h :
  frames_wf lim fs → 0 ≤ o < 7 → heads fs o ≡ₚ el :: er :: h →
  (sz (o + 1) | le_addr el) → le_addr er = le_addr el + sz o →
  shape lim fs' → heads fs' o = h → (∀ o', o' ≠ o → heads fs' o' = heads fs o') →
  (∀ o' i, buddy_bit fs' o' i = buddy_bit fs o' i) →
  le_addr e = le_addr el ∨ le_addr e = le_addr er →
  let fs'' := flip (o + 1) (le_addr el) (with_head (o + 1) (el :: heads fs' (o + 1)) fs') in
  frames_wf lim fs'' ∧ block_ok lim (o + 1) (le_addr el) ∧
  (∀ x, free_byte fs'' x ↔ free_byte fs x) ∧
  heads fs'' (o + 1) = el :: heads fs' (o + 1) ∧
  (near_coalesced fs o (le_addr e) → near_coalesced fs'' (o + 1) (le_addr el)).
Proof.
  intros Hwf Ho Hp Hd Her Hs' Hh Hother Hbits Hside fs''.
  destruct (take_pair_wf lim fs fs' o el er h) as (Hwf' & Hok & Hap & Hby & Hat & Hnl & Hnr);
    [done..|].
  destruct (give_block' fs' (o + 1) el Hwf' Hok Hap) as (Hwf'' & Hby'' & Hh'').
  split_and!; [done|done| |done|].
  - intros x. fold fs'' in Hby''. by rewrite Hby'', Hby.
  - intros Hn. apply (coalesced_add fs'); [|lia|].
    + intros o' i Ho' [H1 H2].
      destruct (Hn o' i Ho') as [-> ->].
      { split; apply Hat; by right. }
      assert (block_ok lim o (le_addr e)) as (_ & Ha & Hde & _).
      { apply (blocks_ok _ _ (wf_blocks _ _ Hwf)), Hat. naive_solver. }
      pose proof (buddy_sides o (le_addr e) ltac:(lia) Ha Hde) as Hsides.
      destruct (_ =? 0); destruct Hsides as [E1 E2]; rewrite <- E1 in *;
        destruct Hside as [E|E]; rewrite E in *; done.
    + intros o' x Hx.
      assert (minus_block fs'' fs' (o + 1) (le_addr el)) as Hm; [|by apply (minus_free_at Hm)].
      unfold fs''. rewrite (flip_equiv lim); [|apply shape_with_head; [done|lia]|lia].
      apply (minus_push lim); [done|lia].
Qed.

(** Writing one list head twice, as [merge_step] does, leaves the rest of the state alone. *)
Lemma two_heads fs o l l' :
  shape lim fs → 0 ≤ o < 8 →
  let fs' := with_head o l' (with_head o l fs) in
  shape lim fs' ∧ heads fs' o = l' ∧ (∀ o', o' ≠ o → heads fs' o' = heads fs o') ∧
  (∀ o' i, buddy_bit fs' o' i = buddy_bit fs o' i).
Proof.
  intros Hs Ho fs'. pose proof (shape_with_head Hs o l Ho) as Hs1. unfold fs'. split_and!.
  - by apply shape_with_head.
  - by rewrite (heads_with_head Hs1), decide_True by lia.
  - intros o' Hne. by rewrite (heads_with_head Hs1), decide_False,
      (heads_with_head Hs), decide_False by lia.
  - intros o' i. by rewrite !(buddy_bit_with_head lim) by done.
Qed.

(** The buddy that [merge_step] looks for is in the list, and the two halves are told apart. *)
Lemma merge_buddy fs o e next :
  frames_wf lim fs → 0 ≤ o < 7 → heads fs o = e :: next →
  buddy_bit fs o (pair_index o (le_addr e)) = false →
  let other := if le_addr e mod sz (o + 1) =? 0
               then u64 (le_addr e + sz o) else u64 (le_addr e - sz o) in
  ∃ before b after el er,
    find_split (λ b, le_addr b =? other) next = Some (before, b, after) ∧ le_addr b = other ∧
    (if other <? le_addr e then (b, e) else (e, b)) = (el, er) ∧
    heads fs o ≡ₚ el :: er :: before ++ after ∧
    (sz (o + 1) | le_addr el) ∧ le_addr er = le_addr el + sz o ∧
    (le_addr e = le_addr el ∨ le_addr e = le_addr er).
Proof.
  intros Hwf Ho Hh Ebit.
  pose proof (shape_lim _ _ (wf_shape _ _ Hwf)) as Hlim. pose proof (sz_range o ltac:(lia)).
  pose proof (sz_pos o ltac:(lia)) as Hsz.
  destruct (blocks_ok _ _ (wf_blocks _ _ Hwf) o (le_addr e)) as (_ & Ha & Hd & Hl).
  { unfold free_at, addrs. rewrite Hh. apply list_elem_of_here. }
  pose proof (buddy_sides o (le_addr e) ltac:(lia) Ha Hd) as Hsides. cbv zeta in Hsides.
  set (i := pair_index o (le_addr e)) in *.
  assert (0 ≤ i) as Hi by (unfold i, pair_index; apply Z.div_pos; lia).
  assert (free_at fs o (2 * i * sz o) ↔ free_at fs o ((2 * i + 1) * sz o)) as Hboth.
  { rewrite (wf_bits _ _ Hwf) in Ebit by lia. apply xorb_eq in Ebit.
    repeat case_bool_decide; naive_solver. }
  assert (free_at fs o (le_addr e)) as Hfree.
  { unfold free_at, addrs. rewrite Hh. apply list_elem_of_here. }
  intros other.
  assert (other = (if le_addr e mod sz (o + 1) =? 0 then le_addr e + sz o else le_addr e - sz o) ∧
          free_at fs o other) as [Eo Hfo].
  { unfold other. destruct (_ =? 0); destruct Hsides as [E1 E2];
      (rewrite wrap_small by nia); (split; [done|]); rewrite E2; apply Hboth; by rewrite <- E1. }
  clearbody other.
  assert (is_Some (find_split (λ b, le_addr b =? other) next)) as [[[before b] after] Hfs].
  { unfold free_at, addrs in Hfo. rewrite Hh, fmap_cons, elem_of_cons in Hfo.
    destruct Hfo as [E|Hin]; [rewrite Eo in E; destruct (_ =? 0); lia|].
    apply list_elem_of_fmap in Hin as (b & Eb & Hin). apply (find_split_is_Some _ _ b Hin). lia. }
  exists before, b, after. apply find_split_Some in Hfs as Hs.
  destruct Hs as (Hnext & Hbo%Z.eqb_eq & _).
  assert (∀ k, (sz (o + 1) | 2 * k * sz o)) as Hdiv.
  { intros k. exists k. rewrite sz_succ by lia. lia. }
  rewrite Hh. destruct (_ =? 0) eqn:Em; destruct Hsides as [E1 E2].
  - replace (_ <? _) with false by lia. exists e, b. split_and!; try done; try lia.
    + rewrite Hnext. constructor. by rewrite Permutation_middle.
    + rewrite E1. apply Hdiv.
  - replace (_ <? _) with true by lia. exists b, e. split_and!; try done; try lia.
    + rewrite Hnext, <- Permutation_middle. apply perm_swap.
    + rewrite Hbo, Eo, E2. apply Hdiv.
Qed.

Lemma wp_merge_step e next o
    (Q : ListEntry * list ListEntry * Z + unit → kmem → Prop) s :
  frames_wf lim (fr s) → 0 ≤ o < 8 → heads (fr s) o = e :: next → (o < 7 → 0 < room s) →
  (o = 7 ∨ buddy_bit (fr s) o (pair_index o (le_addr e)) = true → Q (inr tt) s) →
  (∀ s' e' next', o < 7 → frames_wf lim (fr s') → heads (fr s') (o + 1) = e' :: next' →
     (∀ x, free_byte (fr s') x ↔ free_byte (fr s) x) → took (-1) s s' →
     (near_coalesced (fr s) o (le_addr e) → near_coalesced (fr s') (o + 1) (le_addr e')) →
     Q (inl (e', next', o + 1)) s') →
  wp (merge_step (e, next, o)) Q s.
Proof.
  intros Hwf Ho Hh Hroom Hexit Hgo. unfold merge_step. change (FRAME_ORDERS - 1) with 7.
  destruct (Z.ltb_spec o 7) as [Hlt|]; [|wp_step; apply Hexit; lia].
  pose proof (wf_shape _ _ Hwf) as Hs.
  destruct (blocks_ok _ _ (wf_blocks _ _ Hwf) o (le_addr e)) as (_ & Ha & Hd & Hl).
  { unfold free_at, addrs. rewrite Hh. apply list_elem_of_here. }
  wp_step. apply (wp_get_buddy_bit (lim := lim)); [done..|].
  destruct (buddy_bit _ _ _) eqn:Ebit; [wp_step; by apply Hexit; right|]. clear Hexit.
  wp_step. apply (wp_set_head (lim := lim)); [done|lia|].
  pose proof (shape_with_head Hs o next ltac:(lia)) as HsA.
  wp_step. apply (wp_order_size (lim := lim)); [done|lia|].
  wp_step. apply (wp_order_size (lim := lim)); [done|lia|].
  wp_step. apply (wp_get_head (lim := lim)); [done|lia|]. cbn [km_frames set_frames].
  rewrite (heads_with_head Hs), decide_True by lia.
  destruct (merge_buddy (fr s) o e next)
    as (before & b & after & el & er & Hfs & Hbo & Hlr & Hp & Hdl & Her & Hside); [(done || lia)..|].
  rewrite Hfs.
  wp_step. apply (wp_set_head (lim := lim)); [done|lia|]. cbn [km_frames set_frames].
  rewrite Hlr.
  destruct (two_heads (fr s) o next (before ++ after) Hs ltac:(lia)) as (HsB & HhB & HotherB & HbitB).
  set (fsB := with_head o (before ++ after) _) in *.
  wp_step. apply wp_free_entry.
  { rewrite !room_frames. auto. }
  intros s1 Hfr1 Ht1. cbn in Hfr1. fold fsB in Hfr1.
  destruct (merge_pair (fr s) fsB o e el er (before ++ after)) as (Hwf' & Hok' & Hby & Hh' & Hco);
    [(done || lia)..|].
  wp_step. apply (wp_get_head (lim := lim)); [by rewrite Hfr1|lia|]. rewrite Hfr1.
  wp_step. apply (wp_set_head (lim := lim)); [by rewrite Hfr1|lia|]. rewrite Hfr1.
  pose proof (shape_with_head HsB (o + 1) (el :: heads fsB (o + 1)) ltac:(lia)) as HsC.
  wp_step. apply (wp_toggle (lim := lim)); [done..|]. wp_step. apply Hgo; [done..| |done].
  do 2 apply took_frames. unfold took in *. rewrite !stock_frames, !room_frames in Ht1. done.
Qed.

Lemma wp_merge e next o (Q : unit → kmem → Prop) s :
  frames_wf lim (fr s) → 0 ≤ o < 8 → heads (fr s) o = e :: next → 7 - o ≤ room s →
  (∀ s' k, frames_wf lim (fr s') → (∀ x, free_byte (fr s') x ↔ free_byte (fr s) x) →
     0 ≤ k ≤ 7 - o → took (- k) s s' →
     (near_coalesced (fr s) o (le_addr e) → coalesced (fr s')) → Q tt s') →
  wp (merge e next o) Q s.
Proof.
  intros Hwf Ho Hh Hroom HQ. unfold merge.
  apply (wp_loop
    (λ '(e', next', o') s', frames_wf lim (fr s') ∧ o ≤ o' < 8 ∧ heads (fr s') o' = e' :: next' ∧
       (∀ x, free_byte (fr s') x ↔ free_byte (fr s) x) ∧ took (o - o') s s' ∧
       (near_coalesced (fr s) o (le_addr e) → near_coalesced (fr s') o' (le_addr e')))
    (λ '(_, _, o') _, Z.to_nat (8 - o'))); [| cbn; lia |].
  - split_and!; try done; try lia. rewrite Z.sub_diag. apply took_refl.
  - intros [[e1 n1] o1] s1 (Hwf1 & Ho1 & Hh1 & Hby1 & Ht1 & Hco1).
    pose proof Ht1 as (_ & Hr1 & _).
    apply wp_merge_step; [done|lia|done|lia| |].
    + intros Hend. apply (HQ s1 (o1 - o)); [done|done|lia| |].
      * replace (- (o1 - o)) with (o - o1) by lia. done.
      * intros Hn. apply (near_coalesced_bit lim _ o1 (le_addr e1)); [done|lia| |by apply Hco1|done].
        assert (free_at (fr s1) o1 (le_addr e1)) as Hf.
        { unfold free_at, addrs. rewrite Hh1. apply list_elem_of_here. }
        apply (blocks_ok _ _ (wf_blocks _ _ Hwf1) _ _ Hf).
    + intros s2 e2 n2 Hlt Hwf2 Hh2 Hby2 Ht2 Hco2. split; [split_and!|]; try done; try lia.
      * intros x. by rewrite Hby2.
      * replace (o - (o1 + 1)) with (o - o1 + -1) by lia. by eapply took_trans.
      * tauto.
Qed.

(** *** free_frames *)

Definition pfa_ok (a : PageFrameAllocation) : Prop := block_ok lim (pfa_order a) (pfa_addr a).
Definition pfa_byte (a : PageFrameAllocation) (x : Z) : Prop :=
  in_block (pfa_order a) (pfa_addr a) x.
Definition pfa_separate (a b : PageFrameAllocation) : Prop :=
  separate (pfa_order a) (pfa_addr a) (pfa_order b) (pfa_addr b).

(** The blocks of [l] belong to a caller: valid, disjoint from each other and from
    everything that is free. *)
Record owned (fs : FrameAllocator) (l : list PageFrameAllocation) : Prop := {
  owned_ok : Forall pfa_ok l;
  owned_separate : ForallOrdPairs pfa_separate l;
  owned_apart : Forall (λ a, apart_from fs (pfa_order a) (pfa_addr a)) l;
}.

Lemma separate_of_bytes o a o' a' :
  0 ≤ o → 0 ≤ o' → (∀ x, in_block o a x → ¬ in_block o' a' x) ↔ separate o a o' a'.
Proof.
  intros Ho Ho'. pose proof (sz_pos o Ho). pose proof (sz_pos o' Ho').
  unfold in_block, separate. split; [|intros; lia].
  intros Hx. pose proof (Hx (Z.max a a')). lia.
Qed.

Lemma apart_from_bytes fs o a :
  blocks_wf lim fs → 0 ≤ o → apart_from fs o a ↔ ∀ x, in_block o a x → ¬ free_byte fs x.
Proof.
  intros Hb Ho. split.
  - intros Hap x Hx (o' & a' & Hf & Hx').
    assert (0 ≤ o') by apply (blocks_ok _ _ Hb _ _ Hf).
    by apply (proj2 (separate_of_bytes o a o' a' Ho ltac:(done)) (Hap o' a' Hf) x).
  - intros Hx o' a' Hf. assert (0 ≤ o') by apply (blocks_ok _ _ Hb _ _ Hf).
    apply separate_of_bytes; [done..|]. intros x Hin Hin'. apply (Hx x Hin). by exists o', a'.
Qed.

Lemma wp_free_block a (Q : unit → kmem → Prop) s :
  frames_wf lim (fr s) → pfa_ok a → apart_from (fr s) (pfa_order a) (pfa_addr a) → 7 ≤ room s →
  (∀ s' k, frames_wf lim (fr s') →
     (∀ x, free_byte (fr s') x ↔ pfa_byte a x ∨ free_byte (fr s) x) →
     0 ≤ k ≤ 7 → took (- k) s s' → (coalesced (fr s) → coalesced (fr s')) → Q tt s') →
  wp (free_block a) Q s.
Proof.
  intros Hwf Hok Hap Hroom HQ. pose proof (wf_shape _ _ Hwf) as Hs.
  assert (0 ≤ pfa_order a < 8) as Ho by apply Hok.
  set (e := {| le_ptr := pfa_ptr a; le_addr := pfa_addr a |}).
  unfold free_block. wp_step. wp_step; [unfold FRAME_ORDERS; lia|].
  wp_step. apply (wp_toggle (lim := lim)); [done..|]. fold e.
  pose proof (shape_flip Hs (pfa_order a) (pfa_addr a) Ho) as Hs1.
  wp_step. apply (wp_get_head (lim := lim)); [done..|]. cbn [km_frames set_frames].
  wp_step. apply (wp_set_head (lim := lim)); [done..|]. cbn [km_frames set_frames].
  rewrite (heads_flip Hs) by done.
  destruct (give_block (fr s) (pfa_order a) e Hwf Hok Hap) as [Hwf2 Hm2].
  set (fs2 := with_head (pfa_order a) (e :: heads (fr s) (pfa_order a)) _) in *.
  apply wp_merge; [done|done| |rewrite !room_frames; lia|].
  { cbn. unfold fs2. rewrite (heads_with_head Hs1), decide_True by done. done. }
  intros s' k Hwf' Hby' Hk Ht Hco. apply (HQ s' k); [done| |lia| |].
  - intros x. cbn in Hby'. by rewrite Hby', (minus_free_byte Hm2).
  - unfold took in *. rewrite !stock_frames, !room_frames in Ht. done.
  - intros Hc. apply Hco. cbn. apply (coalesced_add (fr s)); [done|lia|].
    intros o' x Hx. by apply (minus_free_at Hm2).
Qed.

Definition list_byte (l : list PageFrameAllocation) (x : Z) : Prop := ∃ a, a ∈ l ∧ pfa_byte a x.

Lemma wp_free_frames l (Q : unit → kmem → Prop) s :
  frames_wf lim (fr s) → owned (fr s) l → 7 * Z.of_nat (length l) ≤ room s →
  (∀ s' k, frames_wf lim (fr s') →
     (∀ x, free_byte (fr s') x ↔ list_byte l x ∨ free_byte (fr s) x) →
     0 ≤ k ≤ 7 * Z.of_nat (length l) → took (- k) s s' →
     (coalesced (fr s) → coalesced (fr s')) → Q tt s') →
  wp (free_frames l) Q s.
Proof.
  revert Q s. induction l as [|a l IH]; intros Q s Hwf [Hok Hsep Hap] Hroom HQ; cbn [free_frames].
  - wp_step. apply (HQ s 0); [done| |lia|apply took_refl|done].
    intros x. unfold list_byte. split; [by right|]. intros [(b & Hb & _)|]; [|done].
    by apply elem_of_nil in Hb.
  - cbn [length] in Hroom. apply Forall_cons in Hok as [Hoka Hok], Hap as [Hapa Hap].
    inversion Hsep as [|? ? Hsepa Hsepl]; subst.
    wp_step. apply wp_free_block; [done..|lia|]. intros s1 k1 Hwf1 Hby1 Hk1 Ht1 Hco1.
    pose proof Ht1 as (_ & Hr1 & _).
    apply IH; [done| |lia|].
    + split; [done..|]. rewrite Forall_forall in *. intros b Hb.
      assert (pfa_ok b) as Hokb by auto.
      apply apart_from_bytes; [apply Hwf1|apply Hokb|]. intros x Hx. rewrite Hby1.
      intros [Hxa|Hf].
      * assert (0 ≤ pfa_order a ∧ 0 ≤ pfa_order b) as [Ha0 Hb0] by (split; [apply Hoka|apply Hokb]).
        exact (proj2 (separate_of_bytes _ _ _ _ Ha0 Hb0) (Hsepa b Hb) x Hxa Hx).
      * revert x Hx Hf. apply apart_from_bytes; [apply Hwf|apply Hokb|by apply Hap].
    + intros s2 k2 Hwf2 Hby2 Hk2 Ht2 Hco2. apply (HQ s2 (k1 + k2)); [done| |cbn [length]; lia| |tauto].
      * intros x. rewrite Hby2, Hby1. unfold list_byte. setoid_rewrite elem_of_cons. naive_solver.
      * replace (- (k1 + k2)) with (- k1 + - k2) by lia. by eapply took_trans.
Qed.
End allocator.

End FrameProofs.
