(* ===== verification/FrameAlloc.v ===== *)
(** Allocation from the buddy allocator: [alloc_frames], [alloc_frames_contiguos],
    [free_frames_contiguos] and their round trips. *)
From S2P Require Import Prelude Util MemState FrameAllocator FrameInvariant FrameProofs.

Module FrameAlloc.
Import Util Mem FrameAllocator FrameInvariant FrameProofs.

(** The invariant at rest. *)
Record allocator_wf (lim : Z) (fs : FrameAllocator) : Prop := {
  awf_frames : frames_wf lim fs;
  awf_coalesced : coalesced fs;
}.

Definition total_size (l : list PageFrameAllocation) : Z :=
  foldr (λ a n, sz (pfa_order a) + n) 0 l.

Lemma total_size_app l l' : total_size (l ++ l') = total_size l + total_size l'.
Proof. induction l as [|a l IH]; cbn; [done|]. unfold total_size in *. lia. Qed.

Lemma ForallOrdPairs_snoc {A} (R : A → A → Prop) l x :
  ForallOrdPairs R l → Forall (λ y, R y x) l → ForallOrdPairs R (l ++ [x]).
Proof.
  induction 1 as [|y l Hy Hl IH]; intros Hx; cbn.
  - constructor; constructor.
  - apply Forall_cons in Hx as [Hyx Hx]. constructor; [|by apply IH].
    apply Forall_app. split; [done|]. by constructor.
Qed.

Section alloc.
Context `{!MemoryEntries, !MemoryEntriesSpec} {lim : Z}.
Implicit Types (s : kmem).

(** ** Choosing the order *)

Lemma wp_biggest_order size (Q : Z → kmem → Prop) s :
  shape lim (fr s) → 4096 ≤ size →
  (∀ o, 0 ≤ o < 8 → sz o ≤ size → (o = 7 ∨ size < sz (o + 1)) → Q o s) →
  wp (biggest_order size) Q s.
Proof.
  intros Hs Hsize HQ. unfold biggest_order. wp_step.
  apply (wp_loop (λ o s', s' = s ∧ 0 ≤ o ≤ 8 ∧ (0 < o → sz (o - 1) ≤ size))
                 (λ o _, Z.to_nat (8 - o))); [split_and!; done || lia|cbn; lia|].
  intros o s' (-> & Ho & Hle). change FRAME_ORDERS with 8. destruct (Z.ltb_spec o 8).
  - wp_step. apply (wp_order_size (lim := lim)); [done|lia|]. wp_step.
    destruct (Z.ltb_spec size (sz o)) as [Hlt|].
    + wp_step. assert (o ≠ 0) by (intros ->; by change (sz 0) with 4096 in Hlt; lia).
      apply HQ; [lia|apply Hle; lia|right; by replace (o - 1 + 1) with o by lia].
    + split; [split_and!; [done|lia..|]|lia]. by replace (o + 1 - 1) with o by lia.
  - assert (o = 8) as -> by lia. wp_step. wp_step.
    apply HQ; [lia|by apply Hle|by left].
Qed.

Lemma wp_biggest_free_order start (Q : Z → kmem → Prop) s :
  shape lim (fr s) → -1 ≤ start < 8 →
  (∀ o, -1 ≤ o ≤ start → (0 ≤ o → heads (fr s) o ≠ []) →
     (∀ o', o < o' ≤ start → heads (fr s) o' = []) → Q o s) →
  wp (biggest_free_order start) Q s.
Proof.
  intros Hs Hst HQ. unfold biggest_free_order.
  apply (wp_loop (λ o s', s' = s ∧ -1 ≤ o ≤ start ∧ ∀ o', o < o' ≤ start → heads (fr s) o' = [])
                 (λ o _, Z.to_nat (o + 1))); [split_and!; done || lia|cbn; lia|].
  intros o s' (-> & Ho & Hemp). destruct (Z.leb_spec 0 o).
  - wp_step. apply (wp_get_head (lim := lim)); [done|lia|]. wp_step.
    destruct (heads (fr s) o) as [|e h] eqn:Hh; cbn [is_null].
    + split; [split_and!; [done|lia..|]|lia]. intros o' Ho'.
      destruct (decide (o' = o)) as [->|]; [done|apply Hemp; lia].
    + apply HQ; [lia|by rewrite Hh|done].
  - wp_step. apply HQ; [lia|lia|done].
Qed.

(** ** Splitting keeps the allocator one take away from coalesced *)

Lemma take_coalesced fs o e h :
  frames_wf lim fs → 0 ≤ o < 8 → heads fs o ≡ₚ e :: h → near_coalesced fs o (le_addr e) →
  coalesced (flip o (le_addr e) (with_head o h fs)).
Proof.
  intros Hwf Ho Hh Hn o' i Ho' [H1 H2].
  pose proof (minus_with_head lim fs o e h (wf_shape _ _ Hwf) Ho Hh) as Hm.
  pose proof (minus_not_free Hm (wf_blocks _ _ Hwf)) as Hnot.
  assert (block_ok lim o (le_addr e)) as (_ & Ha & Hd & _)
    by apply (minus_wf Hm (wf_blocks _ _ Hwf)).
  assert (∀ x, free_at (flip o (le_addr e) (with_head o h fs)) o' x →
               free_at (with_head o h fs) o' x) as Hflip.
  { intros x. rewrite (flip_equiv lim); [done| |done]. apply shape_with_head; [apply Hwf|done]. }
  apply Hflip in H1, H2. clear Hflip.
  destruct (Hn o' i Ho') as [-> ->].
  { split; apply (minus_free_at Hm); by right. }
  pose proof (buddy_sides o (le_addr e) ltac:(lia) Ha Hd) as Hs.
  destruct (_ =? 0); destruct Hs as [E _]; rewrite <- E in *; done.
Qed.

(** The lists after a split: the block [e] of order [o] became its two halves. *)
Lemma split_near_coalesced fs fs' o e r h :
  frames_wf lim fs → 1 ≤ o < 8 → heads fs o ≡ₚ e :: h → near_coalesced fs o (le_addr e) →
  heads fs' (o - 1) = e :: r :: heads fs (o - 1) → le_addr r = le_addr e + sz (o - 1) →
  (∀ o', o' ≠ o - 1 → heads fs' o' = if decide (o = o') then h else heads fs o') →
  near_coalesced fs' (o - 1) (le_addr e).
Proof.
  intros Hwf Ho Hh Hn Hh' Hr Hother.
  pose proof (take_coalesced fs o e h Hwf ltac:(lia) Hh Hn) as Hc.
  set (fs1 := flip o (le_addr e) (with_head o h fs)) in *.
  assert (∀ o', heads fs1 o' = if decide (o = o') then h else heads fs o') as Hh1.
  { intros o'. unfold fs1. pose proof (wf_shape _ _ Hwf) as Hs.
    rewrite (heads_flip (shape_with_head Hs o h ltac:(lia))) by lia.
    by rewrite (heads_with_head Hs) by lia. }
  assert (block_ok lim o (le_addr e)) as (_ & _ & [k Hk] & _).
  { apply (blocks_ok _ _ (wf_blocks _ _ Hwf)). unfold free_at, addrs. rewrite Hh.
    apply list_elem_of_here. }
  rewrite (sz_pred o) in Hk by lia.
  apply (coalesced_add2 fs1 _ _ _ (le_addr r)); [done|lia| |].
  - replace (le_addr r) with ((2 * k + 1) * sz (o - 1)) by lia.
    replace (le_addr e) with ((2 * k) * sz (o - 1)) by lia.
    rewrite !pair_index_aligned by lia. by rewrite half_even, half_odd.
  - intros o' x. unfold free_at, addrs. rewrite Hh1. destruct (decide (o' = o - 1)) as [->|Hne].
    + rewrite Hh', decide_False by lia. rewrite !fmap_cons, !elem_of_cons. tauto.
    + rewrite Hother by done. tauto.
Qed.

(** ** Finding a block *)

(** What a search for a block of order [ota] or less leaves behind: the block, first of
    the list of [r], in an allocator that lacks nothing else to be coalesced. *)
Definition found_block (ota : Z) s (r : Z) s' : Prop :=
  0 ≤ r ≤ ota ∧ frames_wf lim (fr s') ∧ (∀ x, free_byte (fr s') x ↔ free_byte (fr s) x) ∧
  (∃ e h, heads (fr s') r = e :: h ∧ near_coalesced (fr s') r (le_addr e)) ∧
  (∃ k, 0 ≤ k ≤ 7 ∧ took k s s') ∧
  (ota = 7 → r = 7 ∧ heads (fr s') 7 = heads (fr s) 7).

Definition no_block s : Prop := ∀ o, 0 ≤ o < 8 → heads (fr s) o = [].

(** Going up: the lists above [ota] passed so far are empty. *)
Definition searching (ota : Z) s (order : Z) s' : Prop :=
  s' = s ∧ ota < order ∧ (∀ o, ota < o < order → heads (fr s) o = []) ∧
  (order < 8 ∨ heads (fr s) ota ≠ []).

(** Going down: the list of [order] starts with a block that has just been split off. *)
Definition splitting (ota : Z) s (order : Z) s' : Prop :=
  ota ≤ order < 7 ∧ frames_wf lim (fr s') ∧
  (∀ x, free_byte (fr s') x ↔ free_byte (fr s) x) ∧
  (∃ e h, heads (fr s') order = e :: h ∧ near_coalesced (fr s') order (le_addr e)) ∧
  (∃ k, 0 ≤ k ≤ 7 - order ∧ took k s s') ∧
  (∀ o, ota ≤ o < order → heads (fr s') o = []).

Lemma coalesced_near fs o a : coalesced fs → near_coalesced fs o a.
Proof. intros Hc o' i Ho Hb. by destruct (Hc o' i Ho). Qed.

Lemma found_here o e h s :
  allocator_wf lim (fr s) → 0 ≤ o → heads (fr s) o = e :: h → ∀ ota, o ≤ ota →
  (ota = 7 → o = 7) → found_block ota s o s.
Proof.
  intros [Hwf Hc] Ho Hh ota Hota H7. unfold found_block. split_and!; try done.
  - exists e, h. split; [done|]. by apply coalesced_near.
  - exists 0. split; [lia|apply took_refl].
  - intros E. by rewrite (H7 E).
Qed.

Lemma searching_exit ota order s s' :
  allocator_wf lim (fr s) → 0 ≤ ota → heads (fr s) ota ≠ [] → searching ota s order s' →
  found_block ota s ota s'.
Proof.
  intros Hwf Ho Hne (-> & _). destruct (heads (fr s) ota) as [|e h] eqn:E; [done|].
  by apply (found_here _ e h).
Qed.

Lemma splitting_exit ota order s s' :
  0 ≤ ota → heads (fr s') ota ≠ [] → splitting ota s order s' → found_block ota s ota s'.
Proof.
  intros Hota Hne (Ho & Hwf & Hby & He & (k & Hk & Ht) & Hemp).
  destruct (decide (order = ota)) as [->|]; [|by destruct Hne; apply Hemp; lia].
  unfold found_block. split_and!; try done; try lia. exists k. split; [lia|done].
Qed.

(** The pages of the blocks of at most four pages. *)
Definition small_pages (fs : FrameAllocator) : Z :=
  Z.of_nat (length (heads fs 0)) + 2 * Z.of_nat (length (heads fs 1)) + 4 * Z.of_nat (length (heads fs 2)).

Lemma small_pages_split fs fs' o e r h :
  1 ≤ o ≤ 2 → heads fs o = e :: h → heads fs' (o - 1) = e :: r :: heads fs (o - 1) →
  (∀ o', o' ≠ o - 1 → heads fs' o' = if decide (o = o') then h else heads fs o') → small_pages fs' = small_pages fs.
Proof.
  intros Ho Hh Hh' Hother. unfold small_pages. assert (o = 1 ∨ o = 2) as [-> | ->] by lia;
    [change (1 - 1) with 0 in *|change (2 - 1) with 1 in *].
  - rewrite Hh', Hh, (Hother 1), (Hother 2), decide_True, decide_False by lia. cbn. lia.
  - rewrite Hh', Hh, (Hother 0), (Hother 2), decide_False, decide_True by lia. cbn. lia.
Qed.

(** One split on the way down. *)
Lemma wp_split_down ota order e h s s' (Q : unit → kmem → Prop) :
  0 ≤ ota < order → order < 8 → frames_wf lim (fr s') → heads (fr s') order = e :: h →
  near_coalesced (fr s') order (le_addr e) →
  (∀ x, free_byte (fr s') x ↔ free_byte (fr s) x) →
  (∃ k, 0 ≤ k ≤ 7 - order ∧ took k s s') → 7 ≤ stock s →
  (∀ o, ota ≤ o < order → heads (fr s') o = []) →
  (∀ s'', splitting ota s (order - 1) s'' → (order ≤ 2 → small_pages (fr s'') = small_pages (fr s')) → Q tt s'') →
  wp (e ← remove_head order; split_entry e order) Q s'.
Proof.
  intros Hota Ho Hwf Hh Hn Hby (k & Hk & Ht) Hst Hemp HQ.
  pose proof (wf_shape _ _ Hwf) as Hs.
  wp_step. apply (wp_remove_head (lim := lim) _ e h); [done|lia|done|].
  eapply (wp_split_entry (lim := lim) (fr s') h).
  - done.
  - lia.
  - by rewrite Hh.
  - done.
  - rewrite stock_frames. unfold took in Ht. lia.
  - intros s2 r Hwf2 Hh2 Hr Hother Hby2 Ht2.
    apply HQ; [|intros Ho2; apply (small_pages_split _ _ order e r h); [lia|done..]]. unfold splitting. split_and!; try done; try lia.
    + intros x. by rewrite Hby2.
    + exists e, (r :: heads (fr s') (order - 1)). split; [done|].
      apply (split_near_coalesced (fr s') _ _ _ r h); (by rewrite Hh) || done || lia.
    + exists (k + 1). split; [lia|]. eapply took_trans; [done|].
      unfold took in *. rewrite stock_frames, room_frames in Ht2. done.
    + intros o Ho'. rewrite Hother by lia. rewrite decide_False by lia. apply Hemp. lia.
Qed.

Lemma bind_assoc {A B C} (m : KM A) (f : A → KM B) (g : B → KM C) :
  ∀ s, (x ← m; y ← f x; g y) s = (y ← (x ← m; f x); g y) s.
Proof. intros s. unfold mbind, M_bind. by destruct (m s) as [[]|]. Qed.

Lemma wp_assoc {A B C} (m : KM A) (f : A → KM B) (g : B → KM C) Q s :
  wp (x ← m; f x) (λ y s', wp (g y) Q s') s → wp (x ← m; y ← f x; g y) Q s.
Proof.
  intros (a & s' & Hm & HQ)%wp_bind. exists a, s'. by rewrite bind_assoc.
Qed.

Lemma wp_find_block ota (Q : Z → kmem → Prop) s :
  allocator_wf lim (fr s) → 0 ≤ ota < 8 → (ota = 7 → heads (fr s) 7 ≠ []) → 7 ≤ stock s →
  (∀ r s', found_block ota s r s' → Q r s') →
  (no_block s → Q (-1) s) →
  wp (find_block ota) Q s.
Proof.
  intros Hwf Hota H7 Hst Hfound Hnone. unfold find_block.
  apply (wp_loop (λ order s', searching ota s order s' ∨ splitting ota s order s')
    (λ order s', Z.to_nat (if is_null (heads (fr s') order) then 16 - order else order))).
  - left. unfold searching. split_and!; [done|lia|lia|].
    destruct (decide (ota = 7)) as [->|]; [right; auto|left; lia].
  - destruct (is_null _); lia.
  - intros order s' HI.
    assert (shape lim (fr s')) as Hs.
    { destruct HI as [(-> & _)|(_ & Hwf' & _)]; [apply Hwf|apply Hwf']. }
    assert (ota ≤ order) by (destruct HI as [(_ & ? & _)|[? _]]; lia).
    wp_step. apply (wp_get_head (lim := lim)); [done|lia|].
    destruct (heads (fr s') ota) as [|e0 h0] eqn:Hota_h; cbn [is_null].
    2: { wp_step. apply Hfound. destruct HI as [HI|HI].
         - eapply searching_exit; [done|lia| |done]. destruct HI as (-> & _). by rewrite Hota_h.
         - eapply splitting_exit; [lia|by rewrite Hota_h|done]. }
    assert (ota < order < 8) as Hord.
    { destruct HI as [(-> & ? & _ & [|])|(? & _ & _ & (e & h & Hh & _) & _)]; [lia|done|].
      split; [|lia]. assert (order ≠ ota) by (intros ->; congruence). lia. }
    wp_step. apply (wp_get_head (lim := lim)); [done|lia|].
    destruct (heads (fr s') order) as [|e h] eqn:Hh; cbn [is_null].
    + destruct HI as [(-> & _ & Hemp & _)|(_ & _ & _ & (e & h & Hh' & _) & _)]; [|congruence].
      assert (∀ o, ota ≤ o < order + 1 → heads (fr s) o = []) as Hemp'.
      { intros o Ho. destruct (decide (o = ota)) as [->|]; [done|].
        destruct (decide (o = order)) as [->|]; [done|]. apply Hemp. lia. }
      change FRAME_ORDERS with 8. destruct (Z.ltb_spec (order + 1) 8).
      * wp_step. split; [|destruct (is_null _); lia].
        left. unfold searching. split_and!; [done|lia| |lia]. intros o Ho. apply Hemp'. lia.
      * wp_step. apply wp_biggest_free_order; [done|lia|]. intros o Ho Hne Hlow. wp_step.
        destruct (decide (o = -1)) as [->|].
        -- apply Hnone. intros o Ho'. destruct (decide (ota ≤ o)); [apply Hemp'|apply Hlow]; lia.
        -- apply Hfound. destruct (heads (fr s) o) as [|e h] eqn:E; [by destruct Hne; [lia|]|].
           apply (found_here _ e h); [done|lia|done|lia|lia].
    + apply wp_assoc.
      apply (wp_split_down ota order e h s); [lia|lia| |done| | | |done| |].
      * destruct HI as [(-> & _)|(_ & Hwf' & _)]; [apply Hwf|done].
      * destruct HI as [(-> & _)|(_ & _ & _ & (e' & h' & Hh' & Hn) & _)]; [|by rewrite Hh in Hh'; injection Hh' as <- <-].
        apply coalesced_near, Hwf.
      * destruct HI as [(-> & _)|(_ & _ & Hby & _)]; done.
      * destruct HI as [(-> & _)|(_ & _ & _ & _ & Ht & _)]; [|done].
        exists 0. split; [lia|apply took_refl].
      * intros o Ho. destruct HI as [(-> & _ & Hemp & _)|(_ & _ & _ & _ & _ & Hemp)]; [|by apply Hemp].
        destruct (decide (o = ota)) as [->|]; [done|]. apply Hemp. lia.
      * intros s2 Hsp _. wp_step. split; [by right|].
        pose proof Hsp as (_ & _ & _ & (e' & h' & -> & _) & _). cbn [is_null]. lia.
Qed.

(** ** alloc_frames *)

(** What [alloc_frames] hands out: the blocks and nothing else left the allocator. *)
Record allocated s (l : list PageFrameAllocation) s' : Prop := {
  al_wf : allocator_wf lim (fr s');
  al_owned : owned (lim := lim) (fr s') l;
  al_bytes : ∀ x, free_byte (fr s) x ↔ list_byte l x ∨ free_byte (fr s') x;
  al_took : ∃ k, 0 ≤ k ≤ 7 * Z.of_nat (length l) ∧ took k s s';
}.

Lemma total_size_length l :
  Forall (pfa_ok (lim := lim)) l → 4096 * Z.of_nat (length l) ≤ total_size l.
Proof.
  induction 1 as [|a l Ha Hl IH]; cbn [length]; [done|].
  unfold total_size in *. cbn. pose proof (sz_range (pfa_order a) (proj1 Ha)). lia.
Qed.

Lemma allocated_nil s : allocator_wf lim (fr s) → allocated s [] s.
Proof.
  intros Hwf. split; [done| | |].
  - split; constructor.
  - intros x. unfold list_byte. set_solver.
  - exists 0. split; [cbn; lia|apply took_refl].
Qed.

(** The block found joins what was allocated so far. *)
Lemma allocated_snoc s l s1 ota r s2 e h s3 :
  allocated s l s1 → 0 ≤ ota < 8 → found_block ota s1 r s2 → heads (fr s2) r = e :: h →
  fr s3 = flip r (le_addr e) (with_head r h (fr s2)) → took 0 s2 s3 →
  allocated s (l ++ [{| pfa_ptr := le_ptr e; pfa_addr := wrap 57 (le_addr e); pfa_order := r |}]) s3.
Proof.
  intros [Hwf [Hok Hsep Hap] Hby (k & Hk & Ht)] Hota
    (Hr & Hwf2 & Hby2 & (e' & h' & Hh' & Hn) & (k2 & Hk2 & Ht2) & _) Hh Hs3 Ht3.
  rewrite Hh in Hh'. injection Hh' as <- <-.
  destruct (take_block (lim := lim) (fr s2) r e h Hwf2 ltac:(lia) ltac:(by rewrite Hh))
    as (Hwf3 & Hap3 & Hok3 & Hby3 & _). rewrite <- Hs3 in *.
  pose proof (shape_lim _ _ (wf_shape _ _ Hwf3)) as Hlim.
  rewrite (wrap_small 57) by (destruct Hok3 as (? & ? & _ & ?); pose proof (sz_pos r ltac:(lia)); lia).
  set (b := {| pfa_ptr := le_ptr e; pfa_addr := le_addr e; pfa_order := r |}).
  split.
  - split; [done|]. rewrite Hs3. apply (take_coalesced (fr s2)); [done|lia|by rewrite Hh|done].
  - split.
    + by apply Forall_app; split; [|constructor].
    + apply ForallOrdPairs_snoc; [done|]. rewrite Forall_forall in *. intros a Ha.
      apply separate_of_bytes; [apply (Hok a Ha)|cbn; lia|]. intros x Hx Hxb.
      apply (proj1 (apart_from_bytes (fr s1) _ _ (wf_blocks _ _ (awf_frames _ _ Hwf)) (proj1 (proj1 (Hok a Ha)))) (Hap a Ha) x Hx).
      rewrite <- Hby2, Hby3. by left.
    + apply Forall_app. split; [|by constructor]. rewrite Forall_forall in *. intros a Ha.
      apply (apart_from_bytes (lim := lim)); [apply Hwf3|apply (Hok a Ha)|]. intros x Hx Hf.
      apply (proj1 (apart_from_bytes (fr s1) _ _ (wf_blocks _ _ (awf_frames _ _ Hwf)) (proj1 (proj1 (Hok a Ha)))) (Hap a Ha) x Hx).
      rewrite <- Hby2, Hby3. by right.
  - intros x. rewrite Hby, <- Hby2, Hby3. unfold list_byte. setoid_rewrite elem_of_app.
    setoid_rewrite list_elem_of_singleton. unfold pfa_byte. split.
    + intros [(a & Ha & Hx)|[Hx|Hx]]; [by left; eauto|left; exists b; by auto|by right].
    + intros [(a & [Ha| ->] & Hx)|Hx]; [by left; eauto|by right; left|by right; right].
  - exists (k + k2). rewrite length_app. cbn. split; [lia|].
    eapply took_trans; [done|]. rewrite <- (Z.add_0_r k2). by eapply took_trans.
Qed.

(** All there is to allocate is less than [size]. *)
Definition exhausted s (size : Z) : Prop :=
  ∃ l, Forall (pfa_ok (lim := lim)) l ∧ ForallOrdPairs pfa_separate l ∧
       (∀ x, free_byte (fr s) x ↔ list_byte l x) ∧ total_size l < size.

(** The loop of [alloc_frames]: [front] is allocated and [size] is missing. *)
Definition allocating (total : Z) s (st : Z * list PageFrameAllocation) s' : Prop :=
  allocated s st.2 s' ∧ total_size st.2 + st.1 = total ∧ 0 ≤ st.1 ∧ (4096 | st.1) ∧
  st.1 < 524288 * (Z.of_nat (length (heads (fr s') 7)) + 1).

Lemma no_free_byte s : shape lim (fr s) → no_block s → ∀ x, ¬ free_byte (fr s) x.
Proof.
  intros Hs Hno x (o & a & Hf & _). unfold free_at, addrs in Hf.
  destruct (decide (0 ≤ o < 8)) as [Ho|Ho].
  - rewrite Hno in Hf by done. by apply elem_of_nil in Hf.
  - unfold heads in Hf. destruct (lookupZ (fa_free_lists (fr s)) o) as [fl|] eqn:E.
    + apply lookupZ_Some_range in E. rewrite (shape_orders _ _ Hs) in E. lia.
    + by apply elem_of_nil in Hf.
Qed.

Lemma wp_alloc_step total st s s'
    (Q : Z * list PageFrameAllocation + list PageFrameAllocation → kmem → Prop) :
  allocating total s st s' → total < 2 ^ 64 → 7 * (total / 4096) ≤ stock s →
  7 * (total / 4096) ≤ room s →
  (st.1 = 0 → Q (inr st.2) s') →
  (∀ st' s'', allocating total s st' s'' → st'.1 < st.1 → Q (inl st') s'') →
  (∀ s'', frames_wf lim (fr s'') → coalesced (fr s'') → exhausted s total →
     (∀ x, free_byte (fr s'') x ↔ free_byte (fr s) x) → Q (inr []) s'') →
  wp (alloc_step st) Q s'.
Proof.
  destruct st as [size front]. cbn [fst snd].
  intros (Hal & Htot & Hsize & [m Hm] & H7) Hmax Hst Hroom Hdone Hgo Hfail. cbn [fst snd] in *.
  pose proof Hal as [Hwf Hown Hby (k & Hk & Ht)].
  pose proof (wf_shape _ _ (awf_frames _ _ Hwf)) as Hs.
  unfold alloc_step. destruct (Z.eqb_spec size 0) as [->|Hne]; [wp_step; by apply Hdone|].
  pose proof (total_size_length front (owned_ok _ _ Hown)) as Hlen.
  assert (Z.of_nat (length front) + 1 ≤ total / 4096) as Hcount.
  { apply Z.div_le_lower_bound; lia. }
  wp_step. apply wp_biggest_order; [done|lia|]. intros ota Hota Hfit Hbig.
  assert (ota = 7 → heads (fr s') 7 ≠ []) as Hne7.
  { intros -> E. rewrite E in H7. cbn in H7. change (sz 7) with 524288 in Hfit. lia. }
  wp_step. apply wp_find_block; [done|done|done|unfold took in Ht; lia| |].
  - intros r s2 Hf. pose proof Hf as (Hr & Hwf2 & Hby2 & (e & h & Hh & _) & _ & Hr7).
    replace (r <? 0) with false by lia. pose proof (wf_shape _ _ Hwf2) as Hs2.
    wp_step. apply (wp_remove_head (lim := lim) r e h); [done|lia|done|].
    pose proof (shape_with_head Hs2 r h ltac:(lia)) as Hs3.
    assert (block_ok lim r (le_addr e)) as Hok.
    { apply (blocks_ok _ _ (wf_blocks _ _ Hwf2)). unfold free_at, addrs. rewrite Hh.
      apply list_elem_of_here. }
    wp_step. apply (wp_toggle (lim := lim)); [done|done|].
    wp_step. apply (wp_order_size (lim := lim)); [by apply shape_flip; [|lia]|lia|].
    wp_step. pose proof (sz_mono r ota ltac:(lia)). pose proof (sz_pos r ltac:(lia)).
    rewrite (wrap_small 64) by lia. apply Hgo; [|cbn; lia].
    split; [|split_and!]; cbn [fst snd].
    + eapply (allocated_snoc s front s' ota r s2 e h); try done.
      do 2 apply took_frames. apply took_refl.
    + rewrite total_size_app. unfold total_size at 2. cbn. lia.
    + lia.
    + apply Z.divide_sub_r; [by exists m|]. exists (2 ^ r). unfold sz. lia.
    + cbn [km_frames set_frames]. rewrite (heads_flip Hs3), (heads_with_head Hs2) by lia.
      destruct (decide (ota = 7)) as [->|].
      * destruct (Hr7 eq_refl) as [-> E7]. rewrite decide_True by done. rewrite <- E7, Hh in H7.
        cbn [length] in H7. change (sz 7) with 524288 in *. lia.
      * destruct Hbig as [|Hbig]; [done|].
        pose proof (sz_mono (ota + 1) 7 ltac:(lia)). change (sz 7) with 524288 in *. lia.
  - intros Hno. cbn [Z.ltb]. change (-1 <? 0) with true. cbn iota.
    wp_step. apply (wp_free_frames (lim := lim)); [apply Hwf|done|unfold took in Ht; lia|].
    intros s2 k2 Hwf2 Hby2 _ _ Hco2. wp_step. apply Hfail; [done|by apply Hco2, Hwf| |].
    + exists front. split_and!; [apply Hown|apply Hown| |lia].
      intros x. rewrite Hby. pose proof (no_free_byte s' Hs Hno x). tauto.
    + intros x. by rewrite Hby2, Hby.
Qed.

Lemma wp_alloc_frames s pages :
  allocator_wf lim (fr s) → 0 < pages < 2 ^ 52 →
  pages < 128 * (Z.of_nat (length (heads (fr s) 7)) + 1) →
  7 * pages ≤ stock s → 7 * pages ≤ room s →
  wp (alloc_frames pages) (λ l s',
    (l ≠ [] ∧ total_size l = pages * PAGE_SIZE ∧ allocated s l s') ∨
    (l = [] ∧ exhausted s (pages * PAGE_SIZE) ∧ allocator_wf lim (fr s') ∧
     ∀ x, free_byte (fr s') x ↔ free_byte (fr s) x)) s.
Proof.
  intros Hwf Hp H7 Hst Hroom. unfold alloc_frames. change PAGE_SIZE with 4096.
  rewrite (wrap_small 64) by lia.
  apply (wp_loop (allocating (pages * 4096) s) (λ st _, Z.to_nat (st.1 / 4096))).
  - split; [by apply allocated_nil|]. cbn [fst snd]. unfold total_size. cbn [foldr].
    split_and!; [lia|lia|by exists pages|lia].
  - cbn. rewrite Z.div_mul by lia. lia.
  - intros st s' HI. pose proof HI as (Hal & Htot & Hpos & [m Hm] & _).
    pose proof (Z.div_mul pages 4096 ltac:(lia)) as Ep.
    apply (wp_alloc_step (pages * 4096) st s); rewrite ?Ep; [done|lia|done|done| | |].
    + intros E. left. rewrite E in Htot. split_and!; [|lia|done].
      intros E'. rewrite E' in Htot. unfold total_size in Htot. cbn in Htot. lia.
    + intros st' s'' HI' Hlt. split; [done|].
      destruct HI' as (_ & _ & Hpos' & [m' Hm'] & _).
      rewrite Hm, Hm', !Z.div_mul by lia. lia.
    + intros s'' Hwf' Hco Hex Hby. right. by split_and!.
Qed.
(** C1: [alloc_frames] never faults while the pool can serve it and order-7 blocks last:
    it hands out valid, disjoint blocks of exactly the size asked for, which leave the
    free memory; or it fails because what is free is less than that, and then the
    allocator is as full as before. The invariant, coalescing included, is kept. *)
Theorem alloc_frames_spec s pages :
  allocator_wf lim (fr s) → 0 < pages < 2 ^ 52 →
  pages < 128 * (Z.of_nat (length (heads (fr s) 7)) + 1) →
  7 * pages ≤ stock s → 7 * pages ≤ room s →
  wp (alloc_frames pages) (λ l s',
    (l ≠ [] ∧ total_size l = pages * PAGE_SIZE ∧ allocated s l s') ∨
    (l = [] ∧ exhausted s (pages * PAGE_SIZE) ∧ allocator_wf lim (fr s') ∧
     ∀ x, free_byte (fr s') x ↔ free_byte (fr s) x)) s.
Proof. apply wp_alloc_frames. Qed.

(** What [alloc_frames] hands out can be given back: [free_frames] then never faults
    (in particular a buddy whose bit says it is free is always found in its list) and
    the allocator is as it was before the allocation, block for block. *)
Theorem alloc_free_roundtrip s pages :
  allocator_wf lim (fr s) → 0 < pages < 2 ^ 52 →
  pages < 128 * (Z.of_nat (length (heads (fr s) 7)) + 1) →
  7 * pages ≤ stock s → 7 * pages ≤ room s →
  wp (l ← alloc_frames pages; free_frames l) (λ _ s',
    allocator_wf lim (fr s') ∧ fr s' ≡ fr s) s.
Proof.
  intros Hwf Hp H7 Hst Hroom. wp_step. eapply wp_mono; [by apply wp_alloc_frames|].
  intros l s1 [(_ & Hsize & [[Hwf1 Hc1] Hown Hby (k & Hk & Ht)])|(-> & _ & Hwf1 & Hby)].
  - pose proof (total_size_length l (owned_ok _ _ Hown)). unfold PAGE_SIZE in *.
    apply (wp_free_frames (lim := lim)); [done|done|unfold took in Ht; lia|].
    intros s2 k2 Hwf2 Hby2 _ _ Hc2. split; [split; auto|].
    apply (coalesced_canonical lim); [done|by apply Hc2|apply Hwf|apply Hwf|].
    intros x. by rewrite Hby2, Hby.
  - cbn [free_frames]. wp_step. split; [done|].
    by apply (coalesced_canonical lim); [apply Hwf1|apply Hwf1|apply Hwf|apply Hwf|].
Qed.

(** C14: [free_frames] gives back every block of a list the caller owns: the free memory
    grows by exactly those blocks, buddies are merged as far up as they go, and no
    assertion fails. *)
Theorem free_frames_spec s l :
  allocator_wf lim (fr s) → owned (lim := lim) (fr s) l → 7 * Z.of_nat (length l) ≤ room s →
  wp (free_frames l) (λ _ s',
    allocator_wf lim (fr s') ∧
    ∀ x, free_byte (fr s') x ↔ list_byte l x ∨ free_byte (fr s) x) s.
Proof.
  intros [Hwf Hc] Hown Hroom. apply (wp_free_frames (lim := lim)); [done..|].
  intros s' k Hwf' Hby _ _ Hc'. split; [split; auto|done].
Qed.

(** A request of at least 128 pages made when no block of the largest order is free
    makes [alloc_frames] read [g_free_lists] past its end, instead of falling back to
    smaller blocks. *)
Theorem alloc_frames_out_of_bounds s pages :
  shape lim (fr s) → 128 ≤ pages < 2 ^ 52 → heads (fr s) 7 = [] →
  alloc_frames pages s = Fault OutOfBounds.
Proof.
  intros Hs Hp H7.
  assert (biggest_order (pages * 4096) s = Ok (7, s)) as E1.
  { destruct (wp_biggest_order (pages * 4096) (λ o s', o = 7 ∧ s' = s) s) as (o & s' & E & -> & ->); try done; [lia|].
    intros o Ho _ [->|Hlt]; [done|]. pose proof (sz_mono (o + 1) 7). change (sz 7) with 524288 in *.
    destruct (decide (o = 7)); [done|lia]. }
  assert (find_block 7 s = Fault OutOfBounds) as E2.
  { assert (get_head 7 s = Ok ([], s)) as E7.
    { destruct (wp_get_head (lim := lim) 7 (λ h s', h = [] ∧ s' = s) s) as (h & s' & E & -> & ->); done. }
    assert (lookupZ (fa_free_lists (fr s)) 8 = None) as E8.
    { apply eq_None_not_Some. rewrite lookupZ_is_Some, (shape_orders _ _ Hs). lia. }
    assert (get_head (7 + 1) s = Fault OutOfBounds) as E9.
    { unfold get_head, get_list, mbind, M_bind, gets. cbn [Z.add]. change (7 + 1) with 8.
      by rewrite E8. }
    unfold find_block. cbn [loop]. unfold mbind, M_bind. rewrite E7. cbn [is_null]. by rewrite E9. }
  unfold alloc_frames. change PAGE_SIZE with 4096. rewrite (wrap_small 64) by lia.
  cbn [loop]. unfold mbind at 1, M_bind at 1. unfold alloc_step. replace (pages * 4096 =? 0) with false by lia.
  unfold mbind at 1, M_bind at 1. rewrite E1. unfold mbind at 1, M_bind at 1. by rewrite E2.
Qed.
End alloc.

End FrameAlloc.
