(* ===== verification/FrameRange.v ===== *)
(** Taking chosen memory out of the buddy allocator: [remove_range], and the contiguous
    blocks of [alloc_frames_contiguos] and [free_frames_contiguos]. *)
From S2P Require Import Prelude Util MemState FrameAllocator FrameInvariant FrameProofs FrameAlloc.

Module FrameRange.
Import Util Mem FrameAllocator FrameInvariant FrameProofs FrameAlloc.

Section range.
Context `{!MemoryEntries, !MemoryEntriesSpec} {lim : Z}.
Implicit Types (s : kmem).

Lemma wp_range_order addr size (Q : Z → kmem → Prop) s :
  shape lim (fr s) → 4096 ≤ size → (4096 | addr) →
  (∀ o, 0 ≤ o < 8 → (sz o | addr) → sz o ≤ size → Q o s) →
  wp (range_order addr size) Q s.
Proof.
  intros Hs Hsize Ha HQ. unfold range_order. wp_step.
  apply (wp_loop (λ o s', s' = s ∧ 1 ≤ o ≤ 8 ∧ (sz (o - 1) | addr) ∧ sz (o - 1) ≤ size)
                 (λ o _, Z.to_nat (8 - o))); [by split_and!|cbn; lia|].
  intros o s' (-> & Ho & Hd & Hle). change FRAME_ORDERS with 8. destruct (Z.ltb_spec o 8).
  - wp_step. apply (wp_order_size (lim := lim)); [done|lia|]. wp_step.
    pose proof (sz_pos o ltac:(lia)).
    destruct (Z.eqb_spec (addr mod sz o) 0) as [E|], (Z.leb_spec (sz o) size); cbn [negb orb].
    + split; [|lia]. replace (o + 1 - 1) with o by lia.
      split_and!; [done|lia|lia|by apply Z.mod_divide; [lia|]|done].
    + wp_step. apply HQ; done || lia.
    + wp_step. apply HQ; done || lia.
    + wp_step. apply HQ; done || lia.
  - wp_step. wp_step. apply HQ; done || lia.
Qed.

(** The search of [remove_block] from the largest order down to [ota]: either nothing
    that contains [addr] has been met, or the block that does is at [order]. *)
Definition above_misses s (addr order : Z) : Prop :=
  ∀ o a, order < o → free_at (fr s) o a → ¬ in_block o a addr.

Definition removing (addr ota : Z) s (order : Z) s' : Prop :=
  ota ≤ order < 8 ∧
  ((s' = s ∧ above_misses s addr order) ∨
   (frames_wf lim (fr s') ∧ (∀ x, free_byte (fr s') x ↔ free_byte (fr s) x) ∧
    near_coalesced (fr s') order addr ∧
    (∃ a, free_at (fr s') order a ∧ in_block order a addr) ∧
    ∃ k, 0 ≤ k ≤ 7 - order ∧ took k s s')).

(** The walk of [remove_block] along one list. *)
Lemma find_in_list fs o addr :
  frames_wf lim fs → 0 ≤ o < 8 →
  match find_split (λ e, range_contains addr (le_addr e) (sz o)) (heads fs o) with
  | None => ∀ a, free_at fs o a → ¬ in_block o a addr
  | Some (before, e, after) =>
      heads fs o = before ++ e :: after ∧ in_block o (le_addr e) addr ∧ free_at fs o (le_addr e)
  end.
Proof.
  intros Hwf Ho.
  assert (∀ e, e ∈ heads fs o →
    range_contains addr (le_addr e) (sz o) = true ↔ in_block o (le_addr e) addr) as Hrc.
  { intros e He. assert (block_ok lim o (le_addr e)) as (_ & ? & _ & ?).
    { apply (blocks_ok _ _ (wf_blocks _ _ Hwf)). unfold free_at, addrs.
      apply list_elem_of_fmap. by exists e. }
    pose proof (sz_pos o ltac:(lia)). pose proof (shape_lim _ _ (wf_shape _ _ Hwf)).
    rewrite range_contains_iff by lia. done. }
  destruct (find_split _ _) as [[[before e] after]|] eqn:E.
  - apply find_split_Some in E as (E & He & _). split; [done|].
    assert (e ∈ heads fs o) as Hin by (rewrite E; apply elem_of_app; right; apply list_elem_of_here).
    split; [by apply Hrc|]. unfold free_at, addrs. apply list_elem_of_fmap. by exists e.
  - apply find_split_None in E. rewrite Forall_forall in E.
    intros a Hf Hx. apply list_elem_of_fmap in Hf as (e & -> & He).
    apply Hrc in Hx; [|done]. by rewrite (E e He) in Hx.
Qed.

(** Splitting the block that holds [addr] anywhere in its list. *)
Lemma wp_split_at addr order before e after s (Q : unit → kmem → Prop) :
  1 ≤ order < 8 → frames_wf lim (fr s) → heads (fr s) order = before ++ e :: after →
  in_block order (le_addr e) addr → near_coalesced (fr s) order addr → 0 < stock s →
  (∀ s', frames_wf lim (fr s') → (∀ x, free_byte (fr s') x ↔ free_byte (fr s) x) →
     near_coalesced (fr s') (order - 1) addr →
     (∃ a, free_at (fr s') (order - 1) a ∧ in_block (order - 1) a addr) →
     took 1 s s' → Q tt s') →
  wp (split_entry e order) Q (set_frames (with_head order (before ++ after) (fr s)) s).
Proof.
  intros Ho Hwf Hh Hx Hn Hst HQ.
  assert (heads (fr s) order ≡ₚ e :: before ++ after) as Hp.
  { rewrite Hh. by rewrite Permutation_middle. }
  assert (block_ok lim order (le_addr e)) as (_ & _ & Hd & _).
  { apply (blocks_ok _ _ (wf_blocks _ _ Hwf)). unfold free_at, addrs. rewrite Hp. apply list_elem_of_here. }
  assert (near_coalesced (fr s) order (le_addr e)) as Hn'.
  { unfold near_coalesced. rewrite <- (pair_index_block order _ addr); [done|lia|done..]. }
  eapply (wp_split_entry (lim := lim) (fr s) (before ++ after));
    [done|done|done|done|by rewrite stock_frames|].
  intros s' r Hwf' Hh' Hr Hother Hby Ht.
  assert (took 1 s s') as Ht' by (unfold took in *; by rewrite stock_frames, room_frames in Ht).
  apply HQ; [done..| | |done].
  - unfold near_coalesced. rewrite (pair_index_halves order _ _ ltac:(lia) Hd Hx).
    by apply (split_near_coalesced (lim := lim) (fr s) _ _ _ r (before ++ after)).
  - unfold free_at, addrs. rewrite Hh', !fmap_cons. setoid_rewrite elem_of_cons.
    setoid_rewrite elem_of_cons. unfold in_block in *. rewrite (sz_pred order) in Hx by lia.
    destruct (decide (addr < le_addr r)).
    + exists (le_addr e). split; [by left|lia].
    + exists (le_addr r). split; [by right; left|lia].
Qed.

(** The block at [addr] is taken out when it is free as a whole; otherwise nothing
    changes. *)
Lemma wp_remove_block addr ota (Q : bool → kmem → Prop) s :
  allocator_wf lim (fr s) → 0 ≤ ota < 8 → (sz ota | addr) → 7 ≤ stock s → 1 ≤ room s →
  (∀ s' k, allocator_wf lim (fr s') →
     (∀ x, free_byte (fr s) x ↔ in_block ota addr x ∨ free_byte (fr s') x) →
     apart_from (fr s') ota addr → block_ok lim ota addr →
     -1 ≤ k ≤ 6 → took k s s' → Q true s') →
  (¬ (∀ x, in_block ota addr x → free_byte (fr s) x) → Q false s) →
  wp (remove_block addr ota) Q s.
Proof.
  intros [Hwf Hc] Hota Hd Hst Hroom Hok Hno. unfold remove_block.
  apply (wp_loop (removing addr ota s) (λ o _, Z.to_nat o)); [|by apply Nat.ltb_lt|].
  { split; [unfold FRAME_ORDERS; lia|]. left. split; [done|]. intros o a Ho Hf.
    pose proof (proj1 (blocks_ok _ _ (wf_blocks _ _ Hwf) _ _ Hf)). unfold FRAME_ORDERS in Ho. lia. }
  intros order s' [Ho HI]. replace (0 <=? order) with true by lia.
  assert (frames_wf lim (fr s') ∧ near_coalesced (fr s') order addr ∧
          (∀ x, free_byte (fr s') x ↔ free_byte (fr s) x) ∧
          ∃ k, 0 ≤ k ≤ 7 - order ∧ took k s s') as (Hwf' & Hn & Hby & k & Hk & Ht).
  { destruct HI as [[-> _]|(? & ? & ? & _ & ?)]; [|done]. split_and!; [done|by apply coalesced_near|done|].
    exists 0. split; [lia|apply took_refl]. }
  pose proof (wf_shape _ _ Hwf') as Hs.
  wp_step. apply (wp_order_size (lim := lim)); [done|lia|].
  wp_step. apply (wp_get_head (lim := lim)); [done|lia|].
  pose proof (find_in_list (fr s') order addr Hwf' ltac:(lia)) as Hfind.
  destruct (find_split _ _) as [[[before e] after]|].
  - destruct Hfind as (Hh & Hx & Hf).
    assert (heads (fr s') order ≡ₚ e :: before ++ after) as Hp by (rewrite Hh; by rewrite Permutation_middle).
    wp_step. apply (wp_set_head (lim := lim)); [done|lia|].
    destruct (Z.eqb_spec order ota) as [->|Hne].
    + pose proof (blocks_ok _ _ (wf_blocks _ _ Hwf') _ _ Hf) as Hblk. pose proof Hblk as (_ & _ & Hda & _).
      assert (le_addr e = addr) as Ea.
      { pose proof (in_block_start ota addr ltac:(lia)).
        destruct (nested ota addr ota (le_addr e) addr); [lia|done..|lia]. }
      destruct (take_block (lim := lim) (fr s') ota e _ Hwf' Hota Hp) as (Hwf2 & Hap & _ & Hby2 & _).
      wp_step. apply (wp_toggle (lim := lim)); [by apply shape_with_head|done|].
      wp_step. apply wp_free_entry.
      { rewrite !room_frames. unfold took in Ht. lia. }
      intros s2 Hfr Ht2. cbn in Hfr. wp_step. rewrite <- Hfr, Ea in *.
      apply (Hok s2 (k + -1)); [|by intros x; rewrite <- Hby|done|done|lia|].
      * split; [done|]. rewrite Hfr, <- Ea. apply (take_coalesced (lim := lim) (fr s')); [done..|]. by rewrite Ea.
      * unfold took in *. rewrite !stock_frames, !room_frames in Ht2. cbn in Ht2.
        destruct Ht as (? & ? & Em), Ht2 as (? & ? & Em2). split_and!; [lia|lia|congruence].
    + wp_step. wp_step; [lia|]. wp_step.
      apply (wp_split_at addr order before e after s'); [lia|done|done|done|done|unfold took in Ht; lia|].
      intros s2 Hwf2 Hby2 Hn2 Hin2 Ht2. wp_step. split; [|lia]. split; [lia|]. right.
      split_and!; [done|by intros x; rewrite Hby2|done|done|].
      exists (k + 1). split; [lia|]. by eapply took_trans.
  - destruct HI as [[-> Habove]|(_ & _ & _ & (a & Hf & Hx) & _)]; [|by destruct (Hfind a)].
    assert (above_misses s addr (order - 1)) as Habove'.
    { intros o a Ho' Hf. destruct (decide (o = order)) as [->|]; [by apply Hfind|apply Habove; [lia|done]]. }
    destruct (Z.eqb_spec order ota) as [->|Hne]; wp_step.
    + apply Hno. intros Hall.
      destruct (coalesced_maximalZ lim (fr s) ota addr Hwf Hc Hota Hd Hall) as (o' & a' & ? & ? & ?).
      by apply (Habove' o' a'); [lia|..].
    + split; [|lia]. split; [lia|]. by left.
Qed.

Definition in_range (addr pages x : Z) : Prop := addr ≤ x < addr + pages * PAGE_SIZE.

(** The loop of [remove_range], with [size'] bytes left from [addr'] on. *)
Definition removing_range (addr pages : Z) s (st : Z * Z) s' : Prop :=
  let '(addr', size') := st in
  allocator_wf lim (fr s') ∧ addr' + size' = addr + pages * 4096 ∧ addr ≤ addr' ∧ 0 ≤ size' ∧
  (4096 | addr') ∧ (4096 | size') ∧
  (∀ x, free_byte (fr s) x ↔ addr ≤ x < addr' ∨ free_byte (fr s') x) ∧
  (∀ x, free_byte (fr s') x → ¬ addr ≤ x < addr') ∧
  ∃ k, took k s s' ∧ - (addr' - addr) ≤ 4096 * k ≤ 6 * (addr' - addr).

Lemma wp_remove_range addr pages s :
  allocator_wf lim (fr s) → 0 ≤ pages → 0 ≤ addr → (4096 | addr) →
  addr + pages * PAGE_SIZE < 2 ^ 64 → 7 * pages ≤ stock s → pages ≤ room s →
  wp (remove_range addr pages) (λ b s',
    allocator_wf lim (fr s') ∧
    (b = true ∧ (∀ x, free_byte (fr s') x ↔ free_byte (fr s) x ∧ ¬ in_range addr pages x) ∧
      (∀ x, in_range addr pages x → free_byte (fr s) x) ∧
      (∃ k, took k s s' ∧ - pages ≤ k ≤ 6 * pages) ∨
     b = false ∧ ¬ (∀ x, in_range addr pages x → free_byte (fr s) x) ∧
      (∀ x, free_byte (fr s') x → free_byte (fr s) x) ∧
      (∀ x, ¬ in_range addr pages x → free_byte (fr s) x → free_byte (fr s') x))) s.
Proof.
  intros Hwf Hp Ha Hda Hmax Hst Hroom. unfold remove_range, in_range.
  change PAGE_SIZE with 4096 in *. rewrite (wrap_small 64) by lia.
  apply (wp_loop (removing_range addr pages s) (λ st _, Z.to_nat (st.2 / 4096))).
  - unfold removing_range. split_and!; try done; try lia; [by exists pages|naive_solver lia|].
    exists 0. split; [apply took_refl|lia].
  - cbn [snd]. rewrite Z.div_mul by lia. lia.
  - intros [addr' size'] s' (Hwf' & Hend & Hle & Hsz & Hda' & Hds & Hby & Hout & k & Ht & Hk).
    destruct (Z.eqb_spec size' 0) as [->|Hne].
    { wp_step. split; [done|]. left. assert (addr' = addr + pages * 4096) as -> by lia.
      split_and!; [done|naive_solver|naive_solver|]. exists k. split; [done|lia]. }
    destruct Hds as [m Hm]. destruct Hda' as [n Hn].
    wp_step. apply wp_range_order; [apply Hwf'|lia|by exists n|]. intros o Ho Hdo Hfit.
    pose proof (sz_range o Ho). assert (sz o = 2 ^ o * 4096) as Eo by (unfold sz; lia).
    wp_step. apply wp_remove_block; [done..|unfold took in Ht; lia|unfold took in Ht; lia| |].
    + intros s2 k2 Hwf2 Hby2 Hap2 _ Hk2 Ht2. wp_step.
      apply (wp_order_size (lim := lim)); [apply Hwf2|done|]. wp_step.
      rewrite !wrap_small by lia. split; [|cbn [snd]; rewrite Hm, Eo, <- Z.mul_sub_distr_r, !Z.div_mul by lia; lia].
      pose proof (proj1 (apart_from_bytes _ _ _ (wf_blocks _ _ (awf_frames _ _ Hwf2)) (proj1 Ho)) Hap2) as Hout2.
      unfold in_block in *. unfold removing_range. split_and!; try done; try lia.
      * exists (n + 2 ^ o). lia.
      * exists (m - 2 ^ o). lia.
      * intros x. rewrite Hby, Hby2. split; [intros [?|[?|?]]; [left; lia..|by right]|].
        intros [?|?]; [|by right; right]. destruct (decide (x < addr')); [left|right; left]; lia.
      * intros x Hx Hin. destruct (decide (x < addr')).
        -- apply (Hout x); [|lia]. apply Hby2. by right.
        -- apply (Hout2 x); [lia|done].
      * exists (k + k2). split; [by eapply took_trans|lia].
    + intros Hno. wp_step. split; [done|]. right. split_and!; [done| | |].
      * intros Hall. apply Hno. intros x Hx. unfold in_block in Hx.
        destruct (proj1 (Hby x) (Hall x ltac:(lia))) as [|]; [lia|done].
      * intros x Hx. apply Hby. by right.
      * intros x Hx Hf. destruct (proj1 (Hby x) Hf) as [|]; [|done]. lia.
Qed.

(** [remove_range] on a coalesced allocator succeeds exactly when the whole range is
    free, and then takes exactly the range out; when it fails, some of the range was not
    free and nothing outside the range has changed. It never faults while the pool can
    serve its splits. *)
Theorem remove_range_spec addr pages s :
  allocator_wf lim (fr s) → 0 ≤ pages → 0 ≤ addr → (4096 | addr) →
  addr + pages * PAGE_SIZE < 2 ^ 64 → 7 * pages ≤ stock s → pages ≤ room s →
  wp (remove_range addr pages) (λ b s',
    allocator_wf lim (fr s') ∧
    (b = true ∧ (∀ x, free_byte (fr s') x ↔ free_byte (fr s) x ∧ ¬ in_range addr pages x) ∧
      (∀ x, in_range addr pages x → free_byte (fr s) x) ∧
      (∃ k, took k s s' ∧ - pages ≤ k ≤ 6 * pages) ∨
     b = false ∧ ¬ (∀ x, in_range addr pages x → free_byte (fr s) x) ∧
      (∀ x, free_byte (fr s') x → free_byte (fr s) x) ∧
      (∀ x, ¬ in_range addr pages x → free_byte (fr s) x → free_byte (fr s') x))) s.
Proof. apply wp_remove_range. Qed.
End range.

End FrameRange.
