(* ===== verification/FrameContiguous.v ===== *)
(** Contiguous blocks: [get_min_size_frame_order], [alloc_frames_contiguos],
    [free_frames_contiguos] and their round trip. *)
From S2P Require Import Prelude Util MemState FrameAllocator FrameInvariant FrameProofs FrameAlloc FrameRange.

Module FrameContiguous.
Import Util Mem FrameAllocator FrameInvariant FrameProofs FrameAlloc.

(** The order [get_min_size_frame_order] returns. *)
Definition min_order (pages : Z) : Z :=
  if pages =? 1 then 0 else MIN (Z.log2 (pages - 1) + 1) 8.

Lemma get_min_size_frame_order_eq pages s :
  1 ≤ pages < 2 ^ 64 → get_min_size_frame_order pages s = Ok (min_order pages, s).
Proof.
  intros Hp. unfold get_min_size_frame_order, min_order.
  replace (pages =? 0) with false by lia. change (MIN_FRAME_ORDER_SIZE =? PAGE_SIZE) with true.
  unfold mbind, M_bind, mret, M_ret, kernel_assert. cbn -[Z.sub Z.eqb clzll Z.log2 MIN].
  destruct (Z.eqb_spec pages 1); [done|].
  unfold clzll. replace (pages - 1 =? 0) with false by lia.
  cbn -[Z.sub Z.log2 MIN]. unfold FRAME_ORDERS. repeat f_equal. lia.
Qed.

(** [get_min_size_frame_order] is the least order whose blocks hold [pages] pages,
    or FRAME_ORDERS when no block does. *)
Theorem get_min_size_frame_order_spec pages s :
  1 ≤ pages < 2 ^ 64 →
  ∃ o, get_min_size_frame_order pages s = Ok (o, s) ∧ 0 ≤ o ≤ FRAME_ORDERS ∧
       (o < FRAME_ORDERS → pages * PAGE_SIZE ≤ sz o) ∧
       ∀ o', 0 ≤ o' < o → sz o' < pages * PAGE_SIZE.
Proof.
  intros Hp. exists (min_order pages). split; [by apply get_min_size_frame_order_eq|].
  unfold min_order, MIN, FRAME_ORDERS, sz, PAGE_SIZE. destruct (Z.eqb_spec pages 1) as [->|].
  { split_and!; [lia..|]. intros. lia. }
  pose proof (Z.log2_nonneg (pages - 1)). pose proof (Z.log2_spec (pages - 1) ltac:(lia)) as [H1 H2].
  rewrite <- Z.add_1_r in H2. destruct (Z.ltb_spec (Z.log2 (pages - 1) + 1) 8).
  - split_and!; [lia..|]. intros o' Ho'.
    pose proof (Z.pow_le_mono_r 2 o' (Z.log2 (pages - 1)) ltac:(lia) ltac:(lia)). lia.
  - split_and!; [lia..|]. intros o' Ho'.
    pose proof (Z.pow_le_mono_r 2 o' (Z.log2 (pages - 1)) ltac:(lia) ltac:(lia)). lia.
Qed.

Lemma get_min_size_frame_order_spec_witness s :
  get_min_size_frame_order 5 s = Ok (3, s) ∧
  ∃ o, get_min_size_frame_order 5 s = Ok (o, s) ∧ 0 ≤ o ≤ FRAME_ORDERS ∧
       (o < FRAME_ORDERS → 5 * PAGE_SIZE ≤ sz o) ∧
       ∀ o', 0 ≤ o' < o → sz o' < 5 * PAGE_SIZE.
Proof. split; [reflexivity|]. by apply (get_min_size_frame_order_spec 5 s). Defined.

Lemma min_order_fits pages : 1 ≤ pages ≤ 128 → 0 ≤ min_order pages < 8 ∧ pages * 4096 ≤ sz (min_order pages).
Proof.
  intros Hp. unfold min_order, MIN, sz. destruct (Z.eqb_spec pages 1) as [->|]; [lia|].
  pose proof (Z.log2_nonneg (pages - 1)). pose proof (Z.log2_spec (pages - 1) ltac:(lia)) as [H1 H2].
  rewrite <- Z.add_1_r in H2. pose proof (Z.log2_le_mono (pages - 1) 127 ltac:(lia)).
  change (Z.log2 127) with 6 in *. destruct (Z.ltb_spec (Z.log2 (pages - 1) + 1) 8); lia.
Qed.

Section contiguous.
Context `{!MemoryEntries, !MemoryEntriesSpec} {lim : Z}.
Implicit Types (s : kmem).

(** A list the search reaches has a block: those of the order asked for and of the next
    two. *)
Definition within_reach s (o : Z) : Prop :=
  ∃ o', o ≤ o' ≤ o + 2 ∧ o' < 8 ∧ heads (fr s) o' ≠ [].

Lemma wp_contiguos_loop ota (Q : bool → kmem → Prop) s :
  allocator_wf lim (fr s) → 0 ≤ ota < 8 → within_reach s ota → 7 ≤ stock s →
  (∀ s', found_block (lim := lim) ota s ota s' → (ota = 0 → small_pages (fr s') = small_pages (fr s)) → Q true s') →
  wp (loop 20 (contiguos_step ota) (ota + 1)) Q s.
Proof.
  intros Hwf Ho (o' & Ho' & Ho8 & Hreach) Hst HQ. pose proof (wf_shape _ _ (awf_frames _ _ Hwf)) as Hs.
(* once something has been split the loop goes straight down *)
  set (down := λ order s', splitting (lim := lim) ota s order s' ∧ (ota = 0 → order ≤ 1 ∧ small_pages (fr s') = small_pages (fr s))).
  assert (∀ order s', down order s' → wp (loop 19 (contiguos_step ota) order) Q s') as Hdown.
  { intros order s' Hd. apply (wp_loop down (λ o _, Z.to_nat o)); [done| |].
    { destruct Hd as [[? _] _]. lia. }
    clear order s' Hd. intros order s' [Hsp Hsm]. pose proof Hsp as (Hr & Hwf' & Hby & (e & h & Hh & Hn) & Ht & Hemp).
    pose proof (wf_shape _ _ Hwf') as Hs'. unfold contiguos_step.
    wp_step. apply (wp_get_head (lim := lim)); [done|lia|].
    destruct (heads (fr s') ota) as [|e0 h0] eqn:Hota; cbn [is_null].
    - wp_step. apply (wp_get_head (lim := lim)); [done|lia|]. rewrite Hh. cbn [is_null andb].
      assert (ota ≠ order) by congruence.
      apply wp_assoc. apply (wp_split_down (lim := lim) ota order e h s); try done; [lia|lia|].
      intros s2 Hsp2 Hsm2. wp_step. split; [|lia]. split; [done|]. intros E0. destruct (Hsm E0) as [? <-]. split; [lia|apply Hsm2; lia].
    - wp_step. apply HQ; [eapply splitting_exit; [lia|by rewrite Hota|done]|]. intros E0. by apply Hsm. }
  apply wp_loop_unroll. unfold contiguos_step at 1.
  wp_step. apply (wp_get_head (lim := lim)); [done|lia|].
  destruct (heads (fr s) ota) as [|e0 h0] eqn:Hota; cbn [is_null].
  2: { wp_step. apply HQ; [|done]. by apply (found_here _ e0 h0); [|lia| | |]. }
  assert (ota < o') by (assert (o' ≠ ota) by congruence; lia).
  assert (∃ k, 0 ≤ k ≤ 6 - ota ∧ took k s s) as Ht0 by (exists 0; split; [lia|apply took_refl]).
  wp_step. apply (wp_get_head (lim := lim)); [done|lia|].
  destruct (heads (fr s) (ota + 1)) as [|e1 h1] eqn:Hota1; cbn [is_null andb].
  - assert (o' = ota + 2) as -> by (assert (o' ≠ ota + 1) by congruence; lia).
    replace (ota + 1 + 1) with (ota + 2) by lia. replace (FRAME_ORDERS <=? ota + 2) with false by (unfold FRAME_ORDERS; lia).
    destruct (heads (fr s) (ota + 2)) as [|e h] eqn:Hh; [done|].
    apply wp_assoc. apply (wp_split_down (lim := lim) ota (ota + 2) e h s);
      [lia|lia|apply Hwf|done|by apply coalesced_near, Hwf|done| |done| |].
    + exists 0. split; [lia|apply took_refl].
    + intros o Hlt. assert (o = ota ∨ o = ota + 1) as [-> | ->] by lia; done.
    + intros s2 Hsp Hsm. wp_step. replace (ota + 2 - 1) with (ota + 1) in * by lia. apply Hdown. split; [done|]. intros E0. split; [lia|apply Hsm; lia].
  - apply wp_assoc. apply (wp_split_down (lim := lim) ota (ota + 1) e1 h1 s);
      [lia|lia|apply Hwf|done|by apply coalesced_near, Hwf|done| |done| |].
    + exists 0. split; [lia|apply took_refl].
    + intros o Hlt. assert (o = ota) as -> by lia. done.
    + intros s2 Hsp Hsm. wp_step. apply Hdown. split; [done|]. intros E0. split; [lia|apply Hsm; lia].
Qed.

(** A contiguous block left the allocator. *)
Record block_taken s (o a : Z) s' : Prop := {
  bt_wf : allocator_wf lim (fr s');
  bt_ok : block_ok lim o a;
  bt_apart : apart_from (fr s') o a;
  bt_bytes : ∀ x, free_byte (fr s) x ↔ in_block o a x ∨ free_byte (fr s') x;
  bt_took : ∃ k, -1 ≤ k ≤ 6 ∧ took k s s';
  bt_small : o = 0 → small_pages (fr s') = small_pages (fr s) - 1;
}.

(** A page is within reach when the blocks of at most four pages are not all gone. *)
Lemma small_within_reach s : 0 < small_pages (fr s) → within_reach s 0.
Proof.
  unfold small_pages. intros Hp. destruct (heads (fr s) 0) eqn:E0; [|exists 0; by rewrite E0].
  destruct (heads (fr s) 1) eqn:E1; [|exists 1; by rewrite E1].
  destruct (heads (fr s) 2) eqn:E2; [cbn in Hp; lia|exists 2; by rewrite E2].
Qed.

Lemma wp_min_order pages (Q : Z → kmem → Prop) s :
  1 ≤ pages < 2 ^ 64 → Q (min_order pages) s → wp (get_min_size_frame_order pages) Q s.
Proof. intros Hp HQ. eexists _, _. split; [by apply get_min_size_frame_order_eq|done]. Qed.

Lemma wp_alloc_contiguos pages (Q : option Z → kmem → Prop) s :
  allocator_wf lim (fr s) → 1 ≤ pages ≤ 128 → within_reach s (min_order pages) →
  7 ≤ stock s → 1 ≤ room s →
  (∀ a s', block_taken s (min_order pages) a s' → Q (Some a) s') →
  wp (alloc_frames_contiguos pages) Q s.
Proof.
  intros Hwf Hp Hreach Hst Hroom HQ. pose proof (min_order_fits pages Hp) as [Ho Hfit].
  set (o := min_order pages) in *.
  unfold alloc_frames_contiguos. wp_step. apply wp_min_order; [lia|]. fold o.
  wp_step. wp_step; [unfold FRAME_ORDERS; lia|]. wp_step.
  apply wp_contiguos_loop; [done..|].
  intros s2 (_ & Hwf2 & Hby2 & (e & h & Hh & Hn) & (k & Hk & Ht) & _) Hsm.
  pose proof (wf_shape _ _ Hwf2) as Hs2.
  assert (heads (fr s2) o ≡ₚ e :: h) as Hp2 by by rewrite Hh.
  destruct (take_block (lim := lim) (fr s2) o e h Hwf2 Ho Hp2) as (Hwf3 & Hap & Hok & Hby3 & _).
  wp_step. apply (wp_remove_head (lim := lim) o e h); [done..|].
  wp_step. apply (wp_toggle (lim := lim)); [by apply shape_with_head|done|].
  wp_step. apply wp_free_entry; [rewrite !room_frames; unfold took in Ht; lia|].
  intros s3 Hfr Ht3. cbn in Hfr. wp_step. rewrite <- Hfr in *. apply HQ. split.
  - split; [done|]. rewrite Hfr. by apply (take_coalesced (lim := lim) (fr s2)).
  - done.
  - done.
  - intros x. by rewrite <- Hby2.
  - exists (k - 1). split; [lia|]. unfold took in *. rewrite !stock_frames, !room_frames in Ht3.
    cbn in Ht3. destruct Ht as (? & ? & Em), Ht3 as (? & ? & Em3).
    split_and!; [lia|lia|congruence].
  - intros E0. rewrite <- (Hsm E0), Hfr. pose proof (shape_with_head Hs2 o h ltac:(lia)) as Hs3.
    unfold small_pages. rewrite !(heads_flip Hs3), !(heads_with_head Hs2) by lia. rewrite E0 in *.
    rewrite decide_True, !decide_False, Hh by lia. cbn [length]. lia.
Qed.

Lemma wp_free_contiguos a pages (Q : unit → kmem → Prop) s :
  allocator_wf lim (fr s) → 1 ≤ pages ≤ 128 → block_ok lim (min_order pages) a →
  apart_from (fr s) (min_order pages) a → 1 ≤ stock s → 7 ≤ room s →
  (∀ s' k, allocator_wf lim (fr s') →
     (∀ x, free_byte (fr s') x ↔ in_block (min_order pages) a x ∨ free_byte (fr s) x) →
     -6 ≤ k ≤ 1 → took k s s' → Q tt s') →
  wp (free_frames_contiguos a pages) Q s.
Proof.
  intros [Hwf Hc] Hp Hok Hap Hst Hroom HQ. pose proof (min_order_fits pages Hp) as [Ho _].
  unfold free_frames_contiguos. wp_step. apply wp_get_memory_entry; [lia|]. intros e s1 Hfr1 Ht1.
  wp_step. apply wp_min_order; [lia|].
  pose proof (shape_lim _ _ (wf_shape _ _ Hwf)). pose proof (sz_pos (min_order pages) ltac:(lia)).
  rewrite (wrap_small 57) by (destruct Hok as (_ & ? & _ & ?); lia).
  set (b := {| pfa_ptr := e; pfa_addr := a; pfa_order := min_order pages |}).
  rewrite <- Hfr1 in Hwf, Hc, Hap.
  apply (wp_free_frames (lim := lim)); [done| |unfold took in Ht1; cbn; lia|].
  { split; [by constructor|repeat constructor|by constructor]. }
  intros s2 k Hwf2 Hby2 Hk Ht2 Hco2. apply (HQ s2 (1 - k)); [split; [done|by apply Hco2]| |cbn in Hk; lia|].
  - intros x. rewrite Hby2, Hfr1. unfold list_byte. setoid_rewrite list_elem_of_singleton.
    split; [intros [(? & -> & ?)|?]; [by left|by right]|].
    intros [?|?]; [left; by exists b|by right].
  - replace (1 - k) with (1 + - k) by lia. by eapply took_trans.
Qed.

(** When a block is within reach, [alloc_frames_contiguos] hands out one aligned
    block of at least [pages] pages, of the least order that can hold them, and nothing
    else leaves the free memory. *)
Theorem alloc_frames_contiguos_spec pages s :
  allocator_wf lim (fr s) → 1 ≤ pages ≤ 128 → within_reach s (min_order pages) →
  7 ≤ stock s → 1 ≤ room s →
  wp (alloc_frames_contiguos pages) (λ r s', ∃ a,
    r = Some a ∧ pages * PAGE_SIZE ≤ sz (min_order pages) ∧
    block_taken s (min_order pages) a s') s.
Proof.
  intros Hwf Hp Hr Hst Hroom. apply wp_alloc_contiguos; [done..|].
  intros a s' Ht. exists a. split_and!; [done|by apply min_order_fits|done].
Qed.

(** Allocating a contiguous block and giving it back restores the allocator: the same
    blocks are free, of the same orders, whatever was split and merged in between. *)
Theorem contiguos_roundtrip pages s :
  allocator_wf lim (fr s) → 1 ≤ pages ≤ 128 → within_reach s (min_order pages) →
  7 ≤ stock s → 8 ≤ room s →
  wp (r ← alloc_frames_contiguos pages;
      match r with
      | Some a => free_frames_contiguos a pages
      | None => mret tt
      end) (λ _ s', fr s' ≡ fr s ∧ allocator_wf lim (fr s')) s.
Proof.
  intros Hwf Hp Hr Hst Hroom. wp_step. apply wp_alloc_contiguos; [done..|lia|].
  intros a s1 [Hwf1 Hok Hap Hby (k & Hk & Ht)].
  apply wp_free_contiguos; [done..|unfold took in Ht; lia|unfold took in Ht; lia|].
  intros s2 k2 Hwf2 Hby2 _ _. split; [|done].
  apply (coalesced_canonical lim); [apply Hwf2|apply Hwf2|apply Hwf|apply Hwf|].
  intros x. by rewrite Hby2, Hby.
Qed.

(** When the lists of the order asked for and of the next two are all empty, the
    search of [alloc_frames_contiguos] does not go on to larger blocks and does not
    report failure: it follows the null head of a list. *)
Theorem alloc_frames_contiguos_null pages s :
  shape lim (fr s) → 1 ≤ pages ≤ 32 →
  (∀ o, min_order pages ≤ o ≤ min_order pages + 2 → heads (fr s) o = []) →
  alloc_frames_contiguos pages s = Fault NullDeref.
Proof.
  intros Hs Hp Hemp.
  assert (0 ≤ min_order pages ≤ 5) as Ho.
  { unfold min_order, MIN. destruct (Z.eqb_spec pages 1); [lia|].
    pose proof (Z.log2_nonneg (pages - 1)). pose proof (Z.log2_le_mono (pages - 1) 31 ltac:(lia)).
    change (Z.log2 31) with 4 in *. destruct (Z.ltb_spec (Z.log2 (pages - 1) + 1) 8); lia. }
  set (o := min_order pages) in *.
  assert (∀ o', o ≤ o' ≤ o + 2 → get_head o' s = Ok ([], s)) as Hget.
  { intros o' Ho'. destruct (wp_get_head (lim := lim) o' (λ h s', h = [] ∧ s' = s) s) as (h & s' & E & -> & ->);
      [done|lia|by rewrite Hemp|done]. }
  unfold alloc_frames_contiguos, mbind, M_bind. rewrite get_min_size_frame_order_eq by lia. fold o.
  unfold kernel_assert, mret, M_ret. replace (o <? FRAME_ORDERS) with true by (unfold FRAME_ORDERS; lia).
  assert (contiguos_step o (o + 1) s = Fault NullDeref) as E.
  { unfold contiguos_step, mbind, M_bind. rewrite Hget by lia. cbn [is_null].
    rewrite Hget by lia. cbn [is_null andb].
    replace (FRAME_ORDERS <=? o + 1 + 1) with false by (unfold FRAME_ORDERS; lia).
    unfold remove_head, mbind, M_bind. by rewrite Hget by lia. }
  cbn [loop]. unfold mbind, M_bind. by rewrite E.
Qed.
End contiguous.

End FrameContiguous.
