(* ===== verification/FrameSessions.v ===== *)
(** Clients of the frame allocator: what they hold, and that whatever they take and give back,
    in any order, free memory and held memory stay a partition of what there was. *)
From S2P Require Import Prelude Util MemState FrameAllocator FrameInvariant FrameProofs FrameAlloc FrameContiguous.

Module FrameSessions.
Import Util Mem FrameAllocator FrameInvariant FrameProofs FrameAlloc FrameContiguous.

(** What a client holds: a list of blocks from [alloc_frames], or [pages] contiguous pages from
    [alloc_frames_contiguos]. *)
Inductive piece :=
  | scattered (l : list PageFrameAllocation)
  | contiguous (addr pages : Z).

Definition piece_byte (p : piece) (x : Z) : Prop :=
  match p with
  | scattered l => list_byte l x
  | contiguous addr pages => in_block (min_order pages) addr x
  end.
Definition held_byte (held : list piece) (x : Z) : Prop := ∃ p, p ∈ held ∧ piece_byte p x.
Definition pieces_apart (p q : piece) : Prop := ∀ x, piece_byte p x → ¬ piece_byte q x.

Lemma held_cons p held x : held_byte (p :: held) x ↔ piece_byte p x ∨ held_byte held x.
Proof. unfold held_byte. setoid_rewrite elem_of_cons. naive_solver. Qed.
Lemma held_app h1 h2 x : held_byte (h1 ++ h2) x ↔ held_byte h1 x ∨ held_byte h2 x.
Proof. unfold held_byte. setoid_rewrite elem_of_app. naive_solver. Qed.

Lemma apart_delete h1 p h2 :
  ForallOrdPairs pieces_apart (h1 ++ p :: h2) →
  ForallOrdPairs pieces_apart (h1 ++ h2) ∧ ∀ x, piece_byte p x → ¬ held_byte (h1 ++ h2) x.
Proof.
  induction h1 as [|q h1 IH]; cbn; intros H; inversion H as [|? ? Hp Hh]; subst.
  - split; [done|]. intros x Hx (r & Hr & Hrx). rewrite Forall_forall in Hp. by apply (Hp r Hr x).
  - apply IH in Hh as [Hh Hd]. apply Forall_app in Hp as [Hp1 [Hqp Hp2]%Forall_cons]. split.
    + constructor; [by apply Forall_app|done].
    + intros x Hx [Hq|Hr]%held_cons; [by apply (Hqp x)|by apply (Hd x)].
Qed.

Lemma apart_not_free fs o a x : apart_from fs o a → in_block o a x → ¬ free_byte fs x.
Proof. intros Hap Hx (o' & a' & Hf & Hx'). specialize (Hap o' a' Hf). unfold separate, in_block in *. lia. Qed.

(** A block without a free byte overlaps no free block. *)
Lemma not_free_apart lim fs o a :
  blocks_wf lim fs → 0 ≤ o < 8 → (∀ x, in_block o a x → ¬ free_byte fs x) → apart_from fs o a.
Proof.
  intros Hwf Ho Hno o' a' Hf. destruct (blocks_ok _ _ Hwf _ _ Hf) as (Ho' & _).
  apply separate_of_bytes; [lia|lia|]. intros x Hx Hx'. apply (Hno x Hx). by exists o', a'.
Qed.

Section sessions.
Context `{!MemoryEntries, !MemoryEntriesSpec} {lim : Z}.
Implicit Types (s : kmem).

(** *** Taking and giving back *)

Definition piece_ok (p : piece) : Prop :=
  match p with
  | scattered l => Forall (pfa_ok (lim := lim)) l ∧ ForallOrdPairs pfa_separate l
  | contiguous addr pages => 1 ≤ pages ≤ 128 ∧ block_ok lim (min_order pages) addr
  end.

Definition give (p : piece) : KM unit :=
  match p with
  | scattered l => free_frames l
  | contiguous addr pages => free_frames_contiguos addr pages
  end.

(** The entry pool can take what giving [p] back leaves over. *)
Definition room_for (p : piece) s : Prop :=
  match p with
  | scattered l => 7 * Z.of_nat (length l) ≤ room s
  | contiguous _ _ => 1 ≤ stock s ∧ 7 ≤ room s
  end.

(** The conditions under which [alloc_frames] and [alloc_frames_contiguos] do not fault. *)
Definition can_take (pages : Z) s : Prop :=
  0 < pages < 2 ^ 52 ∧ pages < 128 * (Z.of_nat (length (heads (fr s) 7)) + 1) ∧ 7 * pages ≤ stock s ∧ 7 * pages ≤ room s.
Definition can_take_contiguous (pages : Z) s : Prop :=
  1 ≤ pages ≤ 128 ∧ within_reach s (min_order pages) ∧ 7 ≤ stock s ∧ 1 ≤ room s.

Definition add_scattered (l : list PageFrameAllocation) (held : list piece) : list piece :=
  match l with [] => held | _ => scattered l :: held end.
Definition add_contiguous (r : option Z) (pages : Z) (held : list piece) : list piece :=
  match r with Some addr => contiguous addr pages :: held | None => held end.

(** One call of some client. *)
Inductive session_step : kmem * list piece → kmem * list piece → Prop :=
  | step_take s held pages l s' : can_take pages s → alloc_frames pages s = Ok (l, s') →
      session_step (s, held) (s', add_scattered l held)
  | step_take_contiguous s held pages r s' : can_take_contiguous pages s → alloc_frames_contiguos pages s = Ok (r, s') →
      session_step (s, held) (s', add_contiguous r pages held)
  | step_give s h1 p h2 s' : room_for p s → give p s = Ok (tt, s') →
      session_step (s, h1 ++ p :: h2) (s', h1 ++ h2).

(** *** The invariant *)

Record session_inv s0 s (held : list piece) : Prop := {
  si_wf : allocator_wf lim (fr s);
  si_ok : Forall piece_ok held;
  si_apart : ForallOrdPairs pieces_apart held;
  si_taken : ∀ x, held_byte held x → ¬ free_byte (fr s) x;
  si_bytes : ∀ x, free_byte (fr s0) x ↔ free_byte (fr s) x ∨ held_byte held x;
}.

Lemma session_init s : allocator_wf lim (fr s) → session_inv s s [].
Proof.
  intros Hwf. split; [done|constructor|constructor|by intros x (p & []%not_elem_of_nil & _)|].
  intros x. split; [by left|]. intros [?|(p & []%not_elem_of_nil & _)]. done.
Qed.

(** Bytes that were free are held from now on. *)
Lemma session_take s0 s s' held p :
  session_inv s0 s held → allocator_wf lim (fr s') → piece_ok p →
  (∀ x, piece_byte p x → ¬ free_byte (fr s') x) →
  (∀ x, free_byte (fr s) x ↔ piece_byte p x ∨ free_byte (fr s') x) → session_inv s0 s' (p :: held).
Proof.
  intros [Hwf Hok Hap Htk Hby] Hwf' Hp Hpn Hby'. split; [done|by constructor| | |].
  - constructor; [|done]. apply Forall_forall. intros q Hq x Hx Hqx. apply (Htk x); [by exists q|]. apply Hby'. by left.
  - intros x [Hx|Hx]%held_cons Hf; [by apply (Hpn x)|]. apply (Htk x Hx), Hby'. by right.
  - intros x. rewrite Hby, Hby', held_cons. tauto.
Qed.

Lemma session_same s0 s s' held :
  session_inv s0 s held → allocator_wf lim (fr s') → (∀ x, free_byte (fr s') x ↔ free_byte (fr s) x) → session_inv s0 s' held.
Proof.
  intros [Hwf Hok Hap Htk Hby] Hwf' Hby'. split; [done..| |].
  - intros x Hx. rewrite Hby'. by apply Htk.
  - intros x. by rewrite Hby'.
Qed.

(** A piece that is held can be given back. *)
Lemma wp_give s0 s h1 p h2 :
  session_inv s0 s (h1 ++ p :: h2) → room_for p s → wp (give p) (λ _ s', session_inv s0 s' (h1 ++ h2)) s.
Proof.
  intros [Hwf Hok Hap Htk Hby] Hroom. apply apart_delete in Hap as [Hap Hd].
  apply Forall_app in Hok as [Hok1 [Hp Hok2]%Forall_cons].
  assert (∀ x, held_byte (h1 ++ p :: h2) x ↔ piece_byte p x ∨ held_byte (h1 ++ h2) x) as Hh.
  { intros x. rewrite !held_app, held_cons. tauto. }
  setoid_rewrite Hh in Htk. setoid_rewrite Hh in Hby.
  assert (∀ s', allocator_wf lim (fr s') → (∀ x, free_byte (fr s') x ↔ piece_byte p x ∨ free_byte (fr s) x) →
    session_inv s0 s' (h1 ++ h2)) as Hend.
  { intros s' Hwf' Hby'. split; [done|by apply Forall_app|done| |].
    - intros x Hx [Hpx|Hf]%Hby'; [by apply (Hd x)|]. apply (Htk x); [by right|done].
    - intros x. rewrite Hby, Hby'. tauto. }
  destruct p as [l|a pages]; cbn [give piece_ok room_for piece_byte] in *.
  - destruct Hp as [Hpok Hsep]. pose proof Hwf as [Hfwf Hco].
    apply (wp_free_frames (lim := lim)); [done| |done|].
    + split; [done|done|]. apply Forall_forall. intros b Hb.
      apply (not_free_apart lim); [apply Hfwf|by rewrite Forall_forall in Hpok; apply Hpok|].
      intros x Hx. apply Htk. left. by exists b.
    + intros s' k Hwf' Hby' _ _ Hco'. apply Hend; [split; auto|done].
  - destruct Hp as [Hn Hb]. apply (wp_free_contiguos (lim := lim)); [done|done|done| |lia|lia|].
    + apply (not_free_apart lim); [apply Hwf|apply Hb|]. intros x Hx. apply Htk. by left.
    + intros s' k Hwf' Hby' _ _. by apply Hend.
Qed.

Lemma session_step_inv s0 s held s' held' :
  session_inv s0 s held → session_step (s, held) (s', held') → session_inv s0 s' held'.
Proof.
  intros HI Hstep. inversion Hstep as [? ? pages l ? (Hp & H7 & Hst & Hroom) E|? ? pages r ? (Hp & Hr & Hst & Hroom) E|? h1 p h2 ? Hroom E]; subst.
  - pose proof (wp_alloc_frames (lim := lim) s pages (si_wf _ _ _ HI) Hp H7 Hst Hroom) as Hwp.
    apply (wp_run _ _ _ _ _ Hwp) in E as [(Hl & _ & [Hwf' [Hok Hsep Hap] Hby _])|(-> & _ & Hwf' & Hby)].
    + destruct l as [|b l]; [done|]. cbn [add_scattered].
      apply (session_take s0 s); [done|done|done| |exact Hby].
      intros x (b' & Hb & Hx). rewrite Forall_forall in Hap. by eapply apart_not_free; [apply (Hap b' Hb)|].
    + by apply (session_same s0 s).
  - pose proof (wp_alloc_contiguos (lim := lim) pages (λ r s', ∃ a, r = Some a ∧ block_taken (lim := lim) s (min_order pages) a s') s
      (si_wf _ _ _ HI) Hp Hr Hst Hroom (λ a s' H, ex_intro _ a (conj eq_refl H))) as Hwp.
    apply (wp_run _ _ _ _ _ Hwp) in E as (a & -> & [Hwf' Hok Hap Hby _]). cbn [add_contiguous].
    apply (session_take s0 s); [done|done|done| |exact Hby]. intros x Hx. by eapply apart_not_free.
  - by apply (wp_run _ _ _ _ _ (wp_give s0 s h1 p h2 HI Hroom)) in E.
Qed.

Lemma session_reach s0 c c' :
  rtc session_step c c' → session_inv s0 c.1 c.2 → session_inv s0 c'.1 c'.2.
Proof. induction 1 as [|[s1 h1] [s2 h2] c3 Hs Hr IH]; [done|]. intros HI. apply IH. by eapply session_step_inv. Qed.

(** C2: whatever the clients of the allocator have taken and given back, in whatever order:
    what is free and what they hold are a partition of the memory that was free at first, no
    two pieces overlap, the buddy invariant holds, and each piece can be given back without a
    fault. *)
Theorem session_partition s0 s held :
  allocator_wf lim (fr s0) → rtc session_step (s0, []) (s, held) →
  allocator_wf lim (fr s) ∧
  ForallOrdPairs pieces_apart held ∧
  (∀ x, held_byte held x → ¬ free_byte (fr s) x) ∧
  (∀ x, free_byte (fr s0) x ↔ free_byte (fr s) x ∨ held_byte held x) ∧
  (∀ p, p ∈ held → room_for p s → ∃ s', give p s = Ok (tt, s')).
Proof.
  intros Hwf Hr. pose proof (session_reach s0 _ _ Hr (session_init s0 Hwf)) as HI. cbn in HI.
  split_and!; [apply HI..|]. intros p (h1 & h2 & ->)%list_elem_of_split Hroom.
  destruct (wp_give s0 s h1 p h2 HI Hroom) as ([] & s' & E & _). by exists s'.
Qed.

(** C18: when everything has been given back, in whatever order and whatever was split and
    merged in between, the allocator has the free blocks it had at first, order by order. *)
Theorem session_roundtrip s0 s :
  allocator_wf lim (fr s0) → rtc session_step (s0, []) (s, []) → fr s ≡ fr s0.
Proof.
  intros Hwf Hr. destruct (session_reach s0 _ _ Hr (session_init s0 Hwf)) as [Hwf' _ _ _ Hby].
  apply (coalesced_canonical lim); [apply Hwf'|apply Hwf'|apply Hwf|apply Hwf|].
  intros x. rewrite Hby. split; [by left|]. by intros [?|(p & []%not_elem_of_nil & _)].
Qed.
End sessions.
End FrameSessions.
