(* ===== verification/FrameInit.v ===== *)
(** How the buddy allocator comes up: [alloc_frame_allocator_memory] and
    [initialize_frame_allocator] of kernel/src/memory/frame_allocator.c. *)
From S2P Require Import Prelude Util MemState EntryPool FrameAllocator FrameInvariant FrameProofs FrameAlloc FrameRange.

Module FrameInit.
Import Util Mem FrameAllocator FrameInvariant FrameProofs FrameAlloc FrameRange.

Definition set_order_size (order size : Z) : KM unit :=
  modify (λ s, set_frames
    {| fa_free_lists := fa_free_lists (km_frames s);
       fa_order_sizes := insertZ order size (fa_order_sizes (km_frames s)) |} s).

Definition get_memory_size : KM Z := gets km_memory_size.

(** [get_memory_size() / g_frame_order_sizes[order]]. *)
Definition blocks_of_order (order : Z) : KM Z :=
  size ← get_memory_size;
  sz ← order_size order;
  if sz =? 0 then throw DivByZero else mret (size / sz).

Definition init_order_sizes : KM unit :=
  _ ← set_order_size 0 MIN_FRAME_ORDER_SIZE;
  for_range 1 FRAME_ORDERS (λ i, sz ← order_size (i - 1); set_order_size i (u64 (sz * 2))).

(** for (i = order; i < order + n; ++i) total += get_memory_size() / g_frame_order_sizes[i] *)
Fixpoint bitmaps_size (n : nat) (order total : Z) : KM Z :=
  match n with
  | O => mret total
  | S n => b ← blocks_of_order order; bitmaps_size n (order + 1) (u64 (total + b))
  end.

Definition round_up (n m : Z) : KM Z :=
  match round_up_to_multiple n m with Ok r => mret r | Fault f => throw f end.

Definition usable (t : UEFIMemoryType) : bool :=
  bool_decide (t = EfiConventionalMemory) || bool_decide (t = EfiRuntimeServicesCode) ||
  bool_decide (t = EfiBootServicesCode).

(** The first usable descriptor above 1MB with room for [total_pages] gives its first pages
    up. The addresses are 0 and the map unchanged when there is none: the assertion that
    should report it is inside the loop. *)
Fixpoint claim_descriptor (total_pages : Z) (map : list UEFIMemoryDescriptor)
    : Z * list UEFIMemoryDescriptor :=
  match map with
  | [] => (0, [])
  | desc :: map =>
      if negb (usable (md_type desc)) || (md_physical_start desc <? 0x100000) ||
         (md_num_pages desc <? total_pages)
      then let '(addr, map) := claim_descriptor total_pages map in (addr, desc :: map)
      else (md_physical_start desc,
            {| md_type := md_type desc;
               md_physical_start := u64 (md_physical_start desc + u64 (total_pages * PAGE_SIZE));
               md_num_pages := u64 (md_num_pages desc - total_pages) |} :: map)
  end.

(** Returns [phys_addr], [total_pages], [entry_pool_pages] and the updated memory map. *)
Definition alloc_frame_allocator_memory (map : list UEFIMemoryDescriptor)
    : KM (Z * Z * Z * list UEFIMemoryDescriptor) :=
  _ ← init_order_sizes;
  blocks ← blocks_of_order (FRAME_ORDERS - 1);
  let free_list_entries := u64 (blocks * 2) in
  entry_bytes ← round_up (u64 (free_list_entries * sizeof_ListEntry)) PAGE_SIZE;
  let entry_pool_pages := entry_bytes / PAGE_SIZE in
  total_bitmaps_size ← bitmaps_size (Z.to_nat (FRAME_ORDERS - 1)) 0 0;
  total_bitmaps_size ← round_up total_bitmaps_size PAGE_SIZE;
  let total_pages := u64 (entry_pool_pages + total_bitmaps_size / PAGE_SIZE) in
  let '(phys_addr, map) := claim_descriptor total_pages map in
  mret (phys_addr, total_pages, entry_pool_pages, map).

Section initialize.
Context `{!MemoryEntries}.
(** The end of the descriptor a null [last] points to, if page 0 can be read at all. *)
Context (null_descriptor_end : result Z).

(** [last->physical_start + last->num_pages * PAGE_SIZE]. *)
Definition end_of_last (last : option UEFIMemoryDescriptor) : KM Z :=
  match last with
  | Some last => mret (md_end last)
  | None => match null_descriptor_end with Ok e => mret e | Fault f => throw f end
  end.

(** The buddy maps, of whole 64-bit words inside the zeroed region each is given. *)
Definition init_buddy_maps : KM unit :=
  for_range 0 (FRAME_ORDERS - 1) (λ i,
    bytes ← blocks_of_order i;
    l ← get_list i;
    set_list i {| fl_head := fl_head l; fl_buddy_map := replicate (Z.to_nat (bytes / 8)) 0 |}).

(** Append the blocks that follow the first one, [n] at most, to [blocks]. *)
Fixpoint more_blocks (n : nat) (curr_addr : Z) (blocks : list ListEntry) : KM (list ListEntry) :=
  match n with
  | O => mret blocks
  | S n =>
      size ← get_memory_size;
      if size <=? curr_addr then mret blocks
      else
        ptr ← get_memory_entry;
        sz ← order_size (FRAME_ORDERS - 1);
        more_blocks n (u64 (curr_addr + sz)) (blocks ++ [{| le_ptr := ptr; le_addr := curr_addr |}])
  end.

Definition init_blocks : KM unit :=
  ptr ← get_memory_entry;
  sz ← order_size (FRAME_ORDERS - 1);
  block_count ← blocks_of_order (FRAME_ORDERS - 1);
  blocks ← more_blocks (Z.to_nat (block_count - 1)) (u64 (0 + sz)) [{| le_ptr := ptr; le_addr := 0 |}];
  set_head (FRAME_ORDERS - 1) blocks.

Definition remove_unusable (last : option UEFIMemoryDescriptor) (desc : UEFIMemoryDescriptor)
    : KM unit :=
  addr ← end_of_last last;
  _ ← (if negb (addr =? md_physical_start desc) && bool_decide (is_Some last) then
    let size := u64 (md_physical_start desc - addr) in
    _ ← kernel_assert (addr mod PAGE_SIZE =? 0) "Address not page aligned";
    _ ← kernel_assert (size mod PAGE_SIZE =? 0) "Size not page aligned";
    success ← remove_range addr (size / PAGE_SIZE);
    kernel_assert success "Failed to remove unusable frames from frame allocator"
  else mret tt);
  if usable (md_type desc) then mret tt
  else
    success ← remove_range (md_physical_start desc) (md_num_pages desc);
    kernel_assert success "Failed to remove unusable frames from frame allocator".

Fixpoint remove_all_unusable (last : option UEFIMemoryDescriptor) (map : list UEFIMemoryDescriptor)
    : KM unit :=
  match map with
  | [] => mret tt
  | desc :: map => _ ← remove_unusable last desc; remove_all_unusable (Some desc) map
  end.

Definition initialize_frame_allocator (virt_addr : Z) (map : list UEFIMemoryDescriptor)
    (entry_pool_pages : Z) : KM unit :=
  _ ← EntryPool.fill_memory_entry_pool virt_addr entry_pool_pages;
  _ ← init_buddy_maps;
  _ ← init_blocks;
  remove_all_unusable None map.
End initialize.

(** ** What initialization establishes *)

(** The ranges taken out of the allocator for a memory map: the gaps between descriptors
    and the descriptors of unusable types, as (address, pages). *)
Definition gap_before (last : option UEFIMemoryDescriptor) (desc : UEFIMemoryDescriptor)
    : list (Z * Z) :=
  match last with
  | Some last =>
      if md_end last =? md_physical_start desc then []
      else [(md_end last, u64 (md_physical_start desc - md_end last) / PAGE_SIZE)]
  | None => []
  end.

Fixpoint unusable_ranges (last : option UEFIMemoryDescriptor) (map : list UEFIMemoryDescriptor)
    : list (Z * Z) :=
  match map with
  | [] => []
  | desc :: map =>
      gap_before last desc ++
      (if usable (md_type desc) then [] else [(md_physical_start desc, md_num_pages desc)]) ++
      unusable_ranges (Some desc) map
  end.

Definition in_ranges (rs : list (Z * Z)) (x : Z) : Prop := ∃ r, r ∈ rs ∧ in_range r.1 r.2 x.

Definition pages_in (rs : list (Z * Z)) : Z := foldr (λ r n, r.2 + n) 0 rs.

(** A range of whole pages below [lim]. *)
Definition range_ok (lim : Z) (r : Z * Z) : Prop :=
  0 ≤ r.1 ∧ 0 ≤ r.2 ∧ (4096 | r.1) ∧ r.1 + r.2 * PAGE_SIZE ≤ lim.

Definition ranges_disjoint (r r' : Z * Z) : Prop :=
  r.1 + r.2 * PAGE_SIZE ≤ r'.1 ∨ r'.1 + r'.2 * PAGE_SIZE ≤ r.1.

Lemma page_aligned_end d : (4096 | md_physical_start d) → (4096 | md_end d).
Proof.
  unfold md_end, wrap, PAGE_SIZE. intros [k ->]. exists ((k + md_num_pages d) mod 2 ^ 52).
  rewrite Zplus_mod_idemp_r. replace (k * 4096 + md_num_pages d * 4096) with ((k + md_num_pages d) * 4096) by lia.
  change (2 ^ 64) with (2 ^ 52 * 4096). by rewrite Z.mul_mod_distr_r by lia.
Qed.

Lemma page_aligned_gap a b : (4096 | a) → (4096 | b) → u64 (a - b) mod 4096 = 0.
Proof.
  intros [k ->] [k' ->]. unfold wrap. replace (k * 4096 - k' * 4096) with ((k - k') * 4096) by lia.
  change (2 ^ 64) with (2 ^ 52 * 4096). rewrite Z.mul_mod_distr_r by lia. by apply Z.mod_mul.
Qed.

Section removal.
Context `{!MemoryEntries, !MemoryEntriesSpec} {lim : Z}.
Implicit Types (s : kmem).

(** Taking a free range out. *)
Lemma wp_remove_free addr pages (Q : bool → kmem → Prop) s :
  allocator_wf lim (fr s) → range_ok lim (addr, pages) → 7 * pages ≤ stock s → pages ≤ room s →
  (∀ x, in_range addr pages x → free_byte (fr s) x) →
  (∀ s' k, allocator_wf lim (fr s') →
     (∀ x, free_byte (fr s') x ↔ free_byte (fr s) x ∧ ¬ in_range addr pages x) →
     took k s s' → - pages ≤ k ≤ 6 * pages → Q true s') →
  wp (remove_range addr pages) Q s.
Proof.
  intros Hwf (Ha & Hp & Hd & Hl) Hst Hroom Hfree HQ. cbn in Ha, Hp, Hd, Hl.
  pose proof (shape_lim _ _ (wf_shape _ _ (awf_frames _ _ Hwf))).
  eapply wp_mono; [apply (wp_remove_range (lim := lim)); try done; unfold PAGE_SIZE in *; lia|].
  intros b s' (Hwf' & [(-> & Hby & _ & k & Ht & Hk)|(_ & Hno & _)]); [|done].
  by apply (HQ s' k).
Qed.

(** The ranges of the rest of the map are free and apart. *)
Record removable s (rs : list (Z * Z)) : Prop := {
  rm_wf : allocator_wf lim (fr s);
  rm_ok : Forall (range_ok lim) rs;
  rm_disjoint : ForallOrdPairs ranges_disjoint rs;
  rm_free : ∀ x, in_ranges rs x → free_byte (fr s) x;
  rm_stock : 7 * pages_in rs ≤ stock s;
  rm_room : pages_in rs ≤ room s;
}.

Lemma wp_remove_first r rs (Q : bool → kmem → Prop) s :
  removable s (r :: rs) →
  (∀ s', removable s' rs →
     (∀ x, free_byte (fr s') x ↔ free_byte (fr s) x ∧ ¬ in_range r.1 r.2 x) → Q true s') →
  wp (remove_range r.1 r.2) Q s.
Proof.
  intros [Hwf Hok Hdis Hfree Hst Hroom] HQ. destruct r as [a p]. cbn [fst snd] in *.
  apply Forall_cons in Hok as [Hr Hok]. inversion Hdis as [|? ? Hd Hdis']; subst.
  assert (0 ≤ pages_in rs) as Hp0.
  { clear -Hok. induction Hok as [|r rs (_ & ? & _)]; unfold pages_in in *; cbn; lia. }
  assert (pages_in ((a, p) :: rs) = p + pages_in rs) as Ep by done. rewrite Ep in *.
  destruct Hr as (H1 & H2 & H3 & H4). cbn in *.
  apply wp_remove_free; [done|done|lia|lia| |].
  { intros x Hx. apply Hfree. exists (a, p). split; [apply list_elem_of_here|done]. }
  intros s' k Hwf' Hby Ht Hk. apply HQ; [|done]. unfold took in Ht. split; [done|done|done| |lia|lia].
  intros x (r & Hin & Hx). apply Hby. split.
  - apply Hfree. exists r. split; [by apply list_elem_of_further|done].
  - rewrite Forall_forall in Hd. destruct (Hd r Hin) as [Hr|Hr]; cbn in Hr; unfold in_range in *; cbn in *; lia.
Qed.

Lemma wp_remove_all_unusable null_end last map (Q : unit → kmem → Prop) s :
  removable s (unusable_ranges last map) →
  Forall (λ d, (4096 | md_physical_start d)) map →
  (∀ l, last = Some l → (4096 | md_physical_start l)) →
  (∀ s', allocator_wf lim (fr s') →
     (∀ x, free_byte (fr s') x ↔ free_byte (fr s) x ∧ ¬ in_ranges (unusable_ranges last map) x) → Q tt s') →
  wp (remove_all_unusable (Ok null_end) last map) Q s.
Proof.
  revert last Q s. induction map as [|d map IH]; intros last Q s Hrm Hal Hlast HQ; cbn [remove_all_unusable].
  { wp_step. apply HQ; [apply Hrm|]. intros x. unfold in_ranges. cbn. set_solver. }
  apply Forall_cons in Hal as [Hd Hal]. unfold remove_unusable. do 2 wp_step.
  assert (∀ s1,
    removable s1 ((if usable (md_type d) then [] else [(md_physical_start d, md_num_pages d)]) ++
                  unusable_ranges (Some d) map) →
    (∀ x, free_byte (fr s1) x ↔ free_byte (fr s) x ∧ ¬ in_ranges (gap_before last d) x) →
    wp (if usable (md_type d) then mret tt
        else success ← remove_range (md_physical_start d) (md_num_pages d);
             kernel_assert success "Failed to remove unusable frames from frame allocator")
       (λ _ s', wp (remove_all_unusable (Ok null_end) (Some d) map) Q s') s1) as Hrest.
  { intros s1 Hrm1 Hby1.
    assert (∀ s2, removable s2 (unusable_ranges (Some d) map) →
      (∀ x, free_byte (fr s2) x ↔ free_byte (fr s1) x ∧
         ¬ in_ranges (if usable (md_type d) then [] else [(md_physical_start d, md_num_pages d)]) x) →
      wp (remove_all_unusable (Ok null_end) (Some d) map) Q s2) as Hgo.
    { intros s2 Hrm2 Hby2. apply IH; [done|done|by intros l [= <-]|].
      intros s3 Hwf3 Hby3. apply HQ; [done|]. intros x. rewrite Hby3, Hby2, Hby1.
      cbn [unusable_ranges]. unfold in_ranges. setoid_rewrite elem_of_app.
      setoid_rewrite elem_of_app. naive_solver. }
    destruct (usable (md_type d)).
    - wp_step. apply Hgo; [done|]. intros x. unfold in_ranges. set_solver.
    - wp_step. apply (wp_remove_first (md_physical_start d, md_num_pages d) _ _ _ Hrm1).
      intros s2 Hrm2 Hby2. wp_step; [done|]. apply Hgo; [done|].
      intros x. rewrite Hby2. unfold in_ranges. setoid_rewrite list_elem_of_singleton. naive_solver. }
  cbn [unusable_ranges] in Hrm. destruct last as [l|]; cbn [end_of_last gap_before] in *.
  - wp_step. rewrite bool_decide_eq_true_2, andb_true_r by done.
    destruct (Z.eqb_spec (md_end l) (md_physical_start d)) as [E|E]; cbn [negb].
    + do 2 wp_step. apply Hrest; [done|]. intros x. unfold in_ranges. set_solver.
    + pose proof (page_aligned_end l (Hlast l eq_refl)) as Hend.
      do 2 wp_step. wp_step; [apply Z.eqb_eq, Z.mod_divide; [done|exact Hend]|].
      wp_step. wp_step; [by apply Z.eqb_eq, page_aligned_gap|].
      wp_step. apply (wp_remove_first (md_end l, u64 (md_physical_start d - md_end l) / PAGE_SIZE) _ _ _ Hrm).
      intros s1 Hrm1 Hby1. wp_step; [done|]. apply Hrest; [done|].
      intros x. rewrite Hby1. unfold in_ranges. setoid_rewrite list_elem_of_singleton. naive_solver.
  - wp_step. rewrite bool_decide_eq_false_2, andb_false_r by by intros [].
    do 2 wp_step. apply Hrest; [done|]. intros x. unfold in_ranges. set_solver.
Qed.
End removal.

(** *** The allocator before anything is removed *)

(** The globals before the allocator comes up: [n] lists and order sizes. *)
Definition uninitialized (fs : FrameAllocator) : Prop :=
  length (fa_free_lists fs) = 8%nat ∧ length (fa_order_sizes fs) = 8%nat ∧
  Forall (λ l, fl_head l = []) (fa_free_lists fs).

Definition with_maps (size : Z) (h : list ListEntry) (last_map : list Z) : FrameAllocator :=
  {| fa_free_lists :=
       ((λ o, {| fl_head := []; fl_buddy_map := replicate (Z.to_nat (size / sz o / 8)) 0 |})
          <$> [0; 1; 2; 3; 4; 5; 6]) ++ [{| fl_head := h; fl_buddy_map := last_map |}];
     fa_order_sizes := standard_sizes |}.

Lemma list_of_8 {A} (l : list A) : length l = 8%nat →
  ∃ a b c d e f g h, l = [a; b; c; d; e; f; g; h].
Proof. intros H. do 9 (destruct l as [|? l]; try done). repeat eexists. Qed.

Lemma init_order_sizes_eq s :
  length (fa_order_sizes (fr s)) = 8%nat →
  init_order_sizes s = Ok (tt, set_frames
    {| fa_free_lists := fa_free_lists (fr s); fa_order_sizes := standard_sizes |} s).
Proof.
  destruct s as [p [ls ss] m g]. cbn [km_frames fa_order_sizes]. intros H.
  apply list_of_8 in H as (? & ? & ? & ? & ? & ? & ? & ? & ->). reflexivity.
Qed.

Lemma init_buddy_maps_eq s :
  uninitialized (fr s) → fa_order_sizes (fr s) = standard_sizes →
  ∃ last_map, init_buddy_maps s = Ok (tt, set_frames (with_maps (km_memory_size s) [] last_map) s).
Proof.
  destruct s as [p [ls ss] m g]. intros (H & _ & Hh) E. cbn in H, Hh, E. subst ss.
  apply list_of_8 in H as ([] & [] & [] & [] & [] & [] & [] & [h8 m8] & ->).
  rewrite !Forall_cons in Hh. cbn in Hh. destruct_and!. subst.
  exists m8. reflexivity.
Qed.

Section blocks.
Context `{!MemoryEntries, !MemoryEntriesSpec}.
Implicit Types (s : kmem).

Definition is_initial (fs : FrameAllocator) (size : Z) (h : list ListEntry) : Prop :=
  ∃ last_map, fs = with_maps size h last_map.

Lemma wp_initial_size o (Q : Z → kmem → Prop) s size h :
  is_initial (fr s) size h → 0 ≤ o < 8 → Q (sz o) s → wp (order_size o) Q s.
Proof.
  intros [bm E] Ho HQ. unfold order_size. wp_steps; [|done].
  rewrite E. by apply lookup_standard_sizes.
Qed.

(** The blocks 0, S, 2S, ... of the largest order S. *)
Definition top_addrs (k : nat) : list Z := (λ i, 524288 * Z.of_nat i) <$> seq 0 k.

Lemma top_addrs_S k : top_addrs (S k) = top_addrs k ++ [524288 * Z.of_nat k].
Proof. unfold top_addrs. by rewrite seq_S, fmap_app. Qed.

Lemma wp_more_blocks n k blocks h (Q : list ListEntry → kmem → Prop) s :
  is_initial (fr s) (km_memory_size s) h → km_memory_size s < 2 ^ 57 →
  le_addr <$> blocks = top_addrs k → 524288 * Z.of_nat (k + n) ≤ km_memory_size s →
  Z.of_nat n ≤ stock s →
  (∀ blocks' s', le_addr <$> blocks' = top_addrs (k + n) → fr s' = fr s → took (Z.of_nat n) s s' →
     Q blocks' s') →
  wp (more_blocks n (524288 * Z.of_nat k) blocks) Q s.
Proof.
  revert k blocks Q s. induction n as [|n IH]; intros k blocks Q s Hin Hmax Hb Hsize Hst HQ; cbn [more_blocks].
  { wp_step. apply HQ; [by rewrite Nat.add_0_r|done|apply took_refl]. }
  unfold get_memory_size. do 2 wp_step. replace (_ <=? _) with false by lia.
  wp_step. apply wp_get_memory_entry; [lia|]. intros e s1 Hfr Ht. pose proof Ht as (Hst1 & _ & [= Hm _]).
  wp_step. eapply wp_initial_size; [by rewrite Hfr|unfold FRAME_ORDERS; lia|].
  change (sz (FRAME_ORDERS - 1)) with 524288. rewrite wrap_small by lia.
  replace (524288 * Z.of_nat k + 524288) with (524288 * Z.of_nat (S k)) by lia.
  apply IH; [by rewrite Hfr, Hm|by rewrite Hm| |rewrite Hm; lia|lia|].
  { rewrite fmap_app, Hb, top_addrs_S. done. }
  intros blocks' s2 Hb' Hfr2 Ht2. apply HQ; [by rewrite Hb'; f_equal; lia|congruence|].
  replace (Z.of_nat (S n)) with (1 + Z.of_nat n) by lia. by eapply took_trans.
Qed.

Lemma wp_init_blocks (Q : unit → kmem → Prop) s :
  is_initial (fr s) (km_memory_size s) [] → 524288 ≤ km_memory_size s < 2 ^ 57 →
  km_memory_size s / 524288 ≤ stock s →
  (∀ s' h, is_initial (fr s') (km_memory_size s) h →
     le_addr <$> h = top_addrs (Z.to_nat (km_memory_size s / 524288)) →
     took (km_memory_size s / 524288) s s' → Q tt s') →
  wp init_blocks Q s.
Proof.
  intros Hin Hsize Hst HQ. set (n := km_memory_size s / 524288) in *.
  assert (1 ≤ n) as Hn by (apply Z.div_le_lower_bound; lia).
  pose proof (Z.mul_div_le (km_memory_size s) 524288 ltac:(lia)) as Hle. fold n in Hle.
  unfold init_blocks. wp_step. apply wp_get_memory_entry; [lia|]. intros e s1 Hfr Ht. pose proof Ht as (Hst1 & _ & [= Hm _]).
  wp_step. eapply wp_initial_size; [by rewrite Hfr|unfold FRAME_ORDERS; lia|].
  unfold blocks_of_order, get_memory_size. do 3 wp_step.
  wp_step. eapply wp_initial_size; [by rewrite Hfr|unfold FRAME_ORDERS; lia|].
  change (sz (FRAME_ORDERS - 1)) with 524288. cbn [Z.eqb]. change (524288 =? 0) with false. cbn iota.
  wp_step. rewrite Hm. fold n. wp_step.
  change (u64 (0 + 524288)) with (524288 * Z.of_nat 1).
  eapply wp_more_blocks; [by rewrite Hfr, Hm|lia|done|rewrite Hm; lia|lia|].
  intros h s2 Hh Hfr2 Ht2. destruct Hin as [bm Ebm].
  assert (fr s2 = with_maps (km_memory_size s) [] bm) as E2 by congruence.
  unfold set_head, get_list, set_list. wp_step. wp_step. wp_step. rewrite E2. cbn.
  eapply wp_of_option; [reflexivity|]. wp_step. cbn. apply (HQ _ h).
  - exists bm. cbn. rewrite E2. reflexivity.
  - rewrite Hh. f_equal. lia.
  - apply took_frames. replace n with (1 + Z.of_nat (Z.to_nat (n - 1))) by lia. by eapply took_trans.
Qed.
End blocks.

(** The blocks of the initial allocator. *)
Lemma initial_free_at size h bm o a :
  free_at (with_maps size h bm) o a ↔ o = 7 ∧ a ∈ (le_addr <$> h).
Proof.
  unfold free_at, addrs, heads. split.
  - intros H. destruct (lookupZ (fa_free_lists (with_maps size h bm)) o) as [l|] eqn:E;
      [|by apply elem_of_nil in H].
    pose proof (lookupZ_Some_range _ _ _ E) as Hr. cbn in Hr.
    assert (o = 0 ∨ o = 1 ∨ o = 2 ∨ o = 3 ∨ o = 4 ∨ o = 5 ∨ o = 6 ∨ o = 7) as Ho by lia.
    destruct Ho as [->|[->|[->|[->|[->|[->|[->| ->]]]]]]]; cbn in E; injection E as <-; cbn in H;
      try (by apply elem_of_nil in H). done.
  - by intros [-> H].
Qed.

Lemma elem_of_top_addrs k a : a ∈ top_addrs k ↔ ∃ i, 0 ≤ i < Z.of_nat k ∧ a = 524288 * i.
Proof.
  unfold top_addrs. rewrite list_elem_of_fmap. setoid_rewrite elem_of_seq. split.
  - intros (i & -> & Hi). exists (Z.of_nat i). split; [lia|done].
  - intros (i & Hi & ->). exists (Z.to_nat i). split; [f_equal; lia|lia].
Qed.

(** The memory managed: whole blocks of the largest order. *)
Definition managed (size : Z) : Z := size / 524288 * 524288.

Lemma initial_wf fs size h :
  is_initial fs size h → 2 ^ 21 ≤ size < 2 ^ 57 →
  le_addr <$> h = top_addrs (Z.to_nat (size / 524288)) →
  allocator_wf (managed size) fs ∧ ∀ x, free_byte fs x ↔ 0 ≤ x < managed size.
Proof.
  intros [bm ->] Hsize Hh. unfold managed. set (n := size / 524288) in *.
  assert (4 ≤ n) as Hn by (apply Z.div_le_lower_bound; lia).
  pose proof (Z.mul_div_le size 524288 ltac:(lia)) as Hle. fold n in Hle.
  assert (∀ o a, free_at (with_maps size h bm) o a ↔ o = 7 ∧ ∃ i, 0 ≤ i < n ∧ a = 524288 * i) as Hf.
  { intros o a. rewrite initial_free_at, Hh, elem_of_top_addrs. by rewrite Z2Nat.id by lia. }
  assert (∀ o, 0 ≤ o < 7 → buddy_words (with_maps size h bm) o = replicate (Z.to_nat (size / sz o / 8)) 0) as Hw.
  { intros o Ho. assert (o = 0 ∨ o = 1 ∨ o = 2 ∨ o = 3 ∨ o = 4 ∨ o = 5 ∨ o = 6) as Ho' by lia.
    destruct Ho' as [->|[->|[->|[->|[->|[->| ->]]]]]]; reflexivity. }
  split; [split; [split|]|].
  - split; [done|done|lia|]. intros o Ho. rewrite Hw, length_replicate by done.
    pose proof (sz_range o ltac:(lia)). pose proof (sz_mono o 6 ltac:(lia)) as H6. change (sz 6) with 262144 in H6.
    assert (8 ≤ size / sz o) by (apply Z.div_le_lower_bound; lia).
    pose proof (Z.mul_succ_div_gt size (sz o) ltac:(lia)).
    pose proof (Z.mul_succ_div_gt (size / sz o) 8 ltac:(lia)).
    assert (1 ≤ size / sz o / 8) by (apply Z.div_le_lower_bound; lia). nia.
  - split.
    + intros o a (-> & i & Hi & ->)%Hf. unfold block_ok. change (sz 7) with 524288.
      split_and!; [lia..|by exists i; lia|lia].
    + intros o. destruct (decide (o = 7)) as [->|Hne].
      * change (addrs (with_maps size h bm) 7) with (le_addr <$> h). rewrite Hh. unfold top_addrs.
        apply NoDup_fmap_2; [|apply NoDup_seq]. intros i j ?. lia.
      * replace (addrs _ o) with (@nil Z); [constructor|]. symmetry. apply elem_of_nil_inv.
        intros a (? & _)%Hf. done.
    + intros o a o' a' (-> & i & Hi & ->)%Hf (-> & j & Hj & ->)%Hf Hne. unfold separate.
      change (sz 7) with 524288. assert (i ≠ j) by congruence. lia.
  - intros o i Ho Hi. unfold buddy_bit. rewrite Hw by done.
    rewrite !bool_decide_eq_false_2 by (rewrite Hf; lia). cbn [xorb].
    unfold lookupZ. destruct (_ <? 0); [apply Z.testbit_0_l|].
    destruct (decide (Z.to_nat (i / 64) < Z.to_nat (size / sz o / 8))%nat).
    + rewrite lookup_replicate_2 by done. apply Z.testbit_0_l.
    + rewrite lookup_ge_None_2 by (rewrite length_replicate; lia). apply Z.testbit_0_l.
  - intros o i Ho [H1 _]. apply Hf in H1. lia.
  - intros x. unfold free_byte. setoid_rewrite Hf. unfold in_block. split.
    + intros (o & a & (-> & i & Hi & ->) & Hx). change (sz 7) with 524288 in Hx. lia.
    + intros Hx. exists 7, (524288 * (x / 524288)). change (sz 7) with 524288.
      pose proof (Z.mul_div_le x 524288 ltac:(lia)). pose proof (Z.mul_succ_div_gt x 524288 ltac:(lia)).
      split; [|lia]. split; [done|]. exists (x / 524288). split; [|done]. split; [apply Z.div_pos; lia|].
      apply Z.div_lt_upper_bound; lia.
Qed.

(** *** The whole of initialization *)


End FrameInit.
