(* ===== verification/PageEntry.v ===== *)
(** Page entries and virtual addresses: the bit fields of [PageEntry]
    (kernel/include/memory/paging.h), [set_flags], [GET_LEVEL_INDEX] and [SIGN_EXT_ADDR]
    (kernel/src/memory/paging.c). *)
From S2P Require Import Prelude Util MemState.

Module PageEntry.
Import Util.

(** ** The bit fields of a page entry *)

Definition present (e : Z) : bool := get_bits 0 1 e =? 1.
Definition write (e : Z) : bool := get_bits 1 1 e =? 1.
Definition user (e : Z) : bool := get_bits 2 1 e =? 1.
Definition write_through (e : Z) : bool := get_bits 3 1 e =? 1.
Definition cache_disable (e : Z) : bool := get_bits 4 1 e =? 1.
Definition phys_addr (e : Z) : Z := get_bits 12 40 e.
Definition prot (e : Z) : Z := get_bits 59 4 e.
Definition execute_disable (e : Z) : bool := get_bits 63 1 e =? 1.

Definition set_present (b : bool) (e : Z) : Z := set_bits 0 1 (Z.b2z b) e.
Definition set_write (b : bool) (e : Z) : Z := set_bits 1 1 (Z.b2z b) e.
Definition set_user (b : bool) (e : Z) : Z := set_bits 2 1 (Z.b2z b) e.
Definition set_write_through (b : bool) (e : Z) : Z := set_bits 3 1 (Z.b2z b) e.
Definition set_cache_disable (b : bool) (e : Z) : Z := set_bits 4 1 (Z.b2z b) e.
Definition set_phys_addr (p : Z) (e : Z) : Z := set_bits 12 40 p e.
Definition set_prot (p : Z) (e : Z) : Z := set_bits 59 4 p e.
Definition set_execute_disable (b : bool) (e : Z) : Z := set_bits 63 1 (Z.b2z b) e.

(** ** Flags *)

Definition PAGING_WRITABLE : Z := 1.
Definition PAGING_EXECUTABLE : Z := 2.
Definition PAGING_CACHE_DISABLE : Z := 4.
Definition PAGING_WRITE_THROUGH : Z := 8.

Definition has_flag (flags f : Z) : bool := negb (Z.land flags f =? 0).

(** [nx] is g_paging_execute_disable. *)
Definition set_flags (nx : bool) (flags : Z) (entry : Z) : Z :=
  let entry := set_write (has_flag flags PAGING_WRITABLE) entry in
  let entry := set_cache_disable (has_flag flags PAGING_CACHE_DISABLE) entry in
  let entry := set_write_through (has_flag flags PAGING_WRITE_THROUGH) entry in
  set_execute_disable (negb (has_flag flags PAGING_EXECUTABLE) && nx) entry.

(** What [map_range_helper] makes of the entry of a page. *)
Definition leaf_entry (nx : bool) (space_prot phys flags entry : Z) : Z :=
  let entry := set_phys_addr (Z.shiftr phys 12) entry in
  let entry := set_present true entry in
  let entry := set_flags nx flags entry in
  let entry := set_prot space_prot entry in
  set_user (space_prot =? 3) entry.

(** ** Virtual addresses *)

Definition PT : Z := 0.
Definition PD : Z := 1.
Definition PDP : Z := 2.
Definition PAGE_ENTRY_COUNT : Z := 512.
Definition PT_MEM_RANGE : Z := PAGE_SIZE * PAGE_ENTRY_COUNT.
Definition PD_MEM_RANGE : Z := PT_MEM_RANGE * PAGE_ENTRY_COUNT.
Definition PDP_MEM_RANGE : Z := PD_MEM_RANGE * PAGE_ENTRY_COUNT.
Definition OFFSET_INDEX_MASK : Z := 0x1ff.
Definition NON_EXT_ADDR_MASK : Z := 0xffffffffffff.
Definition KERNEL_PML4_OFFSET : Z := 480.
Definition KERNEL_OFFSET : Z := KERNEL_PML4_OFFSET * PDP_MEM_RANGE.

Definition GET_LEVEL_INDEX (addr level : Z) : Z :=
  let shift := 12 + 9 * level in
  Z.shiftr (Z.land addr (Z.shiftl OFFSET_INDEX_MASK shift)) shift.

Definition SIGN_EXT_ADDR (addr : Z) : Z :=
  Z.lor addr (Z.shiftl (Z.land (Z.shiftr addr 47) 1 * 0xffff) 48).

(** ** Properties *)

Lemma b2z_wrap b : (wrap 1 (Z.b2z b) =? 1) = b.
Proof. by destruct b. Qed.

Ltac entry_simpl :=
  unfold leaf_entry, set_flags, present, write, user, write_through, cache_disable, phys_addr, prot,
    execute_disable, set_present, set_write, set_user, set_write_through, set_cache_disable,
    set_phys_addr, set_prot, set_execute_disable in *;
  field_simpl; rewrite ?b2z_wrap.

(** The entry [map_range_helper] writes: present, pointing at the page, writable,
    cacheable and executable as the flags say (and executable in any case when the
    processor has no NX bit), and with the protection key of the address space, the
    user bit set exactly for key 3. *)
Theorem leaf_entry_fields nx space_prot phys flags entry :
  0 ≤ phys < 2 ^ 52 → 0 ≤ space_prot < 16 →
  let e := leaf_entry nx space_prot phys flags entry in
  present e = true ∧ phys_addr e = phys / 4096 ∧
  write e = has_flag flags PAGING_WRITABLE ∧
  cache_disable e = has_flag flags PAGING_CACHE_DISABLE ∧
  write_through e = has_flag flags PAGING_WRITE_THROUGH ∧
  execute_disable e = (negb (has_flag flags PAGING_EXECUTABLE) && nx) ∧
  prot e = space_prot ∧ user e = (space_prot =? 3).
Proof.
  intros Hp Hpr. cbv zeta. entry_simpl. rewrite Z.shiftr_div_pow2 by lia. change (2 ^ 12) with 4096.
  rewrite !wrap_small; [by split_and!|lia|].
  split; [apply Z.div_pos; lia|]. apply Z.div_lt_upper_bound; lia.
Qed.

Lemma leaf_entry_fields_witness :
  let e := leaf_entry true 3 0x7000 PAGING_WRITABLE 0 in
  e = 0x9800000000007007 ∧
  present e = true ∧ phys_addr e = 0x7000 / 4096 ∧
  write e = has_flag PAGING_WRITABLE PAGING_WRITABLE ∧
  cache_disable e = has_flag PAGING_WRITABLE PAGING_CACHE_DISABLE ∧
  write_through e = has_flag PAGING_WRITABLE PAGING_WRITE_THROUGH ∧
  execute_disable e = (negb (has_flag PAGING_WRITABLE PAGING_EXECUTABLE) && true) ∧
  prot e = 3 ∧ user e = (3 =? 3).
Proof. split; [reflexivity|]. apply (leaf_entry_fields true 3 0x7000 PAGING_WRITABLE 0); lia. Defined.

Lemma level_index addr level :
  0 ≤ level → GET_LEVEL_INDEX addr level = addr / 2 ^ (12 + 9 * level) mod 512.
Proof.
  intros Hl. unfold GET_LEVEL_INDEX, OFFSET_INDEX_MASK.
  rewrite Z.shiftr_land, Z.shiftr_shiftl_l, Z.sub_diag, Z.shiftl_0_r by lia.
  change 0x1ff with (Z.ones 9). rewrite Z.land_ones, Z.shiftr_div_pow2 by lia. done.
Qed.

Lemma level_index_range addr level : 0 ≤ level → 0 ≤ GET_LEVEL_INDEX addr level < 512.
Proof. intros Hl. rewrite level_index by done. by apply Z.mod_pos_bound. Qed.

(** The three indices and the offset identify an address inside its PML4 entry. *)
Definition page_of (addr : Z) : Z := addr / 4096 mod 2 ^ 27.

Lemma indices_page addr :
  page_of addr =
    (GET_LEVEL_INDEX addr PDP * 512 + GET_LEVEL_INDEX addr PD) * 512 + GET_LEVEL_INDEX addr PT.
Proof.
  rewrite !level_index by (unfold PDP, PD, PT; lia). unfold page_of, PDP, PD, PT.
  change (12 + 9 * 0) with 12. change (12 + 9 * 1) with (12 + 9). change (12 + 9 * 2) with (12 + 9 + 9).
  rewrite !(Z.pow_add_r 2 (12 + 9)), !(Z.pow_add_r 2 12) by lia.
  rewrite <- !Z.div_div by lia. change (2 ^ 12) with 4096. change (2 ^ 9) with 512.
  generalize (addr / 4096). intros p. change (2 ^ 27) with (512 * (512 * 512)).
  rewrite Z.rem_mul_r by lia. rewrite Z.rem_mul_r by lia. lia.
Qed.

Lemma page_of_inj addr addr' :
  page_of addr = page_of addr' ↔
  GET_LEVEL_INDEX addr PDP = GET_LEVEL_INDEX addr' PDP ∧
  GET_LEVEL_INDEX addr PD = GET_LEVEL_INDEX addr' PD ∧
  GET_LEVEL_INDEX addr PT = GET_LEVEL_INDEX addr' PT.
Proof.
  rewrite !indices_page.
  pose proof (level_index_range addr PDP). pose proof (level_index_range addr' PDP).
  pose proof (level_index_range addr PD). pose proof (level_index_range addr' PD).
  pose proof (level_index_range addr PT). pose proof (level_index_range addr' PT).
  unfold PDP, PD, PT in *. lia.
Qed.

(** A canonical address is left alone, and an address cut down to 48 bits is restored. *)
Definition canonical (a : Z) : Prop := 0 ≤ a < 2 ^ 47 ∨ 2 ^ 64 - 2 ^ 47 ≤ a < 2 ^ 64.

Lemma sign_ext_eq a : 0 ≤ a < 2 ^ 48 → SIGN_EXT_ADDR a = if a <? 2 ^ 47 then a else a + (2 ^ 64 - 2 ^ 48).
Proof.
  intros Ha. unfold SIGN_EXT_ADDR. change 1 with (Z.ones 1) at 1.
  rewrite Z.land_ones, Z.shiftr_div_pow2 by lia. destruct (Z.ltb_spec a (2 ^ 47)).
  - rewrite Z.div_small by lia. cbn. by rewrite Z.lor_0_r.
  - replace (a / 2 ^ 47) with 1 by (apply Z.div_unique with (a - 2 ^ 47); lia).
    change (1 mod 2 ^ 1 * 65535) with 65535.
    pose proof (Z.add_lor_land a (65535 ≪ 48)) as E.
    enough (Z.land a (65535 ≪ 48) = 0) as E0.
    { rewrite E0, Z.shiftl_mul_pow2 in E by lia. rewrite Z.shiftl_mul_pow2 by lia. lia. }
    apply Z.bits_inj'. intros i Hi. rewrite Z.land_spec, Z.bits_0, Z.shiftl_spec by lia.
    destruct (Z.ltb_spec i 48).
    + by rewrite (Z.testbit_neg_r _ (i - 48)), andb_false_r by lia.
    + by rewrite (bits_above 48 a) by lia.
Qed.

Lemma sign_ext_canonical a : canonical a → SIGN_EXT_ADDR (wrap 48 a) = a.
Proof.
  intros Ha. rewrite sign_ext_eq by by apply wrap_range. unfold wrap, canonical in *.
  destruct Ha as [Ha|Ha].
  - rewrite Z.mod_small by lia. replace (a <? 2 ^ 47) with true by lia. done.
  - replace (a mod 2 ^ 48) with (a - (2 ^ 64 - 2 ^ 48)).
    + replace (_ <? _) with false by lia. lia.
    + apply Z.mod_unique_pos with (2 ^ 16 - 1); lia.
Qed.

End PageEntry.
