(* ===== verification/AddressSpace.v ===== *)
(** Virtual address ranges of an address space: the free list and the bump pointer of
    kernel/src/memory/paging.c ([add_range_to_free_list], [alloc_addr_space],
    [claim_virt_range]).

    The nodes of the free list are a heap, because the code follows 48-bit next pointers
    and stores them back, with and without extending them. *)
From S2P Require Import Prelude Util MemState PageEntry.

Module AddressSpace.
Import Util Mem PageEntry.

(** ** Access to the paging state *)

Definition get_paging : KM PagingState := gets km_paging.

Definition modify_paging (f : PagingState → PagingState) : KM unit :=
  modify (λ s, set_paging (f (km_paging s)) s).

Definition with_spaces (m : gmap Z AddressSpace) (g : PagingState) : PagingState :=
  {| pg_spaces := m; pg_free_nodes := pg_free_nodes g; pg_tables := pg_tables g;
     pg_page_pool := pg_page_pool g; pg_pml4 := pg_pml4 g;
     pg_execute_disable := pg_execute_disable g; pg_invalidated := pg_invalidated g |}.
Definition with_free_nodes (m : gmap Z FreeListEntry) (g : PagingState) : PagingState :=
  {| pg_spaces := pg_spaces g; pg_free_nodes := m; pg_tables := pg_tables g;
     pg_page_pool := pg_page_pool g; pg_pml4 := pg_pml4 g;
     pg_execute_disable := pg_execute_disable g; pg_invalidated := pg_invalidated g |}.

Definition get_space (space : Z) : KM AddressSpace :=
  a ← gets (λ s, pg_spaces (km_paging s) !! space); of_option (BadPointer space) a.

Definition set_space (space : Z) (a : AddressSpace) : KM unit :=
  modify_paging (λ g, with_spaces (<[space := a]> (pg_spaces g)) g).

Definition set_current_address (v : Z) (a : AddressSpace) : AddressSpace :=
  {| as_current_address := v; as_pdp_index := as_pdp_index a; as_pdp := as_pdp a;
     as_prot := as_prot a; as_free_list := as_free_list a; as_entry_maps := as_entry_maps a |}.
Definition set_free_list (p : Z) (a : AddressSpace) : AddressSpace :=
  {| as_current_address := as_current_address a; as_pdp_index := as_pdp_index a;
     as_pdp := as_pdp a; as_prot := as_prot a; as_free_list := p;
     as_entry_maps := as_entry_maps a |}.

(** A read through a pointer to a free list node. *)
Definition get_node (p : Z) : KM FreeListEntry :=
  if p =? 0 then throw NullDeref
  else n ← gets (λ s, pg_free_nodes (km_paging s) !! p); of_option (BadPointer p) n.

Definition set_node (p : Z) (n : FreeListEntry) : KM unit :=
  modify_paging (λ g, with_free_nodes (<[p := n]> (pg_free_nodes g)) g).

Definition delete_node (p : Z) : KM unit :=
  modify_paging (λ g, with_free_nodes (delete p (pg_free_nodes g)) g).

(** The first address after an address space. *)
Definition space_limit (a : AddressSpace) : Z := u64 ((as_pdp_index a + 1) * PDP_MEM_RANGE).

Section operations.
Context `{!MemoryEntries}.

(** Put a node for [pages] pages from [virt_addr] on in front of the free list. *)
Definition push_free_range (space entry virt_addr pages : Z) : KM unit :=
  a ← get_space space;
  _ ← set_node entry {| fle_next := wrap 48 (as_free_list a);
                        fle_addr := wrap 36 (Z.shiftr virt_addr 12);
                        fle_pages := wrap 44 pages |};
  set_space space (set_free_list entry a).

Definition add_range_to_free_list (space virt_addr pages : Z) : KM unit :=
  entry ← get_memory_entry;
  push_free_range space entry virt_addr pages.

(** One node of the walk of [alloc_addr_space]: [inr (Some addr)] when it serves the
    request, [inr None] at the end of the list. *)
Definition alloc_addr_step (space pages : Z) (st : Z * Z) : KM (Z * Z + option Z) :=
  let '(last, entry) := st in
  if entry =? 0 then mret (inr None)
  else
    node ← get_node entry;
    let addr := u64 (Z.shiftl (fle_addr node) 12) in
    if pages <? fle_pages node then
      _ ← set_node entry {| fle_next := fle_next node;
                            fle_addr := wrap 36 (Z.shiftr (u64 (addr + u64 (pages * PAGE_SIZE))) 12);
                            fle_pages := wrap 44 (u64 (fle_pages node + pages)) |};
      mret (inr (Some (SIGN_EXT_ADDR addr)))
    else if fle_pages node =? pages then
      _ ← (if last =? 0 then
        a ← get_space space;
        set_space space (set_free_list (fle_next node) a)
      else
        last_node ← get_node last;
        set_node last {| fle_next := fle_next node; fle_addr := fle_addr last_node;
                         fle_pages := fle_pages last_node |});
      _ ← delete_node entry;
      _ ← free_memory_entry entry;
      mret (inr (Some (SIGN_EXT_ADDR addr)))
    else mret (inl (entry, SIGN_EXT_ADDR (fle_next node))).

Definition alloc_addr_space (space pages : Z) : KM Z :=
  a ← get_space space;
  g ← get_paging;
  found ← loop (S (S (size (pg_free_nodes g)))) (alloc_addr_step space pages) (0, as_free_list a);
  match found with
  | Some addr => mret addr
  | None =>
      a ← get_space space;
      let addr := as_current_address a in
      let a := set_current_address (u64 (addr + u64 (pages * PAGE_SIZE))) a in
      _ ← set_space space a;
      _ ← kernel_assert (as_current_address a <? space_limit a) "Out of address space";
      mret (SIGN_EXT_ADDR addr)
  end.

Definition claim_virt_range (space virt_addr pages : Z) : KM bool :=
  a ← get_space space;
  if as_current_address a <=? Z.land virt_addr NON_EXT_ADDR_MASK then
    if space_limit a <? u64 (virt_addr + u64 (pages * PAGE_SIZE)) then mret false
    else
      free_entry ← get_memory_entry;
      a ← get_space space;
      _ ← push_free_range space free_entry (as_current_address a)
            (u64 (virt_addr - as_current_address a) / PAGE_SIZE);
      a ← get_space space;
      _ ← set_space space (set_current_address
            (Z.land (u64 (virt_addr + u64 (pages * PAGE_SIZE))) NON_EXT_ADDR_MASK) a);
      mret true
  else mret false.
End operations.

(** ** What they do *)

Abbreviation pg := km_paging.

Lemma wp_get_space space a (Q : AddressSpace → kmem → Prop) s :
  pg_spaces (pg s) !! space = Some a → Q a s → wp (get_space space) Q s.
Proof. intros Ha HQ. unfold get_space. by wp_steps. Qed.

Lemma wp_set_space space a (Q : unit → kmem → Prop) s :
  Q tt (set_paging (with_spaces (<[space := a]> (pg_spaces (pg s))) (pg s)) s) →
  wp (set_space space a) Q s.
Proof. intros HQ. by apply wp_modify. Qed.

Lemma wp_get_node p n (Q : FreeListEntry → kmem → Prop) s :
  p ≠ 0 → pg_free_nodes (pg s) !! p = Some n → Q n s → wp (get_node p) Q s.
Proof.
  intros Hp Hn HQ. unfold get_node. replace (p =? 0) with false by lia. by wp_steps.
Qed.

(** The walk of [alloc_addr_space] finds nothing: no node is as large as the request. *)
Inductive free_chain (nodes : gmap Z FreeListEntry) : Z → list FreeListEntry → Prop :=
  | chain_nil : free_chain nodes 0 []
  | chain_cons p n l : p ≠ 0 → nodes !! p = Some n →
      free_chain nodes (SIGN_EXT_ADDR (fle_next n)) l → free_chain nodes p (n :: l).

Section properties.
Context `{!MemoryEntries, !MemoryEntriesSpec}.
Implicit Types (s : kmem).

Lemma wp_walk_none space pages last p l fuel (Q : option Z → kmem → Prop) s :
  free_chain (pg_free_nodes (pg s)) p l → Forall (λ n, fle_pages n < pages) l →
  (length l < fuel)%nat → Q None s →
  wp (loop fuel (alloc_addr_step space pages) (last, p)) Q s.
Proof.
  intros Hl. revert last fuel. induction Hl as [|p n l Hp Hn Hl IH]; intros last fuel Hs Hf HQ;
    (destruct fuel as [|fuel]; [cbn in Hf; lia|]); apply wp_loop_unroll; unfold alloc_addr_step at 1.
  - rewrite Z.eqb_refl. by wp_step.
  - apply Forall_cons in Hs as [Hsn Hs]. replace (p =? 0) with false by lia.
    wp_step. apply (wp_get_node _ n); [done..|].
    replace (pages <? fle_pages n) with false by lia. replace (fle_pages n =? pages) with false by lia.
    wp_step. apply IH; [done|cbn in Hf; lia|done].
Qed.

Lemma alloc_bump_eq space a l pages s :
  pg_spaces (pg s) !! space = Some a →
  free_chain (pg_free_nodes (pg s)) (as_free_list a) l →
  (length l ≤ size (pg_free_nodes (pg s)))%nat →
  Forall (λ n, fle_pages n < pages) l →
  0 ≤ as_current_address a → 0 ≤ pages → 0 ≤ as_pdp_index a < 512 →
  as_current_address a + pages * PAGE_SIZE < 2 ^ 64 →
  let a' := set_current_address (as_current_address a + pages * PAGE_SIZE) a in
  alloc_addr_space space pages s =
    if as_current_address a + pages * PAGE_SIZE <? (as_pdp_index a + 1) * PDP_MEM_RANGE
    then Ok (SIGN_EXT_ADDR (as_current_address a),
             set_paging (with_spaces (<[space := a']> (pg_spaces (pg s))) (pg s)) s)
    else Fault (AssertFailed "Out of address space").
Proof.
  intros Ha Hl Hlen Hsmall Hc Hp Hi Hmax a'. unfold PAGE_SIZE in *.
  destruct (wp_walk_none space pages 0 (as_free_list a) l (S (S (size (pg_free_nodes (pg s)))))
    (λ r s', r = None ∧ s' = s) s Hl Hsmall ltac:(lia) ltac:(done)) as (r & s' & E & -> & ->).
  unfold alloc_addr_space, mbind, M_bind.
  assert (get_space space s = Ok (a, s)) as Eg.
  { unfold get_space, mbind, M_bind, gets. by rewrite Ha. }
  rewrite Eg. unfold get_paging, gets. rewrite E, Eg.
  cbn -[wrap PDP_MEM_RANGE Z.mul Z.add]. unfold kernel_assert, space_limit.
  unfold PAGE_SIZE. rewrite (wrap_small 64 (pages * 4096)) by lia. rewrite (wrap_small 64) by lia.
  cbn -[wrap PDP_MEM_RANGE Z.mul Z.add].
  rewrite (wrap_small 64) by (change PDP_MEM_RANGE with (2 ^ 39); lia). subst a'.
  by destruct (_ <? _).
Qed.

(** When no free range is as large as the request, [alloc_addr_space] hands out the
    addresses at the bump pointer and moves it past them, and nothing else changes; the
    kernel stops when that would leave the PML4 entry of the address space. *)
Theorem alloc_addr_space_bump space a l pages s :
  pg_spaces (pg s) !! space = Some a →
  free_chain (pg_free_nodes (pg s)) (as_free_list a) l →
  (length l ≤ size (pg_free_nodes (pg s)))%nat →
  Forall (λ n, fle_pages n < pages) l →
  0 ≤ as_current_address a → 0 ≤ pages → 0 ≤ as_pdp_index a < 512 →
  as_current_address a + pages * PAGE_SIZE < 2 ^ 64 →
  let a' := set_current_address (as_current_address a + pages * PAGE_SIZE) a in
  alloc_addr_space space pages s =
    if as_current_address a + pages * PAGE_SIZE <? (as_pdp_index a + 1) * PDP_MEM_RANGE
    then Ok (SIGN_EXT_ADDR (as_current_address a),
             set_paging (with_spaces (<[space := a']> (pg_spaces (pg s))) (pg s)) s)
    else Fault (AssertFailed "Out of address space").
Proof. apply alloc_bump_eq. Qed.

(** A range given to the free list is what the next request of its size gets, and
    the free list is then what it was, its head cut down to 48 bits. *)
Theorem addr_space_reuse space a virt_addr pages s :
  pg_spaces (pg s) !! space = Some a →
  canonical virt_addr → (4096 | virt_addr) → 0 ≤ pages < 2 ^ 44 →
  (∀ e s', get_memory_entry s = Ok (e, s') → e ≠ 0 ∧ pg_free_nodes (pg s) !! e = None) →
  0 < stock s → 0 ≤ room s →
  wp (_ ← add_range_to_free_list space virt_addr pages; alloc_addr_space space pages) (λ v s',
    v = virt_addr ∧
    pg s' = with_spaces (<[space := set_free_list (wrap 48 (as_free_list a)) a]> (pg_spaces (pg s))) (pg s)) s.
Proof.
  intros Ha Hcan [k Hk] Hp Hfresh Hst Hroom. unfold add_range_to_free_list, push_free_range.
  wp_step. wp_step.
  destruct (get_memory_entry_spec s Hst) as (e & p & He & Hst' & Hroom').
  destruct (Hfresh e _ He) as [He0 Hen].
  exists e, (set_pool p s). split; [exact He|].
  wp_step. apply (wp_get_space _ a); [done|]. unfold set_node, modify_paging.
  do 2 wp_step. apply wp_set_space. cbn [km_paging set_paging set_pool pg_spaces with_free_nodes].
  set (n := {| fle_next := wrap 48 (as_free_list a); fle_addr := _; fle_pages := _ |}).
  unfold alloc_addr_space. set (s1 := set_paging _ _).
  wp_step. apply (wp_get_space _ (set_free_list e a)).
  { cbn. by rewrite lookup_insert_eq. }
  unfold get_paging. do 2 wp_step. wp_step. apply wp_loop_unroll. unfold alloc_addr_step at 1.
  cbn [as_free_list set_free_list]. replace (e =? 0) with false by lia.
  wp_step. apply (wp_get_node _ n); [done|cbn; by rewrite lookup_insert_eq|].
  assert (fle_pages n = pages) as -> by (cbn; by apply wrap_small).
  rewrite Z.ltb_irrefl, Z.eqb_refl. cbn [Z.eqb].
  do 2 wp_step. apply (wp_get_space _ (set_free_list e a)); [cbn; by rewrite lookup_insert_eq|].
  apply wp_set_space. unfold delete_node, modify_paging. do 2 wp_step.
  assert (∀ g, room (set_paging g (set_pool p s)) = room s + 1) as Hr.
  { intros g. rewrite room_paging. lia. }
  wp_step. set (s2 := set_paging _ _).
  destruct (free_memory_entry_spec e s2) as (p2 & Hfe & _ & _).
  { subst s2 s1. rewrite !room_paging. lia. }
  exists tt, (set_pool p2 s2). split; [exact Hfe|]. do 2 wp_step. split.
  - assert (0 ≤ fle_addr n < 2 ^ 36) by by apply wrap_range.
    rewrite Z.shiftl_mul_pow2, (wrap_small 64) by lia. cbn [fle_addr n].
    rewrite Z.shiftr_div_pow2 by lia.
    replace (wrap 36 (virt_addr / 2 ^ 12) * 2 ^ 12) with (wrap 48 virt_addr); [by apply sign_ext_canonical|].
    unfold wrap. rewrite Hk. change (2 ^ 48) with (2 ^ 36 * 2 ^ 12). change 4096 with (2 ^ 12).
    by rewrite Z.div_mul, Z.mul_mod_distr_r by lia.
  - cbn. unfold with_free_nodes, with_spaces. cbn.
    rewrite !insert_insert_eq, delete_insert_id by done. done.
Qed.

(** The first node is larger than the request. *)
Lemma wp_alloc_split space a p n pages (Q : Z → kmem → Prop) s :
  pg_spaces (pg s) !! space = Some a → as_free_list a = p → p ≠ 0 →
  pg_free_nodes (pg s) !! p = Some n → 0 ≤ fle_addr n < 2 ^ 36 → 0 ≤ pages < fle_pages n →
  fle_addr n + pages < 2 ^ 36 → fle_pages n + pages < 2 ^ 44 →
  Q (SIGN_EXT_ADDR (fle_addr n * 4096))
    (set_paging (with_free_nodes (<[p := {| fle_next := fle_next n; fle_addr := fle_addr n + pages;
      fle_pages := fle_pages n + pages |}]> (pg_free_nodes (pg s))) (pg s)) s) →
  wp (alloc_addr_space space pages) Q s.
Proof.
  intros Ha Hp Hp0 Hn Hna Hpages Hend Hmax HQ. unfold alloc_addr_space.
  wp_step. apply (wp_get_space _ a); [done|]. unfold get_paging. do 2 wp_step.
  wp_step. apply wp_loop_unroll. unfold alloc_addr_step at 1. rewrite Hp.
  replace (p =? 0) with false by lia. wp_step. apply (wp_get_node _ n); [done..|].
  replace (pages <? fle_pages n) with true by lia. unfold set_node, modify_paging.
  do 2 wp_step. do 2 wp_step. change PAGE_SIZE with 4096.
  rewrite Z.shiftl_mul_pow2 by lia. change (2 ^ 12) with 4096.
  rewrite (wrap_small 64 (fle_addr n * 4096)) by lia.
  rewrite (wrap_small 64 (pages * 4096)) by lia. rewrite !(wrap_small 64) by lia.
  rewrite Z.shiftr_div_pow2 by lia. change (2 ^ 12) with 4096.
  rewrite <- Z.mul_add_distr_r, Z.div_mul by lia. by rewrite !wrap_small by lia.
Qed.

(** The first node is exactly as large as the request. *)
Lemma wp_alloc_exact space a p n pages (Q : Z → kmem → Prop) s :
  pg_spaces (pg s) !! space = Some a → as_free_list a = p → p ≠ 0 →
  pg_free_nodes (pg s) !! p = Some n → fle_pages n = pages → 0 ≤ fle_addr n < 2 ^ 36 → 0 < room s →
  (∀ s', pg s' = with_free_nodes (delete p (pg_free_nodes (pg s)))
                   (with_spaces (<[space := set_free_list (fle_next n) a]> (pg_spaces (pg s))) (pg s)) →
     Q (SIGN_EXT_ADDR (fle_addr n * 4096)) s') →
  wp (alloc_addr_space space pages) Q s.
Proof.
  intros Ha Hp Hp0 Hn Hpages Hna Hroom HQ. unfold alloc_addr_space.
  wp_step. apply (wp_get_space _ a); [done|]. unfold get_paging. do 2 wp_step.
  wp_step. apply wp_loop_unroll. unfold alloc_addr_step at 1. rewrite Hp.
  replace (p =? 0) with false by lia. wp_step. apply (wp_get_node _ n); [done..|].
  rewrite Hpages, Z.ltb_irrefl, Z.eqb_refl. cbn [Z.eqb].
  do 2 wp_step. apply (wp_get_space _ a); [done|].
  apply wp_set_space. unfold delete_node, modify_paging. do 2 wp_step.
  wp_step. set (s2 := set_paging _ _).
  destruct (free_memory_entry_spec p s2) as (p2 & Hfe & _ & _).
  { subst s2. by rewrite !room_paging. }
  exists tt, (set_pool p2 s2). split; [exact Hfe|]. do 2 wp_step.
  rewrite Z.shiftl_mul_pow2 by lia. change (2 ^ 12) with 4096. rewrite (wrap_small 64) by lia.
  by apply HQ.
Qed.

(** C37: handing out part of a free range makes the rest of it larger instead of smaller:
    a second request then gets addresses up to [k] pages beyond the old end of the
    range twice over, which nobody gave back. *)
Theorem alloc_addr_space_overlap space a p A n k s :
  pg_spaces (pg s) !! space = Some a → as_free_list a = p → p ≠ 0 →
  pg_free_nodes (pg s) !! p = Some {| fle_next := 0; fle_addr := A; fle_pages := n |} →
  0 ≤ A → 0 < k < n → A + n + 2 * k < 2 ^ 36 → 0 < room s →
  wp (v1 ← alloc_addr_space space k; v2 ← alloc_addr_space space (n + k); mret (v1, v2))
    (λ '(v1, v2) _, v1 = SIGN_EXT_ADDR (A * 4096) ∧ v2 = SIGN_EXT_ADDR ((A + k) * 4096) ∧
       (* the end of the second range against the end of the free one *)
       A + n < (A + k) + (n + k)) s.
Proof.
  intros Ha Hp Hp0 Hn HA Hk Hmax Hroom.
  wp_step. eapply wp_alloc_split; [done..|cbn; lia|cbn; lia|cbn; lia|cbn; lia|]. cbn [fle_next fle_addr fle_pages].
  wp_step. eapply wp_alloc_exact; [done|exact Hp|done|cbn; by rewrite lookup_insert_eq|done|cbn; lia|by rewrite room_paging|].
  intros s' _. wp_step. split_and!; [done|done|lia].
Qed.

(** When a request is served by the whole first range of a free list with a second
    range, the head of the list becomes the 48-bit pointer the node held; for a node in
    the upper half of the address space, where the pool is, that is not an address, and
    the next request faults on it. *)
Theorem alloc_addr_space_truncated_head space a p n q s :
  pg_spaces (pg s) !! space = Some a → as_free_list a = p → p ≠ 0 →
  pg_free_nodes (pg s) !! p = Some n → fle_next n = wrap 48 q → wrap 48 q ≠ 0 →
  pg_free_nodes (pg s) !! wrap 48 q = None →
  0 ≤ fle_addr n < 2 ^ 36 → 0 < room s →
  wp (alloc_addr_space space (fle_pages n)) (λ _ s',
    ∀ pages, alloc_addr_space space pages s' = Fault (BadPointer (wrap 48 q))) s.
Proof.
  intros Ha Hp Hp0 Hn Hq Hq0 Hnone Hna Hroom. eapply wp_alloc_exact; [done..|].
  intros s' Hpg pages. unfold alloc_addr_space.
  assert (get_space space s' = Ok (set_free_list (fle_next n) a, s')) as Eg.
  { unfold get_space, mbind, M_bind, gets. rewrite Hpg. cbn. by rewrite lookup_insert_eq. }
  assert (get_node (wrap 48 q) s' = Fault (BadPointer (wrap 48 q))) as En.
  { unfold get_node. replace (wrap 48 q =? 0) with false by lia. unfold mbind, M_bind, gets.
    rewrite Hpg. cbn [pg_free_nodes with_free_nodes].
    assert (delete p (pg_free_nodes (pg s)) !! wrap 48 q = None) as Hd by (apply lookup_delete_None; by right).
    by rewrite Hd. }
  assert (alloc_addr_step space pages (0, wrap 48 q) s' = Fault (BadPointer (wrap 48 q))) as Es.
  { unfold alloc_addr_step. replace (wrap 48 q =? 0) with false by lia. unfold mbind, M_bind. by rewrite En. }
  unfold mbind, M_bind. rewrite Eg. unfold get_paging, gets. cbn [loop as_free_list set_free_list].
  unfold mbind, M_bind. by rewrite Hq, Es.
Qed.

(** [claim_virt_range] succeeds exactly for ranges from the bump pointer on that end
    inside the PML4 entry; it then gives the addresses it skips to the free list and
    moves the pointer to the end of the range. *)
Theorem claim_virt_range_spec space a virt_addr pages s :
  pg_spaces (pg s) !! space = Some a → 0 < stock s →
  0 ≤ as_pdp_index a < 256 → 0 ≤ as_current_address a < 2 ^ 48 → (4096 | as_current_address a) →
  0 ≤ virt_addr < 2 ^ 48 → (4096 | virt_addr) → 0 ≤ pages < 2 ^ 44 →
  virt_addr + pages * PAGE_SIZE < 2 ^ 48 →
  wp (claim_virt_range space virt_addr pages) (λ b s',
    b = bool_decide (as_current_address a ≤ virt_addr ∧
                     virt_addr + pages * PAGE_SIZE ≤ (as_pdp_index a + 1) * PDP_MEM_RANGE) ∧
    if b then ∃ e,
      pg_free_nodes (pg s') = <[e := {| fle_next := wrap 48 (as_free_list a);
        fle_addr := as_current_address a / 4096;
        fle_pages := (virt_addr - as_current_address a) / 4096 |}]> (pg_free_nodes (pg s)) ∧
      pg_spaces (pg s') !! space =
        Some (set_free_list e (set_current_address (virt_addr + pages * PAGE_SIZE) a))
    else pg s' = pg s) s.
Proof.
  intros Ha Hst Hi Hc [kc Hkc] Hv [kv Hkv] Hp Hend. unfold claim_virt_range, PAGE_SIZE in *.
  wp_step. apply (wp_get_space _ a); [done|].
  assert (∀ x, 0 ≤ x < 2 ^ 48 → Z.land x NON_EXT_ADDR_MASK = x) as Hland.
  { intros x Hx. change NON_EXT_ADDR_MASK with (Z.ones 48). rewrite Z.land_ones by lia.
    by apply Z.mod_small. }
  rewrite Hland by done. unfold space_limit. change PDP_MEM_RANGE with (2 ^ 39).
  rewrite (wrap_small 64 (pages * 4096)) by lia. rewrite (wrap_small 64 (virt_addr + _)) by lia.
  rewrite (wrap_small 64 ((as_pdp_index a + 1) * _)) by lia.
  destruct (Z.leb_spec (as_current_address a) virt_addr) as [Hle|Hgt].
  2: { wp_step. split; [|done]. symmetry. apply bool_decide_eq_false_2. lia. }
  destruct (Z.ltb_spec ((as_pdp_index a + 1) * 2 ^ 39) (virt_addr + pages * 4096)).
  { wp_step. split; [|done]. symmetry. apply bool_decide_eq_false_2. lia. }
  wp_step. destruct (get_memory_entry_spec s Hst) as (e & p & He & _).
  exists e, (set_pool p s). split; [exact He|].
  wp_step. apply (wp_get_space _ a); [done|]. unfold push_free_range.
  do 2 wp_step. apply (wp_get_space _ a); [done|]. unfold set_node, modify_paging. do 2 wp_step.
  apply wp_set_space. wp_step. eapply wp_get_space; [cbn; by rewrite lookup_insert_eq|].
  wp_step. apply wp_set_space. wp_step.
  rewrite bool_decide_eq_true_2 by lia. split; [done|]. exists e. cbn -[wrap].
  rewrite lookup_insert_eq. rewrite (wrap_small 64) by lia.
  rewrite Z.shiftr_div_pow2 by lia. change (2 ^ 12) with 4096.
  assert (0 ≤ as_current_address a / 4096 < 2 ^ 36).
  { split; [apply Z.div_pos; lia|apply Z.div_lt_upper_bound; lia]. }
  assert (0 ≤ (virt_addr - as_current_address a) / 4096 < 2 ^ 44).
  { split; [apply Z.div_pos; lia|apply Z.div_lt_upper_bound; lia]. }
  rewrite (wrap_small 36), (wrap_small 44) by lia. split; [done|].
  by rewrite Hland by lia.
Qed.
End properties.

End AddressSpace.
