(* ===== verification/Paging.v ===== *)
(** Page tables: kernel/src/memory/paging.c, from [get_page_entries] on.

    A page of page entries is an array of 512 words at the virtual address the kernel
    reaches it at; the lists entry_maps[PD] and entry_maps[PT] of an address space give
    the virtual page for the physical page an entry holds. Getting a new page of entries
    for the kernel may map more memory into the kernel's address space, which again needs
    page entries: [kmap_allocation] and [kmap_phys_range] are arguments here and tied in
    Memory.v. *)
From S2P Require Import Prelude Util MemState PageEntry AddressSpace FrameAllocator.

Module Paging.
Import Util Mem PageEntry AddressSpace FrameAllocator.

Definition PAGE_POOL_THRESHOLD : Z := 10.

(** The address of g_kernel_space, the identity of the kernel's address space. *)
Definition g_kernel_space : Z := 0.

(** ** Access to pages of entries *)

Definition with_tables (m : gmap Z (list Z)) (g : PagingState) : PagingState :=
  {| pg_spaces := pg_spaces g; pg_free_nodes := pg_free_nodes g; pg_tables := m;
     pg_page_pool := pg_page_pool g; pg_pml4 := pg_pml4 g;
     pg_execute_disable := pg_execute_disable g; pg_invalidated := pg_invalidated g |}.
Definition with_page_pool (p : PagePool) (g : PagingState) : PagingState :=
  {| pg_spaces := pg_spaces g; pg_free_nodes := pg_free_nodes g; pg_tables := pg_tables g;
     pg_page_pool := p; pg_pml4 := pg_pml4 g;
     pg_execute_disable := pg_execute_disable g; pg_invalidated := pg_invalidated g |}.
Definition with_pml4 (l : list Z) (g : PagingState) : PagingState :=
  {| pg_spaces := pg_spaces g; pg_free_nodes := pg_free_nodes g; pg_tables := pg_tables g;
     pg_page_pool := pg_page_pool g; pg_pml4 := l;
     pg_execute_disable := pg_execute_disable g; pg_invalidated := pg_invalidated g |}.
Definition with_invalidated (l : list Z) (g : PagingState) : PagingState :=
  {| pg_spaces := pg_spaces g; pg_free_nodes := pg_free_nodes g; pg_tables := pg_tables g;
     pg_page_pool := pg_page_pool g; pg_pml4 := pg_pml4 g;
     pg_execute_disable := pg_execute_disable g; pg_invalidated := l |}.

Definition get_table (ptr : Z) : KM (list Z) :=
  if ptr =? 0 then throw NullDeref
  else t ← gets (λ s, pg_tables (km_paging s) !! ptr); of_option (BadPointer ptr) t.

(** [ptr[index]]. *)
Definition get_entry (ptr index : Z) : KM Z :=
  t ← get_table ptr; of_option OutOfBounds (lookupZ t index).

Definition set_entry (ptr index e : Z) : KM unit :=
  t ← get_table ptr;
  modify_paging (λ g, with_tables (<[ptr := insertZ index e t]> (pg_tables g)) g).

(** memset(ptr, 0, PAGE_SIZE) *)
Definition clear_page (ptr : Z) : KM unit :=
  modify_paging (λ g, with_tables (<[ptr := replicate 512 0]> (pg_tables g)) g).

Definition invlpg (virt_addr : Z) : KM unit :=
  modify_paging (λ g, with_invalidated (virt_addr :: pg_invalidated g) g).

Definition get_entry_map (space level : Z) : KM (list MappingEntry) :=
  a ← get_space space; of_option OutOfBounds (lookupZ (as_entry_maps a) level).

Definition set_entry_maps (m : list (list MappingEntry)) (a : AddressSpace) : AddressSpace :=
  {| as_current_address := as_current_address a; as_pdp_index := as_pdp_index a;
     as_pdp := as_pdp a; as_prot := as_prot a; as_free_list := as_free_list a;
     as_entry_maps := m |}.

(** [m->next = entry_maps[level]; entry_maps[level] = m] *)
Definition push_mapping (space level : Z) (m : MappingEntry) : KM unit :=
  a ← get_space space;
  l ← of_option OutOfBounds (lookupZ (as_entry_maps a) level);
  set_space space (set_entry_maps (insertZ level (m :: l) (as_entry_maps a)) a).

(** ** Walking the tables *)

Definition mapping_ptr (m : MappingEntry) : Z := SIGN_EXT_ADDR (u64 (Z.shiftl (me_virt_addr m) 12)).

(** The page of entries an entry refers to, or 0. *)
Definition find_entries (maps : list MappingEntry) (entry : Z) : Z :=
  match find_split (λ m, me_phys_addr m =? phys_addr entry) maps with
  | Some (_, m, _) => mapping_ptr m
  | None => 0
  end.

Definition get_page_entries (space entry level : Z) : KM Z :=
  maps ← get_entry_map space level; mret (find_entries maps entry).

Record PageTableLocation := { pd_index : Z; pd : Z; pt_index : Z; pt : Z }.

Definition virt_to_phys_addr (space virt_addr : Z) : KM (option Z) :=
  a ← get_space space;
  e ← get_entry (as_pdp a) (GET_LEVEL_INDEX virt_addr PDP);
  pd ← get_page_entries space e PD;
  if pd =? 0 then mret None
  else
    e ← get_entry pd (GET_LEVEL_INDEX virt_addr PD);
    pt ← get_page_entries space e PT;
    if pt =? 0 then mret None
    else
      e ← get_entry pt (GET_LEVEL_INDEX virt_addr PT);
      if present e then mret (Some (Z.lor (u64 (Z.shiftl (phys_addr e) 12)) (Z.land virt_addr 0xfff)))
      else mret None.

(** __builtin_popcountll *)
Definition popcount (x : Z) : Z :=
  foldr (λ i n, Z.b2z (Z.testbit x (Z.of_nat i)) + n) 0 (seq 0 64).

Section paging.
Context `{!MemoryEntries}.
Context (kmap_allocation : list PageFrameAllocation → Z → KM Z).
Context (kmap_phys_range : Z → Z → Z → KM Z).

(** ** New pages of entries *)

(** Add [pages] pages from [virt_addr], [phys_addr] on to the pool. *)
Fixpoint add_pool_pages (pages : nat) (virt_addr phys_addr : Z) : KM unit :=
  match pages with
  | O => mret tt
  | S pages =>
      entry ← get_memory_entry;
      _ ← modify_paging (λ g, with_page_pool
        {| pp_count := pp_count (pg_page_pool g);
           pp_head := {| me_ptr := entry; me_virt_addr := wrap 36 (Z.shiftr virt_addr 12);
                         me_phys_addr := wrap 38 (Z.shiftr phys_addr 12) |}
                      :: pp_head (pg_page_pool g) |} g);
      add_pool_pages pages (u64 (virt_addr + PAGE_SIZE)) (u64 (phys_addr + PAGE_SIZE))
  end.

Fixpoint add_pool_allocation (allocation : list PageFrameAllocation) (virt_addr : Z) : KM unit :=
  match allocation with
  | [] => mret tt
  | a :: allocation =>
      size ← get_frame_order_size (pfa_order a);
      _ ← add_pool_pages (Z.to_nat (size / PAGE_SIZE)) virt_addr (pfa_addr a);
      _ ← free_memory_entry (pfa_ptr a);
      add_pool_allocation allocation (u64 (virt_addr + size / PAGE_SIZE * PAGE_SIZE))
  end.

Definition set_pool_count (f : Z → Z) : KM unit :=
  modify_paging (λ g, with_page_pool
    {| pp_count := u64 (f (pp_count (pg_page_pool g))); pp_head := pp_head (pg_page_pool g) |} g).

Definition refill_page_pool : KM unit :=
  g ← get_paging;
  if pp_count (pg_page_pool g) <=? PAGE_POOL_THRESHOLD then
    (* Adjust pool count beforehand to avoid getting stuck in an infinite loop *)
    _ ← set_pool_count (λ c, c + PAGE_POOL_THRESHOLD);
    allocation ← alloc_frames PAGE_POOL_THRESHOLD;
    _ ← kernel_assert (negb (is_null allocation)) "Out of memory";
    virt_addr ← kmap_allocation allocation PAGING_WRITABLE;
    add_pool_allocation allocation virt_addr
  else mret tt.

Definition take_pool_page : KM MappingEntry :=
  g ← get_paging;
  match pp_head (pg_page_pool g) with
  | [] => throw NullDeref
  | pool_entry :: next =>
      _ ← modify_paging (with_page_pool
            {| pp_count := u64 (pp_count (pg_page_pool g) - 1); pp_head := next |});
      mret pool_entry
  end.

(** [entry] is [&ptr[index]]. *)
Definition get_or_alloc_page_entries (space ptr index level : Z) : KM Z :=
  e ← get_entry ptr index;
  if present e then get_page_entries space e level
  else if space =? g_kernel_space then
    _ ← refill_page_pool;
    pool_entry ← take_pool_page;
    _ ← push_mapping space level pool_entry;
    e ← get_entry ptr index;
    _ ← set_entry ptr index (set_write true (set_present true (set_phys_addr (me_phys_addr pool_entry) e)));
    let entries := mapping_ptr pool_entry in
    _ ← clear_page entries;
    mret entries
  else
    r ← alloc_frames_contiguos 1;
    match r with
    | None => throw (AssertFailed "Out of memory")
    | Some phys_addr =>
        a ← get_space space;
        e ← get_entry ptr index;
        _ ← set_entry ptr index
              (set_user (as_prot a =? 3) (set_prot (as_prot a) (set_write true
                (set_present true (set_phys_addr (Z.shiftr phys_addr 12) e)))));
        virt_addr ← kmap_phys_range phys_addr 1 PAGING_WRITABLE;
        _ ← clear_page virt_addr;
        mapping_entry ← get_memory_entry;
        _ ← push_mapping space level
              {| me_ptr := mapping_entry; me_virt_addr := wrap 36 (Z.shiftr virt_addr 12);
                 me_phys_addr := wrap 38 (Z.shiftr phys_addr 12) |};
        mret virt_addr
    end.

(** [alloc_entries ? get_or_alloc_page_entries : get_page_entries] *)
Definition page_entries (alloc_entries : bool) (space ptr index level : Z) : KM Z :=
  if alloc_entries then get_or_alloc_page_entries space ptr index level
  else e ← get_entry ptr index; get_page_entries space e level.

Definition populate_page_table_location (space virt_addr : Z) (alloc_entries : bool)
    : KM PageTableLocation :=
  let pd_index := GET_LEVEL_INDEX virt_addr PDP in
  a ← get_space space;
  pd ← page_entries alloc_entries space (as_pdp a) pd_index PD;
  let pt_index := GET_LEVEL_INDEX virt_addr PD in
  pt ← page_entries alloc_entries space pd pt_index PT;
  mret {| pd_index := pd_index; pd := pd; pt_index := pt_index; pt := pt |}.

Definition page_table_traversal_helper (space virt_addr : Z) (location : PageTableLocation)
    (alloc_entries : bool) : KM PageTableLocation :=
  let new_pd_index := GET_LEVEL_INDEX virt_addr PDP in
  let new_pt_index := GET_LEVEL_INDEX virt_addr PD in
  if negb (new_pd_index =? pd_index location) then
    a ← get_space space;
    pd ← page_entries alloc_entries space (as_pdp a) new_pd_index PD;
    _ ← kernel_assert (negb (pd =? 0)) "PD not present";
    pt ← page_entries alloc_entries space pd 0 PT;
    _ ← kernel_assert (negb (pt =? 0)) "PT not present";
    mret {| pd_index := new_pd_index; pd := pd; pt_index := 0; pt := pt |}
  else if negb (new_pt_index =? pt_index location) then
    pt ← page_entries alloc_entries space (pd location) new_pt_index PT;
    _ ← kernel_assert (negb (pt =? 0)) "PT not present";
    mret {| pd_index := pd_index location; pd := pd location; pt_index := new_pt_index; pt := pt |}
  else mret location.

(** ** Mapping *)

Definition map_page (space virt_addr phys_addr flags : Z) (location : PageTableLocation) : KM unit :=
  let index := GET_LEVEL_INDEX virt_addr PT in
  e ← get_entry (pt location) index;
  a ← get_space space;
  g ← get_paging;
  _ ← set_entry (pt location) index
        (leaf_entry (pg_execute_disable g) (as_prot a) phys_addr flags e);
  invlpg virt_addr.

Fixpoint map_range_helper (space virt_addr phys_addr : Z) (pages : nat) (flags : Z)
    (location : PageTableLocation) : KM PageTableLocation :=
  match pages with
  | O => mret location
  | S pages =>
      location ← page_table_traversal_helper space virt_addr location true;
      _ ← map_page space virt_addr phys_addr flags location;
      map_range_helper space (u64 (virt_addr + PAGE_SIZE)) (u64 (phys_addr + PAGE_SIZE)) pages
        flags location
  end.

Fixpoint map_blocks (space virt_addr : Z) (allocation : list PageFrameAllocation) (flags : Z)
    (location : PageTableLocation) : KM unit :=
  match allocation with
  | [] => mret tt
  | a :: allocation =>
      size ← get_frame_order_size (pfa_order a);
      location ← map_range_helper space virt_addr (pfa_addr a) (Z.to_nat (size / PAGE_SIZE)) flags location;
      map_blocks space (u64 (virt_addr + size)) allocation flags location
  end.

Definition map_allocation (space : Z) (allocation : list PageFrameAllocation) (flags : Z) : KM Z :=
  total_pages ← calculate_allocation_pages allocation;
  virt_addr ← alloc_addr_space space total_pages;
  location ← populate_page_table_location space virt_addr true;
  _ ← map_blocks space virt_addr allocation flags location;
  mret virt_addr.

Definition map_phys_range (space phys_addr pages flags : Z) : KM Z :=
  virt_addr ← alloc_addr_space space pages;
  location ← populate_page_table_location space virt_addr true;
  _ ← map_range_helper space virt_addr phys_addr (Z.to_nat pages) flags location;
  mret virt_addr.

Definition map_allocation_to_range (space : Z) (allocation : list PageFrameAllocation)
    (virt_addr flags : Z) : KM bool :=
  total_pages ← calculate_allocation_pages allocation;
  claimed ← claim_virt_range space virt_addr total_pages;
  if claimed : bool then
    location ← populate_page_table_location space virt_addr true;
    _ ← map_blocks space virt_addr allocation flags location;
    mret true
  else mret false.

Definition map_to_range (space phys_addr virt_addr pages flags : Z) : KM bool :=
  claimed ← claim_virt_range space virt_addr pages;
  if claimed : bool then
    location ← populate_page_table_location space virt_addr true;
    _ ← map_range_helper space virt_addr phys_addr (Z.to_nat pages) flags location;
    mret true
  else mret false.

(** ** Unmapping *)

Fixpoint unmap_pages (space virt_addr : Z) (pages : nat) (location : PageTableLocation) : KM unit :=
  match pages with
  | O => mret tt
  | S pages =>
      location ← page_table_traversal_helper space virt_addr location false;
      _ ← set_entry (pt location) (GET_LEVEL_INDEX virt_addr PT) 0;
      _ ← invlpg virt_addr;
      unmap_pages space (u64 (virt_addr + PAGE_SIZE)) pages location
  end.

Definition unmap_range (space virt_addr pages : Z) : KM unit :=
  _ ← add_range_to_free_list space virt_addr pages;
  location ← populate_page_table_location space virt_addr false;
  unmap_pages space virt_addr (Z.to_nat pages) location.

(** The run of frames being collected: its first and last address and its length. *)
Record FrameRun := { run_start : Z; run_curr : Z; run_pages : Z }.

(** What the loop of [unmap_and_free_frames] does with the address of one more page. *)
Definition collect_frame (run : FrameRun) (page_addr : Z) : KM FrameRun :=
  if run_pages run =? 0 then
    mret {| run_start := page_addr; run_curr := page_addr; run_pages := 1 |}
  else
    let curr := u64 (run_curr run + PAGE_SIZE) in
    largest ← get_frame_order_size (FRAME_ORDERS - 1);
    if negb (curr =? page_addr) || (largest <=? u64 (run_pages run * PAGE_SIZE)) then
      _ ← kernel_assert (popcount (run_pages run) =? 1) "Allocation is not power of 2";
      _ ← free_frames_contiguos (run_start run) (run_pages run);
      mret {| run_start := run_start run; run_curr := curr; run_pages := 0 |}
    else mret {| run_start := run_start run; run_curr := curr; run_pages := u64 (run_pages run + 1) |}.

Fixpoint unmap_and_collect (space virt_addr : Z) (pages : nat) (location : PageTableLocation)
    (run : FrameRun) : KM FrameRun :=
  match pages with
  | O => mret run
  | S pages =>
      location ← page_table_traversal_helper space virt_addr location false;
      let index := GET_LEVEL_INDEX virt_addr PT in
      e ← get_entry (pt location) index;
      run ← collect_frame run (u64 (Z.shiftl (phys_addr e) 12));
      _ ← set_entry (pt location) index 0;
      _ ← invlpg virt_addr;
      unmap_and_collect space (u64 (virt_addr + PAGE_SIZE)) pages location run
  end.

Definition unmap_and_free_frames (space virt_addr pages : Z) : KM unit :=
  _ ← add_range_to_free_list space virt_addr pages;
  location ← populate_page_table_location space virt_addr false;
  run ← unmap_and_collect space virt_addr (Z.to_nat pages) location
          {| run_start := 0; run_curr := 0; run_pages := 0 |};
  if run_pages run =? 0 then mret tt
  else
    _ ← kernel_assert (popcount (run_pages run) =? 1) "Allocation is not power of 2";
    free_frames_contiguos (run_start run) (run_pages run).

(** ** Flags *)

Fixpoint set_flags_pages (space virt_addr : Z) (pages : nat) (flags : Z)
    (location : PageTableLocation) : KM bool :=
  match pages with
  | O => mret true
  | S pages =>
      location ← page_table_traversal_helper space virt_addr location false;
      let index := GET_LEVEL_INDEX virt_addr PT in
      e ← get_entry (pt location) index;
      if present e then
        g ← get_paging;
        _ ← set_entry (pt location) index (set_flags (pg_execute_disable g) flags e);
        set_flags_pages space (u64 (virt_addr + PAGE_SIZE)) pages flags location
      else mret false
  end.

Definition range_set_flags (space virt_addr pages flags : Z) : KM bool :=
  location ← populate_page_table_location space virt_addr false;
  set_flags_pages space virt_addr (Z.to_nat pages) flags location.

(** ** The frames the firmware used *)

(** The largest order that is aligned to [phys_addr] and fits in [size], as a [uint8_t]:
    255 when not even order 0 does. *)
Definition uefi_order (phys_addr size : Z) : KM Z :=
  order ← loop 10 (λ order,
    if order <? FRAME_ORDERS then
      order_size ← get_frame_order_size order;
      mret (if (size <? order_size) || negb (phys_addr mod order_size =? 0)
            then inr order else inl (order + 1))
    else mret (inr order)) 0;
  mret (u8 (order - 1)).

Definition free_uefi_range (phys_addr size : Z) : KM unit :=
  loop (S (Z.to_nat (size / PAGE_SIZE))) (λ '(phys_addr, size),
    if size =? 0 then mret (inr tt)
    else
      order ← uefi_order phys_addr size;
      _ ← kernel_assert (order <? FRAME_ORDERS) "Order does not exist";
      order_size ← get_frame_order_size order;
      _ ← free_frames_contiguos phys_addr (order_size / PAGE_SIZE);
      mret (inl (u64 (phys_addr + order_size), u64 (size - order_size)))) (phys_addr, size).

Fixpoint free_uefi_memory (map : list UEFIMemoryDescriptor) : KM unit :=
  match map with
  | [] => mret tt
  | desc :: map =>
      _ ← (match md_type desc with
           | EfiBootServicesData | EfiRuntimeServicesData | EfiLoaderData =>
               free_uefi_range (md_physical_start desc) (u64 (md_num_pages desc * PAGE_SIZE))
           | _ => mret tt
           end);
      free_uefi_memory map
  end.

Definition free_uefi_memory_and_remove_identity_mapping (map : list UEFIMemoryDescriptor) : KM unit :=
  _ ← free_uefi_memory map;
  modify_paging (λ g, with_pml4
    (replicate (Z.to_nat KERNEL_PML4_OFFSET) 0 ++ drop (Z.to_nat KERNEL_PML4_OFFSET) (pg_pml4 g)) g).
End paging.

End Paging.
