(* ===== verification/FrameRelease.v ===== *)
(** The memory the firmware and the boot loader used: what
    [free_uefi_memory_and_remove_identity_mapping] (kernel/src/memory/paging.c) gives to the
    frame allocator. *)
From S2P Require Import Prelude Util MemState FrameAllocator FrameInvariant FrameProofs FrameAlloc FrameRange FrameContiguous FrameSessions FrameInit PageEntry AddressSpace Paging.

Module FrameRelease.
Import Util Mem FrameAllocator FrameInvariant FrameProofs FrameAlloc FrameRange FrameContiguous FrameSessions FrameInit PageEntry AddressSpace Paging.

(** The types of memory that are given back. *)
Definition is_firmware_data (t : UEFIMemoryType) : bool :=
  match t with EfiBootServicesData | EfiRuntimeServicesData | EfiLoaderData => true | _ => false end.

(** The ranges of [map] that are, as first address and number of pages. *)
Definition firmware_ranges (map : list UEFIMemoryDescriptor) : list (Z * Z) :=
  (λ d, (md_physical_start d, md_num_pages d)) <$> filter (λ d, is_firmware_data (md_type d) = true) map.

Lemma min_order_block o : 0 ≤ o < 8 → min_order (sz o / PAGE_SIZE) = o.
Proof.
  intros Ho. assert (o = 0 ∨ o = 1 ∨ o = 2 ∨ o = 3 ∨ o = 4 ∨ o = 5 ∨ o = 6 ∨ o = 7) by lia.
  naive_solver.
Qed.

Lemma block_pages o : 0 ≤ o < 8 → 1 ≤ sz o / PAGE_SIZE ≤ 128 ∧ sz o = sz o / PAGE_SIZE * 4096.
Proof.
  intros Ho. assert (o = 0 ∨ o = 1 ∨ o = 2 ∨ o = 3 ∨ o = 4 ∨ o = 5 ∨ o = 6 ∨ o = 7) as Hc by lia.
  by destruct Hc as [->|[->|[->|[->|[->|[->|[->| ->]]]]]]].
Qed.

Section release.
Context `{!MemoryEntries, !MemoryEntriesSpec} {lim : Z}.
Implicit Types (s : kmem).

Lemma wp_frame_order_size o (Q : Z → kmem → Prop) s :
  shape lim (fr s) → 0 ≤ o < 8 → Q (sz o) s → wp (get_frame_order_size o) Q s.
Proof.
  intros Hs Ho HQ. unfold get_frame_order_size. wp_step. wp_step; [unfold FRAME_ORDERS; lia|].
  by apply (wp_order_size (lim := lim)).
Qed.

(** The order is the largest whose blocks are aligned and small enough. *)
Lemma wp_uefi_order phys_addr size (Q : Z → kmem → Prop) s :
  shape lim (fr s) → 4096 ≤ size → (4096 | phys_addr) →
  (∀ o, 0 ≤ o < 8 → (sz o | phys_addr) → sz o ≤ size →
     (o < 7 → sz (o + 1) ≤ size → ¬ (sz (o + 1) | phys_addr)) → Q o s) →
  wp (uefi_order phys_addr size) Q s.
Proof.
  intros Hs Hsize Ha HQ. unfold uefi_order. wp_step.
  apply (wp_loop (λ o s', s' = s ∧ 0 ≤ o ≤ 8 ∧ (1 ≤ o → (sz (o - 1) | phys_addr) ∧ sz (o - 1) ≤ size))
                 (λ o _, Z.to_nat (8 - o))); [by split_and!|cbn; lia|].
  intros o s' (-> & Ho & Hd). change FRAME_ORDERS with 8. destruct (Z.ltb_spec o 8).
  - wp_step. apply wp_frame_order_size; [done|lia|]. wp_step.
    pose proof (sz_pos o ltac:(lia)).
    assert (o = 0 → sz o ≤ size ∧ phys_addr mod sz o = 0) as Hz.
    { intros ->. split; [exact Hsize|]. by apply Z.mod_divide. }
    destruct (Z.eqb_spec (phys_addr mod sz o) 0) as [E|E], (Z.ltb_spec size (sz o)); cbn [negb orb].
    2: { split; [|lia]. split_and!; [done|lia|lia|]. intros _. replace (o + 1 - 1) with o by lia.
         split; [by apply Z.mod_divide; [lia|]|done]. }
    all: assert (1 ≤ o) as Hpos by (assert (o ≠ 0) by (intros E0; destruct (Hz E0); lia); lia).
    all: destruct (Hd Hpos) as [Hd1 Hd2]; wp_step; rewrite wrap_small by lia.
    all: apply HQ; [lia|done|done|]; replace (o - 1 + 1) with o by lia; intros _ Hfit.
    all: try lia; rewrite <- Z.mod_divide by lia; done.
  - assert (o = 8) as -> by lia. destruct (Hd ltac:(lia)) as [Hd1 Hd2]. wp_step. wp_step.
    apply (HQ 7); [lia|done|done|lia].
Qed.

(** Giving back a range of which nothing is free. *)
Lemma wp_free_uefi_range addr pages (Q : unit → kmem → Prop) s :
  allocator_wf lim (fr s) → range_ok lim (addr, pages) → (∀ x, in_range addr pages x → ¬ free_byte (fr s) x) →
  pages ≤ stock s → 7 * pages ≤ room s →
  (∀ s' k, allocator_wf lim (fr s') → (∀ x, free_byte (fr s') x ↔ free_byte (fr s) x ∨ in_range addr pages x) →
     took k s s' → -6 * pages ≤ k ≤ pages → Q tt s') →
  wp (free_uefi_range addr (u64 (pages * PAGE_SIZE))) Q s.
Proof.
  intros Hwf (Ha & Hp & Hd & Hl) Hno Hst Hroom HQ. cbn in Ha, Hp, Hd, Hl. change PAGE_SIZE with 4096 in *.
  pose proof (shape_lim _ _ (wf_shape _ _ (awf_frames _ _ Hwf))) as Hlim.
  rewrite wrap_small by lia. unfold free_uefi_range.
  apply (wp_loop (λ '(pa, size) s', ∃ m k, size = m * 4096 ∧ 0 ≤ m ≤ pages ∧ pa = addr + (pages - m) * 4096 ∧
      allocator_wf lim (fr s') ∧ (∀ x, free_byte (fr s') x ↔ free_byte (fr s) x ∨ addr ≤ x < pa) ∧
      took k s s' ∧ -6 * (pages - m) ≤ k ≤ pages - m)
    (λ '(_, size) _, Z.to_nat (size / 4096))).
  { exists pages, 0. split_and!; try done; try lia; [|apply took_refl]. intros x. intuition lia. }
  { unfold PAGE_SIZE. lia. }
  intros [pa size] s' (m & k & -> & Hm & -> & Hwf' & Hby & Ht & Hk). destruct (Z.eqb_spec (m * 4096) 0) as [|Hm0].
  { wp_step. apply (HQ s' k); [done| |done|lia]. intros x. rewrite Hby. unfold in_range, PAGE_SIZE.
    assert (m = 0) as -> by lia. by rewrite Z.sub_0_r. }
  assert ((4096 | addr + (pages - m) * 4096)) as Hal by (apply Z.divide_add_r; [done|apply Z.divide_factor_r]).
  wp_step. apply wp_uefi_order; [apply Hwf'|lia|done|]. intros o Ho Hdo Hfit _.
  destruct (block_pages o Ho) as [Hbp Eo]. set (n := sz o / PAGE_SIZE) in *.
  wp_step. wp_step; [unfold FRAME_ORDERS; lia|]. wp_step.
  apply wp_frame_order_size; [apply Hwf'|done|]. wp_step. fold n.
  assert (min_order n = o) as En by by apply min_order_block.
  unfold took in Ht. apply (wp_free_contiguos (lim := lim)); rewrite ?En; [done|done| | |lia|lia|].
  - split_and!; [lia|lia|lia|done|lia].
  - apply (not_free_apart lim); [apply Hwf'|done|]. unfold in_block. intros x Hx. rewrite Hby.
    intros [Hf|?]; [|lia]. apply (Hno x); [|done]. unfold in_range, PAGE_SIZE. lia.
  - intros s2 k2 Hwf2 Hby2 Hk2 Ht2. wp_step. rewrite !wrap_small by lia. split.
    + exists (m - n), (k + k2). split_and!; [lia|lia|lia|lia|done| |by apply (took_trans _ _ _ s')|lia|lia].
      intros x. rewrite Hby2, Hby. unfold in_block. rewrite Eo. intuition lia.
    + rewrite Eo. replace (m * 4096 - n * 4096) with ((m - n) * 4096) by lia. rewrite !Z.div_mul by lia. lia.
Qed.

(** Ranges that can be given back: whole pages of managed memory, apart from one another,
    with nothing free in them, and entries enough for their pages. *)
Record releasable s (rs : list (Z * Z)) : Prop := {
  rl_wf : allocator_wf lim (fr s);
  rl_ok : Forall (range_ok lim) rs;
  rl_disjoint : ForallOrdPairs ranges_disjoint rs;
  rl_taken : ∀ x, in_ranges rs x → ¬ free_byte (fr s) x;
  rl_stock : pages_in rs ≤ stock s;
  rl_room : 7 * pages_in rs ≤ room s;
}.

Lemma pages_in_nonneg rs : Forall (range_ok lim) rs → 0 ≤ pages_in rs.
Proof. intros Hok. induction Hok as [|r rs (_ & ? & _)]; unfold pages_in in *; cbn; lia. Qed.

Lemma in_ranges_cons r rs x : in_ranges (r :: rs) x ↔ in_range r.1 r.2 x ∨ in_ranges rs x.
Proof. unfold in_ranges. setoid_rewrite elem_of_cons. naive_solver. Qed.

Lemma disjoint_range r r' x : ranges_disjoint r r' → in_range r.1 r.2 x → ¬ in_range r'.1 r'.2 x.
Proof. unfold ranges_disjoint, in_range, PAGE_SIZE. lia. Qed.

Lemma firmware_ranges_cons d map :
  firmware_ranges (d :: map) =
    if is_firmware_data (md_type d) then (md_physical_start d, md_num_pages d) :: firmware_ranges map else firmware_ranges map.
Proof. unfold firmware_ranges. rewrite filter_cons. by destruct (is_firmware_data _). Qed.

Lemma free_uefi_cons d map :
  free_uefi_memory (d :: map) =
    _ ← (if is_firmware_data (md_type d) then free_uefi_range (md_physical_start d) (u64 (md_num_pages d * PAGE_SIZE)) else mret tt);
    free_uefi_memory map.
Proof. cbn [free_uefi_memory]. by destruct (md_type d). Qed.

Lemma wp_free_uefi_memory map (Q : unit → kmem → Prop) s :
  releasable s (firmware_ranges map) →
  (∀ s' k, allocator_wf lim (fr s') →
     (∀ x, free_byte (fr s') x ↔ free_byte (fr s) x ∨ in_ranges (firmware_ranges map) x) →
     took k s s' → Q tt s') →
  wp (free_uefi_memory map) Q s.
Proof.
  revert s. induction map as [|d map IH]; intros s Hrl HQ.
  { cbn [free_uefi_memory]. wp_step. apply (HQ s 0); [apply Hrl| |apply took_refl]. intros x. unfold in_ranges. cbn. set_solver. }
  rewrite free_uefi_cons. rewrite firmware_ranges_cons in Hrl, HQ. wp_step. destruct (is_firmware_data (md_type d)).
  2: { wp_step. by apply IH. }
  set (rs := firmware_ranges map) in *.
  destruct Hrl as [Hwf [Hr Hok]%Forall_cons Hdis Hno Hst Hroom]. inversion Hdis as [|? ? Hd Hdis']; subst.
  pose proof (pages_in_nonneg _ Hok) as Hp. assert (0 ≤ md_num_pages d) by apply Hr.
  assert (pages_in ((md_physical_start d, md_num_pages d) :: rs) = md_num_pages d + pages_in rs) as Ep by done.
  rewrite Ep in *. apply wp_free_uefi_range; [done|done| |lia|lia|].
  { intros x Hx. apply Hno, in_ranges_cons. by left. }
  intros s1 k1 Hwf1 Hby1 Ht1 Hk1. unfold took in Ht1. apply IH.
  - split; [done..| |lia|lia]. intros x Hx. rewrite Hby1. intros [Hf|Hx'].
    + apply (Hno x); [apply in_ranges_cons; by right|done].
    + destruct Hx as (r & Hin & Hx). rewrite Forall_forall in Hd. by apply (disjoint_range _ _ x (Hd r Hin)) in Hx'.
  - intros s2 k2 Hwf2 Hby2 Ht2. apply (HQ s2 (k1 + k2)); [done| |by apply (took_trans _ _ _ s1)].
    intros x. rewrite Hby2, Hby1, in_ranges_cons. cbn. tauto.
Qed.

(** C16: when nothing in the firmware's and the loader's data is free,
    [free_uefi_memory_and_remove_identity_mapping] makes exactly those bytes free besides
    the ones that were, keeps the buddy invariant, and leaves the kernel's half of the first
    page table and no entry below it. *)
Theorem free_uefi_memory_spec map s :
  releasable s (firmware_ranges map) →
  wp (free_uefi_memory_and_remove_identity_mapping map) (λ _ s',
    allocator_wf lim (fr s') ∧
    (∀ x, free_byte (fr s') x ↔ free_byte (fr s) x ∨ in_ranges (firmware_ranges map) x) ∧
    (∀ i, (i < 480)%nat → pg_pml4 (km_paging s') !! i = Some 0) ∧
    (∀ i, (480 ≤ i)%nat → pg_pml4 (km_paging s') !! i = pg_pml4 (km_paging s) !! i) ∧
    pg_tables (km_paging s') = pg_tables (km_paging s)) s.
Proof.
  intros Hrl. unfold free_uefi_memory_and_remove_identity_mapping. wp_step. apply wp_free_uefi_memory; [done|].
  intros s1 k Hwf1 Hby1 (_ & _ & [= _ Ep]). unfold modify_paging. wp_step. cbn. change (Z.to_nat KERNEL_PML4_OFFSET) with 480%nat.
  rewrite Ep. split_and!; [done|done| | |done].
  - intros i Hi. rewrite lookup_app_l by (rewrite length_replicate; lia). by apply lookup_replicate_2.
  - intros i Hi. rewrite lookup_app_r by (rewrite length_replicate; lia). rewrite length_replicate, lookup_drop. f_equal. lia.
Qed.
End release.
End FrameRelease.
