(* ===== verification/FrameExamples.v ===== *)
(** A small machine, two megabytes of free memory and one page of entries: the theorems
    about the frame allocator applied to it. *)
From S2P Require Import Prelude Util MemState EntryPool FrameAllocator FrameInvariant FrameProofs FrameAlloc FrameRange FrameContiguous FrameSessions FrameInit PageEntry AddressSpace Paging FrameRelease.

Module FrameExamples.
Import Util Mem FrameAllocator FrameInvariant FrameProofs FrameAlloc FrameRange FrameContiguous FrameSessions FrameInit Paging FrameRelease.

#[local] Instance example_entries : MemoryEntries := EntryPool.pool_entries (λ _ _, throw NullDeref).
#[local] Instance example_entries_spec : MemoryEntriesSpec :=
  EntryPool.pool_entries_spec (λ _ _, throw NullDeref).

Definition example_size : Z := 2 ^ 21.
Definition example_entry (i : Z) : ListEntry := {| le_ptr := 0x1000 + 16 * i; le_addr := 524288 * i |}.
Definition example_heads : list ListEntry := example_entry <$> [0; 1; 2; 3].

Definition example_kmem : kmem :=
  {| km_pool := {| ep_count := 252; ep_head := (λ i, 0x1040 + 16 * Z.of_nat i) <$> seq 0 252 |};
     km_frames := with_maps example_size example_heads [];
     km_memory_size := example_size;
     km_paging := empty_paging |}.

(** The same machine with only one small block left, of order 0. *)
Definition scarce_frames : FrameAllocator := with_maps example_size [] [].
Definition scarce_kmem : kmem := set_frames scarce_frames example_kmem.

Lemma example_wf : allocator_wf (managed example_size) (fr example_kmem).
Proof. apply (initial_wf _ _ example_heads); [by exists []|done|reflexivity]. Defined.

Lemma scarce_shape : shape (managed example_size) (fr scarce_kmem).
Proof.
  split; [done|done|done|]. intros o Ho.
  assert (o = 0 ∨ o = 1 ∨ o = 2 ∨ o = 3 ∨ o = 4 ∨ o = 5 ∨ o = 6) as Ho' by lia.
  destruct Ho' as [->|[->|[->|[->|[->|[->| ->]]]]]]; by vm_compute.
Defined.

(** 137 pages: one block of order 7, one of order 3 and one of order 0. *)
Example alloc_137 :
  match alloc_frames 137 example_kmem with
  | Ok (l, _) => (λ a, (pfa_addr a, pfa_order a)) <$> l = [(0, 7); (524288, 3); (524288 + 32768, 0)]
  | Fault _ => False
  end.
Proof. by vm_compute. Qed.

(** More than there is. *)
Example alloc_too_much :
  match alloc_frames 513 example_kmem with Ok (l, _) => l | Fault _ => [] end = [].
Proof. by vm_compute. Qed.

Lemma alloc_frames_spec_witness :
  wp (alloc_frames 5) (λ l s',
    (l ≠ [] ∧ total_size l = 5 * PAGE_SIZE ∧ allocated (lim := managed example_size) example_kmem l s') ∨
    (l = [] ∧ exhausted (lim := managed example_size) example_kmem (5 * PAGE_SIZE) ∧
     allocator_wf (managed example_size) (fr s') ∧
     ∀ x, free_byte (fr s') x ↔ free_byte (fr example_kmem) x)) example_kmem.
Proof. apply alloc_frames_spec; [apply example_wf|lia|by vm_compute..]. Defined.

Lemma alloc_free_roundtrip_witness :
  wp (l ← alloc_frames 5; free_frames l) (λ _ s',
    allocator_wf (managed example_size) (fr s') ∧ fr s' ≡ fr example_kmem) example_kmem.
Proof. apply alloc_free_roundtrip; [apply example_wf|lia|by vm_compute..]. Defined.

(** One block of order 7 has been handed out. *)
Definition example_block : PageFrameAllocation := {| pfa_ptr := 0x1000; pfa_addr := 0; pfa_order := 7 |}.
Definition lent_kmem : kmem :=
  set_frames (with_head 7 (example_entry <$> [1; 2; 3]) (fr example_kmem)) example_kmem.

Lemma lent_wf :
  allocator_wf (managed example_size) (fr lent_kmem) ∧
  owned (lim := managed example_size) (fr lent_kmem) [example_block].
Proof.
  destruct (take_block (lim := managed example_size) (fr example_kmem) 7 (example_entry 0)
    (example_entry <$> [1; 2; 3])) as (Hwf & Hap & Hok & _); [apply example_wf|lia|reflexivity|].
  split; [split; [exact Hwf|]|].
  - apply (take_coalesced (lim := managed example_size) (fr example_kmem) 7 (example_entry 0));
      [apply example_wf|lia|reflexivity|apply coalesced_near, example_wf].
  - split; [constructor; [exact Hok|constructor]|repeat constructor|constructor; [exact Hap|constructor]].
Defined.

(** What the loader and the firmware left in that block. *)
Definition left_map : list UEFIMemoryDescriptor :=
  [ {| md_type := EfiLoaderData; md_physical_start := 0; md_num_pages := 3 |};
    {| md_type := EfiLoaderCode; md_physical_start := 0x3000; md_num_pages := 2 |};
    {| md_type := EfiBootServicesData; md_physical_start := 0x5000; md_num_pages := 75 |};
    {| md_type := EfiConventionalMemory; md_physical_start := 524288; md_num_pages := 384 |} ].

Lemma left_releasable : releasable (lim := managed example_size) lent_kmem (firmware_ranges left_map).
Proof.
  change (firmware_ranges left_map) with [(0, 3); (0x5000, 75)]. split; [apply lent_wf| | | |done|done].
  - do 2 (apply Forall_cons_2; [split_and!; cbn; [lia|lia|first [by exists 0 | by exists 5]|by vm_compute]|]). constructor.
  - do 2 (constructor; [repeat (apply Forall_cons_2 || apply Forall_nil_2); by left|]). constructor.
  - intros x Hx (o & a & Hf & Hb). assert (0 ≤ x < 524288) as Hx'.
    { destruct Hx as (r & Hin & Hx). unfold in_range in Hx. rewrite !elem_of_cons in Hin.
      destruct Hin as [-> |[-> |[]%not_elem_of_nil]]; unfold PAGE_SIZE in Hx; cbn in Hx; lia. }
    destruct lent_wf as (_ & [_ _ Hap]). rewrite Forall_forall in Hap.
    specialize (Hap example_block (list_elem_of_here _ _) o a Hf).
    unfold separate, in_block in *. cbn in Hap. change (sz 7) with 524288 in Hap. lia.
Defined.

Lemma free_uefi_memory_spec_witness :
  wp (free_uefi_memory_and_remove_identity_mapping left_map) (λ _ s',
    allocator_wf (managed example_size) (fr s') ∧
    (∀ x, free_byte (fr s') x ↔ free_byte (fr lent_kmem) x ∨ in_ranges [(0, 3); (0x5000, 75)] x) ∧
    (∀ i, (i < 480)%nat → pg_pml4 (km_paging s') !! i = Some 0) ∧
    (∀ i, (480 ≤ i)%nat → pg_pml4 (km_paging s') !! i = pg_pml4 (km_paging lent_kmem) !! i) ∧
    pg_tables (km_paging s') = pg_tables (km_paging lent_kmem)) lent_kmem.
Proof. apply (free_uefi_memory_spec left_map), left_releasable. Defined.

Lemma free_frames_spec_witness :
  wp (free_frames [example_block]) (λ _ s',
    allocator_wf (managed example_size) (fr s') ∧
    ∀ x, free_byte (fr s') x ↔ list_byte [example_block] x ∨ free_byte (fr lent_kmem) x) lent_kmem.
Proof. apply free_frames_spec; [apply lent_wf|apply lent_wf|by vm_compute]. Defined.

Lemma alloc_frames_out_of_bounds_witness :
  alloc_frames 128 scarce_kmem = Fault OutOfBounds ∧ alloc_frames 200 scarce_kmem = Fault OutOfBounds.
Proof.
  split; [by vm_compute|].
  apply (alloc_frames_out_of_bounds (lim := managed example_size)); [apply scarce_shape|lia|done].
Defined.

Lemma remove_range_spec_witness :
  let s := example_kmem in
  wp (remove_range 0x3000 20) (λ b s',
    allocator_wf (managed example_size) (fr s') ∧
    (b = true ∧ (∀ x, free_byte (fr s') x ↔ free_byte (fr s) x ∧ ¬ in_range 0x3000 20 x) ∧
      (∀ x, in_range 0x3000 20 x → free_byte (fr s) x) ∧
      (∃ k, took k s s' ∧ - 20 ≤ k ≤ 6 * 20) ∨
     b = false ∧ ¬ (∀ x, in_range 0x3000 20 x → free_byte (fr s) x) ∧
      (∀ x, free_byte (fr s') x → free_byte (fr s) x) ∧
      (∀ x, ¬ in_range 0x3000 20 x → free_byte (fr s) x → free_byte (fr s') x))) s.
Proof. apply remove_range_spec; [apply example_wf|lia|lia|by exists 3|done|by vm_compute..]. Defined.

Lemma within_reach_example : within_reach example_kmem (min_order 40).
Proof. exists 7. change (min_order 40) with 6. split_and!; [lia|lia|lia|done]. Defined.

Lemma alloc_frames_contiguos_spec_witness :
  wp (alloc_frames_contiguos 40) (λ r s', ∃ a,
    r = Some a ∧ 40 * PAGE_SIZE ≤ sz (min_order 40) ∧
    block_taken (lim := managed example_size) example_kmem (min_order 40) a s') example_kmem.
Proof.
  apply alloc_frames_contiguos_spec; [apply example_wf|lia|apply within_reach_example|by vm_compute..].
Defined.

Lemma contiguos_roundtrip_witness :
  wp (r ← alloc_frames_contiguos 40;
      match r with
      | Some a => free_frames_contiguos a 40
      | None => mret tt
      end) (λ _ s', fr s' ≡ fr example_kmem ∧ allocator_wf (managed example_size) (fr s')) example_kmem.
Proof. apply contiguos_roundtrip; [apply example_wf|lia|apply within_reach_example|by vm_compute..]. Defined.

(** One page is asked for, and only blocks of order 7 are left: there is plenty of
    memory, but it is out of the search's reach. *)
Lemma alloc_frames_contiguos_null_witness :
  alloc_frames_contiguos 1 example_kmem = Fault NullDeref ∧ heads (fr example_kmem) 7 ≠ [].
Proof.
  split; [|done]. apply (alloc_frames_contiguos_null (lim := managed example_size));
    [apply example_wf|lia|].
  change (min_order 1) with 0. intros o Ho. assert (o = 0 ∨ o = 1 ∨ o = 2) as [->|[->| ->]] by lia; reflexivity.
Defined.

(** ** Two clients *)

Definition after {A} (m : KM A) (s : kmem) : kmem := match m s with Ok (_, s') => s' | Fault _ => s end.
Definition session_1 : kmem := Eval vm_compute in after (alloc_frames 5) example_kmem.
Definition session_2 : kmem := Eval vm_compute in after (alloc_frames_contiguos 40) session_1.
Definition first_piece : list PageFrameAllocation :=
  Eval vm_compute in match alloc_frames 5 example_kmem with Ok (l, _) => l | Fault _ => [] end.
Definition session_3 : kmem := Eval vm_compute in after (free_frames first_piece) session_2.
Definition session_4 : kmem := Eval vm_compute in after (free_frames_contiguos 0x40000 40) session_3.

(** Five pages, then forty contiguous ones; the five are given back first. *)
Lemma example_session :
  rtc session_step (example_kmem, []) (session_2, [contiguous 0x40000 40; scattered first_piece]) ∧
  rtc session_step (session_2, [contiguous 0x40000 40; scattered first_piece]) (session_4, []).
Proof.
  split.
  - eapply rtc_l; [apply (step_take example_kmem [] 5 first_piece session_1); [by vm_compute|by vm_compute]|].
    apply rtc_once, (step_take_contiguous session_1 [scattered first_piece] 40 (Some 0x40000) session_2); [|by vm_compute].
    split; [by vm_compute|]. split; [|by vm_compute]. exists 6. by vm_compute.
  - eapply rtc_l; [apply (step_give session_2 [contiguous 0x40000 40] (scattered first_piece) [] session_3); by vm_compute|].
    apply rtc_once, (step_give session_3 [] (contiguous 0x40000 40) [] session_4); by vm_compute.
Defined.

Lemma session_partition_witness :
  let held := [contiguous 0x40000 40; scattered first_piece] in
  allocator_wf (managed example_size) (fr session_2) ∧
  ForallOrdPairs pieces_apart held ∧
  (∀ x, held_byte held x → ¬ free_byte (fr session_2) x) ∧
  (∀ x, free_byte (fr example_kmem) x ↔ free_byte (fr session_2) x ∨ held_byte held x) ∧
  (∀ p, p ∈ held → room_for p session_2 → ∃ s', give p session_2 = Ok (tt, s')).
Proof. apply session_partition; [apply example_wf|apply example_session]. Defined.

Lemma session_roundtrip_witness : fr session_4 ≡ fr example_kmem.
Proof.
  apply (session_roundtrip (lim := managed example_size)); [apply example_wf|].
  etransitivity; apply example_session.
Defined.

(** ** Initialization *)

Definition example_map : list UEFIMemoryDescriptor :=
  [ {| md_type := EfiBootServicesCode; md_physical_start := 0; md_num_pages := 16 |};
    {| md_type := EfiLoaderCode; md_physical_start := 0x10000; md_num_pages := 4 |};
    {| md_type := EfiConventionalMemory; md_physical_start := 0x20000; md_num_pages := 400 |} ].

(** The loader's code and the gap after it. *)
Example example_ranges : unusable_ranges None example_map = [(0x10000, 4); (0x14000, 12)].
Proof. reflexivity. Qed.

Definition boot_kmem : kmem :=
  {| km_pool := {| ep_count := 0; ep_head := [] |};
     km_frames := {| fa_free_lists := replicate 8 {| fl_head := []; fl_buddy_map := [] |};
                     fa_order_sizes := standard_sizes |};
     km_memory_size := example_size;
     km_paging := empty_paging |}.


End FrameExamples.
