(* ===== verification/Memory.v ===== *)
(** The memory subsystem put together: kernel/src/memory.c, the kernel-space wrappers and
    the life cycle of address spaces of kernel/src/memory/paging.c.

    The components call each other in a circle: the entry pool refills itself through
    [alloc_pages], which maps what it allocated with [kmap_allocation], which needs
    entries for the lists of the frame allocator and of the page tables. [kernel n] is
    the operations with at most [n] nested calls round that circle. *)
From S2P Require Import Prelude Util MemState EntryPool FrameAllocator PageEntry AddressSpace Paging.

Module Memory.
Import Util Mem FrameAllocator PageEntry AddressSpace Paging.

(** ** The circle *)

Record KernelOps := {
  ko_alloc_pages : Z → Z → KM Z;
  ko_kmap_allocation : list PageFrameAllocation → Z → KM Z;
  ko_kmap_phys_range : Z → Z → Z → KM Z;
}.

Section operations.
Context `{!MemoryEntries} (K : KernelOps).

Definition kmap_allocation (allocation : list PageFrameAllocation) (flags : Z) : KM Z :=
  map_allocation (ko_kmap_allocation K) (ko_kmap_phys_range K) g_kernel_space allocation flags.

Definition kmap_phys_range (phys_addr pages flags : Z) : KM Z :=
  map_phys_range (ko_kmap_allocation K) (ko_kmap_phys_range K) g_kernel_space phys_addr pages flags.

Definition alloc_pages (pages paging_flags : Z) : KM Z :=
  allocation ← alloc_frames pages;
  if is_null allocation then mret 0
  else
    ptr ← kmap_allocation allocation paging_flags;
    _ ← free_frame_allocation_entries allocation;
    mret ptr.

Definition kunmap_range (virt_addr pages : Z) : KM unit :=
  unmap_range (ko_kmap_allocation K) (ko_kmap_phys_range K) g_kernel_space virt_addr pages.

Definition kunmap_and_free_frames (virt_addr pages : Z) : KM unit :=
  unmap_and_free_frames (ko_kmap_allocation K) (ko_kmap_phys_range K) g_kernel_space virt_addr pages.

Definition kvirt_to_phys_addr (virt_addr : Z) : KM (option Z) :=
  virt_to_phys_addr g_kernel_space virt_addr.

Definition free_pages (ptr pages : Z) : KM unit := kunmap_and_free_frames ptr pages.

Definition alloc_pages_contiguous (pages paging_flags : Z) : KM Z :=
  r ← alloc_frames_contiguos pages;
  match r with
  | Some phys_addr => kmap_phys_range phys_addr pages paging_flags
  | None => mret 0
  end.

Definition free_pages_contiguous (ptr pages : Z) : KM unit :=
  r ← kvirt_to_phys_addr ptr;
  match r with
  | Some phys_addr =>
      _ ← kunmap_range ptr pages;
      free_frames_contiguos phys_addr pages
  | None => throw (AssertFailed "Physical address does not exist")
  end.

(** ** Address spaces *)

(** [invlpg] for the pages from [virt_addr] up to [limit]. *)
Fixpoint invalidate_pages (n : nat) (virt_addr : Z) : KM unit :=
  match n with
  | O => mret tt
  | S n => _ ← invlpg virt_addr; invalidate_pages n (u64 (virt_addr + PAGE_SIZE))
  end.

Definition invalidate_space (a : AddressSpace) : KM unit :=
  let start := as_pdp_index a * PDP_MEM_RANGE in
  invalidate_pages (Z.to_nat ((as_current_address a - start + PAGE_SIZE - 1) / PAGE_SIZE)) start.

Definition new_address_space (space pdp_index prot : Z) : KM unit :=
  _ ← kernel_assert (pdp_index <? KERNEL_PML4_OFFSET) "AddressSpace can't overlap with kernel address space";
  _ ← kernel_assert (prot <=? 15) "Prot is only 4 bits page entries";
  let start := u64 (pdp_index * PDP_MEM_RANGE) in
(* Make sure virtual address zero is never used *)
  _ ← set_space space
        {| as_current_address := if start =? 0 then PAGE_SIZE else start;
           as_pdp_index := pdp_index; as_pdp := 0; as_prot := prot; as_free_list := 0;
           as_entry_maps := [[]; []] |};
  pdp ← alloc_pages_contiguous 1 PAGING_WRITABLE;
  a ← get_space space;
  _ ← set_space space
        {| as_current_address := as_current_address a; as_pdp_index := as_pdp_index a;
           as_pdp := pdp; as_prot := as_prot a; as_free_list := as_free_list a;
           as_entry_maps := as_entry_maps a |};
  _ ← kernel_assert (negb (pdp =? 0)) "Out of memory";
  clear_page pdp.

(** The nodes of the free list go back to the pool. *)
Definition free_range_nodes (free_list : Z) : KM unit :=
  g ← get_paging;
  loop (S (S (size (pg_free_nodes g)))) (λ entry,
    if entry =? 0 then mret (inr tt)
    else
      node ← get_node entry;
      _ ← delete_node entry;
      _ ← free_memory_entry entry;
      mret (inl (SIGN_EXT_ADDR (fle_next node)))) free_list.

Fixpoint free_mappings (maps : list MappingEntry) : KM unit :=
  match maps with
  | [] => mret tt
  | m :: maps =>
      _ ← free_pages_contiguous (mapping_ptr m) 1;
      _ ← free_memory_entry (me_ptr m);
      free_mappings maps
  end.

Definition delete_address_space (space : Z) : KM unit :=
  a ← get_space space;
  _ ← free_range_nodes (as_free_list a);
  pt_maps ← get_entry_map space PT;
  _ ← free_mappings pt_maps;
  pd_maps ← get_entry_map space PD;
  _ ← free_mappings pd_maps;
  a ← get_space space;
  free_pages_contiguous (as_pdp a) 1.

Definition set_pml4_entry (i e : Z) : KM unit :=
  modify_paging (λ g, with_pml4 (insertZ i e (pg_pml4 g)) g).

Definition map_address_space (space : Z) : KM unit :=
  a ← get_space space;
  r ← kvirt_to_phys_addr (as_pdp a);
  match r with
  | None => throw (AssertFailed "Could not find physical address")
  | Some pdp_phys_addr =>
      g ← get_paging;
      e ← of_option OutOfBounds (lookupZ (pg_pml4 g) (as_pdp_index a));
      _ ← set_pml4_entry (as_pdp_index a)
            (set_user (as_prot a =? 3) (set_prot (as_prot a) (set_write true
              (set_present true (set_phys_addr (Z.shiftr pdp_phys_addr 12) e)))));
      invalidate_space a
  end.

Definition unmap_address_space (space : Z) : KM unit :=
  a ← get_space space;
  _ ← set_pml4_entry (as_pdp_index a) 0;
  invalidate_space a.
End operations.

Definition no_ops : KernelOps :=
  {| ko_alloc_pages := λ _ _, throw OutOfFuel;
     ko_kmap_allocation := λ _ _, throw OutOfFuel;
     ko_kmap_phys_range := λ _ _ _, throw OutOfFuel |}.

Fixpoint kernel (n : nat) : KernelOps :=
  match n with
  | O => no_ops
  | S n =>
      let K := kernel n in
      let entries := EntryPool.pool_entries (ko_alloc_pages K) in
      {| ko_alloc_pages := @alloc_pages entries K;
         ko_kmap_allocation := @kmap_allocation entries K;
         ko_kmap_phys_range := @kmap_phys_range entries K |}
  end.

End Memory.
