(* ===== verification/MemoryTypes.v ===== *)
(** Types of the memory system: every field of its state is in the range of its C type
    (kernel/include/memory), whatever the operations of kernel/src/memory.c and
    kernel/src/memory/*.c are called with. *)
From S2P Require Import Prelude Util MemState EntryPool FrameAllocator PageEntry AddressSpace Paging Memory.

Module MemoryTypes.
Import Util Mem FrameAllocator PageEntry AddressSpace Paging Memory.

(** ** The types *)

Definition fits (w x : Z) : Prop := 0 ≤ x < 2 ^ w.

Record pool_typed (p : EntryPool) : Prop := {
  pt_count : fits 64 (ep_count p);
  pt_head : Forall (fits 64) (ep_head p);
}.

Definition entry_typed (e : ListEntry) : Prop := fits 64 (le_ptr e) ∧ fits 64 (le_addr e).
Definition list_typed (l : FreeList) : Prop := Forall entry_typed (fl_head l) ∧ Forall (fits 64) (fl_buddy_map l).
Lemma list_typed_head l : list_typed l → Forall entry_typed (fl_head l).
Proof. apply proj1. Qed.
Lemma list_typed_map l : list_typed l → Forall (fits 64) (fl_buddy_map l).
Proof. apply proj2. Qed.
Lemma list_typed_intro h m : Forall entry_typed h → Forall (fits 64) m → list_typed {| fl_head := h; fl_buddy_map := m |}.
Proof. done. Qed.
Lemma entry_typed_intro p a : fits 64 p → fits 64 a → entry_typed {| le_ptr := p; le_addr := a |}.
Proof. done. Qed.
#[export] Hint Resolve list_typed_head list_typed_map list_typed_intro entry_typed_intro : typed.

Lemma entry_typed_ptr e : entry_typed e → fits 64 (le_ptr e).
Proof. apply proj1. Qed.
Lemma entry_typed_addr e : entry_typed e → fits 64 (le_addr e).
Proof. apply proj2. Qed.
#[export] Hint Resolve entry_typed_ptr entry_typed_addr : typed.

Definition block_typed (b : PageFrameAllocation) : Prop := fits 64 (pfa_ptr b) ∧ fits 57 (pfa_addr b).

Lemma block_typed_intro p a o : fits 64 p → fits 57 a → block_typed {| pfa_ptr := p; pfa_addr := a; pfa_order := o |}.
Proof. done. Qed.
#[export] Hint Resolve block_typed_intro : typed.

Definition node_typed (n : FreeListEntry) : Prop := fits 48 (fle_next n) ∧ fits 36 (fle_addr n) ∧ fits 44 (fle_pages n).
Definition mapping_typed (m : MappingEntry) : Prop := fits 64 (me_ptr m) ∧ fits 36 (me_virt_addr m) ∧ fits 38 (me_phys_addr m).
Definition table_typed (t : list Z) : Prop := length t = 512%nat ∧ Forall (fits 64) t.

Record space_typed (a : AddressSpace) : Prop := {
  st_current : fits 64 (as_current_address a);
  st_index : fits 16 (as_pdp_index a);
  st_pdp : fits 64 (as_pdp a);
  st_prot : fits 4 (as_prot a);
  st_free_list : fits 64 (as_free_list a);
  st_levels : length (as_entry_maps a) = 2%nat;
  st_maps : Forall (Forall mapping_typed) (as_entry_maps a);
}.

Record paging_typed (g : PagingState) : Prop := {
  gt_spaces : map_Forall (λ _, space_typed) (pg_spaces g);
  gt_nodes : map_Forall (λ _, node_typed) (pg_free_nodes g);
  gt_tables : map_Forall (λ _, table_typed) (pg_tables g);
  gt_pool_count : fits 64 (pp_count (pg_page_pool g));
  gt_pool : Forall mapping_typed (pp_head (pg_page_pool g));
  gt_pml4 : table_typed (pg_pml4 g);
}.

Record kmem_typed (s : kmem) : Prop := {
  kt_pool : pool_typed (km_pool s);
  kt_lists : Forall list_typed (fa_free_lists (km_frames s));
  kt_paging : paging_typed (km_paging s);
}.

Abbreviation ktyped := (typed kmem_typed).

(** ** Numbers *)

Lemma fits_wrap w x : 0 ≤ w → fits w (wrap w x).
Proof. apply wrap_range. Qed.
Lemma fits_mono w w' x : 0 ≤ w ≤ w' → fits w x → fits w' x.
Proof. unfold fits. intros. pose proof (Z.pow_le_mono_r 2 w w' ltac:(lia) ltac:(lia)). lia. Qed.
Lemma fits_0 w : 0 ≤ w → fits w 0.
Proof. unfold fits. intros. pose proof (Z.pow_pos_nonneg 2 w). lia. Qed.
Lemma fits_bits w x : 0 ≤ w → fits w x ↔ 0 ≤ x ∧ (∀ i, w ≤ i → Z.testbit x i = false).
Proof.
  intros Hw. split; [|intros [_ Hx]; by apply range_of_bits].
  intros Hx. split; [apply Hx|]. intros i Hi. by apply (bits_above w).
Qed.
Lemma fits_lor w x y : 0 ≤ w → fits w x → fits w y → fits w (Z.lor x y).
Proof.
  intros Hw. rewrite !fits_bits by done. intros [? Hx] [? Hy]. split; [by apply Z.lor_nonneg|].
  intros i Hi. by rewrite Z.lor_spec, Hx, Hy.
Qed.
Lemma fits_lxor w x y : 0 ≤ w → fits w x → fits w y → fits w (Z.lxor x y).
Proof.
  intros Hw. rewrite !fits_bits by done. intros [? Hx] [? Hy]. split; [by apply Z.lxor_nonneg|].
  intros i Hi. by rewrite Z.lxor_spec, Hx, Hy.
Qed.
Lemma fits_sign_ext a : fits 64 a → fits 64 (SIGN_EXT_ADDR a).
Proof.
  intros Ha. apply fits_lor; [done..|]. change 1 with (Z.ones 1). rewrite Z.land_ones by done.
  pose proof (Z.mod_pos_bound (a ≫ 47) (2 ^ 1) ltac:(done)). rewrite Z.shiftl_mul_pow2 by done. unfold fits. lia.
Qed.
Lemma fits_bit i : fits 6 i → fits 64 (Z.shiftl 1 i).
Proof.
  unfold fits. intros Hi. rewrite Z.shiftl_1_l. pose proof (Z.pow_pos_nonneg 2 i). pose proof (Z.pow_lt_mono_r 2 i 64). lia.
Qed.
Lemma fits_low x : fits 6 (Z.land x 63).
Proof. change 63 with (Z.ones 6). rewrite Z.land_ones by done. by apply Z.mod_pos_bound. Qed.
Lemma fits_non_ext x : fits 64 (Z.land x NON_EXT_ADDR_MASK).
Proof. change NON_EXT_ADDR_MASK with (Z.ones 48). rewrite Z.land_ones by done. apply (fits_mono 48); [done|by apply Z.mod_pos_bound]. Qed.
Lemma fits_set_bits lo w v x : 0 ≤ lo → 0 ≤ w → lo + w ≤ 64 → fits 64 x → fits 64 (set_bits lo w v x).
Proof. intros. by apply set_bits_range. Qed.

#[export] Hint Resolve fits_0 fits_sign_ext fits_lxor fits_bit fits_low fits_non_ext : typed.
#[export] Hint Extern 0 (0 ≤ _) => lia : typed.
#[export] Hint Extern 1 (fits _ (wrap _ _)) => apply fits_wrap; lia : typed.
#[export] Hint Extern 2 (fits _ (set_bits _ _ _ _)) => apply fits_set_bits; [lia|lia|lia|] : typed.
#[export] Hint Extern 3 (fits 64 _) => (eapply (fits_mono 48); [lia|eassumption]) : typed.
#[export] Hint Extern 3 (fits 64 _) => (eapply (fits_mono 57); [lia|eassumption]) : typed.

Lemma leaf_entry_fits nx p phys flags e : fits 64 e → fits 64 (leaf_entry nx p phys flags e).
Proof. intros He. unfold leaf_entry, set_flags, set_user, set_prot, set_present, set_phys_addr, set_execute_disable, set_write_through, set_cache_disable, set_write. auto 20 with typed. Qed.
Lemma set_flags_fits nx flags e : fits 64 e → fits 64 (set_flags nx flags e).
Proof. intros He. unfold set_flags, set_execute_disable, set_write_through, set_cache_disable, set_write. auto 20 with typed. Qed.
Lemma directory_entry_fits p u q e :
  fits 64 e → fits 64 (set_user u (set_prot p (set_write true (set_present true (set_phys_addr q e))))).
Proof. intros He. unfold set_user, set_prot, set_present, set_phys_addr, set_write. auto 20 with typed. Qed.
Lemma kernel_entry_fits q e : fits 64 e → fits 64 (set_write true (set_present true (set_phys_addr q e))).
Proof. intros He. unfold set_present, set_phys_addr, set_write. auto 20 with typed. Qed.
#[export] Hint Resolve leaf_entry_fits set_flags_fits directory_entry_fits kernel_entry_fits : typed.

Definition maybe {A} (P : A → Prop) (o : option A) : Prop := ∀ a, o = Some a → P a.
Lemma maybe_Some {A} (P : A → Prop) a : P a → maybe P (Some a).
Proof. by intros ? ? [= <-]. Qed.
Lemma maybe_None {A} (P : A → Prop) : maybe P None.
Proof. by intros ?. Qed.
Lemma maybe_elim {A} (P : A → Prop) a : maybe P (Some a) → P a.
Proof. intros H. by apply H. Qed.
#[export] Hint Resolve maybe_Some maybe_None : typed.
#[export] Hint Extern 2 (fits 64 _) => (eapply (maybe_elim (fits 64)); eassumption) : typed.

(** ** The entry pool *)

Lemma set_pool_typed p s : pool_typed p → kmem_typed s → kmem_typed (set_pool p s).
Proof. by intros Hp [_ ? ?]. Qed.
Lemma set_lists_typed l s : Forall list_typed l → kmem_typed s →
  kmem_typed (set_frames {| fa_free_lists := l; fa_order_sizes := fa_order_sizes (km_frames s) |} s).
Proof. by intros Hl [? _ ?]. Qed.

Lemma push_entries_typed n addr head : fits 64 addr → Forall (fits 64) head → Forall (fits 64) (EntryPool.push_entries n addr head).
Proof. revert addr head. induction n as [|n IH]; intros addr head Ha Hh; [done|]. apply IH; [auto with typed|by constructor]. Qed.

Lemma typed_set_count f : (∀ s, fits 64 (f s)) → ktyped (modify (λ s, EntryPool.set_count (f s) s)) (λ _, True).
Proof. intros Hf. apply typed_modify. intros s Hs. apply set_pool_typed; [|done]. split; [apply Hf|apply Hs]. Qed.
Lemma typed_set_heads f : (∀ s, kmem_typed s → Forall (fits 64) (f s)) → ktyped (modify (λ s, EntryPool.set_head (f s) s)) (λ _, True).
Proof. intros Hf. apply typed_modify. intros s Hs. apply set_pool_typed; [|done]. split; [apply Hs|by apply Hf]. Qed.
#[export] Hint Extern 1 (typed _ (modify (λ s, EntryPool.set_count _ s)) _) => (apply typed_set_count; intros; auto with typed) : typed.

Lemma typed_fill_pool addr pages : fits 64 addr → ktyped (EntryPool.fill_memory_entry_pool addr pages) (λ _, True).
Proof.
  intros Ha. unfold EntryPool.fill_memory_entry_pool. eapply typed_bind; [|intros; typed].
  apply typed_set_heads. intros s Hs. apply push_entries_typed; [done|apply Hs].
Qed.
#[export] Hint Resolve typed_fill_pool : typed.

Class EntriesTyped `{!MemoryEntries} : Prop := {
  typed_get_entry : ktyped get_memory_entry (fits 64);
  typed_free_entry e : fits 64 e → ktyped (free_memory_entry e) (λ _, True);
}.
#[export] Hint Resolve typed_get_entry typed_free_entry : typed.

Lemma pool_entries_typed alloc_pages :
  (∀ pages flags, ktyped (alloc_pages pages flags) (fits 64)) → @EntriesTyped (EntryPool.pool_entries alloc_pages).
Proof.
  intros Ha. split; cbn.
  - unfold EntryPool.get_memory_entry. eapply typed_bind; [by apply (typed_gets _ _ (λ _, True))|intros c _].
    apply (typed_bind _ _ _ (λ _, True)); [case_match; [|by apply typed_ret]; typed|intros _ _].
    eapply typed_bind; [apply (typed_gets _ _ (Forall (fits 64))); intros s Hs; apply Hs|intros [|e next] Hh; [apply typed_throw|]].
    apply Forall_cons in Hh as [He Hn]. eapply typed_bind; [by apply typed_set_heads|]. typed.
  - intros e He. unfold EntryPool.free_memory_entry. typed. apply typed_set_heads. intros s Hs. constructor; [done|apply Hs].
Qed.

(** ** The frame allocator *)

Lemma typed_get_list o : ktyped (get_list o) list_typed.
Proof.
  unfold get_list. eapply typed_bind; [apply (typed_gets _ _ (maybe list_typed))|].
  - intros s Hs l. apply lookupZ_Forall, Hs.
  - intros l Hl. by apply typed_of_option.
Qed.
Lemma typed_set_list o l : list_typed l → ktyped (set_list o l) (λ _, True).
Proof. intros Hl. apply typed_modify. intros s Hs. apply set_lists_typed; [|done]. apply insertZ_Forall; [apply Hs|done]. Qed.
#[export] Hint Resolve typed_get_list typed_set_list : typed.

Lemma typed_get_head o : ktyped (get_head o) (Forall entry_typed).
Proof. unfold get_head. typed. Qed.
Lemma typed_set_head o h : Forall entry_typed h → ktyped (set_head o h) (λ _, True).
Proof. intros Hh. unfold set_head. typed. Qed.
#[export] Hint Resolve typed_get_head typed_set_head : typed.
Lemma typed_remove_head o : ktyped (remove_head o) entry_typed.
Proof.
  unfold remove_head. typed_step; intros. typed_step; [apply typed_throw|].
  match goal with H : Forall _ (_ :: _) |- _ => apply Forall_cons in H as [??] end. typed.
Qed.
Lemma typed_order_size o : ktyped (order_size o) (λ _, True).
Proof. unfold order_size. eapply typed_bind; [by apply (typed_gets _ _ (λ _, True))|]. intros. by apply typed_of_option. Qed.
#[export] Hint Resolve typed_remove_head typed_order_size : typed.
Lemma typed_frame_order_size o : ktyped (get_frame_order_size o) (λ _, True).
Proof. unfold get_frame_order_size. typed. Qed.
#[export] Hint Resolve typed_frame_order_size : typed.

Lemma typed_min_size_order pages : ktyped (get_min_size_frame_order pages) (λ _, True).
Proof. unfold get_min_size_frame_order. typed. apply (typed_bind _ _ _ (λ _, True)); typed. Qed.
Lemma typed_allocation_pages allocation : ktyped (calculate_allocation_pages allocation) (λ _, True).
Proof.
  unfold calculate_allocation_pages. apply (typed_bind _ _ _ (λ _, True)); [|typed].
  generalize 0. induction allocation; intros n; cbn [allocation_size]; typed.
Qed.
Lemma typed_buddy_index addr o : ktyped (calc_buddy_index addr o) (λ r, fits 6 r.2).
Proof. unfold calc_buddy_index. typed. Qed.
#[export] Hint Resolve typed_min_size_order typed_allocation_pages typed_buddy_index : typed.

Lemma typed_get_buddy_bit addr o : ktyped (get_buddy_bit addr o) (λ _, True).
Proof. unfold get_buddy_bit. typed. Qed.
Lemma typed_toggle addr o : ktyped (toggle_buddy_bit addr o) (λ _, True).
Proof.
  unfold toggle_buddy_bit. typed.
Qed.
#[export] Hint Resolve typed_get_buddy_bit typed_toggle : typed.

Section frames.
Context `{!MemoryEntries, !EntriesTyped}.

Lemma typed_split_entry e o : entry_typed e → ktyped (split_entry e o) (λ _, True).
Proof. intros He. unfold split_entry. typed. Qed.
Lemma typed_free_entries l : Forall block_typed l → ktyped (free_frame_allocation_entries l) (λ _, True).
Proof. induction 1 as [|b l [Hb _] Hl IH]; cbn [free_frame_allocation_entries]; typed. Qed.
#[local] Hint Resolve typed_split_entry typed_free_entries : typed.

Lemma typed_merge e next o : entry_typed e → Forall entry_typed next → ktyped (merge e next o) (λ _, True).
Proof.
  intros He Hn. unfold merge. apply (typed_loop _ (λ '(e, next, _), entry_typed e ∧ Forall entry_typed next)); [done|].
  clear e next o He Hn. intros [[e next] o] [He Hn]. unfold merge_step. typed. all: try (by apply typed_ret).
  all: match goal with H : find_split _ _ = Some _ |- _ => eapply find_split_Forall in H as [??]; [|eassumption] end.
  all: typed; match goal with H : (if ?c then _ else _) = _ |- _ => destruct c; simplify_eq end; typed.
Qed.
#[local] Hint Resolve typed_merge : typed.

Lemma typed_free_block b : block_typed b → ktyped (free_block b) (λ _, True).
Proof. intros [Hp Ha]. unfold free_block. typed. Qed.
#[local] Hint Resolve typed_free_block : typed.
Lemma typed_free_frames l : Forall block_typed l → ktyped (free_frames l) (λ _, True).
Proof. induction 1; cbn [free_frames]; typed. Qed.
#[local] Hint Resolve typed_free_frames : typed.

Lemma typed_biggest_order size : ktyped (biggest_order size) (λ _, True).
Proof. unfold biggest_order. apply (typed_bind _ _ _ (λ _, True)); [apply (typed_loop _ (λ _, True)); [done|]|]; typed. Qed.
Lemma typed_biggest_free_order o : ktyped (biggest_free_order o) (λ _, True).
Proof. apply (typed_loop _ (λ _, True)); [done|]; typed. Qed.
#[local] Hint Resolve typed_biggest_order typed_biggest_free_order : typed.
Lemma typed_find_block o : ktyped (find_block o) (λ _, True).
Proof. apply (typed_loop _ (λ _, True)); [done|]; typed. Qed.
#[local] Hint Resolve typed_find_block : typed.

Lemma typed_alloc_frames pages : ktyped (alloc_frames pages) (Forall block_typed).
Proof.
  apply (typed_loop _ (λ '(_, front), Forall block_typed front)); [done|]. intros [size front] Hf. unfold alloc_step. typed.
Qed.
#[local] Hint Resolve typed_alloc_frames : typed.

Lemma typed_alloc_contiguos pages : ktyped (alloc_frames_contiguos pages) (maybe (fits 64)).
Proof.
  unfold alloc_frames_contiguos. typed_step; intros. typed_step; intros. apply (typed_bind _ _ _ (λ _, True)).
  { apply (typed_loop _ (λ _, True)); [done|]. unfold contiguos_step. typed. }
  typed.
Qed.
Lemma typed_free_contiguos addr pages : ktyped (free_frames_contiguos addr pages) (λ _, True).
Proof. unfold free_frames_contiguos. typed. Qed.

#[local] Hint Resolve typed_alloc_contiguos typed_free_contiguos : typed.

(** ** The paging state *)

Lemma typed_get_paging : ktyped get_paging paging_typed.
Proof. apply typed_gets. intros s Hs. apply Hs. Qed.
Lemma typed_modify_paging f : (∀ g, paging_typed g → paging_typed (f g)) → ktyped (modify_paging f) (λ _, True).
Proof. intros Hf. apply typed_modify. intros s [? ? Hg]. split; [done..|by apply Hf]. Qed.
(** A look-up in one of the maps of the state. *)
Lemma typed_find {A} (f : kmem → gmap Z A) p e (P : A → Prop) :
  (∀ s, kmem_typed s → map_Forall (λ _, P) (f s)) → ktyped (a ← gets (λ s, f s !! p); of_option e a) P.
Proof.
  intros Hf. eapply typed_bind; [apply (typed_gets _ _ (maybe P))|by intros; apply typed_of_option].
  intros s Hs a Ha. by eapply (Hf s Hs).
Qed.
#[local] Hint Resolve typed_get_paging : typed.

Lemma typed_get_space space : ktyped (get_space space) space_typed.
Proof. apply typed_find. intros s Hs. apply Hs. Qed.
Lemma typed_set_space space a : space_typed a → ktyped (set_space space a) (λ _, True).
Proof. intros Ha. apply typed_modify_paging. intros g []. split; [by apply map_Forall_insert_2|done..]. Qed.
Lemma typed_get_node p : ktyped (get_node p) node_typed.
Proof. unfold get_node. case_match; [apply typed_throw|]. apply typed_find. intros s Hs. apply Hs. Qed.
Lemma typed_set_node p n : node_typed n → ktyped (set_node p n) (λ _, True).
Proof. intros Hn. apply typed_modify_paging. intros g []. split; [done|by apply map_Forall_insert_2|done..]. Qed.
Lemma typed_delete_node p : ktyped (delete_node p) (λ _, True).
Proof. apply typed_modify_paging. intros g []. split; [done|by apply map_Forall_delete|done..]. Qed.
#[local] Hint Resolve typed_get_space typed_set_space typed_get_node typed_set_node typed_delete_node : typed.

Lemma set_current_typed v a : fits 64 v → space_typed a → space_typed (set_current_address v a).
Proof. by intros ? []. Qed.
Lemma set_free_list_typed p a : fits 64 p → space_typed a → space_typed (set_free_list p a).
Proof. by intros ? []. Qed.
Lemma node_typed_intro n a p : fits 48 n → fits 36 a → fits 44 p → node_typed {| fle_next := n; fle_addr := a; fle_pages := p |}.
Proof. done. Qed.
Lemma node_typed_next n : node_typed n → fits 48 (fle_next n).
Proof. apply proj1. Qed.
Lemma node_typed_addr n : node_typed n → fits 36 (fle_addr n).
Proof. by intros (_ & ? & _). Qed.
Lemma node_typed_pages n : node_typed n → fits 44 (fle_pages n).
Proof. by intros (_ & _ & ?). Qed.
Lemma node_typed_next64 n : node_typed n → fits 64 (fle_next n).
Proof. intros [? _]. by apply (fits_mono 48). Qed.
#[local] Hint Resolve set_current_typed set_free_list_typed node_typed_intro node_typed_next node_typed_addr node_typed_pages node_typed_next64 : typed.
#[local] Hint Resolve st_current st_pdp st_free_list : typed.

Lemma typed_push_free_range space entry virt_addr pages : fits 64 entry → ktyped (push_free_range space entry virt_addr pages) (λ _, True).
Proof. intros He. unfold push_free_range. typed. Qed.
#[local] Hint Resolve typed_push_free_range : typed.
Lemma typed_add_range space virt_addr pages : ktyped (add_range_to_free_list space virt_addr pages) (λ _, True).
Proof. unfold add_range_to_free_list. typed. Qed.
Lemma typed_alloc_addr_space space pages : ktyped (alloc_addr_space space pages) (fits 64).
Proof.
  unfold alloc_addr_space. do 2 (typed_step; intros). eapply (typed_bind _ _ _ (maybe (fits 64))).
  - apply (typed_loop _ (λ '(_, entry), fits 64 entry)); [eauto with typed|]. intros [last entry] He. unfold alloc_addr_step.
    typed. apply (typed_bind _ _ _ (λ _, True)); typed.
  - typed.
Qed.
Lemma typed_claim space virt_addr pages : ktyped (claim_virt_range space virt_addr pages) (λ _, True).
Proof. unfold claim_virt_range. typed. Qed.
#[local] Hint Resolve typed_add_range typed_alloc_addr_space typed_claim : typed.

(** ** Page tables *)

Lemma typed_get_table p : ktyped (get_table p) table_typed.
Proof. unfold get_table. case_match; [apply typed_throw|]. apply typed_find. intros s Hs. apply Hs. Qed.
#[local] Hint Resolve typed_get_table : typed.
Lemma typed_get_page_entry p i : ktyped (get_entry p i) (fits 64).
Proof. unfold get_entry. typed_step. intros ? [_ Ht]. by apply typed_lookupZ. Qed.
Lemma typed_set_entry p i e : fits 64 e → ktyped (set_entry p i e) (λ _, True).
Proof.
  intros He. unfold set_entry. typed_step. intros ? [Hl Ht]. apply typed_modify_paging. intros g []. split; [done..| |done|done|done].
  apply map_Forall_insert_2; [|done]. split; [by rewrite length_insertZ|by apply insertZ_Forall].
Qed.
Lemma zero_table_typed : table_typed (replicate 512 0).
Proof. split; [done|]. apply Forall_replicate. by apply fits_0. Qed.
Lemma typed_clear_page p : ktyped (clear_page p) (λ _, True).
Proof. apply typed_modify_paging. intros g []. split; [done..| |done|done|done]. apply map_Forall_insert_2; [apply zero_table_typed|done]. Qed.
Lemma typed_invlpg v : ktyped (invlpg v) (λ _, True).
Proof. apply typed_modify_paging. by intros g []. Qed.
#[local] Hint Resolve typed_get_page_entry typed_set_entry typed_clear_page typed_invlpg : typed.

Lemma typed_get_entry_map space level : ktyped (get_entry_map space level) (Forall mapping_typed).
Proof. unfold get_entry_map. typed_step. intros ? Ha. apply typed_lookupZ, Ha. Qed.
#[local] Hint Resolve typed_get_entry_map : typed.
Lemma typed_push_mapping space level m : mapping_typed m → ktyped (push_mapping space level m) (λ _, True).
Proof.
  intros Hm. unfold push_mapping. typed_step. intros ? Ha. eapply typed_bind; [apply typed_lookupZ, Ha|].
  intros l Hl. apply typed_set_space. destruct Ha. split; [done..| |].
  - cbn. by rewrite length_insertZ.
  - cbn. apply insertZ_Forall; [done|by constructor].
Qed.
Lemma typed_get_page_entries space e level : ktyped (get_page_entries space e level) (λ _, True).
Proof. unfold get_page_entries. typed. Qed.
#[local] Hint Resolve typed_get_page_entries : typed.
Lemma typed_virt_to_phys space v : ktyped (virt_to_phys_addr space v) (λ _, True).
Proof.
  unfold virt_to_phys_addr. typed.
Qed.
Lemma mapping_typed_intro p v a : fits 64 p → fits 36 v → fits 38 a → mapping_typed {| me_ptr := p; me_virt_addr := v; me_phys_addr := a |}.
Proof. done. Qed.
#[local] Hint Resolve typed_push_mapping typed_virt_to_phys mapping_typed_intro : typed.

Lemma typed_set_pool p : (∀ g, paging_typed g → fits 64 (pp_count (p g)) ∧ Forall mapping_typed (pp_head (p g))) →
  ktyped (modify_paging (λ g, with_page_pool (p g) g)) (λ _, True).
Proof. intros Hp. apply typed_modify_paging. intros g Hg. destruct (Hp g Hg), Hg. by split. Qed.

Section paging.
Context (kmap_allocation : list PageFrameAllocation → Z → KM Z) (kmap_phys_range : Z → Z → Z → KM Z).
Hypothesis (typed_kmap_allocation : ∀ l flags, ktyped (kmap_allocation l flags) (fits 64)).
Hypothesis (typed_kmap_phys_range : ∀ p pages flags, ktyped (kmap_phys_range p pages flags) (fits 64)).
#[local] Hint Resolve typed_kmap_allocation typed_kmap_phys_range : typed.

Lemma typed_add_pool_pages n v p : ktyped (add_pool_pages n v p) (λ _, True).
Proof.
  revert v p. induction n as [|n IH]; intros v p; cbn [add_pool_pages]; typed. eapply typed_bind; [apply typed_set_pool|by intros].
  intros g Hg. split; [apply Hg|]. constructor; [auto with typed|apply Hg].
Qed.
#[local] Hint Resolve typed_add_pool_pages : typed.
Lemma typed_add_pool_allocation l v : Forall block_typed l → ktyped (add_pool_allocation l v) (λ _, True).
Proof. intros Hl. revert v. induction Hl as [|b l [Hb _] Hl IH]; intros v; cbn [add_pool_allocation]; typed. Qed.
#[local] Hint Resolve typed_add_pool_allocation : typed.
Lemma typed_refill : ktyped (refill_page_pool kmap_allocation) (λ _, True).
Proof.
  unfold refill_page_pool. typed_step; intros. typed_step; [|typed]. eapply typed_bind; [|typed].
  apply typed_set_pool. intros g Hg. split; [by apply fits_wrap|apply Hg].
Qed.
Lemma typed_take_pool_page : ktyped take_pool_page mapping_typed.
Proof.
  unfold take_pool_page. typed_step. intros ? Hg. case_match eqn:E; [typed|].
  pose proof (gt_pool _ Hg) as Hp. rewrite E in Hp. apply Forall_cons in Hp as [Hm Hp].
  eapply typed_bind; [apply typed_modify_paging|typed]. intros g' []. split; [done..|by apply fits_wrap|done|done].
Qed.
#[local] Hint Resolve typed_refill typed_take_pool_page : typed.

Lemma typed_get_or_alloc space p i level : ktyped (get_or_alloc_page_entries kmap_allocation kmap_phys_range space p i level) (λ _, True).
Proof. unfold get_or_alloc_page_entries. typed. Qed.
#[local] Hint Resolve typed_get_or_alloc : typed.
Lemma typed_page_entries b space p i level : ktyped (page_entries kmap_allocation kmap_phys_range b space p i level) (λ _, True).
Proof. unfold page_entries. typed. Qed.
#[local] Hint Resolve typed_page_entries : typed.
Lemma typed_populate space v b : ktyped (populate_page_table_location kmap_allocation kmap_phys_range space v b) (λ _, True).
Proof. unfold populate_page_table_location. typed. Qed.
Lemma typed_traversal space v loc b : ktyped (page_table_traversal_helper kmap_allocation kmap_phys_range space v loc b) (λ _, True).
Proof. unfold page_table_traversal_helper. typed. Qed.
Lemma typed_map_page space v p flags loc : ktyped (map_page space v p flags loc) (λ _, True).
Proof. unfold map_page. typed. Qed.
#[local] Hint Resolve typed_populate typed_traversal typed_map_page : typed.
Lemma typed_map_range_helper space v p n flags loc : ktyped (map_range_helper kmap_allocation kmap_phys_range space v p n flags loc) (λ _, True).
Proof. revert v p loc. induction n; intros v p loc; cbn [map_range_helper]; typed. Qed.
#[local] Hint Resolve typed_map_range_helper : typed.
Lemma typed_map_blocks space v l flags loc : ktyped (map_blocks kmap_allocation kmap_phys_range space v l flags loc) (λ _, True).
Proof. revert v loc. induction l; intros v loc; cbn [map_blocks]; typed. Qed.
#[local] Hint Resolve typed_map_blocks : typed.

Lemma typed_map_allocation space l flags : ktyped (map_allocation kmap_allocation kmap_phys_range space l flags) (fits 64).
Proof. unfold map_allocation. typed. Qed.
Lemma typed_map_phys_range space p pages flags : ktyped (map_phys_range kmap_allocation kmap_phys_range space p pages flags) (fits 64).
Proof. unfold map_phys_range. typed. Qed.
Lemma typed_map_allocation_to_range space l v flags : ktyped (map_allocation_to_range kmap_allocation kmap_phys_range space l v flags) (λ _, True).
Proof. unfold map_allocation_to_range. typed. Qed.
Lemma typed_map_to_range space p v pages flags : ktyped (map_to_range kmap_allocation kmap_phys_range space p v pages flags) (λ _, True).
Proof. unfold map_to_range. typed. Qed.

Lemma typed_unmap_pages space v n loc : ktyped (unmap_pages kmap_allocation kmap_phys_range space v n loc) (λ _, True).
Proof. revert v loc. induction n; intros v loc; cbn [unmap_pages]; typed. Qed.
#[local] Hint Resolve typed_unmap_pages : typed.
Lemma typed_unmap_range space v pages : ktyped (unmap_range kmap_allocation kmap_phys_range space v pages) (λ _, True).
Proof. unfold unmap_range. typed. Qed.
Lemma typed_collect_frame run a : ktyped (collect_frame run a) (λ _, True).
Proof. unfold collect_frame. typed. Qed.
#[local] Hint Resolve typed_collect_frame : typed.
Lemma typed_unmap_and_collect space v n loc run : ktyped (unmap_and_collect kmap_allocation kmap_phys_range space v n loc run) (λ _, True).
Proof. revert v loc run. induction n; intros v loc run; cbn [unmap_and_collect]; typed. Qed.
#[local] Hint Resolve typed_unmap_and_collect : typed.
Lemma typed_unmap_and_free space v pages : ktyped (unmap_and_free_frames kmap_allocation kmap_phys_range space v pages) (λ _, True).
Proof. unfold unmap_and_free_frames. typed. Qed.
Lemma typed_set_flags_pages space v n flags loc : ktyped (set_flags_pages kmap_allocation kmap_phys_range space v n flags loc) (λ _, True).
Proof. revert v loc. induction n; intros v loc; cbn [set_flags_pages]; typed. Qed.
#[local] Hint Resolve typed_set_flags_pages : typed.
Lemma typed_range_set_flags space v pages flags : ktyped (range_set_flags kmap_allocation kmap_phys_range space v pages flags) (λ _, True).
Proof. unfold range_set_flags. typed. Qed.
End paging.

Lemma typed_free_uefi_memory map : ktyped (free_uefi_memory map) (λ _, True).
Proof.
  induction map as [|d map IH]; cbn [free_uefi_memory]; typed. apply (typed_bind _ _ _ (λ _, True)); [|typed].
  assert (ktyped (free_uefi_range (md_physical_start d) (u64 (md_num_pages d * PAGE_SIZE))) (λ _, True)); [|typed].
  apply (typed_loop _ (λ _, True)); [done|]. intros [p size] _. typed. eapply (typed_bind _ _ _ (λ _, True)); [|typed].
  unfold uefi_order. eapply (typed_bind _ _ _ (λ _, True)); [apply (typed_loop _ (λ _, True)); [done|]; typed|typed].
Qed.
#[local] Hint Resolve typed_free_uefi_memory : typed.
Lemma typed_free_uefi map : ktyped (free_uefi_memory_and_remove_identity_mapping map) (λ _, True).
Proof.
  unfold free_uefi_memory_and_remove_identity_mapping. typed. apply typed_modify_paging. intros g [????? [Hl Ht]].
  split; [done..|]. split; cbn [pg_pml4 with_pml4].
  - rewrite length_app, length_replicate, length_drop. unfold KERNEL_PML4_OFFSET. rewrite Hl. done.
  - apply Forall_app. split; [apply Forall_replicate; by apply fits_0|by apply Forall_drop].
Qed.

(** ** The memory system *)

Record ops_typed (K : KernelOps) : Prop := {
  ot_alloc_pages pages flags : ktyped (ko_alloc_pages K pages flags) (fits 64);
  ot_kmap_allocation l flags : ktyped (ko_kmap_allocation K l flags) (fits 64);
  ot_kmap_phys_range p pages flags : ktyped (ko_kmap_phys_range K p pages flags) (fits 64);
}.

Section operations.
Context (K : KernelOps) (HK : ops_typed K).
#[local] Hint Resolve ot_alloc_pages ot_kmap_allocation ot_kmap_phys_range : typed.
#[local] Hint Resolve typed_map_allocation typed_map_phys_range typed_unmap_range typed_unmap_and_free typed_range_set_flags : typed.

Lemma typed_kmap_allocation l flags : ktyped (kmap_allocation K l flags) (fits 64).
Proof. unfold kmap_allocation. typed. Qed.
Lemma typed_kmap_phys_range p pages flags : ktyped (kmap_phys_range K p pages flags) (fits 64).
Proof. unfold kmap_phys_range. typed. Qed.
#[local] Hint Resolve typed_kmap_allocation typed_kmap_phys_range : typed.
Lemma typed_alloc_pages pages flags : ktyped (alloc_pages K pages flags) (fits 64).
Proof. unfold alloc_pages. typed. Qed.
Lemma typed_alloc_pages_contiguous pages flags : ktyped (alloc_pages_contiguous K pages flags) (fits 64).
Proof. unfold alloc_pages_contiguous. typed. Qed.
Lemma typed_free_pages ptr pages : ktyped (free_pages K ptr pages) (λ _, True).
Proof. unfold free_pages, kunmap_and_free_frames. typed. Qed.
Lemma typed_kunmap_range v pages : ktyped (kunmap_range K v pages) (λ _, True).
Proof. unfold kunmap_range. typed. Qed.
#[local] Hint Resolve typed_alloc_pages_contiguous typed_kunmap_range : typed.
Lemma typed_free_pages_contiguous ptr pages : ktyped (free_pages_contiguous K ptr pages) (λ _, True).
Proof. unfold free_pages_contiguous, kvirt_to_phys_addr. typed. Qed.
#[local] Hint Resolve typed_free_pages_contiguous : typed.

Lemma typed_new_address_space space index prot :
  fits 16 index → 0 ≤ prot → ktyped (new_address_space K space index prot) (λ _, True).
Proof.
  intros Hi Hp. unfold new_address_space. typed_step; intros _ _. destruct (Z.leb_spec prot 15); [|by intros s r s'].
  typed_step; intros _ _. eapply typed_bind; [apply typed_set_space|intros _ _].
  - split; cbn [as_current_address as_pdp_index as_pdp as_prot as_free_list as_entry_maps]; [|done| | | |done|by repeat constructor].
    + case_match; [done|auto with typed].
    + by apply fits_0.
    + unfold fits. lia.
    + by apply fits_0.
  - typed_step; intros pdp Hpdp. typed_step; intros a []. eapply typed_bind; [by apply typed_set_space|]. typed.
Qed.

Lemma typed_free_range_nodes l : fits 64 l → ktyped (free_range_nodes l) (λ _, True).
Proof. intros Hl. unfold free_range_nodes. typed_step. intros g _. apply (typed_loop _ (fits 64)); [done|]. typed. Qed.
Lemma typed_free_mappings l : Forall mapping_typed l → ktyped (free_mappings K l) (λ _, True).
Proof. induction 1 as [|m l [Hm _] Hl IH]; cbn [free_mappings]; typed. Qed.
#[local] Hint Resolve typed_free_range_nodes typed_free_mappings : typed.
Lemma typed_delete_address_space space : ktyped (delete_address_space K space) (λ _, True).
Proof. unfold delete_address_space. typed. Qed.

Lemma typed_set_pml4_entry i e : fits 64 e → ktyped (set_pml4_entry i e) (λ _, True).
Proof.
  intros He. apply typed_modify_paging. intros g [????? [Hl Ht]]. split; [done..|].
  split; cbn; [by rewrite length_insertZ|by apply insertZ_Forall].
Qed.
Lemma typed_invalidate_space a : ktyped (invalidate_space a) (λ _, True).
Proof. unfold invalidate_space. generalize (as_pdp_index a * PDP_MEM_RANGE) at 2. induction (Z.to_nat _); intros v; cbn [invalidate_pages]; typed. Qed.
#[local] Hint Resolve typed_set_pml4_entry typed_invalidate_space : typed.
Lemma typed_map_address_space space : ktyped (map_address_space space) (λ _, True).
Proof.
  unfold map_address_space, kvirt_to_phys_addr. typed_step; intros a Ha. typed_step; intros [p|] _; [|typed].
  typed_step; intros g Hg. eapply typed_bind; [apply (typed_lookupZ _ _ _ _ (fits 64)), (gt_pml4 _ Hg)|]. typed.
Qed.
Lemma typed_unmap_address_space space : ktyped (unmap_address_space space) (λ _, True).
Proof. unfold unmap_address_space. typed. Qed.
End operations.
End frames.

(** However deep the operations are nested. *)
Lemma kernel_typed n : ops_typed (kernel n).
Proof.
  induction n as [|n IH]; [by split; intros; apply typed_throw|].
  pose proof (pool_entries_typed _ (ot_alloc_pages _ IH)).
  split; intros; [by apply typed_alloc_pages|by apply typed_kmap_allocation|by apply typed_kmap_phys_range].
Qed.

(** *** Sequences of calls *)

Inductive call :=
  | call_alloc_pages (pages flags : Z)
  | call_free_pages (ptr pages : Z)
  | call_alloc_pages_contiguous (pages flags : Z)
  | call_free_pages_contiguous (ptr pages : Z)
  | call_kmap_phys_range (phys_addr pages flags : Z)
  | call_kunmap_range (virt_addr pages : Z)
  | call_new_address_space (space pdp_index prot : Z)
  | call_delete_address_space (space : Z)
  | call_map_address_space (space : Z)
  | call_unmap_address_space (space : Z)
  | call_map_allocation (space : Z) (allocation : list PageFrameAllocation) (flags : Z)
  | call_map_allocation_to_range (space : Z) (allocation : list PageFrameAllocation) (virt_addr flags : Z)
  | call_map_phys_range (space phys_addr pages flags : Z)
  | call_map_to_range (space phys_addr virt_addr pages flags : Z)
  | call_unmap_range (space virt_addr pages : Z)
  | call_unmap_and_free_frames (space virt_addr pages : Z)
  | call_range_set_flags (space virt_addr pages flags : Z)
  | call_virt_to_phys_addr (space virt_addr : Z)
  | call_free_frames (allocation : list PageFrameAllocation)
  | call_alloc_frames (pages : Z)
  | call_free_uefi_memory (map : list UEFIMemoryDescriptor).

(** What the prototypes of the functions say of their arguments, where it matters. *)
Definition call_typed (c : call) : Prop :=
  match c with
  | call_new_address_space _ pdp_index prot => fits 16 pdp_index ∧ fits 8 prot
  | call_free_frames allocation => Forall block_typed allocation
  | _ => True
  end.

Definition drop_result {A} (m : KM A) : KM unit := _ ← m; mret tt.

Definition make_call (K : KernelOps) (c : call) : KM unit :=
  let entries := EntryPool.pool_entries (ko_alloc_pages K) in
  let ka := ko_kmap_allocation K in
  let kr := ko_kmap_phys_range K in
  match c with
  | call_alloc_pages pages flags => drop_result (ko_alloc_pages K pages flags)
  | call_free_pages ptr pages => free_pages K ptr pages
  | call_alloc_pages_contiguous pages flags => drop_result (alloc_pages_contiguous K pages flags)
  | call_free_pages_contiguous ptr pages => free_pages_contiguous K ptr pages
  | call_kmap_phys_range p pages flags => drop_result (ko_kmap_phys_range K p pages flags)
  | call_kunmap_range v pages => kunmap_range K v pages
  | call_new_address_space space pdp_index prot => new_address_space K space pdp_index prot
  | call_delete_address_space space => delete_address_space K space
  | call_map_address_space space => map_address_space space
  | call_unmap_address_space space => unmap_address_space space
  | call_map_allocation space l flags => drop_result (map_allocation ka kr space l flags)
  | call_map_allocation_to_range space l v flags => drop_result (map_allocation_to_range ka kr space l v flags)
  | call_map_phys_range space p pages flags => drop_result (map_phys_range ka kr space p pages flags)
  | call_map_to_range space p v pages flags => drop_result (map_to_range ka kr space p v pages flags)
  | call_unmap_range space v pages => unmap_range ka kr space v pages
  | call_unmap_and_free_frames space v pages => unmap_and_free_frames ka kr space v pages
  | call_range_set_flags space v pages flags => drop_result (range_set_flags ka kr space v pages flags)
  | call_virt_to_phys_addr space v => drop_result (virt_to_phys_addr space v)
  | call_free_frames l => free_frames l
  | call_alloc_frames pages => drop_result (alloc_frames pages)
  | call_free_uefi_memory map => free_uefi_memory_and_remove_identity_mapping map
  end.

Fixpoint make_calls (K : KernelOps) (cs : list call) : KM unit :=
  match cs with
  | [] => mret tt
  | c :: cs => _ ← make_call K c; make_calls K cs
  end.

Lemma typed_drop {A} (m : KM A) Q : ktyped m Q → ktyped (drop_result m) (λ _, True).
Proof. intros Hm. eapply typed_bind; [exact Hm|]. intros; by apply typed_ret. Qed.

Lemma typed_call K c : ops_typed K → call_typed c → ktyped (make_call K c) (λ _, True).
Proof.
  intros HK Hc. pose proof (pool_entries_typed _ (ot_alloc_pages _ HK)). pose proof HK as [Ha Hk Hp].
  destruct c; cbn [make_call]; cbn in Hc; try eapply typed_drop;
    eauto using typed_free_pages, typed_alloc_pages_contiguous, typed_free_pages_contiguous, typed_kunmap_range, typed_delete_address_space,
      typed_map_address_space, typed_unmap_address_space, typed_map_allocation, typed_map_allocation_to_range, typed_map_phys_range,
      typed_map_to_range, typed_unmap_range, typed_unmap_and_free, typed_range_set_flags, typed_virt_to_phys, typed_free_frames,
      typed_alloc_frames, typed_free_uefi.
  destruct Hc as [? [? _]]. by apply typed_new_address_space.
Qed.

Lemma typed_calls K cs : ops_typed K → Forall call_typed cs → ktyped (make_calls K cs) (λ _, True).
Proof.
  intros HK Hcs. induction Hcs as [|c cs Hc Hcs IH]; [by apply typed_ret|].
  eapply typed_bind; [by apply typed_call|done].
Qed.


(** *** Deciding it *)

#[export] Instance fits_dec w x : Decision (fits w x) := _.
#[export] Instance node_typed_dec n : Decision (node_typed n) := _.
#[export] Instance mapping_typed_dec m : Decision (mapping_typed m) := _.
#[export] Instance table_typed_dec t : Decision (table_typed t) := _.
#[export] Instance entry_typed_dec e : Decision (entry_typed e) := _.
#[export] Instance list_typed_dec l : Decision (list_typed l) := _.
Ltac by_fields := match goal with H : ¬ _ |- _ => intros []; apply H; by split_and! | |- _ => destruct_and!; by split end.
#[export] Instance block_typed_dec b : Decision (block_typed b) := _.
#[export] Instance call_typed_dec c : Decision (call_typed c).
Proof. destruct c; apply _. Defined.
#[export] Instance pool_typed_dec p : Decision (pool_typed p).
Proof. refine (cast_if (decide (fits 64 (ep_count p) ∧ Forall (fits 64) (ep_head p)))); by_fields.
Defined.
#[export] Instance space_typed_dec a : Decision (space_typed a).
Proof.
  refine (cast_if (decide (fits 64 (as_current_address a) ∧ fits 16 (as_pdp_index a) ∧ fits 64 (as_pdp a) ∧ fits 4 (as_prot a) ∧
    fits 64 (as_free_list a) ∧ length (as_entry_maps a) = 2%nat ∧ Forall (Forall mapping_typed) (as_entry_maps a)))); by_fields.
Defined.
#[export] Instance paging_typed_dec g : Decision (paging_typed g).
Proof.
  refine (cast_if (decide (map_Forall (λ _, space_typed) (pg_spaces g) ∧ map_Forall (λ _, node_typed) (pg_free_nodes g) ∧
    map_Forall (λ _, table_typed) (pg_tables g) ∧ fits 64 (pp_count (pg_page_pool g)) ∧
    Forall mapping_typed (pp_head (pg_page_pool g)) ∧ table_typed (pg_pml4 g)))); by_fields.
Defined.
#[export] Instance kmem_typed_dec s : Decision (kmem_typed s).
Proof.
  refine (cast_if (decide (pool_typed (km_pool s) ∧ Forall list_typed (fa_free_lists (km_frames s)) ∧ paging_typed (km_paging s)))); by_fields.
Defined.
End MemoryTypes.
