(* ===== verification/PagingInvariant.v ===== *)
(** The page tables of an address space as a tree, and what the tree translates.

    [pds] and [pts] say which page of entries serves which index; the tables in memory
    and the two entry maps follow it. *)
From S2P Require Import Prelude Util MemState PageEntry AddressSpace FrameAllocator Paging.

Module PagingInvariant.
Import Util Mem PageEntry AddressSpace Paging.

(** ** Finding a page of entries *)

Definition phys_of (l : list MappingEntry) : list Z := me_phys_addr <$> l.

Lemma find_entries_in maps m e :
  NoDup (phys_of maps) → m ∈ maps → phys_addr e = me_phys_addr m → find_entries maps e = mapping_ptr m.
Proof.
  intros Hnd Hm He. unfold find_entries.
  destruct (find_split_is_Some (λ m, me_phys_addr m =? phys_addr e) maps m Hm) as [[[b m'] a] Hf]; [lia|].
  rewrite Hf. apply find_split_Some in Hf as (-> & Hm' & _). apply Z.eqb_eq in Hm'.
  assert (m' = m) as ->; [|done].
  unfold phys_of in Hnd. rewrite fmap_app, fmap_cons in Hnd. apply NoDup_app in Hnd as (_ & Hb & Ha).
  apply NoDup_cons in Ha as [Ha _]. apply elem_of_app in Hm as [Hm|Hm%elem_of_cons].
  - exfalso. apply (Hb (me_phys_addr m)); [by apply list_elem_of_fmap_2|].
    rewrite <- He, <- Hm'. apply list_elem_of_here.
  - destruct Hm as [->|Hm]; [done|]. exfalso. apply Ha. rewrite Hm', He. by apply list_elem_of_fmap_2.
Qed.

Lemma find_entries_none maps e :
  (∀ m, m ∈ maps → me_phys_addr m ≠ phys_addr e) → find_entries maps e = 0.
Proof.
  intros H. unfold find_entries. assert (find_split (λ m, me_phys_addr m =? phys_addr e) maps = None) as ->; [|done].
  apply find_split_None, Forall_forall. intros m Hm. specialize (H m Hm). lia.
Qed.

(** ** The tree *)

(** The entry for a child: present and pointing at it, or empty. *)
Definition child_entry (e : Z) (child : option MappingEntry) : Prop :=
  match child with
  | Some m => present e = true ∧ phys_addr e = me_phys_addr m
  | None => present e = false ∧ phys_addr e = 0
  end.

Definition table (g : PagingState) (ptr : Z) (t : list Z) : Prop :=
  ptr ≠ 0 ∧ pg_tables g !! ptr = Some t ∧ length t = 512%nat.

Definition table_of (g : PagingState) (ptr : Z) (children : Z → option MappingEntry) : Prop :=
  ∃ t, table g ptr t ∧ ∀ i, 0 ≤ i < 512 → ∃ e, lookupZ t i = Some e ∧ child_entry e (children i).

(** The pages of entries that serve the indices. *)
Definition in_tree (pds : gmap Z MappingEntry) (pts : gmap (Z * Z) MappingEntry) (m : MappingEntry) : Prop :=
  (∃ i, pds !! i = Some m) ∨ (∃ ij, pts !! ij = Some m).

Record tree (g : PagingState) (a : AddressSpace) (pds : gmap Z MappingEntry)
    (pts : gmap (Z * Z) MappingEntry) : Prop := {
  tree_maps : ∃ mpt mpd, as_entry_maps a = [mpt; mpd] ∧
    (∀ m, m ∈ mpt ↔ ∃ ij, pts !! ij = Some m) ∧ (∀ m, m ∈ mpd ↔ ∃ i, pds !! i = Some m) ∧
    NoDup (phys_of (mpt ++ mpd)) ∧ NoDup (as_pdp a :: (mapping_ptr <$> mpt ++ mpd));
  tree_ok : ∀ m, in_tree pds pts m → mapping_ptr m ≠ 0 ∧ 0 < me_phys_addr m < 2 ^ 38;
  tree_pds_inj : ∀ i i' m, pds !! i = Some m → pds !! i' = Some m → i = i';
  tree_pts_inj : ∀ ij ij' m, pts !! ij = Some m → pts !! ij' = Some m → ij = ij';
  tree_parent : ∀ i j m, pts !! (i, j) = Some m → is_Some (pds !! i);
  tree_pdp : table_of g (as_pdp a) (λ i, pds !! i);
  tree_pd : ∀ i m, pds !! i = Some m → table_of g (mapping_ptr m) (λ j, pts !! (i, j));
  tree_pt : ∀ ij m, pts !! ij = Some m → ∃ t, table g (mapping_ptr m) t;
}.

(** The addresses of the pages of entries of a tree, the top one among them. *)
Definition owns (a : AddressSpace) pds pts (ptr : Z) : Prop :=
  ptr = as_pdp a ∨ ∃ m, in_tree pds pts m ∧ ptr = mapping_ptr m.

(** A page that no tree uses and that can become one of this tree. *)
Record fresh (a : AddressSpace) pds pts (m : MappingEntry) : Prop := {
  fr_ptr : mapping_ptr m ≠ 0;
  fr_phys : 0 < me_phys_addr m < 2 ^ 38;
  fr_pdp : mapping_ptr m ≠ as_pdp a;
  fr_new : ∀ m', in_tree pds pts m' → mapping_ptr m' ≠ mapping_ptr m ∧ me_phys_addr m' ≠ me_phys_addr m;
}.

(** The entry of the page of an address. *)
Definition leaf (g : PagingState) (pts : gmap (Z * Z) MappingEntry) (virt_addr : Z) : option Z :=
  m ← pts !! (GET_LEVEL_INDEX virt_addr PDP, GET_LEVEL_INDEX virt_addr PD);
  t ← pg_tables g !! mapping_ptr m;
  lookupZ t (GET_LEVEL_INDEX virt_addr PT).

(** What an address translates to. *)
Definition translate (g : PagingState) (pts : gmap (Z * Z) MappingEntry) (virt_addr : Z) : option Z :=
  e ← leaf g pts virt_addr;
  if present e then Some (Z.lor (u64 (Z.shiftl (phys_addr e) 12)) (Z.land virt_addr 0xfff)) else None.

Section lookups.
Context {g : PagingState} {a : AddressSpace} {pds : gmap Z MappingEntry} {pts : gmap (Z * Z) MappingEntry}.
Context (Ht : tree g a pds pts).

Lemma tree_lists mpt mpd :
  as_entry_maps a = [mpt; mpd] →
  (∀ m, m ∈ mpt ↔ ∃ ij, pts !! ij = Some m) ∧ (∀ m, m ∈ mpd ↔ ∃ i, pds !! i = Some m) ∧
  NoDup (phys_of mpt) ∧ NoDup (phys_of mpd) ∧ NoDup (as_pdp a :: (mapping_ptr <$> mpt ++ mpd)).
Proof using Ht.
  destruct (tree_maps _ _ _ _ Ht) as (mpt' & mpd' & E & Hpt & Hpd & Hph & Hnd).
  rewrite E. intros [= <- <-]. unfold phys_of in Hph. rewrite fmap_app in Hph.
  apply NoDup_app in Hph as (? & _ & ?). by split_and!.
Qed.

Lemma tree_find_pd i e mpt mpd :
  as_entry_maps a = [mpt; mpd] → child_entry e (pds !! i) →
  find_entries mpd e = match pds !! i with Some m => mapping_ptr m | None => 0 end.
Proof using Ht.
  intros E He. destruct (tree_lists mpt mpd E) as (_ & Hpd & _ & Hph & _).
  destruct (pds !! i) as [m'|] eqn:Ei; cbn in He.
  - apply find_entries_in; [done|apply Hpd; eauto|apply He].
  - apply find_entries_none. intros m' Hm'%Hpd. destruct He as [_ ->].
    pose proof (tree_ok _ _ _ _ Ht m' (or_introl Hm')). lia.
Qed.

Lemma tree_find_pt ij e mpt mpd :
  as_entry_maps a = [mpt; mpd] → child_entry e (pts !! ij) →
  find_entries mpt e = match pts !! ij with Some m => mapping_ptr m | None => 0 end.
Proof using Ht.
  intros E He. destruct (tree_lists mpt mpd E) as (Hpt & _ & Hph & _ & _).
  destruct (pts !! ij) as [m'|] eqn:Ei; cbn in He.
  - apply find_entries_in; [done|apply Hpt; eauto|apply He].
  - apply find_entries_none. intros m' Hm'%Hpt. destruct He as [_ ->].
    pose proof (tree_ok _ _ _ _ Ht m' (or_intror Hm')). lia.
Qed.

(** The pages of entries are pairwise distinct pages of memory. *)
Lemma tree_ptr_inj m m' :
  in_tree pds pts m → in_tree pds pts m' → mapping_ptr m = mapping_ptr m' → m = m'.
Proof using Ht.
  destruct (tree_maps _ _ _ _ Ht) as (mpt & mpd & E & Hpt & Hpd & _ & Hnd).
  apply NoDup_cons in Hnd as [_ Hnd]. intros H1 H2.
  assert (∀ x, in_tree pds pts x → x ∈ mpt ++ mpd) as Hin.
  { intros x. rewrite elem_of_app, Hpt, Hpd. unfold in_tree. tauto. }
  intros Hm. by apply (fmap_inj_elem mapping_ptr (mpt ++ mpd)); auto.
Qed.

Lemma tree_pts_ptr_inj ij ij' m m' :
  pts !! ij = Some m → pts !! ij' = Some m' → mapping_ptr m = mapping_ptr m' → ij = ij'.
Proof using Ht.
  intros H1 H2 Hm. apply (tree_pts_inj _ _ _ _ Ht _ _ m H1). rewrite H2. f_equal.
  symmetry. apply tree_ptr_inj; [right; by eexists..|done].
Qed.

Lemma tree_pds_ptr_inj i i' m m' :
  pds !! i = Some m → pds !! i' = Some m' → mapping_ptr m = mapping_ptr m' → i = i'.
Proof using Ht.
  intros H1 H2 Hm. apply (tree_pds_inj _ _ _ _ Ht _ _ m H1). rewrite H2. f_equal.
  symmetry. apply tree_ptr_inj; [left; by eexists..|done].
Qed.

Lemma tree_not_pdp m : in_tree pds pts m → mapping_ptr m ≠ as_pdp a.
Proof using Ht.
  destruct (tree_maps _ _ _ _ Ht) as (mpt & mpd & E & Hpt & Hpd & _ & Hnd).
  apply NoDup_cons in Hnd as [Hn _]. intros Hm Heq. apply Hn. rewrite <- Heq. apply list_elem_of_fmap_2.
  rewrite elem_of_app, Hpt, Hpd. destruct Hm; tauto.
Qed.

(** A page of leaves is not a page of the upper levels. *)
Lemma tree_levels ij m :
  pts !! ij = Some m → mapping_ptr m ≠ as_pdp a ∧ ∀ i m', pds !! i = Some m' → mapping_ptr m ≠ mapping_ptr m'.
Proof using Ht.
  intros H1. split; [apply tree_not_pdp; right; eauto|]. intros i m' Hm' Heq.
  destruct (tree_maps _ _ _ _ Ht) as (mpt & mpd & E & Hpt & Hpd & _ & Hnd).
  apply NoDup_cons in Hnd as [_ Hnd]. rewrite fmap_app in Hnd. apply NoDup_app in Hnd as (_ & Hd & _).
  apply (Hd (mapping_ptr m)); [apply list_elem_of_fmap_2, Hpt; eauto|].
  rewrite Heq. apply list_elem_of_fmap_2, Hpd; eauto.
Qed.
End lookups.

(** ** Growing the tree

    [m] becomes a page of entries: in the new state it is cleared, the entry [e'] for it
    is stored in the table of its parent, and the other tables are what they were. *)

Lemma child_empty : child_entry 0 None.
Proof. by vm_compute. Qed.

Lemma lookup_zeros i : 0 ≤ i < 512 → lookupZ (replicate 512 0) i = Some 0.
Proof.
  intros Hi. unfold lookupZ. replace (i <? 0) with false by lia. apply lookup_replicate_2. lia.
Qed.

Lemma lookupZ_insert {A} (l : list A) i j x :
  0 ≤ i < Z.of_nat (length l) → lookupZ (insertZ i x l) j = if decide (i = j) then Some x else lookupZ l j.
Proof.
  intros Hi. destruct (decide (i = j)) as [<-|Hne]; [|by apply lookupZ_insertZ_ne].
  apply lookupZ_insertZ_eq. by apply lookupZ_is_Some.
Qed.

(** An entry for a new child in a table. *)
Lemma table_of_child g' ptr t i e' m (f f' : Z → option MappingEntry) :
  ptr ≠ 0 → length t = 512%nat → 0 ≤ i < 512 → (∀ k, 0 ≤ k < 512 → ∃ e, lookupZ t k = Some e ∧ child_entry e (f k)) →
  child_entry e' (Some m) → f' i = Some m → (∀ k, k ≠ i → f' k = f k) →
  pg_tables g' !! ptr = Some (insertZ i e' t) → table_of g' ptr f'.
Proof.
  intros Hp Hlen Hi Hch He' Hfi Hf Ht. exists (insertZ i e' t). split; [split_and!; [done|done|by rewrite length_insertZ]|].
  intros k Hk. rewrite lookupZ_insert by lia. destruct (decide (i = k)) as [->|Hne].
  - exists e'. by rewrite Hfi.
  - rewrite Hf by done. by apply Hch.
Qed.

Lemma table_of_zeros g' ptr f : ptr ≠ 0 → pg_tables g' !! ptr = Some (replicate 512 0) → (∀ k, f k = None) → table_of g' ptr f.
Proof.
  intros Hp Ht Hf. exists (replicate 512 0). split; [by split_and!|]. intros k Hk. exists 0.
  rewrite Hf. split; [by apply lookup_zeros|apply child_empty].
Qed.

(** An address space that has only its top page. *)
Lemma tree_empty g a :
  as_entry_maps a = [[]; []] → as_pdp a ≠ 0 → pg_tables g !! as_pdp a = Some (replicate 512 0) → tree g a ∅ ∅.
Proof.
  intros Em Hp Ht. split; try (by intros; simplify_map_eq).
  - exists [], []. split_and!; [done| | |apply NoDup_nil_2|apply NoDup_singleton].
    + intros m. split; [by intros ?%elem_of_nil|intros [ij Hij]; simplify_map_eq].
    + intros m. split; [by intros ?%elem_of_nil|intros [i Hi]; simplify_map_eq].
  - intros m [[i Hi]|[i Hi]]; simplify_map_eq.
  - by apply table_of_zeros.
Qed.

Section growing.
Context {g g' : PagingState} {a a' : AddressSpace} {pds : gmap Z MappingEntry} {pts : gmap (Z * Z) MappingEntry}.
Context (Ht : tree g a pds pts).
Context {mpt mpd : list MappingEntry} (Ea : as_entry_maps a = [mpt; mpd]) (Epdp : as_pdp a' = as_pdp a).
Context {m : MappingEntry} (Hm : fresh a pds pts m).
Context {ptr i e' : Z} {t : list Z} (Hi : 0 ≤ i < 512) (Htab : table g ptr t) (He' : child_entry e' (Some m)).
Context (Hzeros : pg_tables g' !! mapping_ptr m = Some (replicate 512 0)).
Context (Hparent : pg_tables g' !! ptr = Some (insertZ i e' t)).
Context (Hrest : ∀ ptr', owns a pds pts ptr' → ptr' ≠ ptr → pg_tables g' !! ptr' = pg_tables g !! ptr').

Lemma keep_table ptr' t' : owns a pds pts ptr' → ptr' ≠ ptr → table g ptr' t' → table g' ptr' t'.
Proof using Hrest. intros Ho Hne (? & ? & ?). split_and!; [done|by rewrite Hrest|done]. Qed.

Lemma keep_table_of ptr' f : owns a pds pts ptr' → ptr' ≠ ptr → table_of g ptr' f → table_of g' ptr' f.
Proof using Hrest. intros Ho Hne (t' & ? & ?). exists t'. split; [by apply keep_table|done]. Qed.

Lemma owns_tree m' : in_tree pds pts m' → owns a pds pts (mapping_ptr m').
Proof using Type. intros H. right. eauto. Qed.

(** The lists with [m] are still without repetition. *)
Lemma fresh_lists : NoDup (phys_of (m :: mpt ++ mpd)) ∧ NoDup (as_pdp a' :: (mapping_ptr <$> m :: mpt ++ mpd)).
Proof using Ht Ea Epdp Hm Hi.
  destruct (tree_maps _ _ _ _ Ht) as (mpt' & mpd' & E & Hpt & Hpd & Hph & Hnd).
  rewrite Ea in E. injection E as <- <-. rewrite Epdp. destruct Hm as [_ _ Hmp Hne].
  assert (∀ x, x ∈ mpt ++ mpd → in_tree pds pts x) as Hin.
  { intros x. rewrite elem_of_app, Hpt, Hpd. unfold in_tree. tauto. }
  unfold phys_of in *. rewrite !fmap_cons, !NoDup_cons in *. destruct Hnd as [Hn Hnd]. split_and!; try done.
  - intros (x & E & Hx%Hin)%list_elem_of_fmap. by destruct (Hne x Hx).
  - intros [E|E]%elem_of_cons; [by apply Hmp|done].
  - intros (x & E & Hx%Hin)%list_elem_of_fmap. by destruct (Hne x Hx).
Qed.

Lemma tree_grow_pd :
  ptr = as_pdp a → as_entry_maps a' = [mpt; m :: mpd] → pds !! i = None →
  (∀ k, 0 ≤ k < 512 → ∃ e, lookupZ t k = Some e ∧ child_entry e (pds !! k)) →
  tree g' a' (<[i := m]> pds) pts.
Proof using All.
  intros Ep Ea' Hnone Hch. destruct fresh_lists as [Hph Hnd]. destruct (tree_lists Ht mpt mpd Ea) as (Hpt & Hpd & _).
  pose proof Htab as (Hptr & _ & Hlen). destruct Hm as [Hm0 Hmph Hmp Hne].
  assert (∀ x, in_tree (<[i := m]> pds) pts x → x = m ∨ in_tree pds pts x) as Hin.
  { intros x [[k [[_ ->]|[_ Hk]]%lookup_insert_Some]|Hx]; [by left|right; left; eauto|right; by right]. }
  split.
  - exists mpt, (m :: mpd). split; [done|]. split; [done|]. split; [|unfold phys_of in *; by rewrite <- Permutation_middle].
    intros x. rewrite elem_of_cons, Hpd. split.
    + intros [->|[k Hk]]; [exists i; by rewrite lookup_insert_eq|].
      exists k. rewrite lookup_insert_ne; [done|congruence].
    + intros [k Hk]. apply lookup_insert_Some in Hk as [[_ ->]|[_ Hk]]; [by left|right; eauto].
  - intros x [->|Hx]%Hin; [done|by apply (tree_ok _ _ _ _ Ht)].
  - intros k k' x [[<- <-]|[_ H1]]%lookup_insert_Some [[<- E2]|[_ H2]]%lookup_insert_Some; [done| | |by apply (tree_pds_inj _ _ _ _ Ht _ _ x)].
    + destruct (Hne m) as [[] _]; [left; eauto|done].
    + destruct (Hne x) as [[] _]; [left; eauto|by rewrite E2].
  - apply (tree_pts_inj _ _ _ _ Ht).
  - intros k j x Hk. destruct (decide (i = k)) as [->|]; [by rewrite lookup_insert_eq; eauto|].
    rewrite lookup_insert_ne by done. by apply (tree_parent _ _ _ _ Ht _ j x).
  - rewrite Epdp, <- Ep. apply (table_of_child g' _ t i e' m (λ k, pds !! k)); try done; [apply lookup_insert_eq|].
    intros k Hk. by apply lookup_insert_ne.
  - intros k x [[<- <-]|[Hki Hk]]%lookup_insert_Some.
    + apply table_of_zeros; [done..|]. intros j. destruct (pts !! (i, j)) eqn:Eij; [|done].
      destruct (tree_parent _ _ _ _ Ht _ _ _ Eij) as [? ?]. congruence.
    + apply keep_table_of; [apply owns_tree; left; eauto|rewrite Ep; apply (tree_not_pdp Ht); left; eauto|by apply (tree_pd _ _ _ _ Ht)].
  - intros ij x Hij. destruct (tree_pt _ _ _ _ Ht _ _ Hij) as [t1 Ht1]. exists t1.
    apply keep_table; [apply owns_tree; right; eauto|rewrite Ep; apply (tree_not_pdp Ht); right; eauto|done].
Qed.

Lemma tree_grow_pt k mp :
  ptr = mapping_ptr mp → pds !! k = Some mp → as_entry_maps a' = [m :: mpt; mpd] → pts !! (k, i) = None →
  (∀ j, 0 ≤ j < 512 → ∃ e, lookupZ t j = Some e ∧ child_entry e (pts !! (k, j))) →
  tree g' a' pds (<[(k, i) := m]> pts).
Proof using All.
  intros Ep Hmp Ea' Hnone Hch. destruct fresh_lists as [Hph Hnd]. destruct (tree_lists Ht mpt mpd Ea) as (Hpt & Hpd & _).
  pose proof Htab as (Hptr & _ & Hlen). destruct Hm as [Hm0 Hmph Hmpd Hne].
  assert (∀ x, in_tree pds (<[(k, i) := m]> pts) x → x = m ∨ in_tree pds pts x) as Hin.
  { intros x [Hx|[k' [[_ ->]|[_ Hk]]%lookup_insert_Some]]; [right; by left|by left|right; right; eauto]. }
  split.
  - exists (m :: mpt), mpd. split; [done|]. split; [|split; [done|done]].
    intros x. rewrite elem_of_cons, Hpt. split.
    + intros [->|[k' Hk']]; [exists (k, i); by rewrite lookup_insert_eq|].
      exists k'. rewrite lookup_insert_ne; [done|congruence].
    + intros [k' Hk']. apply lookup_insert_Some in Hk' as [[_ ->]|[_ Hk']]; [by left|right; eauto].
  - intros x [->|Hx]%Hin; [done|by apply (tree_ok _ _ _ _ Ht)].
  - apply (tree_pds_inj _ _ _ _ Ht).
  - intros j j' x [[<- <-]|[_ H1]]%lookup_insert_Some [[<- E2]|[_ H2]]%lookup_insert_Some; [done| | |by apply (tree_pts_inj _ _ _ _ Ht _ _ x)].
    + destruct (Hne m) as [[] _]; [right; eauto|done].
    + destruct (Hne x) as [[] _]; [right; eauto|by rewrite E2].
  - intros k' j' x [[[= <- <-] _]|[_ Hk']]%lookup_insert_Some; [eauto|].
    by apply (tree_parent _ _ _ _ Ht _ j' x).
  - rewrite Epdp. apply keep_table_of; [by left|rewrite Ep; apply not_eq_sym, (tree_not_pdp Ht); left; eauto|apply (tree_pdp _ _ _ _ Ht)].
  - intros k' x Hk'. destruct (decide (k' = k)) as [->|Hkk].
    + assert (x = mp) as -> by congruence.
      rewrite <- Ep. apply (table_of_child g' _ t i e' m (λ j, pts !! (k, j))); try done; [apply lookup_insert_eq|].
      intros j Hj. apply lookup_insert_ne. congruence.
    + destruct (tree_pd _ _ _ _ Ht _ _ Hk') as (t1 & Ht1 & Hc1). exists t1. split.
      * apply keep_table; [apply owns_tree; left; eauto| |done]. rewrite Ep. intros E. apply Hkk. by apply (tree_pds_ptr_inj Ht _ _ x mp).
      * intros j Hj. rewrite lookup_insert_ne by congruence. by apply Hc1.
  - intros ij x [[<- <-]|[_ Hk']]%lookup_insert_Some; [exists (replicate 512 0); by split_and!|].
    destruct (tree_pt _ _ _ _ Ht _ _ Hk') as [t1 Ht1]. exists t1.
    apply keep_table; [apply owns_tree; right; eauto| |done]. rewrite Ep. by apply (proj2 (tree_levels Ht ij _ Hk') k).
Qed.
End growing.

(** ** States with the same tables *)

Lemma tree_same g g' a a' pds pts :
  tree g a pds pts → as_pdp a' = as_pdp a → as_entry_maps a' = as_entry_maps a →
  (∀ ptr, owns a pds pts ptr → pg_tables g' !! ptr = pg_tables g !! ptr) → tree g' a' pds pts.
Proof.
  intros [H1 H2 H3 H4 H5 H6 H7 H8] Ep Em Et.
  assert (∀ ptr t, owns a pds pts ptr → table g ptr t → table g' ptr t) as Htab.
  { intros ptr t Ho (? & ? & ?). split_and!; [done|by rewrite Et|done]. }
  assert (∀ ptr f, owns a pds pts ptr → table_of g ptr f → table_of g' ptr f) as Hof.
  { intros ptr f Ho (t & Ht & Hc). exists t. auto. }
  split; try done.
  - by rewrite Em, Ep.
  - rewrite Ep. apply Hof; [by left|done].
  - intros i m Hm. apply Hof; [right; exists m; split; [left; eauto|done]|auto].
  - intros ij m Hm. destruct (H8 ij m Hm) as [t Ht]. exists t. apply Htab; [right; exists m; split; [right; eauto|done]|done].
Qed.

(** Translations depend on the pages of leaves only. *)
Lemma translate_keep g g' pts v :
  (∀ ij m, pts !! ij = Some m → pg_tables g' !! mapping_ptr m = pg_tables g !! mapping_ptr m) →
  translate g' pts v = translate g pts v.
Proof.
  intros H. unfold translate, leaf. destruct (pts !! _) as [m|] eqn:E; [|done]. cbn [mbind option_bind].
  by rewrite (H _ _ E).
Qed.

(** A page of leaves that was just cleared translates nothing. *)
Lemma translate_new_table g g' pts i j m v :
  pts !! (i, j) = None → pg_tables g' !! mapping_ptr m = Some (replicate 512 0) →
  (∀ ij x, pts !! ij = Some x → pg_tables g' !! mapping_ptr x = pg_tables g !! mapping_ptr x) →
  translate g' (<[(i, j) := m]> pts) v = translate g pts v.
Proof.
  intros Hnone Hz Hkeep. rewrite <- (translate_keep g g' pts v Hkeep). unfold translate, leaf.
  destruct (decide ((i, j) = (GET_LEVEL_INDEX v PDP, GET_LEVEL_INDEX v PD))) as [E|Hne].
  - rewrite <- E, Hnone, lookup_insert_eq. cbn [mbind option_bind]. rewrite Hz. cbn [mbind option_bind].
    rewrite lookup_zeros; [done|]. apply level_index_range. unfold PT. lia.
  - by rewrite lookup_insert_ne.
Qed.

End PagingInvariant.
