(* ===== verification/PagingProofs.v ===== *)
(** What the operations on page tables do to the tree of an address space: walking it,
    growing it, changing leaves. Where the pages for new tables come from is behind the
    interface [Grows]: the kernel's address space takes them from the page pool
    (PagingKernel.v), the one of a process from the frame allocator (PagingUser.v). *)
From S2P Require Import Prelude Util MemState PageEntry AddressSpace FrameAllocator FrameInvariant FrameProofs Paging PagingInvariant.

Module PagingProofs.
Import Util Mem PageEntry AddressSpace FrameAllocator FrameInvariant FrameProofs Paging PagingInvariant.

Implicit Types (s : kmem) (a : AddressSpace) (pds : gmap Z MappingEntry) (pts : gmap (Z * Z) MappingEntry).

(** ** Rules for the primitives *)

Lemma wp_get_table ptr t (Q : list Z → kmem → Prop) s :
  table (pg s) ptr t → Q t s → wp (get_table ptr) Q s.
Proof.
  intros (Hp & Ht & _) HQ. unfold get_table. replace (ptr =? 0) with false by lia. by wp_steps.
Qed.

Lemma wp_get_entry ptr t i e (Q : Z → kmem → Prop) s :
  table (pg s) ptr t → lookupZ t i = Some e → Q e s → wp (get_entry ptr i) Q s.
Proof. intros Ht He HQ. unfold get_entry. wp_step. eapply wp_get_table; [done|]. by wp_step. Qed.

Definition with_entry (ptr : Z) (t : list Z) (i e : Z) (g : PagingState) : PagingState :=
  with_tables (<[ptr := insertZ i e t]> (pg_tables g)) g.

Lemma wp_set_entry ptr t i e (Q : unit → kmem → Prop) s :
  table (pg s) ptr t → Q tt (set_paging (with_entry ptr t i e (pg s)) s) → wp (set_entry ptr i e) Q s.
Proof. intros Ht HQ. unfold set_entry. wp_step. eapply wp_get_table; [done|]. unfold modify_paging. by wp_step. Qed.

(** ** The state of an address space *)

Record pspace (P : Z) s a pds pts : Prop := {
  ps_space : pg_spaces (pg s) !! P = Some a;
  ps_tree : tree (pg s) a pds pts;
}.

Section walking.
Context {P : Z}.

(** ** Walking *)

Lemma pspace_maps s a pds pts :
  pspace P s a pds pts → ∃ mpt mpd, as_entry_maps a = [mpt; mpd].
Proof. intros H. destruct (tree_maps _ _ _ _ (ps_tree _ _ _ _ _ H)) as (? & ? & E & _). eauto. Qed.

Lemma wp_page_entries_pd s a pds pts i e (Q : Z → kmem → Prop) :
  pspace P s a pds pts → child_entry e (pds !! i) →
  Q (match pds !! i with Some m => mapping_ptr m | None => 0 end) s →
  wp (get_page_entries P e PD) Q s.
Proof.
  intros Hk He HQ. destruct (pspace_maps _ _ _ _ Hk) as (mpt & mpd & E).
  unfold get_page_entries, get_entry_map. wp_step. wp_step.
  apply (wp_get_space _ a); [apply Hk|]. apply (wp_of_option mpd); [by rewrite E|]. wp_step.
  by rewrite (tree_find_pd (ps_tree _ _ _ _ _ Hk) i e mpt mpd).
Qed.

Lemma wp_page_entries_pt s a pds pts ij e (Q : Z → kmem → Prop) :
  pspace P s a pds pts → child_entry e (pts !! ij) →
  Q (match pts !! ij with Some m => mapping_ptr m | None => 0 end) s →
  wp (get_page_entries P e PT) Q s.
Proof.
  intros Hk He HQ. destruct (pspace_maps _ _ _ _ Hk) as (mpt & mpd & E).
  unfold get_page_entries, get_entry_map. wp_step. wp_step.
  apply (wp_get_space _ a); [apply Hk|]. apply (wp_of_option mpt); [by rewrite E|]. wp_step.
  by rewrite (tree_find_pt (ps_tree _ _ _ _ _ Hk) ij e mpt mpd).
Qed.

Lemma mapping_ptr_nonzero s a pds pts :
  pspace P s a pds pts → (∀ i m, pds !! i = Some m → mapping_ptr m ≠ 0) ∧
  (∀ ij m, pts !! ij = Some m → mapping_ptr m ≠ 0).
Proof.
  intros Hk. split; intros i m Hm; apply (tree_ok _ _ _ _ (ps_tree _ _ _ _ _ Hk)); [left|right]; eauto.
Qed.

Lemma wp_virt_to_phys s a pds pts v (Q : option Z → kmem → Prop) :
  pspace P s a pds pts → Q (translate (pg s) pts v) s → wp (virt_to_phys_addr P v) Q s.
Proof.
  intros Hk HQ. pose proof (ps_tree _ _ _ _ _ Hk) as Ht. destruct (mapping_ptr_nonzero _ _ _ _ Hk) as [Hn1 Hn2].
  pose proof (level_index_range v PDP ltac:(unfold PDP; lia)) as Hi.
  pose proof (level_index_range v PD ltac:(unfold PD; lia)) as Hj.
  pose proof (level_index_range v PT ltac:(unfold PT; lia)) as Hl.
  unfold virt_to_phys_addr. wp_step. apply (wp_get_space _ a); [apply Hk|].
  destruct (tree_pdp _ _ _ _ Ht) as (t & Htab & Hch). destruct (Hch _ Hi) as (e & He & Hce).
  wp_step. eapply wp_get_entry; [done..|]. wp_step. eapply wp_page_entries_pd; [done..|].
  unfold translate, leaf in HQ. set (i := GET_LEVEL_INDEX v PDP) in *. set (j := GET_LEVEL_INDEX v PD) in *.
  destruct (pds !! i) as [m|] eqn:Ei.
  2: { rewrite Z.eqb_refl. wp_step. destruct (pts !! (i, j)) as [m|] eqn:Ep; [|done].
       destruct (tree_parent _ _ _ _ Ht _ _ _ Ep) as [? ?]. congruence. }
  replace (mapping_ptr m =? 0) with false by (specialize (Hn1 i m Ei); lia).
  destruct (tree_pd _ _ _ _ Ht _ _ Ei) as (t1 & Htab1 & Hch1). destruct (Hch1 _ Hj) as (e1 & He1 & Hce1).
  wp_step. eapply wp_get_entry; [done..|]. wp_step. eapply (wp_page_entries_pt _ _ _ _ (i, j)); [done..|].
  destruct (pts !! (i, j)) as [mt|] eqn:Ep; [|rewrite Z.eqb_refl; by wp_step].
  replace (mapping_ptr mt =? 0) with false by (specialize (Hn2 _ mt Ep); lia).
  destruct (tree_pt _ _ _ _ Ht _ _ Ep) as (t2 & Htab2). pose proof Htab2 as (_ & Hl2 & Hlen2).
  destruct (proj2 (lookupZ_is_Some t2 (GET_LEVEL_INDEX v PT)) ltac:(lia)) as [e2 He2].
  wp_step. eapply wp_get_entry; [done..|].
  cbn [mbind option_bind] in HQ. rewrite Hl2 in HQ. cbn [mbind option_bind] in HQ. rewrite He2 in HQ.
  cbn [mbind option_bind] in HQ. destruct (present e2); by wp_step.
Qed.

End walking.

(** ** Changing one leaf *)

(** The location of the page of [v]. *)
Definition located pds pts v (loc : PageTableLocation) : Prop :=
  ∃ mp mt, pds !! GET_LEVEL_INDEX v PDP = Some mp ∧
    pts !! (GET_LEVEL_INDEX v PDP, GET_LEVEL_INDEX v PD) = Some mt ∧
    loc = {| pd_index := GET_LEVEL_INDEX v PDP; pd := mapping_ptr mp;
             pt_index := GET_LEVEL_INDEX v PD; pt := mapping_ptr mt |}.

(** The state after [e] is stored for the page of [v]; [inv] is what is invalidated then. *)
Definition leaf_stored v (loc : PageTableLocation) (t : list Z) (e : Z) (inv : list Z) s : kmem :=
  set_paging (with_invalidated inv (with_entry (pt loc) t (GET_LEVEL_INDEX v PT) e (pg s))) s.

Lemma index_bounds v : 0 ≤ GET_LEVEL_INDEX v PDP < 512 ∧ 0 ≤ GET_LEVEL_INDEX v PD < 512 ∧
  0 ≤ GET_LEVEL_INDEX v PT < 512.
Proof. split_and!; apply level_index_range; unfold PDP, PD, PT; lia. Qed.

Section leaves.
Context {P : Z} {s : kmem} {a : AddressSpace} {pds : gmap Z MappingEntry} {pts : gmap (Z * Z) MappingEntry}.
Context {v : Z} {loc : PageTableLocation}.
Context (Hk : pspace P s a pds pts) (Hloc : located pds pts v loc).

Lemma located_table : ∃ t e, table (pg s) (pt loc) t ∧ lookupZ t (GET_LEVEL_INDEX v PT) = Some e ∧
  leaf (pg s) pts v = Some e.
Proof using Hk Hloc.
  destruct Hloc as (mp & mt & Hmp & Hmt & ->). cbn [pt].
  destruct (tree_pt _ _ _ _ (ps_tree _ _ _ _ _ Hk) _ _ Hmt) as [t Ht]. pose proof Ht as (_ & Hl & Hlen).
  destruct (proj2 (lookupZ_is_Some t (GET_LEVEL_INDEX v PT))) as [e He].
  { pose proof (index_bounds v). lia. }
  exists t, e. split_and!; [done|done|]. unfold leaf. rewrite Hmt. cbn [mbind option_bind].
  rewrite Hl. done.
Qed.

(** A store to a page of leaves keeps the tree. *)
Lemma leaf_update t e inv :
  table (pg s) (pt loc) t →
  let s' := leaf_stored v loc t e inv s in
  pspace P s' a pds pts ∧
  ∀ v', leaf (pg s') pts v' = if decide (page_of v' = page_of v) then Some e else leaf (pg s) pts v'.
Proof using Hk Hloc.
  destruct Hloc as (mp & mt & Hmp & Hmt & ->). intros (Hp0 & Hl & Hlen) s'. cbn [pt] in *.
  pose proof (ps_tree _ _ _ _ _ Hk) as Ht.
  assert (∀ ptr t1, table (pg s) ptr t1 → ptr ≠ mapping_ptr mt → table (pg s') ptr t1) as Hkeep.
  { intros ptr t1 (? & ? & ?) Hne. split_and!; [done| |done]. cbn. by rewrite lookup_insert_ne. }
  destruct (tree_levels Ht _ _ Hmt) as [Hne1 Hne2].
  pose proof (index_bounds v) as (_ & _ & Hidx).
  split; [split; try apply Hk|].
  - destruct Ht as [H1 H2 H3 H4 H5 H6 H7 H8]. split; try done.
    + destruct H6 as (t1 & Ht1 & Hc1). exists t1. split; [|done]. apply Hkeep; [done|congruence].
    + intros i m Hm. destruct (H7 i m Hm) as (t1 & Ht1 & Hc1). exists t1. split; [|done].
      apply Hkeep; [done|]. apply not_eq_sym. by apply (Hne2 i).
    + intros ij m Hm. destruct (decide (mapping_ptr m = mapping_ptr mt)) as [E|Hne].
      * exists (insertZ (GET_LEVEL_INDEX v PT) e t). rewrite E. split_and!; [done| |by rewrite length_insertZ].
        cbn. by rewrite lookup_insert_eq.
      * destruct (H8 ij m Hm) as [t1 Ht1]. exists t1. by apply Hkeep.
  - intros v'. unfold leaf. cbn [km_paging set_paging with_invalidated with_entry with_tables pg_tables s' leaf_stored].
    destruct (decide (page_of v' = page_of v)) as [Hpv|Hpv].
    + apply page_of_inj in Hpv as (-> & -> & ->). rewrite Hmt. cbn [mbind option_bind].
      rewrite lookup_insert_eq. cbn [mbind option_bind]. apply lookupZ_insertZ_eq.
      apply lookupZ_is_Some. lia.
    + destruct (pts !! (GET_LEVEL_INDEX v' PDP, GET_LEVEL_INDEX v' PD)) as [m|] eqn:Em; [|done].
      cbn [mbind option_bind]. destruct (decide (mapping_ptr m = mapping_ptr mt)) as [E|Hne].
      * rewrite E, lookup_insert_eq, Hl. cbn [mbind option_bind]. apply lookupZ_insertZ_ne.
        intros Hidx'. apply Hpv. apply page_of_inj.
        pose proof (tree_pts_ptr_inj Ht _ _ _ _ Em Hmt E) as [= -> ->]. by split_and!.
      * by rewrite lookup_insert_ne by done.
Qed.
End leaves.

Lemma lor_offset p v : 0 ≤ p < 2 ^ 40 → Z.lor (u64 (Z.shiftl p 12)) (Z.land v 0xfff) = p * 4096 + v mod 4096.
Proof.
  intros Hp. rewrite Z.shiftl_mul_pow2 by lia. change (2 ^ 12) with 4096. rewrite wrap_small by lia.
  change 0xfff with (Z.ones 12). rewrite Z.land_ones by lia. change (2 ^ 12) with 4096.
  pose proof (Z.add_lor_land (p * 4096) (v mod 4096)) as E.
  enough (Z.land (p * 4096) (v mod 4096) = 0) as E0 by lia.
  apply Z.bits_inj'. intros i Hi. rewrite Z.land_spec, Z.bits_0.
  change 4096 with (2 ^ 12). destruct (Z.ltb_spec i 12).
  - rewrite Z.mul_pow2_bits_low by lia. done.
  - rewrite Z.mod_pow2_bits_high by lia. by rewrite andb_false_r.
Qed.

Lemma translate_of_leaf g pts v :
  translate g pts v = e ← leaf g pts v; if present e then Some (phys_addr e * 4096 + v mod 4096) else None.
Proof.
  unfold translate. destruct (leaf g pts v) as [e|]; [|done]. cbn [mbind option_bind].
  rewrite lor_offset; [done|]. apply get_bits_range. lia.
Qed.

(** ** Ranges of pages *)

(** The page of [v'] is the [i]-th page from [v] on. *)
Definition nth_page (v i v' : Z) : Prop := page_of v' = page_of (v + 4096 * i).

#[export] Instance nth_page_dec v i v' : Decision (nth_page v i v').
Proof. unfold nth_page. apply _. Defined.

Lemma nth_page_self v i : nth_page v i (v + 4096 * i).
Proof. done. Qed.

Lemma page_of_add v i : page_of (v + 4096 * i) = (v / 4096 + i) mod 2 ^ 27.
Proof. unfold page_of. rewrite Z.mul_comm, Z.div_add by lia. done. Qed.

Lemma nth_page_inj v i j v' :
  nth_page v i v' → nth_page v j v' → - 2 ^ 27 < i - j < 2 ^ 27 → i = j.
Proof.
  unfold nth_page. intros -> E Hij. rewrite !page_of_add in E.
  generalize dependent (v / 4096). intros p E.
  assert ((2 ^ 27 | i - j)) as [k Hk]; [|nia].
  apply Z.mod_divide; [lia|]. replace (i - j) with ((p + i) - (p + j)) by lia.
  rewrite Zminus_mod, E, Z.sub_diag. done.
Qed.

Lemma nth_page_shift v k i v' : nth_page (v + 4096 * k) i v' ↔ nth_page v (k + i) v'.
Proof. unfold nth_page. by replace (v + 4096 * k + 4096 * i) with (v + 4096 * (k + i)) by lia. Qed.

Definition page_list (v : Z) (n : nat) : list Z := (λ i, v + 4096 * Z.of_nat i) <$> seq 0 n.

Lemma page_list_S v n : page_list v (S n) = v :: page_list (v + 4096) n.
Proof.
  unfold page_list. cbn [seq]. rewrite fmap_cons. f_equal; [lia|].
  rewrite <- fmap_S_seq, <- list_fmap_compose. apply list_fmap_ext. intros i x _. cbn. lia.
Qed.

Lemma length_page_list v n : length (page_list v n) = n.
Proof. unfold page_list. by rewrite length_fmap, length_seq. Qed.

Lemma page_list_elem v n x : x ∈ page_list v n ↔ ∃ i, 0 ≤ i < Z.of_nat n ∧ x = v + 4096 * i.
Proof.
  unfold page_list. rewrite list_elem_of_fmap. split.
  - intros (i & -> & Hi%elem_of_seq). exists (Z.of_nat i). split; [lia|done].
  - intros (i & Hi & ->). exists (Z.to_nat i). rewrite elem_of_seq. split; [f_equal; lia|lia].
Qed.

Lemma page_list_lookup v n i x : page_list v n !! i = Some x ↔ (i < n)%nat ∧ x = v + 4096 * Z.of_nat i.
Proof.
  unfold page_list. rewrite list_lookup_fmap, fmap_Some. setoid_rewrite lookup_seq. split.
  - intros (j & [-> Hj] & ->). by split.
  - intros [Hi ->]. exists i. by split_and!.
Qed.

(** The pages from [v] on translate to the frames [fs], and the rest of the address space
    to what it did. *)
Definition range_mapped g pts v (fs : list Z) g' pts' : Prop :=
  (∀ i f v', fs !! i = Some f → nth_page v (Z.of_nat i) v' → translate g' pts' v' = Some (f + v' mod 4096)) ∧
  (∀ v', (∀ i, 0 ≤ i < Z.of_nat (length fs) → ¬ nth_page v i v') → translate g' pts' v' = translate g pts v').

(** What a mapping does to an address space: pages of entries are added, [fs] is mapped
    from [v] on, and the pages that were mapped are invalidated. *)
Record mapped s a pds pts v (fs : list Z) s' a' pds' pts' : Prop := {
  mp_range : range_mapped (pg s) pts v fs (pg s') pts';
  mp_space : a' = set_entry_maps (as_entry_maps a') a;
  mp_pds : pds ⊆ pds';
  mp_pts : pts ⊆ pts';
  mp_inval : ∃ l, pg_invalidated (pg s') = l ++ pg_invalidated (pg s) ∧ ∀ x, x ∈ page_list v (length fs) → x ∈ l;
}.

(** From [s] to [s'] page entries were added, and no translation has changed. *)
Definition extends s a pds pts s' a' pds' pts' : Prop := ∀ v, mapped s a pds pts v [] s' a' pds' pts'.

Lemma set_entry_maps_same a : a = set_entry_maps (as_entry_maps a) a.
Proof. by destruct a. Qed.

Lemma extends_intro s a pds pts s' a' pds' pts' :
  (∀ v, translate (pg s') pts' v = translate (pg s) pts v) → a' = set_entry_maps (as_entry_maps a') a →
  pds ⊆ pds' → pts ⊆ pts' → (∃ l, pg_invalidated (pg s') = l ++ pg_invalidated (pg s)) →
  extends s a pds pts s' a' pds' pts'.
Proof.
  intros Ht Ha Hd Hp [l Hl] v. split; [|done..|].
  - split; [intros ??? [=]|done].
  - exists l. split; [done|]. intros x (i & Hi & _)%page_list_elem. cbn in Hi. lia.
Qed.

Lemma extends_refl s a pds pts : extends s a pds pts s a pds pts.
Proof. apply extends_intro; [done|apply set_entry_maps_same|done|done|by exists []]. Qed.

Lemma mapped_app s1 a1 pds1 pts1 v l1 s2 a2 pds2 pts2 l2 s3 a3 pds3 pts3 :
  mapped s1 a1 pds1 pts1 v l1 s2 a2 pds2 pts2 → mapped s2 a2 pds2 pts2 (v + 4096 * Z.of_nat (length l1)) l2 s3 a3 pds3 pts3 →
  Z.of_nat (length l1) + Z.of_nat (length l2) ≤ 2 ^ 27 →
  mapped s1 a1 pds1 pts1 v (l1 ++ l2) s3 a3 pds3 pts3.
Proof.
  intros [[I1 O1] A1 D1 P1 (k1 & E1 & N1)] [[I2 O2] A2 D2 P2 (k2 & E2 & N2)] Hlen. split.
  - split.
    + intros i f v' Hi Hv'. apply lookup_app_Some in Hi as [Hi|[Hle Hi]].
      * pose proof (lookup_lt_Some _ _ _ Hi). rewrite O2; [by apply I1 with i|]. intros j Hj Hp%nth_page_shift.
        pose proof (nth_page_inj v _ _ v' Hv' Hp ltac:(lia)). lia.
      * apply (I2 _ f v' Hi), nth_page_shift. by replace (_ + _) with (Z.of_nat i) by lia.
    + intros v' Hno. rewrite length_app in Hno. rewrite O2, O1; [done| |].
      * intros i Hi. apply Hno. lia.
      * intros i Hi Hp%nth_page_shift. eapply Hno, Hp. lia.
  - rewrite A2, A1. done.
  - by transitivity pds2.
  - by transitivity pts2.
  - exists (k2 ++ k1). rewrite E2, E1, app_assoc. split; [done|]. rewrite length_app. intros x (i & Hi & ->)%page_list_elem. apply elem_of_app.
    destruct (Z.lt_ge_cases i (Z.of_nat (length l1))).
    + right. apply N1, page_list_elem. exists i. lia.
    + left. apply N2, page_list_elem. exists (i - Z.of_nat (length l1)). lia.
Qed.

Lemma extends_trans s1 a1 pds1 pts1 s2 a2 pds2 pts2 s3 a3 pds3 pts3 :
  extends s1 a1 pds1 pts1 s2 a2 pds2 pts2 → extends s2 a2 pds2 pts2 s3 a3 pds3 pts3 →
  extends s1 a1 pds1 pts1 s3 a3 pds3 pts3.
Proof. intros H1 H2 v. eapply (mapped_app _ _ _ _ v []); [done|apply H2|cbn; lia]. Qed.

Lemma extends_mapped s1 a1 pds1 pts1 v l s2 a2 pds2 pts2 s3 a3 pds3 pts3 :
  extends s1 a1 pds1 pts1 s2 a2 pds2 pts2 → mapped s2 a2 pds2 pts2 v l s3 a3 pds3 pts3 →
  Z.of_nat (length l) ≤ 2 ^ 27 → mapped s1 a1 pds1 pts1 v l s3 a3 pds3 pts3.
Proof.
  intros H1 H2 Hl. eapply (mapped_app _ _ _ _ v []); [apply H1| |cbn; lia].
  cbn [length]. by rewrite Z.mul_0_r, Z.add_0_r.
Qed.

(** ** From one page to the next *)

(** From the location of [u] to the one of [v], the page after it. *)
Definition follows (u v : Z) : Prop :=
  GET_LEVEL_INDEX u PDP ≠ GET_LEVEL_INDEX v PDP → GET_LEVEL_INDEX v PD = 0.

Lemma follows_refl u : follows u u.
Proof. by intros Hu. Qed.

Lemma follows_next v : follows v (v + 4096).
Proof.
  unfold follows. rewrite !level_index by (unfold PDP, PD; lia). unfold PDP, PD.
  change (12 + 9 * 2) with 30. change (12 + 9 * 1) with 21. intros Hne.
  change (2 ^ 30) with (2097152 * 512) in Hne. change (2 ^ 21) with 2097152.
  rewrite <- !Z.div_div in Hne by lia.
  assert ((v + 4096) / 2097152 = v / 2097152 ∨ (v + 4096) / 2097152 = v / 2097152 + 1) as [E|E].
  { pose proof (Z.div_mod v 2097152 ltac:(lia)). pose proof (Z.mod_pos_bound v 2097152 ltac:(lia)).
    destruct (decide (v mod 2097152 + 4096 < 2097152)).
    - left. symmetry. apply Z.div_unique with (v mod 2097152 + 4096); lia.
    - right. symmetry. apply Z.div_unique with (v mod 2097152 + 4096 - 2097152); lia. }
  - by rewrite E in Hne.
  - rewrite E in *. generalize dependent (v / 2097152). intros p Hne _.
    pose proof (Z.div_mod p 512 ltac:(lia)). pose proof (Z.mod_pos_bound p 512 ltac:(lia)).
    destruct (decide (p mod 512 + 1 < 512)).
    + exfalso. apply Hne. f_equal. apply Z.div_unique with (p mod 512 + 1); lia.
    + symmetry. apply Z.mod_unique_pos with (p / 512 + 1); lia.
Qed.

Section operations.
Context {P : Z} (kmap_allocation : list PageFrameAllocation → Z → KM Z) (kmap_phys_range : Z → Z → Z → KM Z).
Context `{!MemoryEntries}.

(** ** Walking without growing *)

Definition has_table pts v : Prop := is_Some (pts !! (GET_LEVEL_INDEX v PDP, GET_LEVEL_INDEX v PD)).

Lemma wp_entries_pd s a pds pts i m (Q : Z → kmem → Prop) :
  pspace P s a pds pts → 0 ≤ i < 512 → pds !! i = Some m → Q (mapping_ptr m) s →
  wp (page_entries kmap_allocation kmap_phys_range false P (as_pdp a) i PD) Q s.
Proof.
  intros Hk Hi Hm HQ. destruct (tree_pdp _ _ _ _ (ps_tree _ _ _ _ _ Hk)) as (t & Ht & Hch).
  destruct (Hch i Hi) as (e & He & Hce). unfold page_entries.
  wp_step. eapply wp_get_entry; [done..|]. eapply (wp_page_entries_pd _ _ _ _ i); [done|done|]. by rewrite Hm.
Qed.

Lemma wp_entries_pt s a pds pts i j mp m (Q : Z → kmem → Prop) :
  pspace P s a pds pts → 0 ≤ j < 512 → pds !! i = Some mp → pts !! (i, j) = Some m → Q (mapping_ptr m) s →
  wp (page_entries kmap_allocation kmap_phys_range false P (mapping_ptr mp) j PT) Q s.
Proof.
  intros Hk Hj Hmp Hm HQ. destruct (tree_pd _ _ _ _ (ps_tree _ _ _ _ _ Hk) i mp Hmp) as (t & Ht & Hch).
  destruct (Hch j Hj) as (e & He & Hce). unfold page_entries.
  wp_step. eapply wp_get_entry; [done..|]. eapply (wp_page_entries_pt _ _ _ _ (i, j)); [done|done|]. by rewrite Hm.
Qed.

Lemma wp_find_location s a pds pts v (Q : PageTableLocation → kmem → Prop) :
  pspace P s a pds pts → has_table pts v → (∀ loc, located pds pts v loc → Q loc s) →
  wp (populate_page_table_location kmap_allocation kmap_phys_range P v false) Q s.
Proof.
  intros Hk [mt Hmt] HQ. destruct (index_bounds v) as (Hi & Hj & _).
  destruct (tree_parent _ _ _ _ (ps_tree _ _ _ _ _ Hk) _ _ _ Hmt) as [mp Hmp].
  unfold populate_page_table_location. wp_step. apply (wp_get_space _ a); [apply Hk|].
  wp_step. eapply wp_entries_pd; [done..|]. wp_step. eapply wp_entries_pt; [done..|]. wp_step.
  apply HQ. by exists mp, mt.
Qed.

Lemma wp_traverse_found s a pds pts u v loc (Q : PageTableLocation → kmem → Prop) :
  pspace P s a pds pts → located pds pts u loc → follows u v → has_table pts v →
  (∀ loc', located pds pts v loc' → Q loc' s) →
  wp (page_table_traversal_helper kmap_allocation kmap_phys_range P v loc false) Q s.
Proof.
  intros Hk (mp & mt & Hmp & Hmt & ->) Hf [m Hm] HQ. destruct (index_bounds v) as (Hi & Hj & _).
  destruct (mapping_ptr_nonzero _ _ _ _ Hk) as [Hn1 Hn2].
  destruct (tree_parent _ _ _ _ (ps_tree _ _ _ _ _ Hk) _ _ _ Hm) as [mp' Hmp'].
  assert (located pds pts v {| pd_index := GET_LEVEL_INDEX v PDP; pd := mapping_ptr mp';
    pt_index := GET_LEVEL_INDEX v PD; pt := mapping_ptr m |}) as Hres by by exists mp', m.
  unfold page_table_traversal_helper. cbn [pd_index pt_index pd].
  destruct (Z.eqb_spec (GET_LEVEL_INDEX v PDP) (GET_LEVEL_INDEX u PDP)) as [Ei|Ei]; cbn [negb].
  - rewrite Ei in *. assert (mp' = mp) as -> by congruence.
    destruct (Z.eqb_spec (GET_LEVEL_INDEX v PD) (GET_LEVEL_INDEX u PD)) as [Ej|Ej]; cbn [negb].
    + wp_step. apply HQ. rewrite Ej in *. assert (m = mt) as -> by congruence. done.
    + wp_step. eapply (wp_entries_pt s a pds pts (GET_LEVEL_INDEX u PDP)); [done..|].
      wp_step. wp_step; [specialize (Hn2 _ _ Hm); lia|]. wp_step. by apply HQ.
  - assert (GET_LEVEL_INDEX v PD = 0) as E0 by (apply Hf; congruence). rewrite E0 in *.
    wp_step. apply (wp_get_space _ a); [apply Hk|].
    wp_step. eapply wp_entries_pd; [done..|]. wp_step. wp_step; [specialize (Hn1 _ _ Hmp'); lia|].
    wp_step. eapply (wp_entries_pt s a pds pts (GET_LEVEL_INDEX v PDP)); [done|lia|done..|].
    wp_step. wp_step; [specialize (Hn2 _ _ Hm); lia|]. wp_step. by apply HQ.
Qed.

(** ** Unmapping *)

Definition range_unmapped g pts v n g' : Prop :=
  (∀ i v', 0 ≤ i < n → nth_page v i v' → translate g' pts v' = None) ∧
  (∀ v', (∀ i, 0 ≤ i < n → ¬ nth_page v i v') → translate g' pts v' = translate g pts v').

Definition tables_for pts v n : Prop := ∀ i, 0 ≤ i < n → has_table pts (v + 4096 * i).

Lemma tables_for_next pts v n : tables_for pts v (Z.of_nat (S n)) → has_table pts v ∧ tables_for pts (v + 4096) (Z.of_nat n).
Proof.
  intros Htab. split.
  - specialize (Htab 0 ltac:(lia)). by rewrite Z.mul_0_r, Z.add_0_r in Htab.
  - intros i Hi. specialize (Htab (i + 1) ltac:(lia)). by replace (v + 4096 + 4096 * i) with (v + 4096 * (i + 1)) by lia.
Qed.

Lemma wp_unmap_pages n s a pds pts u v loc (Q : unit → kmem → Prop) :
  pspace P s a pds pts → located pds pts u loc → follows u v → tables_for pts v (Z.of_nat n) →
  Z.of_nat n ≤ 2 ^ 27 → 0 ≤ v → v + 4096 * Z.of_nat n < 2 ^ 64 →
  (∀ s', pspace P s' a pds pts → range_unmapped (pg s) pts v (Z.of_nat n) (pg s') →
     s' = set_paging (pg s') s → pg_free_nodes (pg s') = pg_free_nodes (pg s) →
     pg_invalidated (pg s') = reverse (page_list v n) ++ pg_invalidated (pg s) → Q tt s') →
  wp (unmap_pages kmap_allocation kmap_phys_range P v n loc) Q s.
Proof.
  revert s u v loc. induction n as [|n IH]; intros s u v loc Hk Hloc Hf Htab Hn Hv Hvm HQ; cbn [unmap_pages].
  { wp_step. apply HQ; [done|by split; [lia|]|by destruct s|done|done]. }
  apply tables_for_next in Htab as [Hv0 Htab].
  wp_step. eapply (wp_traverse_found s a pds pts u); [done..|]. intros loc1 Hloc1.
  destruct (located_table Hk Hloc1) as (t & e & Ht & He & _).
  wp_step. eapply wp_set_entry; [done|]. unfold invlpg, modify_paging. do 2 wp_step.
  destruct (leaf_update Hk Hloc1 t 0 (v :: pg_invalidated (pg s)) Ht) as [Hk' Hleaf].
  rewrite wrap_small by (unfold PAGE_SIZE; lia).
  change (set_paging (with_invalidated (v :: _) _) _) with (set_paging
    (with_invalidated (v :: pg_invalidated (pg s)) (with_entry (pt loc1) t (GET_LEVEL_INDEX v PT) 0 (pg s))) s).
  set (s1 := set_paging _ s) in *.
  assert (∀ v', translate (pg s1) pts v' = if decide (page_of v' = page_of v) then None else translate (pg s) pts v') as T1.
  { intros v'. rewrite !translate_of_leaf, Hleaf. by destruct (decide _). }
  apply (IH s1 v (v + PAGE_SIZE) loc1); unfold PAGE_SIZE; [done|done|apply follows_next|done|lia|lia|lia|].
  intros s2 Hk2 [Hin Hout] E2 F2 I2. apply HQ; [done| |by rewrite E2|by rewrite F2|].
  - split.
    + intros i v' Hi Hv'. destruct (decide (i = 0)) as [->|Hi0].
      * rewrite Hout.
        -- rewrite T1, decide_True; [done|]. unfold nth_page in Hv'. by rewrite Z.mul_0_r, Z.add_0_r in Hv'.
        -- intros j Hj Hnp. assert (nth_page v (j + 1) v') as Hnp'.
           { unfold nth_page in *. rewrite Hnp. f_equal. lia. }
           pose proof (nth_page_inj v 0 (j + 1) v' Hv' Hnp'). lia.
      * apply (Hin (i - 1)); [lia|]. unfold nth_page in *. rewrite Hv'. f_equal. lia.
    + intros v' Hno. rewrite Hout.
      * rewrite T1, decide_False; [done|]. intros E. apply (Hno 0); [lia|].
        unfold nth_page. by rewrite Z.mul_0_r, Z.add_0_r.
      * intros i Hi Hnp. apply (Hno (i + 1)); [lia|]. unfold nth_page in *. rewrite Hnp. f_equal. lia.
  - rewrite I2, page_list_S, reverse_cons, <- app_assoc. done.
Qed.

(** ** Flags *)

(** The entries of [n] pages from [v] on get [flags]; nothing else changes. *)
Definition range_flagged g pts v n flags g' : Prop :=
  ∀ v', leaf g' pts v' =
    if bool_decide (page_of v' ∈ page_of <$> page_list v n)
    then set_flags (pg_execute_disable g) flags <$> leaf g pts v' else leaf g pts v'.

Lemma set_flags_twice nx flags e : set_flags nx flags (set_flags nx flags e) = set_flags nx flags e.
Proof.
  apply Z.bits_inj'. intros i Hi. unfold set_flags, set_write, set_cache_disable, set_write_through, set_execute_disable.
  rewrite !testbit_set_bits by lia.
  repeat match goal with |- context [if ?b then _ else _] => destruct b end; done.
Qed.

Lemma set_flags_present nx flags e : present (set_flags nx flags e) = present e ∧ phys_addr (set_flags nx flags e) = phys_addr e.
Proof. split; by entry_simpl. Qed.

(** The pages of a range are present. *)
Definition all_present g pts v n : Prop :=
  ∀ i, 0 ≤ i < n → ∃ e, leaf g pts (v + 4096 * i) = Some e ∧ present e = true.

Lemma wp_set_flags_pages n s a pds pts u v flags loc (Q : bool → kmem → Prop) :
  pspace P s a pds pts → located pds pts u loc → follows u v → all_present (pg s) pts v (Z.of_nat n) →
  0 ≤ v → v + 4096 * Z.of_nat n < 2 ^ 64 →
  (∀ s', pspace P s' a pds pts → range_flagged (pg s) pts v n flags (pg s') →
     s' = set_paging (pg s') s → pg_invalidated (pg s') = pg_invalidated (pg s) → Q true s') →
  wp (set_flags_pages kmap_allocation kmap_phys_range P v n flags loc) Q s.
Proof.
  revert s u v loc. induction n as [|n IH]; intros s u v loc Hk Hloc Hf Hall Hv Hvm HQ; cbn [set_flags_pages].
  { wp_step. apply HQ; [done| |by destruct s|done]. intros v'. by rewrite bool_decide_eq_false_2 by set_solver. }
  destruct (Hall 0 ltac:(lia)) as (e & He & Hpr). rewrite Z.mul_0_r, Z.add_0_r in He.
  assert (has_table pts v) as Hv0.
  { unfold leaf in He. unfold has_table. by destruct (pts !! _). }
  wp_step. eapply (wp_traverse_found s a pds pts u); [done..|]. intros loc1 Hloc1.
  destruct (located_table Hk Hloc1) as (t & e' & Ht & He' & Hl). assert (e' = e) as -> by congruence.
  wp_step. eapply wp_get_entry; [done..|]. rewrite Hpr. unfold get_paging. do 2 wp_step.
  wp_step. eapply wp_set_entry; [done|].
  destruct (leaf_update Hk Hloc1 t (set_flags (pg_execute_disable (pg s)) flags e) (pg_invalidated (pg s)) Ht) as [Hk' Hleaf].
  rewrite wrap_small by (unfold PAGE_SIZE; lia).
  change (with_entry (pt loc1) t (GET_LEVEL_INDEX v PT) _ (pg s)) with
    (with_invalidated (pg_invalidated (pg s)) (with_entry (pt loc1) t (GET_LEVEL_INDEX v PT)
       (set_flags (pg_execute_disable (pg s)) flags e) (pg s))).
  set (s1 := set_paging _ s) in *.
  assert (∀ v', leaf (pg s1) pts v' = if decide (page_of v' = page_of v)
    then set_flags (pg_execute_disable (pg s)) flags <$> leaf (pg s) pts v' else leaf (pg s) pts v') as L1.
  { intros v'. rewrite Hleaf. destruct (decide _) as [E|]; [|done].
    assert (leaf (pg s) pts v' = Some e) as ->; [|done].
    rewrite <- Hl. unfold leaf. by apply page_of_inj in E as (-> & -> & ->). }
  apply (IH s1 v (v + PAGE_SIZE) loc1); unfold PAGE_SIZE; [done|done|apply follows_next| |lia|lia|].
  - intros i Hi. destruct (Hall (i + 1) ltac:(lia)) as (e1 & He1 & Hp1).
    replace (v + 4096 + 4096 * i) with (v + 4096 * (i + 1)) by lia. rewrite L1, He1.
    destruct (decide _); [|eauto]. eexists. split; [done|]. by rewrite (proj1 (set_flags_present _ _ _)).
  - intros s2 Hk2 Hfl E2 I2. apply HQ; [done| |by rewrite E2|done].
    intros v'. rewrite Hfl, L1, page_list_S, fmap_cons. change (pg_execute_disable (pg s1)) with (pg_execute_disable (pg s)).
    rewrite (bool_decide_ext _ _ (elem_of_cons _ _ _)).
    destruct (decide (page_of v' = page_of v)) as [E|E].
    + rewrite (bool_decide_eq_true_2 (page_of v' = _ ∨ _)) by by left.
      destruct (bool_decide _); [|done]. destruct (leaf (pg s) pts v'); [|done]. cbn. by rewrite set_flags_twice.
    + assert (page_of v' = page_of v ∨ page_of v' ∈ page_of <$> page_list (v + 4096) n ↔
              page_of v' ∈ page_of <$> page_list (v + 4096) n) as Ex by naive_solver.
      by rewrite (bool_decide_ext _ _ Ex).
Qed.
End operations.

End PagingProofs.
