(* ===== verification/PagingGrowth.v ===== *)
(** Mapping ranges of pages into an address space, for any space whose tree can grow.

    [Grows] is what the kernel's address space and the one of a process have in common:
    an invariant [inv n] under which [n] more pages of page entries can be made. The
    loops of [map_range_helper], [map_allocation] and [map_phys_range] are proved correct
    once, against this interface. *)
From S2P Require Import Prelude Util MemState PageEntry AddressSpace FrameAllocator FrameInvariant FrameProofs Paging PagingInvariant PagingProofs.

Module PagingGrowth.
Import Util Mem PageEntry AddressSpace FrameAllocator FrameInvariant FrameProofs Paging PagingInvariant PagingProofs.
Implicit Types (s : kmem) (a : AddressSpace) (pds : gmap Z MappingEntry) (pts : gmap (Z * Z) MappingEntry).

(** The state after the bump pointer of [P] moved to [c]. *)
Definition bumped (P c : Z) a s : kmem :=
  set_paging (with_spaces (<[P := set_current_address c a]> (pg_spaces (pg s))) (pg s)) s.

Class Grows `{!MemoryEntries} (P : Z) (kmap_allocation : list PageFrameAllocation → Z → KM Z)
    (kmap_phys_range : Z → Z → Z → KM Z)
    (inv : Z → kmem → AddressSpace → gmap Z MappingEntry → gmap (Z * Z) MappingEntry → Prop) := {
  gr_space n s a pds pts : inv n s a pds pts → pspace P s a pds pts;
  gr_less n n' s a pds pts : inv n s a pds pts → n' ≤ n → inv n' s a pds pts;
  gr_leaf n s a pds pts v loc t e l :
    inv n s a pds pts → located pds pts v loc → table (pg s) (pt loc) t →
    inv n (leaf_stored v loc t e l s) a pds pts;
  gr_bump n s a pds pts c :
    inv n s a pds pts → as_current_address a ≤ c → inv n (bumped P c a s) (set_current_address c a) pds pts;
  gr_pd n s a pds pts i :
    inv n s a pds pts → 0 < n → 0 ≤ i < 512 → pds !! i = None →
    wp (get_or_alloc_page_entries kmap_allocation kmap_phys_range P (as_pdp a) i PD) (λ r s', ∃ a' pds' m,
      inv (n - 1) s' a' pds' pts ∧ extends s a pds pts s' a' pds' pts ∧ pds' !! i = Some m ∧ r = mapping_ptr m) s;
  gr_pt n s a pds pts i j mp :
    inv n s a pds pts → 0 < n → 0 ≤ j < 512 → pds !! i = Some mp → pts !! (i, j) = None →
    wp (get_or_alloc_page_entries kmap_allocation kmap_phys_range P (mapping_ptr mp) j PT) (λ r s', ∃ a' pts' m,
      inv (n - 1) s' a' pds pts' ∧ extends s a pds pts s' a' pds pts' ∧ pts' !! (i, j) = Some m ∧ r = mapping_ptr m) s;
}.

(** The 2 MB an address lies in: the addresses one page of leaves serves. *)
Definition region (v : Z) : Z := v / 2 ^ 21.

Lemma region_index v w : region v = region w →
  GET_LEVEL_INDEX v PDP = GET_LEVEL_INDEX w PDP ∧ GET_LEVEL_INDEX v PD = GET_LEVEL_INDEX w PD.
Proof.
  unfold region. intros E. rewrite !level_index by (unfold PDP, PD; lia). unfold PDP, PD.
  change (12 + 9 * 2) with (21 + 9). change (12 + 9 * 1) with 21. rewrite (Z.pow_add_r 2 21 9), <- !Z.div_div by lia. by rewrite E.
Qed.

Lemma region_next v : region v ≤ region (v + 4096) ≤ region v + 1.
Proof.
  unfold region. change (2 ^ 21) with 2097152. split; [apply Z.div_le_mono; lia|].
  replace (v / 2097152 + 1) with ((v + 1 * 2097152) / 2097152) by (rewrite Z.div_add by lia; done). apply Z.div_le_mono; lia.
Qed.

Lemma region_mono v w : v ≤ w → region v ≤ region w.
Proof. intros H. apply Z.div_le_mono; lia. Qed.

(** The pages of entries mapping [n] pages from [v] on can take: two for each 2 MB. *)
Definition entries_for (v n : Z) : Z := 2 * (region (v + 4096 * (n - 1)) - region v + 1).

Section growth.
Context `{!MemoryEntries} {P : Z} {kmap_allocation : list PageFrameAllocation → Z → KM Z} {kmap_phys_range : Z → Z → Z → KM Z}.
Context {inv : Z → kmem → AddressSpace → gmap Z MappingEntry → gmap (Z * Z) MappingEntry → Prop}.
Context `{!Grows P kmap_allocation kmap_phys_range inv}.
Local Abbreviation page_entries := (page_entries kmap_allocation kmap_phys_range).

Lemma wp_ensure_pd n s a pds pts i (Q : Z → kmem → Prop) :
  inv n s a pds pts → 0 ≤ i < 512 → 0 < n →
  (∀ s' a' pds' m, inv (n - 1) s' a' pds' pts → extends s a pds pts s' a' pds' pts →
     pds' !! i = Some m → Q (mapping_ptr m) s') →
  wp (page_entries true P (as_pdp a) i PD) Q s.
Proof using Grows0.
  intros Hk Hi Hn HQ. unfold Paging.page_entries. destruct (pds !! i) as [m|] eqn:Ei.
  - pose proof (gr_space _ _ _ _ _ Hk) as Hp.
    destruct (tree_pdp _ _ _ _ (ps_tree _ _ _ _ _ Hp)) as (t & Htab & Hch). destruct (Hch _ Hi) as (e & He & Hce).
    unfold get_or_alloc_page_entries. wp_step. eapply wp_get_entry; [done..|].
    pose proof Hce as Hce'. rewrite Ei in Hce'. rewrite (proj1 Hce').
    eapply (wp_page_entries_pd _ _ _ _ i); [done|done|]. rewrite Ei.
    apply (HQ s a pds m); [apply (gr_less n); [done|lia]|apply extends_refl|done].
  - eapply wp_mono; [by apply (gr_pd n)|]. intros r s' (a' & pds' & m & ? & ? & ? & ->). by apply (HQ s' a' pds' m).
Qed.

Lemma wp_ensure_pt n s a pds pts i j mp (Q : Z → kmem → Prop) :
  inv n s a pds pts → 0 ≤ j < 512 → pds !! i = Some mp → 0 < n →
  (∀ s' a' pts' m, inv (n - 1) s' a' pds pts' → extends s a pds pts s' a' pds pts' →
     pts' !! (i, j) = Some m → Q (mapping_ptr m) s') →
  wp (page_entries true P (mapping_ptr mp) j PT) Q s.
Proof using Grows0.
  intros Hk Hj Hmp Hn HQ. unfold Paging.page_entries. destruct (pts !! (i, j)) as [m|] eqn:Ei.
  - pose proof (gr_space _ _ _ _ _ Hk) as Hp.
    destruct (tree_pd _ _ _ _ (ps_tree _ _ _ _ _ Hp) _ _ Hmp) as (t & Htab & Hch). destruct (Hch _ Hj) as (e & He & Hce).
    unfold get_or_alloc_page_entries. wp_step. eapply wp_get_entry; [done..|].
    pose proof Hce as Hce'. rewrite Ei in Hce'. rewrite (proj1 Hce').
    eapply (wp_page_entries_pt s a pds pts (i, j)); [done|done|]. rewrite Ei.
    apply (HQ s a pts m); [apply (gr_less n); [done|lia]|apply extends_refl|done].
  - eapply wp_mono; [by apply (gr_pt n s a pds pts i j mp)|]. intros r s' (a' & pts' & m & ? & ? & ? & ->). by apply (HQ s' a' pts' m).
Qed.

(** ** Locations *)

Lemma wp_locate n s a pds pts v (Q : PageTableLocation → kmem → Prop) :
  inv n s a pds pts → 1 < n →
  (∀ s' a' pds' pts' loc, inv (n - 2) s' a' pds' pts' → extends s a pds pts s' a' pds' pts' →
     located pds' pts' v loc → Q loc s') →
  wp (populate_page_table_location kmap_allocation kmap_phys_range P v true) Q s.
Proof using Grows0.
  intros Hk Hsp HQ. destruct (index_bounds v) as (Hi & Hj & _). unfold populate_page_table_location.
  wp_step. apply (wp_get_space _ a); [apply (gr_space _ _ _ _ _ Hk)|].
  wp_step. apply (wp_ensure_pd n s a pds pts); [done|done|lia|]. intros s1 a1 pds1 mp Hk1 Hx1 Hmp.
  wp_step. apply (wp_ensure_pt (n - 1) s1 a1 pds1 pts (GET_LEVEL_INDEX v PDP) _ mp); [done|done|done|lia|].
  intros s2 a2 pts2 mt Hk2 Hx2 Hmt. replace (n - 1 - 1) with (n - 2) in Hk2 by lia.
  wp_step. apply (HQ s2 a2 pds1 pts2); [done|by eapply extends_trans|]. by exists mp, mt.
Qed.

(** One page further: only a page in another 2 MB takes new pages of entries. *)
Lemma wp_traverse n s a pds pts u v loc (Q : PageTableLocation → kmem → Prop) :
  inv n s a pds pts → located pds pts u loc → v = u ∨ v = u + 4096 → 2 * (region v - region u) ≤ n →
  (∀ s' a' pds' pts' loc', inv (n - 2 * (region v - region u)) s' a' pds' pts' → extends s a pds pts s' a' pds' pts' →
     located pds' pts' v loc' → Q loc' s') →
  wp (page_table_traversal_helper kmap_allocation kmap_phys_range P v loc true) Q s.
Proof using Grows0.
  intros Hk (mp & mt & Hmp & Hmt & ->) Hv Hn HQ. destruct (index_bounds v) as (Hi & Hj & _).
  assert (follows u v) as Hf by (destruct Hv as [->| ->]; [apply follows_refl|apply follows_next]).
  assert (0 ≤ region v - region u ≤ 1) as Hr by (pose proof (region_next u); destruct Hv as [->| ->]; lia).
  assert (GET_LEVEL_INDEX v PDP ≠ GET_LEVEL_INDEX u PDP ∨ GET_LEVEL_INDEX v PD ≠ GET_LEVEL_INDEX u PD → region v - region u = 1) as Hr1.
  { intros Hne. destruct (decide (region v = region u)) as [E|]; [|lia]. destruct (region_index _ _ E). tauto. }
  unfold page_table_traversal_helper. cbn [pd_index pt_index pd].
  destruct (Z.eqb_spec (GET_LEVEL_INDEX v PDP) (GET_LEVEL_INDEX u PDP)) as [Ei|Ei]; cbn [negb].
  - destruct (Z.eqb_spec (GET_LEVEL_INDEX v PD) (GET_LEVEL_INDEX u PD)) as [Ej|Ej]; cbn [negb].
    + wp_step. apply (HQ s a pds pts); [apply (gr_less n); [done|lia]|apply extends_refl|].
      exists mp, mt. by rewrite Ei, Ej.
    + rewrite Hr1 in * by auto. wp_step. apply (wp_ensure_pt n s a pds pts (GET_LEVEL_INDEX u PDP) _ mp); [done|done|done|lia|].
      intros s2 a2 pts2 m Hk2 Hx2 Hm. wp_step. wp_step.
      { destruct (mapping_ptr_nonzero _ _ _ _ (gr_space _ _ _ _ _ Hk2)) as [_ Hn2]. specialize (Hn2 _ _ Hm). lia. }
      wp_step. apply (HQ s2 a2 pds pts2); [apply (gr_less (n - 1)); [done|lia]|done|].
      exists mp, m. by rewrite Ei.
  - rewrite Hr1 in * by auto. assert (GET_LEVEL_INDEX v PD = 0) as E0 by (apply Hf; congruence).
    wp_step. apply (wp_get_space _ a); [apply (gr_space _ _ _ _ _ Hk)|].
    wp_step. apply (wp_ensure_pd n s a pds pts); [done|done|lia|]. intros s1 a1 pds1 mp1 Hk1 Hx1 Hmp1.
    destruct (mapping_ptr_nonzero _ _ _ _ (gr_space _ _ _ _ _ Hk1)) as [Hn1' _].
    wp_step. wp_step; [specialize (Hn1' _ _ Hmp1); lia|].
    wp_step. apply (wp_ensure_pt (n - 1) s1 a1 pds1 pts (GET_LEVEL_INDEX v PDP) 0 mp1); [done|lia|done|lia|].
    intros s2 a2 pts2 m Hk2 Hx2 Hm. wp_step. wp_step.
    { destruct (mapping_ptr_nonzero _ _ _ _ (gr_space _ _ _ _ _ Hk2)) as [_ Hn2]. specialize (Hn2 _ _ Hm). lia. }
    replace (n - 1 - 1) with (n - 2 * 1) in Hk2 by lia.
    wp_step. apply (HQ s2 a2 pds1 pts2); [done|by eapply extends_trans|]. exists mp1, m. by rewrite E0.
Qed.

(** ** Mapping *)

Lemma wp_map_page n s a pds pts v phys flags loc (Q : unit → kmem → Prop) :
  inv n s a pds pts → located pds pts v loc → 0 ≤ as_prot a < 16 → 0 ≤ phys < 2 ^ 52 → (4096 | phys) →
  (∀ s', inv n s' a pds pts → mapped s a pds pts v [phys] s' a pds pts → Q tt s') →
  wp (map_page P v phys flags loc) Q s.
Proof using Grows0.
  intros Hk Hloc Hprot Hphys [k Hk4] HQ. unfold map_page. pose proof (gr_space _ _ _ _ _ Hk) as Hp.
  destruct (located_table Hp Hloc) as (t & e & Ht & He & _).
  wp_step. eapply wp_get_entry; [done..|]. wp_step. apply (wp_get_space _ a); [apply Hp|].
  unfold get_paging. do 2 wp_step. wp_step. eapply wp_set_entry; [done|].
  unfold invlpg, modify_paging. wp_step.
  set (e' := leaf_entry _ _ _ _ _).
  destruct (leaf_update Hp Hloc t e' (v :: pg_invalidated (pg s)) Ht) as [_ Hleaf].
  apply HQ; [exact (gr_leaf n s a pds pts v loc t e' (v :: pg_invalidated (pg s)) Hk Hloc Ht)|].
  split; [|apply set_entry_maps_same|done|done|].
  - assert (present e' = true) as Hpr by (subst e'; by entry_simpl).
    assert (phys_addr e' = k) as Hph.
    { subst e'. entry_simpl. rewrite Z.shiftr_div_pow2, Hk4 by lia. change (2 ^ 12) with 4096.
      rewrite Z.div_mul by lia. apply wrap_small. lia. }
    assert (∀ v', translate (pg (leaf_stored v loc t e' (v :: pg_invalidated (pg s)) s)) pts v' =
      if decide (page_of v' = page_of v) then Some (phys + v' mod 4096) else translate (pg s) pts v') as T.
    { intros v'. rewrite !translate_of_leaf, Hleaf. destruct (decide _); [|done]. cbn [mbind option_bind]. by rewrite Hpr, Hph, Hk4. }
    split.
    + intros [|i] f v' Hi Hv'; [|done]. injection Hi as <-. unfold nth_page in Hv'. cbn [Z.of_nat] in Hv'. rewrite Z.mul_0_r, Z.add_0_r in Hv'.
      refine (eq_trans (T v') _). by rewrite decide_True.
    + intros v' Hno. refine (eq_trans (T v') _). rewrite decide_False; [done|]. intros E. apply (Hno 0); [cbn; lia|].
      unfold nth_page. by rewrite Z.mul_0_r, Z.add_0_r.
  - exists [v]. split; [done|]. intros x (i & Hi & ->)%page_list_elem. cbn in Hi. replace i with 0 by lia.
    rewrite Z.mul_0_r, Z.add_0_r. apply list_elem_of_here.
Qed.

Lemma wp_map_range n N s a pds pts u v phys flags loc (Q : PageTableLocation → kmem → Prop) :
  inv N s a pds pts → located pds pts u loc → v = u ∨ v = u + 4096 →
  (0 < Z.of_nat n → 2 * (region (v + 4096 * (Z.of_nat n - 1)) - region u) ≤ N) →
  0 ≤ as_prot a < 16 → Z.of_nat n ≤ 2 ^ 27 → 0 ≤ v → v + 4096 * Z.of_nat n < 2 ^ 64 →
  0 ≤ phys → phys + 4096 * Z.of_nat n < 2 ^ 52 → (4096 | phys) →
  (∀ s' a' pds' pts' loc' u', inv (N - 2 * (region u' - region u)) s' a' pds' pts' → located pds' pts' u' loc' →
     u' = (if decide (n = 0%nat) then u else v + 4096 * (Z.of_nat n - 1)) →
     mapped s a pds pts v (page_list phys n) s' a' pds' pts' → Q loc' s') →
  wp (map_range_helper kmap_allocation kmap_phys_range P v phys n flags loc) Q s.
Proof using Grows0.
  revert N s a pds pts u v phys loc. induction n as [|n IH];
    intros N s a pds pts u v phys loc Hk Hloc Hv HN Hprot Hn Hv0 Hvm Hp Hpm Hd HQ; cbn [map_range_helper].
  { wp_step. apply (HQ s a pds pts loc u); [|done|done|apply extends_refl]. by rewrite Z.sub_diag, Z.mul_0_r, Z.sub_0_r. }
  specialize (HN ltac:(lia)). pose proof (region_mono v (v + 4096 * (Z.of_nat (S n) - 1)) ltac:(lia)) as Hrm.
  wp_step. eapply (wp_traverse N s a pds pts u); [done..|lia|]. intros s1 a1 pds1 pts1 loc1 Hk1 Hx1 Hloc1.
  assert (as_prot a1 = as_prot a) as Eprot by (rewrite (mp_space _ _ _ _ _ _ _ _ _ _ (Hx1 0)); done).
  wp_step. apply (wp_map_page (N - 2 * (region v - region u)) s1 a1 pds1 pts1 v phys); [done|done|lia|lia|done|].
  intros s2 Hk2 Hx2. unfold PAGE_SIZE. rewrite !wrap_small by lia.
  pose proof (region_next u) as Hnext.
  apply (IH (N - 2 * (region v - region u)) s2 a1 pds1 pts1 v (v + 4096) (phys + 4096) loc1);
    [done|done|by right| |lia|lia|lia|lia|lia|lia|by apply Z.divide_add_r; [|exists 1]|].
  { intros Hn0. replace (v + 4096 + 4096 * (Z.of_nat n - 1)) with (v + 4096 * (Z.of_nat (S n) - 1)) by lia. lia. }
  intros s3 a3 pds3 pts3 loc3 u3 Hk3 Hloc3 Hu3 Hx3. rewrite <- Z.sub_add_distr in Hk3.
  apply (HQ s3 a3 pds3 pts3 loc3 u3); [|done| |].
  - replace (2 * (region u3 - region u)) with (2 * (region v - region u) + 2 * (region u3 - region v)) by lia. done.
  - rewrite Hu3, (decide_False (P := S n = 0%nat)) by done. destruct (decide (n = 0%nat)) as [->|]; lia.
  - rewrite page_list_S. eapply (extends_mapped s a pds pts); [exact Hx1| |cbn; rewrite length_page_list; lia].
    change (phys :: page_list (phys + 4096) n) with ([phys] ++ page_list (phys + 4096) n). eapply mapped_app; [exact Hx2| |cbn; rewrite length_page_list; lia].
    cbn [length]. by replace (v + 4096 * Z.of_nat 1) with (v + 4096) by lia.
Qed.

(** ** Blocks of an allocation *)

(** The frames of an allocation, in the order they are mapped in. *)
Definition frames_of (l : list PageFrameAllocation) : list Z :=
  concat ((λ b, page_list (pfa_addr b) (Z.to_nat (2 ^ pfa_order b))) <$> l).

(** A block [map_allocation] can map. *)
Definition mappable (b : PageFrameAllocation) : Prop :=
  0 ≤ pfa_order b < 8 ∧ 0 ≤ pfa_addr b ∧ pfa_addr b + sz (pfa_order b) < 2 ^ 52 ∧ (4096 | pfa_addr b).

Lemma frames_of_cons b l :
  frames_of (b :: l) = page_list (pfa_addr b) (Z.to_nat (2 ^ pfa_order b)) ++ frames_of l.
Proof. done. Qed.

Context {lim : Z} (Hshape : ∀ n s a pds pts, inv n s a pds pts → shape lim (fr s)).

Lemma wp_map_blocks l N s a pds pts u v flags loc (Q : unit → kmem → Prop) :
  inv N s a pds pts → located pds pts u loc → v = u ∨ v = u + 4096 → Forall mappable l →
  (l ≠ [] → 2 * (region (v + 4096 * (Z.of_nat (length (frames_of l)) - 1)) - region u) ≤ N) →
  0 ≤ as_prot a < 16 → Z.of_nat (length (frames_of l)) ≤ 2 ^ 27 → 0 ≤ v → v + 4096 * Z.of_nat (length (frames_of l)) < 2 ^ 64 →
  (∀ s' a' pds' pts' n', inv n' s' a' pds' pts' →
     n' = (if decide (l = []) then N else N - 2 * (region (v + 4096 * (Z.of_nat (length (frames_of l)) - 1)) - region u)) →
     mapped s a pds pts v (frames_of l) s' a' pds' pts' → Q tt s') →
  wp (map_blocks kmap_allocation kmap_phys_range P v l flags loc) Q s.
Proof using Grows0 Hshape.
  revert N s a pds pts u v loc. induction l as [|b l IH]; intros N s a pds pts u v loc Hk Hloc Hv Hl HN Hprot Hn Hv0 Hvm HQ; cbn [map_blocks].
  { wp_step. apply (HQ s a pds pts N Hk eq_refl). apply extends_refl. }
  apply Forall_cons in Hl as [(Ho & Ha & Hlim & Hd) Hl]. specialize (HN ltac:(done)). setoid_rewrite decide_False in HQ; [|done].
  rewrite frames_of_cons, length_app, length_page_list in *. pose proof (Z.pow_pos_nonneg 2 (pfa_order b) ltac:(lia) ltac:(lia)) as Hpos.
  rewrite !Nat2Z.inj_add, !Z2Nat.id in * by lia. set (k := 2 ^ pfa_order b) in *. set (r := Z.of_nat (length (frames_of l))) in *.
  assert (0 ≤ r) as Hr by lia. assert (sz (pfa_order b) = 4096 * k) as Esz by done. pose proof (Hshape _ _ _ _ _ Hk) as Hs.
  unfold get_frame_order_size. do 2 wp_step. wp_step; [unfold FRAME_ORDERS; lia|]. apply (wp_order_size (lim := lim)); [done|done|].
  rewrite Esz. unfold PAGE_SIZE. rewrite Z.mul_comm, Z.div_mul, Z.mul_comm by lia.
  pose proof (region_mono (v + 4096 * (k - 1)) (v + 4096 * (k + r - 1)) ltac:(lia)).
  wp_step. apply (wp_map_range (Z.to_nat k) N s a pds pts u v (pfa_addr b)); rewrite ?Z2Nat.id by lia;
    [done|done|done|lia|done|lia|lia|lia|lia|lia|done|].
  intros s1 a1 pds1 pts1 loc1 u1 Hk1 Hloc1 Hu1 Hx1. rewrite decide_False in Hu1 by lia.
  rewrite wrap_small by lia.
  apply (IH _ s1 a1 pds1 pts1 u1 (v + 4096 * k) loc1 Hk1 Hloc1); [right; lia|done| | | | | |].
  - intros Hne. fold r. replace (v + 4096 * k + 4096 * (r - 1)) with (v + 4096 * (k + r - 1)) by lia. lia.
  - rewrite (mp_space _ _ _ _ _ _ _ _ _ _ Hx1). done.
  - fold r. lia.
  - lia.
  - fold r. lia.
  - intros s2 a2 pds2 pts2 n2 Hk2 En2 Hx2. apply (HQ s2 a2 pds2 pts2 n2 Hk2).
    { rewrite En2, Hu1. destruct l as [|b2 l]; case_decide; try done; cbn [frames_of fmap list_fmap concat length] in r; fold r;
        [subst r; rewrite Z.add_0_r; lia|]. replace (v + 4096 * k + 4096 * (r - 1)) with (v + 4096 * (k + r - 1)) by lia. lia. }
    eapply mapped_app; [exact Hx1| |rewrite length_page_list; fold r; lia].
    rewrite length_page_list, Z2Nat.id by lia. done.
Qed.

(** ** Addresses *)

(** [n] pages can be taken at the bump pointer. *)
Record can_bump a (n : Z) : Prop := {
  cb_free_list : as_free_list a = 0;
  cb_index : 0 ≤ as_pdp_index a < 512;
  cb_current : as_pdp_index a * PDP_MEM_RANGE ≤ as_current_address a;
  cb_aligned : (4096 | as_current_address a);
  cb_room : as_current_address a + 4096 * n < (as_pdp_index a + 1) * PDP_MEM_RANGE;
  cb_prot : 0 ≤ as_prot a < 16;
}.

Definition bump_addr a : Z := SIGN_EXT_ADDR (as_current_address a).

Lemma bump_addr_range a n :
  can_bump a n → 0 ≤ n → 0 ≤ bump_addr a ∧ (4096 | bump_addr a) ∧ bump_addr a + 4096 * n < 2 ^ 64.
Proof.
  intros [_ Hi Hc Hal Hr _] Hn. unfold bump_addr. change PDP_MEM_RANGE with (2 ^ 39) in *.
  rewrite sign_ext_eq by lia. destruct (Z.ltb_spec (as_current_address a) (2 ^ 47)).
  - split_and!; [lia|done|lia].
  - split_and!; [lia| |lia]. apply Z.divide_add_r; [done|]. by exists (2 ^ 52 - 2 ^ 36).
Qed.

Lemma wp_bump N n s a pds pts (Q : Z → kmem → Prop) :
  inv N s a pds pts → can_bump a n → 0 ≤ n →
  (let c := as_current_address a + 4096 * n in inv N (bumped P c a s) (set_current_address c a) pds pts →
   Q (bump_addr a) (bumped P c a s)) →
  wp (alloc_addr_space P n) Q s.
Proof using Grows0.
  intros Hk [Hfl Hidx Hcur Hal Hroom Hprot] Hn HQ. change PDP_MEM_RANGE with (2 ^ 39) in *. eexists _, _. split.
  - rewrite (alloc_bump_eq P a []); unfold PAGE_SIZE; [|apply (gr_space _ _ _ _ _ Hk)|rewrite Hfl; constructor|cbn; lia|constructor|lia|lia|lia|lia].
    change PDP_MEM_RANGE with (2 ^ 39). replace (_ <? _) with true by lia. reflexivity.
  - rewrite (Z.mul_comm n). apply HQ. apply gr_bump; [done|lia].
Qed.

(** What a mapping at the bump pointer leaves: the address space with its pointer moved
    and the frames mapped from where it was. *)
Definition bump_mapped s a pds pts (fs : list Z) s' a' pds' pts' : Prop :=
  let c := as_current_address a + 4096 * Z.of_nat (length fs) in
  mapped (bumped P c a s) (set_current_address c a) pds pts (bump_addr a) fs s' a' pds' pts'.

Lemma wp_map_phys_range N s a pds pts phys n flags (Q : Z → kmem → Prop) :
  inv N s a pds pts → can_bump a n → 0 < n ≤ 2 ^ 27 → entries_for (bump_addr a) n ≤ N →
  0 ≤ phys → (4096 | phys) → phys + 4096 * n < 2 ^ 52 →
  (∀ s' a' pds' pts' n', inv n' s' a' pds' pts' →
     bump_mapped s a pds pts (page_list phys (Z.to_nat n)) s' a' pds' pts' → n' = N - entries_for (bump_addr a) n → Q (bump_addr a) s') →
  wp (map_phys_range kmap_allocation kmap_phys_range P phys n flags) Q s.
Proof using Grows0.
  intros Hk Hcb Hn HN Hp Hpd Hpm HQ. destruct (bump_addr_range a n Hcb ltac:(lia)) as (Hv0 & Hv & Hvm).
  unfold Paging.map_phys_range, entries_for in *. set (v := bump_addr a) in *. pose proof (region_mono v (v + 4096 * (n - 1)) ltac:(lia)).
  wp_step. eapply wp_bump; [done..|lia|]. intros c Hk1.
  wp_step. apply (wp_locate N (bumped P c a s) (set_current_address c a) pds pts v); [exact Hk1|lia|].
  intros s2 a2 pds2 pts2 loc Hk2 Hx2 Hloc.
  wp_step. apply (wp_map_range (Z.to_nat n) (N - 2) s2 a2 pds2 pts2 v v phys); rewrite ?Z2Nat.id by lia;
    [done|done|by left|lia| |lia|lia|lia|lia|lia|done|].
  { rewrite (mp_space _ _ _ _ _ _ _ _ _ _ (Hx2 0)). apply Hcb. }
  intros s3 a3 pds3 pts3 loc3 u3 Hk3 Hloc3 Hu3 Hx3. rewrite decide_False in Hu3 by lia.
  wp_step. eapply (HQ s3 a3 pds3 pts3); [exact Hk3| |subst u3; lia].
  unfold bump_mapped. rewrite length_page_list, Z2Nat.id by lia. eapply extends_mapped; [exact Hx2|exact Hx3|rewrite length_page_list; lia].
Qed.

Lemma wp_allocation_size l x (Q : Z → kmem → Prop) s :
  shape lim (fr s) → Forall mappable l → 0 ≤ x → x + 4096 * Z.of_nat (length (frames_of l)) < 2 ^ 64 →
  Q (x + 4096 * Z.of_nat (length (frames_of l))) s → wp (allocation_size l x) Q s.
Proof using Type.
  intros Hs. revert x. induction l as [|b l IH]; intros x Hl Hx Hm HQ; cbn [allocation_size].
  { wp_step. by rewrite Z.add_0_r in HQ. }
  apply Forall_cons in Hl as [(Ho & Ha & Hlim & Hd) Hl]. rewrite frames_of_cons, length_app, length_page_list in *.
  pose proof (Z.pow_pos_nonneg 2 (pfa_order b) ltac:(lia) ltac:(lia)) as Hpos.
  rewrite !Nat2Z.inj_add, !Z2Nat.id in * by lia.
  unfold get_frame_order_size. do 2 wp_step. wp_step; [unfold FRAME_ORDERS; lia|]. apply (wp_order_size (lim := lim)); [done|done|].
  unfold sz. rewrite wrap_small by lia. apply IH; [done|lia|lia|].
  by replace (x + 4096 * 2 ^ pfa_order b + 4096 * Z.of_nat (length (frames_of l)))
    with (x + 4096 * (2 ^ pfa_order b + Z.of_nat (length (frames_of l)))) by lia.
Qed.

(** The blocks of an allocation are mapped one behind the other. *)
Lemma wp_map_allocation N s a pds pts l flags (Q : Z → kmem → Prop) :
  let n := Z.of_nat (length (frames_of l)) in
  inv N s a pds pts → can_bump a n → Forall mappable l → 0 < n ≤ 2 ^ 27 → entries_for (bump_addr a) n ≤ N →
  (∀ s' a' pds' pts', inv (N - entries_for (bump_addr a) n) s' a' pds' pts' →
     bump_mapped s a pds pts (frames_of l) s' a' pds' pts' → Q (bump_addr a) s') →
  wp (map_allocation kmap_allocation kmap_phys_range P l flags) Q s.
Proof using Grows0 Hshape.
  intros n Hk Hcb Hl Hn HN HQ. destruct (bump_addr_range a n Hcb ltac:(lia)) as (Hv0 & Hv & Hvm).
  unfold Paging.map_allocation, calculate_allocation_pages, entries_for in *. set (v := bump_addr a) in *.
  pose proof (region_mono v (v + 4096 * (n - 1)) ltac:(lia)).
  do 2 wp_step. apply wp_allocation_size; [by eapply Hshape|done|done|fold n; lia|]. fold n.
  wp_step. unfold PAGE_SIZE. rewrite Z.add_0_l, Z.mul_comm, Z.div_mul by lia.
  wp_step. eapply wp_bump; [done..|lia|]. intros c Hk1.
  wp_step. apply (wp_locate N (bumped P c a s) (set_current_address c a) pds pts v); [exact Hk1|lia|].
  intros s2 a2 pds2 pts2 loc Hk2 Hx2 Hloc.
  wp_step. apply (wp_map_blocks l (N - 2) s2 a2 pds2 pts2 v v); [done|done|by left|done|fold n; lia| |fold n; lia|lia|fold n; lia|].
  { rewrite (mp_space _ _ _ _ _ _ _ _ _ _ (Hx2 0)). apply Hcb. }
  intros s3 a3 pds3 pts3 n3 Hk3 En3 Hx3. wp_step. apply (HQ s3 a3 pds3 pts3).
  { rewrite decide_False in En3 by (intros ->; cbn in n; lia). fold n in En3.
    replace (N - 2 * (region (v + 4096 * (n - 1)) - region v + 1)) with n3 by lia. done. }
  eapply extends_mapped; [exact Hx2|exact Hx3|fold n; lia].
Qed.
End growth.
End PagingGrowth.
