(* ===== verification/PagingKernel.v ===== *)
(** The kernel's address space: its tree grows with pages of the page pool, as long as no
    refill is needed, and it is an instance of [Grows]. Growing it leaves everything else
    in the memory system alone ([since]). *)
From S2P Require Import Prelude Util MemState PageEntry AddressSpace FrameAllocator Paging PagingInvariant PagingProofs PagingGrowth.

Module PagingKernel.
Import Util Mem PageEntry AddressSpace Paging PagingInvariant PagingProofs PagingGrowth.

Abbreviation K := g_kernel_space.
Implicit Types (s : kmem) (a : AddressSpace) (pds : gmap Z MappingEntry) (pts : gmap (Z * Z) MappingEntry).

Definition pool s : list MappingEntry := pp_head (pg_page_pool (pg s)).

Record kspace s a pds pts : Prop := {
  ks_pspace : pspace K s a pds pts;
  ks_fresh : ∀ m, m ∈ pool s → fresh a pds pts m;
  ks_nodup : NoDup (phys_of (pool s)) ∧ NoDup (mapping_ptr <$> pool s);
  ks_pool : pp_count (pg_page_pool (pg s)) = Z.of_nat (length (pool s));
  ks_count : pp_count (pg_page_pool (pg s)) < 2 ^ 64;
}.

(** The pages of the pool that can be used without a refill. *)
Definition spare s : Z := pp_count (pg_page_pool (pg s)) - PAGE_POOL_THRESHOLD.

(** A page of entries the kernel's address space uses or can come to use. *)
Definition kernel_page s pds pts (m : MappingEntry) : Prop := m ∈ pool s ∨ in_tree pds pts m.

Definition kernel_owns s a pds pts (ptr : Z) : Prop :=
  ptr = as_pdp a ∨ ∃ m, kernel_page s pds pts m ∧ ptr = mapping_ptr m.

Lemma owns_kernel s a pds pts ptr : owns a pds pts ptr → kernel_owns s a pds pts ptr.
Proof. intros [->|(m & Hm & ->)]; [by left|right; exists m; split; [by right|done]]. Qed.

(** What using the kernel's address space leaves as it was. *)
Record since s a pds pts s' a' pds' pts' : Prop := {
  si_state : s' = set_paging (pg s') s;
  si_rest : (pg_free_nodes (pg s'), pg_pml4 (pg s'), pg_execute_disable (pg s')) =
            (pg_free_nodes (pg s), pg_pml4 (pg s), pg_execute_disable (pg s));
  si_spaces : ∀ P, P ≠ K → pg_spaces (pg s') !! P = pg_spaces (pg s) !! P;
  si_pdp : as_pdp a' = as_pdp a;
  si_pages : ∀ m, kernel_page s' pds' pts' m → kernel_page s pds pts m;
  si_tables : ∀ ptr, ¬ kernel_owns s a pds pts ptr → pg_tables (pg s') !! ptr = pg_tables (pg s) !! ptr;
}.

Lemma since_refl s a pds pts : since s a pds pts s a pds pts.
Proof. split; try done. by destruct s. Qed.

Lemma since_owns s a pds pts s' a' pds' pts' ptr :
  since s a pds pts s' a' pds' pts' → kernel_owns s' a' pds' pts' ptr → kernel_owns s a pds pts ptr.
Proof. intros [_ _ _ Ed Ep _] [->|(m & Hm & ->)]; [left; by rewrite Ed|right; eauto]. Qed.

Lemma since_trans s1 a1 pds1 pts1 s2 a2 pds2 pts2 s3 a3 pds3 pts3 :
  since s1 a1 pds1 pts1 s2 a2 pds2 pts2 → since s2 a2 pds2 pts2 s3 a3 pds3 pts3 → since s1 a1 pds1 pts1 s3 a3 pds3 pts3.
Proof.
  intros H12 [E2 R2 S2 D2 P2 T2]. pose proof H12 as [E1 R1 S1 D1 P1 T1]. split.
  - rewrite E2, E1. done.
  - by rewrite R2.
  - intros P HP. by rewrite S2, S1.
  - by rewrite D2.
  - auto.
  - intros ptr Hp. rewrite T2; [by apply T1|]. intros Ho. by apply Hp, (since_owns _ _ _ _ _ _ _ _ _ H12).
Qed.

(** ** Taking a page from the pool *)

(** [m], the first page of the pool, becomes a page of entries: the page is cleared and
    the entry for it is stored in the table of its parent at [ptr]. *)
Definition grown (g : PagingState) (a' : AddressSpace) (ptr : Z) (t' : list Z)
    (m : MappingEntry) (rest : list MappingEntry) : PagingState :=
  {| pg_spaces := <[K := a']> (pg_spaces g); pg_free_nodes := pg_free_nodes g;
     pg_tables := <[mapping_ptr m := replicate 512 0]> (<[ptr := t']> (pg_tables g));
     pg_page_pool := {| pp_count := pp_count (pg_page_pool g) - 1; pp_head := rest |};
     pg_pml4 := pg_pml4 g; pg_execute_disable := pg_execute_disable g;
     pg_invalidated := pg_invalidated g |}.

Lemma child_entry_new m e :
  0 < me_phys_addr m < 2 ^ 38 →
  child_entry (set_write true (set_present true (set_phys_addr (me_phys_addr m) e))) (Some m).
Proof.
  intros Hm. cbn [child_entry]. entry_simpl. split; [done|]. apply wrap_small. lia.
Qed.

Lemma spare_pool s a pds pts :
  kspace s a pds pts → 0 < spare s → ∃ m rest, pool s = m :: rest.
Proof.
  intros Hk Hsp. pose proof (ks_pool _ _ _ _ Hk). unfold spare, PAGE_POOL_THRESHOLD in Hsp.
  destruct (pool s) as [|m rest]; [cbn in *; lia|]. eauto.
Qed.

Section taking.
Context {s : kmem} {a : AddressSpace} {pds : gmap Z MappingEntry} {pts : gmap (Z * Z) MappingEntry}.
Context (Hk : kspace s a pds pts) {m : MappingEntry} {rest : list MappingEntry} (Hm : pool s = m :: rest).
Context {a' : AddressSpace} {ptr : Z} {t' : list Z} (Hptr : owns a pds pts ptr) (Ha' : as_pdp a' = as_pdp a).
Context {pds' : gmap Z MappingEntry} {pts' : gmap (Z * Z) MappingEntry}.
Context (Hin : ∀ x, in_tree pds' pts' x → x = m ∨ in_tree pds pts x).
Let s' := set_paging (grown (pg s) a' ptr t' m rest) s.

Lemma pool_fresh : fresh a pds pts m.
Proof using Hk Hm. clear s'. apply (ks_fresh _ _ _ _ Hk). rewrite Hm. apply list_elem_of_here. Qed.

Lemma parent_other : ptr ≠ mapping_ptr m.
Proof using Hk Hm Hptr.
  clear s'. destruct pool_fresh as [_ _ Hp Hn]. destruct Hptr as [->|(m' & Hm' & ->)]; [done|]. by apply Hn.
Qed.

Lemma taken_tables ptr' : ptr' ≠ mapping_ptr m → ptr' ≠ ptr → pg_tables (pg s') !! ptr' = pg_tables (pg s) !! ptr'.
Proof using Type. intros H1 H2. cbn. by rewrite !lookup_insert_ne by done. Qed.

Lemma kspace_taken : tree (pg s') a' pds' pts' → kspace s' a' pds' pts'.
Proof using Hk Hm Hin Ha'.
  destruct Hk as [[Hsp Ht] Hf [Hn1 Hn2] Hp Hc]. rewrite Hm in *. intros Htree. cbn [length] in *.
  unfold phys_of in *. rewrite fmap_cons, NoDup_cons in Hn1, Hn2. split.
  - split; [cbn; by rewrite lookup_insert_eq|done].
  - intros x Hx. change (x ∈ rest) in Hx. destruct (Hf x) as [F1 F2 F3 F4]; [by right|]. split; [done|done|by rewrite Ha'|].
    intros y [->|Hy]%Hin; [|by apply F4]. split; intros E.
    + apply Hn2. rewrite E. by apply list_elem_of_fmap_2.
    + apply Hn1. rewrite E. by apply list_elem_of_fmap_2.
  - tauto.
  - cbn. lia.
  - cbn. lia.
Qed.

Lemma since_taken : since s a pds pts s' a' pds' pts'.
Proof using Hm Hin Hptr Ha'.
  split; try done.
  - intros P HP. cbn. by rewrite lookup_insert_ne.
  - intros x [Hx|Hx%Hin]; [left; rewrite Hm; by right|]. destruct Hx as [->|Hx]; [left; rewrite Hm; by left|by right].
  - intros p Hp. apply taken_tables; intros ->; apply Hp; [|by apply owns_kernel].
    right. exists m. split; [left; rewrite Hm; by left|done].
Qed.
End taking.

Section operations.
Context `{!MemoryEntries}.
Context (kmap_allocation : list PageFrameAllocation → Z → KM Z).
Context (kmap_phys_range : Z → Z → Z → KM Z).

Lemma wp_refill_enough s (Q : unit → kmem → Prop) :
  0 < spare s → Q tt s → wp (refill_page_pool kmap_allocation) Q s.
Proof.
  intros Hsp HQ. unfold refill_page_pool, get_paging. do 2 wp_step. unfold spare in Hsp.
  replace (_ <=? _) with false by lia. by wp_step.
Qed.

(** A missing page of entries is taken from the pool; the state afterwards is [grown]. *)
Lemma wp_alloc_entries s a pds pts ptr t i e level maps m rest (Q : Z → kmem → Prop) :
  kspace s a pds pts → 0 < spare s → table (pg s) ptr t → lookupZ t i = Some e → present e = false →
  pool s = m :: rest → lookupZ (as_entry_maps a) level = Some maps →
  Q (mapping_ptr m) (set_paging
    (grown (pg s) (set_entry_maps (insertZ level (m :: maps) (as_entry_maps a)) a) ptr
       (insertZ i (set_write true (set_present true (set_phys_addr (me_phys_addr m) e))) t) m rest) s) →
  wp (get_or_alloc_page_entries kmap_allocation kmap_phys_range K ptr i level) Q s.
Proof.
  intros Hk Hsp Htab He Hpr Hhead Hmaps HQ. unfold pool in Hhead. unfold get_or_alloc_page_entries.
  wp_step. eapply wp_get_entry; [done..|]. rewrite Hpr. rewrite Z.eqb_refl.
  wp_step. apply wp_refill_enough; [done|].
  unfold take_pool_page, get_paging. do 3 wp_step. rewrite Hhead. unfold modify_paging. do 3 wp_step.
  unfold push_mapping. do 2 wp_step. apply (wp_get_space _ a); [apply (ks_pspace _ _ _ _ Hk)|].
  wp_step. apply (wp_of_option maps); [done|]. apply wp_set_space.
  cbn [km_paging set_paging with_page_pool with_spaces pg_spaces].
  set (g1 := with_spaces _ _). assert (table g1 ptr t) as Htab1 by done.
  wp_step. eapply wp_get_entry; [done..|]. wp_step. eapply wp_set_entry; [done|].
  unfold clear_page, modify_paging. do 3 wp_step.
  replace (set_paging _ _) with (set_paging
    (grown (pg s) (set_entry_maps (insertZ level (m :: maps) (as_entry_maps a)) a) ptr
       (insertZ i (set_write true (set_present true (set_phys_addr (me_phys_addr m) e))) t) m rest) s); [done|].
  unfold set_paging, grown, with_tables, with_entry, g1, with_spaces, with_page_pool. cbn.
  rewrite (wrap_small 64); [done|]. pose proof (ks_count _ _ _ _ Hk). unfold spare, PAGE_POOL_THRESHOLD in Hsp. lia.
Qed.

(** From a state on, while the pool lasts. *)
Definition kinv s0 a0 pds0 pts0 (n : Z) s a pds pts : Prop :=
  kspace s a pds pts ∧ n ≤ spare s ∧ since s0 a0 pds0 pts0 s a pds pts.


Lemma kernel_grow_pd s a pds pts i (Q : Z → kmem → Prop) :
  kspace s a pds pts → 0 < spare s → 0 ≤ i < 512 → pds !! i = None →
  (∀ s' a' m, kspace s' a' (<[i := m]> pds) pts → spare s' = spare s - 1 → extends s a pds pts s' a' (<[i := m]> pds) pts →
     since s a pds pts s' a' (<[i := m]> pds) pts → Q (mapping_ptr m) s') →
  wp (get_or_alloc_page_entries kmap_allocation kmap_phys_range K (as_pdp a) i PD) Q s.
Proof.
  intros Hk Hsp Hi Ei HQ. destruct (ks_pspace _ _ _ _ Hk) as [_ Ht].
  destruct (tree_pdp _ _ _ _ Ht) as (t & Htab & Hch). destruct (Hch _ Hi) as (e & He & Hce). rewrite Ei in Hce.
  destruct (spare_pool _ _ _ _ Hk Hsp) as (m & rest & Hh). pose proof (pool_fresh Hk Hh) as Hm.
  destruct (pspace_maps _ _ _ _ (ks_pspace _ _ _ _ Hk)) as (mpt & mpd & Ea).
  eapply (wp_alloc_entries s a pds pts _ _ _ _ _ mpd); try done; [apply Hce|by rewrite Ea|].
  rewrite Ea. change (insertZ PD (m :: mpd) [mpt; mpd]) with [mpt; m :: mpd].
  set (a' := set_entry_maps _ a). set (e' := set_write _ _).
  assert (owns a pds pts (as_pdp a)) as Hown by by left. pose proof (parent_other Hk Hh Hown) as Hne.
  assert (∀ x, in_tree (<[i := m]> pds) pts x → x = m ∨ in_tree pds pts x) as Hin.
  { intros x [[k [[_ ->]|[_ Hk']]%lookup_insert_Some]|Hx]; [by left|right; left; eauto|right; by right]. }
  eapply (HQ _ a' m); [eapply kspace_taken; try done| |apply extends_intro; try done|eapply since_taken; done].
  - eapply (tree_grow_pd (a' := a') Ht Ea eq_refl Hm Hi Htab (child_entry_new m e (fr_phys _ _ _ _ Hm))); try done.
    + cbn. by rewrite lookup_insert_eq.
    + cbn. rewrite lookup_insert_ne by done. by rewrite lookup_insert_eq.
    + intros p [->|(x & Hx & ->)] Hp; [done|]. apply taken_tables; [by apply (fr_new _ _ _ _ Hm)|done].
  - unfold spare. cbn. lia.
  - intros v. apply translate_keep. intros ij x Hx. apply taken_tables; [apply (fr_new _ _ _ _ Hm); right; eauto|].
    apply (tree_not_pdp Ht). right. eauto.
  - by apply insert_subseteq.
  - by exists [].
Qed.

Lemma kernel_grow_pt s a pds pts i j mp (Q : Z → kmem → Prop) :
  kspace s a pds pts → 0 < spare s → 0 ≤ j < 512 → pds !! i = Some mp → pts !! (i, j) = None →
  (∀ s' a' m, kspace s' a' pds (<[(i, j) := m]> pts) → spare s' = spare s - 1 → extends s a pds pts s' a' pds (<[(i, j) := m]> pts) →
     since s a pds pts s' a' pds (<[(i, j) := m]> pts) → Q (mapping_ptr m) s') →
  wp (get_or_alloc_page_entries kmap_allocation kmap_phys_range K (mapping_ptr mp) j PT) Q s.
Proof.
  intros Hk Hsp Hj Hmp Ei HQ. destruct (ks_pspace _ _ _ _ Hk) as [_ Ht].
  destruct (tree_pd _ _ _ _ Ht _ _ Hmp) as (t & Htab & Hch). destruct (Hch _ Hj) as (e & He & Hce). rewrite Ei in Hce.
  destruct (spare_pool _ _ _ _ Hk Hsp) as (m & rest & Hh). pose proof (pool_fresh Hk Hh) as Hm.
  destruct (pspace_maps _ _ _ _ (ks_pspace _ _ _ _ Hk)) as (mpt & mpd & Ea).
  eapply (wp_alloc_entries s a pds pts _ _ _ _ _ mpt); try done; [apply Hce|by rewrite Ea|].
  rewrite Ea. change (insertZ PT (m :: mpt) [mpt; mpd]) with [m :: mpt; mpd].
  set (a' := set_entry_maps _ a). set (e' := set_write _ _).
  assert (in_tree pds pts mp) as Hmpt by (left; eauto).
  assert (owns a pds pts (mapping_ptr mp)) as Hown by (right; eauto). pose proof (parent_other Hk Hh Hown) as Hne.
  assert (∀ x, in_tree pds (<[(i, j) := m]> pts) x → x = m ∨ in_tree pds pts x) as Hin.
  { intros x [Hx|[k [[_ ->]|[_ Hk']]%lookup_insert_Some]]; [right; by left|by left|right; right; eauto]. }
  eapply (HQ _ a' m); [eapply kspace_taken; try done| |apply extends_intro; try done|eapply since_taken; done].
  - eapply (tree_grow_pt (a' := a') Ht Ea eq_refl Hm Hj Htab (child_entry_new m e (fr_phys _ _ _ _ Hm))); try done.
    + cbn. by rewrite lookup_insert_eq.
    + cbn. rewrite lookup_insert_ne by done. by rewrite lookup_insert_eq.
    + intros p [->|(x & Hx & ->)] Hp; apply taken_tables; try done; [apply not_eq_sym, (fr_pdp _ _ _ _ Hm)|by apply (fr_new _ _ _ _ Hm)].
  - unfold spare. cbn. lia.
  - intros v. rewrite (translate_new_table (pg s) _ pts i j m v Ei); [done|cbn; by rewrite lookup_insert_eq|].
    intros ij x Hx. apply taken_tables; [apply (fr_new _ _ _ _ Hm); right; eauto|].
    by apply (proj2 (tree_levels Ht ij _ Hx) i).
  - by apply insert_subseteq.
  - by exists [].
Qed.

#[export] Instance kernel_grows s0 a0 pds0 pts0 : Grows K kmap_allocation kmap_phys_range (kinv s0 a0 pds0 pts0).
Proof.
  split.
  - by intros n s a pds pts [Hk _]; apply Hk.
  - intros n n' s a pds pts (? & ? & ?) Hn. split_and!; [done|lia|done].
  - intros n s a pds pts v loc t e l (Hk & Hn & Hs) Hloc Ht.
    destruct (leaf_update (ks_pspace _ _ _ _ Hk) Hloc t e l Ht) as [Hp _]. split_and!; [|done|].
    + destruct Hk as [_ ? ? ? ?]. by split.
    + eapply since_trans; [exact Hs|]. split; try done. intros ptr Hf. cbn. apply lookup_insert_ne. intros <-.
      destruct Hloc as (mp & mt & _ & Hmt & ->). apply Hf, owns_kernel. right. exists mt. split; [right; eauto|done].
  - intros n s a pds pts c (Hk & Hn & Hs) Hc. split_and!; [|done|].
    + destruct Hk as [[Hsp Ht] Hf ? ? ?]. split; [split; [cbn; by rewrite lookup_insert_eq|by apply (tree_same (pg s) _ a)]| |done|done|done].
      intros m Hm. by destruct (Hf m Hm).
    + eapply since_trans; [exact Hs|]. split; try done. intros P HP. cbn. by rewrite lookup_insert_ne.
  - intros n s a pds pts i (Hk & Hn & Hs) Hn0 Hi Ei. apply (kernel_grow_pd s a pds pts); [done|lia|done|done|].
    intros s' a' m Hk' Hsp Hx Hs'. eexists a', _, m. split; [split_and!; [done|lia|by eapply since_trans]|]. by rewrite lookup_insert_eq.
  - intros n s a pds pts i j mp (Hk & Hn & Hs) Hn0 Hj Hmp Ei. apply (kernel_grow_pt s a pds pts i j mp); [done|lia|done..|].
    intros s' a' m Hk' Hsp Hx Hs'. eexists a', _, m. split; [split_and!; [done|lia|by eapply since_trans]|]. by rewrite lookup_insert_eq.
Qed.

Lemma kinv_start n s a pds pts : kspace s a pds pts → n ≤ spare s → kinv s a pds pts n s a pds pts.
Proof. intros Hk Hn. split_and!; [done|done|apply since_refl]. Qed.
End operations.
End PagingKernel.
