(* ===== verification/PagingSpec.v ===== *)
(** What paging promises: addresses translate to what they were mapped to, in the kernel's
    address space when it maps and in any address space when it unmaps or changes flags. *)
From S2P Require Import Prelude Util MemState PageEntry AddressSpace FrameAllocator FrameInvariant FrameProofs FrameAlloc FrameContiguous Paging PagingInvariant PagingProofs PagingGrowth PagingKernel.

Module PagingSpec.
Import Util Mem PageEntry AddressSpace FrameAllocator FrameInvariant FrameProofs FrameAlloc FrameContiguous Paging PagingInvariant PagingProofs PagingGrowth PagingKernel.
Implicit Types (s : kmem) (a : AddressSpace) (pds : gmap Z MappingEntry) (pts : gmap (Z * Z) MappingEntry).

(** ** Changes that do not touch the tables *)

Lemma pspace_same P s a a' pds pts s' :
  pspace P s a pds pts → as_pdp a' = as_pdp a → as_entry_maps a' = as_entry_maps a →
  pg_spaces (pg s') !! P = Some a' → pg_tables (pg s') = pg_tables (pg s) → pspace P s' a' pds pts.
Proof.
  intros [H1 H2] Ep Em Es Et. split; [done|]. apply (tree_same (pg s) _ a); [done..|]. intros ptr _. by rewrite Et.
Qed.

Lemma translate_tables g g' pts v : pg_tables g' = pg_tables g → translate g' pts v = translate g pts v.
Proof. intros E. unfold translate, leaf. by rewrite E. Qed.

Lemma translate_has_table g pts v p : translate g pts v = Some p → has_table pts v.
Proof. unfold translate, leaf, has_table. by destruct (pts !! _). Qed.

(** An address inside a range that starts on a page. *)
Lemma nth_page_offset v off : (4096 | v) → nth_page v (off / 4096) (v + off) ∧ (v + off) mod 4096 = off mod 4096.
Proof.
  intros [k ->]. split.
  - unfold nth_page, page_of. f_equal.
    rewrite (Z.mul_comm 4096), <- Z.mul_add_distr_r, Z.div_mul by lia.
    rewrite Z.add_comm, Z.div_add by lia. lia.
  - by rewrite Z.add_comm, Z.mod_add by lia.
Qed.

Section spec.
Context `{!MemoryEntries, !MemoryEntriesSpec}.
Context (kmap_allocation : list PageFrameAllocation → Z → KM Z).
Context (kmap_phys_range : Z → Z → Z → KM Z).
Local Abbreviation map_phys_range := (map_phys_range kmap_allocation kmap_phys_range).
Local Abbreviation unmap_range := (unmap_range kmap_allocation kmap_phys_range).
Local Abbreviation range_set_flags := (range_set_flags kmap_allocation kmap_phys_range).

(** The kernel can map [n] pages at its bump pointer. *)
Record can_map s a (n : Z) : Prop := {
  cm_bump : can_bump a n;
  cm_pages : 0 < n ≤ 2 ^ 26;
  cm_spare : entries_for (bump_addr a) n ≤ spare s;
}.

Lemma wp_kmap s a pds pts phys n flags (Q : Z → kmem → Prop) :
  kspace s a pds pts → can_map s a n → 0 ≤ phys → (4096 | phys) → phys + 4096 * n < 2 ^ 52 →
  (∀ s' a' pds' pts', kspace s' a' pds' pts' → since s a pds pts s' a' pds' pts' →
     spare s - entries_for (bump_addr a) n ≤ spare s' →
     bump_mapped (P := K) s a pds pts (page_list phys (Z.to_nat n)) s' a' pds' pts' → Q (bump_addr a) s') →
  wp (map_phys_range K phys n flags) Q s.
Proof using Type.
  intros Hk [Hb Hn Hsp] Hp Hpd Hpm HQ.
  apply (wp_map_phys_range (inv := kinv s a pds pts) (spare s) s a pds pts); try done; [by apply kinv_start|lia|].
  intros s' a' pds' pts' n' (Hk' & Hn' & Hs') Hm ->. by apply (HQ s' a' pds' pts').
Qed.

(** C3: a physical range mapped into the kernel's address space is there: the address
    returned plus any offset into the range translates to the physical address plus that
    offset, every address outside the range translates as before, and [invlpg] was
    executed for every page of the range. *)
Theorem map_phys_range_translates s a pds pts phys n flags v' :
  kspace s a pds pts → can_map s a n → 0 ≤ phys → (4096 | phys) → phys + 4096 * n < 2 ^ 52 →
  wp (v ← map_phys_range K phys n flags; r ← virt_to_phys_addr K v'; mret (v, r)) (λ '(v, r) s',
    (v ≤ v' < v + 4096 * n → r = Some (phys + (v' - v))) ∧
    ((∀ i, 0 ≤ i < n → ¬ nth_page v i v') → r = translate (pg s) pts v') ∧
    ∀ i, 0 ≤ i < n → v + 4096 * i ∈ pg_invalidated (pg s')) s.
Proof.
  intros Hk Hcm Hp Hpd Hpm. wp_step. eapply wp_kmap; [done..|]. intros s' a' pds' pts' Hk' _ _ [[Hin Hout] _ _ _ (l & El & Hl)].
  pose proof (cm_bump _ _ _ Hcm) as Hb. pose proof (cm_pages _ _ _ Hcm) as Hn. set (v := bump_addr a) in *.
  destruct (bump_addr_range a n Hb ltac:(lia)) as (Hv0 & Hv & Hvm). fold v in Hv0, Hv, Hvm. rewrite length_page_list, Z2Nat.id in * by lia.
  wp_step. eapply wp_virt_to_phys; [apply Hk'|]. wp_step. split_and!.
  - intros Hr. set (off := v' - v). replace v' with (v + off) by lia. destruct (nth_page_offset v off Hv) as [Hpg Hmod].
    pose proof (Z.div_mod off 4096 ltac:(lia)). pose proof (Z.mod_pos_bound off 4096 ltac:(lia)).
    assert (0 ≤ off / 4096 < n) as Hi by (split; [apply Z.div_pos; lia|apply Z.div_lt_upper_bound; lia]).
    rewrite (Hin (Z.to_nat (off / 4096)) (phys + 4096 * (off / 4096))).
    + f_equal. rewrite Hmod. lia.
    + apply page_list_lookup. rewrite Z2Nat.id by lia. split; [lia|done].
    + by rewrite Z2Nat.id by lia.
  - exact (Hout v').
  - intros i Hi. rewrite El. apply elem_of_app. left. apply Hl, page_list_elem. exists i. split; [lia|done].
Qed.

Lemma wp_unmap_range P s a pds pts v n (Q : unit → kmem → Prop) :
  pspace P s a pds pts → 0 < stock s → tables_for pts v n → 0 < n ≤ 2 ^ 27 → 0 ≤ v → v + 4096 * n < 2 ^ 64 →
  (∀ s' e, pspace P s' (set_free_list e a) pds pts → range_unmapped (pg s) pts v n (pg s') →
     pg_free_nodes (pg s') !! e = Some {| fle_next := wrap 48 (as_free_list a);
       fle_addr := wrap 36 (v / 4096); fle_pages := n |} →
     pg_invalidated (pg s') = reverse (page_list v (Z.to_nat n)) ++ pg_invalidated (pg s) → Q tt s') →
  wp (unmap_range P v n) Q s.
Proof.
  intros Hk Hst Htab Hn Hv Hvm HQ. unfold Paging.unmap_range, add_range_to_free_list, push_free_range.
  do 2 wp_step. destruct (get_memory_entry_spec s Hst) as (e & p & He & _).
  exists e, (set_pool p s). split; [exact He|].
  wp_step. apply (wp_get_space _ a); [apply Hk|]. unfold set_node, modify_paging. do 2 wp_step.
  apply wp_set_space. cbn [km_paging set_paging set_pool with_free_nodes pg_spaces].
  set (s1 := set_paging _ _).
  assert (pspace P s1 (set_free_list e a) pds pts) as Hk1.
  { apply (pspace_same P s a); try done. cbn. by rewrite lookup_insert_eq. }
  wp_step. eapply wp_find_location; [done|specialize (Htab 0 ltac:(lia)); by rewrite Z.mul_0_r, Z.add_0_r in Htab|].
  intros loc Hloc. apply (wp_unmap_pages _ _ (Z.to_nat n) s1 (set_free_list e a) pds pts v);
    rewrite ?Z2Nat.id by lia; [done|done|apply follows_refl|done|lia|lia|lia|].
  intros s2 Hk2 [Hin Hout] E2 F2 I2. apply (HQ s2 e); [done| | |].
  - split; [done|]. intros v' Hv'. by rewrite Hout.
  - rewrite F2. cbn. rewrite lookup_insert_eq, Z.shiftr_div_pow2 by lia. rewrite (wrap_small 44) by lia. done.
  - by rewrite I2.
Qed.

(** After [unmap_range] no address of the range translates, every other address
    translates as before, the pages were invalidated and the addresses are first in the
    free list. *)
Theorem unmap_range_spec P s a pds pts v n v' :
  pspace P s a pds pts → 0 < stock s → tables_for pts v n → 0 < n ≤ 2 ^ 27 → 0 ≤ v → v + 4096 * n < 2 ^ 64 →
  wp (_ ← unmap_range P v n; virt_to_phys_addr P v') (λ r s',
    ((∃ i, 0 ≤ i < n ∧ nth_page v i v') → r = None) ∧
    ((∀ i, 0 ≤ i < n → ¬ nth_page v i v') → r = translate (pg s) pts v') ∧
    (∀ i, 0 ≤ i < n → v + 4096 * i ∈ pg_invalidated (pg s')) ∧
    ∃ e a', pg_spaces (pg s') !! P = Some a' ∧ as_free_list a' = e ∧
      pg_free_nodes (pg s') !! e = Some {| fle_next := wrap 48 (as_free_list a);
        fle_addr := wrap 36 (v / 4096); fle_pages := n |}) s.
Proof.
  intros Hk Hst Htab Hn Hv Hvm. wp_step. eapply wp_unmap_range; [done..|].
  intros s1 e Hk1 [Hin Hout] Hnode Hinv. eapply wp_virt_to_phys; [done|]. split_and!.
  - intros (i & Hi & Hp). by apply (Hin i).
  - apply Hout.
  - intros i Hi. rewrite Hinv. apply elem_of_app. left. rewrite elem_of_reverse. unfold page_list.
    apply list_elem_of_fmap. exists (Z.to_nat i). rewrite elem_of_seq. split; [f_equal; lia|lia].
  - exists e, (set_free_list e a). split_and!; [apply Hk1|done|done].
Qed.

(** C23: mapping a range where nothing was mapped and unmapping it again leaves every
    translation of the kernel's address space as it was. *)
Theorem map_unmap_roundtrip s a pds pts phys n flags v' :
  kspace s a pds pts → can_map s a n → 0 ≤ phys → (4096 | phys) → phys + 4096 * n < 2 ^ 52 →
  0 < stock s →
  (∀ i v', 0 ≤ i < n → nth_page (bump_addr a) i v' → translate (pg s) pts v' = None) →
  wp (v ← map_phys_range K phys n flags; _ ← unmap_range K v n; virt_to_phys_addr K v') (λ r _,
    r = translate (pg s) pts v') s.
Proof.
  intros Hk Hcm Hp Hpd Hpm Hst Hnone. wp_step. eapply wp_kmap; [done..|].
  intros s1 a1 pds1 pts1 Hk1 Hs1 _ [[Hin Hout] _ _ _ _]. pose proof (cm_bump _ _ _ Hcm) as Hb. pose proof (cm_pages _ _ _ Hcm) as Hn.
  set (v := bump_addr a) in *. destruct (bump_addr_range a n Hb ltac:(lia)) as (Hv0 & Hv & Hvm). fold v in Hv0, Hv, Hvm.
  rewrite length_page_list, Z2Nat.id in * by lia.
  assert (∀ i v', 0 ≤ i < n → nth_page v i v' → translate (pg s1) pts1 v' = Some (phys + 4096 * i + v' mod 4096)) as Hin'.
  { intros i w Hi Hw. apply (Hin (Z.to_nat i)); [apply page_list_lookup; rewrite Z2Nat.id by lia; split; [lia|done]|by rewrite Z2Nat.id by lia]. }
  wp_step. eapply wp_unmap_range; [apply Hk1| | |lia|lia|lia|].
  { by rewrite (si_state _ _ _ _ _ _ _ _ Hs1), stock_paging. }
  { intros i Hi. eapply translate_has_table. apply (Hin' i); [done|apply nth_page_self]. }
  intros s2 e Hk2 [Hin2 Hout2] _ _. eapply wp_virt_to_phys; [exact Hk2|].
  destruct (decide (Exists (λ i, nth_page v (Z.of_nat i) v') (seq 0 (Z.to_nat n)))) as [Hex|Hno].
  - apply Exists_exists in Hex as (i & Hi & Hpg). apply elem_of_seq in Hi.
    rewrite (Hin2 (Z.of_nat i)) by (done || lia). symmetry. apply (Hnone (Z.of_nat i)); [lia|done].
  - assert (∀ i, 0 ≤ i < n → ¬ nth_page v i v') as Hno'.
    { intros i Hi Hpg. apply Hno, Exists_exists. exists (Z.to_nat i). rewrite elem_of_seq.
      split; [lia|]. by rewrite Z2Nat.id by lia. }
    rewrite Hout2 by done. exact (Hout v' Hno').
Qed.

(** C31: changing the flags of a range of mapped pages changes the flags of exactly those
    pages, and where they are mapped to stays. The translations a processor may have
    cached are not invalidated. *)
Theorem range_set_flags_spec P s a pds pts v n flags :
  pspace P s a pds pts → all_present (pg s) pts v n → 0 < n → 0 ≤ v → v + 4096 * n < 2 ^ 64 →
  wp (range_set_flags P v n flags) (λ b s',
    b = true ∧ pspace P s' a pds pts ∧
    range_flagged (pg s) pts v (Z.to_nat n) flags (pg s') ∧
    (∀ v', translate (pg s') pts v' = translate (pg s) pts v') ∧
    pg_invalidated (pg s') = pg_invalidated (pg s)) s.
Proof.
  intros Hk Hall Hn Hv Hvm. unfold Paging.range_set_flags.
  destruct (Hall 0 ltac:(lia)) as (e & He & _). rewrite Z.mul_0_r, Z.add_0_r in He.
  assert (has_table pts v) as Hv0.
  { unfold leaf in He. unfold has_table. by destruct (pts !! _). }
  wp_step. eapply wp_find_location; [done..|]. intros loc Hloc.
  apply (wp_set_flags_pages _ _ (Z.to_nat n) s a pds pts v); rewrite ?Z2Nat.id by lia;
    [done|done|apply follows_refl|done|lia|lia|].
  intros s' Hk' Hfl E I. split_and!; [done..| |done].
  intros v'. rewrite !translate_of_leaf, Hfl. destruct (bool_decide _); [|done].
  destruct (leaf (pg s) pts v') as [e1|]; [|done]. cbn.
  by destruct (set_flags_present (pg_execute_disable (pg s)) flags e1) as [-> ->].
Qed.

(** *** Frames given back by unmapping *)

Context {lim : Z}.

(** One page of [unmap_and_collect]: its entry is read, its frame collected, the entry
    cleared. *)
Lemma wp_collect_page P n s a pds pts u v loc run e (Q : FrameRun → kmem → Prop) :
  pspace P s a pds pts → located pds pts u loc → follows u v → leaf (pg s) pts v = Some e →
  (∀ loc', located pds pts v loc' →
    wp (collect_frame run (u64 (Z.shiftl (phys_addr e) 12))) (λ run' s1,
      pg s1 = pg s ∧
      ∀ s2, pspace P s2 a pds pts → km_frames s2 = km_frames s1 → stock s2 = stock s1 → room s2 = room s1 →
        (∀ v', leaf (pg s2) pts v' = if decide (page_of v' = page_of v) then Some 0 else leaf (pg s) pts v') →
        wp (unmap_and_collect kmap_allocation kmap_phys_range P (u64 (v + PAGE_SIZE)) n loc' run') Q s2) s) →
  wp (unmap_and_collect kmap_allocation kmap_phys_range P v (S n) loc run) Q s.
Proof.
  intros Hk Hloc Hf Hl HQ. cbn [unmap_and_collect].
  assert (has_table pts v) as Hv0.
  { unfold leaf in Hl. unfold has_table. by destruct (pts !! _). }
  wp_step. eapply (wp_traverse_found _ _ s a pds pts u); [done..|]. intros loc1 Hloc1.
  destruct (located_table Hk Hloc1) as (t & e' & Ht & He' & Hl'). assert (e' = e) as -> by congruence.
  wp_step. eapply wp_get_entry; [done..|]. wp_step. eapply wp_mono; [by apply HQ|].
  intros run' s1 [Epg Hgo].
  assert (pspace P s1 a pds pts) as Hk1.
  { destruct Hk as [H1 H2 H3 H4]. by split; rewrite Epg. }
  assert (table (pg s1) (pt loc1) t) as Ht1 by by rewrite Epg.
  wp_step. eapply wp_set_entry; [done|]. unfold invlpg, modify_paging. do 2 wp_step.
  destruct (leaf_update Hk1 Hloc1 t 0 (v :: pg_invalidated (pg s1)) Ht1) as [Hk2 Hleaf].
  apply Hgo; [exact Hk2|done|cbn; by rewrite !stock_paging|cbn; by rewrite !room_paging|].
  intros v'. rewrite <- Epg. apply Hleaf.
Qed.

(** C38: when two pages that are unmapped together lie in frames that do not follow one
    another, [unmap_and_free_frames] gives the first frame back and loses the second:
    its page is unmapped but the frame is not free afterwards. *)
Theorem unmap_loses_frame P s a pds pts v e1 e2 A B :
  pspace P s a pds pts → allocator_wf lim (fr s) →
  leaf (pg s) pts v = Some e1 → leaf (pg s) pts (v + 4096) = Some e2 →
  phys_addr e1 * 4096 = A → phys_addr e2 * 4096 = B → B ≠ A + 4096 →
  0 ≤ v → v + 8192 < 2 ^ 64 →
  block_ok lim 0 A → apart_from (fr s) 0 A → block_ok lim 0 B → apart_from (fr s) 0 B → separate 0 A 0 B →
  2 ≤ stock s → 7 ≤ room s →
  wp (unmap_and_free_frames kmap_allocation kmap_phys_range P v 2) (λ _ s',
    translate (pg s') pts v = None ∧ translate (pg s') pts (v + 4096) = None ∧
    (∀ x, in_block 0 A x → free_byte (fr s') x) ∧
    (∀ x, in_block 0 B x → ¬ free_byte (fr s') x)) s.
Proof.
  intros Hk Hwf Hl1 Hl2 HA HB Hne Hv Hvm HokA HapA HokB HapB Hsep Hst Hroom.
  pose proof (get_bits_range 12 40 e1 ltac:(lia)) as Hb1. pose proof (get_bits_range 12 40 e2 ltac:(lia)) as Hb2.
  fold (phys_addr e1) in Hb1. fold (phys_addr e2) in Hb2.
  unfold unmap_and_free_frames, add_range_to_free_list, push_free_range.
  assert (0 < stock s) as Hst0 by lia.
  do 2 wp_step. destruct (get_memory_entry_spec s Hst0) as (e & p & He & Hst' & Hroom').
  exists e, (set_pool p s). split; [exact He|].
  wp_step. apply (wp_get_space _ a); [apply Hk|]. unfold set_node, modify_paging. do 2 wp_step.
  apply wp_set_space. cbn [km_paging set_paging set_pool with_free_nodes pg_spaces].
  set (s1 := set_paging _ _). set (a1 := set_free_list e a) in *.
  assert (pspace P s1 a1 pds pts) as Hk1.
  { apply (pspace_same P s a); try done. cbn. by rewrite lookup_insert_eq. }
  assert (stock s1 = stock s - 1 ∧ room s1 = room s + 1) as [Hst1 Hroom1].
  { subst s1. by rewrite !stock_paging, !room_paging. }
  assert (leaf (pg s1) pts v = Some e1) as Hl1' by done.
  assert (leaf (pg s1) pts (v + 4096) = Some e2) as Hl2' by done.
  assert (has_table pts v) as Hv0 by (unfold leaf in Hl1; unfold has_table; by destruct (pts !! _)).
  wp_step. eapply wp_find_location; [done..|]. intros loc Hloc.
  assert (page_of (v + 4096) ≠ page_of v) as Hpg.
  { intros E. pose proof (nth_page_inj v 1 0 (v + 4096)) as Hinj. unfold nth_page in Hinj.
    rewrite Z.mul_0_r, Z.add_0_r in Hinj. by specialize (Hinj eq_refl E ltac:(lia)). }
  wp_step. change (Z.to_nat 2) with 2%nat.
  eapply wp_collect_page; [done|done|apply follows_refl|done|]. intros loc1 Hloc1.
  unfold collect_frame at 1. cbn [run_pages]. rewrite Z.eqb_refl. wp_step. split; [done|].
  intros s2 Hk2 Hfr2 Hst2 Hroom2 Hleaf2. rewrite wrap_small by (unfold PAGE_SIZE; lia).
  assert (leaf (pg s2) pts (v + 4096) = Some e2) as Hl2'' by by rewrite Hleaf2, decide_False.
  eapply wp_collect_page; [done|done|apply follows_next|done|]. intros loc2 Hloc2.
  assert (∀ x, 0 ≤ x < 2 ^ 40 → u64 (Z.shiftl x 12) = x * 4096) as Hshift.
  { intros x Hx. rewrite Z.shiftl_mul_pow2 by lia. change (2 ^ 12) with 4096. apply wrap_small. lia. }
  rewrite !Hshift, HA, HB by done.
  assert (fr s2 = fr s) as Efr by by rewrite Hfr2.
  unfold collect_frame. cbn [run_pages run_curr run_start]. change (1 =? 0) with false. cbn iota.
  unfold get_frame_order_size.
  do 2 wp_step. wp_step; [done|]. apply (wp_order_size (lim := lim)); [rewrite Efr; apply Hwf|done|].
  unfold PAGE_SIZE. rewrite (wrap_small 64 (A + 4096)) by lia.
  replace (negb (A + 4096 =? B)) with true by lia. cbn [orb].
  wp_step. wp_step; [done|]. wp_step.
  apply (wp_free_contiguos (lim := lim)); [by rewrite Efr|done|exact HokA|rewrite Efr; exact HapA|lia|lia|].
  intros s3 k Hwf3 Hby3 _ Ht3. destruct Ht3 as (Hst3 & Hroom3 & [= _ Epg3]). wp_step. split; [done|].
  intros s4 Hk4 Hfr4 _ _ Hleaf4. cbn [unmap_and_collect]. wp_step. cbn [run_pages]. rewrite Z.eqb_refl. wp_step.
  change (min_order 1) with 0 in *. rewrite Hfr4, Efr in *. split_and!.
  - rewrite translate_of_leaf, Hleaf4. destruct (decide _); [done|]. by rewrite Hleaf2, decide_True.
  - by rewrite translate_of_leaf, Hleaf4, decide_True.
  - intros x Hx. apply Hby3. by left.
  - intros x Hx. rewrite Hby3. intros [Hx'|Hf].
    + by apply (proj2 (separate_of_bytes 0 A 0 B ltac:(lia) ltac:(lia)) Hsep x).
    + revert Hx Hf. by apply (apart_from_bytes (lim := lim)); [apply Hwf| |].
Qed.
End spec.

End PagingSpec.
