(* ===== verification/PagingUser.v ===== *)
(** The address space of a process: its tree grows with frames of the frame allocator that
    the kernel maps for itself, one page of entries at a time, and it is an instance of
    [Grows]. The kernel's address space, the frame allocator and the entry pool change
    underneath; [user_inv] says what they still provide and what has stayed as it was
    since a state [s0]. *)
From S2P Require Import Prelude Util MemState PageEntry AddressSpace FrameAllocator FrameInvariant FrameProofs FrameAlloc FrameContiguous Paging PagingInvariant PagingProofs PagingGrowth PagingKernel PagingSpec.

Module PagingUser.
Import Util Mem PageEntry AddressSpace FrameAllocator FrameInvariant FrameProofs FrameAlloc FrameContiguous Paging
  PagingInvariant PagingProofs PagingGrowth PagingKernel PagingSpec.
Implicit Types (s : kmem) (a : AddressSpace) (pds : gmap Z MappingEntry) (pts : gmap (Z * Z) MappingEntry).

(** ** Addresses of pages of entries *)

Lemma bump_addr_canonical a n : can_bump a n → 0 ≤ n → canonical (bump_addr a).
Proof.
  intros [_ Hi Hc Hal Hr _] Hn. unfold bump_addr, canonical. change PDP_MEM_RANGE with (2 ^ 39) in *.
  rewrite sign_ext_eq by lia. destruct (Z.ltb_spec (as_current_address a) (2 ^ 47)); lia.
Qed.

Lemma bump_addr_next a n : can_bump a n → 1 ≤ n →
  bump_addr (set_current_address (as_current_address a + 4096) a) = bump_addr a + 4096.
Proof.
  intros [_ Hi Hc Hal Hr _] Hn. unfold bump_addr. cbn [as_current_address set_current_address]. change PDP_MEM_RANGE with (2 ^ 39) in *.
  destruct Hal as [k Hk]. rewrite !sign_ext_eq by lia. destruct (Z.ltb_spec (as_current_address a) (2 ^ 47)).
  - replace (_ + 4096 <? 2 ^ 47) with true; [done|]. symmetry. apply Z.ltb_lt.
    assert (as_current_address a + 4096 ≠ 2 ^ 47); [|lia]. intros E. assert (as_pdp_index a < 256) by lia. lia.
  - replace (_ + 4096 <? 2 ^ 47) with false by lia. lia.
Qed.

Lemma mapping_ptr_page v e p : canonical v → (4096 | v) →
  mapping_ptr {| me_ptr := e; me_virt_addr := wrap 36 (Z.shiftr v 12); me_phys_addr := p |} = v.
Proof.
  intros Hv [k ->]. unfold mapping_ptr. cbn [me_virt_addr]. rewrite Z.shiftr_div_pow2, Z.shiftl_mul_pow2 by lia.
  change (2 ^ 12) with 4096. rewrite Z.div_mul by lia. rewrite <- (sign_ext_canonical _ Hv). f_equal.
  unfold wrap. change (2 ^ 48) with (2 ^ 36 * 4096). rewrite Z.mul_mod_distr_r by lia. rewrite Z.mod_small; [done|].
  pose proof (Z.mod_pos_bound k (2 ^ 36) ltac:(lia)). lia.
Qed.

(** Where the addresses of the PML4 entry of an address space start. *)
Definition slot_start a : Z := SIGN_EXT_ADDR (as_pdp_index a * PDP_MEM_RANGE).

Lemma bump_addr_slot a n : can_bump a n → 0 ≤ n →
  bump_addr a = slot_start a + (as_current_address a - as_pdp_index a * PDP_MEM_RANGE) ∧
  slot_start a ≤ bump_addr a < slot_start a + 2 ^ 39.
Proof.
  intros [_ Hi Hc Hal Hr _] Hn. unfold bump_addr, slot_start. change PDP_MEM_RANGE with (2 ^ 39) in *.
  rewrite !sign_ext_eq by lia. destruct (Z.ltb_spec (as_current_address a) (2 ^ 47)).
  - replace (_ <? _) with true by lia. lia.
  - replace (_ <? _) with false; [lia|]. symmetry. apply Z.ltb_ge. assert (256 ≤ as_pdp_index a) by lia. lia.
Qed.

(** Addresses of one PML4 entry below and above the start of a page are on other pages. *)
Lemma page_of_below x y z b : b ≤ x < y → y ≤ z < b + 2 ^ 39 → (2 ^ 39 | b) → (4096 | y) → page_of x ≠ page_of z.
Proof.
  intros Hx Hy [k ->] [q ->]. unfold page_of. intros E.
  pose proof (Z.div_mod x 4096 ltac:(lia)). pose proof (Z.mod_pos_bound x 4096 ltac:(lia)).
  pose proof (Z.div_mod z 4096 ltac:(lia)). pose proof (Z.mod_pos_bound z 4096 ltac:(lia)).
  assert (x / 4096 < q) by lia. assert (k * 2 ^ 27 ≤ x / 4096) by (apply Z.div_le_lower_bound; lia).
  assert (q ≤ z / 4096 < k * 2 ^ 27 + 2 ^ 27) by lia.
  pose proof (Z.div_mod (x / 4096) (2 ^ 27) ltac:(lia)). pose proof (Z.div_mod (z / 4096) (2 ^ 27) ltac:(lia)).
  assert (x / 4096 / 2 ^ 27 = k) as E1.
  { symmetry. apply Z.div_unique with (x / 4096 - k * 2 ^ 27); lia. }
  assert (z / 4096 / 2 ^ 27 = k) as E2.
  { symmetry. apply Z.div_unique with (z / 4096 - k * 2 ^ 27); lia. }
  lia.
Qed.

Lemma slot_start_divide a n : can_bump a n → 0 ≤ n → (2 ^ 39 | slot_start a).
Proof.
  intros [_ Hi _ _ _ _] Hn. unfold slot_start. change PDP_MEM_RANGE with (2 ^ 39). rewrite sign_ext_eq by lia.
  destruct (_ <? _); [by exists (as_pdp_index a)|]. exists (as_pdp_index a + (2 ^ 25 - 2 ^ 9)). lia.
Qed.

(** A frame no byte of which is free, and one all of which is. *)
Definition frame_used s (f : Z) : Prop := ∀ x, in_block 0 (f * 4096) x → ¬ free_byte (fr s) x.
Definition frame_free s (f : Z) : Prop := ∀ x, in_block 0 (f * 4096) x → free_byte (fr s) x.

Lemma frame_free_not_used s f : frame_free s f → ¬ frame_used s f.
Proof. intros Hf Hu. assert (in_block 0 (f * 4096) (f * 4096)) as H by (unfold in_block; change (sz 0) with 4096; lia). by apply (Hu _ H), Hf. Qed.

(** ** The kernel's side *)

(** [s'] is [s] as far as the kernel's address space goes. *)
Record kernel_kept s aK pdsK ptsK s' : Prop := {
  kk_space : pg_spaces (pg s') !! K = pg_spaces (pg s) !! K;
  kk_pool : pg_page_pool (pg s') = pg_page_pool (pg s);
  kk_tables : ∀ ptr, kernel_owns s aK pdsK ptsK ptr → pg_tables (pg s') !! ptr = pg_tables (pg s) !! ptr;
}.

Section kept.
Context {s : kmem} {aK : AddressSpace} {pdsK : gmap Z MappingEntry} {ptsK : gmap (Z * Z) MappingEntry} {s' : kmem}.
Context (Hkk : kernel_kept s aK pdsK ptsK s').

Lemma kept_kspace : kspace s aK pdsK ptsK → kspace s' aK pdsK ptsK.
Proof using Hkk.
  intros [[Hs Ht] Hf Hn Hp Hc]. destruct Hkk as [Es Ep Et]. unfold pool in *. rewrite <- Ep in *. split; try done. split; [by rewrite Es|].
  apply (tree_same (pg s) _ aK); [done..|]. intros ptr Ho. apply Et. by apply owns_kernel.
Qed.

Lemma kept_page m : kernel_page s' pdsK ptsK m ↔ kernel_page s pdsK ptsK m.
Proof using Hkk. unfold kernel_page, pool. by rewrite (kk_pool _ _ _ _ _ Hkk). Qed.

Lemma kept_owns ptr : kernel_owns s' aK pdsK ptsK ptr ↔ kernel_owns s aK pdsK ptsK ptr.
Proof using Hkk. unfold kernel_owns. by setoid_rewrite kept_page. Qed.

Lemma kept_translate v : translate (pg s') ptsK v = translate (pg s) ptsK v.
Proof using Hkk.
  apply translate_keep. intros ij m Hm. apply (kk_tables _ _ _ _ _ Hkk).
  apply owns_kernel. right. exists m. split; [right; eauto|done].
Qed.
End kept.

Section user.
Context {Ein : MemoryEntries}.
Context `{!MemoryEntries, !MemoryEntriesSpec} {lim : Z}.

(** The kernel can make [n] more pages of entries for a process: addresses at its bump
    pointer, pages of its page pool, small blocks of frames, memory entries. Its tables
    are below the bump pointer and in frames that are not free. *)
Record provides (n : Z) s aK pdsK ptsK : Prop := {
  pv_space : kspace s aK pdsK ptsK;
  pv_bump : can_bump aK n;
  pv_index : as_pdp_index aK ≠ 0;
  pv_spare : 2 * n ≤ spare s;
  pv_below : ∀ ptr, kernel_owns s aK pdsK ptsK ptr → ptr < bump_addr aK;
  pv_used : ∀ m, kernel_page s pdsK ptsK m → frame_used s (me_phys_addr m);
  pv_frames : allocator_wf lim (fr s);
  pv_lim : lim ≤ 2 ^ 50;
  pv_zero : frame_used s 0;
  pv_small : n ≤ small_pages (fr s);
  pv_stock : 7 * n + 1 ≤ stock s;
  pv_room : 1 ≤ room s;
}.

Lemma can_bump_less aK n n' : can_bump aK n → n' ≤ n → can_bump aK n'.
Proof. intros [] Hn. split; try done. lia. Qed.

Lemma provides_less n n' s aK pdsK ptsK : provides n s aK pdsK ptsK → n' ≤ n → provides n' s aK pdsK ptsK.
Proof. intros [] Hn. split; try done; try lia. by eapply can_bump_less. Qed.

Lemma provides_kept n s aK pdsK ptsK s' :
  provides n s aK pdsK ptsK → kernel_kept s aK pdsK ptsK s' → fr s' = fr s → stock s' = stock s → room s' = room s →
  provides n s' aK pdsK ptsK.
Proof using Type.
  intros [] Hkk Ef Es Er. split; unfold frame_used in *; rewrite ?Ef, ?Es, ?Er; try done.
  - by apply (kept_kspace Hkk).
  - unfold spare. by rewrite (kk_pool _ _ _ _ _ Hkk).
  - intros ptr Hp. apply pv_below0. by rewrite <- (kept_owns Hkk).
  - intros m Hm. exact (pv_used0 m (proj1 (kept_page Hkk m) Hm)).
Qed.

(** The kernel's addresses are not at zero. *)
Lemma bump_addr_pos n s aK pdsK ptsK : provides n s aK pdsK ptsK → 0 ≤ n → 0 < bump_addr aK.
Proof using Type.
  intros Hpv Hn. pose proof (pv_bump _ _ _ _ _ Hpv) as Hb. pose proof (pv_index _ _ _ _ _ Hpv). destruct (bump_addr_slot aK n Hb Hn) as [_ Hslot].
  destruct Hb as [_ Hi _ _ _ _]. unfold slot_start in Hslot. change PDP_MEM_RANGE with (2 ^ 39) in *.
  rewrite sign_ext_eq in Hslot by lia. destruct (_ <? _); lia.
Qed.

(** ** A page the kernel makes

    From [s] to [s'] the frame [f] has been taken from the frame allocator and mapped for
    the kernel at its bump pointer. *)
Record page_made (n : Z) s aK pdsK ptsK (f : Z) s' aK' pdsK' ptsK' : Prop := {
  pm_provides : provides (n - 1) s' aK' pdsK' ptsK';
  pm_kernel : as_pdp aK' = as_pdp aK ∧ as_pdp_index aK' = as_pdp_index aK ∧ bump_addr aK' = bump_addr aK + 4096;
  pm_pages : ∀ m, kernel_page s' pdsK' ptsK' m → kernel_page s pdsK ptsK m;
  pm_frame : 0 < f < 2 ^ 38 ∧ frame_free s f ∧ frame_used s' f;
  pm_free : ∀ x, free_byte (fr s') x → free_byte (fr s) x;
  pm_translate : ∀ w, page_of w ≠ page_of (bump_addr aK) → translate (pg s') ptsK' w = translate (pg s) ptsK w;
  pm_translated : translate (pg s') ptsK' (bump_addr aK) = Some (4096 * f);
}.

Section made.
Context {n : Z} {s : kmem} {aK : AddressSpace} {pdsK : gmap Z MappingEntry} {ptsK : gmap (Z * Z) MappingEntry}.
Context (Hpv : provides n s aK pdsK ptsK) (Hn : 0 < n).
Context {s1 : kmem} {addr : Z} (Hbt : block_taken (lim := lim) s 0 addr s1) {s2 : kmem} (Hk2 : kernel_kept s aK pdsK ptsK s2).
Context {s3 : kmem} {aK3 : AddressSpace} {pdsK3 : gmap Z MappingEntry} {ptsK3 : gmap (Z * Z) MappingEntry}.
Context (Hk3 : kspace s3 aK3 pdsK3 ptsK3) (Hs3 : since s2 aK pdsK ptsK s3 aK3 pdsK3 ptsK3) (Hsp3 : spare s - 2 ≤ spare s3).
Context (Hm3 : bump_mapped (P := K) s2 aK pdsK ptsK [addr] s3 aK3 pdsK3 ptsK3).
Context {s6 : kmem} (Hk6 : kernel_kept s3 aK3 pdsK3 ptsK3 s6).
Context (Efr : fr s6 = fr s1) (Est : stock s1 - 1 ≤ stock s6) (Ero : 1 ≤ room s6).

Lemma made_frame : addr = addr / 4096 * 4096 ∧ 0 < addr / 4096 < 2 ^ 38 ∧ frame_free s (addr / 4096) ∧ frame_used s6 (addr / 4096).
Proof using Hpv Hbt Efr.
  destruct Hbt as [_ (_ & Ha & [k Hk] & Hlim) Hap Hby _ _]. change (sz 0) with 4096 in *. destruct Hpv as [].
  rewrite Hk, Z.div_mul by lia. assert (frame_free s k) as Hfree by (intros x Hx; apply Hby; left; by rewrite Hk).
  split_and!; [lia| |lia|done|].
  - assert (k ≠ 0) by (intros ->; by apply (frame_free_not_used s 0)). lia.
  - intros x Hx. rewrite Efr. rewrite Hk in Hap. revert Hx. apply (apart_from_bytes (lim := lim)); [apply Hbt|lia|done].
Qed.

Lemma made_less_free x : free_byte (fr s6) x → free_byte (fr s) x.
Proof using Hbt Efr. rewrite Efr. intros Hx. apply Hbt. by right. Qed.

Lemma made_pages x : kernel_page s6 pdsK3 ptsK3 x → kernel_page s pdsK ptsK x.
Proof using Hk2 Hk6 Hs3. intros Hx. by apply (kept_page Hk2), (si_pages _ _ _ _ _ _ _ _ Hs3), (kept_page Hk6). Qed.

Lemma made_owns p : kernel_owns s6 aK3 pdsK3 ptsK3 p → kernel_owns s aK pdsK ptsK p.
Proof using Hk2 Hk6 Hs3. intros Hp. by apply (kept_owns Hk2), (since_owns _ _ _ _ _ _ _ _ _ Hs3), (kept_owns Hk6). Qed.

Lemma made_bump : can_bump aK3 (n - 1) ∧ as_pdp_index aK3 = as_pdp_index aK ∧ bump_addr aK3 = bump_addr aK + 4096.
Proof using Hpv Hn Hm3.
  pose proof (pv_bump _ _ _ _ _ Hpv) as Hb.
  pose proof (mp_space _ _ _ _ _ _ _ _ _ _ Hm3) as E. cbn [length] in E. rewrite Z.mul_1_r in E. split_and!.
  - rewrite E. destruct Hb as [? ? ? ? ? ?]. split; cbn; try done; try lia. by apply Z.divide_add_r; [|exists 1].
  - by rewrite E.
  - rewrite <- (bump_addr_next aK n Hb) by lia. by rewrite E.
Qed.

Lemma made_provides : provides (n - 1) s6 aK3 pdsK3 ptsK3.
Proof using Hpv Hn Hbt Hk2 Hk3 Hs3 Hsp3 Hm3 Hk6 Efr Est Ero.
  destruct Hpv as [V1 V2 V3 V4 V5 V6 V7 V8 V9 V10 V11 V12]. destruct made_bump as (B1 & B2 & B3).
  destruct Hbt as [T1 T2 T3 T4 (k & Hk & T5) T6].
  assert (∀ f, frame_used s f → frame_used s6 f) as Hstill by (intros f Hf x Hx Hfree; by apply (Hf x Hx), made_less_free). split.
  - by apply (kept_kspace Hk6).
  - done.
  - by rewrite B2.
  - unfold spare in *. rewrite (kk_pool _ _ _ _ _ Hk6). lia.
  - intros p Hp%made_owns%V5. lia.
  - intros x Hx%made_pages. by apply Hstill, V6.
  - by rewrite Efr.
  - done.
  - by apply Hstill.
  - rewrite Efr, T6 by done. lia.
  - unfold took in T5. lia.
  - done.
Qed.

Lemma made : page_made n s aK pdsK ptsK (addr / 4096) s6 aK3 pdsK3 ptsK3.
Proof using Hpv Hn Hbt Hk2 Hk3 Hs3 Hsp3 Hm3 Hk6 Efr Est Ero.
  destruct made_bump as (B1 & B2 & B3), made_frame as (Ea & Hf). destruct (mp_range _ _ _ _ _ _ _ _ _ _ Hm3) as [Hin Hout].
  destruct (bump_addr_range aK n (pv_bump _ _ _ _ _ Hpv) ltac:(lia)) as (_ & [q Hq] & _). split.
  - apply made_provides.
  - rewrite (si_pdp _ _ _ _ _ _ _ _ Hs3). by split_and!.
  - apply made_pages.
  - done.
  - apply made_less_free.
  - intros w Hw. rewrite (kept_translate Hk6). rewrite Hout; [exact (kept_translate Hk2 w)|]. intros j Hj Hp. cbn in Hj.
    replace j with 0 in Hp by lia. unfold nth_page in Hp. by rewrite Z.mul_0_r, Z.add_0_r in Hp.
  - rewrite (kept_translate Hk6), (Hin 0%nat addr (bump_addr aK) eq_refl) by (unfold nth_page; f_equal; lia).
    f_equal. rewrite Hq at 1. rewrite Z.mod_mul by lia. lia.
Qed.
End made.

(** *** Taking the frame and mapping it *)

Context (kma_in : list PageFrameAllocation → Z → KM Z) (kmp_in : Z → Z → Z → KM Z).

(** [kmap_phys_range] of the kernel. *)
Definition kmap_phys_range : Z → Z → Z → KM Z := @map_phys_range Ein kma_in kmp_in K.

Lemma wp_take_page n s aK pdsK ptsK (Q : option Z → kmem → Prop) :
  provides n s aK pdsK ptsK → 0 < n → (∀ addr s1, block_taken (lim := lim) s 0 addr s1 → Q (Some addr) s1) →
  wp (alloc_frames_contiguos 1) Q s.
Proof using Type*.
  intros [] Hn HQ. apply (wp_alloc_contiguos (lim := lim)); [done|lia|apply small_within_reach; lia|lia|done|]. intros addr s1. apply HQ.
Qed.

Lemma wp_map_page_made n s aK pdsK ptsK s1 addr s2 flags (Q : Z → kmem → Prop) :
  provides n s aK pdsK ptsK → 0 < n → block_taken (lim := lim) s 0 addr s1 → kernel_kept s aK pdsK ptsK s2 → km_frames s2 = km_frames s1 →
  (∀ s3 aK3 pdsK3 ptsK3, since s2 aK pdsK ptsK s3 aK3 pdsK3 ptsK3 → (∃ l, pg_invalidated (pg s3) = l ++ pg_invalidated (pg s2)) →
     (∀ s6, kernel_kept s3 aK3 pdsK3 ptsK3 s6 → fr s6 = fr s1 → stock s1 - 1 ≤ stock s6 → 1 ≤ room s6 →
        page_made n s aK pdsK ptsK (addr / 4096) s6 aK3 pdsK3 ptsK3) → Q (bump_addr aK) s3) →
  wp (kmap_phys_range addr 1 flags) Q s2.
Proof using Type*.
  intros Hpv Hn Hbt Hk2 Efr2 HQ. destruct (made_frame Hpv Hbt (s6 := s1) eq_refl) as (Ea & Hfr & _).
  apply (@wp_kmap Ein kma_in kmp_in s2 aK pdsK ptsK addr 1); [by apply (kept_kspace Hk2), Hpv| |lia|by exists (addr / 4096)|lia|].
  { split; [eapply can_bump_less; [apply Hpv|lia]|lia|]. unfold entries_for. rewrite Z.sub_diag, Z.mul_0_r, Z.add_0_r, Z.sub_diag.
    unfold spare. rewrite (kk_pool _ _ _ _ _ Hk2). pose proof (pv_spare _ _ _ _ _ Hpv). unfold spare in *. lia. }
  intros s3 aK3 pdsK3 ptsK3 Hk3 Hs3 Hsp3 Hm3. change (Z.to_nat 1) with 1%nat in Hm3. rewrite page_list_S in Hm3.
  assert (spare s - 2 ≤ spare s3) as Hsp3'.
  { unfold entries_for in Hsp3. rewrite Z.sub_diag, Z.mul_0_r, Z.add_0_r, Z.sub_diag in Hsp3. unfold spare in *. by rewrite (kk_pool _ _ _ _ _ Hk2) in Hsp3. }
  apply (HQ s3 aK3 pdsK3 ptsK3 Hs3).
  - destruct (mp_inval _ _ _ _ _ _ _ _ _ _ Hm3) as (l & El & _). by exists l.
  - intros s6 Hk6 Efr Est Ero. by apply (made Hpv Hn Hbt Hk2 Hk3 Hs3 Hsp3' Hm3 Hk6 Efr).
Qed.

(** ** A process growing

    [s0] is where it started: the kernel with [aK0], [pdsK0], [ptsK0], the process [P]
    with [a0], [pds0], [pts0]. *)
Context {s0 : kmem} {aK0 : AddressSpace} {pdsK0 : gmap Z MappingEntry} {ptsK0 : gmap (Z * Z) MappingEntry}.
Context {P : Z} {a0 : AddressSpace} {pds0 : gmap Z MappingEntry} {pts0 : gmap (Z * Z) MappingEntry}.

(** What has not changed since, and what is new. *)
Record user_since s a pds pts aK pdsK ptsK : Prop := {
  us_spaces : ∀ P', P' ≠ P → P' ≠ K → pg_spaces (pg s) !! P' = pg_spaces (pg s0) !! P';
  us_tables : ∀ ptr, ptr < bump_addr aK0 → ¬ kernel_owns s0 aK0 pdsK0 ptsK0 ptr → ¬ owns a0 pds0 pts0 ptr →
    pg_tables (pg s) !! ptr = pg_tables (pg s0) !! ptr;
  us_rest : (pg_free_nodes (pg s), pg_pml4 (pg s), pg_execute_disable (pg s), km_memory_size s) =
            (pg_free_nodes (pg s0), pg_pml4 (pg s0), pg_execute_disable (pg s0), km_memory_size s0);
  us_free : ∀ x, free_byte (fr s) x → free_byte (fr s0) x;
  us_kernel : as_pdp aK = as_pdp aK0 ∧ as_pdp_index aK = as_pdp_index aK0 ∧ bump_addr aK0 ≤ bump_addr aK;
  us_kernel_pages : ∀ m, kernel_page s pdsK ptsK m → kernel_page s0 pdsK0 ptsK0 m;
  us_kernel_translate : ∀ v, (∀ x, bump_addr aK0 ≤ x < bump_addr aK → page_of v ≠ page_of x) →
    translate (pg s) ptsK v = translate (pg s0) ptsK0 v;
  us_pdp : as_pdp a = as_pdp a0;
  us_new : ∀ m, in_tree pds pts m → in_tree pds0 pts0 m ∨ frame_free s0 (me_phys_addr m) ∧ bump_addr aK0 ≤ mapping_ptr m;
}.

(** The state of the process and of what it builds on. *)
Record user_at (n : Z) s a pds pts aK pdsK ptsK : Prop := {
  ua_space : pspace P s a pds pts;
  ua_kernel : provides n s aK pdsK ptsK;
  ua_foreign : ∀ ptr, owns a pds pts ptr → ¬ kernel_owns s aK pdsK ptsK ptr ∧ ptr < bump_addr aK;
  ua_slot : ∀ m, in_tree pds pts m → slot_start aK ≤ mapping_ptr m;
  ua_used : ∀ m, in_tree pds pts m → frame_used s (me_phys_addr m);
  ua_mapped : ∀ m, in_tree pds pts m → translate (pg s) ptsK (mapping_ptr m) = Some (4096 * me_phys_addr m);
  ua_since : user_since s a pds pts aK pdsK ptsK;
}.

Definition user_inv (n : Z) s a pds pts : Prop := ∃ aK pdsK ptsK, user_at n s a pds pts aK pdsK ptsK.

(** A change inside the tables of the process. *)
Lemma user_keep n s a pds pts aK pdsK ptsK s' a' :
  P ≠ K → user_at n s a pds pts aK pdsK ptsK → pspace P s' a' pds pts → as_pdp a' = as_pdp a →
  km_frames s' = km_frames s → km_memory_size s' = km_memory_size s → stock s' = stock s → room s' = room s →
  pg_page_pool (pg s') = pg_page_pool (pg s) →
  (pg_free_nodes (pg s'), pg_pml4 (pg s'), pg_execute_disable (pg s')) = (pg_free_nodes (pg s), pg_pml4 (pg s), pg_execute_disable (pg s)) →
  (∀ P', P' ≠ P → pg_spaces (pg s') !! P' = pg_spaces (pg s) !! P') →
  (∀ ptr, ¬ owns a pds pts ptr → pg_tables (pg s') !! ptr = pg_tables (pg s) !! ptr) →
  user_at n s' a' pds pts aK pdsK ptsK.
Proof using Type.
  intros HP [Hsp Hpv Hfo Hsl Hus Hma Hsi] Hsp' Ea Ef Em Est Ero Epp Erest Espaces Etables.
  assert (kernel_kept s aK pdsK ptsK s') as Hkk.
  { split; [by apply Espaces, not_eq_sym|done|]. intros ptr Hptr. apply Etables. intros Ho. by apply (Hfo ptr Ho). }
  unfold frame_used in *. split.
  - done.
  - by apply (provides_kept n s).
  - unfold owns in *. rewrite Ea. intros ptr Ho. rewrite (kept_owns Hkk). by apply Hfo.
  - done.
  - unfold frame_used. by rewrite Ef.
  - intros m Hm. rewrite (kept_translate Hkk). by apply Hma.
  - destruct Hsi as [S1 S2 S3 S4 S5 S6 S7 S8 S9]. split.
    + intros P' H1 H2. rewrite Espaces by done. by apply S1.
    + intros ptr H1 H2 H3. rewrite <- S2 by done. apply Etables. intros [->|(m & Hm & ->)].
      * apply H3. left. by rewrite S8.
      * destruct (S9 m Hm) as [Hm0|[_ Hge]]; [apply H3; right; eauto|lia].
    + injection Erest as -> -> ->. by rewrite Em.
    + by rewrite Ef.
    + done.
    + intros m Hm. apply S6. by apply (kept_page Hkk).
    + intros v Hv. rewrite (kept_translate Hkk). by apply S7.
    + by rewrite Ea.
    + done.
Qed.

(** *** A new page of entries

    [s6] is the state after the page of the frame [f] was made, cleared and put in the
    list of the process, and the entry for it stored in the table at [ptr]. *)
Section new_page.
Context {n : Z} {s : kmem} {a : AddressSpace} {pds : gmap Z MappingEntry} {pts : gmap (Z * Z) MappingEntry}.
Context {aK : AddressSpace} {pdsK : gmap Z MappingEntry} {ptsK : gmap (Z * Z) MappingEntry}.
Context (HP : P ≠ K) (Hu : user_at n s a pds pts aK pdsK ptsK) (Hn : 0 < n).
Context {f : Z} {s6 : kmem} {aK3 : AddressSpace} {pdsK3 : gmap Z MappingEntry} {ptsK3 : gmap (Z * Z) MappingEntry}.
Context (Hpm : page_made n s aK pdsK ptsK f s6 aK3 pdsK3 ptsK3).
Let v := bump_addr aK.
Context {ptr i e' : Z} {t : list Z} (Hptr : owns a pds pts ptr).
Context (Htab : ∀ p, ¬ kernel_owns s aK pdsK ptsK p → pg_tables (pg s6) !! p =
  if decide (p = v) then Some (replicate 512 0) else if decide (p = ptr) then Some (insertZ i e' t) else pg_tables (pg s) !! p).
Context (Hspaces : ∀ P', P' ≠ P → P' ≠ K → pg_spaces (pg s6) !! P' = pg_spaces (pg s) !! P').
Context (Hrest : (pg_free_nodes (pg s6), pg_pml4 (pg s6), pg_execute_disable (pg s6), km_memory_size s6) =
                 (pg_free_nodes (pg s), pg_pml4 (pg s), pg_execute_disable (pg s), km_memory_size s)).
Context {a' : AddressSpace} (Ha' : as_pdp a' = as_pdp a) {m : MappingEntry} (Hmp : mapping_ptr m = v) (Hmf : me_phys_addr m = f).

Lemma made_kernel_owns p : kernel_owns s6 aK3 pdsK3 ptsK3 p → kernel_owns s aK pdsK ptsK p.
Proof using Hpm.
  intros [->|(x & Hx & ->)]; [left; apply (pm_kernel _ _ _ _ _ _ _ _ _ _ Hpm)|].
  right. exists x. split; [by apply (pm_pages _ _ _ _ _ _ _ _ _ _ Hpm)|done].
Qed.

Lemma v_foreign : ¬ kernel_owns s aK pdsK ptsK v.
Proof using Hu. intros Ho%(pv_below _ _ _ _ _ (ua_kernel _ _ _ _ _ _ _ _ Hu)). subst v. lia. Qed.

Lemma owned_tables p : owns a pds pts p → p ≠ ptr → pg_tables (pg s6) !! p = pg_tables (pg s) !! p.
Proof using Hu Htab.
  intros Ho Hne. destruct (ua_foreign _ _ _ _ _ _ _ _ Hu p Ho) as [Hf Hlt]. rewrite Htab by done.
  rewrite !decide_False; [done|done|]. subst v. lia.
Qed.

Lemma new_fresh : fresh a pds pts m.
Proof using Hu Hn Hpm Hmp Hmf.
  pose proof Hu as [Hsp Hpv Hfo Hsl Hus Hma Hsi]. destruct (pm_frame _ _ _ _ _ _ _ _ _ _ Hpm) as (Hr & Hfree & _).
  assert (∀ p, owns a pds pts p → p ≠ v) as Hne by (intros p Hp ->; subst v; destruct (Hfo _ Hp); lia). rewrite <- Hmp in Hne. split.
  - rewrite Hmp. subst v. pose proof (bump_addr_pos n s aK pdsK ptsK Hpv). lia.
  - by rewrite Hmf.
  - apply not_eq_sym, Hne. by left.
  - intros x Hx. split; [apply Hne; right; eauto|]. intros E. apply (frame_free_not_used s f); [done|].
    rewrite <- Hmf, <- E. by apply Hus.
Qed.

Context {pds' : gmap Z MappingEntry} {pts' : gmap (Z * Z) MappingEntry}.
Context (Hin : ∀ x, in_tree pds' pts' x → x = m ∨ in_tree pds pts x).

Lemma new_since : user_since s6 a' pds' pts' aK3 pdsK3 ptsK3.
Proof using HP Hu Hn Hpm Hptr Htab Hspaces Hrest Ha' Hmp Hmf Hin.
  pose proof Hu as [Hsp Hpv Hfo Hsl Hus Hma [S1 S2 S3 S4 (S5 & S5i & S5') S6 S7 S8 S9]].
  destruct Hpm as [_ (B1 & B2 & B3) M1 (_ & Hfree & _) M2 M3 _]. fold v in B3, M3. split.
  - intros P' H1 H2. rewrite Hspaces by done. by apply S1.
  - intros p H1 H2 H3. rewrite <- S2 by done.
    assert (¬ kernel_owns s aK pdsK ptsK p) as Hpk.
    { intros [->|(x & Hx & ->)]; apply H2; [left; by rewrite S5|right; exists x; split; [by apply S6|done]]. }
    rewrite Htab by done. rewrite !decide_False; [done| |subst v; lia]. intros ->. destruct Hptr as [->|(x & Hx & ->)].
    + apply H3. left. by rewrite S8.
    + destruct (S9 x Hx) as [Hx0|[_ Hge]]; [apply H3; right; eauto|lia].
  - by rewrite Hrest.
  - intros x Hx%M2. by apply S4.
  - rewrite B1, B2, B3. split_and!; [done|done|subst v; lia].
  - intros x Hx%M1. by apply S6.
  - intros w Hw. rewrite M3; [apply S7; intros x Hx; apply Hw; subst v; lia|]. apply Hw. subst v. lia.
  - by rewrite Ha'.
  - intros x [->|Hx]%Hin; [|by apply S9]. right. split; [|rewrite Hmp; subst v; lia]. rewrite Hmf. intros y Hy. by apply S4, Hfree.
Qed.

Lemma user_grown : pspace P s6 a' pds' pts' → user_at (n - 1) s6 a' pds' pts' aK3 pdsK3 ptsK3.
Proof using HP Hu Hn Hpm Hptr Htab Hspaces Hrest Ha' Hmp Hmf Hin.
  intros Hsp'. pose proof Hu as [Hsp Hpv Hfo Hsl Hus Hma _]. destruct Hpm as [Hpv' (B1 & B2 & B3) M1 (_ & _ & Hused) M2 M3 M4]. fold v in B3, M3, M4.
  pose proof (pv_bump _ _ _ _ _ Hpv) as Hb. destruct (bump_addr_slot aK n Hb ltac:(lia)) as [_ Hslot].
  assert (slot_start aK3 = slot_start aK) as Eslot by (unfold slot_start; by rewrite B2).
  split; [done|done| | | | |apply new_since].
  - intros p Hp. assert (owns a pds pts p ∨ p = v) as [Ho| ->].
    { destruct Hp as [->|(x & [->|Hx]%Hin & ->)]; [left; left; by rewrite Ha'|by right|left; right; eauto]. }
    + destruct (Hfo p Ho) as [H1 H2]. split; [|lia]. by intros Hk%made_kernel_owns.
    + split; [|lia]. by intros Hk%made_kernel_owns%v_foreign.
  - rewrite Eslot. intros x [->|Hx]%Hin; [rewrite Hmp; subst v; lia|by apply Hsl].
  - intros x [->|Hx]%Hin; [by rewrite Hmf|]. intros y Hy Hf. by apply (Hus x Hx y Hy), M2.
  - intros x [->|Hx]%Hin; [by rewrite Hmp, Hmf|]. rewrite M3; [by apply Hma|].
    destruct (Hfo (mapping_ptr x)) as [_ Hlt]; [right; eauto|]. destruct (bump_addr_range aK n Hb ltac:(lia)) as (_ & Hal & _).
    apply (page_of_below _ v v (slot_start aK)); [subst v; split; [by apply Hsl|done]|subst v; lia|by eapply slot_start_divide; [|apply Z.lt_le_incl]|done].
Qed.
End new_page.

(** ** The interface *)

Context (kmap_allocation : list PageFrameAllocation → Z → KM Z).

Lemma child_entry_user f prot e ptr v :
  0 ≤ f < 2 ^ 38 →
  child_entry (set_user (prot =? 3) (set_prot prot (set_write true (set_present true (set_phys_addr f e)))))
    (Some {| me_ptr := ptr; me_virt_addr := v; me_phys_addr := f |}).
Proof. intros Hf. cbn [child_entry me_phys_addr]. entry_simpl. split; [done|]. apply wrap_small. lia. Qed.

(** The state after the page was cleared and the address space [P] was changed. *)
Lemma stored_kept n s aK pdsK ptsK s2 s3 aK3 pdsK3 ptsK3 a' s6 :
  P ≠ K → provides n s aK pdsK ptsK → kernel_kept s aK pdsK ptsK s2 → since s2 aK pdsK ptsK s3 aK3 pdsK3 ptsK3 →
  pg_spaces (pg s6) = <[P := a']> (pg_spaces (pg s3)) → pg_page_pool (pg s6) = pg_page_pool (pg s3) →
  pg_tables (pg s6) = <[bump_addr aK := replicate 512 0]> (pg_tables (pg s3)) → kernel_kept s3 aK3 pdsK3 ptsK3 s6.
Proof using Type.
  intros HP Hpv Hk2 Hs3 Es Ep Et. split; [by rewrite Es, lookup_insert_ne|done|]. intros p Hp. rewrite Et. apply lookup_insert_ne. intros <-.
  apply (Z.lt_irrefl (bump_addr aK)), (pv_below _ _ _ _ _ Hpv), (kept_owns Hk2). by apply (since_owns _ _ _ _ _ _ _ _ _ Hs3).
Qed.

Lemma stored_tables s aK pdsK ptsK s1 ptr t i e' s3 aK3 pdsK3 ptsK3 s6 p :
  let s2 := set_paging (with_entry ptr t i e' (pg s)) s1 in
  kernel_kept s aK pdsK ptsK s2 → since s2 aK pdsK ptsK s3 aK3 pdsK3 ptsK3 →
  pg_tables (pg s6) = <[bump_addr aK := replicate 512 0]> (pg_tables (pg s3)) → ¬ kernel_owns s aK pdsK ptsK p →
  pg_tables (pg s6) !! p = if decide (p = bump_addr aK) then Some (replicate 512 0)
    else if decide (p = ptr) then Some (insertZ i e' t) else pg_tables (pg s) !! p.
Proof using Type.
  intros s2 Hk2 Hs3 Et Hp. rewrite Et. case_decide as Hv; [subst p; by rewrite lookup_insert_eq|]. rewrite lookup_insert_ne by done.
  rewrite (si_tables _ _ _ _ _ _ _ _ Hs3) by (by rewrite (kept_owns Hk2)). cbn.
  case_decide as Hpt; [subst p; by rewrite lookup_insert_eq|by rewrite lookup_insert_ne].
Qed.

Lemma wp_user_entries n s a pds pts ptr t i e level maps (Q : Z → kmem → Prop) :
  P ≠ K → user_inv n s a pds pts → 0 < n → owns a pds pts ptr → table (pg s) ptr t → lookupZ t i = Some e → present e = false →
  lookupZ (as_entry_maps a) level = Some maps →
  (∀ m e' s', let a' := set_entry_maps (insertZ level (m :: maps) (as_entry_maps a)) a in
     fresh a pds pts m → child_entry e' (Some m) → pg_spaces (pg s') !! P = Some a' →
     pg_tables (pg s') !! mapping_ptr m = Some (replicate 512 0) → pg_tables (pg s') !! ptr = Some (insertZ i e' t) →
     (∀ p, owns a pds pts p → p ≠ ptr → pg_tables (pg s') !! p = pg_tables (pg s) !! p) →
     (∃ l, pg_invalidated (pg s') = l ++ pg_invalidated (pg s)) →
     (∀ pds' pts', (∀ x, in_tree pds' pts' x → x = m ∨ in_tree pds pts x) → pspace P s' a' pds' pts' → user_inv (n - 1) s' a' pds' pts') →
     Q (mapping_ptr m) s') →
  wp (get_or_alloc_page_entries kmap_allocation kmap_phys_range P ptr i level) Q s.
Proof.
  intros HP (aK & pdsK & ptsK & Hu) Hn Hptr Htab He Hpr Hmaps HQ. unfold get_or_alloc_page_entries.
  pose proof (ua_kernel _ _ _ _ _ _ _ _ Hu) as Hpv. pose proof Htab as (Hp0 & Htl & Hlen).
  wp_step. eapply wp_get_entry; [done..|]. rewrite Hpr. replace (P =? g_kernel_space) with false by lia.
  wp_step. apply (wp_take_page n s aK pdsK ptsK); [done..|].
  intros addr s1 Hbt. pose proof (bt_took _ _ _ _ Hbt) as (k & Hk & Hst1 & Hro1 & Es1). injection Es1 as Ems1 Epg1.
  wp_step. apply (wp_get_space _ a); [rewrite Epg1; apply Hu|]. wp_step. eapply wp_get_entry; [by rewrite Epg1|done|].
  wp_step. eapply wp_set_entry; [by rewrite Epg1|]. rewrite Epg1. set (e' := set_user _ _). set (s2 := set_paging _ s1).
  assert (kernel_kept s aK pdsK ptsK s2) as Hk2.
  { split; [done|done|]. intros p Hp. cbn. apply lookup_insert_ne. intros <-. by apply (ua_foreign _ _ _ _ _ _ _ _ Hu ptr). }
  wp_step. apply (wp_map_page_made n s aK pdsK ptsK s1 addr s2); [done..|]. intros s3 aK3 pdsK3 ptsK3 Hs3 Hinv Hmade.
  unfold clear_page, modify_paging. do 2 wp_step. pose proof (si_state _ _ _ _ _ _ _ _ Hs3) as Es3.
  assert (stock s3 = stock s1 ∧ room s3 = room s1 ∧ fr s3 = fr s1 ∧ km_memory_size s3 = km_memory_size s1) as (Est3 & Ero3 & Efr3 & Ems3).
  { rewrite Es3. unfold s2. by rewrite !stock_paging, !room_paging. }
  wp_step. apply wp_get_memory_entry; [rewrite stock_paging, Est3; pose proof (pv_stock _ _ _ _ _ Hpv); lia|].
  intros me s5 Hfr5 (Hst5 & Hro5 & Es5). injection Es5 as Ems5 Epg5. cbn [km_memory_size km_paging set_paging] in Ems5, Epg5. rewrite stock_paging in Hst5. rewrite room_paging in Hro5.
  unfold push_mapping. do 2 wp_step.
  apply (wp_get_space _ a); [rewrite Epg5; cbn; rewrite (si_spaces _ _ _ _ _ _ _ _ Hs3) by done; apply Hu|].
  wp_step. apply (wp_of_option maps); [done|]. apply wp_set_space. wp_step. rewrite Epg5.
  pose proof (pv_bump _ _ _ _ _ Hpv) as Hb. destruct (bump_addr_range aK n Hb ltac:(lia)) as (_ & Hal & _).
  set (m := {| me_ptr := me; me_virt_addr := _; me_phys_addr := _ |}). set (a' := set_entry_maps _ a). set (s6 := set_paging _ s5).
  assert (pg s6 = with_spaces (<[P := a']> (pg_spaces (pg s3))) (with_tables (<[bump_addr aK := replicate 512 0]> (pg_tables (pg s3))) (pg s3))) as Epg6 by done.
  assert (page_made n s aK pdsK ptsK (addr / 4096) s6 aK3 pdsK3 ptsK3) as Hpm.
  { apply Hmade; unfold s6; rewrite ?stock_paging, ?room_paging; [|cbn [km_frames set_paging]; by rewrite Hfr5|lia|pose proof (pv_room _ _ _ _ _ Hpv); lia].
    apply (stored_kept n s aK pdsK ptsK s2 s3 aK3 pdsK3 ptsK3 a' s6); try done; by rewrite Epg6. }
  destruct (pm_frame _ _ _ _ _ _ _ _ _ _ Hpm) as (Hfr & _).
  assert (mapping_ptr m = bump_addr aK) as Emp by (apply mapping_ptr_page; [by apply (bump_addr_canonical aK n); [|lia]|done]).
  assert (me_phys_addr m = addr / 4096) as Emf.
  { unfold m. cbn [me_phys_addr]. rewrite Z.shiftr_div_pow2 by lia. change (2 ^ 12) with 4096. apply wrap_small. lia. }
  assert (pg_tables (pg s6) = <[bump_addr aK := replicate 512 0]> (pg_tables (pg s3))) as Et by (by rewrite Epg6).
  pose proof (λ p, stored_tables s aK pdsK ptsK s1 ptr t i e' s3 aK3 pdsK3 ptsK3 s6 p Hk2 Hs3 Et) as Htab6.
  rewrite <- Emp. apply (HQ m e' s6).
  - by apply (new_fresh Hu Hn Hpm Emp).
  - unfold e'. rewrite Z.shiftr_div_pow2 by lia. change (2 ^ 12) with 4096. pose proof (child_entry_user (addr / 4096) (as_prot a) e (me_ptr m) (me_virt_addr m) ltac:(lia)) as Hc.
    revert Hc. unfold child_entry. by rewrite Emf.
  - rewrite Epg6. cbn. by rewrite lookup_insert_eq.
  - rewrite Emp, Htab6 by by apply (v_foreign Hu). by rewrite decide_True.
  - destruct (ua_foreign _ _ _ _ _ _ _ _ Hu ptr Hptr) as [Hpf Hlt]. rewrite Htab6 by done.
    rewrite decide_False, decide_True by lia. done.
  - apply (owned_tables Hu Htab6).
  - destruct Hinv as (l & El). exists l. by rewrite Epg6.
  - intros pds' pts' Hin Hsp'. exists aK3, pdsK3, ptsK3. pose proof (si_rest _ _ _ _ _ _ _ _ Hs3) as R. injection R as R1 R2 R3.
    refine (user_grown HP Hu Hn Hpm Hptr Htab6 _ _ (a' := a') eq_refl Emp Emf Hin Hsp').
    + intros P' H1 H2. rewrite Epg6. cbn. by rewrite lookup_insert_ne, (si_spaces _ _ _ _ _ _ _ _ Hs3) by done.
    + rewrite Epg6. cbn. by rewrite R1, R2, R3, Ems5, Ems3, Ems1.
Qed.

Section instance.
Context (HP : P ≠ K).

Lemma user_grow_pd n s a pds pts i :
  user_inv n s a pds pts → 0 < n → 0 ≤ i < 512 → pds !! i = None →
  wp (get_or_alloc_page_entries kmap_allocation kmap_phys_range P (as_pdp a) i PD) (λ r s', ∃ a' pds' m,
    user_inv (n - 1) s' a' pds' pts ∧ extends s a pds pts s' a' pds' pts ∧ pds' !! i = Some m ∧ r = mapping_ptr m) s.
Proof using HP.
  intros Hu Hn Hi Ei. pose proof Hu as (aK & pdsK & ptsK & Hat). pose proof (ua_space _ _ _ _ _ _ _ _ Hat) as Hsp. pose proof (ps_tree _ _ _ _ _ Hsp) as Ht.
  destruct (tree_pdp _ _ _ _ Ht) as (t & Htab & Hch). destruct (Hch _ Hi) as (e & He & Hce). rewrite Ei in Hce.
  destruct (pspace_maps _ _ _ _ Hsp) as (mpt & mpd & Ea).
  apply (wp_user_entries n s a pds pts _ t i e PD mpd); try done; [by left|apply Hce|by rewrite Ea|].
  rewrite Ea. change (λ m, insertZ PD (m :: mpd) [mpt; mpd]) with (λ m, [mpt; m :: mpd]).
  intros m e' s' a' Hfresh He' Hspace Hz Hpar Hrest Hinv Hres. change (insertZ PD (m :: mpd) [mpt; mpd]) with [mpt; m :: mpd] in a'.
  exists a', (<[i := m]> pds), m. split_and!; [|apply extends_intro; try done|by rewrite lookup_insert_eq|done].
  - apply Hres.
    + intros x [[k [[_ ->]|[_ Hk]]%lookup_insert_Some]|Hx]; [by left|right; left; eauto|right; by right].
    + split; [done|]. by apply (tree_grow_pd (a' := a') Ht Ea eq_refl Hfresh Hi Htab He' Hz Hpar Hrest).
  - intros v. apply translate_keep. intros ij x Hx. apply Hrest; [right; exists x; split; [right; eauto|done]|].
    apply (tree_not_pdp Ht). right. eauto.
  - by apply insert_subseteq.
Qed.

Lemma user_grow_pt n s a pds pts i j mp :
  user_inv n s a pds pts → 0 < n → 0 ≤ j < 512 → pds !! i = Some mp → pts !! (i, j) = None →
  wp (get_or_alloc_page_entries kmap_allocation kmap_phys_range P (mapping_ptr mp) j PT) (λ r s', ∃ a' pts' m,
    user_inv (n - 1) s' a' pds pts' ∧ extends s a pds pts s' a' pds pts' ∧ pts' !! (i, j) = Some m ∧ r = mapping_ptr m) s.
Proof using HP.
  intros Hu Hn Hj Hmp Ei. pose proof Hu as (aK & pdsK & ptsK & Hat). pose proof (ua_space _ _ _ _ _ _ _ _ Hat) as Hsp. pose proof (ps_tree _ _ _ _ _ Hsp) as Ht.
  destruct (tree_pd _ _ _ _ Ht _ _ Hmp) as (t & Htab & Hch). destruct (Hch _ Hj) as (e & He & Hce). rewrite Ei in Hce.
  destruct (pspace_maps _ _ _ _ Hsp) as (mpt & mpd & Ea).
  apply (wp_user_entries n s a pds pts _ t j e PT mpt); try done; [right; exists mp; split; [left; eauto|done]|apply Hce|by rewrite Ea|].
  rewrite Ea. intros m e' s' a' Hfresh He' Hspace Hz Hpar Hrest Hinv Hres. change (insertZ PT (m :: mpt) [mpt; mpd]) with [m :: mpt; mpd] in a'.
  exists a', (<[(i, j) := m]> pts), m. split_and!; [|apply extends_intro; try done|by rewrite lookup_insert_eq|done].
  - apply Hres.
    + intros x [Hx|[k [[_ ->]|[_ Hk]]%lookup_insert_Some]]; [right; by left|by left|right; right; eauto].
    + split; [done|]. by apply (tree_grow_pt (a' := a') Ht Ea eq_refl Hfresh Hj Htab He' Hz Hpar Hrest i mp).
  - intros v. apply translate_new_table; [done..|]. intros ij x Hx. apply Hrest; [right; exists x; split; [right; eauto|done]|].
    by apply (proj2 (tree_levels Ht ij _ Hx) i).
  - by apply insert_subseteq.
Qed.

#[export] Instance user_grows : Grows P kmap_allocation kmap_phys_range user_inv.
Proof using HP.
  split.
  - by intros n s a pds pts (aK & pdsK & ptsK & []).
  - intros n n' s a pds pts (aK & pdsK & ptsK & []) Hn. exists aK, pdsK, ptsK. split; try done. by apply (provides_less n).
  - intros n s a pds pts v loc t e l (aK & pdsK & ptsK & Hu) Hloc Ht. exists aK, pdsK, ptsK.
    destruct (leaf_update (ua_space _ _ _ _ _ _ _ _ Hu) Hloc t e l Ht) as [Hp _].
    apply (user_keep n s a); try done; [apply stock_paging|apply room_paging|].
    intros ptr Hptr. cbn. apply lookup_insert_ne. intros <-. apply Hptr.
    destruct Hloc as (mp & mt & _ & Hmt & ->). right. exists mt. split; [right; eauto|done].
  - intros n s a pds pts c (aK & pdsK & ptsK & Hu) Hc. exists aK, pdsK, ptsK.
    apply (user_keep n s a); try done; [|apply stock_paging|apply room_paging|].
    + apply (pspace_same P s a); try done; [apply Hu|]. cbn. by rewrite lookup_insert_eq.
    + intros P' HP'. cbn. by rewrite lookup_insert_ne.
  - intros n s a pds pts i. apply user_grow_pd.
  - intros n s a pds pts i j mp. apply user_grow_pt.
Qed.
End instance.
End user.
End PagingUser.
