(* ===== verification/PagingInit.v ===== *)
(** How much page-table memory the kernel sets aside when paging comes up, and the rights
    its own pages get: the first part of [initialize_paging], kernel/src/memory/paging.c.

    The part that fills the first tables and switches to them is in PagingStart.v. *)
From S2P Require Import Prelude Util MemState PageEntry FrameInit.

Module PagingInit.
Import Util PageEntry.

Definition PAGE_POOL_THRESHOLD : Z := 10.

Definition starting_pool_size : Z := PAGE_POOL_THRESHOLD * 2 * PAGE_SIZE.
Definition memory_entries_size : Z := PAGE_SIZE.

(** Bit 20 of edx of CPUID leaf 0x80000001. *)
Definition execute_disable_supported (edx : Z) : bool := negb (Z.land (Z.shiftr edx 20) 1 =? 0).

Definition total_size (kernel_size frame_allocator_pages : Z) : Z :=
  u64 (u64 (u64 (kernel_size + starting_pool_size) + u64 (frame_allocator_pages * PAGE_SIZE)) + memory_entries_size).

(** while ((count * range - total) < (count + extra) * PAGE_SIZE) ++count; in 64-bit
    unsigned arithmetic. *)
Definition grow_count (range extra total count : Z) : M unit Z :=
  loop (S (S (S (Z.to_nat (total / range))))) (λ count,
    if u64 (u64 (count * range) - total) <? u64 ((count + extra) * PAGE_SIZE)
    then mret (inl (count + 1)) else mret (inr count)) count.

Definition pd_count (total : Z) : M unit Z :=
  grow_count PD_MEM_RANGE 0 total (MAX (total / PD_MEM_RANGE) 1).

Definition pt_count (total pds : Z) : M unit Z :=
  grow_count PT_MEM_RANGE pds total (MAX (total / PT_MEM_RANGE) 1).

(** The pages to allocate for the tables, the page pool and the first memory entries. *)
Definition pages_to_allocate (pds pts : Z) : Z :=
  u64 (1 + pds + pts + (starting_pool_size + memory_entries_size) / PAGE_SIZE).

Definition initial_tables (kernel_size frame_allocator_pages memory_size : Z)
    (map : list UEFIMemoryDescriptor) : M unit (Z * Z * Z * list UEFIMemoryDescriptor) :=
  let total := total_size kernel_size frame_allocator_pages in
  pds ← pd_count total;
  pts ← pt_count total pds;
  let pages := pages_to_allocate pds pts in
  _ ← kernel_assert (u64 (pages * PAGE_SIZE) <? memory_size)
        "Memory initialization requires more memory than we have";
  _ ← kernel_assert (u64 (pages * PAGE_SIZE) <? PDP_MEM_RANGE)
        "Memory initialization requires more than 512GB";
  let '(phys_addr, map) := FrameInit.claim_descriptor pages map in
  _ ← kernel_assert (negb (phys_addr =? 0)) "Out of memory";
  mret (phys_addr, pds, pts, map).

(** Whether a page of the kernel image is writable and executable; the segments are given
    by the symbols of the linker script. *)
Definition kernel_page_rights (data_start data_end rodata_start rodata_end phys_addr : Z) : bool * bool :=
  if bound_contains phys_addr data_start data_end then (true, false)
  else if bound_contains phys_addr rodata_start rodata_end then (false, false)
  else (true, true).

(** ** Properties *)

(** One test of the loop. *)
Lemma grow_count_step n range extra total count :
  0 ≤ count * range < 2 ^ 63 → 0 ≤ total < 2 ^ 63 → 0 ≤ (count + extra) * 4096 < 2 ^ 63 →
  loop (S n) (λ count,
    if u64 (u64 (count * range) - total) <? u64 ((count + extra) * PAGE_SIZE)
    then mret (inl (count + 1)) else mret (inr count)) count tt =
  if (total <=? count * range) && (count * range - total <? (count + extra) * 4096)
  then loop n (λ count,
    if u64 (u64 (count * range) - total) <? u64 ((count + extra) * PAGE_SIZE)
    then mret (inl (count + 1)) else mret (inr count)) (count + 1) tt
  else Ok (count, tt).
Proof.
  intros Hc Ht He. cbn [loop]. unfold PAGE_SIZE, mbind, M_bind.
  rewrite (wrap_small 64 (count * range)) by lia. rewrite (wrap_small 64 ((count + extra) * 4096)) by lia.
  destruct (Z.leb_spec total (count * range)) as [Hle|Hgt]; cbn [andb].
  - rewrite wrap_small by lia. by destruct (_ <? _).
  - assert (u64 (count * range - total) = count * range - total + 2 ^ 64) as ->.
    { unfold wrap. symmetry. apply Z.mod_unique_pos with (-1); lia. }
    by replace (_ <? _) with false by lia.
Qed.

(** While everything there is to map at start-up fits in what one page table covers
    (2 MB), the loops that size the first page tables finish with room for all of it, for
    the page tables and for the directory, in at most two page tables. There may be none
    for the first table, which is mapped as well (PagingStartExamples.v). *)
Theorem page_table_counts_enough total :
  0 < total < PT_MEM_RANGE →
  ∃ pts, pd_count total tt = Ok (1, tt) ∧ pt_count total 1 tt = Ok (pts, tt) ∧ 1 ≤ pts ≤ 2 ∧
    total + (pts + 1) * PAGE_SIZE ≤ pts * PT_MEM_RANGE ∧ total + 1 * PAGE_SIZE ≤ 1 * PD_MEM_RANGE.
Proof.
  change PT_MEM_RANGE with (2 ^ 21). change PD_MEM_RANGE with (2 ^ 30). change PAGE_SIZE with 4096. intros Ht.
  exists (if 2 ^ 21 - total <? 8192 then 2 else 1). unfold pd_count, pt_count, grow_count.
  change PT_MEM_RANGE with (2 ^ 21). change PD_MEM_RANGE with (2 ^ 30).
  rewrite !Z.div_small by lia. change (MAX 0 1) with 1.
  split; [rewrite grow_count_step by lia|split; [rewrite grow_count_step by lia|]].
  - by replace ((total <=? 1 * 2 ^ 30) && (1 * 2 ^ 30 - total <? (1 + 0) * 4096)) with false by lia.
  - rewrite Z.mul_1_l. replace (total <=? 2 ^ 21) with true by lia. cbn [andb].
    change ((1 + 1) * 4096) with 8192. destruct (Z.ltb_spec (2 ^ 21 - total) 8192); [|done].
    rewrite grow_count_step by lia.
    by replace ((total <=? (1 + 1) * 2 ^ 21) && ((1 + 1) * 2 ^ 21 - total <? (1 + 1 + 1) * 4096)) with false by lia.
  - destruct (Z.ltb_spec (2 ^ 21 - total) 8192); lia.
Qed.

Lemma page_table_counts_enough_witness :
  pt_count 0x1ff800 1 tt = Ok (2, tt) ∧
  ∃ pts, pd_count 0x1ff800 tt = Ok (1, tt) ∧ pt_count 0x1ff800 1 tt = Ok (pts, tt) ∧ 1 ≤ pts ≤ 2 ∧
    0x1ff800 + (pts + 1) * PAGE_SIZE ≤ pts * PT_MEM_RANGE ∧ 0x1ff800 + 1 * PAGE_SIZE ≤ 1 * PD_MEM_RANGE.
Proof. split; [by vm_compute|]. apply (page_table_counts_enough 0x1ff800). by vm_compute. Defined.

(** With more than 2 MB to map, unless it is a multiple of 2 MB, the 64-bit subtraction
    in the loop wraps round and the loop stops at once: the page tables set aside do not
    even cover what there is to map. *)
Theorem page_table_counts_short total pds :
  PT_MEM_RANGE < total < 2 ^ 39 → total mod PT_MEM_RANGE ≠ 0 → 1 ≤ pds ≤ 1024 →
  ∃ pts, pt_count total pds tt = Ok (pts, tt) ∧ pts * PT_MEM_RANGE < total.
Proof.
  change PT_MEM_RANGE with (2 ^ 21). intros Ht Hm Hpds. exists (total / 2 ^ 21).
  pose proof (Z.div_mod total (2 ^ 21) ltac:(lia)) as Hd. pose proof (Z.mod_pos_bound total (2 ^ 21) ltac:(lia)).
  assert (1 ≤ total / 2 ^ 21) by (apply Z.div_le_lower_bound; lia).
  unfold pt_count, grow_count. change PT_MEM_RANGE with (2 ^ 21).
  replace (MAX (total / 2 ^ 21) 1) with (total / 2 ^ 21) by (unfold MAX; destruct (Z.ltb_spec 1 (total / 2 ^ 21)); lia).
  rewrite grow_count_step by lia.
  replace (total <=? _) with false by lia. split; [done|lia].
Qed.

Lemma page_table_counts_short_witness :
  pt_count 0x300000 1 tt = Ok (1, tt) ∧
  ∃ pts, pt_count 0x300000 1 tt = Ok (pts, tt) ∧ pts * PT_MEM_RANGE < 0x300000.
Proof. split; [by vm_compute|]. apply (page_table_counts_short 0x300000 1); [by vm_compute|done|lia]. Defined.

(** A page of the image that holds data cannot be executed, and one that can be written
    and executed holds code. *)
Lemma kernel_page_rights_data ds de rs re p :
  ds ≤ p < de → kernel_page_rights ds de rs re p = (true, false).
Proof. intros Hp. unfold kernel_page_rights. by rewrite (proj2 (bound_contains_iff p ds de) Hp). Qed.

End PagingInit.
