(* ===== verification/PagingExamples.v ===== *)
(** A small kernel address space with two pages mapped: the theorems about address spaces
    and page tables applied to it. *)
From S2P Require Import Prelude Util MemState EntryPool FrameAllocator FrameInvariant FrameProofs FrameAlloc FrameContiguous FrameInit FrameExamples PageEntry AddressSpace Paging Memory MemoryTypes PagingInvariant PagingProofs PagingGrowth PagingKernel PagingSpec.

Module PagingExamples.
Import Util Mem FrameAllocator FrameInvariant FrameProofs FrameAlloc FrameInit FrameExamples PageEntry
  AddressSpace Paging MemoryTypes PagingInvariant PagingProofs PagingGrowth PagingKernel PagingSpec.

#[local] Existing Instance example_entries.
#[local] Existing Instance example_entries_spec.

Definition no_kmap_allocation (l : list PageFrameAllocation) (flags : Z) : KM Z := throw OutOfFuel.
Definition no_kmap_phys_range (phys pages flags : Z) : KM Z := throw OutOfFuel.

(** ** The state *)

Definition page (i : Z) : MappingEntry :=
  {| me_ptr := 0x5000 + 16 * i; me_virt_addr := 0xf00000010 + i; me_phys_addr := 0x200 + i |}.

Definition table_entry (m : MappingEntry) : Z := me_phys_addr m * 4096 + 3.
Definition kernel_pdp : Z := 0xfffff00000001000.
Definition pool_pages : list MappingEntry := (λ i, page (Z.of_nat i)) <$> seq 2 40.
Definition data_addr : Z := 0xfffff00000100000.

Definition demo_space : AddressSpace :=
  {| as_current_address := KERNEL_OFFSET + 0x102000; as_pdp_index := 480; as_pdp := kernel_pdp;
     as_prot := 0; as_free_list := 0; as_entry_maps := [[page 1]; [page 0]] |}.

Definition zeros : list Z := replicate 512 0.

Definition demo_paging : PagingState :=
  {| pg_spaces := {[K := demo_space]}; pg_free_nodes := ∅;
     pg_tables := <[kernel_pdp := insertZ 0 (table_entry (page 0)) zeros]>
       (<[mapping_ptr (page 0) := insertZ 0 (table_entry (page 1)) zeros]>
       {[mapping_ptr (page 1) := insertZ 256 0x3003 (insertZ 257 0x5003 zeros)]});
     pg_page_pool := {| pp_count := 40; pp_head := pool_pages |};
     pg_pml4 := zeros; pg_execute_disable := true; pg_invalidated := [] |}.

Definition demo_kmem : kmem := set_paging demo_paging lent_kmem.
Definition demo_pds : gmap Z MappingEntry := {[0 := page 0]}.
Definition demo_pts : gmap (Z * Z) MappingEntry := {[(0, 0) := page 1]}.

Lemma table_of_single g ptr k e m :
  0 ≤ k < 512 → ptr ≠ 0 → pg_tables g !! ptr = Some (insertZ k e zeros) → child_entry e (Some m) →
  ∀ f, f k = Some m → (∀ i, i ≠ k → f i = None) → table_of g ptr f.
Proof.
  intros Hk Hp Ht He f Hf Hnone. exists (insertZ k e zeros). split; [split_and!; [done|done|by rewrite length_insertZ]|].
  intros i Hi. rewrite lookupZ_insert by done. destruct (decide (k = i)) as [<-|Hne].
  - exists e. by rewrite Hf.
  - exists 0. rewrite Hnone by done. split; [by apply lookup_zeros|apply child_empty].
Qed.

(** A tree of three pages of entries: the top one, [x] under its first entry and [y] under
    the first of [x]. *)
Definition small_pages_ok a (x y : MappingEntry) : Prop :=
  as_entry_maps a = [[y]; [x]] ∧ as_pdp a ≠ 0 ∧ NoDup (phys_of [y; x]) ∧ NoDup (as_pdp a :: (mapping_ptr <$> [y; x])) ∧
  Forall (λ m, mapping_ptr m ≠ 0 ∧ 0 < me_phys_addr m < 2 ^ 38 ∧ child_entry (table_entry m) (Some m)) [x; y].

Lemma small_in_tree x y m : in_tree {[0 := x]} {[(0, 0) := y]} m → m = x ∨ m = y.
Proof. intros [[i Hi]|[i Hi]]; apply lookup_singleton_Some in Hi as [_ <-]; auto. Qed.

Lemma small_tree g a x y t :
  small_pages_ok a x y → pg_tables g !! as_pdp a = Some (insertZ 0 (table_entry x) zeros) →
  pg_tables g !! mapping_ptr x = Some (insertZ 0 (table_entry y) zeros) → pg_tables g !! mapping_ptr y = Some t → length t = 512%nat →
  tree g a {[0 := x]} {[(0, 0) := y]}.
Proof.
  intros (Ea & Hp & Hph & Hnd & Hok) Tp Tx Ty Hlen. pose proof (Forall_inv Hok) as (Hx & Hx' & Cx). pose proof (Forall_inv (Forall_inv_tail Hok)) as (Hy & Hy' & Cy).
  split.
  - exists [y], [x]. split; [done|]. split_and!; [| |done|done].
    + intros m. rewrite list_elem_of_singleton. split; [intros ->; by exists (0, 0)|]. intros [ij Hij]. by apply lookup_singleton_Some in Hij as [_ <-].
    + intros m. rewrite list_elem_of_singleton. split; [intros ->; by exists 0|]. intros [i Hi]. by apply lookup_singleton_Some in Hi as [_ <-].
  - by intros m [-> | ->]%small_in_tree.
  - intros i i' m Hi Hi'. apply lookup_singleton_Some in Hi as [<- _], Hi' as [<- _]. done.
  - intros i i' m Hi Hi'. apply lookup_singleton_Some in Hi as [<- _], Hi' as [<- _]. done.
  - intros i j m Hij. apply lookup_singleton_Some in Hij as [[= <- <-] _]. by exists x.
  - apply (table_of_single _ _ 0 (table_entry x) x); try done. intros i Hi. by rewrite lookup_singleton_ne.
  - intros i m Hi. apply lookup_singleton_Some in Hi as [<- <-]. apply (table_of_single _ _ 0 (table_entry y) y); try done.
    intros i Hi. rewrite lookup_singleton_ne; [done|congruence].
  - intros ij m Hij. apply lookup_singleton_Some in Hij as [<- <-]. by exists t.
Qed.

Lemma demo_in_tree m : in_tree demo_pds demo_pts m → m = page 0 ∨ m = page 1.
Proof. apply small_in_tree. Qed.

Lemma demo_pages_ok : small_pages_ok demo_space (page 0) (page 1).
Proof.
  split_and!; [done|done|apply (bool_decide_unpack _); by vm_compute|apply (bool_decide_unpack _); by vm_compute|].
  repeat constructor; by vm_compute.
Qed.

Lemma demo_tree : tree demo_paging demo_space demo_pds demo_pts.
Proof. eapply small_tree; [apply demo_pages_ok|by vm_compute|by vm_compute|reflexivity|done]. Defined.

Lemma page_ptr i : 0 ≤ i < 2 ^ 20 → mapping_ptr (page i) = 0xfffff00000010000 + 4096 * i.
Proof.
  intros Hi. unfold mapping_ptr, page. cbn [me_virt_addr]. rewrite Z.shiftl_mul_pow2, wrap_small, sign_ext_eq by lia.
  replace (_ <? _) with false by lia. lia.
Qed.

Lemma demo_fresh m : m ∈ pool_pages → fresh demo_space demo_pds demo_pts m.
Proof.
  intros (i & -> & Hi%elem_of_seq)%list_elem_of_fmap.
  pose proof (page_ptr (Z.of_nat i) ltac:(lia)) as E.
  split.
  - rewrite E. lia.
  - cbn. lia.
  - rewrite E. unfold demo_space, kernel_pdp. cbn [as_pdp]. lia.
  - intros m' [-> | ->]%demo_in_tree; rewrite E.
    + change (mapping_ptr (page 0)) with 0xfffff00000010000. cbn. lia.
    + change (mapping_ptr (page 1)) with 0xfffff00000011000. cbn. lia.
Defined.

Lemma demo_kspace : kspace demo_kmem demo_space demo_pds demo_pts.
Proof.
  split; [split; [done|apply demo_tree]|apply demo_fresh|split; apply (bool_decide_unpack _); by vm_compute|done|done].
Defined.

Lemma demo_bump n : 0 ≤ n ≤ 512 → can_bump demo_space n.
Proof.
  intros Hn. split; try done; unfold demo_space, KERNEL_OFFSET, KERNEL_PML4_OFFSET;
    cbn [as_current_address as_prot as_pdp_index]; change PDP_MEM_RANGE with (2 ^ 39); try lia.
  exists (480 * 2 ^ 27 + 0x102). lia.
Defined.

Lemma demo_can_map n : 0 < n ≤ 254 → can_map demo_kmem demo_space n.
Proof.
  intros Hn. split; [apply demo_bump; lia|lia|]. change (spare demo_kmem) with 30. unfold entries_for, region.
  change (bump_addr demo_space) with 0xfffff00000102000. change (0xfffff00000102000 / 2 ^ 21) with (0xfffff00000000000 / 2 ^ 21).
  replace ((0xfffff00000102000 + 4096 * (n - 1)) / 2 ^ 21) with (0xfffff00000000000 / 2 ^ 21); [lia|].
  apply Z.div_unique with (0x102000 + 4096 * (n - 1)); [left; lia|]. change (0xfffff00000000000 / 2 ^ 21) with 0x7ffff800000. lia.
Defined.

Lemma demo_stock : stock demo_kmem = 233.
Proof. by vm_compute. Qed.

(** ** Page tables *)

Lemma map_phys_range_translates_witness :
  wp (v ← map_phys_range no_kmap_allocation no_kmap_phys_range K 0x7000 200 PAGING_WRITABLE;
      r ← virt_to_phys_addr K (bump_addr demo_space + 0x1234); mret (v, r)) (λ '(v, r) s',
      (v ≤ bump_addr demo_space + 0x1234 < v + 4096 * 200 → r = Some (0x7000 + (bump_addr demo_space + 0x1234 - v))) ∧
      ((∀ i, 0 ≤ i < 200 → ¬ nth_page v i (bump_addr demo_space + 0x1234)) →
        r = translate (pg demo_kmem) demo_pts (bump_addr demo_space + 0x1234)) ∧
      ∀ i, 0 ≤ i < 200 → v + 4096 * i ∈ pg_invalidated (pg s')) demo_kmem.
Proof.
  apply (map_phys_range_translates _ _ demo_kmem demo_space demo_pds demo_pts 0x7000 200);
    [apply demo_kspace|apply demo_can_map; lia|lia|by exists 7|lia].
Defined.

Lemma demo_tables n : 0 ≤ n ≤ 2 → tables_for demo_pts data_addr n.
Proof.
  intros Hn i Hi. assert (i = 0 ∨ i = 1) as [-> | ->] by lia; by exists (page 1).
Defined.

Lemma unmap_range_spec_witness :
  wp (_ ← unmap_range no_kmap_allocation no_kmap_phys_range K data_addr 2; virt_to_phys_addr K data_addr) (λ r s',
    ((∃ i, 0 ≤ i < 2 ∧ nth_page data_addr i data_addr) → r = None) ∧
    ((∀ i, 0 ≤ i < 2 → ¬ nth_page data_addr i data_addr) → r = translate (pg demo_kmem) demo_pts data_addr) ∧
    (∀ i, 0 ≤ i < 2 → data_addr + 4096 * i ∈ pg_invalidated (pg s')) ∧
    ∃ e a', pg_spaces (pg s') !! K = Some a' ∧ as_free_list a' = e ∧
      pg_free_nodes (pg s') !! e = Some {| fle_next := wrap 48 (as_free_list demo_space);
        fle_addr := wrap 36 (data_addr / 4096); fle_pages := 2 |}) demo_kmem.
Proof.
  apply (unmap_range_spec _ _ K demo_kmem demo_space demo_pds demo_pts);
    [apply demo_kspace|by vm_compute|apply demo_tables; lia|lia|by vm_compute|by vm_compute].
Defined.

Lemma map_unmap_roundtrip_witness :
  wp (v ← map_phys_range no_kmap_allocation no_kmap_phys_range K 0x7000 2 PAGING_WRITABLE;
      _ ← unmap_range no_kmap_allocation no_kmap_phys_range K v 2; virt_to_phys_addr K data_addr) (λ r _,
    r = translate (pg demo_kmem) demo_pts data_addr) demo_kmem ∧
  translate (pg demo_kmem) demo_pts data_addr = Some 0x3000.
Proof.
  split; [|by vm_compute].
  apply (map_unmap_roundtrip _ _ demo_kmem demo_space demo_pds demo_pts);
    [apply demo_kspace|apply demo_can_map; lia|lia|by exists 7|lia|by vm_compute|].
  intros i v' Hi Hp. unfold translate, leaf. unfold nth_page in Hp. apply page_of_inj in Hp as (-> & -> & ->).
  assert (i = 0 ∨ i = 1) as [-> | ->] by lia; by vm_compute.
Defined.

Lemma range_set_flags_spec_witness :
  wp (range_set_flags no_kmap_allocation no_kmap_phys_range K data_addr 2 PAGING_EXECUTABLE) (λ b s',
    b = true ∧ pspace K s' demo_space demo_pds demo_pts ∧
    range_flagged (pg demo_kmem) demo_pts data_addr (Z.to_nat 2) PAGING_EXECUTABLE (pg s') ∧
    (∀ v', translate (pg s') demo_pts v' = translate (pg demo_kmem) demo_pts v') ∧
    pg_invalidated (pg s') = pg_invalidated (pg demo_kmem)) demo_kmem.
Proof.
  apply (range_set_flags_spec _ _ K demo_kmem demo_space demo_pds demo_pts);
    [apply demo_kspace| |lia|by vm_compute|by vm_compute].
  intros i Hi. assert (i = 0 ∨ i = 1) as [-> | ->] by lia; eexists; by vm_compute.
Defined.

(** The two pages lie in the frames 0x3000 and 0x5000 of the block that was handed out. *)
Lemma lent_apart a : 0 ≤ a → a + 4096 ≤ 524288 → apart_from (fr demo_kmem) 0 a.
Proof.
  intros Ha Hl. destruct lent_wf as [[Hwf _] [_ _ Hap]]. apply Forall_inv in Hap.
  apply (apart_from_bytes (lim := managed example_size)); [apply Hwf|lia|].
  intros x Hx. pose proof (proj1 (apart_from_bytes (lim := managed example_size) (fr lent_kmem) 7 0
    (wf_blocks _ _ Hwf) ltac:(done)) Hap x) as Hfree.
  apply Hfree. unfold in_block, example_block in *. cbn [pfa_addr pfa_order].
  change (sz 7) with 524288. change (sz 0) with 4096 in Hx. lia.
Qed.

Lemma lent_block_ok k : 0 ≤ k < 128 → block_ok (managed example_size) 0 (k * 4096).
Proof.
  intros Hk. split_and!; [lia|lia|lia| |].
  - by exists k.
  - change (sz 0) with 4096. change (managed example_size) with 2097152. lia.
Qed.

Lemma unmap_loses_frame_witness :
  wp (unmap_and_free_frames no_kmap_allocation no_kmap_phys_range K data_addr 2) (λ _ s',
    translate (pg s') demo_pts data_addr = None ∧ translate (pg s') demo_pts (data_addr + 4096) = None ∧
    (∀ x, in_block 0 0x3000 x → free_byte (fr s') x) ∧
    (∀ x, in_block 0 0x5000 x → ¬ free_byte (fr s') x)) demo_kmem.
Proof.
  apply (unmap_loses_frame _ _ (lim := managed example_size) K demo_kmem demo_space demo_pds demo_pts
    data_addr 0x3003 0x5003 0x3000 0x5000); try (by vm_compute); try done.
  - apply demo_kspace.
  - apply lent_wf.
  - apply (lent_block_ok 3). lia.
  - apply lent_apart; lia.
  - apply (lent_block_ok 5). lia.
  - apply lent_apart; lia.
  - left. by vm_compute.
Defined.

(** ** Address ranges *)

Definition user_space (free_list : Z) : AddressSpace :=
  {| as_current_address := 0x10000; as_pdp_index := 0; as_pdp := 0; as_prot := 3;
     as_free_list := free_list; as_entry_maps := [[]; []] |}.

Definition space_kmem (free_list : Z) (nodes : gmap Z FreeListEntry) : kmem :=
  set_paging (with_free_nodes nodes (with_spaces {[1 := user_space free_list]} demo_paging)) demo_kmem.

Definition small_node : FreeListEntry := {| fle_next := 0; fle_addr := 0x20; fle_pages := 2 |}.
Definition high_node : Z := 0xfffff00000005000.

Lemma alloc_addr_space_bump_witness :
  let s := space_kmem 0x5000 {[0x5000 := small_node]} in
  alloc_addr_space 1 4 s =
    if as_current_address (user_space 0x5000) + 4 * PAGE_SIZE <?
       (as_pdp_index (user_space 0x5000) + 1) * PDP_MEM_RANGE
    then Ok (SIGN_EXT_ADDR (as_current_address (user_space 0x5000)),
             set_paging (with_spaces (<[1 := set_current_address (as_current_address (user_space 0x5000) + 4 * PAGE_SIZE)
               (user_space 0x5000)]> (pg_spaces (pg s))) (pg s)) s)
    else Fault (AssertFailed "Out of address space").
Proof.
  apply (alloc_addr_space_bump 1 (user_space 0x5000) [small_node] 4); try done.
  - by apply (chain_cons _ _ small_node); [| |constructor].
  - by repeat constructor.
Defined.

Lemma addr_space_reuse_witness :
  let s := space_kmem 0 ∅ in
  wp (_ ← add_range_to_free_list 1 data_addr 3; alloc_addr_space 1 3) (λ v s',
    v = data_addr ∧
    pg s' = with_spaces (<[1 := set_free_list (wrap 48 (as_free_list (user_space 0))) (user_space 0)]>
              (pg_spaces (pg s))) (pg s)) s.
Proof.
  apply (addr_space_reuse 1 (user_space 0) data_addr 3); try done.
  - right. by vm_compute.
  - by exists 0xfffff00000100.
  - intros e s' He. vm_compute in He. injection He as <- _. done.
Defined.

Lemma alloc_addr_space_overlap_witness :
  let s := space_kmem 0x5000 {[0x5000 := small_node]} in
  wp (v1 ← alloc_addr_space 1 1; v2 ← alloc_addr_space 1 (2 + 1); mret (v1, v2))
    (λ '(v1, v2) _, v1 = SIGN_EXT_ADDR (0x20 * 4096) ∧ v2 = SIGN_EXT_ADDR ((0x20 + 1) * 4096) ∧
       0x20 + 2 < (0x20 + 1) + (2 + 1)) s.
Proof. by apply (alloc_addr_space_overlap 1 (user_space 0x5000) 0x5000 0x20 2 1). Defined.

Lemma alloc_addr_space_truncated_head_witness :
  let n := {| fle_next := wrap 48 high_node; fle_addr := 0x20; fle_pages := 2 |} in
  let s := space_kmem 0x5000 (<[0x5000 := n]> {[high_node := small_node]}) in
  wp (alloc_addr_space 1 (fle_pages n)) (λ _ s',
    ∀ pages, alloc_addr_space 1 pages s' = Fault (BadPointer (wrap 48 high_node))) s.
Proof.
  intros n s. by apply (alloc_addr_space_truncated_head 1 (user_space 0x5000) 0x5000 n high_node).
Defined.

Lemma claim_virt_range_spec_witness :
  let s := space_kmem 0 ∅ in
  wp (claim_virt_range 1 0x400000 16) (λ b s',
    b = bool_decide (as_current_address (user_space 0) ≤ 0x400000 ∧
                     0x400000 + 16 * PAGE_SIZE ≤ (as_pdp_index (user_space 0) + 1) * PDP_MEM_RANGE) ∧
    if b then ∃ e,
      pg_free_nodes (pg s') = <[e := {| fle_next := wrap 48 (as_free_list (user_space 0));
        fle_addr := as_current_address (user_space 0) / 4096;
        fle_pages := (0x400000 - as_current_address (user_space 0)) / 4096 |}]> (pg_free_nodes (pg s)) ∧
      pg_spaces (pg s') !! 1 =
        Some (set_free_list e (set_current_address (0x400000 + 16 * PAGE_SIZE) (user_space 0)))
    else pg s' = pg s) s.
Proof.
  apply (claim_virt_range_spec 1 (user_space 0) 0x400000 16); try done;
    [by exists 0x10|by exists 0x400].
Defined.


(** ** Types *)

(** The life of an address space, with a page allocation before it. *)
Definition life : list call :=
  [call_alloc_pages 3 PAGING_WRITABLE;
   call_new_address_space 0x9000 5 3;
   call_map_address_space 0x9000;
   call_map_phys_range 0x9000 0x3000 2 PAGING_WRITABLE;
   call_range_set_flags 0x9000 (5 * PDP_MEM_RANGE) 2 PAGING_EXECUTABLE;
   call_unmap_range 0x9000 (5 * PDP_MEM_RANGE) 2;
   call_unmap_address_space 0x9000;
   call_delete_address_space 0x9000].

Definition after_life : kmem :=
  Eval vm_compute in match make_calls (Memory.kernel 3) life demo_kmem with Ok (_, s) => s | Fault _ => demo_kmem end.

End PagingExamples.
