(* ===== verification/Slab.v ===== *)
(** The slab allocator: kernel/src/memory/slab_allocator.c.

    The allocator works on the pages of any page allocator: [E] is its state,
    [alloc_pages] and [free_pages] its operations. A slab is the record of its struct
    together with its free array, the lists of a cache are lists of slabs. [kalloc] and
    [kfree] call themselves for the structs they keep; [fuel] bounds the nesting. *)
From S2P Require Import Prelude Util.

Module Slab.
Import Util.

Definition CACHE_START_ORDER : Z := 4.
Definition CACHE_END_ORDER : Z := 11.
Definition OFF_SLAB_THRESHOLD : Z := PAGE_SIZE / 8.
Definition MIN_OBJ_THRESHOLD : Z := 4.
Definition NUM_CACHES : Z := CACHE_END_ORDER - CACHE_START_ORDER.
Definition max_align : Z := 16.
Definition sizeof_Slab : Z := 32.
Definition sizeof_PageAllocation : Z := 24.
Definition PAGING_WRITABLE : Z := 1.

Record Slab := {
  sl_ptr : Z;
  sl_mem : Z;
  sl_allocated : Z;
  sl_next_free : Z;
  sl_free : list Z;
}.

Record Cache := {
  ca_part : list Slab;
  ca_full : list Slab;
  ca_pages : Z;
  ca_size : Z;
  ca_count : Z;
  ca_free_arr_size : Z;
  ca_mem_size : Z;
}.

Record PageAllocation := { pa_entry : Z; pa_ptr : Z; pa_pages : Z }.

Record SlabAllocator := {
  sa_caches : list Cache;
  sa_page_allocations : list PageAllocation;
}.

Definition no_cache : Cache :=
  {| ca_part := []; ca_full := []; ca_pages := 0; ca_size := 0; ca_count := 0;
     ca_free_arr_size := 0; ca_mem_size := 0 |}.

Definition set_lists (part full : list Slab) (c : Cache) : Cache :=
  {| ca_part := part; ca_full := full; ca_pages := ca_pages c; ca_size := ca_size c;
     ca_count := ca_count c; ca_free_arr_size := ca_free_arr_size c; ca_mem_size := ca_mem_size c |}.

(** ** The shape of a cache *)

Definition get_min_cache_order (size : Z) : Z :=
  match loop 10 (λ order,
    if (Z.shiftl 1 order <? size) && (order <=? CACHE_END_ORDER) then mret (inl (order + 1))
    else mret (inr order)) CACHE_START_ORDER tt with
  | Ok (order, _) => order
  | Fault _ => 0
  end.

(** while (((cache->pages * PAGE_SIZE) / cache->size) < MIN_OBJ_THRESHOLD) ++cache->pages *)
Definition cache_pages (size : Z) : M unit Z :=
  loop 8 (λ pages,
    if pages * PAGE_SIZE / size <? MIN_OBJ_THRESHOLD then mret (inl (pages + 1)) else mret (inr pages)) 1.

(** The largest number of objects that fit beside their free array, from [count] down:
    (count, mem_size, free_arr_size). *)
Definition cache_count (space size count : Z) : M unit (Z * Z * Z) :=
  loop (S (Z.to_nat count)) (λ '(count, mem_size, free_arr_size),
    if count =? 0 then mret (inr (count, mem_size, free_arr_size))
    else
      let mem_size := u32 (count * size) in
      let alignment := MIN max_align size in
      free_arr ← (match round_up_to_multiple (u64 (count * 4)) alignment with
                  | Ok r => mret r | Fault f => throw f end);
      let free_arr_size := u32 free_arr in
      if free_arr_size <=? u64 (space - mem_size) then mret (inr (count, mem_size, free_arr_size))
      else mret (inl (count - 1, mem_size, free_arr_size))) (count, 0, 0).

Definition new_cache (order : Z) : M unit Cache :=
  let size := Z.shiftl 1 order in
  pages ← cache_pages size;
  let space := pages * PAGE_SIZE in
  let space := if size <? OFF_SLAB_THRESHOLD then space - sizeof_Slab else space in
  '(count, mem_size, free_arr_size) ← cache_count space size (space / size);
  _ ← kernel_assert (negb (count =? 0)) "Number of objects stored can't be zero";
  mret {| ca_part := []; ca_full := []; ca_pages := pages; ca_size := size; ca_count := count;
          ca_free_arr_size := free_arr_size; ca_mem_size := mem_size |}.

(** ** Objects of a slab *)

(** The object [kalloc] takes from a slab: its address, and the slab without it. *)
Definition take_object {St} (c : Cache) (slab : Slab) : M St (Z * Slab) :=
  let obj_ptr := sl_mem slab + u32 (sl_next_free slab * ca_size c) in
  next ← of_option OutOfBounds (lookupZ (sl_free slab) (sl_next_free slab));
  mret (obj_ptr, {| sl_ptr := sl_ptr slab; sl_mem := sl_mem slab;
                    sl_allocated := u32 (sl_allocated slab + 1); sl_next_free := next;
                    sl_free := sl_free slab |}).

(** The free list of a slab with the object at [ptr] back on it. *)
Definition give_object {St} (c : Cache) (ptr : Z) (slab : Slab) : M St Slab :=
  let obj_offset := ptr - sl_mem slab in
  _ ← kernel_assert (obj_offset mod ca_size c =? 0) "Pointer not aligned";
  let obj_index := u32 (obj_offset / ca_size c) in
  _ ← of_option OutOfBounds (lookupZ (sl_free slab) obj_index);
  mret {| sl_ptr := sl_ptr slab; sl_mem := sl_mem slab; sl_allocated := sl_allocated slab;
          sl_next_free := obj_index; sl_free := insertZ obj_index (sl_next_free slab) (sl_free slab) |}.

(** A computation of the page allocator, beside the state of the slab allocator. *)
Definition on_pages {E T A} (m : M E A) : M (E * T) A := λ '(e, sa),
  match m e with Ok (a, e) => Ok (a, (e, sa)) | Fault f => Fault f end.

Section allocator.
Context {E : Type}.
Context (alloc_pages : Z → Z → M E Z) (free_pages : Z → Z → M E unit).

Abbreviation SM := (M (E * SlabAllocator)).

(** [&g_slab_allocator.size_caches[order - CACHE_START_ORDER]] *)
Definition get_cache (order : Z) : SM Cache :=
  c ← gets (λ s, lookupZ (sa_caches s.2) (order - CACHE_START_ORDER)); of_option OutOfBounds c.

Definition set_cache (order : Z) (c : Cache) : SM unit :=
  _ ← get_cache order;
  modify (λ s, (s.1, {| sa_caches := insertZ (order - CACHE_START_ORDER) c (sa_caches s.2);
                        sa_page_allocations := sa_page_allocations s.2 |})).

Definition set_page_allocations (l : list PageAllocation) : SM unit :=
  modify (λ s, (s.1, {| sa_caches := sa_caches s.2; sa_page_allocations := l |})).

Definition initialize_slab_allocator : SM unit :=
  for_range CACHE_START_ORDER (CACHE_END_ORDER + 1) (λ order,
    match new_cache order tt with
    | Ok (c, _) => set_cache order c
    | Fault f => throw f
    end).

(** ** Slabs *)

Definition new_slab (c : Cache) (slab_ptr mem : Z) : Slab :=
  {| sl_ptr := slab_ptr; sl_mem := mem + ca_free_arr_size c; sl_allocated := 0; sl_next_free := 0;
     sl_free := (λ i, Z.of_nat i + 1) <$> seq 0 (Z.to_nat (ca_count c)) |}.

(** The part of [kalloc] after a partial slab has been found or made. *)
Definition alloc_from_part (order : Z) : SM Z :=
  cache ← get_cache order;
  match ca_part cache with
  | [] => throw NullDeref
  | slab :: part =>
      '(obj_ptr, slab) ← take_object cache slab;
      _ ← (if sl_allocated slab =? ca_count cache
           then set_cache order (set_lists part (slab :: ca_full cache) cache)
           else set_cache order (set_lists (slab :: part) (ca_full cache) cache));
      _ ← kernel_assert (obj_ptr mod MIN max_align (ca_size cache) =? 0)
            "kalloc pointer has incorrect alignment";
      mret obj_ptr
  end.

Definition add_slab (order slab_ptr mem : Z) : SM unit :=
  cache ← get_cache order;
  set_cache order (set_lists (new_slab cache slab_ptr mem :: ca_part cache) (ca_full cache) cache).

Fixpoint kalloc (fuel : nat) (size : Z) : SM Z :=
  match fuel with
  | O => throw OutOfFuel
  | S fuel =>
      let order := get_min_cache_order size in
      if CACHE_END_ORDER <? order then
        let pages := u64 (u64 (size + PAGE_SIZE) - 1) / PAGE_SIZE in
        ptr ← on_pages (alloc_pages pages PAGING_WRITABLE);
        if ptr =? 0 then mret 0
        else
          allocation ← kalloc fuel sizeof_PageAllocation;
          if allocation =? 0 then throw NullDeref
          else
            l ← gets (λ s, sa_page_allocations s.2);
            _ ← set_page_allocations ({| pa_entry := allocation; pa_ptr := ptr; pa_pages := pages |} :: l);
            mret ptr
      else
        cache ← get_cache order;
        match ca_part cache with
        | _ :: _ => alloc_from_part order
        | [] =>
            mem ← on_pages (alloc_pages (ca_pages cache) PAGING_WRITABLE);
            if mem =? 0 then mret 0
            else if ca_size cache <? OFF_SLAB_THRESHOLD then
              _ ← add_slab order mem (mem + sizeof_Slab);
              alloc_from_part order
            else
              slab ← kalloc fuel sizeof_Slab;
              if slab =? 0 then _ ← on_pages (free_pages mem (ca_pages cache)); mret 0
              else _ ← add_slab order slab mem; alloc_from_part order
        end
  end.

(** ** Freeing *)

Definition contains (c : Cache) (ptr : Z) (slab : Slab) : bool :=
  range_contains ptr (sl_mem slab) (ca_mem_size c).

(** The slab the object at [ptr] lies in gets it back; [full] says which list the slab
    was found in. An empty slab leaves its cache and its pages go back. *)
Definition free_in_slab (kfree : Z → SM unit) (ptr order : Z) (cache : Cache)
    (before after : list Slab) (slab : Slab) (full : bool) : SM unit :=
  let was_full := sl_allocated slab =? ca_count cache in
  slab ← give_object cache ptr slab;
  let slab := {| sl_ptr := sl_ptr slab; sl_mem := sl_mem slab;
                 sl_allocated := u32 (sl_allocated slab - 1);
                 sl_next_free := sl_next_free slab; sl_free := sl_free slab |} in
  let rest := before ++ after in
  let empty := sl_allocated slab =? 0 in
  let part := if full then ca_part cache else rest in
  let part :=
    if empty then part
    else if was_full then slab :: part else before ++ slab :: after in
  _ ← set_cache order (set_lists part (if full then rest else ca_full cache) cache);
  if empty then
    if ca_size cache <? OFF_SLAB_THRESHOLD then on_pages (free_pages (sl_ptr slab) (ca_pages cache))
    else
      _ ← on_pages (free_pages (sl_mem slab - ca_free_arr_size cache) (ca_pages cache));
      kfree (sl_ptr slab)
  else mret tt.

Definition free_from_slab_list (kfree : Z → SM unit) (ptr order : Z) (full : bool) : SM bool :=
  cache ← get_cache order;
  match find_split (contains cache ptr) (if full then ca_full cache else ca_part cache) with
  | None => mret false
  | Some (before, slab, after) =>
      _ ← free_in_slab kfree ptr order cache before after slab full; mret true
  end.

(** The search of [kfree] through the caches from [order] on. *)
Fixpoint free_from_caches (kfree : Z → SM unit) (n : nat) (order ptr : Z) : SM bool :=
  match n with
  | O => mret false
  | S n =>
      found ← free_from_slab_list kfree ptr order false;
      if found : bool then mret true
      else
        found ← free_from_slab_list kfree ptr order true;
        if found : bool then mret true else free_from_caches kfree n (order + 1) ptr
  end.

Fixpoint kfree (fuel : nat) (ptr : Z) : SM unit :=
  match fuel with
  | O => throw OutOfFuel
  | S fuel =>
      found ← free_from_caches (kfree fuel) (Z.to_nat (CACHE_END_ORDER - CACHE_START_ORDER + 1))
                CACHE_START_ORDER ptr;
      if found : bool then mret tt
      else
        l ← gets (λ s, sa_page_allocations s.2);
        match find_split (λ a, pa_ptr a =? ptr) l with
        | None => throw (AssertFailed "Failed to free memory")
        | Some (before, allocation, after) =>
            _ ← on_pages (free_pages (pa_ptr allocation) (pa_pages allocation));
            _ ← set_page_allocations (before ++ after);
            kfree fuel (pa_entry allocation)
        end
  end.
End allocator.

(** ** The shape of the caches *)

(** The smallest order from 4 on whose objects are large enough, 12 when there is none. *)
Lemma min_cache_order_spec size :
  let order := get_min_cache_order size in
  CACHE_START_ORDER ≤ order ≤ CACHE_END_ORDER + 1 ∧
  (order ≤ CACHE_END_ORDER → size ≤ 2 ^ order) ∧ ∀ o, CACHE_START_ORDER ≤ o < order → 2 ^ o < size.
Proof.
  unfold get_min_cache_order.
  enough (∀ n o, 4 ≤ o ≤ 12 → 12 < o + Z.of_nat n → ∃ r, loop n (λ order,
      if (Z.shiftl 1 order <? size) && (order <=? CACHE_END_ORDER) then mret (inl (order + 1))
      else mret (inr order)) o tt = Ok (r, tt) ∧ o ≤ r ≤ 12 ∧ (r ≤ 11 → size ≤ 2 ^ r) ∧
      ∀ o', o ≤ o' < r → 2 ^ o' < size) as Hn.
  { destruct (Hn 10%nat CACHE_START_ORDER) as (r & -> & Hr & Hs & Hl); [by vm_compute..|].
    split; [unfold CACHE_START_ORDER, CACHE_END_ORDER in *; lia|]. by split. }
  induction n as [|n IH]; intros o Ho Hon; [lia|]. cbn [loop]. unfold mbind, M_bind.
  rewrite Z.shiftl_1_l. unfold CACHE_END_ORDER at 1.
  destruct (Z.ltb_spec (2 ^ o) size), (Z.leb_spec o 11); cbn [andb]; unfold mret, M_ret; cbn beta iota.
  - destruct (IH (o + 1)) as (r & Hr & Hor & Hs & Hl); [lia..|]. exists r. split; [exact Hr|].
    split; [lia|]. split; [done|]. intros o' Ho'. destruct (decide (o' = o)) as [->|]; [done|]. apply Hl. lia.
  - exists o. split; [done|]. split_and!; [lia|lia|lia|]. intros; lia.
  - exists o. split; [done|]. split_and!; [lia|lia|done|]. intros; lia.
  - exists o. split; [done|]. split_and!; [lia|lia|lia|]. intros; lia.
Qed.

(** Every cache's slab has room, after its header when that is kept in the slab, for
    the free array and at least three objects, and the objects are aligned. *)
Theorem cache_geometry order :
  4 ≤ order ≤ 11 →
  ∃ c, new_cache order tt = Ok (c, tt) ∧ ca_size c = 2 ^ order ∧ 3 ≤ ca_count c ∧
    ca_mem_size c = ca_count c * ca_size c ∧ 4 * ca_count c ≤ ca_free_arr_size c ∧
    (let header := if ca_size c <? OFF_SLAB_THRESHOLD then sizeof_Slab else 0 in
     header + ca_free_arr_size c + ca_mem_size c ≤ ca_pages c * PAGE_SIZE ∧
     (header + ca_free_arr_size c) mod MIN max_align (ca_size c) = 0).
Proof.
  intros Ho. assert (order = 4 ∨ order = 5 ∨ order = 6 ∨ order = 7 ∨ order = 8 ∨ order = 9 ∨ order = 10 ∨ order = 11)
    as H by lia.
  destruct H as [->|[->|[->|[->|[->|[->|[->| ->]]]]]]]; eexists; (split; [vm_compute; reflexivity|]); by vm_compute.
Qed.

Lemma cache_geometry_witness :
  match new_cache 11 tt with Ok (c, _) => ca_count c | Fault _ => 0 end = 3 ∧
  ∃ c, new_cache 11 tt = Ok (c, tt) ∧ ca_size c = 2 ^ 11 ∧ 3 ≤ ca_count c ∧
    ca_mem_size c = ca_count c * ca_size c ∧ 4 * ca_count c ≤ ca_free_arr_size c ∧
    (let header := if ca_size c <? OFF_SLAB_THRESHOLD then sizeof_Slab else 0 in
     header + ca_free_arr_size c + ca_mem_size c ≤ ca_pages c * PAGE_SIZE ∧
     (header + ca_free_arr_size c) mod MIN max_align (ca_size c) = 0).
Proof. split; [by vm_compute|]. apply (cache_geometry 11). lia. Defined.

(** ** Objects *)

(** The free objects of a slab, in the order the array links them, up to the end mark. *)
Inductive free_chain (count : Z) (free : list Z) : Z → list Z → Prop :=
  | chain_end : free_chain count free count []
  | chain_next i next l : 0 ≤ i < count → lookupZ free i = Some next →
      free_chain count free next l → free_chain count free i (i :: l).

Record slab_wf (c : Cache) (slab : Slab) (chain : list Z) : Prop := {
  sw_size : 0 < ca_size c;
  sw_fits : ca_count c * ca_size c < 2 ^ 32;
  sw_mem_size : ca_mem_size c = ca_count c * ca_size c;
  sw_mem : 0 ≤ sl_mem slab ∧ sl_mem slab + ca_mem_size c < 2 ^ 64;
  sw_length : Z.of_nat (length (sl_free slab)) = ca_count c;
  sw_chain : free_chain (ca_count c) (sl_free slab) (sl_next_free slab) chain;
  sw_nodup : NoDup chain;
  sw_allocated : sl_allocated slab = ca_count c - Z.of_nat (length chain);
}.

(** The objects of a slab that are in use. *)
Definition in_use (c : Cache) (slab : Slab) (chain : list Z) (ptr : Z) : Prop :=
  ∃ i, 0 ≤ i < ca_count c ∧ (i ∉ chain) ∧ ptr = sl_mem slab + i * ca_size c.

Lemma chain_range count free i l : free_chain count free i l → Forall (λ j, 0 ≤ j < count) l.
Proof. induction 1; by constructor. Qed.

Lemma chain_length c chain :
  NoDup chain → Forall (λ j, 0 ≤ j < ca_count c) chain → Z.of_nat (length chain) ≤ Z.max 0 (ca_count c).
Proof.
  intros Hnd Hr. enough (length chain ≤ Z.to_nat (ca_count c))%nat by lia.
  rewrite <- (length_fmap Z.to_nat), <- (length_seq (Z.to_nat (ca_count c)) 0).
  rewrite Forall_forall in Hr. apply submseteq_length, NoDup_submseteq.
  - apply NoDup_fmap_2_strong; [|done]. intros x y Hx Hy Hxy.
    pose proof (Hr x Hx); pose proof (Hr y Hy). lia.
  - intros x (y & -> & Hy)%list_elem_of_fmap. specialize (Hr y Hy). apply elem_of_seq. lia.
Qed.

Lemma chain_inv count free n i l :
  free_chain count free n (i :: l) →
  n = i ∧ 0 ≤ i < count ∧ ∃ next, lookupZ free i = Some next ∧ free_chain count free next l.
Proof. inversion 1; subst. eauto. Qed.

Lemma chain_insert count free i l j x :
  free_chain count free i l → (j ∉ l) → free_chain count (insertZ j x free) i l.
Proof.
  induction 1 as [|i next l Hi Hn Hl IH]; intros Hj; [constructor|].
  apply not_elem_of_cons in Hj as [Hne Hj]. econstructor; [done| |by apply IH].
  by rewrite lookupZ_insertZ_ne.
Qed.

Definition taken (c : Cache) (slab : Slab) (next : Z) : Slab :=
  {| sl_ptr := sl_ptr slab; sl_mem := sl_mem slab; sl_allocated := sl_allocated slab + 1;
     sl_next_free := next; sl_free := sl_free slab |}.

Lemma aligned_object mem i size m : mem mod m = 0 → size mod m = 0 → (mem + i * size) mod m = 0.
Proof.
  destruct (decide (m = 0)) as [->|Hm]; [rewrite !Z.mod_0_r; intros -> ->; lia|].
  rewrite !Z.mod_divide by done. intros H1 H2. apply Z.divide_add_r; [done|]. by apply Z.divide_mul_r.
Qed.

Section objects.
Context {St : Type}.
Implicit Types (s : St).

Lemma take_object_eq c slab i rest s :
  slab_wf c slab (i :: rest) →
  ∃ next, lookupZ (sl_free slab) i = Some next ∧ sl_next_free slab = i ∧ 0 ≤ i < ca_count c ∧
    take_object c slab s = Ok ((sl_mem slab + i * ca_size c, taken c slab next), s) ∧
    slab_wf c (taken c slab next) rest.
Proof.
  intros [H1 H2 H3 H4 H5 H6 H7 H8].
  pose proof (chain_inv _ _ _ _ _ H6) as (E1 & Hj & next & Hn & Hl). exists next.
  assert (0 ≤ i * ca_size c < 2 ^ 32) by nia.
  pose proof (chain_range _ _ _ _ H6) as Hr. cbn [length] in H8.
  pose proof (chain_length c (i :: rest) H7 Hr) as Hlen.
  cbn [length] in Hlen.
  assert (ca_count c < 2 ^ 32) by nia.
  split; [done|]. split; [done|]. split; [done|]. split.
  - unfold take_object, mbind, M_bind. rewrite E1, Hn. cbn -[wrap]. unfold mret, M_ret, taken. rewrite !wrap_small by lia. done.
  - apply NoDup_cons in H7 as [H7a H7b]. split; try done. cbn. lia.
Qed.

(** The object taken is in use, the others are as they were. *)
Lemma taken_in_use c slab i rest next p :
  slab_wf c slab (i :: rest) → 0 ≤ i < ca_count c →
  in_use c (taken c slab next) rest p ↔ p = sl_mem slab + i * ca_size c ∨ in_use c slab (i :: rest) p.
Proof.
  intros Hwf Hr. pose proof (sw_nodup _ _ _ Hwf) as [Hni _]%NoDup_cons. unfold in_use. cbn [sl_mem taken]. split.
  - intros (j & Hj & Hnin & ->). destruct (decide (j = i)) as [->|]; [by left|right].
    exists j. rewrite not_elem_of_cons. done.
  - intros [->|(j & Hj & Hnin & ->)]; [by exists i|]. exists j. apply not_elem_of_cons in Hnin as [_ ?]. done.
Qed.

(** Giving back the object that was just taken undoes the taking. *)
Lemma give_taken c slab i rest next s :
  slab_wf c slab (i :: rest) → lookupZ (sl_free slab) i = Some next → sl_next_free slab = i → 0 ≤ i < ca_count c →
  give_object c (sl_mem slab + i * ca_size c) (taken c slab next) s =
    Ok ({| sl_ptr := sl_ptr slab; sl_mem := sl_mem slab; sl_allocated := sl_allocated slab + 1;
           sl_next_free := i; sl_free := sl_free slab |}, s).
Proof.
  intros [H1 H2 H3 H4 H5 H6 H7 H8] Hn Hi Hr. unfold give_object. cbn [sl_mem taken sl_free sl_ptr sl_allocated sl_next_free].
  replace (sl_mem slab + i * ca_size c - sl_mem slab) with (i * ca_size c) by lia.
  rewrite Z.mod_mul, Z.div_mul by lia. rewrite wrap_small by nia.
  assert (insertZ i next (sl_free slab) = sl_free slab) as Eid.
  { unfold insertZ, lookupZ in *. destruct (i <? 0); [done|]. by apply list_insert_id. }
  unfold mbind, M_bind. cbn -[insertZ lookupZ]. rewrite Hn. cbn -[insertZ lookupZ]. by rewrite Eid.
Qed.
End objects.

Section properties.
Context {E : Type} (alloc_pages : Z → Z → M E Z) (free_pages : Z → Z → M E unit).
Implicit Types (s : E * SlabAllocator).

Definition cache_at s (order : Z) : option Cache :=
  lookupZ (sa_caches s.2) (order - CACHE_START_ORDER).

Definition with_cache (order : Z) (c : Cache) s : E * SlabAllocator :=
  (s.1, {| sa_caches := insertZ (order - CACHE_START_ORDER) c (sa_caches s.2);
           sa_page_allocations := sa_page_allocations s.2 |}).

Lemma get_cache_eq order c s : cache_at s order = Some c → get_cache order s = Ok (c, s).
Proof. intros Hc. unfold get_cache, mbind, M_bind, gets. unfold cache_at in Hc. by rewrite Hc. Qed.

Lemma set_cache_eq order c c' s : cache_at s order = Some c → set_cache order c' s = Ok (tt, with_cache order c' s).
Proof. intros Hc. unfold set_cache, mbind, M_bind. by rewrite (get_cache_eq order c). Qed.

Lemma cache_at_with order c c' s : cache_at s order = Some c → cache_at (with_cache order c' s) order = Some c'.
Proof. intros Hc. unfold cache_at, with_cache. cbn. apply lookupZ_insertZ_eq. unfold cache_at in Hc. by rewrite Hc. Qed.

Lemma cache_at_with_ne order o c' s : o ≠ order → cache_at (with_cache order c' s) o = cache_at s o.
Proof. intros Hne. unfold cache_at, with_cache. cbn. apply lookupZ_insertZ_ne. unfold CACHE_START_ORDER. lia. Qed.

(** The lists of the cache after an object of the first partial slab was taken. *)
Definition after_take (c : Cache) (slab' : Slab) (part : list Slab) : Cache :=
  if sl_allocated slab' =? ca_count c then set_lists part (slab' :: ca_full c) c
  else set_lists (slab' :: part) (ca_full c) c.

Lemma alloc_from_part_eq order c slab part i rest s :
  cache_at s order = Some c → ca_part c = slab :: part →
  slab_wf c slab (i :: rest) → (sl_mem slab) mod MIN max_align (ca_size c) = 0 →
  (ca_size c) mod MIN max_align (ca_size c) = 0 → 0 < ca_size c →
  ∃ next, lookupZ (sl_free slab) i = Some next ∧ sl_next_free slab = i ∧ 0 ≤ i < ca_count c ∧
    slab_wf c (taken c slab next) rest ∧
    alloc_from_part order s =
      Ok (sl_mem slab + i * ca_size c, with_cache order (after_take c (taken c slab next) part) s).
Proof.
  intros Hc Hpart Hwf Hal Hals Hpos.
  destruct (take_object_eq c slab i rest s Hwf) as (next & Hn & Hi & Hr & Htake & Hwf').
  exists next. split_and!; [done|done|lia|lia|done|].
  unfold alloc_from_part, mbind, M_bind. rewrite (get_cache_eq order c s Hc), Hpart, Htake.
  unfold after_take, kernel_assert.
  assert ((sl_mem slab + i * ca_size c) mod MIN max_align (ca_size c) = 0) as Hmod.
  { by apply aligned_object. }
  rewrite Hmod, Z.eqb_refl.
  destruct (sl_allocated (taken c slab next) =? ca_count c);
    by rewrite (set_cache_eq order c _ s Hc).
Qed.

Lemma kalloc_part_eq fuel size c slab part i rest s :
  let order := get_min_cache_order size in
  order ≤ CACHE_END_ORDER → cache_at s order = Some c → ca_part c = slab :: part →
  slab_wf c slab (i :: rest) → (sl_mem slab) mod MIN max_align (ca_size c) = 0 →
  (ca_size c) mod MIN max_align (ca_size c) = 0 → 0 < ca_size c →
  ∃ next, lookupZ (sl_free slab) i = Some next ∧ sl_next_free slab = i ∧ 0 ≤ i < ca_count c ∧
    slab_wf c (taken c slab next) rest ∧
    kalloc alloc_pages free_pages (S fuel) size s =
      Ok (sl_mem slab + i * ca_size c, with_cache order (after_take c (taken c slab next) part) s).
Proof.
  intros order Ho Hc Hpart Hwf Hal Hals Hpos.
  destruct (alloc_from_part_eq order c slab part i rest s Hc Hpart Hwf Hal Hals Hpos) as (next & Hn & Hi & Hr & Hwf' & E1).
  exists next. split_and!; [done|done|lia|lia|done|]. cbn [kalloc]. fold order.
  replace (CACHE_END_ORDER <? order) with false by lia.
  unfold mbind, M_bind at 1. by rewrite (get_cache_eq order c s Hc), Hpart.
Qed.

(** When the cache for a size has a slab with a free object, [kalloc] hands out an
    object of that slab that was not in use, aligned; it is in use afterwards, every
    other object of the slab is as it was, and a slab without free objects moves from
    the partial list to the full one. *)
Theorem kalloc_from_slab fuel size c slab part i rest s :
  let order := get_min_cache_order size in
  order ≤ CACHE_END_ORDER → cache_at s order = Some c → ca_part c = slab :: part →
  slab_wf c slab (i :: rest) → (sl_mem slab) mod MIN max_align (ca_size c) = 0 →
  (ca_size c) mod MIN max_align (ca_size c) = 0 →
  ∃ ptr slab', kalloc alloc_pages free_pages (S fuel) size s =
      Ok (ptr, with_cache order
        (if bool_decide (rest = []) then set_lists part (slab' :: ca_full c) c
         else set_lists (slab' :: part) (ca_full c) c) s) ∧
    slab_wf c slab' rest ∧ sl_mem slab' = sl_mem slab ∧ ¬ in_use c slab (i :: rest) ptr ∧
    ptr mod MIN max_align (ca_size c) = 0 ∧
    ∀ p, in_use c slab' rest p ↔ p = ptr ∨ in_use c slab (i :: rest) p.
Proof.
  intros order Ho Hc Hpart Hwf Hal Hals. pose proof (sw_size _ _ _ Hwf) as Hpos.
  destruct (kalloc_part_eq fuel size c slab part i rest s Ho Hc Hpart Hwf Hal Hals Hpos)
    as (next & Hn & Hi & Hr & Hwf' & Hk).
  exists (sl_mem slab + i * ca_size c), (taken c slab next). split_and!; [|done|done| | |].
  - rewrite Hk. fold order. unfold after_take. pose proof (sw_allocated _ _ _ Hwf') as Hall.
    case_bool_decide as Hrest.
    + replace (_ =? _) with true; [done|]. rewrite Hall, Hrest. cbn [length]. symmetry. apply Z.eqb_eq. cbn. lia.
    + replace (_ =? _) with false; [done|]. rewrite Hall. destruct rest; [done|]. symmetry. apply Z.eqb_neq. cbn [length]. lia.
  - intros (j & Hj & Hnin & Heq). assert (i = j) as -> by nia. by apply not_elem_of_cons in Hnin as [].
  - by apply aligned_object.
  - intros p. by apply taken_in_use.
Qed.
End properties.

End Slab.
