(* ===== verification/PagingStart.v ===== *)
(** How paging comes up: [initialize_paging] of kernel/src/memory/paging.c, and
    [initialize_memory] of kernel/src/memory.c.

    Until the kernel's tables are in use, and for the tables below the first one also after
    that, the pages of entries are reached at their physical addresses, which the firmware
    has mapped to themselves. [pu_pages] is the pages that were set aside, 512 words each,
    by physical address; [pu_active] says whether cr3 holds g_pml4, and [resolve] walks the
    tables for an address of the kernel, as the processor does. *)
From S2P Require Import Prelude Util MemState EntryPool FrameAllocator FrameInit PageEntry AddressSpace Paging PagingInit Slab.

Module PagingStart.
Import Util Mem FrameAllocator FrameInit PageEntry AddressSpace Paging PagingInit.

Record paging_setup := { pu_kmem : kmem; pu_pages : gmap Z (list Z); pu_active : bool }.

Abbreviation UM := (M paging_setup).

Definition on_kmem {A} (m : KM A) : UM A := λ s,
  match m (pu_kmem s) with
  | Ok (r, k) => Ok (r, {| pu_kmem := k; pu_pages := pu_pages s; pu_active := pu_active s |})
  | Fault f => Fault f
  end.

(** ** Memory *)

Definition word (pages : gmap Z (list Z)) (page index : Z) : option Z :=
  t ← pages !! page; lookupZ t index.

(** [(PageEntry* )(e.phys_addr << 12)] *)
Definition page_address (e : Z) : Z := Z.shiftl (phys_addr e) 12.

(** The next page of entries, or the page itself, of an entry that is present. *)
Definition follow (e : Z) : option Z := if present e then Some (page_address e) else None.

(** The page an address lies in. *)
Definition resolve (s : paging_setup) (addr : Z) : option Z :=
  if pu_active s && (get_bits 39 9 addr =? KERNEL_PML4_OFFSET) then
    e ← lookupZ (pg_pml4 (km_paging (pu_kmem s))) KERNEL_PML4_OFFSET; pdp ← follow e;
    e ← word (pu_pages s) pdp (GET_LEVEL_INDEX addr PDP); pd ← follow e;
    e ← word (pu_pages s) pd (GET_LEVEL_INDEX addr PD); pt ← follow e;
    e ← word (pu_pages s) pt (GET_LEVEL_INDEX addr PT); follow e
  else Some addr.

(** [ptr[index]], and a change of it. *)
Definition read_word (ptr index : Z) : UM Z :=
  page ← gets (λ s, resolve s ptr); page ← of_option (BadPointer ptr) page;
  t ← gets (λ s, pu_pages s !! page); t ← of_option (BadPointer page) t;
  of_option OutOfBounds (lookupZ t index).

Definition update_word (ptr index : Z) (f : Z → Z) : UM unit :=
  page ← gets (λ s, resolve s ptr); page ← of_option (BadPointer ptr) page;
  t ← gets (λ s, pu_pages s !! page); t ← of_option (BadPointer page) t;
  e ← of_option OutOfBounds (lookupZ t index);
  modify (λ s, {| pu_kmem := pu_kmem s; pu_pages := <[page := insertZ index (f e) t]> (pu_pages s); pu_active := pu_active s |}).

(** memset with zeros over [n] pages from a physical address. *)
Fixpoint zero_pages (n : nat) (addr : Z) (pages : gmap Z (list Z)) : gmap Z (list Z) :=
  match n with
  | O => pages
  | S n => zero_pages n (addr + PAGE_SIZE) (<[addr := replicate 512 0]> pages)
  end.

Definition clear_pages (addr n : Z) : UM unit :=
  modify (λ s, {| pu_kmem := pu_kmem s; pu_pages := zero_pages (Z.to_nat n) addr (pu_pages s); pu_active := pu_active s |}).

(** mov g_pml4, cr3 *)
Definition load_cr3 : UM unit := modify (λ s, {| pu_kmem := pu_kmem s; pu_pages := pu_pages s; pu_active := true |}).

(** ** g_kernel_space and g_pml4 *)

Definition kernel_space : UM AddressSpace := on_kmem (get_space g_kernel_space).
Definition update_space (f : AddressSpace → AddressSpace) : UM unit :=
  a ← kernel_space; on_kmem (set_space g_kernel_space (f a)).

Definition set_pdp (ptr : Z) (a : AddressSpace) : AddressSpace :=
  {| as_current_address := as_current_address a; as_pdp_index := as_pdp_index a; as_pdp := ptr;
     as_prot := as_prot a; as_free_list := as_free_list a; as_entry_maps := as_entry_maps a |}.

(** The bump pointer, which moves on by a page. *)
Definition next_address : UM Z :=
  a ← kernel_space;
  _ ← update_space (set_current_address (u64 (as_current_address a + PAGE_SIZE)));
  mret (as_current_address a).

(** What the firmware's table says of the entries that are present. *)
Definition retain_identity_mapping (uefi_pml4 pml4 : list Z) : list Z :=
  zip_with (λ u e, if present u then u else e) uefi_pml4 pml4.

Definition update_pml4 (f : list Z → list Z) : UM unit :=
  on_kmem (modify_paging (λ g, with_pml4 (f (pg_pml4 g)) g)).

(** ** The first tables *)

(** The entry for the page of entries at a physical address. *)
Definition link_entry (page e : Z) : Z := set_write true (set_present true (set_phys_addr (Z.shiftr page 12) e)).

Definition link_pml4 (pdp : Z) (pml4 : list Z) : list Z :=
  match lookupZ pml4 KERNEL_PML4_OFFSET with
  | Some e => insertZ KERNEL_PML4_OFFSET (link_entry pdp e) pml4
  | None => pml4
  end.

(** The [n] page tables of a directory from entry [j] on; returns [allocated_phys_addr]. *)
Fixpoint fill_pd (n : nat) (pd j allocated_phys_addr : Z) : UM Z :=
  match n with
  | O => mret allocated_phys_addr
  | S n =>
      _ ← update_word pd j (link_entry allocated_phys_addr);
      fill_pd n pd (j + 1) (u64 (allocated_phys_addr + PAGE_SIZE))
  end.

Fixpoint fill_pdp (n : nat) (i curr_pt_count allocated_phys_addr : Z) : UM Z :=
  match n with
  | O => mret allocated_phys_addr
  | S n =>
      let pd := allocated_phys_addr in
      a ← kernel_space;
      _ ← update_word (as_pdp a) i (link_entry pd);
      allocated_phys_addr ← fill_pd (Z.to_nat (MIN curr_pt_count 512)) pd 0 (u64 (allocated_phys_addr + PAGE_SIZE));
      fill_pdp n (i + 1) (u64 (curr_pt_count - 512)) allocated_phys_addr
  end.

(** From the memset of the pages set aside to the tables that hold nothing yet. *)
Definition build_tables (uefi_pml4 : list Z) (allocated_phys_addr pds pts : Z) : UM Z :=
  _ ← clear_pages allocated_phys_addr (pages_to_allocate pds pts);
  _ ← update_pml4 (retain_identity_mapping uefi_pml4);
  _ ← update_space (set_pdp allocated_phys_addr);
  let pdp := allocated_phys_addr in
  let allocated_phys_addr := u64 (allocated_phys_addr + PAGE_SIZE) in
  _ ← clear_pages pdp 1;
  _ ← update_pml4 (link_pml4 pdp);
  fill_pdp (Z.to_nat pds) 0 pts allocated_phys_addr.

(** ** Mapping pages *)

(** What MAP_PAGE stores. *)
Definition start_entry (nx : bool) (page : Z) (writable executable : bool) (e : Z) : Z :=
  set_execute_disable (negb executable && nx) (set_write writable (set_present true (set_phys_addr page e))).

Definition MAP_PAGE (virt_addr page : Z) (writable executable : bool) : UM unit :=
  a ← kernel_space;
  e ← read_word (as_pdp a) (GET_LEVEL_INDEX virt_addr PDP);
  let pd := page_address e in
  e ← read_word pd (GET_LEVEL_INDEX virt_addr PD);
  let pt := page_address e in
  nx ← on_kmem (gets (λ k, pg_execute_disable (km_paging k)));
  update_word pt (GET_LEVEL_INDEX virt_addr PT) (start_entry nx page writable executable).

(** A page at the next address, which is returned. *)
Definition map_next (page : Z) (writable executable : bool) : UM Z :=
  addr ← next_address;
  let virt_addr := SIGN_EXT_ADDR addr in
  _ ← MAP_PAGE virt_addr page writable executable;
  mret virt_addr.

(** while (curr_phys_addr != end) { map the page; curr_phys_addr += PAGE_SIZE; } *)
Definition map_pages (fuel : nat) (rights : Z → bool * bool) (start_ end_ : Z) : UM unit :=
  loop fuel (λ curr_phys_addr,
    if curr_phys_addr =? end_ then mret (inr tt)
    else
      let '(writable, executable) := rights curr_phys_addr in
      _ ← map_next (Z.shiftr curr_phys_addr 12) writable executable;
      mret (inl (u64 (curr_phys_addr + PAGE_SIZE)))) start_.

(** The memory entries; the address is not extended here. *)
Fixpoint map_memory_entries (n : nat) (allocated_phys_addr : Z) : UM Z :=
  match n with
  | O => mret allocated_phys_addr
  | S n =>
      a ← kernel_space;
      _ ← MAP_PAGE (as_current_address a) (Z.shiftr allocated_phys_addr 12) true false;
      _ ← next_address;
      map_memory_entries n (u64 (allocated_phys_addr + PAGE_SIZE))
  end.

Section start.
Context `{!MemoryEntries}.

Definition pool_entry (ptr virt_addr phys_page : Z) : MappingEntry :=
  {| me_ptr := ptr; me_virt_addr := wrap 36 (Z.shiftr virt_addr 12); me_phys_addr := wrap 38 phys_page |}.

Definition push_pool (m : MappingEntry) : UM unit :=
  on_kmem (modify_paging (λ g, with_page_pool
    {| pp_count := pp_count (pg_page_pool g); pp_head := m :: pp_head (pg_page_pool g) |} g)).

Fixpoint start_page_pool (n : nat) (allocated_phys_addr : Z) : UM Z :=
  match n with
  | O => mret allocated_phys_addr
  | S n =>
      virt_addr ← map_next (Z.shiftr allocated_phys_addr 12) true false;
      ptr ← on_kmem get_memory_entry;
      _ ← push_pool (pool_entry ptr virt_addr (Z.shiftr allocated_phys_addr 12));
      start_page_pool n (u64 (allocated_phys_addr + PAGE_SIZE))
  end.

(** A page of entries gets an address and a node of the entry map of its level. *)
Definition map_entries_page (level table index virt_addr : Z) : UM unit :=
  e ← read_word table index;
  _ ← MAP_PAGE virt_addr (phys_addr e) true false;
  ptr ← on_kmem get_memory_entry;
  e ← read_word table index;
  on_kmem (push_mapping g_kernel_space level (pool_entry ptr virt_addr (phys_addr e))).

Fixpoint map_pts (n : nat) (pd j : Z) : UM unit :=
  match n with
  | O => mret tt
  | S n =>
      virt_addr ← next_address;
      _ ← map_entries_page PT pd j virt_addr;
      map_pts n pd (j + 1)
  end.

Fixpoint map_pds (n : nat) (i curr_pt_count : Z) : UM unit :=
  match n with
  | O => mret tt
  | S n =>
      addr ← next_address;
      a ← kernel_space;
      _ ← map_entries_page PD (as_pdp a) i (SIGN_EXT_ADDR addr);
      e ← read_word (as_pdp a) i;
      _ ← map_pts (Z.to_nat (MIN curr_pt_count 512)) (page_address e) 0;
      map_pds n (i + 1) (u64 (curr_pt_count - 512))
  end.

Definition map_page_entries (pds pts : Z) : UM unit :=
  a ← kernel_space;
  virt_addr ← map_next (Z.shiftr (as_pdp a) 12) true false;
  _ ← update_space (set_pdp virt_addr);
  map_pds (Z.to_nat pds) 0 pts.

(** ** initialize_paging

    The symbols of the linker script, at the addresses the kernel runs at. *)
Context (data_start data_end rodata_start rodata_end : Z).

(** Everything from the first tables to the second write of cr3; returns the virtual
    address of the frame allocator's memory. *)
Definition start_tables (uefi_pml4 : list Z) (kernel_phys_addr kernel_size fa_phys_addr fa_pages
    allocated_phys_addr pds pts : Z) : UM Z :=
  allocated_phys_addr ← build_tables uefi_pml4 allocated_phys_addr pds pts;
  (* Map kernel into virtual memory *)
  _ ← map_pages (S (Z.to_nat (kernel_size / PAGE_SIZE)))
        (kernel_page_rights data_start data_end rodata_start rodata_end)
        kernel_phys_addr (u64 (kernel_phys_addr + kernel_size));
  (* Map memory entries into virtual memory *)
  a ← kernel_space;
  let memory_entries_virt_addr := SIGN_EXT_ADDR (as_current_address a) in
  allocated_phys_addr ← map_memory_entries (Z.to_nat (memory_entries_size / PAGE_SIZE)) allocated_phys_addr;
  _ ← load_cr3;
  _ ← on_kmem (EntryPool.fill_memory_entry_pool memory_entries_virt_addr (memory_entries_size / PAGE_SIZE));
  (* Initialize page pool *)
  _ ← start_page_pool (Z.to_nat (starting_pool_size / PAGE_SIZE)) allocated_phys_addr;
  _ ← on_kmem (Paging.set_pool_count (λ c, c + starting_pool_size / PAGE_SIZE));
  (* Map frame allocator memory into virtual memory *)
  a ← kernel_space;
  let frame_allocator_virt_addr := SIGN_EXT_ADDR (as_current_address a) in
  _ ← map_pages (S (Z.to_nat fa_pages)) (λ _, (true, false)) fa_phys_addr (u64 (fa_phys_addr + u64 (fa_pages * PAGE_SIZE)));
  (* Map page entries into virtual memory *)
  _ ← map_page_entries pds pts;
  _ ← load_cr3;
  mret frame_allocator_virt_addr.

(** From here on a page of entries is known by the virtual address it has got: the pages
    of the pool and of both entry maps, and the first table. *)
Definition entry_pages (s : paging_setup) : list Z :=
  let g := km_paging (pu_kmem s) in
  match pg_spaces g !! g_kernel_space with
  | Some a => as_pdp a :: (mapping_ptr <$> concat (as_entry_maps a) ++ pp_head (pg_page_pool g))
  | None => []
  end.

Definition page_at (s : paging_setup) (addr : Z) : option (list Z) := page ← resolve s addr; pu_pages s !! page.

Definition by_virtual_address (s : paging_setup) : gmap Z (list Z) :=
  list_to_map (omap (λ v, t ← page_at s v; Some (v, t)) (entry_pages s)).

Definition tables_in_use : UM unit :=
  modify (λ s, {| pu_kmem := set_paging (with_tables (by_virtual_address s) (km_paging (pu_kmem s))) (pu_kmem s);
                  pu_pages := pu_pages s; pu_active := pu_active s |}).

Definition with_execute_disable (b : bool) (g : PagingState) : PagingState :=
  {| pg_spaces := pg_spaces g; pg_free_nodes := pg_free_nodes g; pg_tables := pg_tables g;
     pg_page_pool := pg_page_pool g; pg_pml4 := pg_pml4 g; pg_execute_disable := b;
     pg_invalidated := pg_invalidated g |}.

Definition pure_result {A} (m : M unit A) : UM A :=
  match m tt with Ok (a, _) => mret a | Fault f => throw f end.

(** [edx] is what CPUID returns, [uefi_pml4] the table the firmware has set,
    [null_descriptor_end] as in FrameInit.v. The memory map is written in place: what is
    left of it is returned with the kernel's virtual address. *)
Definition initialize_paging (edx : Z) (uefi_pml4 : list Z) (null_descriptor_end : result Z)
    (uefi_memory_map : list UEFIMemoryDescriptor) (kernel_phys_addr kernel_size : Z)
    : UM (Z * list UEFIMemoryDescriptor) :=
  _ ← on_kmem (modify_paging (with_execute_disable (execute_disable_supported edx)));
  '(fa_phys_addr, fa_pages, entry_pool_pages, uefi_memory_map) ← on_kmem (alloc_frame_allocator_memory uefi_memory_map);
  memory_size ← on_kmem get_memory_size;
  '(allocated_phys_addr, pds, pts, uefi_memory_map) ←
    pure_result (initial_tables kernel_size fa_pages memory_size uefi_memory_map);
  frame_allocator_virt_addr ←
    start_tables uefi_pml4 kernel_phys_addr kernel_size fa_phys_addr fa_pages allocated_phys_addr pds pts;
  _ ← tables_in_use;
  _ ← on_kmem (initialize_frame_allocator null_descriptor_end frame_allocator_virt_addr uefi_memory_map entry_pool_pages);
  mret (SIGN_EXT_ADDR KERNEL_OFFSET, uefi_memory_map).

(** ** initialize_memory *)

Abbreviation IM := (M (paging_setup * Slab.SlabAllocator)).

Definition on_paging {A} (m : UM A) : IM A := λ '(s, sa),
  match m s with Ok (r, s) => Ok (r, (s, sa)) | Fault f => Fault f end.

(** One descriptor: the memory's size, and the kernel's address and size. *)
Definition measure_step (st : Z * option Z * Z) (desc : UEFIMemoryDescriptor) : Z * option Z * Z :=
  let '(memory_size, kernel_phys_addr, kernel_size) := st in
  let high_addr := md_end desc in
  let memory_size := if memory_size <? high_addr then high_addr else memory_size in
  if bool_decide (md_type desc = EfiLoaderCode)
  then (memory_size, Some (md_physical_start desc), u64 (md_num_pages desc * PAGE_SIZE))
  else (memory_size, kernel_phys_addr, kernel_size).

(** Returns [*kernel_phys_addr], [*kernel_virt_addr] and the memory map as it is left. *)
Definition initialize_memory (edx : Z) (uefi_pml4 : list Z) (null_descriptor_end : result Z)
    (uefi_memory_map : list UEFIMemoryDescriptor) : IM (Z * Z * list UEFIMemoryDescriptor) :=
  memory_size ← on_paging (on_kmem get_memory_size);
  let '(memory_size, kernel_phys_addr, kernel_size) := foldl measure_step (memory_size, None, 0) uefi_memory_map in
  _ ← on_paging (on_kmem (modify (set_memory_size memory_size)));
  _ ← kernel_assert (negb (kernel_size =? 0)) "Could not find kernel address";
  kernel_phys_addr ← of_option OutOfBounds kernel_phys_addr;
  '(kernel_virt_addr, uefi_memory_map) ← on_paging (initialize_paging edx uefi_pml4 null_descriptor_end uefi_memory_map kernel_phys_addr kernel_size);
  _ ← Slab.initialize_slab_allocator;
  mret (kernel_phys_addr, kernel_virt_addr, uefi_memory_map).
End start.
End PagingStart.
