(* ===== verification/PagingStartProofs.v ===== *)
(** What [initialize_paging] leaves: page tables that meet the invariant of
    PagingInvariant.v, which every theorem on page tables starts from, and translate
    exactly the pages that were mapped. *)
From stdpp Require Import list_numbers.
From S2P Require Import Prelude Util MemState EntryPool FrameAllocator PageEntry AddressSpace Paging PagingInvariant PagingProofs PagingGrowth PagingKernel PagingInit PagingStart.

Module PagingStartProofs.
Import Util Mem PageEntry AddressSpace Paging PagingInvariant PagingProofs PagingGrowth PagingKernel PagingInit PagingStart.
Implicit Types s : paging_setup.

(** ** Addresses *)

(** The [k]-th page of the kernel's address space, before its address is extended. *)
Definition kaddr (k : Z) : Z := KERNEL_OFFSET + 4096 * k.
Definition kpage (k : Z) : Z := kaddr k + (2 ^ 64 - 2 ^ 48).

Lemma sign_ext_kaddr k : 0 ≤ k < 2 ^ 27 → SIGN_EXT_ADDR (kaddr k) = kpage k.
Proof.
  intros Hk. unfold kpage. assert (2 ^ 47 ≤ kaddr k < 2 ^ 48) as H by (unfold kaddr; change KERNEL_OFFSET with (480 * 2 ^ 39); lia).
  rewrite sign_ext_eq by lia. by replace (kaddr k <? 2 ^ 47) with false by lia.
Qed.

(** An address of the [k]-th page, extended or not. *)
Definition in_kpage (v k : Z) : Prop := page_of v = k ∧ get_bits 39 9 v = KERNEL_PML4_OFFSET.

Lemma kaddr_in_kpage k off b : 0 ≤ k < 2 ^ 18 → 0 ≤ off < 4096 → in_kpage (kaddr k + Z.b2z b * (2 ^ 64 - 2 ^ 48) + off) k.
Proof.
  intros Hk Ho. unfold in_kpage, page_of, kaddr. change KERNEL_OFFSET with (480 * 2 ^ 39). change KERNEL_PML4_OFFSET with 480. split.
  - replace ((480 * 2 ^ 39 + 4096 * k + Z.b2z b * (2 ^ 64 - 2 ^ 48) + off) / 4096)
      with (k + (480 + Z.b2z b * (2 ^ 25 - 2 ^ 9)) * 2 ^ 27) by (apply Z.div_unique with off; lia).
    rewrite Z.mod_add, Z.mod_small by lia. done.
  - rewrite get_bits_div by lia. unfold wrap.
    replace ((480 * 2 ^ 39 + 4096 * k + Z.b2z b * (2 ^ 64 - 2 ^ 48) + off) / 2 ^ 39) with (480 + (Z.b2z b * (2 ^ 16 - 1)) * 2 ^ 9)
      by (apply Z.div_unique with (4096 * k + off); lia).
    rewrite Z.mod_add by lia. done.
Qed.

Lemma kpage_in k : 0 ≤ k < 2 ^ 18 → in_kpage (kpage k) k.
Proof. intros Hk. pose proof (kaddr_in_kpage k 0 true Hk ltac:(lia)) as H. unfold kpage. cbn [Z.b2z] in H. by rewrite Z.mul_1_l, Z.add_0_r in H. Qed.
Lemma kaddr_in k : 0 ≤ k < 2 ^ 18 → in_kpage (kaddr k) k.
Proof. intros Hk. pose proof (kaddr_in_kpage k 0 false Hk ltac:(lia)) as H. cbn [Z.b2z] in H. by rewrite Z.mul_0_l, !Z.add_0_r in H. Qed.

Lemma in_kpage_index v k :
  in_kpage v k → 0 ≤ k < 2 ^ 18 →
  GET_LEVEL_INDEX v PDP = 0 ∧ GET_LEVEL_INDEX v PD = k / 512 ∧ GET_LEVEL_INDEX v PT = k mod 512.
Proof.
  intros [E _] Hk. rewrite indices_page in E.
  pose proof (level_index_range v PDP ltac:(done)). pose proof (level_index_range v PD ltac:(done)). pose proof (level_index_range v PT ltac:(done)).
  assert (GET_LEVEL_INDEX v PDP = 0) as E0 by lia. rewrite E0 in E. split; [done|].
  split; [apply Z.div_unique with (GET_LEVEL_INDEX v PT); lia|apply Z.mod_unique with (GET_LEVEL_INDEX v PD); lia].
Qed.

(** ** Entries *)

Lemma link_entry_page a : (4096 | a) → 0 ≤ a < 2 ^ 52 → present (link_entry a 0) = true ∧ phys_addr (link_entry a 0) = a / 4096.
Proof.
  intros _ Ha. unfold link_entry. entry_simpl. split; [done|]. rewrite Z.shiftr_div_pow2 by lia. change (2 ^ 12) with 4096.
  apply wrap_small. split; [apply Z.div_pos; lia|apply Z.div_lt_upper_bound; lia].
Qed.

Lemma start_entry_fields nx page w x :
  0 ≤ page < 2 ^ 40 → let e := start_entry nx page w x 0 in
  present e = true ∧ phys_addr e = page ∧ write e = w ∧ execute_disable e = (negb x && nx).
Proof.
  intros Hp. cbv zeta. unfold start_entry. entry_simpl. split_and!; [done| |by destruct w|by destruct x, nx].
  by apply wrap_small.
Qed.

Lemma page_address_eq e q : phys_addr e = q → page_address e = 4096 * q.
Proof. intros <-. unfold page_address. rewrite Z.shiftl_mul_pow2 by lia. lia. Qed.

(** ** Memory *)

Lemma resolve_low s a : 0 ≤ a < KERNEL_OFFSET → resolve s a = Some a.
Proof.
  change KERNEL_OFFSET with (480 * 2 ^ 39). intros Ha. unfold resolve.
  replace (get_bits 39 9 a =? KERNEL_PML4_OFFSET) with false; [by rewrite andb_false_r|].
  symmetry. apply Z.eqb_neq. rewrite get_bits_div by lia. change KERNEL_PML4_OFFSET with 480.
  assert (0 ≤ a / 2 ^ 39 < 480) by (split; [apply Z.div_pos; lia|apply Z.div_lt_upper_bound; lia]). rewrite wrap_small; lia.
Qed.

Lemma wp_read_word ptr i page t e (Q : Z → paging_setup → Prop) s :
  resolve s ptr = Some page → pu_pages s !! page = Some t → lookupZ t i = Some e → Q e s → wp (read_word ptr i) Q s.
Proof. intros Hr Hp Hl HQ. unfold read_word. wp_step. wp_step. wp_step. wp_step; [exact Hr|]. wp_step. wp_step. wp_step. wp_step; [exact Hp|]. wp_step; [exact Hl|done]. Qed.

Definition with_pages (m : gmap Z (list Z)) s : paging_setup := {| pu_kmem := pu_kmem s; pu_pages := m; pu_active := pu_active s |}.
Definition with_kmem (k : kmem) s : paging_setup := {| pu_kmem := k; pu_pages := pu_pages s; pu_active := pu_active s |}.

Lemma wp_update_word ptr i f page t e (Q : unit → paging_setup → Prop) s :
  resolve s ptr = Some page → pu_pages s !! page = Some t → lookupZ t i = Some e →
  Q tt (with_pages (<[page := insertZ i (f e) t]> (pu_pages s)) s) → wp (update_word ptr i f) Q s.
Proof.
  intros Hr Hp Hl HQ. unfold update_word. wp_step. wp_step. wp_step. wp_step; [exact Hr|]. wp_step. wp_step. wp_step. wp_step; [exact Hp|].
  wp_step. wp_step; [exact Hl|]. wp_step. exact HQ.
Qed.

Lemma wp_on_kmem {A} (m : KM A) (Q : A → paging_setup → Prop) s :
  wp m (λ r k, Q r (with_kmem k s)) (pu_kmem s) → wp (on_kmem m) Q s.
Proof. intros (r & k & E & HQ). exists r, (with_kmem k s). unfold on_kmem. by rewrite E. Qed.

(** ** The pages of the kernel's address space

    [p] is the first page set aside, [n] the page tables, [ks] and [fs] the pages of the
    kernel and of the frame allocator, from the pages [kp] and [fp] on. *)
Section layout.
Context (p n ks fs kp fp : Z) (nx : bool) (rights : Z → bool * bool).

(** The pages in the order in which they are mapped: the kernel; the memory entries and the
    pages of the pool, behind the tables; the frame allocator; the tables. *)
Definition page_no (k : Z) : Z :=
  if k <? ks then kp + k
  else if k <? ks + 21 then p + 2 + n + (k - ks)
  else if k <? ks + 21 + fs then fp + (k - (ks + 21))
  else p + (k - (ks + 21 + fs)).
Definition rights_of (k : Z) : bool * bool := if k <? ks then rights (4096 * (kp + k)) else (true, false).
Definition final_entry (k : Z) : Z := start_entry nx (page_no k) (rights_of k).1 (rights_of k).2 0.
Definition total_pages : Z := ks + 23 + fs + n.

Hypothesis Hn : 1 ≤ n ≤ 216.
Hypothesis Hks : 0 ≤ ks.
Hypothesis Hfs : 0 ≤ fs.
Hypothesis Hfit : total_pages ≤ 512 * n.
Hypothesis Hp : 0 < p ∧ p + n + 23 < 2 ^ 35.
Hypothesis Hkp : 0 ≤ kp ∧ kp + ks < 2 ^ 35.
Hypothesis Hfp : 0 ≤ fp ∧ fp + fs < 2 ^ 35.

Lemma page_no_range k : 0 ≤ k < total_pages → 0 ≤ page_no k < 2 ^ 36.
Proof using All.
  intros Hk. unfold page_no, total_pages in *.
  destruct (Z.ltb_spec k ks), (Z.ltb_spec k (ks + 21)), (Z.ltb_spec k (ks + 21 + fs)); lia.
Qed.

Lemma final_entry_fields k :
  0 ≤ k < total_pages → present (final_entry k) = true ∧ phys_addr (final_entry k) = page_no k ∧
  write (final_entry k) = (rights_of k).1 ∧ execute_disable (final_entry k) = (negb (rights_of k).2 && nx).
Proof using All. intros Hk. pose proof (page_no_range k Hk). by apply start_entry_fields; lia. Qed.

(** The tables when [cur] pages are mapped. *)
Record tables (cur : Z) (m : gmap Z (list Z)) : Prop := {
  tb_pdp : m !! (4096 * p) = Some (insertZ 0 (link_entry (4096 * (p + 1)) 0) (replicate 512 0));
  tb_pd : ∃ t, m !! (4096 * (p + 1)) = Some t ∧ length t = 512%nat ∧
    ∀ j, 0 ≤ j < 512 → lookupZ t j = Some (if j <? n then link_entry (4096 * (p + 2 + j)) 0 else 0);
  tb_pt : ∀ j, 0 ≤ j < n → ∃ t, m !! (4096 * (p + 2 + j)) = Some t ∧ length t = 512%nat ∧
    ∀ i, 0 ≤ i < 512 → lookupZ t i = Some (if j * 512 + i <? cur then final_entry (j * 512 + i) else 0);
}.

Lemma link_page q : 0 ≤ q < 2 ^ 36 → present (link_entry (4096 * q) 0) = true ∧ phys_addr (link_entry (4096 * q) 0) = q.
Proof.
  intros Hq. destruct (link_entry_page (4096 * q)) as [H1 H2]; [by exists q; lia|lia|]. split; [done|].
  rewrite H2, Z.mul_comm. by apply Z.div_mul.
Qed.

Lemma tables_pdp cur m : tables cur m → word m (4096 * p) 0 = Some (link_entry (4096 * (p + 1)) 0).
Proof. intros [H _ _]. unfold word. rewrite H. cbn. done. Qed.

Lemma tables_pd cur m j : tables cur m → 0 ≤ j < n → word m (4096 * (p + 1)) j = Some (link_entry (4096 * (p + 2 + j)) 0).
Proof using Hn.
  intros [_ (t & H & _ & Ht) _] Hj. unfold word. rewrite H. cbn. rewrite Ht by lia. by replace (j <? n) with true by lia.
Qed.

Lemma tables_pt cur m k :
  tables cur m → 0 ≤ k < 512 * n →
  word m (4096 * (p + 2 + k / 512)) (k mod 512) = Some (if k <? cur then final_entry k else 0).
Proof using Hn.
  intros [_ _ Hpt] Hk. destruct (Hpt (k / 512)) as (t & H & _ & Ht).
  { split; [apply Z.div_pos; lia|apply Z.div_lt_upper_bound; lia]. }
  unfold word. rewrite H. cbn. rewrite Ht by (apply Z.mod_pos_bound; lia).
  by replace (k / 512 * 512 + k mod 512) with k by (rewrite (Z.div_mod k 512) at 1; lia).
Qed.

(** The entry of a page is stored. *)
Lemma tables_step cur m :
  tables cur m → 0 ≤ cur < 512 * n →
  ∃ t, m !! (4096 * (p + 2 + cur / 512)) = Some t ∧ lookupZ t (cur mod 512) = Some 0 ∧
    tables (cur + 1) (<[4096 * (p + 2 + cur / 512) := insertZ (cur mod 512) (final_entry cur) t]> m).
Proof using Hn.
  intros [H1 (tpd & H2 & H2l & H2t) H3] Hc.
  assert (0 ≤ cur / 512 < n) as Hj by (split; [apply Z.div_pos; lia|apply Z.div_lt_upper_bound; lia]).
  pose proof (Z.mod_pos_bound cur 512 ltac:(lia)) as Hi. pose proof (Z.div_mod cur 512 ltac:(lia)) as Hdm.
  destruct (H3 _ Hj) as (t & Ht & Hl & Hlook). exists t. split; [done|]. split.
  { rewrite Hlook by done. by replace (cur / 512 * 512 + cur mod 512 <? cur) with false by lia. }
  split.
  - rewrite lookup_insert_ne by lia. exact H1.
  - exists tpd. rewrite lookup_insert_ne by lia. done.
  - intros j Hj'. destruct (Z.eq_dec j (cur / 512)) as [->|Hne].
    + exists (insertZ (cur mod 512) (final_entry cur) t). rewrite lookup_insert_eq, length_insertZ. split; [done|]. split; [done|].
      intros i Hi'. destruct (Z.eq_dec i (cur mod 512)) as [->|Hne].
      * rewrite lookupZ_insertZ_eq by (apply lookupZ_is_Some; lia).
        replace (_ <? cur + 1) with true by lia. do 2 f_equal. lia.
      * rewrite lookupZ_insertZ_ne, Hlook by done. f_equal.
        destruct (Z.ltb_spec (cur / 512 * 512 + i) cur), (Z.ltb_spec (cur / 512 * 512 + i) (cur + 1)); try done; lia.
    + destruct (H3 j Hj') as (t' & Ht' & Hl' & Hlook'). exists t'. rewrite lookup_insert_ne by lia. split; [done|]. split; [done|].
      intros i Hi'. rewrite Hlook' by done. f_equal.
      destruct (Z.ltb_spec (j * 512 + i) cur), (Z.ltb_spec (j * 512 + i) (cur + 1)); try done; lia.
Qed.

(** *** The kernel between two steps *)

Definition space_at (a pdp : Z) (maps : list (list MappingEntry)) : AddressSpace :=
  {| as_current_address := kaddr a; as_pdp_index := KERNEL_PML4_OFFSET; as_pdp := pdp; as_prot := 0;
     as_free_list := 0; as_entry_maps := maps |}.

(** The first table is reached at its physical address, later at the page it is mapped to. *)
Definition pdp_page : Z := ks + 21 + fs.
Definition pdp_ok (cur : Z) (active : bool) (pdp : Z) : Prop :=
  pdp = 4096 * p ∨ (active = true ∧ pdp = kpage pdp_page ∧ pdp_page < cur).

(** The first [cur] pages are mapped, the bump pointer is at page [a]. *)
Record stage (cur a pdp : Z) maps pool (count entries : Z) (active : bool) frames memory_size s : Prop := {
  sg_tables : tables cur (pu_pages s);
  sg_space : pg_spaces (km_paging (pu_kmem s)) !! g_kernel_space = Some (space_at a pdp maps);
  sg_pdp : pdp_ok cur active pdp;
  sg_pml4 : ∃ e, lookupZ (pg_pml4 (km_paging (pu_kmem s))) KERNEL_PML4_OFFSET = Some e ∧ present e = true ∧ phys_addr e = p;
  sg_nx : pg_execute_disable (km_paging (pu_kmem s)) = nx;
  sg_pool : pg_page_pool (km_paging (pu_kmem s)) = {| pp_count := count; pp_head := pool |};
  sg_entries : EntryPool.pool_wf 0 (pu_kmem s) ∧ ep_count (km_pool (pu_kmem s)) = entries;
  sg_active : pu_active s = active;
  sg_frames : km_frames (pu_kmem s) = frames ∧ km_memory_size (pu_kmem s) = memory_size;
}.

Lemma follow_present e q : present e = true → phys_addr e = q → follow e = Some (4096 * q).
Proof. intros H1 H2. unfold follow. rewrite H1. f_equal. by apply page_address_eq. Qed.

(** A page that is mapped is found by the processor. *)
Lemma resolve_kpage cur s e v k :
  tables cur (pu_pages s) → pu_active s = true →
  lookupZ (pg_pml4 (km_paging (pu_kmem s))) KERNEL_PML4_OFFSET = Some e → present e = true → phys_addr e = p →
  in_kpage v k → 0 ≤ k < cur → k < total_pages → resolve s v = Some (4096 * page_no k).
Proof using All.
  intros Ht Ha He Hpr Hph Hv Hk Hkt. assert (k < 512 * n) as Hkn by lia. assert (k < 2 ^ 18) as Hk18 by lia.
  destruct (in_kpage_index v k Hv ltac:(lia)) as (E1 & E2 & E3). destruct Hv as [_ Hv].
  destruct (link_page (p + 1)) as [L1 L2]; [lia|].
  assert (0 ≤ k / 512 < n) as Hj by (split; [apply Z.div_pos; lia|apply Z.div_lt_upper_bound; lia]).
  destruct (link_page (p + 2 + k / 512)) as [L3 L4]; [lia|]. destruct (final_entry_fields k) as (F1 & F2 & _); [lia|].
  unfold resolve. rewrite Ha, Hv, He, Z.eqb_refl, E1, E2, E3. cbn [andb mbind option_bind].
  rewrite (follow_present _ p) by done. cbn [mbind option_bind]. rewrite (tables_pdp cur) by done. cbn [mbind option_bind].
  rewrite (follow_present _ (p + 1)) by done. cbn [mbind option_bind]. rewrite (tables_pd cur) by done. cbn [mbind option_bind].
  rewrite (follow_present _ (p + 2 + k / 512)) by done. cbn [mbind option_bind]. rewrite (tables_pt cur) by (done || lia). cbn [mbind option_bind].
  replace (k <? cur) with true by lia. by rewrite (follow_present _ (page_no k)).
Qed.

Lemma page_no_pdp : page_no pdp_page = p.
Proof using Hks Hfs.
  unfold page_no, pdp_page. replace (_ <? ks) with false by lia. replace (_ <? ks + 21) with false by lia.
  replace (_ <? ks + 21 + fs) with false by lia. lia.
Qed.

Lemma low_page q : 0 ≤ q < 2 ^ 35 → 0 ≤ 4096 * q < KERNEL_OFFSET.
Proof. change KERNEL_OFFSET with (480 * 2 ^ 39). lia. Qed.

Section stage.
Context {cur a pdp : Z} {maps : list (list MappingEntry)} {pool : list MappingEntry} {count entries : Z} {active : bool}
  {frames : FrameAllocator} {memory_size : Z}.

Lemma resolve_pdp s : stage cur a pdp maps pool count entries active frames memory_size s → resolve s pdp = Some (4096 * p).
Proof using All.
  intros [Ht _ Hpdp (e & H1 & H2 & H3) _ _ _ Ha _]. destruct Hpdp as [-> | (-> & -> & Hlt)].
  - apply resolve_low, low_page. lia.
  - assert (0 ≤ pdp_page < total_pages) by (unfold pdp_page, total_pages; lia).
    rewrite (resolve_kpage cur s e (kpage pdp_page) pdp_page); try done; [by rewrite page_no_pdp|apply kpage_in; lia|lia|lia].
Qed.

Lemma wp_MAP_PAGE v q w x (Q : unit → paging_setup → Prop) s :
  stage cur a pdp maps pool count entries active frames memory_size s → 0 ≤ cur < total_pages → in_kpage v cur →
  q = page_no cur → (w, x) = rights_of cur →
  (∀ s', stage (cur + 1) a pdp maps pool count entries active frames memory_size s' → pu_kmem s' = pu_kmem s → Q tt s') →
  wp (MAP_PAGE v q w x) Q s.
Proof using All.
  intros Hs Hc Hv -> Hwx HQ. pose proof (resolve_pdp s Hs) as Hpdp. pose proof Hs as [Ht Hsp Hok Hpml Hnx Hpool Hent Hact Hfr].
  assert (cur < 512 * n) as Hcn by lia. assert (cur < 2 ^ 18) by lia.
  destruct (in_kpage_index v cur Hv ltac:(lia)) as (E1 & E2 & E3).
  assert (0 ≤ cur / 512 < n) as Hj by (split; [apply Z.div_pos; lia|apply Z.div_lt_upper_bound; lia]).
  destruct (link_page (p + 1)) as [_ L2]; [lia|]. destruct (link_page (p + 2 + cur / 512)) as [_ L4]; [lia|].
  destruct (tables_step cur _ Ht ltac:(lia)) as (tt' & Htt & H0 & Ht').
  unfold MAP_PAGE, kernel_space. rewrite E1, E2, E3. wp_step. apply wp_on_kmem. unfold get_space. wp_step. wp_step. wp_step; [exact Hsp|].
  wp_step. cbn [as_pdp space_at]. pose proof (tb_pdp _ _ Ht) as Hp0. eapply wp_read_word; [exact Hpdp|exact Hp0|reflexivity|].
  wp_step. rewrite (page_address_eq _ (p + 1)) by done. destruct (tb_pd _ _ Ht) as (tpd & Hpd & _ & Htpd).
  eapply wp_read_word; [apply resolve_low, low_page; lia|exact Hpd|by rewrite Htpd by lia|].
  replace (cur / 512 <? n) with true by lia. rewrite (page_address_eq _ (p + 2 + cur / 512)) by done.
  wp_step. apply wp_on_kmem. wp_step. cbn [pu_kmem with_kmem]. rewrite Hnx.
  eapply wp_update_word; [apply resolve_low, low_page; lia|exact Htt|exact H0|]. apply HQ; [|done].
  assert (start_entry nx (page_no cur) w x 0 = final_entry cur) as -> by (unfold final_entry; by rewrite <- Hwx).
  split; cbn [pu_pages pu_kmem pu_active with_pages with_kmem]; try done.
  destruct Hok as [->|(-> & -> & ?)]; [by left|right]. split_and!; [done|done|lia].
Qed.

Lemma wp_next_address (Q : Z → paging_setup → Prop) s :
  stage cur a pdp maps pool count entries active frames memory_size s → 0 ≤ a < 2 ^ 27 →
  (∀ s', stage cur (a + 1) pdp maps pool count entries active frames memory_size s' → Q (kaddr a) s') →
  wp next_address Q s.
Proof using All.
  intros [Ht Hsp Hok Hpml Hnx Hpool Hent Hact Hfr] Ha HQ. unfold next_address, update_space, kernel_space.
  wp_step. apply wp_on_kmem. unfold get_space. wp_step. wp_step. wp_step; [exact Hsp|]. wp_step. wp_step.
  apply wp_on_kmem. wp_step. wp_step. wp_step; [exact Hsp|]. apply wp_on_kmem. unfold set_space, modify_paging. wp_step. wp_step.
  cbn [as_current_address space_at]. apply HQ. split; cbn; try done.
  rewrite lookup_insert_eq. unfold space_at, set_current_address, kaddr. cbn. do 2 f_equal. change KERNEL_OFFSET with (480 * 2 ^ 39) in *.
  unfold PAGE_SIZE. rewrite wrap_small; lia.
Qed.

Lemma wp_load_cr3 (Q : unit → paging_setup → Prop) s :
  stage cur a pdp maps pool count entries active frames memory_size s →
  (∀ s', stage cur a pdp maps pool count entries true frames memory_size s' → pu_kmem s' = pu_kmem s → Q tt s') →
  wp load_cr3 Q s.
Proof.
  intros [Ht Hsp Hok Hpml Hnx Hpool Hent Hact Hfr] HQ. unfold load_cr3. wp_step. apply HQ; [|done]. split; try done.
  destruct Hok as [->|(-> & -> & ?)]; [by left|by right].
Qed.

(** A memory entry that is in the pool. *)
Lemma wp_take_entry alloc_pages (Q : Z → paging_setup → Prop) s :
  stage cur a pdp maps pool count entries active frames memory_size s → 20 ≤ entries < 2 ^ 63 →
  (∀ ptr s', stage cur a pdp maps pool count (entries - 1) active frames memory_size s' → Q ptr s') →
  wp (on_kmem (EntryPool.get_memory_entry alloc_pages)) Q s.
Proof.
  intros [Ht Hsp Hok Hpml Hnx Hpool [Hwf Hent] Hact Hfr] He HQ. apply wp_on_kmem. unfold EntryPool.pool_wf in *.
  destruct (ep_head (km_pool (pu_kmem s))) as [|ptr rest] eqn:E; [cbn in Hwf; lia|].
  eexists ptr, _. split; [apply (EntryPool.get_memory_entry_pop _ ptr rest); [unfold EntryPool.ENTRY_THRESHOLD; lia|done]|].
  apply HQ. split; cbn; try done. unfold EntryPool.pool_wf. cbn. cbn [length] in Hwf. lia.
Qed.

(** A new node at the head of the page pool. *)
Lemma wp_push_pool m (Q : unit → paging_setup → Prop) s :
  stage cur a pdp maps pool count entries active frames memory_size s →
  (∀ s', stage cur a pdp maps (m :: pool) count entries active frames memory_size s' → Q tt s') →
  wp (push_pool m) Q s.
Proof.
  intros [Ht Hsp Hok Hpml Hnx Hpool Hent Hact Hfr] HQ. unfold push_pool, modify_paging. apply wp_on_kmem. wp_step. apply HQ. split; cbn; try done.
  by rewrite Hpool.
Qed.

(** A new node at the head of the entry map of a level. *)
Lemma wp_push_mapping level l m (Q : unit → paging_setup → Prop) s :
  stage cur a pdp maps pool count entries active frames memory_size s → lookupZ maps level = Some l →
  (∀ s', stage cur a pdp (insertZ level (m :: l) maps) pool count entries active frames memory_size s' → Q tt s') →
  wp (on_kmem (push_mapping g_kernel_space level m)) Q s.
Proof.
  intros [Ht Hsp Hok Hpml Hnx Hpool Hent Hact Hfr] Hl HQ. apply wp_on_kmem. unfold push_mapping, get_space, set_space, modify_paging.
  wp_step. wp_step. wp_step. wp_step; [exact Hsp|]. wp_step. wp_step; [exact Hl|]. wp_step. apply HQ. split; cbn; try done.
  by rewrite lookup_insert_eq.
Qed.

(** The kernel's directory is reached at its virtual address from now on. *)
Lemma wp_move_pdp (Q : unit → paging_setup → Prop) s :
  stage cur a pdp maps pool count entries true frames memory_size s → pdp_page < cur →
  (∀ s', stage cur a (kpage pdp_page) maps pool count entries true frames memory_size s' → Q tt s') →
  wp (update_space (set_pdp (kpage pdp_page))) Q s.
Proof.
  intros [Ht Hsp Hok Hpml Hnx Hpool Hent Hact Hfr] Hc HQ. unfold update_space, kernel_space.
  wp_step. apply wp_on_kmem. unfold get_space. wp_step. wp_step. wp_step; [exact Hsp|]. apply wp_on_kmem. unfold set_space, modify_paging. wp_step.
  apply HQ. split; cbn; try done; [by rewrite lookup_insert_eq|by right].
Qed.
End stage.

(** A page at the next address. *)
Lemma wp_map_next {cur pdp maps pool count entries active frames memory_size} q w x (Q : Z → paging_setup → Prop) s :
  stage cur cur pdp maps pool count entries active frames memory_size s → 0 ≤ cur < total_pages →
  q = page_no cur → (w, x) = rights_of cur →
  (∀ s', stage (cur + 1) (cur + 1) pdp maps pool count entries active frames memory_size s' → Q (kpage cur) s') →
  wp (map_next q w x) Q s.
Proof using All.
  intros Hs Hc Hq Hwx HQ. assert (cur < 2 ^ 18) by lia. unfold map_next. wp_step. eapply wp_next_address; [exact Hs|lia|].
  intros s1 Hs1. cbv zeta. wp_step. rewrite sign_ext_kaddr by lia.
  eapply wp_MAP_PAGE; [exact Hs1|done|apply kpage_in; lia|done|done|]. intros s2 Hs2 _. wp_step. by apply HQ.
Qed.

(** [m] pages from page [cur] on are the pages from [q] on, with the rights [r]. *)
Definition run (cur m q : Z) (r : Z → bool * bool) : Prop :=
  ∀ i, 0 ≤ i < m → page_no (cur + i) = q + i ∧ rights_of (cur + i) = r (4096 * (q + i)).

Lemma run_next cur m q r : run cur m q r → run (cur + 1) (m - 1) (q + 1) r.
Proof. intros H i Hi. destruct (H (i + 1) ltac:(lia)) as [E1 E2]. replace (cur + 1 + i) with (cur + (i + 1)) by lia. replace (q + 1 + i) with (q + (i + 1)) by lia. done. Qed.

Lemma run_first cur m q r : run cur m q r → 0 < m → page_no cur = q ∧ rights_of cur = r (4096 * q).
Proof. intros H Hm. destruct (H 0 ltac:(lia)) as [E1 E2]. by rewrite !Z.add_0_r in *. Qed.

Lemma shiftr_page q : Z.shiftr (4096 * q) 12 = q.
Proof. rewrite Z.shiftr_div_pow2 by lia. change (2 ^ 12) with 4096. rewrite Z.mul_comm. by apply Z.div_mul. Qed.

Lemma wp_map_pages (m : nat) {cur pdp maps pool count entries active frames memory_size} fuel r q (Q : unit → paging_setup → Prop) s :
  stage cur cur pdp maps pool count entries active frames memory_size s → 0 ≤ cur → cur + Z.of_nat m ≤ total_pages →
  run cur (Z.of_nat m) q r → 0 ≤ q → q + Z.of_nat m < 2 ^ 51 → (m < fuel)%nat →
  (∀ s', stage (cur + Z.of_nat m) (cur + Z.of_nat m) pdp maps pool count entries active frames memory_size s' → Q tt s') →
  wp (map_pages fuel r (4096 * q) (4096 * (q + Z.of_nat m))) Q s.
Proof using All.
  revert cur fuel q s. induction m as [|m IH]; intros cur fuel q s Hs Hc Hcm Hrun Hq Hqm Hf HQ;
    (destruct fuel as [|fuel]; [lia|]); unfold map_pages; apply wp_loop_unroll.
  - change (Z.of_nat 0) with 0 in *. rewrite Z.add_0_r, Z.eqb_refl. wp_step. apply HQ. by rewrite Z.add_0_r.
  - replace (_ =? _) with false by blia. destruct (run_first _ _ _ _ Hrun ltac:(lia)) as [Hpage Hr].
    destruct (r (4096 * q)) as [w x] eqn:Er. wp_step. rewrite shiftr_page.
    eapply wp_map_next; [exact Hs|lia|done|done|]. intros s1 Hs1. wp_step. unfold PAGE_SIZE.
    replace (4096 * q + 0x1000) with (4096 * (q + 1)) by lia. rewrite wrap_small by lia.
    replace (q + Z.of_nat (S m)) with (q + 1 + Z.of_nat m) by lia.
    apply (IH (cur + 1) fuel (q + 1)); [done|lia|lia| |lia|lia|lia|].
    + replace (Z.of_nat m) with (Z.of_nat (S m) - 1) by lia. by apply run_next.
    + intros s2 Hs2. apply HQ. by replace (cur + Z.of_nat (S m)) with (cur + 1 + Z.of_nat m) by lia.
Qed.

(** *** The lists of pages of entries *)

(** The node for the page of entries that is the [k]-th page. *)
Definition entry_for (k : Z) (m : MappingEntry) : Prop :=
  me_virt_addr m = 480 * 2 ^ 27 + k ∧ me_phys_addr m = page_no k.

(** Nodes were put in front of [l] for the pages [k], ..., [k + m - 1]. *)
Definition pushed (k : Z) (m : nat) (l l' : list MappingEntry) : Prop :=
  ∃ new, l' = new ++ l ∧ Forall2 entry_for (reverse (seqZ k (Z.of_nat m))) new.

Lemma pushed_none k l : pushed k 0 l l.
Proof. exists []. split; [done|constructor]. Qed.

Lemma pushed_more k m x l l' : entry_for k x → pushed (k + 1) m (x :: l) l' → pushed k (S m) l l'.
Proof.
  intros Hx (new & -> & H). exists (new ++ [x]). split; [by rewrite <- app_assoc|].
  rewrite seqZ_cons by lia. replace (Z.pred (Z.of_nat (S m))) with (Z.of_nat m) by lia. rewrite reverse_cons.
  apply Forall2_app; [by replace (Z.succ k) with (k + 1) by lia|]. by constructor.
Qed.

Lemma wrap_page_number a : wrap 36 (Z.shiftr a 12) = a / 4096 mod 2 ^ 36.
Proof. rewrite Z.shiftr_div_pow2 by lia. done. Qed.

Lemma pool_entry_for ptr k (b : bool) v :
  v = kaddr k + Z.b2z b * (2 ^ 64 - 2 ^ 48) → 0 ≤ k < total_pages → entry_for k (pool_entry ptr v (page_no k)).
Proof using All.
  intros -> Hk. pose proof (page_no_range k Hk). split; cbn.
  - rewrite wrap_page_number. unfold kaddr. change KERNEL_OFFSET with (480 * 2 ^ 39).
    replace ((480 * 2 ^ 39 + 4096 * k + Z.b2z b * (2 ^ 64 - 2 ^ 48)) / 4096) with (480 * 2 ^ 27 + k + (Z.b2z b * (2 ^ 16 - 1)) * 2 ^ 36)
      by (apply Z.div_unique with 0; lia).
    rewrite Z.mod_add, Z.mod_small by lia. done.
  - apply wrap_small. lia.
Qed.

Lemma kpage_b2z k : kpage k = kaddr k + Z.b2z true * (2 ^ 64 - 2 ^ 48).
Proof. unfold kpage. cbn [Z.b2z]. lia. Qed.
Lemma kaddr_b2z k : kaddr k = kaddr k + Z.b2z false * (2 ^ 64 - 2 ^ 48).
Proof. cbn [Z.b2z]. lia. Qed.

(** *** The steps of [start_tables] *)

Lemma wp_map_memory_entries {cur pdp maps pool count entries active frames memory_size} q (Q : Z → paging_setup → Prop) s :
  stage cur cur pdp maps pool count entries active frames memory_size s → 0 ≤ cur < total_pages → q = page_no cur →
  rights_of cur = (true, false) →
  (∀ s', stage (cur + 1) (cur + 1) pdp maps pool count entries active frames memory_size s' → Q (4096 * (q + 1)) s') →
  wp (map_memory_entries 1 (4096 * q)) Q s.
Proof using All.
  intros Hs Hc Hq Hr HQ. assert (cur < 2 ^ 18) by lia. pose proof (page_no_range cur Hc). cbn [map_memory_entries].
  pose proof (sg_space _ _ _ _ _ _ _ _ _ _ _ Hs) as Hsp. unfold kernel_space. wp_step. apply wp_on_kmem. unfold get_space.
  wp_step. wp_step. wp_step; [exact Hsp|]. wp_step. cbn [as_current_address space_at]. rewrite shiftr_page. destruct s as [k m ac].
  eapply wp_MAP_PAGE; [exact Hs|done|apply kaddr_in; lia|done|by rewrite Hr|]. intros s1 Hs1 _. wp_step.
  eapply wp_next_address; [exact Hs1|lia|]. intros s2 Hs2. wp_step. unfold PAGE_SIZE.
  replace (u64 (4096 * q + 0x1000)) with (4096 * (q + 1)) by (rewrite wrap_small; lia). by apply HQ.
Qed.

Lemma wp_fill_entries {cur a pdp maps pool count active frames memory_size} k (Q : unit → paging_setup → Prop) s :
  stage cur a pdp maps pool count 0 active frames memory_size s → 0 ≤ k < 2 ^ 18 →
  (∀ s', stage cur a pdp maps pool count 256 active frames memory_size s' → Q tt s') →
  wp (on_kmem (EntryPool.fill_memory_entry_pool (kpage k) 1)) Q s.
Proof.
  intros [Ht Hsp Hok Hpml Hnx Hpool [Hwf Hent] Hact Hfr] Hk HQ. apply wp_on_kmem.
  assert (0 < kpage k ∧ kpage k + 1 * 4096 ≤ 2 ^ 64) as [H1 H2] by (unfold kpage, kaddr; change KERNEL_OFFSET with (480 * 2 ^ 39); lia).
  apply (EntryPool.wp_fill_memory_entry_pool 0); try done; [lia|lia|].
  intros po k' -> Hwf' Hh. apply HQ. split; cbn; try done. split; [done|].
  unfold EntryPool.pool_wf in *. cbn in Hwf'. rewrite Hwf', Hh, length_app.
  destruct (ep_head (km_pool (pu_kmem s))); [|cbn [length] in *; lia].
  unfold EntryPool.page_entries. rewrite length_reverse, length_fmap, length_seq. done.
Qed.

Section entries.
Context (alloc_pages : Z → Z → KM Z).
#[local] Instance entries_ : MemoryEntries := EntryPool.pool_entries alloc_pages.

Lemma wp_start_page_pool (m : nat) {cur pdp maps pool count entries active frames memory_size} q (Q : Z → paging_setup → Prop) s :
  stage cur cur pdp maps pool count entries active frames memory_size s → 0 ≤ cur → cur + Z.of_nat m ≤ total_pages →
  run cur (Z.of_nat m) q (λ _, (true, false)) → 0 ≤ q → q + Z.of_nat m < 2 ^ 51 → 20 + Z.of_nat m ≤ entries + 1 < 2 ^ 63 →
  (∀ pool' s', pushed cur m pool pool' →
    stage (cur + Z.of_nat m) (cur + Z.of_nat m) pdp maps pool' count (entries - Z.of_nat m) active frames memory_size s' →
    Q (4096 * (q + Z.of_nat m)) s') →
  wp (start_page_pool m (4096 * q)) Q s.
Proof using All.
  revert cur pool entries q s. induction m as [|m IH]; intros cur pool entries q s Hs Hc Hcm Hrun Hq Hqm He HQ; cbn [start_page_pool].
  - wp_step. specialize (HQ pool s (pushed_none cur pool)). change (Z.of_nat 0) with 0 in HQ. rewrite !Z.add_0_r, Z.sub_0_r in HQ. by apply HQ.
  - destruct (run_first _ _ _ _ Hrun ltac:(lia)) as [Hpage Hr]. wp_step. rewrite shiftr_page.
    eapply wp_map_next; [exact Hs|lia|done|done|]. intros s1 Hs1. wp_step.
    eapply wp_take_entry; [exact Hs1|lia|]. intros ptr s2 Hs2. wp_step. eapply wp_push_pool; [exact Hs2|]. intros s3 Hs3.
    unfold PAGE_SIZE. replace (4096 * q + 0x1000) with (4096 * (q + 1)) by lia. rewrite wrap_small by lia.
    eapply (IH (cur + 1) _ (entries - 1) (q + 1)); [exact Hs3|lia|lia| |lia|lia|lia|].
    + replace (Z.of_nat m) with (Z.of_nat (S m) - 1) by lia. by apply run_next.
    + intros pool' s4 Hpu Hs4. replace (q + 1 + Z.of_nat m) with (q + Z.of_nat (S m)) by lia. apply (HQ pool').
      * eapply pushed_more; [|exact Hpu]. rewrite <- Hpage. apply (pool_entry_for _ _ true); [apply kpage_b2z|lia].
      * replace (cur + Z.of_nat (S m)) with (cur + 1 + Z.of_nat m) by lia.
        by replace (entries - Z.of_nat (S m)) with (entries - 1 - Z.of_nat m) by lia.
Qed.

Lemma wp_set_pool_count {cur a pdp maps pool count entries active frames memory_size} d (Q : unit → paging_setup → Prop) s :
  stage cur a pdp maps pool count entries active frames memory_size s → 0 ≤ count + d < 2 ^ 64 →
  (∀ s', stage cur a pdp maps pool (count + d) entries active frames memory_size s' → Q tt s') →
  wp (on_kmem (set_pool_count (λ c, c + d))) Q s.
Proof.
  intros [Ht Hsp Hok Hpml Hnx Hpool Hent Hact Hfr] Hd HQ. apply wp_on_kmem. unfold set_pool_count, modify_paging. wp_step. apply HQ.
  split; cbn -[wrap]; try done. rewrite Hpool. cbn -[wrap]. by rewrite wrap_small.
Qed.

(** A word of a table that stays as it is. *)
Definition holds_word s (table index e : Z) : Prop :=
  ∃ page t, resolve s table = Some page ∧ pu_pages s !! page = Some t ∧ lookupZ t index = Some e.

Lemma wp_read_held table index e (Q : Z → paging_setup → Prop) s : holds_word s table index e → Q e s → wp (read_word table index) Q s.
Proof. intros (page & t & H1 & H2 & H3) HQ. by eapply wp_read_word. Qed.

Lemma word_of_pdp {cur a pdp maps pool count entries active frames memory_size} s :
  stage cur a pdp maps pool count entries active frames memory_size s → holds_word s pdp 0 (link_entry (4096 * (p + 1)) 0).
Proof using All. intros Hs. eexists _, _. split; [by eapply resolve_pdp|]. split; [apply (tb_pdp _ _ (sg_tables _ _ _ _ _ _ _ _ _ _ _ Hs))|reflexivity]. Qed.

Lemma word_of_pd {cur a pdp maps pool count entries active frames memory_size} j s :
  stage cur a pdp maps pool count entries active frames memory_size s → 0 ≤ j < n →
  holds_word s (4096 * (p + 1)) j (link_entry (4096 * (p + 2 + j)) 0).
Proof using All.
  intros Hs Hj. destruct (tb_pd _ _ (sg_tables _ _ _ _ _ _ _ _ _ _ _ Hs)) as (t & H & _ & Ht). exists (4096 * (p + 1)), t.
  split; [apply resolve_low, low_page; lia|]. split; [done|]. rewrite Ht by lia. by replace (j <? n) with true by lia.
Qed.

(** A page of entries is mapped and listed. *)
Lemma wp_map_entries_page {cur pdp maps pool count entries active frames memory_size} level l table index e b v (Q : unit → paging_setup → Prop) s :
  (∀ cur' entries' s', stage cur' (cur + 1) pdp maps pool count entries' active frames memory_size s' → holds_word s' table index e) →
  stage cur (cur + 1) pdp maps pool count entries active frames memory_size s → 0 ≤ cur < total_pages → 20 ≤ entries < 2 ^ 63 →
  lookupZ maps level = Some l → phys_addr e = page_no cur → rights_of cur = (true, false) →
  v = kaddr cur + Z.b2z b * (2 ^ 64 - 2 ^ 48) →
  (∀ m s', entry_for cur m →
     stage (cur + 1) (cur + 1) pdp (insertZ level (m :: l) maps) pool count (entries - 1) active frames memory_size s' → Q tt s') →
  wp (map_entries_page level table index v) Q s.
Proof using All.
  intros Hword Hs Hc He Hl Hph Hr Hv HQ. assert (cur < 2 ^ 18) by lia. unfold map_entries_page.
  wp_step. eapply wp_read_held; [by eapply Hword|]. wp_step. rewrite Hph.
  eapply wp_MAP_PAGE; [exact Hs|done| |done|by rewrite Hr|].
  { pose proof (kaddr_in_kpage cur 0 b ltac:(lia) ltac:(lia)) as Hin. rewrite Z.add_0_r in Hin. by rewrite Hv. }
  intros s1 Hs1 _. wp_step. eapply wp_take_entry; [exact Hs1|lia|]. intros ptr s2 Hs2.
  wp_step. eapply wp_read_held; [by eapply Hword|]. eapply wp_push_mapping; [exact Hs2|done|]. intros s3 Hs3.
  rewrite Hph in Hs3. eapply HQ; [|exact Hs3]. by eapply pool_entry_for.
Qed.

(** The pages of entries, the last ones that are mapped. *)
Lemma page_no_table j : 0 ≤ j → page_no (pdp_page + j) = p + j ∧ rights_of (pdp_page + j) = (true, false).
Proof using Hks Hfs.
  intros Hj. unfold page_no, rights_of, pdp_page. replace (_ <? ks) with false by lia. replace (_ <? ks + 21) with false by lia.
  replace (_ <? ks + 21 + fs) with false by lia. split; [lia|done].
Qed.

Lemma wp_map_pts (m : nat) {cur pdp mpt mpd pool count entries active frames memory_size} j (Q : unit → paging_setup → Prop) s :
  stage cur cur pdp [mpt; mpd] pool count entries active frames memory_size s → cur = pdp_page + 2 + j → 0 ≤ j →
  j + Z.of_nat m ≤ n → 20 + Z.of_nat m ≤ entries + 1 < 2 ^ 63 →
  (∀ mpt' s', pushed cur m mpt mpt' →
    stage (cur + Z.of_nat m) (cur + Z.of_nat m) pdp [mpt'; mpd] pool count (entries - Z.of_nat m) active frames memory_size s' → Q tt s') →
  wp (map_pts m (4096 * (p + 1)) j) Q s.
Proof using All.
  revert cur mpt entries j s. induction m as [|m IH]; intros cur mpt entries j s Hs Hc Hj Hjm He HQ; cbn [map_pts].
  - wp_step. specialize (HQ mpt s (pushed_none cur mpt)). change (Z.of_nat 0) with 0 in HQ. rewrite !Z.add_0_r, Z.sub_0_r in HQ. by apply HQ.
  - assert (0 ≤ cur < total_pages) as Hct by (unfold pdp_page, total_pages in *; lia).
    wp_step. eapply wp_next_address; [exact Hs|lia|]. intros s1 Hs1. wp_step.
    destruct (page_no_table (2 + j)) as [Hpage Hr]; [lia|]. replace (pdp_page + (2 + j)) with cur in * by lia.
    eapply (wp_map_entries_page PT mpt _ _ _ false); [intros; by eapply word_of_pd; [|lia]|exact Hs1|done|lia|done| |done|apply kaddr_b2z|].
    { destruct (link_page (p + 2 + j)) as [_ ->]; lia. }
    intros x s2 Hx Hs2. eapply IH; [exact Hs2|lia|lia|lia|lia|]. intros mpt' s3 Hpu Hs3. apply (HQ mpt').
    + by eapply pushed_more.
    + replace (cur + Z.of_nat (S m)) with (cur + 1 + Z.of_nat m) by lia.
      by replace (entries - Z.of_nat (S m)) with (entries - 1 - Z.of_nat m) by lia.
Qed.

Lemma wp_map_page_entries {pool count entries frames memory_size} (Q : unit → paging_setup → Prop) s :
  stage pdp_page pdp_page (4096 * p) [[]; []] pool count entries true frames memory_size s → 21 + n ≤ entries + 1 < 2 ^ 63 →
  (∀ mpt mpd s', pushed (pdp_page + 2) (Z.to_nat n) [] mpt → entry_for (pdp_page + 1) mpd →
    stage total_pages total_pages (kpage pdp_page) [mpt; [mpd]] pool count (entries - 1 - n) true frames memory_size s' → Q tt s') →
  wp (map_page_entries 1 n) Q s.
Proof using All.
  intros Hs He HQ. assert (0 ≤ pdp_page ∧ pdp_page + 2 + n = total_pages) as [H0 Htot] by (unfold pdp_page, total_pages; lia).
  unfold map_page_entries. change (Z.to_nat 1) with 1%nat. cbn [map_pds]. pose proof (sg_space _ _ _ _ _ _ _ _ _ _ _ Hs) as Hsp.
  destruct (page_no_table 0) as [Hpage0 Hr0]; [lia|]. rewrite !Z.add_0_r in *. destruct (page_no_table 1) as [Hpage1 Hr1]; [lia|].
  wp_step. apply wp_on_kmem. unfold get_space. wp_step. wp_step. wp_step; [exact Hsp|]. wp_step. cbn [as_pdp space_at]. rewrite shiftr_page. destruct s as [k m ac].
  eapply wp_map_next; [exact Hs|lia|done|done|]. intros s1 Hs1. wp_step.
  eapply wp_move_pdp; [exact Hs1|lia|]. intros s2 Hs2.
  wp_step. eapply wp_next_address; [exact Hs2|lia|]. intros s3 Hs3. pose proof (sg_space _ _ _ _ _ _ _ _ _ _ _ Hs3) as Hsp3.
  wp_step. apply wp_on_kmem. unfold get_space. wp_step. wp_step. wp_step; [exact Hsp3|]. cbn [as_pdp space_at]. destruct s3 as [k3 m3 ac3]. wp_step.
  rewrite sign_ext_kaddr by lia.
  eapply (wp_map_entries_page PD [] _ _ _ true); [intros; by eapply word_of_pdp|exact Hs3|lia|lia|done| |done|apply kpage_b2z|].
  { destruct (link_page (p + 1)) as [_ ->]; lia. }
  intros x s4 Hx Hs4. wp_step. eapply wp_read_held; [by eapply word_of_pdp|]. wp_step.
  destruct (link_page (p + 1)) as [_ L]; [lia|]. rewrite (page_address_eq _ (p + 1)) by done.
  replace (Z.to_nat (MIN n 512)) with (Z.to_nat n) by (unfold MIN; by replace (n <? 512) with true by lia).
  eapply wp_map_pts; [exact Hs4|lia|lia|lia|lia|]. intros mpt s5 Hpu Hs5. wp_step. apply (HQ mpt x).
  - by replace (pdp_page + 2) with (pdp_page + 1 + 1) by lia.
  - done.
  - replace (Z.of_nat (Z.to_nat n)) with n in Hs5 by lia. by replace (pdp_page + 1 + 1 + n) with total_pages in Hs5 by lia.
Qed.
End entries.

(** *** The first tables *)

Lemma zero_pages_keep k b m x : m !! x = Some (replicate 512 0) → zero_pages k b m !! x = Some (replicate 512 0).
Proof.
  revert b m. induction k as [|k IH]; intros b m H; cbn [zero_pages]; [done|]. apply IH.
  destruct (Z.eq_dec b x) as [->|Hne]; [by rewrite lookup_insert_eq|by rewrite lookup_insert_ne].
Qed.

Lemma zero_pages_in k b m i : 0 ≤ i < Z.of_nat k → zero_pages k b m !! (b + 4096 * i) = Some (replicate 512 0).
Proof.
  revert b m i. induction k as [|k IH]; intros b m i Hi; [lia|]. cbn [zero_pages]. unfold PAGE_SIZE. destruct (Z.eq_dec i 0) as [->|Hne].
  - apply zero_pages_keep. rewrite Z.mul_0_r, Z.add_0_r. apply lookup_insert_eq.
  - replace (b + 4096 * i) with (b + 0x1000 + 4096 * (i - 1)) by lia. apply IH. lia.
Qed.

(** The first [j] entries of the directory. *)
Definition pd_filled (j : Z) (t : list Z) : Prop :=
  length t = 512%nat ∧ ∀ i, 0 ≤ i < 512 → lookupZ t i = Some (if i <? j then link_entry (4096 * (p + 2 + i)) 0 else 0).

Lemma wp_fill_pd (m : nat) j t (Q : Z → paging_setup → Prop) s :
  pu_pages s !! (4096 * (p + 1)) = Some t → pd_filled j t → 0 ≤ j → j + Z.of_nat m ≤ n →
  (∀ t', pd_filled (j + Z.of_nat m) t' →
    Q (4096 * (p + 2 + j + Z.of_nat m)) (with_pages (<[4096 * (p + 1) := t']> (pu_pages s)) s)) →
  wp (fill_pd m (4096 * (p + 1)) j (4096 * (p + 2 + j))) Q s.
Proof using All.
  revert j t s. induction m as [|m IH]; intros j t s Hs Ht Hj Hjm HQ; cbn [fill_pd].
  - wp_step. specialize (HQ t). change (Z.of_nat 0) with 0 in HQ. rewrite !Z.add_0_r, insert_id in HQ by done. destruct s. by apply HQ.
  - pose proof Ht as [Hl Hlook]. wp_step.
    eapply wp_update_word; [apply resolve_low, low_page; lia|exact Hs|by rewrite Hlook by lia|]. replace (j <? j) with false by lia.
    unfold PAGE_SIZE. replace (4096 * (p + 2 + j) + 0x1000) with (4096 * (p + 2 + (j + 1))) by lia. rewrite wrap_small by lia.
    eapply IH; [cbn [pu_pages with_pages]; apply lookup_insert_eq| |lia|lia|].
    + split; [by rewrite length_insertZ|]. intros i Hi. destruct (Z.eq_dec j i) as [->|Hne].
      * rewrite lookupZ_insertZ_eq by (apply lookupZ_is_Some; lia). by replace (i <? i + 1) with true by lia.
      * rewrite lookupZ_insertZ_ne, Hlook by done. do 2 f_equal. destruct (Z.ltb_spec i j), (Z.ltb_spec i (j + 1)); done || lia.
    + intros t' Ht'. cbn [pu_pages with_pages]. rewrite insert_insert_eq.
      replace (p + 2 + (j + 1) + Z.of_nat m) with (p + 2 + j + Z.of_nat (S m)) by lia. unfold with_pages. cbn [pu_kmem pu_active].
      apply HQ. by replace (j + Z.of_nat (S m)) with (j + 1 + Z.of_nat m) by lia.
Qed.

(** What the kernel starts with, with the firmware's table [uefi_pml4]. *)
Record at_boot (uefi_pml4 : list Z) s : Prop := {
  ab_space : ∃ pdp, pg_spaces (km_paging (pu_kmem s)) !! g_kernel_space = Some (space_at 0 pdp [[]; []]);
  ab_pml4 : length (pg_pml4 (km_paging (pu_kmem s))) = 512%nat ∧ length uefi_pml4 = 512%nat;
  ab_nx : pg_execute_disable (km_paging (pu_kmem s)) = nx;
  ab_pool : pg_page_pool (km_paging (pu_kmem s)) = {| pp_count := 0; pp_head := [] |};
  ab_entries : km_pool (pu_kmem s) = {| ep_count := 0; ep_head := [] |};
  ab_active : pu_active s = false;
}.

Lemma link_any a e : 0 ≤ a < 2 ^ 52 → present (link_entry a e) = true ∧ phys_addr (link_entry a e) = a / 4096.
Proof.
  intros Ha. unfold link_entry. entry_simpl. split; [done|]. rewrite Z.shiftr_div_pow2 by lia. change (2 ^ 12) with 4096.
  apply wrap_small. split; [apply Z.div_pos; lia|apply Z.div_lt_upper_bound; lia].
Qed.

Lemma wp_build_tables uefi_pml4 (Q : Z → paging_setup → Prop) s :
  at_boot uefi_pml4 s →
  (∀ s', stage 0 0 (4096 * p) [[]; []] [] 0 0 false (km_frames (pu_kmem s)) (km_memory_size (pu_kmem s)) s' → Q (4096 * (p + 2 + n)) s') →
  wp (build_tables uefi_pml4 (4096 * p) 1 n) Q s.
Proof using All.
  intros [(pdp & Hsp) [Hl Hu] Hnx Hpool Hent Hact] HQ. unfold build_tables, clear_pages, update_pml4, update_space, kernel_space, modify_paging.
  wp_step. wp_step. wp_step. apply wp_on_kmem. wp_step. wp_step. wp_step. apply wp_on_kmem. unfold get_space. wp_step. wp_step.
  wp_step; [exact Hsp|]. apply wp_on_kmem. unfold set_space, modify_paging. wp_step. cbv zeta. wp_step. wp_step. wp_step. apply wp_on_kmem. wp_step.
  change (Z.to_nat 1) with 1%nat. cbn [fill_pdp]. wp_step. unfold kernel_space, get_space. apply wp_on_kmem. wp_step. wp_step. wp_step; [cbn; apply lookup_insert_eq|].
  cbn [as_pdp set_pdp]. unfold PAGE_SIZE. replace (u64 (4096 * p + 0x1000)) with (4096 * (p + 1)) by (rewrite wrap_small; lia).
  replace (u64 (4096 * (p + 1) + 0x1000)) with (4096 * (p + 2 + 0)) by (rewrite wrap_small; lia).
  replace (Z.to_nat (pages_to_allocate 1 n)) with (Z.to_nat (n + 23)).
  2:{ unfold pages_to_allocate. change ((starting_pool_size + memory_entries_size) / PAGE_SIZE) with 21. rewrite wrap_small; [f_equal; lia|lia]. }
  set (zs := zero_pages 1 (4096 * p) (zero_pages (Z.to_nat (n + 23)) (4096 * p) (pu_pages s))).
  assert (∀ i, 0 ≤ i < n + 23 → zs !! (4096 * (p + i)) = Some (replicate 512 0)) as Hzs.
  { intros i Hi. unfold zs. apply zero_pages_keep. replace (4096 * (p + i)) with (4096 * p + 4096 * i) by lia. apply zero_pages_in. lia. }
  pose proof (Hzs 0 ltac:(lia)) as Hz0. rewrite Z.add_0_r in Hz0. pose proof (Hzs 1 ltac:(lia)) as Hz1.
  wp_step. apply (wp_update_word _ _ _ (4096 * p) (replicate 512 0) 0); [apply resolve_low, low_page; lia|exact Hz0|by apply (lookup_zeros 0)|].
  wp_step. replace (Z.to_nat (MIN n 512)) with (Z.to_nat n) by (unfold MIN; by replace (n <? 512) with true by lia).
  apply (wp_fill_pd _ 0 (replicate 512 0)); [cbn [pu_pages with_pages]; rewrite lookup_insert_ne by lia; exact Hz1| |lia|lia|].
  { split; [done|]. intros i Hi. replace (i <? 0) with false by lia. by apply lookup_zeros. }
  intros t [Htl Ht]. replace (p + 2 + 0 + Z.of_nat (Z.to_nat n)) with (p + 2 + n) by lia. rewrite Z.add_0_l, Z2Nat.id in Ht by lia. wp_step. apply HQ.
  assert (∃ e, lookupZ (zip_with (λ u e, if present u then u else e) uefi_pml4 (pg_pml4 (km_paging (pu_kmem s)))) KERNEL_PML4_OFFSET = Some e) as [e He].
  { apply lookupZ_is_Some. rewrite length_zip_with. change KERNEL_PML4_OFFSET with 480. lia. }
  destruct (link_any (4096 * p) e) as [E1 E2]; [lia|].
  split; cbn [pu_pages pu_kmem pu_active with_pages with_kmem km_paging pg_spaces pg_pml4 set_paging with_pml4 with_spaces pg_execute_disable pg_page_pool km_pool]; try done.
  - fold zs. split.
    + rewrite lookup_insert_ne, lookup_insert_eq by lia. done.
    + exists t. by rewrite lookup_insert_eq.
    + intros j Hj. exists (replicate 512 0). rewrite !lookup_insert_ne by lia. replace (p + 2 + j) with (p + (2 + j)) by lia. split; [apply Hzs; lia|].
      split; [done|]. intros i Hi. replace (_ <? 0) with false by lia. by apply lookup_zeros.
  - by rewrite lookup_insert_eq.
  - by left.
  - unfold link_pml4, retain_identity_mapping. rewrite He. exists (link_entry (4096 * p) e). split; [|split; [done|]].
    + apply lookupZ_insertZ_eq. by eexists.
    + rewrite E2, Z.mul_comm. by apply Z.div_mul.
  - unfold EntryPool.pool_wf. cbn [set_paging km_pool]. by rewrite Hent.
Qed.

(** *** All of it *)

Context (alloc_pages : Z → Z → KM Z).
#[local] Instance start_entries : MemoryEntries := EntryPool.pool_entries alloc_pages.

(** Everything is mapped and the tables are the kernel's own. *)
Definition started frames memory_size s : Prop := ∃ mpt mpd pool,
  pushed (pdp_page + 2) (Z.to_nat n) [] mpt ∧ entry_for (pdp_page + 1) mpd ∧ pushed (ks + 1) 20 [] pool ∧
  stage total_pages total_pages (kpage pdp_page) [mpt; [mpd]] pool 20 (235 - n) true frames memory_size s.

Context (data_start data_end rodata_start rodata_end : Z).
Hypothesis Hrights : rights = kernel_page_rights data_start data_end rodata_start rodata_end.

Lemma wp_start_tables uefi_pml4 (Q : Z → paging_setup → Prop) s :
  at_boot uefi_pml4 s →
  (∀ s', started (km_frames (pu_kmem s)) (km_memory_size (pu_kmem s)) s' → Q (kpage (ks + 21)) s') →
  wp (start_tables data_start data_end rodata_start rodata_end uefi_pml4 (4096 * kp) (4096 * ks) (4096 * fp) fs (4096 * p) 1 n) Q s.
Proof using All.
  intros Hb HQ. unfold start_tables. rewrite <- Hrights. unfold PAGE_SIZE in *.
  wp_step. apply (wp_build_tables uefi_pml4); [done|]. intros s1 Hs1.
  assert (total_pages = pdp_page + 2 + n) as Htot by (unfold pdp_page, total_pages; lia). unfold pdp_page in Htot.
  wp_step. change 0x1000 with 4096 at 1. replace (4096 * ks / 4096) with ks by (rewrite Z.mul_comm, Z.div_mul; lia).
  replace (u64 (4096 * kp + 4096 * ks)) with (4096 * (kp + Z.of_nat (Z.to_nat ks))) by (rewrite wrap_small; lia).
  eapply (wp_map_pages (Z.to_nat ks)); [exact Hs1|lia|lia| |lia|lia|lia|].
  { intros i Hi. rewrite Z.add_0_l. unfold page_no, rights_of. by replace (i <? ks) with true by lia. }
  intros s2 Hs2. rewrite Z.add_0_l, Z2Nat.id in Hs2 by lia. pose proof (sg_space _ _ _ _ _ _ _ _ _ _ _ Hs2) as Hsp2.
  wp_step. unfold kernel_space, get_space. apply wp_on_kmem. wp_step. wp_step. wp_step; [exact Hsp2|]. cbv zeta. cbn [as_current_address space_at].
  rewrite sign_ext_kaddr by lia. destruct s2 as [k2 m2 a2]. wp_step. change (Z.to_nat (memory_entries_size / 0x1000)) with 1%nat.
  assert (∀ i, 0 ≤ i < 21 → page_no (ks + i) = p + 2 + n + i ∧ rights_of (ks + i) = (true, false)) as Hpool.
  { intros i Hi. unfold page_no, rights_of. replace (ks + i <? ks) with false by lia. replace (ks + i <? ks + 21) with true by lia. split; [lia|done]. }
  eapply wp_map_memory_entries; [exact Hs2|lia|destruct (Hpool 0) as [E _]; [lia|]; rewrite !Z.add_0_r in E; done|destruct (Hpool 0) as [_ E]; [lia|]; by rewrite Z.add_0_r in E|].
  intros s3 Hs3. wp_step. eapply wp_load_cr3; [exact Hs3|]. intros s4 Hs4 _. wp_step. change (memory_entries_size / 0x1000) with 1.
  eapply wp_fill_entries; [exact Hs4|lia|]. intros s5 Hs5. wp_step. change (Z.to_nat (starting_pool_size / 0x1000)) with 20%nat.
  eapply (wp_start_page_pool alloc_pages 20); [exact Hs5|lia|lia| |lia|lia|lia|].
  { intros i Hi. replace (ks + 1 + i) with (ks + (1 + i)) by lia. destruct (Hpool (1 + i)) as [E1 E2]; [lia|]. split; [lia|done]. }
  intros pool s6 Hpu Hs6. wp_step. change (starting_pool_size / 0x1000) with 20. eapply wp_set_pool_count; [exact Hs6|lia|]. intros s7 Hs7.
  change (Z.of_nat 20) with 20 in Hs7. replace (ks + 1 + 20) with (ks + 21) in Hs7 by lia. pose proof (sg_space _ _ _ _ _ _ _ _ _ _ _ Hs7) as Hsp7.
  wp_step. unfold kernel_space, get_space. apply wp_on_kmem. wp_step. wp_step. wp_step; [exact Hsp7|]. cbv zeta. cbn [as_current_address space_at].
  rewrite sign_ext_kaddr by lia. destruct s7 as [k7 m7 a7]. wp_step.
  replace (u64 (4096 * fp + u64 (fs * 0x1000))) with (4096 * (fp + Z.of_nat (Z.to_nat fs))).
  2:{ rewrite (wrap_small 64 (fs * _)) by lia. rewrite wrap_small by lia. lia. }
  eapply (wp_map_pages (Z.to_nat fs)); [exact Hs7|lia|lia| |lia|lia|lia|].
  { intros i Hi. unfold page_no, rights_of. replace (_ <? ks) with false by lia. replace (_ <? ks + 21) with false by lia.
    replace (_ <? ks + 21 + fs) with true by lia. split; [lia|done]. }
  intros s8 Hs8. replace (ks + 21 + Z.of_nat (Z.to_nat fs)) with pdp_page in Hs8 by (unfold pdp_page; lia). wp_step.
  eapply (wp_map_page_entries alloc_pages); [exact Hs8|lia|]. intros mpt mpd s9 Hpt Hpd Hs9. wp_step.
  eapply wp_load_cr3; [exact Hs9|]. intros s10 Hs10 _. wp_step. apply HQ. exists mpt, mpd, pool. split_and!; [done..|].
  by replace (256 - 20 - 1 - n) with (235 - n) in Hs10 by lia.
Qed.

(** ** The tree *)

Lemma mapping_ptr_for k m : entry_for k m → 0 ≤ k < 2 ^ 18 → mapping_ptr m = kpage k.
Proof.
  intros [E _] Hk. unfold mapping_ptr. rewrite E, Z.shiftl_mul_pow2 by lia. rewrite wrap_small by lia.
  rewrite <- sign_ext_kaddr by lia. f_equal. unfold kaddr. change KERNEL_OFFSET with (480 * 2 ^ 39). lia.
Qed.

Lemma kpage_inj k k' : kpage k = kpage k' → k = k'.
Proof. unfold kpage, kaddr. lia. Qed.

(** The page tables that were listed, by their index. *)
Lemma tables_listed k (m : nat) l :
  Forall2 entry_for (reverse (seqZ k (Z.of_nat m))) l →
  ∃ pts : gmap (Z * Z) MappingEntry,
    (∀ x, x ∈ l ↔ ∃ ij, pts !! ij = Some x) ∧
    (∀ ij x, pts !! ij = Some x → ∃ j, ij = (0, j) ∧ 0 ≤ j < Z.of_nat m ∧ entry_for (k + j) x) ∧
    ∀ j, 0 ≤ j < Z.of_nat m → is_Some (pts !! (0, j)).
Proof.
  revert l. induction m as [|m IH]; intros l Hl.
  - cbn in Hl. apply Forall2_nil_inv_l in Hl as ->. exists ∅. split_and!.
    + intros x. split; [by intros ?%not_elem_of_nil|by intros (ij & ?)].
    + by intros ij x.
    + intros j Hj. lia.
  - replace (Z.of_nat (S m)) with (Z.of_nat m + 1) in * by lia. rewrite seqZ_app, reverse_app in Hl by lia.
    rewrite (seqZ_cons (k + Z.of_nat m) 1) in Hl by lia. change (Z.pred 1) with 0 in Hl. rewrite seqZ_nil, reverse_singleton in Hl by lia. cbn [app] in Hl.
    apply Forall2_cons_inv_l in Hl as (x & l' & Hx & Hl & ->). destruct (IH l' Hl) as (pts & H1 & H2 & H3).
    assert (pts !! (0, Z.of_nat m) = None) as Hnone.
    { destruct (pts !! (0, Z.of_nat m)) as [y|] eqn:E; [|done]. destruct (H2 _ _ E) as (j & [= <-] & Hj & _). lia. }
    exists (<[(0, Z.of_nat m) := x]> pts). split_and!.
    + intros y. rewrite elem_of_cons, H1. split.
      * intros [->|[ij Hij]]; [exists (0, Z.of_nat m); by rewrite lookup_insert_eq|].
        exists ij. rewrite lookup_insert_ne; [done|]. intros <-. by rewrite Hnone in Hij.
      * intros [ij Hij]. destruct (decide ((0, Z.of_nat m) = ij)) as [<-|Hne]; [rewrite lookup_insert_eq in Hij; left; congruence|].
        rewrite lookup_insert_ne in Hij by done. right. eauto.
    + intros ij y Hij. destruct (decide ((0, Z.of_nat m) = ij)) as [<-|Hne].
      * rewrite lookup_insert_eq in Hij. injection Hij as <-. exists (Z.of_nat m). split; [done|]. split; [lia|done].
      * rewrite lookup_insert_ne in Hij by done. destruct (H2 _ _ Hij) as (j & -> & Hj & He). exists j. split; [done|]. split; [lia|done].
    + intros j Hj. destruct (Z.eq_dec j (Z.of_nat m)) as [->|Hne]; [rewrite lookup_insert_eq; by eexists|].
      rewrite lookup_insert_ne by congruence. apply H3. lia.
Qed.

Lemma list_to_map_omap {A} (f : Z → option A) l v :
  (list_to_map (omap (λ v, t ← f v; Some (v, t)) l) : gmap Z A) !! v = if decide (v ∈ l) then f v else None.
Proof.
  induction l as [|x l IH]; [by rewrite decide_False by apply not_elem_of_nil|]. cbn [omap list_omap].
  destruct (f x) as [t|] eqn:E; cbn [mbind option_bind].
  - cbn. destruct (Z.eq_dec x v) as [->|Hne].
    + rewrite lookup_insert_eq, decide_True by apply list_elem_of_here. done.
    + rewrite lookup_insert_ne, IH by done. destruct (decide (v ∈ l)) as [Hin|Hin].
      * by rewrite decide_True by by apply list_elem_of_further.
      * rewrite decide_False; [done|]. by intros [->|?]%elem_of_cons.
  - rewrite IH. destruct (decide (v ∈ l)) as [Hin|Hin].
    + by rewrite decide_True by by apply list_elem_of_further.
    + destruct (decide (v ∈ x :: l)) as [[->|?]%elem_of_cons|]; done.
Qed.

Lemma entries_fmap (f : MappingEntry → Z) (g : Z → Z) l ms :
  (∀ k m, k ∈ l → entry_for k m → f m = g k) → Forall2 entry_for l ms → f <$> ms = g <$> l.
Proof.
  intros H Hl. induction Hl as [|k m l ms Hkm _ IH]; [done|]. cbn. rewrite (H k m) by (done || apply list_elem_of_here).
  f_equal. apply IH. intros k' m' Hk'. apply H. by apply list_elem_of_further.
Qed.

(** The pages of entries and of the pool, by their place. *)
Definition table_pages : list Z := reverse (seqZ (pdp_page + 2) n) ++ [pdp_page + 1] ++ reverse (seqZ (ks + 1) 20).

Lemma table_pages_elem k : k ∈ table_pages ↔ pdp_page + 1 ≤ k < total_pages ∨ ks + 1 ≤ k < ks + 21.
Proof using Hn Hks Hfs.
  unfold table_pages. rewrite !elem_of_app, !elem_of_reverse, !elem_of_seqZ, list_elem_of_singleton.
  unfold pdp_page, total_pages. lia.
Qed.

Lemma table_pages_NoDup : NoDup (pdp_page :: table_pages).
Proof using Hn Hks Hfs.
  apply NoDup_cons. split; [rewrite table_pages_elem; unfold pdp_page; lia|]. unfold table_pages.
  apply NoDup_app. split; [rewrite reverse_Permutation; apply NoDup_seqZ|]. split.
  - intros k. rewrite elem_of_reverse, elem_of_seqZ, elem_of_app, list_elem_of_singleton, elem_of_reverse, elem_of_seqZ. unfold pdp_page. lia.
  - apply NoDup_app. split; [apply NoDup_singleton|]. split; [|rewrite reverse_Permutation; apply NoDup_seqZ].
    intros k. rewrite list_elem_of_singleton, elem_of_reverse, elem_of_seqZ. unfold pdp_page. lia.
Qed.

(** The pages from [p] on: each is mapped once at most. *)
Lemma table_pages_page_no k : k ∈ pdp_page :: table_pages →
  0 ≤ k < total_pages ∧ (page_no k = p + (k - pdp_page) ∧ pdp_page ≤ k ∨ page_no k = p + 2 + n + (k - ks) ∧ ks + 1 ≤ k < ks + 21).
Proof using Hn Hks Hfs.
  rewrite elem_of_cons, table_pages_elem. unfold page_no, pdp_page, total_pages. intros Hk.
  destruct (Z.ltb_spec k ks), (Z.ltb_spec k (ks + 21)), (Z.ltb_spec k (ks + 21 + fs)); lia.
Qed.

Lemma table_pages_ptr k m : k ∈ table_pages → entry_for k m → mapping_ptr m = kpage k.
Proof using Hn Hks Hfs Hfit.
  intros Hk Hm. apply mapping_ptr_for; [done|]. apply (list_elem_of_further _ pdp_page), table_pages_page_no in Hk as [? _]. lia.
Qed.

Section finished.
Context {frames : FrameAllocator} {memory_size : Z} {mpt pool : list MappingEntry} {mpd : MappingEntry} (s : paging_setup).
Context (Hpt : pushed (pdp_page + 2) (Z.to_nat n) [] mpt) (Hpd : entry_for (pdp_page + 1) mpd) (Hpo : pushed (ks + 1) 20 [] pool).
Context (Hs : stage total_pages total_pages (kpage pdp_page) [mpt; [mpd]] pool 20 (235 - n) true frames memory_size s).

Lemma pages_listed : Forall2 entry_for table_pages (mpt ++ [mpd] ++ pool).
Proof using All.
  destruct Hpt as (l1 & -> & H1), Hpo as (l2 & -> & H2). rewrite !app_nil_r. rewrite Z2Nat.id in H1 by lia.
  apply Forall2_app; [done|]. apply Forall2_app; [|done]. by constructor.
Qed.

Lemma resolve_mapped v k : in_kpage v k → 0 ≤ k < total_pages → resolve s v = Some (4096 * page_no k).
Proof using All.
  intros Hv Hk. destruct (sg_pml4 _ _ _ _ _ _ _ _ _ _ _ Hs) as (e & H1 & H2 & H3).
  apply (resolve_kpage total_pages s e); try done; [apply (sg_tables _ _ _ _ _ _ _ _ _ _ _ Hs)|apply (sg_active _ _ _ _ _ _ _ _ _ _ _ Hs)|lia].
Qed.

(** The pages of entries at their virtual addresses. *)
Lemma table_at k : k ∈ pdp_page :: table_pages → by_virtual_address s !! kpage k = pu_pages s !! (4096 * page_no k).
Proof using All.
  intros Hk. destruct (table_pages_page_no k Hk) as [Hkt _]. unfold by_virtual_address. rewrite list_to_map_omap, decide_True.
  - unfold page_at. rewrite (resolve_mapped _ k) by (done || apply kpage_in; lia). done.
  - unfold entry_pages. rewrite (sg_space _ _ _ _ _ _ _ _ _ _ _ Hs), (sg_pool _ _ _ _ _ _ _ _ _ _ _ Hs). cbn [as_pdp as_entry_maps space_at pp_head concat].
    rewrite app_nil_r, <- app_assoc. apply elem_of_cons in Hk as [->|Hk]; [apply list_elem_of_here|]. apply list_elem_of_further.
    rewrite (entries_fmap mapping_ptr kpage _ _ table_pages_ptr pages_listed).
    by apply list_elem_of_fmap_2.
Qed.

(** The pages of entries and of the pool are pairwise distinct pages of memory. *)
Lemma pages_apart :
  NoDup (phys_of (mpt ++ [mpd] ++ pool)) ∧ NoDup (kpage pdp_page :: (mapping_ptr <$> mpt ++ [mpd] ++ pool)) ∧
  ∀ m, m ∈ mpt ++ [mpd] ++ pool → mapping_ptr m ≠ 0 ∧ 0 < me_phys_addr m < 2 ^ 38.
Proof using All.
  pose proof pages_listed as Hl. pose proof table_pages_NoDup as Hnd. pose proof table_pages_ptr as Hptr. split_and!.
  - unfold phys_of. rewrite (entries_fmap me_phys_addr page_no _ _ (λ k m _ H, proj2 H) Hl). apply NoDup_cons in Hnd as [Hn1 Hnd].
    apply NoDup_fmap_2_strong; [|done]. intros k k' Hk Hk' E.
    apply (list_elem_of_further _ pdp_page), table_pages_page_no in Hk, Hk'. unfold pdp_page, total_pages in *. lia.
  - rewrite (entries_fmap mapping_ptr kpage _ _ Hptr Hl). rewrite <- fmap_cons. apply NoDup_fmap_2_strong; [|done].
    intros k k' _ _. apply kpage_inj.
  - intros m Hm. apply list_elem_of_lookup in Hm as [i Hi]. destruct (Forall2_lookup_r _ _ _ _ _ Hl Hi) as (k & Hk & Hkm).
    apply list_elem_of_lookup_2 in Hk. rewrite (Hptr k m) by done. destruct Hkm as [_ ->].
    apply (list_elem_of_further _ pdp_page) in Hk. destruct (table_pages_page_no k Hk) as [Hkt Hkp']. split.
    + unfold kpage, kaddr. change KERNEL_OFFSET with (480 * 2 ^ 39). lia.
    + pose proof (page_no_range k Hkt). unfold pdp_page in *. lia.
Qed.

Definition paging_of : PagingState := with_tables (by_virtual_address s) (km_paging (pu_kmem s)).

Lemma tree_at_start pts :
  (∀ x, x ∈ mpt ↔ ∃ ij, pts !! ij = Some x) →
  (∀ ij x, pts !! ij = Some x → ∃ j, ij = (0, j) ∧ 0 ≤ j < n ∧ entry_for (pdp_page + 2 + j) x) →
  (∀ j, 0 ≤ j < n → is_Some (pts !! (0, j))) →
  tree paging_of (space_at total_pages (kpage pdp_page) [mpt; [mpd]]) {[0 := mpd]} pts.
Proof using All.
  intros P1 P2 P3. pose proof pages_listed as Hl. pose proof (sg_tables _ _ _ _ _ _ _ _ _ _ _ Hs) as Ht. pose proof table_pages_NoDup as Hnd.
  pose proof table_pages_ptr as Hptr.
  assert (∀ k, 0 ≤ k < total_pages → kpage k ≠ 0) as Hnz by (intros k Hk; unfold kpage, kaddr; change KERNEL_OFFSET with (480 * 2 ^ 39); lia).
  assert (∀ j, 0 ≤ j < n → pdp_page + 2 + j ∈ table_pages) as Hin.
  { intros j Hj. apply table_pages_elem. unfold pdp_page, total_pages. lia. }
  assert (pdp_page + 1 ∈ table_pages) as Hin1 by (apply table_pages_elem; unfold pdp_page, total_pages; lia).
  destruct pages_apart as (Hph & Hpp & Hok). split.
  - exists mpt, [mpd]. split; [done|]. split; [done|]. split; [intros m; rewrite list_elem_of_singleton; split; [intros ->; by exists 0|by intros [i [_ ->]%lookup_singleton_Some]]|].
    unfold phys_of in *. rewrite app_assoc, fmap_app in Hph, Hpp. split; [by apply NoDup_app in Hph as []|].
    change (NoDup ((kpage pdp_page :: (mapping_ptr <$> mpt ++ [mpd])) ++ (mapping_ptr <$> pool))) in Hpp. by apply NoDup_app in Hpp as [].
  - intros m [[i [_ <-]%lookup_singleton_Some]|Hm%P1]; apply Hok; set_solver.
  - intros i i' m [<- _]%lookup_singleton_Some [<- _]%lookup_singleton_Some. done.
  - intros ij ij' m H1 H2. destruct (P2 _ _ H1) as (j & -> & Hj & [E1 _]), (P2 _ _ H2) as (j' & -> & Hj' & [E2 _]). f_equal. lia.
  - intros i j m H1. destruct (P2 _ _ H1) as (j' & [= -> ->] & _). by exists mpd.
  - exists (insertZ 0 (link_entry (4096 * (p + 1)) 0) (replicate 512 0)). split.
    + split; [by apply Hnz; unfold pdp_page, total_pages; lia|]. cbn [paging_of with_tables pg_tables as_pdp space_at].
      rewrite table_at, page_no_pdp by apply list_elem_of_here. split; [apply (tb_pdp _ _ Ht)|by rewrite length_insertZ].
    + intros i Hi. destruct (Z.eq_dec i 0) as [->|Hne].
      * eexists. split; [reflexivity|]. rewrite lookup_singleton_eq. destruct (link_page (p + 1)) as [L1 L2]; [lia|].
        split; [done|]. rewrite L2. destruct Hpd as [_ ->]. by destruct (page_no_table 1) as [-> _]; [lia|].
      * exists 0. rewrite lookupZ_insertZ_ne, lookup_singleton_ne by done. split; [by apply lookup_zeros|apply child_empty].
  - intros i m [<- <-]%lookup_singleton_Some. destruct (tb_pd _ _ Ht) as (t & H & Hlen & Hlook). exists t. split.
    + rewrite (Hptr (pdp_page + 1)) by done. split; [by apply Hnz; unfold pdp_page, total_pages; lia|]. cbn [paging_of with_tables pg_tables].
      rewrite table_at by by apply list_elem_of_further. destruct (page_no_table 1) as [-> _]; [lia|]. done.
    + intros j Hj. eexists. split; [by apply Hlook|]. destruct (Z.ltb_spec j n).
      * destruct (P3 j) as [m Hm]; [lia|]. rewrite Hm. destruct (P2 _ _ Hm) as (j' & [= <-] & _ & [_ E]).
        destruct (link_page (p + 2 + j)) as [L1 L2]; [lia|]. split; [done|]. rewrite L2, E.
        destruct (page_no_table (2 + j)) as [E' _]; [lia|]. replace (pdp_page + 2 + j) with (pdp_page + (2 + j)) by lia. lia.
      * destruct (pts !! (0, j)) as [m|] eqn:E; [|apply child_empty]. destruct (P2 _ _ E) as (j' & [= <-] & Hj' & _). lia.
  - intros ij m Hm. destruct (P2 _ _ Hm) as (j & -> & Hj & He). destruct (tb_pt _ _ Ht j Hj) as (t & H & Hlen & _). exists t.
    rewrite (Hptr (pdp_page + 2 + j)) by by (done || apply Hin). split; [by apply Hnz; unfold pdp_page, total_pages in *; lia|].
    cbn [paging_of with_tables pg_tables]. rewrite table_at by by apply list_elem_of_further, Hin.
    destruct (page_no_table (2 + j)) as [E' _]; [lia|]. replace (pdp_page + 2 + j) with (pdp_page + (2 + j)) by lia. rewrite E'.
    by replace (p + (2 + j)) with (p + 2 + j) by lia.
Qed.

(** A page of the pool is none of the tree's. *)
Lemma pool_fresh_at_start pts m :
  (∀ x, x ∈ mpt ↔ ∃ ij, pts !! ij = Some x) → m ∈ pool →
  fresh (space_at total_pages (kpage pdp_page) [mpt; [mpd]]) {[0 := mpd]} pts m.
Proof using All.
  intros P1 Hm. destruct pages_apart as (Hph & Hpp & Hok). destruct (Hok m) as [Hm0 Hmp]; [set_solver|].
  unfold phys_of in Hph. rewrite app_assoc, fmap_app in Hph, Hpp.
  change (NoDup ((kpage pdp_page :: (mapping_ptr <$> mpt ++ [mpd])) ++ (mapping_ptr <$> pool))) in Hpp.
  apply NoDup_app in Hph as (_ & Hph & _), Hpp as (_ & Hpp & _). split; [done|done| |].
  - intros E. change (mapping_ptr m = kpage pdp_page) in E. apply (Hpp (kpage pdp_page)); [left|]. rewrite <- E. by apply list_elem_of_fmap_2.
  - intros x Hx. assert (x ∈ mpt ++ [mpd]) as Hin by (destruct Hx as [[i [_ <-]%lookup_singleton_Some]|Hx%P1]; set_solver).
    split; intros E; [apply (Hpp (mapping_ptr x)); [right; by apply list_elem_of_fmap_2|]|apply (Hph (me_phys_addr x)); [by apply list_elem_of_fmap_2|]];
      rewrite E; by apply list_elem_of_fmap_2.
Qed.

Lemma kspace_at_start pts :
  (∀ x, x ∈ mpt ↔ ∃ ij, pts !! ij = Some x) →
  (∀ ij x, pts !! ij = Some x → ∃ j, ij = (0, j) ∧ 0 ≤ j < n ∧ entry_for (pdp_page + 2 + j) x) →
  (∀ j, 0 ≤ j < n → is_Some (pts !! (0, j))) → length pool = 20%nat →
  kspace (set_paging paging_of (pu_kmem s)) (space_at total_pages (kpage pdp_page) [mpt; [mpd]]) {[0 := mpd]} pts.
Proof using All.
  intros P1 P2 P3 Hlen. pose proof (sg_pool _ _ _ _ _ _ _ _ _ _ _ Hs) as Hpool. destruct pages_apart as (Hph & Hpp & _).
  assert (PagingKernel.pool (set_paging paging_of (pu_kmem s)) = pool) as Epool.
  { unfold PagingKernel.pool. cbn [set_paging km_paging paging_of with_tables pg_page_pool]. by rewrite Hpool. }
  split; rewrite ?Epool; cbn [set_paging km_paging paging_of with_tables pg_page_pool].
  - split; [apply (sg_space _ _ _ _ _ _ _ _ _ _ _ Hs)|by eapply tree_at_start].
  - intros m. by apply pool_fresh_at_start.
  - unfold phys_of in *. rewrite app_assoc, fmap_app in Hph, Hpp. apply NoDup_app in Hph as (_ & _ & ?). split; [done|].
    apply NoDup_cons in Hpp as [_ Hpp]. by apply NoDup_app in Hpp as (_ & _ & ?).
  - rewrite Hpool. cbn. by rewrite Hlen.
  - by rewrite Hpool.
Qed.

Lemma leaf_at_start pts v :
  (∀ ij x, pts !! ij = Some x → ∃ j, ij = (0, j) ∧ 0 ≤ j < n ∧ entry_for (pdp_page + 2 + j) x) →
  (∀ j, 0 ≤ j < n → is_Some (pts !! (0, j))) →
  leaf paging_of pts v =
    if page_of v <? 512 * n then Some (if page_of v <? total_pages then final_entry (page_of v) else 0) else None.
Proof using All.
  intros P2 P3. pose proof (indices_page v) as E. unfold leaf.
  pose proof (level_index_range v PDP ltac:(done)). pose proof (level_index_range v PD ltac:(done)). pose proof (level_index_range v PT ltac:(done)).
  destruct (pts !! (GET_LEVEL_INDEX v PDP, GET_LEVEL_INDEX v PD)) as [m|] eqn:Em; cbn [mbind option_bind].
  - destruct (P2 _ _ Em) as (j & [= E1 E2] & Hj & He). rewrite E1, E2 in E. replace (page_of v <? 512 * n) with true by lia.
    assert (pdp_page + 2 + j ∈ table_pages) as Hin by (apply table_pages_elem; unfold pdp_page, total_pages; lia).
    rewrite (table_pages_ptr _ _ Hin He). cbn [paging_of with_tables pg_tables]. rewrite table_at by by apply list_elem_of_further.
    destruct (page_no_table (2 + j)) as [E' _]; [lia|]. replace (pdp_page + 2 + j) with (pdp_page + (2 + j)) by lia. rewrite E'.
    destruct (tb_pt _ _ (sg_tables _ _ _ _ _ _ _ _ _ _ _ Hs) j Hj) as (t & Ht & _ & Hlook).
    replace (p + (2 + j)) with (p + 2 + j) by lia. rewrite Ht. cbn [mbind option_bind]. rewrite Hlook by lia.
    by replace (j * 512 + GET_LEVEL_INDEX v PT) with (page_of v) by lia.
  - replace (page_of v <? 512 * n) with false; [done|]. symmetry. apply Z.ltb_ge. apply Z.nlt_ge. intros Hlt.
    assert (GET_LEVEL_INDEX v PDP = 0 ∧ GET_LEVEL_INDEX v PD < n) as [E1 E2] by lia. rewrite E1 in Em.
    destruct (P3 (GET_LEVEL_INDEX v PD)) as [m Hm]; [lia|]. by rewrite Hm in Em.
Qed.
End finished.

(** What is promised of the tables: the invariant of the kernel's address space holds, the
    pages of [page_no] are mapped with the rights of [rights_of] and nothing else is. *)
Record tables_started (frames : FrameAllocator) (memory_size : Z) (k : kmem) (a : AddressSpace) (pds : gmap Z MappingEntry) (pts : gmap (Z * Z) MappingEntry) : Prop := {
  ts_kspace : kspace k a pds pts;
  ts_current : as_current_address a = kaddr total_pages ∧ as_pdp_index a = KERNEL_PML4_OFFSET ∧ as_free_list a = 0 ∧ as_prot a = 0;
  ts_spare : spare k = 10;
  ts_entries : EntryPool.pool_wf 0 k ∧ ep_count (km_pool k) = 235 - n;
  ts_frames : km_frames k = frames ∧ km_memory_size k = memory_size;
  ts_translate v : translate (km_paging k) pts v =
    if page_of v <? total_pages then Some (4096 * page_no (page_of v) + v mod 4096) else None;
  ts_rights v : page_of v < total_pages → ∃ e, leaf (km_paging k) pts v = Some e ∧
    write e = (rights_of (page_of v)).1 ∧ execute_disable e = (negb (rights_of (page_of v)).2 && nx);
}.

Lemma page_of_range v : 0 ≤ page_of v < 2 ^ 27.
Proof. apply Z.mod_pos_bound. lia. Qed.

Lemma started_tables frames memory_size s :
  started frames memory_size s →
  wp tables_in_use (λ _ s', ∃ a pds pts, tables_started frames memory_size (pu_kmem s') a pds pts) s.
Proof using All.
  intros (mpt & mpd & pool & Hpt & Hpd & Hpo & Hs). unfold tables_in_use. wp_step.
  destruct (tables_listed (pdp_page + 2) (Z.to_nat n) mpt) as (pts & P1 & P2 & P3).
  { destruct Hpt as (l & -> & H). by rewrite app_nil_r. }
  rewrite Z2Nat.id in P2, P3 by lia. exists (space_at total_pages (kpage pdp_page) [mpt; [mpd]]), {[0 := mpd]}, pts.
  cbn [pu_kmem]. fold (paging_of s). destruct (sg_entries _ _ _ _ _ _ _ _ _ _ _ Hs) as [Hwf Hent]. pose proof (sg_pool _ _ _ _ _ _ _ _ _ _ _ Hs) as Hpool.
  assert (length pool = 20%nat) as Hlen.
  { destruct Hpo as (l & -> & H). rewrite app_nil_r. apply Forall2_length in H. by rewrite length_reverse, length_seqZ in H. }
  split; cbn [set_paging km_paging km_frames km_memory_size km_pool].
  - by eapply kspace_at_start.
  - done.
  - unfold spare. cbn [set_paging km_paging paging_of with_tables pg_page_pool]. by rewrite Hpool.
  - done.
  - apply (sg_frames _ _ _ _ _ _ _ _ _ _ _ Hs).
  - intros v. pose proof (page_of_range v). rewrite translate_of_leaf. erewrite leaf_at_start by done.
    destruct (Z.ltb_spec (page_of v) total_pages) as [Hlt|Hge].
    + replace (page_of v <? 512 * n) with true by lia. cbn [mbind option_bind]. destruct (final_entry_fields (page_of v)) as (-> & -> & _); [lia|]. f_equal. lia.
    + destruct (page_of v <? 512 * n); [|done]. by vm_compute.
  - intros v Hv. pose proof (page_of_range v). erewrite leaf_at_start by done. exists (final_entry (page_of v)).
    replace (page_of v <? 512 * n) with true by lia. replace (page_of v <? total_pages) with true by lia. split; [done|].
    destruct (final_entry_fields (page_of v)) as (_ & _ & ? & ?); [lia|]. done.
Qed.

(** C7: when the page tables that were set aside are enough, [initialize_paging] puts the
    kernel's address space into the state that every theorem on page tables asks for: the
    kernel, the memory entries, the page pool, the frame allocator's memory and the tables
    themselves are mapped one behind the other, each page with its rights, nothing else
    is, and 20 pages are in the pool, half of them above the threshold. *)
Theorem start_tables_spec uefi_pml4 s :
  at_boot uefi_pml4 s →
  wp (v ← start_tables data_start data_end rodata_start rodata_end uefi_pml4 (4096 * kp) (4096 * ks) (4096 * fp) fs (4096 * p) 1 n;
      _ ← tables_in_use; mret v) (λ v s', v = kpage (ks + 21) ∧
    ∃ a pds pts, tables_started (km_frames (pu_kmem s)) (km_memory_size (pu_kmem s)) (pu_kmem s') a pds pts) s.
Proof using All.
  intros Hb. wp_step. apply (wp_start_tables uefi_pml4); [done|]. intros s1 Hs1. wp_step.
  eapply wp_mono; [by apply started_tables|]. intros [] s2 H2. wp_step. by split.
Qed.
End layout.
End PagingStartProofs.
