(* ===== verification/PagingStartExamples.v ===== *)
(** Memory coming up at a concrete machine of 8 MB: the theorem of PagingStartProofs.v, a run
    of [initialize_memory] from the firmware's memory map to an allocation, and a kernel of
    a size for which one page table too few is set aside. *)
From S2P Require Import Prelude Util MemState EntryPool FrameAllocator FrameInit PageEntry AddressSpace Paging PagingInvariant PagingProofs Memory PagingInit Slab PagingStart PagingStartProofs.

Module PagingStartExamples.
Import Util Mem FrameAllocator FrameInit PageEntry AddressSpace Paging PagingInvariant PagingInit PagingStart PagingStartProofs.

(** ** The kernel as it is loaded *)

Definition boot_space : AddressSpace :=
  {| as_current_address := KERNEL_OFFSET; as_pdp_index := KERNEL_PML4_OFFSET; as_pdp := 0; as_prot := 0;
     as_free_list := 0; as_entry_maps := [[]; []] |}.

Definition loaded (nx : bool) : paging_setup :=
  {| pu_kmem :=
       {| km_pool := {| ep_count := 0; ep_head := [] |};
          km_frames := {| fa_free_lists := replicate 8 {| fl_head := []; fl_buddy_map := [] |}; fa_order_sizes := replicate 8 0 |};
          km_memory_size := 0;
          km_paging := with_execute_disable nx (with_spaces {[g_kernel_space := boot_space]} empty_paging) |};
     pu_pages := ∅; pu_active := false |}.

Definition firmware_pml4 : list Z := 3 :: replicate 511 0.

(** The segments of a kernel of 20 pages at 1 MB: code, constants and data. *)
Definition rodata_start : Z := 0x106000.
Definition rodata_end : Z := 0x108000.
Definition data_start : Z := 0x108000.
Definition data_end : Z := 0x10b000.

Lemma start_tables_spec_witness :
  let pages := page_no 0x200 1 20 2 0x100 0x300 in
  wp (v ← @start_tables (EntryPool.pool_entries (λ _ _, throw OutOfFuel)) data_start data_end rodata_start rodata_end firmware_pml4
        (4096 * 0x100) (4096 * 20) (4096 * 0x300) 2 (4096 * 0x200) 1 1;
      _ ← tables_in_use; mret v) (λ v s', v = kpage 41 ∧ ∃ a pds pts,
    tables_started 0x200 1 20 2 0x100 0x300 true (kernel_page_rights data_start data_end rodata_start rodata_end)
      (km_frames (pu_kmem (loaded true))) 0 (pu_kmem s') a pds pts ∧
    translate (km_paging (pu_kmem s')) pts (kpage 41 + 0x123) = Some 0x300123 ∧ pages 41 = 0x300) (loaded true).
Proof.
  cbv zeta. eapply wp_mono.
  - apply (start_tables_spec 0x200 1 20 2 0x100 0x300 true (kernel_page_rights data_start data_end rodata_start rodata_end)); try done; try lia.
    split; try done. by exists 0.
  - cbv beta. intros v s' [-> (a & pds & pts & H)]. split; [done|]. exists a, pds, pts. split; [exact H|]. split; [|by vm_compute].
    rewrite (ts_translate _ _ _ _ _ _ _ _ _ _ _ _ _ _ H). by vm_compute.
Defined.

(** ** From the memory map to the first allocation *)

Definition memory_map : list UEFIMemoryDescriptor :=
  [ {| md_type := EfiConventionalMemory; md_physical_start := 0; md_num_pages := 160 |};
    {| md_type := EfiBootServicesData; md_physical_start := 0xa0000; md_num_pages := 96 |};
    {| md_type := EfiLoaderCode; md_physical_start := 0x100000; md_num_pages := 20 |};
    {| md_type := EfiConventionalMemory; md_physical_start := 0x114000; md_num_pages := 1772 |} ].

(** The slab allocator's array with room for all its caches. *)
Definition caches : Slab.SlabAllocator := {| Slab.sa_caches := replicate 8 Slab.no_cache; Slab.sa_page_allocations := [] |}.

Definition ops : Memory.KernelOps := Memory.kernel 3.
#[local] Instance entries : MemoryEntries := EntryPool.pool_entries (Memory.ko_alloc_pages ops).

Definition bring_up : M (paging_setup * Slab.SlabAllocator) (Z * Z * list (option Z)) :=
  '(kernel_phys_addr, kernel_virt_addr, _) ←
    initialize_memory data_start data_end rodata_start rodata_end 0x100000 firmware_pml4 (Ok 0) memory_map;
  (* three pages, two of them next to each other in physical memory *)
  ptr ← on_paging (on_kmem (Memory.alloc_pages ops 3 PAGING_WRITABLE));
  phys ← on_paging (on_kmem (p0 ← Memory.kvirt_to_phys_addr ptr; p1 ← Memory.kvirt_to_phys_addr (ptr + 0x1000);
    p2 ← Memory.kvirt_to_phys_addr (ptr + 0x2fff); p3 ← Memory.kvirt_to_phys_addr (ptr + 0x3000); mret [p0; p1; p2; p3]));
  mret (kernel_phys_addr, kernel_virt_addr, phys).

(** On a machine of 8 MB [initialize_memory] goes through, from the firmware's memory map
    to a frame allocator and page tables that work: the kernel is found at 1 MB, and an
    allocation of three pages gets frames behind everything that is in use, mapped one
    behind the other and nothing after them. *)
Theorem initialize_memory_runs :
  match bring_up (loaded false, caches) with
  | Ok (r, _) => r = (0x100000, 0xfffff00000000000, [Some 0x12e000; Some 0x12f000; Some 0x130fff; None])
  | Fault _ => False
  end.
Proof. by vm_compute. Qed.

(** ** One page table too few *)

(** The loop that sizes the page tables leaves room for the page tables and the
    directories but not for the first table. With a kernel of 488 pages one table of 512
    entries is set aside for 513 pages: the last one is looked up in a table that does not
    exist, at physical address 0. *)
Theorem page_tables_one_short :
  pt_count (total_size (488 * PAGE_SIZE) 1) 1 tt = Ok (1, tt) ∧
  start_tables data_start data_end rodata_start rodata_end firmware_pml4
    0x100000 (488 * PAGE_SIZE) 0x500000 1 0x600000 1 1 (loaded true) = Fault (BadPointer 0).
Proof. split; by vm_compute. Qed.
End PagingStartExamples.
