(* ===== verification/SlabFree.v ===== *)
(** Freeing objects of the slab allocator ([kfree] of kernel/src/memory/slab_allocator.c)
    and what [kalloc] and [kfree] do together. *)
From S2P Require Import Prelude Util Slab.

Module SlabFree.
Import Util Slab.

Section free.
Context {E : Type} (alloc_pages : Z → Z → M E Z) (free_pages : Z → Z → M E unit).
Implicit Types (s : E * SlabAllocator).

(** The slab with the object of index [i] back on its free list. *)
Definition given (slab : Slab) (i : Z) : Slab :=
  {| sl_ptr := sl_ptr slab; sl_mem := sl_mem slab; sl_allocated := sl_allocated slab - 1;
     sl_next_free := i; sl_free := insertZ i (sl_next_free slab) (sl_free slab) |}.

Lemma given_wf c slab chain i :
  slab_wf c slab chain → 0 ≤ i < ca_count c → (i ∉ chain) → slab_wf c (given slab i) (i :: chain).
Proof.
  intros [H1 H2 H3 H4 H5 H6 H7 H8] Hi Hni. split; try done; unfold given; cbn [sl_free sl_next_free sl_allocated].
  - by rewrite length_insertZ.
  - econstructor; [done| |by apply chain_insert].
    apply lookupZ_insertZ_eq, lookupZ_is_Some. lia.
  - by constructor.
  - cbn [length]. lia.
Qed.

Lemma give_object_eq {St} c slab chain i (s : St) :
  slab_wf c slab chain → 0 ≤ i < ca_count c →
  give_object c (sl_mem slab + i * ca_size c) slab s =
    Ok ({| sl_ptr := sl_ptr slab; sl_mem := sl_mem slab; sl_allocated := sl_allocated slab;
           sl_next_free := i; sl_free := insertZ i (sl_next_free slab) (sl_free slab) |}, s).
Proof.
  intros [H1 H2 H3 H4 H5 H6 H7 H8] Hi. unfold give_object.
  replace (sl_mem slab + i * ca_size c - sl_mem slab) with (i * ca_size c) by lia.
  rewrite Z.mod_mul, Z.div_mul by lia. rewrite wrap_small by nia.
  unfold mbind, M_bind. cbn -[insertZ lookupZ].
  destruct (proj2 (lookupZ_is_Some (sl_free slab) i)) as [x ->]; [lia|done].
Qed.

(** No slab of the caches before [order] contains [ptr]. *)
Definition none_below s (order ptr : Z) : Prop :=
  ∀ o, CACHE_START_ORDER ≤ o < order → ∃ c, cache_at s o = Some c ∧
    Forall (λ slab, contains c ptr slab = false) (ca_part c) ∧
    Forall (λ slab, contains c ptr slab = false) (ca_full c).

Lemma free_from_none kf ptr o full c s :
  cache_at s o = Some c →
  Forall (λ slab, contains c ptr slab = false) (if full : bool then ca_full c else ca_part c) →
  free_from_slab_list free_pages kf ptr o full s = Ok (false, s).
Proof.
  intros Hc Hn. unfold free_from_slab_list, mbind, M_bind. rewrite (get_cache_eq o c s Hc).
  assert (find_split (contains c ptr) (if full then ca_full c else ca_part c) = None) as ->; [|done].
  by apply find_split_None.
Qed.

Lemma free_from_caches_skip kf n o order ptr s :
  CACHE_START_ORDER ≤ o → o ≤ order → order < o + Z.of_nat n → none_below s order ptr →
  ∃ m, free_from_caches free_pages kf n o ptr s = free_from_caches free_pages kf (S m) order ptr s ∧
       (m = n - S (Z.to_nat (order - o)))%nat.
Proof.
  intros Hstart. revert o Hstart. induction n as [|n IH]; intros o Hstart Hle Hn Hb; [lia|].
  destruct (decide (o = order)) as [->|Hne].
  { exists n. split; [done|lia]. }
  destruct (Hb o) as (c & Hc & Hp & Hf); [lia|].
  destruct (IH (o + 1)) as (m & Hm & Hmn); [lia..|done|]. exists m. split; [|lia]. rewrite <- Hm.
  cbn [free_from_caches]. unfold mbind, M_bind at 1.
  rewrite (free_from_none kf ptr o false c s Hc Hp). cbn beta iota.
  unfold M_bind. by rewrite (free_from_none kf ptr o true c s Hc Hf).
Qed.

(** The slab that contains [ptr] is [slab], in the partial or the full list of cache
    [order], and it is the first one the search of [kfree] meets. *)
Record found_in s (order : Z) (c : Cache) (ptr : Z) (full : bool) (before : list Slab) (slab : Slab)
    (after : list Slab) : Prop := {
  fi_order : CACHE_START_ORDER ≤ order ≤ CACHE_END_ORDER;
  fi_cache : cache_at s order = Some c;
  fi_below : none_below s order ptr;
  fi_list : (if full then ca_full c else ca_part c) = before ++ slab :: after;
  fi_part : full = true → Forall (λ slab, contains c ptr slab = false) (ca_part c);
  fi_before : Forall (λ slab, contains c ptr slab = false) before;
}.

Lemma in_use_contains c slab chain ptr : slab_wf c slab chain → in_use c slab chain ptr → contains c ptr slab = true.
Proof.
  intros [H1 H2 H3 H4 _ _ _ _] (i & Hi & _ & ->). unfold contains. apply range_contains_iff; nia.
Qed.

Lemma in_use_allocated c slab chain i :
  slab_wf c slab chain → 0 ≤ i < ca_count c → (i ∉ chain) → 0 < sl_allocated slab < 2 ^ 32.
Proof.
  intros Hwf Hi Hni. pose proof (chain_length c (i :: chain)) as Hlen.
  pose proof (given_wf c slab chain i Hwf Hi Hni) as Hg.
  destruct Hwf as [H1 H2 H3 H4 H5 H6 H7 H8].
  pose proof (chain_range _ _ _ _ H6) as Hr. cbn [length] in Hlen.
  rewrite H8. split; [|nia]. enough (Z.of_nat (S (length chain)) ≤ Z.max 0 (ca_count c)) by lia. apply Hlen.
  - by constructor.
  - by constructor.
Qed.

(** [kfree] reaches the slab the object lies in. *)
Lemma kfree_reaches fuel order c ptr full before slab after s :
  found_in s order c ptr full before slab after → contains c ptr slab = true →
  kfree free_pages (S fuel) ptr s =
    free_in_slab free_pages (kfree free_pages fuel) ptr order c before after slab full s.
Proof.
  intros [Ho Hc Hb Hl Hp Hbe] Hcon.
  cbn [kfree]. unfold mbind, M_bind at 1.
  destruct (free_from_caches_skip (kfree free_pages fuel)
    (Z.to_nat (CACHE_END_ORDER - CACHE_START_ORDER + 1)) CACHE_START_ORDER order ptr s) as (m & -> & _);
    [lia..|done|]. cbn [free_from_caches]. unfold mbind, M_bind.
  assert (free_from_slab_list free_pages (kfree free_pages fuel) ptr order full s =
    match free_in_slab free_pages (kfree free_pages fuel) ptr order c before after slab full s with
    | Ok (_, s') => Ok (true, s') | Fault f => Fault f end) as Hfree.
  { unfold free_from_slab_list, mbind, M_bind. rewrite (get_cache_eq order c s Hc), Hl.
    rewrite find_split_app by done. done. }
  destruct full.
  - rewrite (free_from_none _ ptr order false c s Hc) by auto. cbn beta iota. rewrite Hfree.
    by destruct (free_in_slab _ _ _ _ _ _ _ _ _ _) as [[[] s']|f].
  - rewrite Hfree. by destruct (free_in_slab _ _ _ _ _ _ _ _ _ _) as [[[] s']|f].
Qed.

Lemma given_in_use c slab chain i p :
  0 < ca_size c → (i ∉ chain) →
  in_use c (given slab i) (i :: chain) p ↔ in_use c slab chain p ∧ p ≠ sl_mem slab + i * ca_size c.
Proof.
  intros Hpos Hni. unfold in_use. cbn [sl_mem given]. split.
  - intros (j & Hj & [Hne Hnj]%not_elem_of_cons & ->). split; [by exists j|]. nia.
  - intros [(j & Hj & Hnj & ->) Hne]. exists j. split; [done|]. split; [|done].
    apply not_elem_of_cons. split; [congruence|done].
Qed.

(** The lists of the cache once the slab that was full, or was not, has an object back. *)
Definition lists_after_free (c : Cache) (full : bool) (before after : list Slab) (slab' : Slab) : Cache :=
  if full then set_lists (slab' :: ca_part c) (before ++ after) c
  else set_lists (before ++ slab' :: after) (ca_full c) c.

Definition lists_without (c : Cache) (full : bool) (before after : list Slab) : Cache :=
  if full then set_lists (ca_part c) (before ++ after) c
  else set_lists (before ++ after) (ca_full c) c.

Lemma kfree_found_eq fuel order c ptr full before slab after chain s :
  found_in s order c ptr full before slab after → slab_wf c slab chain → in_use c slab chain ptr →
  (full = true ↔ chain = []) →
  ∃ i, ptr = sl_mem slab + i * ca_size c ∧ 0 ≤ i < ca_count c ∧ (i ∉ chain) ∧
    kfree free_pages (S fuel) ptr s =
      if sl_allocated slab =? 1 then
        (if ca_size c <? OFF_SLAB_THRESHOLD then on_pages (free_pages (sl_ptr slab) (ca_pages c))
         else _ ← on_pages (free_pages (sl_mem slab - ca_free_arr_size c) (ca_pages c));
              kfree free_pages fuel (sl_ptr slab))
          (with_cache order (lists_without c full before after) s)
      else Ok (tt, with_cache order (lists_after_free c full before after (given slab i)) s).
Proof.
  intros Hf Hwf Hu Hfull. pose proof Hu as (i & Hi & Hni & ->).
  exists i. split_and!; [done|lia|lia|done|]. rewrite (kfree_reaches fuel order c _ full before slab after s) by (done || by eapply in_use_contains).
  pose proof (sw_allocated _ _ _ Hwf) as Hall.
  assert (0 < sl_allocated slab < 2 ^ 32) as Hrange by exact (in_use_allocated c slab chain i Hwf Hi Hni).
  unfold free_in_slab, mbind, M_bind at 1. rewrite (give_object_eq c slab chain i s) by done.
  cbn [sl_allocated sl_ptr sl_mem sl_next_free sl_free]. rewrite wrap_small by lia.
  replace (sl_allocated slab - 1 =? 0) with (sl_allocated slab =? 1) by lia.
  assert ((sl_allocated slab =? ca_count c) = full) as ->.
  { rewrite Hall. destruct full; [rewrite (proj1 Hfull eq_refl); apply Z.eqb_eq; cbn [length]; lia|].
    destruct chain; [discriminate (proj2 Hfull eq_refl)|]. apply Z.eqb_neq. cbn [length]. lia. }
  fold (given slab i). unfold M_bind. rewrite (set_cache_eq order c _ s) by apply Hf.
  destruct (sl_allocated slab =? 1), full; try done.
Qed.

(** [kfree] of an object in use, not the last one of its slab: the object is free
    again and the next to be handed out, the others are as they were, and a slab that
    was full moves to the head of the partial list. *)
Theorem kfree_object fuel order c ptr full before slab after chain s :
  found_in s order c ptr full before slab after → slab_wf c slab chain → in_use c slab chain ptr →
  (full = true ↔ chain = []) → 1 < sl_allocated slab →
  ∃ i slab', ptr = sl_mem slab + i * ca_size c ∧
    kfree free_pages (S fuel) ptr s =
      Ok (tt, with_cache order (if full then set_lists (slab' :: ca_part c) (before ++ after) c
                                else set_lists (before ++ slab' :: after) (ca_full c) c) s) ∧
    slab_wf c slab' (i :: chain) ∧ sl_mem slab' = sl_mem slab ∧
    ∀ p, in_use c slab' (i :: chain) p ↔ in_use c slab chain p ∧ p ≠ ptr.
Proof.
  intros Hf Hwf Hu Hfull Hone.
  destruct (kfree_found_eq fuel order c ptr full before slab after chain s Hf Hwf Hu Hfull)
    as (i & -> & Hi & Hni & ->). exists i, (given slab i). split; [done|]. split.
  - replace (sl_allocated slab =? 1) with false by lia. done.
  - split; [by apply given_wf|]. split; [done|]. intros p. apply given_in_use; [apply Hwf|done].
Qed.

(** [kfree] of the last object of a slab takes the slab off its list and gives its
    pages back; a slab header kept off the slab is freed after them. *)
Theorem kfree_last_object fuel order c ptr full before slab after chain s :
  found_in s order c ptr full before slab after → slab_wf c slab chain → in_use c slab chain ptr →
  (full = true ↔ chain = []) → sl_allocated slab = 1 →
  kfree free_pages (S fuel) ptr s =
    (if ca_size c <? OFF_SLAB_THRESHOLD then on_pages (free_pages (sl_ptr slab) (ca_pages c))
     else _ ← on_pages (free_pages (sl_mem slab - ca_free_arr_size c) (ca_pages c));
          kfree free_pages fuel (sl_ptr slab))
    (with_cache order (if full then set_lists (ca_part c) (before ++ after) c
                       else set_lists (before ++ after) (ca_full c) c) s).
Proof.
  intros Hf Hwf Hu Hfull Hone.
  destruct (kfree_found_eq fuel order c ptr full before slab after chain s Hf Hwf Hu Hfull)
    as (i & -> & Hi & Hni & ->). by rewrite Hone.
Qed.

(** A pointer into a slab that is not the address of one of its objects is refused. *)
Theorem kfree_misaligned fuel order c ptr full before slab after s :
  found_in s order c ptr full before slab after → contains c ptr slab = true →
  (ptr - sl_mem slab) mod ca_size c ≠ 0 →
  kfree free_pages (S fuel) ptr s = Fault (AssertFailed "Pointer not aligned").
Proof.
  intros Hf Hcon Hmis. rewrite (kfree_reaches fuel order c ptr full before slab after s Hf Hcon).
  unfold free_in_slab, give_object, mbind, M_bind, kernel_assert.
  by replace ((ptr - sl_mem slab) mod ca_size c =? 0) with false by lia.
Qed.

Lemma with_cache_twice order c c' s : with_cache order c' (with_cache order c s) = with_cache order c' s.
Proof.
  unfold with_cache, insertZ. cbn [fst snd sa_caches sa_page_allocations].
  destruct (_ <? 0); [done|]. by rewrite list_insert_insert_eq.
Qed.

Lemma with_cache_id order c s : cache_at s order = Some c → with_cache order c s = s.
Proof.
  unfold cache_at, with_cache, insertZ, lookupZ. destruct s as [e [cs ps]]. cbn [fst snd sa_caches sa_page_allocations].
  destruct (_ <? 0); [done|]. intros Hc. by rewrite list_insert_id.
Qed.

Lemma given_taken c slab chain i next :
  slab_wf c slab (i :: chain) → lookupZ (sl_free slab) i = Some next → sl_next_free slab = i →
  given (taken c slab next) i = slab.
Proof.
  intros _ Hn Hi. destruct slab as [p m a n fr]. unfold given, taken. cbn in *. subst n.
  assert (insertZ i next fr = fr) as ->.
  { unfold insertZ, lookupZ in *. destruct (i <? 0); [done|]. by apply list_insert_id. }
  f_equal. lia.
Qed.

Lemma none_below_with order c s ptr : none_below s order ptr → none_below (with_cache order c s) order ptr.
Proof.
  intros Hb o Ho. destruct (Hb o Ho) as (c' & Hc & Hr). exists c'. split; [|done].
  rewrite cache_at_with_ne; [done|lia].
Qed.

(** Freeing what was just allocated restores the allocator, when the slab held other
    objects: the lists, the slab and its free list are as they were. *)
Theorem kalloc_kfree_roundtrip fuel fuel' size c slab part i rest s :
  let order := get_min_cache_order size in
  let ptr := sl_mem slab + i * ca_size c in
  order ≤ CACHE_END_ORDER → cache_at s order = Some c → ca_part c = slab :: part →
  slab_wf c slab (i :: rest) → 0 < sl_allocated slab →
  (sl_mem slab) mod MIN max_align (ca_size c) = 0 → (ca_size c) mod MIN max_align (ca_size c) = 0 →
  none_below s order ptr → Forall (λ slab, contains c ptr slab = false) part →
  ∃ s', kalloc alloc_pages free_pages (S fuel) size s = Ok (ptr, s') ∧
    kfree free_pages (S fuel') ptr s' = Ok (tt, s).
Proof.
  intros order ptr Ho Hc Hpart Hwf Hsome Hal Hals Hb Hdisj. pose proof (sw_size _ _ _ Hwf) as Hpos.
  destruct (kalloc_part_eq alloc_pages free_pages fuel size c slab part i rest s Ho Hc Hpart Hwf Hal Hals Hpos)
    as (next & Hn & Hi & Hr & Hwf' & Hk).
  eexists. split; [exact Hk|]. fold order.
  pose proof (sw_nodup _ _ _ Hwf) as [Hni _]%NoDup_cons.
  pose proof (sw_allocated _ _ _ Hwf') as Hall. cbn [sl_allocated taken] in Hall.
  set (full := bool_decide (rest = [])). set (c' := after_take c (taken c slab next) part).
  assert (c' = if full then set_lists part (taken c slab next :: ca_full c) c
               else set_lists (taken c slab next :: part) (ca_full c) c) as Ec'.
  { unfold c', after_take, full. cbn [sl_allocated taken]. case_bool_decide as Hrest.
    - rewrite Hall, Hrest. replace (_ =? _) with true; [done|]. symmetry. apply Z.eqb_eq. cbn [length]. lia.
    - rewrite Hall. replace (_ =? _) with false; [done|]. destruct rest; [done|]. symmetry.
      apply Z.eqb_neq. cbn [length]. lia. }
  assert (found_in (with_cache order c' s) order c' ptr full [] (taken c slab next) (if full then ca_full c else part)) as Hf.
  { split; [split; [apply min_cache_order_spec|done]|by eapply cache_at_with|by apply none_below_with| | |done].
    - rewrite Ec'. by destruct full.
    - intros Hfull. rewrite Ec', Hfull. exact Hdisj. }
  assert (slab_wf c' (taken c slab next) rest) as Hwf'' by (rewrite Ec'; destruct full; by destruct Hwf').
  destruct (kfree_found_eq fuel' order c' ptr full [] (taken c slab next) (if full then ca_full c else part) rest
    (with_cache order c' s) Hf Hwf'') as (j & Hj & Hrj & Hnj & ->).
  - exists i. rewrite Ec'. by destruct full.
  - unfold full. rewrite bool_decide_eq_true. done.
  - cbn [sl_allocated taken]. replace (sl_allocated slab + 1 =? 1) with false by lia.
    assert (j = i) as ->.
    { assert (ca_size c' = ca_size c) as Es by (rewrite Ec'; by destruct full). rewrite Es in Hj.
      cbn [sl_mem taken] in Hj. unfold ptr in Hj. nia. }
    rewrite (given_taken c slab rest i next Hwf Hn Hi), with_cache_twice. f_equal. f_equal.
    apply with_cache_id. rewrite Hc. f_equal. rewrite Ec'. unfold lists_after_free.
    destruct c as [cp cf cpg csz cct cfa cms]. cbn in *. subst cp. by destruct full.
Qed.
End free.

(** The array of caches has one entry less than there are orders, so setting up the
    last cache writes past its end (over the list of page allocations in the C struct). *)
Theorem initialize_slab_allocator_overflow {E : Type} (s : E * SlabAllocator) :
  length (sa_caches s.2) = Z.to_nat NUM_CACHES → initialize_slab_allocator s = Fault OutOfBounds.
Proof.
  destruct s as [e [cs ps]]. cbn [snd sa_caches]. change (Z.to_nat NUM_CACHES) with 7%nat.
  do 8 (destruct cs as [|? cs]; [done || intros _; by vm_compute|]). done.
Qed.

(** With room for every order the initialisation succeeds and every cache is empty. *)
Example initialize_with_room :
  match initialize_slab_allocator (tt, {| sa_caches := replicate 8 no_cache; sa_page_allocations := [] |}) with
  | Ok (_, (_, sa)) => ca_count <$> sa_caches sa = [203; 112; 59; 30; 15; 7; 3; 3] ∧
      Forall (λ c, ca_part c = [] ∧ ca_full c = []) (sa_caches sa)
  | Fault _ => False
  end.
Proof. vm_compute. split; [reflexivity|repeat constructor]. Qed.

(** ** Concrete instances *)

Definition ex_cache (part full : list Slab) : Cache :=
  {| ca_part := part; ca_full := full; ca_pages := 1; ca_size := 16; ca_count := 3;
     ca_free_arr_size := 16; ca_mem_size := 48 |}.

Definition ex_slab (allocated next_free : Z) (free : list Z) : Slab :=
  {| sl_ptr := 0x5000; sl_mem := 0x5030; sl_allocated := allocated; sl_next_free := next_free; sl_free := free |}.

Definition ex_state (part full : list Slab) : unit * SlabAllocator :=
  (tt, {| sa_caches := [ex_cache part full]; sa_page_allocations := [] |}).

Definition ex_alloc (pages flags : Z) : M unit Z := mret 0x9000.
Definition ex_free (ptr pages : Z) : M unit unit := mret tt.

Lemma ex_slab_wf part full :
  slab_wf (ex_cache part full) (ex_slab 1 1 [1; 2; 3]) [1; 2].
Proof.
  split; cbn; try lia; try done.
  - econstructor; [lia|done|]. econstructor; [lia|done|]. constructor.
  - repeat constructor; set_solver.
Qed.

Lemma ex_slab_one_left part full :
  slab_wf (ex_cache part full) (ex_slab 2 2 [1; 2; 3]) [2].
Proof.
  split; cbn; try lia; try done.
  - econstructor; [lia|done|]. constructor.
  - repeat constructor; set_solver.
Qed.

Lemma initialize_slab_allocator_overflow_witness :
  initialize_slab_allocator (tt, {| sa_caches := replicate 7 no_cache; sa_page_allocations := [] |}) = Fault OutOfBounds.
Proof. apply initialize_slab_allocator_overflow. reflexivity. Defined.

Lemma kalloc_from_slab_witness :
  let s := ex_state [ex_slab 1 1 [1; 2; 3]] [] in
  ∃ ptr slab', kalloc ex_alloc ex_free 1 10 s =
        Ok (ptr, with_cache 4
          (if bool_decide ([2] = []) then set_lists [] (slab' :: []) (ex_cache [ex_slab 1 1 [1; 2; 3]] [])
           else set_lists (slab' :: []) [] (ex_cache [ex_slab 1 1 [1; 2; 3]] [])) s) ∧
      slab_wf (ex_cache [ex_slab 1 1 [1; 2; 3]] []) slab' [2] ∧ sl_mem slab' = 0x5030 ∧
      ¬ in_use (ex_cache [ex_slab 1 1 [1; 2; 3]] []) (ex_slab 1 1 [1; 2; 3]) [1; 2] ptr ∧
      ptr mod MIN max_align 16 = 0 ∧
      ∀ p, in_use (ex_cache [ex_slab 1 1 [1; 2; 3]] []) slab' [2] p ↔
        p = ptr ∨ in_use (ex_cache [ex_slab 1 1 [1; 2; 3]] []) (ex_slab 1 1 [1; 2; 3]) [1; 2] p.
Proof.
  apply (kalloc_from_slab ex_alloc ex_free 0 10 (ex_cache [ex_slab 1 1 [1; 2; 3]] []) (ex_slab 1 1 [1; 2; 3]) [] 1 [2]).
  - by vm_compute.
  - by vm_compute.
  - reflexivity.
  - apply ex_slab_wf.
  - reflexivity.
  - reflexivity.
Defined.

Lemma ex_none_below s ptr : none_below (E := unit) s 4 ptr.
Proof. intros o Ho. unfold CACHE_START_ORDER in Ho. lia. Qed.

Lemma kalloc_kfree_roundtrip_witness :
  let s := ex_state [ex_slab 2 2 [1; 2; 3]] [] in
  ∃ s', kalloc ex_alloc ex_free 1 10 s = Ok (0x5030 + 2 * 16, s') ∧ kfree ex_free 1 (0x5030 + 2 * 16) s' = Ok (tt, s).
Proof.
  apply (kalloc_kfree_roundtrip ex_alloc ex_free 0 0 10 (ex_cache [ex_slab 2 2 [1; 2; 3]] []) (ex_slab 2 2 [1; 2; 3]) [] 2 []).
  - by vm_compute.
  - by vm_compute.
  - reflexivity.
  - apply ex_slab_one_left.
  - reflexivity.
  - reflexivity.
  - reflexivity.
  - apply ex_none_below.
  - constructor.
Defined.

Lemma ex_full_wf part full : slab_wf (ex_cache part full) (ex_slab 3 3 [1; 2; 3]) [].
Proof. split; cbn; try lia; try done; constructor. Qed.

Lemma ex_found :
  found_in (ex_state [] [ex_slab 3 3 [1; 2; 3]]) 4 (ex_cache [] [ex_slab 3 3 [1; 2; 3]]) 0x5040 true []
    (ex_slab 3 3 [1; 2; 3]) [].
Proof.
  split; [by vm_compute|done|apply ex_none_below|done| |done]. intros _. constructor.
Qed.

Lemma kfree_object_witness :
  let s := ex_state [] [ex_slab 3 3 [1; 2; 3]] in
  let c := ex_cache [] [ex_slab 3 3 [1; 2; 3]] in
  ∃ i slab', 0x5040 = 0x5030 + i * 16 ∧
    kfree ex_free 1 0x5040 s = Ok (tt, with_cache 4 (set_lists [slab'] [] c) s) ∧
    slab_wf c slab' [i] ∧ sl_mem slab' = 0x5030 ∧
    ∀ p, in_use c slab' [i] p ↔ in_use c (ex_slab 3 3 [1; 2; 3]) [] p ∧ p ≠ 0x5040.
Proof.
  apply (kfree_object ex_free 0 4 (ex_cache [] [ex_slab 3 3 [1; 2; 3]]) 0x5040 true [] (ex_slab 3 3 [1; 2; 3]) [] []).
  - exact ex_found.
  - apply ex_full_wf.
  - exists 1. split; [by vm_compute|]. split; [apply not_elem_of_nil|reflexivity].
  - done.
  - by vm_compute.
Defined.

Lemma kfree_misaligned_witness :
  kfree ex_free 1 0x5048 (ex_state [] [ex_slab 3 3 [1; 2; 3]]) = Fault (AssertFailed "Pointer not aligned").
Proof.
  apply (kfree_misaligned ex_free 0 4 (ex_cache [] [ex_slab 3 3 [1; 2; 3]]) 0x5048 true [] (ex_slab 3 3 [1; 2; 3]) []).
  - split; [by vm_compute|done|apply ex_none_below|done| |done]. intros _. constructor.
  - reflexivity.
  - by vm_compute.
Defined.

Lemma kfree_last_object_witness :
  let s := ex_state [ex_slab 1 1 [1; 2; 3]] [] in
  kfree ex_free 1 0x5030 s = on_pages (ex_free 0x5000 1) (with_cache 4 (set_lists [] [] (ex_cache [ex_slab 1 1 [1; 2; 3]] [])) s).
Proof.
  apply (kfree_last_object ex_free 0 4 (ex_cache [ex_slab 1 1 [1; 2; 3]] []) 0x5030 false [] (ex_slab 1 1 [1; 2; 3]) [] [1; 2]).
  - split; [by vm_compute|done|apply ex_none_below|done|done|done].
  - apply ex_slab_wf.
  - exists 0. split; [by vm_compute|]. split; [set_solver|reflexivity].
  - done.
  - reflexivity.
Defined.
End SlabFree.
