(* ===== verification/SlabHeap.v ===== *)
(** The slab allocator as a heap: the objects that are in use, over every path of [kalloc]
    and [kfree] (kernel/src/memory/slab_allocator.c), with the allocator's own structs that
    live in its caches.

    The array of caches is taken to have room for the orders 4 to 11 the loops use; the
    array of the source has one entry less, which [initialize_slab_allocator_overflow] of
    SlabFree.v is about. *)
From S2P Require Import Prelude Util Slab SlabFree.

Module SlabHeap.
Import Util Slab SlabFree.

(** ** Where the pages come from

    The allocator's theorems are proved against this interface. [holds e held]: in the state
    [e] of the page allocator the ranges [held] (address and number of pages) are its
    client's. *)
Definition range_apart (r r' : Z * Z) : Prop := r.1 + r.2 * PAGE_SIZE ≤ r'.1 ∨ r'.1 + r'.2 * PAGE_SIZE ≤ r.1.
Definition range_valid (r : Z * Z) : Prop := 0 < r.1 ∧ 0 < r.2 ∧ (4096 | r.1) ∧ r.1 + r.2 * PAGE_SIZE < 2 ^ 64.

Class PageSource {E} (alloc_pages : Z → Z → M E Z) (free_pages : Z → Z → M E unit) := {
  holds : E → list (Z * Z) → Prop;
  holds_valid e held : holds e held → Forall range_valid held;
  holds_apart e held : holds e held → ForallOrdPairs range_apart held;
  holds_perm e held held' : held ≡ₚ held' → holds e held → holds e held';
  alloc_holds e held pages p e' : holds e held → 0 < pages → alloc_pages pages PAGING_WRITABLE e = Ok (p, e') →
    (p = 0 ∧ holds e' held) ∨ (0 < p ∧ holds e' ((p, pages) :: held));
  free_holds e held p pages : holds e ((p, pages) :: held) →
    ∃ e', free_pages p pages e = Ok (tt, e') ∧ holds e' held;
}.

#[export] Instance holds_proper {E} (alloc : Z → Z → M E Z) free `{!PageSource alloc free} e : Proper (Permutation ==> iff) (holds e).
Proof. intros l l' Hl. split; by apply holds_perm. Qed.

(** ** Pairs of a list *)

Lemma pairs_app {A} (R : A → A → Prop) l1 l2 :
  ForallOrdPairs R (l1 ++ l2) → ForallOrdPairs R l1 ∧ ForallOrdPairs R l2 ∧ ∀ x y, x ∈ l1 → y ∈ l2 → R x y.
Proof.
  induction l1 as [|z l1 IH]; cbn; [intros H; split_and!; [constructor|done|intros ? ? []%not_elem_of_nil]|].
  intros H. inversion H as [|? ? Hz Hl]; subst. apply IH in Hl as (H1 & H2 & H3). apply Forall_app in Hz as [Hz1 Hz2].
  split_and!; [by constructor|done|]. intros x y [->|Hx]%elem_of_cons Hy; [|by apply H3].
  rewrite Forall_forall in Hz2. by apply Hz2.
Qed.

Lemma pairs_fmap {A B} (R : B → B → Prop) (f : A → B) l :
  ForallOrdPairs R (f <$> l) → ForallOrdPairs (λ x y, R (f x) (f y)) l.
Proof.
  induction l as [|x l IH]; [constructor|]. cbn. intros H. inversion H as [|? ? Hx Hl]; subst.
  constructor; [exact (proj1 (Forall_fmap f _ l) Hx)|by apply IH].
Qed.

(** ** The shape of a cache, by its order *)

Definition shape (o : Z) : Cache := match new_cache o tt with Ok (c, _) => c | Fault _ => no_cache end.

(** Whether the header of a slab is in its own pages. *)
Definition inside (o : Z) : bool := ca_size (shape o) <? OFF_SLAB_THRESHOLD.
Definition header (o : Z) : Z := if inside o then sizeof_Slab else 0.

Record good_shape (o : Z) : Prop := {
  gs_size : ca_size (shape o) = 2 ^ o;
  gs_count : 0 < ca_count (shape o);
  gs_mem : ca_mem_size (shape o) = ca_count (shape o) * ca_size (shape o);
  gs_small : ca_count (shape o) * ca_size (shape o) < 2 ^ 32;
  gs_pages : 0 < ca_pages (shape o);
  gs_array : 0 ≤ ca_free_arr_size (shape o);
  gs_fits : header o + ca_free_arr_size (shape o) + ca_mem_size (shape o) ≤ ca_pages (shape o) * PAGE_SIZE;
  gs_aligned : (header o + ca_free_arr_size (shape o)) mod 16 = 0;
  gs_min : MIN max_align (ca_size (shape o)) = 16;
  gs_mod : ca_size (shape o) mod 16 = 0;
}.

Lemma order_cases o : 4 ≤ o ≤ 11 → o = 4 ∨ o = 5 ∨ o = 6 ∨ o = 7 ∨ o = 8 ∨ o = 9 ∨ o = 10 ∨ o = 11.
Proof. lia. Qed.

Lemma shape_good o : 4 ≤ o ≤ 11 → good_shape o.
Proof. intros H%order_cases. destruct H as [->|[->|[->|[->|[->|[->|[->| ->]]]]]]]; by split; vm_compute. Qed.

Lemma inside_order o : 4 ≤ o ≤ 11 → inside o = (o <? 9).
Proof. intros H%order_cases. by destruct H as [->|[->|[->|[->|[->|[->|[->| ->]]]]]]]. Qed.

Lemma header_range o : 0 ≤ header o ≤ sizeof_Slab.
Proof. unfold header. by destruct (inside o). Qed.

(** A cache whose lists are all that differs from its shape. *)
Definition shaped (o : Z) (c : Cache) : Prop := c = set_lists (ca_part c) (ca_full c) (shape o).

Lemma shaped_wf o c slab chain : shaped o c → slab_wf c slab chain ↔ slab_wf (shape o) slab chain.
Proof. intros ->. split; intros []; by split. Qed.
Lemma shaped_in_use o c slab chain p : shaped o c → in_use c slab chain p ↔ in_use (shape o) slab chain p.
Proof. by intros ->. Qed.

(** ** Slabs and their objects

    A slab is listed with the order of its cache. *)
Implicit Types (L : list (Z * Slab)) (A : list PageAllocation) (X : list (Z * Z)).

Definition slab_range (x : Z * Slab) : Z * Z :=
  (sl_mem x.2 - ca_free_arr_size (shape x.1) - header x.1, ca_pages (shape x.1)).

Record slab_ok (x : Z * Slab) : Prop := {
  so_order : 4 ≤ x.1 ≤ 11;
  so_wf : ∃ chain, slab_wf (shape x.1) x.2 chain;
  so_inside : inside x.1 = true → sl_ptr x.2 = (slab_range x).1;
}.

(** The object of [2 ^ o] bytes at [p] is in use. *)
Definition used_in L (o p : Z) : Prop :=
  ∃ slab chain, (o, slab) ∈ L ∧ slab_wf (shape o) slab chain ∧ in_use (shape o) slab chain p.

(** The structs of the allocator itself: headers kept off their slab, entries of the list of
    page allocations. *)
Definition headers L : list Z := (λ x, sl_ptr x.2) <$> filter (λ x, inside x.1 = false) L.
Definition internals L A : list Z := headers L ++ (pa_entry <$> A).

Definition big_range (a : PageAllocation) : Z * Z := (pa_ptr a, pa_pages a).
Definition ranges L A : list (Z * Z) := (slab_range <$> L) ++ (big_range <$> A).

(** What the clients have: objects of the caches that are not the allocator's own, and page
    allocations. *)
Definition live L A (p n : Z) : Prop :=
  (∃ o, n = 2 ^ o ∧ used_in L o p ∧ (p ∉ internals L A)) ∨ (∃ a, a ∈ A ∧ p = pa_ptr a ∧ n = pa_pages a * PAGE_SIZE).

Lemma chain_unique count free i l l' : free_chain count free i l → free_chain count free i l' → l = l'.
Proof.
  intros Hl. revert l'. induction Hl as [|i next l Hi Hn Hl IH]; intros l' Hl'; inversion Hl' as [|? next' ? Hi' Hn']; subst; [done|lia|lia|].
  f_equal. apply IH. congruence.
Qed.

Lemma wf_unique c slab chain chain' : slab_wf c slab chain → slab_wf c slab chain' → chain = chain'.
Proof. intros H H'. eapply chain_unique; [apply (sw_chain _ _ _ H)|apply (sw_chain _ _ _ H')]. Qed.

(** *** Order of the lists does not matter *)

Lemma used_perm L L' o p : L ≡ₚ L' → used_in L o p ↔ used_in L' o p.
Proof. intros HL. unfold used_in. by setoid_rewrite HL. Qed.
Lemma internals_perm L L' A A' : L ≡ₚ L' → A ≡ₚ A' → internals L A ≡ₚ internals L' A'.
Proof. intros HL HA. unfold internals, headers. by rewrite HL, HA. Qed.
Lemma ranges_perm L L' A A' : L ≡ₚ L' → A ≡ₚ A' → ranges L A ≡ₚ ranges L' A'.
Proof. intros HL HA. unfold ranges. by rewrite HL, HA. Qed.
Lemma live_perm L L' A A' p n : L ≡ₚ L' → A ≡ₚ A' → live L A p n ↔ live L' A' p n.
Proof.
  intros HL HA. unfold live. setoid_rewrite (internals_perm L L' A A' HL HA). setoid_rewrite HA.
  by setoid_rewrite (used_perm L L' _ _ HL).
Qed.

Lemma used_cons o slab L chain o' p :
  slab_wf (shape o) slab chain →
  used_in ((o, slab) :: L) o' p ↔ (o' = o ∧ in_use (shape o) slab chain p) ∨ used_in L o' p.
Proof.
  intros Hwf. unfold used_in. split.
  - intros (sl & ch & [[= -> ->]|Hin]%elem_of_cons & Hwf' & Hu); [left|right; by exists sl, ch].
    by rewrite (wf_unique _ _ _ _ Hwf Hwf').
  - intros [[-> Hu]|(sl & ch & Hin & ?)]; [exists slab, chain|exists sl, ch]; (split; [|done]); [left|by right].
Qed.

Lemma headers_cons o slab L : headers ((o, slab) :: L) = if inside o then headers L else sl_ptr slab :: headers L.
Proof. unfold headers. rewrite filter_cons. cbn. by destruct (inside o). Qed.

(** *** Objects are in the range of their slab and apart *)

Lemma object_range o slab chain p :
  slab_ok (o, slab) → slab_wf (shape o) slab chain → in_use (shape o) slab chain p →
  (slab_range (o, slab)).1 ≤ p ∧ p + 2 ^ o ≤ (slab_range (o, slab)).1 + (slab_range (o, slab)).2 * PAGE_SIZE.
Proof.
  intros [Ho _ _] Hwf (i & Hi & _ & ->). cbn in *. destruct (shape_good o Ho) as [Hs Hc Hm _ _ Ha Hf _ _ _]. pose proof (header_range o).
  assert (0 < 2 ^ o) by (apply Z.pow_pos_nonneg; lia). rewrite Hs in *. nia.
Qed.

Lemma objects_apart o slab chain p q :
  4 ≤ o → in_use (shape o) slab chain p → in_use (shape o) slab chain q → ca_size (shape o) = 2 ^ o →
  p = q ∨ p + 2 ^ o ≤ q ∨ q + 2 ^ o ≤ p.
Proof.
  intros Ho (i & Hi & _ & ->) (j & Hj & _ & ->) ->. assert (0 < 2 ^ o) by (apply Z.pow_pos_nonneg; lia).
  destruct (Z.lt_trichotomy i j) as [|[->|]]; [right; left; nia|by left|right; right; nia].
Qed.

Lemma pairs_elem {B} (R : B → B → Prop) l x y : ForallOrdPairs R l → x ∈ l → y ∈ l → x = y ∨ R x y ∨ R y x.
Proof. rewrite !list_elem_of_In. intros Hl. by apply ForallOrdPairs_In. Qed.

(** ** The heap *)

Section heap.
Context {E : Type} (alloc_pages : Z → Z → M E Z) (free_pages : Z → Z → M E unit) `{!PageSource alloc_pages free_pages}.

(** [X] are ranges the page allocator has handed out to somebody else, or that are about to
    become a slab. *)
Record heap_at (e : E) X L A : Prop := {
  ha_slabs : Forall slab_ok L;
  ha_holds : holds e (X ++ ranges L A);
  ha_nodup : NoDup (internals L A);
  ha_internal : ∀ p, p ∈ internals L A → used_in L 5 p;
}.

Lemma heap_perm e X X' L L' A A' : X ≡ₚ X' → L ≡ₚ L' → A ≡ₚ A' → heap_at e X L A → heap_at e X' L' A'.
Proof.
  intros HX HL HA [Hs Hh Hn Hi]. split; [by rewrite <- HL| |by rewrite <- (internals_perm L L' A A')|].
  - by rewrite <- HX, <- (ranges_perm L L' A A').
  - intros p. rewrite <- (internals_perm L L' A A'), <- (used_perm L L') by done. apply Hi.
Qed.

Section apart.
Context {e : E} {X : list (Z * Z)} {L : list (Z * Slab)} {A : list PageAllocation} (H : heap_at e X L A).

Lemma ranges_valid r : r ∈ X ++ ranges L A → range_valid r.
Proof. pose proof (holds_valid _ _ (ha_holds _ _ _ _ H)) as Hv. rewrite Forall_forall in Hv. apply Hv. Qed.

Lemma slabs_apart x y : x ∈ L → y ∈ L → x = y ∨ range_apart (slab_range x) (slab_range y).
Proof.
  intros Hx Hy. pose proof (holds_apart _ _ (ha_holds _ _ _ _ H)) as (_ & Hr & _)%pairs_app.
  apply pairs_app in Hr as (Hl & _ & _). apply pairs_fmap in Hl.
  destruct (pairs_elem _ _ x y Hl Hx Hy) as [?|[?|Ha]]; [by left|by right|right]. unfold range_apart in *. lia.
Qed.
Lemma slab_big_apart x a : x ∈ L → a ∈ A → range_apart (slab_range x) (big_range a).
Proof.
  intros Hx Ha. pose proof (holds_apart _ _ (ha_holds _ _ _ _ H)) as (_ & Hr & _)%pairs_app.
  apply pairs_app in Hr as (_ & _ & Hc). apply Hc; by apply list_elem_of_fmap_2.
Qed.
Lemma bigs_apart a a' : a ∈ A → a' ∈ A → big_range a = big_range a' ∨ range_apart (big_range a) (big_range a').
Proof.
  intros Ha Ha'. pose proof (holds_apart _ _ (ha_holds _ _ _ _ H)) as (_ & Hr & _)%pairs_app.
  apply pairs_app in Hr as (_ & Hl & _). apply pairs_fmap in Hl.
  destruct (pairs_elem _ _ a a' Hl Ha Ha') as [->|[?|Hb]]; [by left|by right|right]. unfold range_apart in *. lia.
Qed.

Lemma used_range o p : used_in L o p → ∃ x, x ∈ L ∧ x.1 = o ∧ 4 ≤ o ≤ 11 ∧ (slab_range x).1 ≤ p ∧ p + 2 ^ o ≤ (slab_range x).1 + (slab_range x).2 * PAGE_SIZE.
Proof.
  intros (sl & ch & Hin & Hwf & Hu). pose proof (ha_slabs _ _ _ _ H) as Hs. rewrite Forall_forall in Hs.
  specialize (Hs _ Hin). exists (o, sl). split_and!; [done|done|apply Hs..| |]; by eapply object_range.
Qed.

Lemma used_order o p : used_in L o p → 4 ≤ o ≤ 11 ∧ 0 < p ∧ 0 < 2 ^ o.
Proof.
  intros (x & Hx & _ & Ho & Hp & _)%used_range. split; [done|]. split; [|apply Z.pow_pos_nonneg; lia].
  assert (range_valid (slab_range x)) as [? _]; [|lia]. apply ranges_valid, elem_of_app. right. apply elem_of_app. left.
  by apply list_elem_of_fmap_2.
Qed.

(** Objects in use do not overlap. *)
Lemma used_apart o p o' q : used_in L o p → used_in L o' q → (o = o' ∧ p = q) ∨ p + 2 ^ o ≤ q ∨ q + 2 ^ o' ≤ p.
Proof.
  intros (sl & ch & Hin & Hwf & Hu) (sl' & ch' & Hin' & Hwf' & Hu'). pose proof (ha_slabs _ _ _ _ H) as Hs. rewrite Forall_forall in Hs.
  destruct (slabs_apart _ _ Hin Hin') as [[= <- <-]|Ha].
  - rewrite <- (wf_unique _ _ _ _ Hwf Hwf') in Hu'. pose proof (so_order _ (Hs _ Hin)) as Ho. cbn in Ho.
    destruct (objects_apart o sl ch p q ltac:(lia) Hu Hu' (gs_size _ (shape_good o Ho))) as [->|?]; [by left|by right].
  - pose proof (object_range _ _ _ _ (Hs _ Hin) Hwf Hu). pose proof (object_range _ _ _ _ (Hs _ Hin') Hwf' Hu').
    unfold range_apart in Ha. lia.
Qed.

Lemma internal_order o p : p ∈ internals L A → used_in L o p → o = 5.
Proof.
  intros Hi Hu. pose proof (used_order _ _ Hu). destruct (used_apart _ _ _ _ Hu (ha_internal _ _ _ _ H p Hi)) as [[? _]|?]; [done|lia].
Qed.

(** Nor do those of the clients. *)
Lemma live_apart p n q m : live L A p n → live L A q m → (p = q ∧ n = m) ∨ p + n ≤ q ∨ q + m ≤ p.
Proof.
  assert (∀ o p a, used_in L o p → a ∈ A → p + 2 ^ o ≤ pa_ptr a ∨ pa_ptr a + pa_pages a * PAGE_SIZE ≤ p) as Hmix.
  { intros o p' a (x & Hx & _ & _ & H1 & H2)%used_range Ha. pose proof (slab_big_apart x a Hx Ha) as Hap. unfold range_apart in Hap. cbn in *. lia. }
  intros [(o & -> & Hu & _)|(a & Ha & -> & ->)] [(o' & -> & Hu' & _)|(a' & Ha' & -> & ->)].
  - destruct (used_apart _ _ _ _ Hu Hu') as [[-> ->]|?]; [by left|by right].
  - right. by apply Hmix.
  - right. destruct (Hmix o' q a Hu' Ha); lia.
  - destruct (bigs_apart a a' Ha Ha') as [[= -> ->]|?]; [by left|by right].
Qed.

Lemma live_positive p n : live L A p n → 0 < p ∧ 0 < n.
Proof.
  intros [(o & -> & Hu & _)|(a & Ha & -> & ->)]; [by destruct (used_order _ _ Hu)|].
  assert (range_valid (big_range a)) as (? & ? & _).
  { apply ranges_valid, elem_of_app. right. apply elem_of_app. right. by apply list_elem_of_fmap_2. }
  cbn in *. unfold PAGE_SIZE. lia.
Qed.

(** An address is that of one object at most. *)
Lemma live_unique p n m : live L A p n → live L A p m → n = m.
Proof.
  intros Hn Hm. destruct (live_apart p n p m Hn Hm) as [[_ ?]|?]; [done|].
  destruct (live_positive p n Hn), (live_positive p m Hm). lia.
Qed.
End apart.

Lemma used_not_big e X L A o p a : heap_at e X L A → used_in L o p → a ∈ A → p ≠ pa_ptr a.
Proof.
  intros H Hu Ha. destruct (used_order H o p Hu) as (_ & _ & ?).
  assert (range_valid (big_range a)) as (_ & Hn & _).
  { apply (ranges_valid H), elem_of_app. right. apply elem_of_app. right. by apply list_elem_of_fmap_2. }
  apply (used_range H) in Hu as (x & Hx & _ & _ & H1 & H2). pose proof (slab_big_apart H x a Hx Ha) as Hap.
  unfold range_apart, PAGE_SIZE in *. cbn in *. lia.
Qed.

Lemma used_order_unique e X L A o o' p : heap_at e X L A → used_in L o p → used_in L o' p → o = o'.
Proof.
  intros H Hu Hu'. pose proof (used_order H _ _ Hu). pose proof (used_order H _ _ Hu').
  destruct (used_apart H _ _ _ _ Hu Hu') as [[? _]|?]; [done|lia].
Qed.

(** No object of another slab is in the range of the first. *)
Lemma head_apart e X x L A o p :
  heap_at e X (x :: L) A → (slab_range x).1 ≤ p < (slab_range x).1 + (slab_range x).2 * PAGE_SIZE → ¬ used_in L o p.
Proof.
  intros H Hp Hu. pose proof (holds_apart _ _ (ha_holds _ _ _ _ H)) as (_ & Hr & _)%pairs_app.
  apply pairs_app in Hr as (Hl & _ & _). inversion Hl as [|? ? Hx _]; subst. rewrite Forall_fmap, Forall_forall in Hx.
  pose proof (ha_slabs _ _ _ _ H) as [_ Hok]%Forall_cons. rewrite Forall_forall in Hok.
  destruct Hu as (sl & ch & Hin & Hwf & Hu). pose proof (object_range _ _ _ _ (Hok _ Hin) Hwf Hu) as [H1 H2].
  assert (range_apart (slab_range x) (slab_range (o, sl))) as Hxa by exact (Hx _ Hin).
  pose proof (so_order _ (Hok _ Hin)) as Ho. cbn in Ho.
  assert (0 < 2 ^ o) by (apply Z.pow_pos_nonneg; lia). unfold range_apart in Hxa. lia.
Qed.

Lemma object_in_range o slab i :
  slab_ok (o, slab) → 0 ≤ i < ca_count (shape o) →
  (slab_range (o, slab)).1 ≤ sl_mem slab + i * 2 ^ o < (slab_range (o, slab)).1 + (slab_range (o, slab)).2 * PAGE_SIZE.
Proof.
  intros [Ho _ _] Hi. cbn in *. destruct (shape_good o Ho) as [Hs Hc Hm _ _ Ha Hf _ _ _]. pose proof (header_range o).
  assert (0 < 2 ^ o) by (apply Z.pow_pos_nonneg; lia). rewrite Hs in *. nia.
Qed.

(** *** What the steps of [kalloc] and [kfree] do to it *)

(** One more object, [n] bytes at [p], which was nobody's. *)
Definition gains L A L' A' (p n : Z) : Prop :=
  0 < p ∧ (∀ m, ¬ live L A p m) ∧ ∀ q m, live L' A' q m ↔ (q = p ∧ m = n) ∨ live L A q m.

Lemma heap_take e X L A o slab i rest next :
  heap_at e X ((o, slab) :: L) A → slab_wf (shape o) slab (i :: rest) → 0 ≤ i < ca_count (shape o) →
  slab_wf (shape o) (taken (shape o) slab next) rest →
  heap_at e X ((o, taken (shape o) slab next) :: L) A ∧
  gains ((o, slab) :: L) A ((o, taken (shape o) slab next) :: L) A (sl_mem slab + i * 2 ^ o) (2 ^ o).
Proof.
  intros H Hwf Hi Hwf'. set (p := sl_mem slab + i * 2 ^ o). set (L' := (o, taken (shape o) slab next) :: L).
  pose proof H as [[Hok HokL]%Forall_cons Hh Hn Hint]. pose proof (so_order _ Hok) as Ho. cbn in Ho.
  pose proof (gs_size _ (shape_good o Ho)) as Hsz. pose proof (object_in_range o slab i Hok Hi) as Hr.
  assert (∀ o' q, used_in L' o' q ↔ (o' = o ∧ q = p) ∨ used_in ((o, slab) :: L) o' q) as Hu.
  { intros o' q. unfold L'. rewrite (used_cons _ _ _ _ _ _ Hwf'), (used_cons _ _ _ _ _ _ Hwf), (taken_in_use _ _ _ _ _ _ Hwf Hi), Hsz.
    unfold p. tauto. }
  assert (internals L' A = internals ((o, slab) :: L) A) as Ei by (unfold internals, L'; by rewrite !headers_cons).
  assert (heap_at e X L' A) as H'.
  { split; [constructor; [|done]|exact Hh|by rewrite Ei|].
    - destruct Hok. by split; [|exists rest|].
    - intros q Hq. rewrite Ei in Hq. apply Hu. right. by apply Hint. }
  assert (¬ used_in ((o, slab) :: L) o p) as Hnew.
  { rewrite (used_cons _ _ _ _ _ _ Hwf). intros [[_ (j & Hj & Hnj & Ep)]|Hul]; [|by eapply head_apart].
    unfold p in Ep. rewrite Hsz in Ep. assert (0 < 2 ^ o) by (apply Z.pow_pos_nonneg; lia).
    assert (i = j) as <- by nia. apply Hnj, list_elem_of_here. }
  assert (used_in L' o p) as Hup by (apply Hu; by left).
  assert (p ∉ internals L' A) as Hpi.
  { rewrite Ei. intros Hp. pose proof (Hint p Hp) as H5.
    assert (5 = o) as <- by (apply (used_order_unique _ _ _ _ _ _ p H'); [apply Hu; by right|exact Hup]). done. }
  split; [done|]. split; [by apply (used_order H' o)|]. split.
  - intros m [(o' & -> & Hu' & _)|(a & Ha & Ep & _)]; [|by apply (used_not_big _ _ _ _ _ _ a H' Hup)].
    assert (o' = o) as -> by (apply (used_order_unique _ _ _ _ _ _ p H'); [apply Hu; by right|done]). done.
  - intros q m. unfold live. rewrite Ei in *. setoid_rewrite Hu. split.
    + intros [(o' & -> & [[-> ->]|?] & ?)|?]; [by left|right; left; by exists o'|by right; right].
    + intros [[-> ->]|[(o' & -> & ? & ?)|?]]; [left; exists o|left; exists o'|by right]; (split; [done|]); split; [by left|done|by right|done].
Qed.

(** The object at [p] is nobody's any more. *)
Definition loses L A L' A' (p : Z) : Prop := ∀ q m, live L' A' q m ↔ live L A q m ∧ q ≠ p.

Lemma used_less L L' A A' e X o p :
  heap_at e X L A → used_in L o p → (∀ o' q, used_in L' o' q ↔ used_in L o' q ∧ ¬ (o' = o ∧ q = p)) →
  ∀ o' q, used_in L' o' q ↔ used_in L o' q ∧ q ≠ p.
Proof.
  intros H Hp Hu o' q. rewrite Hu. split; [|naive_solver]. intros [Hq Hne]. split; [done|]. intros ->. apply Hne.
  split; [|done]. by apply (used_order_unique _ _ _ _ _ _ _ H Hq Hp).
Qed.

Lemma heap_give e X L A o slab chain i :
  heap_at e X ((o, slab) :: L) A → slab_wf (shape o) slab chain → 0 ≤ i < ca_count (shape o) → (i ∉ chain) →
  let p := sl_mem slab + i * 2 ^ o in
  (p ∉ internals ((o, slab) :: L) A) →
  heap_at e X ((o, given slab i) :: L) A ∧ loses ((o, slab) :: L) A ((o, given slab i) :: L) A p.
Proof.
  intros H Hwf Hi Hni p Hpi. set (L' := (o, given slab i) :: L).
  pose proof H as [[Hok HokL]%Forall_cons Hh Hn Hint]. pose proof (so_order _ Hok) as Ho. cbn in Ho.
  pose proof (gs_size _ (shape_good o Ho)) as Hsz. pose proof (object_in_range o slab i Hok Hi) as Hr.
  pose proof (given_wf _ _ _ _ Hwf Hi Hni) as Hwf'.
  assert (0 < 2 ^ o) as Hpos by (apply Z.pow_pos_nonneg; lia).
  assert (used_in ((o, slab) :: L) o p) as Hup.
  { apply (used_cons _ _ _ _ _ _ Hwf). left. split; [done|]. exists i. by rewrite Hsz. }
  assert (∀ o' q, used_in L' o' q ↔ used_in ((o, slab) :: L) o' q ∧ q ≠ p) as Hu.
  { apply (used_less _ _ _ A _ _ _ _ H Hup). intros o' q. unfold L'. rewrite (used_cons _ _ _ _ _ _ Hwf'), (used_cons _ _ _ _ _ _ Hwf).
    rewrite given_in_use by (done || lia). rewrite Hsz. fold p. split.
    - intros [[-> [? ?]]|Hul]; [naive_solver|]. split; [by right|]. intros [-> ->]. by eapply head_apart.
    - intros [[[-> ?]|?] Hne]; [left|by right]. split; [done|]. split; [done|naive_solver]. }
  assert (internals L' A = internals ((o, slab) :: L) A) as Ei by (unfold internals, L'; by rewrite !headers_cons).
  split.
  - split; [constructor; [|done]|exact Hh|by rewrite Ei|].
    + destruct Hok. by split; [|exists (i :: chain)|].
    + intros q Hq. rewrite Ei in Hq. apply Hu. split; [by apply Hint|congruence].
  - intros q m. unfold live. rewrite Ei. setoid_rewrite Hu. split.
    + intros [(o' & -> & [? ?] & ?)|(a & Ha & -> & ->)]; [split; [left; by exists o'|done]|].
      split; [right; by exists a|]. intros Eq. by apply (used_not_big _ _ _ _ _ _ a H Hup).
    + intros [[(o' & -> & ? & ?)|?] Hne]; [left; by exists o'|by right].
Qed.

Lemma internals_cons o slab L A : internals ((o, slab) :: L) A = if inside o then internals L A else sl_ptr slab :: internals L A.
Proof. unfold internals. rewrite headers_cons. by destruct (inside o). Qed.

(** The slab whose only object was at [p] is gone and its pages are given back: a header kept
    off the slab is an object like any other now. *)
Lemma heap_drop e e' X L A o slab chain i :
  heap_at e X ((o, slab) :: L) A → slab_wf (shape o) slab chain → 0 ≤ i < ca_count (shape o) → (i ∉ chain) →
  sl_allocated slab = 1 → let p := sl_mem slab + i * 2 ^ o in
  (p ∉ internals ((o, slab) :: L) A) → holds e' (X ++ ranges L A) →
  heap_at e' X L A ∧ (∀ q m, live L A q m ↔ (live ((o, slab) :: L) A q m ∧ q ≠ p) ∨ (inside o = false ∧ q = sl_ptr slab ∧ m = 32)) ∧
  (inside o = false → ¬ live ((o, slab) :: L) A (sl_ptr slab) 32).
Proof.
  intros H Hwf Hi Hni Hone p Hpi Hh'. pose proof H as [[Hok HokL]%Forall_cons Hh Hn Hint]. pose proof (so_order _ Hok) as Ho. cbn in Ho.
  pose proof (gs_size _ (shape_good o Ho)) as Hsz. pose proof (object_in_range o slab i Hok Hi) as Hr. fold p in Hr.
  assert (used_in ((o, slab) :: L) o p) as Hup.
  { apply (used_cons _ _ _ _ _ _ Hwf). left. split; [done|]. exists i. by rewrite Hsz. }
  assert (∀ q, in_use (shape o) slab chain q → q = p) as Honly.
  { intros q (j & Hj & Hnj & ->). rewrite Hsz. unfold p. f_equal. f_equal. destruct (decide (j = i)) as [|Hne]; [done|exfalso].
    pose proof (chain_length (shape o) (i :: j :: chain)) as Hlen. pose proof (sw_allocated _ _ _ Hwf) as Hall.
    pose proof (chain_range _ _ _ _ (sw_chain _ _ _ Hwf)) as Hcr. cbn [length] in Hlen. pose proof (gs_count _ (shape_good o Ho)).
    enough (Z.of_nat (S (S (length chain))) ≤ Z.max 0 (ca_count (shape o))) by lia. apply Hlen.
    - constructor; [by apply not_elem_of_cons|]. constructor; [done|apply Hwf].
    - by do 2 (apply Forall_cons_2; [done|]). }
  assert (∀ o' q, used_in L o' q ↔ used_in ((o, slab) :: L) o' q ∧ q ≠ p) as Hu.
  { apply (used_less _ _ _ A _ _ _ _ H Hup). intros o' q. rewrite (used_cons _ _ _ _ _ _ Hwf). split.
    - intros Hul. split; [by right|]. intros [-> ->]. by eapply head_apart.
    - intros [[[-> ?%Honly]|?] Hne]; [naive_solver|done]. }
  rewrite internals_cons in *.
  assert (∀ q, q ∈ internals L A → (q ∈ if inside o then internals L A else sl_ptr slab :: internals L A)) as Hsub.
  { intros q Hq. destruct (inside o); [done|by right]. }
  assert (heap_at e' X L A) as H'.
  { split; [done|done|destruct (inside o); [done|by apply NoDup_cons in Hn as []]|].
    intros q Hq. apply Hu. split; [by apply Hint, Hsub|]. intros ->. by apply Hpi, Hsub. }
  split; [done|]. split.
  - intros q m. unfold live. rewrite internals_cons. setoid_rewrite Hu. split.
    + intros [(o' & -> & [Hq Hne] & Hqi)|(a & Ha & -> & ->)].
      * destruct (inside o) eqn:Ein; [left; split; [left; by exists o'|done]|].
        destruct (decide (q = sl_ptr slab)) as [->|Hqs].
        -- right. split_and!; [done|done|]. change 32 with (2 ^ 5). f_equal.
           apply (used_order_unique _ _ _ _ _ _ _ H Hq), Hint, list_elem_of_here.
        -- left. split; [|done]. left. exists o'. by rewrite not_elem_of_cons.
      * left. split; [right; by exists a|]. intros Eq. by apply (used_not_big _ _ _ _ _ _ a H Hup).
    + intros [[[(o' & -> & Hq & Hqi)|?] Hne]|(Ein & -> & ->)]; [left; exists o'; naive_solver|by right|].
      left. exists 5. rewrite Ein in *. split; [done|]. apply NoDup_cons in Hn as [Hn1 _]. split; [|done].
      split; [apply Hint, list_elem_of_here|]. intros <-. apply Hpi, list_elem_of_here.
  - intros Ein. unfold live. rewrite internals_cons, Ein in *. intros [(o' & _ & _ & Hni')|(a & Ha & Ep & _)].
    + apply Hni', list_elem_of_here.
    + eapply (used_not_big _ _ _ _ 5 _ a H); [apply Hint, list_elem_of_here|done|done].
Qed.

(** An object of 32 bytes is one of the cache for them. *)
Lemma live_32 e X L A p : heap_at e X L A → live L A p 32 → used_in L 5 p ∧ (p ∉ internals L A).
Proof.
  intros H [(o & Eo & Hup & Hni)|(b & Hb & _ & Epg)].
  - pose proof (used_order H _ _ Hup). by assert (o = 5) as -> by (apply (Z.pow_inj_r 2); lia).
  - exfalso. assert (range_valid (big_range b)) as (_ & Hpos & _); [|cbn in Hpos; unfold PAGE_SIZE in Epg; lia].
    apply (ranges_valid H), elem_of_app. right. apply elem_of_app. right. by apply list_elem_of_fmap_2.
Qed.

(** Pages become a slab without objects. *)
Lemma heap_add e X L A o slab chain :
  heap_at e (slab_range (o, slab) :: X) L A → slab_ok (o, slab) → slab_wf (shape o) slab chain →
  (∀ q, ¬ in_use (shape o) slab chain q) →
  (inside o = false → live L A (sl_ptr slab) 32) →
  heap_at e X ((o, slab) :: L) A ∧ ∀ q m, live ((o, slab) :: L) A q m ↔ live L A q m ∧ (inside o = false → q ≠ sl_ptr slab).
Proof.
  intros H Hok Hwf Hnone Hptr. pose proof H as [HokL Hh Hn Hint].
  assert (∀ o' q, used_in ((o, slab) :: L) o' q ↔ used_in L o' q) as Hu.
  { intros o' q. rewrite (used_cons _ _ _ _ _ _ Hwf). naive_solver. }
  assert (inside o = false → used_in L 5 (sl_ptr slab) ∧ (sl_ptr slab ∉ internals L A) ∧ ∀ a, a ∈ A → sl_ptr slab ≠ pa_ptr a) as Hp.
  { intros Ein. destruct (live_32 _ _ _ _ _ H (Hptr Ein)) as [Hup Hni]. split_and!; [done|done|].
    intros a Ha. by apply (used_not_big _ _ _ _ _ _ a H Hup). }
  split.
  - split; [by constructor| | |].
    + eapply holds_perm; [|exact Hh]. unfold ranges. cbn. apply Permutation_middle.
    + rewrite internals_cons. destruct (inside o); [done|]. constructor; [by apply Hp|done].
    + intros q. rewrite internals_cons, Hu. destruct (inside o); [apply Hint|]. intros [->|Hq]%elem_of_cons; [by apply Hp|by apply Hint].
  - intros q m. unfold live. rewrite internals_cons. setoid_rewrite Hu. destruct (inside o).
    + split; [by intros ?|by intros [? _]].
    + destruct (Hp eq_refl) as (_ & _ & Hna). setoid_rewrite not_elem_of_cons. split.
      * intros [(o' & -> & ? & ? & ?)|(a & Ha & -> & ->)]; [split; [left; by exists o'|done]|].
        split; [right; by exists a|]. intros _ Ea. by apply (Hna a).
      * intros [[(o' & -> & ? & ?)|?] Hne]; [left; exists o'; naive_solver|by right].
Qed.

(** Pages become an allocation of their own, an object its entry. *)
Lemma heap_add_big e X L A a :
  heap_at e (big_range a :: X) L A → live L A (pa_entry a) 32 →
  heap_at e X L (a :: A) ∧
  ∀ q m, live L (a :: A) q m ↔ (q = pa_ptr a ∧ m = pa_pages a * PAGE_SIZE) ∨ (live L A q m ∧ q ≠ pa_entry a).
Proof.
  intros H He. pose proof H as [HokL Hh Hn Hint].
  assert (internals L (a :: A) ≡ₚ pa_entry a :: internals L A) as Ei.
  { unfold internals. cbn. by rewrite Permutation_middle. }
  destruct (live_32 _ _ _ _ _ H He) as [Hu Hni].
  split.
  - split; [done| |by rewrite Ei; constructor|].
    + eapply holds_perm; [|exact Hh]. unfold ranges. cbn. rewrite !app_assoc. apply Permutation_middle.
    + intros q. rewrite Ei. intros [->|Hq]%elem_of_cons; [done|by apply Hint].
  - intros q m. unfold live. setoid_rewrite Ei. setoid_rewrite not_elem_of_cons. setoid_rewrite elem_of_cons. split.
    + intros [(o' & -> & ? & ? & ?)|(b & [->|Hb] & -> & ->)]; [right; split; [left; by exists o'|done]|by left|].
      right. split; [right; by exists b|]. intros Eb. by apply (used_not_big _ _ _ _ _ _ b H Hu).
    + intros [[-> ->]|[[(o' & -> & ? & ?)|(b & Hb & -> & ->)] Hne]]; [right; exists a; naive_solver|left; by exists o'|right; exists b; naive_solver].
Qed.

Lemma heap_drop_big e e' X L A a :
  heap_at e X L (a :: A) → holds e' (X ++ ranges L A) →
  heap_at e' X L A ∧
  (∀ q m, live L A q m ↔ (live L (a :: A) q m ∧ q ≠ pa_ptr a) ∨ (q = pa_entry a ∧ m = 32)) ∧ ¬ live L (a :: A) (pa_entry a) 32.
Proof.
  intros H Hh'. pose proof H as [HokL Hh Hn Hint].
  assert (internals L (a :: A) ≡ₚ pa_entry a :: internals L A) as Ei.
  { unfold internals. cbn. by rewrite Permutation_middle. }
  rewrite Ei in Hn. setoid_rewrite Ei in Hint. apply NoDup_cons in Hn as [Hni Hn].
  assert (used_in L 5 (pa_entry a)) as Hu by apply Hint, list_elem_of_here.
  assert (∀ b, b ∈ A → pa_ptr b ≠ pa_ptr a) as Hother.
  { intros b Hb Eb. pose proof (holds_apart _ _ Hh) as (_ & Hr & _)%pairs_app. apply pairs_app in Hr as (_ & Hl & _).
    inversion Hl as [|? ? Hx _]; subst. rewrite Forall_fmap, Forall_forall in Hx.
    assert (range_apart (big_range a) (big_range b)) as Hab by exact (Hx b Hb).
    assert (range_valid (big_range a) ∧ range_valid (big_range b)) as [(_ & ? & _) (_ & ? & _)].
    { split; apply (ranges_valid H), elem_of_app; right; apply elem_of_app; right; apply list_elem_of_fmap_2; [left|by right]. }
    unfold range_apart, PAGE_SIZE in *. cbn in *. lia. }
  split.
  - split; [done|done|done|]. intros q Hq. apply Hint. by right.
  - split; [|intros [(o' & _ & _ & Hni')|(b & Hb & Eb & _)]; [rewrite Ei in Hni'; apply Hni', list_elem_of_here|]].
    + intros q m. unfold live. setoid_rewrite Ei. setoid_rewrite not_elem_of_cons. setoid_rewrite elem_of_cons. split.
      * intros [(o' & -> & Hq & ?)|(b & Hb & -> & ->)].
        -- destruct (decide (q = pa_entry a)) as [->|].
           { right. split; [done|]. change 32 with (2 ^ 5). f_equal. by apply (used_order_unique _ _ _ _ _ _ _ H Hq). }
           left. split; [left; by exists o'|]. by apply (used_not_big _ _ _ _ _ _ a H Hq), list_elem_of_here.
        -- left. split; [right; exists b; naive_solver|by apply Hother].
      * intros [[[(o' & -> & ? & ? & ?)|(b & [->|Hb] & -> & ->)] Hne]|[-> ->]]; [left; by exists o'|done|right; by exists b|].
        left. exists 5. split; [done|]. by split.
    + by apply (used_not_big _ _ _ _ _ _ b H Hu).
Qed.

(** ** The state *)

Implicit Types (s : E * SlabAllocator).

Definition slabs_of (o : Z) (c : Cache) : list (Z * Slab) := (λ sl, (o, sl)) <$> (ca_part c ++ ca_full c).
Definition all_slabs s : list (Z * Slab) :=
  concat (imap (λ i c, slabs_of (Z.of_nat i + CACHE_START_ORDER) c) (sa_caches s.2)).
Definition bigs s : list PageAllocation := sa_page_allocations s.2.

(** The caches have their shapes, partial slabs have a free object and full ones have none. *)
Record cache_ok (o : Z) (c : Cache) : Prop := {
  co_shaped : shaped o c;
  co_part : Forall (λ sl, sl_allocated sl < ca_count (shape o)) (ca_part c);
  co_full : Forall (λ sl, sl_allocated sl = ca_count (shape o)) (ca_full c);
}.
Record heap_pre X s : Prop := {
  hi_length : length (sa_caches s.2) = 8%nat;
  hi_caches : ∀ o c, cache_at s o = Some c → cache_ok o c;
  hi_heap : heap_at s.1 X (all_slabs s) (bigs s);
}.

(** Every slab that is kept has an object in use. *)
Definition all_used L : Prop := Forall (λ x, 0 < sl_allocated x.2) L.
Record heap_inv X s : Prop := {
  hi_pre :> heap_pre X s;
  hi_used : all_used (all_slabs s);
}.

(** The object of [n] bytes at [p] is some client's. *)
Definition live_at s : Z → Z → Prop := live (all_slabs s) (bigs s).
Definition gains_at s s' : Z → Z → Prop := gains (all_slabs s) (bigs s) (all_slabs s') (bigs s').

Lemma cache_at_order X s o : heap_pre X s → is_Some (cache_at s o) ↔ 4 ≤ o ≤ 11.
Proof. intros H. unfold cache_at. rewrite lookupZ_is_Some, (hi_length _ _ H). unfold CACHE_START_ORDER. lia. Qed.

(** The slabs of one cache and the others. *)
Lemma all_slabs_cache s o c :
  cache_at s o = Some c →
  ∃ rest, all_slabs s ≡ₚ slabs_of o c ++ rest ∧ ∀ c', all_slabs (with_cache o c' s) ≡ₚ slabs_of o c' ++ rest.
Proof.
  intros Hc. pose proof (lookupZ_Some_range _ _ _ Hc) as Ho. unfold cache_at, lookupZ in Hc.
  destruct (Z.ltb_spec (o - CACHE_START_ORDER) 0) as [|Hge]; [done|]. set (n := Z.to_nat (o - CACHE_START_ORDER)) in *.
  assert (Z.of_nat n + CACHE_START_ORDER = o) as En by lia. set (cs := sa_caches s.2) in *.
  assert (n < length cs)%nat as Hn by by eapply lookup_lt_Some.
  assert (∀ c', concat (imap (λ i c, slabs_of (Z.of_nat i + CACHE_START_ORDER) c) (take n cs ++ c' :: drop (S n) cs)) ≡ₚ
    slabs_of o c' ++ (concat (imap (λ i c, slabs_of (Z.of_nat i + CACHE_START_ORDER) c) (take n cs)) ++
      concat (imap (λ i c, slabs_of (Z.of_nat (S n + i) + CACHE_START_ORDER) c) (drop (S n) cs)))) as Hmid.
  { intros c'. rewrite imap_app, concat_app. cbn [imap concat]. rewrite length_take, (Nat.min_l n) by lia. rewrite Nat.add_0_r, En.
    rewrite !app_assoc. f_equiv; [apply Permutation_app_comm|]. apply Permutation_refl', (f_equal (@concat (Z * Slab))), imap_ext.
    intros i x _. cbn. do 2 f_equal. lia. }
  eexists. split.
  - unfold all_slabs. fold cs. rewrite <- (take_drop_middle cs n c Hc) at 1. apply Hmid.
  - intros c'. unfold all_slabs, with_cache. cbn [snd sa_caches]. unfold insertZ. fold cs n. destruct (Z.ltb_spec (o - CACHE_START_ORDER) 0); [lia|].
    rewrite insert_take_drop by done. apply Hmid.
Qed.

Lemma elem_all_slabs s o sl : (o, sl) ∈ all_slabs s ↔ ∃ c, cache_at s o = Some c ∧ sl ∈ ca_part c ++ ca_full c.
Proof.
  unfold all_slabs. split.
  - rewrite list_elem_of_In, in_concat. setoid_rewrite <- list_elem_of_In. intros (l & (i & c & -> & Hi)%elem_of_lookup_imap & Hin).
    apply list_elem_of_fmap in Hin as (sl' & [= -> ->] & Hin). exists c. split; [|done]. unfold cache_at, lookupZ.
    replace (Z.of_nat i + CACHE_START_ORDER - CACHE_START_ORDER) with (Z.of_nat i) by lia.
    destruct (Z.ltb_spec (Z.of_nat i) 0); [lia|]. by rewrite Nat2Z.id.
  - intros (c & Hc & Hin). destruct (all_slabs_cache s o c Hc) as (rest & Hp & _). unfold all_slabs in Hp. rewrite Hp.
    apply elem_of_app. left. by apply list_elem_of_fmap_2.
Qed.

Lemma gains_perm L1 L2 A1 A2 L1' L2' A1' A2' p n :
  L1 ≡ₚ L2 → A1 ≡ₚ A2 → L1' ≡ₚ L2' → A1' ≡ₚ A2' → gains L1 A1 L1' A1' p n → gains L2 A2 L2' A2' p n.
Proof.
  intros HL HA HL' HA' (Hp & Hn & Hg). split; [done|]. split; intros ?.
  - rewrite <- (live_perm L1 L2 A1 A2) by done. apply Hn.
  - intros m. rewrite <- (live_perm L1' L2' A1' A2'), <- (live_perm L1 L2 A1 A2) by done. apply Hg.
Qed.

Lemma with_cache_inv X Y s o c c' e :
  heap_pre Y s → cache_at s o = Some c → cache_ok o c' →
  heap_at e X (all_slabs (with_cache o c' s)) (bigs s) → heap_pre X (e, (with_cache o c' s).2).
Proof.
  intros H Hc Hc' Hh. split; [|intros o' c0 Hc0|exact Hh].
  - cbn. rewrite length_insertZ. apply H.
  - change (cache_at (with_cache o c' s) o' = Some c0) in Hc0. destruct (decide (o' = o)) as [->|Hne].
    + rewrite (cache_at_with o c c' s Hc) in Hc0. by injection Hc0 as <-.
    + rewrite cache_at_with_ne in Hc0 by done. by eapply hi_caches.
Qed.

Lemma set_lists_shaped o c part full : shaped o c → shaped o (set_lists part full c).
Proof. by intros ->. Qed.

(** The slabs of a state with one of them in front. *)
Lemma slab_in_front X s o c before slab after other :
  heap_pre X s → cache_at s o = Some c → ca_part c ++ ca_full c ≡ₚ slab :: before ++ after ++ other →
  ∃ rest, heap_at s.1 X ((o, slab) :: ((λ sl, (o, sl)) <$> (before ++ after ++ other)) ++ rest) (bigs s) ∧
    all_slabs s ≡ₚ (o, slab) :: ((λ sl, (o, sl)) <$> (before ++ after ++ other)) ++ rest ∧
    ∀ c' slabs', ca_part c' ++ ca_full c' ≡ₚ slabs' → all_slabs (with_cache o c' s) ≡ₚ ((λ sl, (o, sl)) <$> slabs') ++ rest.
Proof.
  intros H Hc Hp. destruct (all_slabs_cache s o c Hc) as (rest & Hr & Hr'). exists rest.
  assert (all_slabs s ≡ₚ (o, slab) :: ((λ sl, (o, sl)) <$> (before ++ after ++ other)) ++ rest) as Hs.
  { rewrite Hr. unfold slabs_of. by rewrite Hp. }
  split; [eapply heap_perm; [done|exact Hs|done|apply H]|]. split; [done|].
  intros c' slabs' Hp'. rewrite Hr'. unfold slabs_of. by rewrite Hp'.
Qed.

Lemma others_used s o slab L : all_used (all_slabs s) → all_slabs s ≡ₚ (o, slab) :: L → all_used L.
Proof. unfold all_used. intros H Hp. rewrite Hp in H. by apply Forall_cons in H as []. Qed.

(** The part of [kalloc] that takes an object of the first partial slab. *)
Lemma alloc_from_part_heap X s o c slab part :
  heap_pre X s → cache_at s o = Some c → ca_part c = slab :: part →
  (∀ L, all_slabs s ≡ₚ (o, slab) :: L → all_used L) →
  ∃ p s', alloc_from_part o s = Ok (p, s') ∧ heap_inv X s' ∧ gains_at s s' p (2 ^ o).
Proof.
  intros H Hc Hpart Hothers. destruct (hi_caches _ _ H o c Hc) as [Hsh Hcp Hcf].
  destruct (slab_in_front X s o c [] slab part (ca_full c) H Hc) as (rest & Hh & Hs & Hs'); [by rewrite Hpart|].
  cbn [app] in *. set (L := ((λ sl, (o, sl)) <$> part ++ ca_full c) ++ rest) in *.
  pose proof (ha_slabs _ _ _ _ Hh) as [Hok _]%Forall_cons. pose proof Hok as [Ho (chain & Hwf) _]. cbn in Ho, Hwf.
  destruct (shape_good o Ho) as [Hsz Hcount _ _ _ _ _ Hal Hmin Hmod].
  rewrite Hpart in Hcp. apply Forall_cons in Hcp as [Hlt Hcp].
  destruct chain as [|i rc]; [rewrite (sw_allocated _ _ _ Hwf) in Hlt; cbn in Hlt; lia|].
  assert (range_valid (slab_range (o, slab))) as (_ & _ & Hpg & _).
  { apply (ranges_valid Hh), elem_of_app. right. apply elem_of_app. left. apply list_elem_of_here. }
  assert (sl_mem slab mod MIN max_align (ca_size c) = 0) as Hma.
  { rewrite Hsh. cbn [ca_size set_lists]. rewrite Hmin. replace (sl_mem slab) with ((slab_range (o, slab)).1 + (header o + ca_free_arr_size (shape o))) by (cbn; lia).
    apply Z.mod_divide; [done|]. apply Z.divide_add_r; [|by apply Z.mod_divide].
    eapply Z.divide_trans; [|exact Hpg]. by exists 256. }
  assert (ca_size c mod MIN max_align (ca_size c) = 0 ∧ ca_size c = 2 ^ o ∧ 0 < ca_size c) as (Hmc & Hcs & Hpos).
  { rewrite Hsh. cbn [ca_size set_lists]. rewrite Hmin, Hsz in *. split_and!; [done|done|apply Z.pow_pos_nonneg; lia]. }
  pose proof (proj2 (shaped_wf o c slab (i :: rc) Hsh) Hwf) as Hwfc.
  destruct (alloc_from_part_eq o c slab part i rc s Hc Hpart Hwfc Hma Hmc Hpos) as (next & _ & _ & Hi & Hwfc' & E1).
  assert (ca_count c = ca_count (shape o)) as Hcc by by rewrite Hsh. rewrite Hcc in Hi.
  change (taken c slab next) with (taken (shape o) slab next) in *. set (slab' := taken (shape o) slab next) in *.
  pose proof (proj1 (shaped_wf o c slab' rc Hsh) Hwfc') as Hwf'.
  destruct (heap_take s.1 X L (bigs s) o slab i rc next Hh Hwf Hi Hwf') as [Hh' Hg].
  rewrite Hcs in E1. exists (sl_mem slab + i * 2 ^ o), (with_cache o (after_take c slab' part) s). split; [done|].
  assert (all_slabs (with_cache o (after_take c slab' part) s) ≡ₚ (o, slab') :: L) as Hp'.
  { rewrite (Hs' _ (slab' :: part ++ ca_full c)); [done|]. unfold after_take. destruct (_ =? _); cbn; [|done]. by rewrite Permutation_middle. }
  pose proof (sw_allocated _ _ _ Hwf') as Hall. pose proof (sw_nodup _ _ _ Hwf) as Hnd.
  pose proof (chain_length (shape o) (i :: rc) Hnd (chain_range _ _ _ _ (sw_chain _ _ _ Hwf))) as Hlen. cbn [length] in Hlen.
  split; [split|].
  - apply (with_cache_inv X X s o c _ s.1); [done|done| |eapply heap_perm; [done|symmetry; exact Hp'|done|exact Hh']].
    unfold after_take. rewrite Hcc. destruct (Z.eqb_spec (sl_allocated slab') (ca_count (shape o))).
    + split; [by apply set_lists_shaped|done|by constructor].
    + split; [by apply set_lists_shaped|constructor; [lia|done]|done].
  - unfold all_used. rewrite Hp'. constructor; [cbn [snd]; lia|by apply Hothers].
  - eapply gains_perm; [symmetry; exact Hs|done|symmetry; exact Hp'|done|exact Hg].
Qed.

(** ** kalloc *)

Lemma new_slab_chain n k :
  (k ≤ n)%nat →
  free_chain (Z.of_nat n) ((λ i, Z.of_nat i + 1) <$> seq 0 n) (Z.of_nat (n - k)) (Z.of_nat <$> seq (n - k) k).
Proof.
  induction k as [|k IH]; intros Hk; [rewrite Nat.sub_0_r; constructor|]. cbn [seq fmap list_fmap].
  apply (chain_next _ _ _ (Z.of_nat (n - k))); [lia| |].
  - unfold lookupZ. destruct (Z.ltb_spec (Z.of_nat (n - S k)) 0); [lia|]. rewrite Nat2Z.id, list_lookup_fmap, lookup_seq_lt by lia.
    cbn. f_equal. lia.
  - replace (S (n - S k)) with (n - k)%nat by lia. apply IH. lia.
Qed.

Lemma new_slab_wf o ptr mem :
  4 ≤ o ≤ 11 → 0 ≤ mem → mem + ca_free_arr_size (shape o) + ca_mem_size (shape o) < 2 ^ 64 →
  slab_wf (shape o) (new_slab (shape o) ptr mem) (Z.of_nat <$> seq 0 (Z.to_nat (ca_count (shape o)))).
Proof.
  intros Ho Hm Hb. destruct (shape_good o Ho) as [Hsz Hc Hms Hsm _ Ha _ _ _ _]. assert (0 < 2 ^ o) by (apply Z.pow_pos_nonneg; lia).
  split; unfold new_slab; cbn [sl_mem sl_free sl_next_free sl_allocated]; [lia|done|done|lia| | | |].
  - rewrite length_fmap, length_seq. lia.
  - pose proof (new_slab_chain (Z.to_nat (ca_count (shape o))) (Z.to_nat (ca_count (shape o))) ltac:(lia)) as Hch.
    rewrite Nat.sub_diag, Z2Nat.id in Hch by lia. exact Hch.
  - apply NoDup_fmap_2; [apply _|apply NoDup_seq].
  - rewrite length_fmap, length_seq. lia.
Qed.

Lemma new_slab_unused o ptr mem p :
  ¬ in_use (shape o) (new_slab (shape o) ptr mem) (Z.of_nat <$> seq 0 (Z.to_nat (ca_count (shape o)))) p.
Proof.
  intros (i & Hi & Hni & _). apply Hni, list_elem_of_fmap. exists (Z.to_nat i). split; [lia|]. apply elem_of_seq. lia.
Qed.

(** Pages of the page allocator for a cache: they become a slab, and an object of it is taken. *)
Lemma add_slab_heap X s o c ptr mem :
  heap_inv ((mem, ca_pages (shape o)) :: X) s → cache_at s o = Some c →
  (if inside o then ptr = mem else live_at s ptr 32) →
  let m := if inside o then mem + sizeof_Slab else mem in
  ∃ p s', (_ ← add_slab o ptr m; alloc_from_part o) s = Ok (p, s') ∧ heap_inv X s' ∧ 0 < p ∧
    (∀ q n, live_at s' q n ↔ (q = p ∧ n = 2 ^ o) ∨ (live_at s q n ∧ (inside o = false → q ≠ ptr))) ∧
    ∀ n, ¬ (live_at s p n ∧ (inside o = false → p ≠ ptr)).
Proof.
  intros H Hc Hptr m. pose proof (proj1 (cache_at_order _ s o H) (ex_intro _ c Hc)) as Ho.
  destruct (hi_caches _ _ H o c Hc) as [Hsh Hcp Hcf]. destruct (shape_good o Ho) as [Hsz Hcount Hms _ _ Ha Hfit _ _ _].
  assert (range_valid (mem, ca_pages (shape o))) as (Hm0 & _ & _ & Hm1) by (apply (ranges_valid (hi_heap _ _ H)), list_elem_of_here).
  cbn [fst snd] in Hm0, Hm1.
  set (slab := new_slab (shape o) ptr m). set (c' := set_lists (slab :: ca_part c) (ca_full c) c).
  assert (slab_range (o, slab) = (mem, ca_pages (shape o))) as Er.
  { unfold slab_range, slab, new_slab, header, m. cbn. f_equal. destruct (inside o); lia. }
  assert (m = mem + header o) as Em by (unfold m, header; destruct (inside o); lia). pose proof (header_range o).
  pose proof (new_slab_wf o ptr m Ho ltac:(lia) ltac:(lia)) as Hwf. fold slab in Hwf.
  assert (slab_ok (o, slab)) as Hok.
  { split; [done|by eexists|]. rewrite Er. cbn. intros Ein. by rewrite Ein in Hptr. }
  destruct (heap_add s.1 X (all_slabs s) (bigs s) o slab (Z.of_nat <$> seq 0 (Z.to_nat (ca_count (shape o))))) as [Hh Hl];
    [by rewrite Er; apply H|done|exact Hwf|apply new_slab_unused|intros Ein; by rewrite Ein in Hptr|].
  destruct (all_slabs_cache s o c Hc) as (rest & Hr & Hr').
  assert (all_slabs (with_cache o c' s) ≡ₚ (o, slab) :: all_slabs s) as Hp by (rewrite Hr', Hr; done).
  assert (heap_pre X (with_cache o c' s)) as H1.
  { assert (cache_ok o c') as Hok'.
    { split; [by apply set_lists_shaped|constructor; [exact Hcount|done]|done]. }
    assert (heap_at s.1 X (all_slabs (with_cache o c' s)) (bigs s)) as Hh' by (eapply heap_perm; [done|symmetry; exact Hp|done|exact Hh]).
    apply (with_cache_inv X _ s o c c' s.1 H Hc Hok'). exact Hh'. }
  assert (∀ L, all_slabs (with_cache o c' s) ≡ₚ (o, slab) :: L → all_used L) as Hused.
  { intros L HL. rewrite Hp in HL. apply Permutation_cons_inv in HL. unfold all_used. rewrite <- HL. apply H. }
  destruct (alloc_from_part_heap X _ o c' slab (ca_part c) H1 (cache_at_with o c c' s Hc) eq_refl Hused) as (p & s' & E1 & H' & Hp0 & Hn & Hg).
  exists p, s'. assert (∀ q n, live_at (with_cache o c' s) q n ↔ live_at s q n ∧ (inside o = false → q ≠ ptr)) as Hl'.
  { intros q n. unfold live_at. rewrite (live_perm _ _ _ _ q n Hp (Permutation_refl _)). apply Hl. }
  split_and!; [|done|done| |].
  - unfold add_slab, mbind, M_bind. rewrite (get_cache_eq o c s Hc), (set_cache_eq o c _ s Hc).
    assert (new_slab c ptr m = slab) as -> by (unfold slab; rewrite Hsh; done). exact E1.
  - intros q n. etransitivity; [apply Hg|]. by rewrite <- Hl'.
  - intros n. rewrite <- Hl'. apply Hn.
Qed.

Lemma heap_inv_pages X X' e e' sa :
  heap_inv X (e, sa) → holds e' (X' ++ ranges (all_slabs (e, sa)) (bigs (e, sa))) → heap_inv X' (e', sa).
Proof. intros [[Hl Hc [Hs Hh Hn Hi]] Hu] Hh'. split; [|done]. split; [done|exact Hc|]. by split. Qed.

(** The clients' objects are the same. *)
Definition same_at s s' : Prop := ∀ q n, live_at s' q n ↔ live_at s q n.

(** Pages from the page allocator, none when it returns 0. *)
Lemma alloc_pages_heap X s pages p s' :
  heap_inv X s → 0 < pages → on_pages (alloc_pages pages PAGING_WRITABLE) s = Ok (p, s') →
  same_at s s' ∧ sa_caches s'.2 = sa_caches s.2 ∧ ((p = 0 ∧ heap_inv X s') ∨ (0 < p ∧ heap_inv ((p, pages) :: X) s')).
Proof.
  destruct s as [e sa]. intros H Hp. unfold on_pages. destruct (alloc_pages _ _ e) as [[p' e']|] eqn:Ea; [|done]. intros [= <- <-].
  split; [by intros q n|]. split; [done|].
  destruct (alloc_holds e _ pages p' e' (ha_holds _ _ _ _ (hi_heap _ _ H)) Hp Ea) as [[-> Hh]|[Hp' Hh]]; [left|right];
    (split; [done|]); eapply heap_inv_pages; [exact H|exact Hh|exact H|exact Hh].
Qed.

Lemma free_pages_heap X s p pages :
  heap_inv ((p, pages) :: X) s → ∃ s', on_pages (free_pages p pages) s = Ok (tt, s') ∧ heap_inv X s' ∧ same_at s s'.
Proof.
  destruct s as [e sa]. intros H. destruct (free_holds e _ p pages (ha_holds _ _ _ _ (hi_heap _ _ H))) as (e' & Ef & Hh).
  exists (e', sa). unfold on_pages. rewrite Ef. split; [done|]. split; [by eapply heap_inv_pages|by intros q n].
Qed.

(** What [kalloc] has done when it returns [p]: nothing the clients see, or an object of [n]
    bytes more. *)
Definition allocated_at X s s' (p n : Z) : Prop :=
  heap_inv X s' ∧ ((p = 0 ∧ same_at s s') ∨ gains_at s s' p n).

Lemma kalloc_inside fuel X s size p s' :
  let o := get_min_cache_order size in
  heap_inv X s → o ≤ 8 → kalloc alloc_pages free_pages (S fuel) size s = Ok (p, s') → allocated_at X s s' p (2 ^ o).
Proof.
  intros o H Ho8. destruct (min_cache_order_spec size) as ([Ho4 _] & _). fold o in Ho4. unfold CACHE_START_ORDER in Ho4.
  assert (4 ≤ o ≤ 11) as Ho by lia. assert (inside o = true) as Ein by (rewrite inside_order; lia).
  destruct (proj2 (cache_at_order X s o H) Ho) as [c Hc]. destruct (hi_caches _ _ H o c Hc) as [Hsh _ _].
  cbn [kalloc]. fold o. unfold CACHE_END_ORDER. replace (11 <? o) with false by lia.
  unfold mbind, M_bind at 1. rewrite (get_cache_eq o c s Hc). destruct (ca_part c) as [|slab part] eqn:Hpart.
  - assert (ca_pages c = ca_pages (shape o) ∧ (ca_size c <? OFF_SLAB_THRESHOLD) = true) as [-> ->] by (by rewrite Hsh).
    unfold M_bind at 1. destruct (on_pages _ s) as [[mem s1]|] eqn:Ea; [|done].
    destruct (alloc_pages_heap X s _ mem s1 H (gs_pages _ (shape_good o Ho)) Ea) as (Hsame & Ecs & [[-> H1]|[Hm H1]]).
    { cbn. intros [= <- <-]. split; [done|by left]. }
    replace (mem =? 0) with false by lia. intros E1.
    assert (cache_at s1 o = Some c) as Hc1 by (unfold cache_at in *; by rewrite Ecs).
    destruct (add_slab_heap X s1 o c mem mem H1 Hc1) as (p' & s2 & E2 & H2 & Hp' & Hg & Hn); [by rewrite Ein|].
    rewrite Ein in *. assert (Ok (p, s') = Ok (p', s2)) as [= -> ->] by (rewrite <- E1, <- E2; done).
    split; [done|]. right. split; [done|]. split.
    + intros n Hl. apply (Hn n). split; [by apply Hsame|done].
    + intros q n. rewrite (Hg q n), (Hsame q n). naive_solver.
  - intros E1. destruct (alloc_from_part_heap X s o c slab part H Hc Hpart (λ L, others_used s o slab L (hi_used _ _ H))) as (p' & s2 & E2 & H2 & Hg).
    rewrite E2 in E1. injection E1 as <- <-. split; [done|by right].
Qed.

Lemma live_outside e X L A r p n : heap_at e (r :: X) L A → live L A p n → r.1 + r.2 * PAGE_SIZE ≤ p ∨ p + n ≤ r.1.
Proof.
  intros H Hl. pose proof (holds_apart _ _ (ha_holds _ _ _ _ H)) as Hp. inversion Hp as [|? ? Hr _]; subst.
  apply Forall_app in Hr as [_ [Hrl Hra]%Forall_app]. rewrite Forall_fmap, Forall_forall in Hrl. rewrite Forall_fmap, Forall_forall in Hra. destruct Hl as [(o & -> & Hu & _)|(a & Ha & -> & ->)].
  - apply (used_range H) in Hu as (x & Hx & _ & Ho & H1 & H2). assert (range_apart r (slab_range x)) as Hrx by exact (Hrl x Hx).
    assert (0 < 2 ^ o) by (apply Z.pow_pos_nonneg; lia). unfold range_apart in Hrx. lia.
  - assert (range_apart r (big_range a)) as Hrx by exact (Hra a Ha). unfold range_apart in Hrx. cbn in Hrx. lia.
Qed.

Lemma kalloc_outside fuel X s size p s' :
  let o := get_min_cache_order size in
  heap_inv X s → 9 ≤ o ≤ 11 → kalloc alloc_pages free_pages (S (S fuel)) size s = Ok (p, s') → allocated_at X s s' p (2 ^ o).
Proof.
  intros o H Ho. assert (4 ≤ o ≤ 11) as Ho4 by lia. assert (inside o = false) as Ein by (rewrite inside_order; lia).
  destruct (proj2 (cache_at_order X s o H) Ho4) as [c Hc]. destruct (hi_caches _ _ H o c Hc) as [Hsh _ _].
  remember (S fuel) as f1 eqn:Ef. cbn [kalloc]. fold o. unfold CACHE_END_ORDER. replace (11 <? o) with false by lia.
  unfold mbind, M_bind at 1. rewrite (get_cache_eq o c s Hc). destruct (ca_part c) as [|slab part] eqn:Hpart.
  - assert (ca_pages c = ca_pages (shape o) ∧ (ca_size c <? OFF_SLAB_THRESHOLD) = false) as [-> ->] by (by rewrite Hsh).
    unfold M_bind at 1. destruct (on_pages _ s) as [[mem s1]|] eqn:Ea; [|done].
    destruct (alloc_pages_heap X s _ mem s1 H (gs_pages _ (shape_good o Ho4)) Ea) as (Hsame & _ & [[-> H1]|[Hm H1]]).
    { cbn. intros [= <- <-]. split; [done|by left]. }
    replace (mem =? 0) with false by lia. unfold M_bind at 1.
    destruct (kalloc _ _ f1 sizeof_Slab s1) as [[ptr s2]|] eqn:Ek; [|done]. subst f1.
    apply (kalloc_inside fuel _ s1 sizeof_Slab ptr s2 H1) in Ek as [H2 Hptr]; [|by vm_compute].
    change (2 ^ get_min_cache_order sizeof_Slab) with 32 in Hptr. destruct Hptr as [[-> Hsame2]|(Hp0 & Hn2 & Hg2)].
    + cbn [Z.eqb]. unfold M_bind. destruct (free_pages_heap X s2 mem _ H2) as (s3 & -> & H3 & Hsame3). intros [= <- <-].
      split; [done|]. left. split; [done|]. intros q n. by rewrite (Hsame3 q n), (Hsame2 q n).
    + replace (ptr =? 0) with false by lia. intros E1. destruct (proj2 (cache_at_order _ s2 o H2) Ho4) as [c2 Hc2].
      destruct (add_slab_heap X s2 o c2 ptr mem H2 Hc2) as (p' & s3 & E3 & H3 & Hp' & Hg & Hn).
      { rewrite Ein. apply Hg2. by left. }
      rewrite Ein in *. assert (Ok (p, s') = Ok (p', s3)) as [= -> ->] by (rewrite <- E1, <- E3; done).
      assert (∀ q n, live_at s2 q n ∧ (false = false → q ≠ ptr) ↔ live_at s q n) as Hback.
      { intros q n. rewrite <- (Hsame q n). split.
        - intros [[[-> ->]|?]%Hg2 Hne]; [by destruct (Hne eq_refl)|done].
        - intros Hl. split; [apply Hg2; by right|]. intros _ ->. by apply (Hn2 n). }
      split; [done|]. right. split; [done|]. split.
      * intros n Hl. by apply (Hn n), Hback.
      * intros q n. rewrite (Hg q n), Hback. done.
  - intros E1. destruct (alloc_from_part_heap X s o c slab part H Hc Hpart (λ L, others_used s o slab L (hi_used _ _ H))) as (p' & s2 & E2 & H2 & Hg).
    rewrite E2 in E1. injection E1 as <- <-. split; [done|by right].
Qed.

Definition big_pages (size : Z) : Z := u64 (u64 (size + PAGE_SIZE) - 1) / PAGE_SIZE.

Lemma big_pages_positive size : 0 < size < 2 ^ 64 - PAGE_SIZE → 0 < big_pages size.
Proof.
  unfold big_pages, PAGE_SIZE. intros H. rewrite (wrap_small 64 (size + 4096)), wrap_small by lia. apply Z.div_str_pos. lia.
Qed.

Lemma kalloc_big fuel X s size p s' :
  heap_inv X s → 11 < get_min_cache_order size → 0 < size < 2 ^ 64 - PAGE_SIZE →
  kalloc alloc_pages free_pages (S (S fuel)) size s = Ok (p, s') → allocated_at X s s' p (big_pages size * PAGE_SIZE).
Proof.
  intros H Ho Hsize. remember (S fuel) as f1 eqn:Ef. cbn [kalloc]. unfold CACHE_END_ORDER. replace (11 <? _) with true by lia.
  fold (big_pages size). pose proof (big_pages_positive size Hsize) as Hpos.
  unfold mbind, M_bind at 1. destruct (on_pages _ s) as [[ptr s1]|] eqn:Ea; [|done].
  destruct (alloc_pages_heap X s _ ptr s1 H Hpos Ea) as (Hsame & _ & [[-> H1]|[Hm H1]]).
  { cbn. intros [= <- <-]. split; [done|by left]. }
  replace (ptr =? 0) with false by lia. unfold M_bind at 1.
  destruct (kalloc _ _ f1 sizeof_PageAllocation s1) as [[entry s2]|] eqn:Ek; [|done]. subst f1.
  apply (kalloc_inside fuel _ s1 sizeof_PageAllocation entry s2 H1) in Ek as [H2 Hentry]; [|by vm_compute].
  change (2 ^ get_min_cache_order sizeof_PageAllocation) with 32 in Hentry. destruct Hentry as [[-> Hsame2]|(Hp0 & Hn2 & Hg2)]; [done|].
  replace (entry =? 0) with false by lia. unfold set_page_allocations, M_bind, gets, modify, mret, M_ret. intros [= <- <-].
  set (a := {| pa_entry := entry; pa_ptr := ptr; pa_pages := big_pages size |}).
  destruct (heap_add_big s2.1 X (all_slabs s2) (bigs s2) a) as [Hh Hl]; [exact (hi_heap _ _ H2)|apply Hg2; by left|].
  split; [split; [split; [apply (hi_pre _ _ H2)|apply (hi_pre _ _ H2)|exact Hh]|apply H2]|]. right. split; [done|]. split.
  - intros n Hln. assert (live_at s2 ptr n) as Hl2 by (apply Hg2; right; by apply Hsame).
    pose proof (live_outside _ _ _ _ _ _ _ (hi_heap _ _ H2) Hl2) as Hout. destruct (live_positive (hi_heap _ _ H2) _ _ Hl2).
    cbn in Hout. unfold PAGE_SIZE in Hout. lia.
  - intros q n. etransitivity; [apply Hl|]. split.
    + intros [?|[[[-> ->]|?]%Hg2 Hne]]; [by left|done|right; by apply Hsame].
    + intros [?|Hl']; [by left|]. right. apply Hsame in Hl'. split; [apply Hg2; by right|]. intros ->. by apply (Hn2 n).
Qed.


(** ** kfree *)

Lemma not_contained e X x L A o sl c p :
  heap_at e X (x :: L) A → (slab_range x).1 ≤ p < (slab_range x).1 + (slab_range x).2 * PAGE_SIZE →
  (o, sl) ∈ L → shaped o c → contains c p sl = false.
Proof.
  intros H Hp Hin Hsh. pose proof (holds_apart _ _ (ha_holds _ _ _ _ H)) as (_ & Hr & _)%pairs_app.
  apply pairs_app in Hr as (Hl & _ & _). inversion Hl as [|? ? Hx _]; subst. rewrite Forall_fmap, Forall_forall in Hx.
  assert (range_apart (slab_range x) (slab_range (o, sl))) as Ha by exact (Hx _ Hin).
  pose proof (ha_slabs _ _ _ _ H) as [_ Hok]%Forall_cons. rewrite Forall_forall in Hok.
  destruct (Hok _ Hin) as [Ho [chain [_ _ Hms [Hm0 Hm1] _ _ _ _]] _]. cbn in Ho, Hms, Hm0, Hm1.
  destruct (shape_good o Ho) as [Hsz Hcnt _ _ _ Hfa Hfit _ _ _]. pose proof (header_range o).
  apply not_true_is_false. unfold contains. assert (ca_mem_size c = ca_mem_size (shape o)) as -> by by rewrite Hsh.
  assert (0 < 2 ^ o) by (apply Z.pow_pos_nonneg; lia). rewrite Hms, Hsz in *.
  change (slab_range (o, sl)) with (sl_mem sl - ca_free_arr_size (shape o) - header o, ca_pages (shape o)) in Ha.
  rewrite range_contains_iff by nia. unfold range_apart in Ha. cbn [fst snd] in Ha. lia.
Qed.

Lemma none_contains X s x L o p :
  heap_inv X s → all_slabs s ≡ₚ x :: L → (slab_range x).1 ≤ p < (slab_range x).1 + (slab_range x).2 * PAGE_SIZE →
  x.1 = o → none_below s o p.
Proof.
  intros H Hx Hp Eo o' Ho'. assert (4 ≤ x.1 ≤ 11) as Hox.
  { pose proof (ha_slabs _ _ _ _ (hi_heap _ _ H)) as Hs. rewrite Hx in Hs. apply Forall_cons in Hs as [[Ho _ _] _]. done. }
  unfold CACHE_START_ORDER in Ho'. destruct (proj2 (cache_at_order _ s o' H)) as [c Hc]; [lia|]. exists c. split; [done|].
  apply Forall_app, Forall_forall. intros sl Hsl.
  assert ((o', sl) ∈ all_slabs s) as Hin by (apply elem_all_slabs; by exists c). rewrite Hx in Hin.
  apply elem_of_cons in Hin as [<-|Hin]; [cbn in Eo; lia|].
  eapply not_contained; [eapply heap_perm; [done|exact Hx|done|apply (hi_heap _ _ H)]|done|exact Hin|exact (co_shaped _ _ (hi_caches _ _ H o' c Hc))].
Qed.

Lemma split_perm c (full : bool) before slab after :
  (if full then ca_full c else ca_part c) = before ++ slab :: after →
  ca_part c ++ ca_full c ≡ₚ slab :: before ++ after ++ (if full then ca_part c else ca_full c).
Proof.
  intros El. assert (∀ l, (before ++ slab :: after) ++ l ≡ₚ slab :: before ++ after ++ l) as Hmid.
  { intros l. rewrite <- app_assoc. cbn. by rewrite <- Permutation_middle. }
  destruct full; rewrite El; [rewrite (Permutation_app_comm (ca_part c))|]; apply Hmid.
Qed.

Lemma shaped_inside o c : shaped o c → (ca_size c <? OFF_SLAB_THRESHOLD) = inside o.
Proof. by intros ->. Qed.

(** Where the object at [p] was found. *)
Record located s (o p : Z) (c : Cache) (full : bool) (before : list Slab) (slab : Slab) (after : list Slab) (chain : list Z) : Prop := {
  lc_found : found_in s o c p full before slab after;
  lc_wf : slab_wf c slab chain;
  lc_use : in_use c slab chain p;
  lc_full : full = true ↔ chain = [];
}.

(** Where [kfree] finds an object. *)
Lemma locate X s o p :
  heap_inv X s → used_in (all_slabs s) o p →
  ∃ c full before slab after chain, located s o p c full before slab after chain.
Proof.
  intros H (slab & chain & Hin & Hwf & Hu). pose proof (proj1 (elem_all_slabs _ _ _) Hin) as (c & Hc & Hsl).
  pose proof (proj1 (cache_at_order _ s o H) (ex_intro _ c Hc)) as Ho.
  pose proof (hi_caches _ _ H o c Hc) as Hok. pose proof Hok as [Hsh Hcp Hcf].
  assert (∃ full before after, (if full : bool then ca_full c else ca_part c) = before ++ slab :: after) as (full & before & after & El).
  { apply elem_of_app in Hsl as [Hsl|Hsl]; apply list_elem_of_split in Hsl as (b & a & E1); [exists false|exists true]; by exists b, a. }
  pose proof (split_perm c full before slab after El) as Hp.
  destruct (slab_in_front X s o c before slab after _ H Hc Hp) as (rest & Hh & Hs & _).
  pose proof (ha_slabs _ _ _ _ Hh) as [Hslok _]%Forall_cons.
  assert ((slab_range (o, slab)).1 ≤ p < (slab_range (o, slab)).1 + (slab_range (o, slab)).2 * PAGE_SIZE) as Hr.
  { pose proof (object_range _ _ _ _ Hslok Hwf Hu). assert (0 < 2 ^ o) by (apply Z.pow_pos_nonneg; lia). lia. }
  assert (∀ sl, sl ∈ before ++ after ++ (if full then ca_part c else ca_full c) → contains c p sl = false) as Hno.
  { intros sl Hsl'. eapply not_contained; [exact Hh|exact Hr| |exact Hsh]. apply elem_of_app. left. by apply list_elem_of_fmap_2. }
  exists c, full, before, slab, after, chain. split; [|by apply (shaped_wf o)|by apply (shaped_in_use o)|].
  - split; [unfold CACHE_START_ORDER, CACHE_END_ORDER; lia|done|by eapply none_contains| | |].
    + done.
    + intros ->. apply Forall_forall. intros sl Hsl'. apply Hno, elem_of_app. right. by apply elem_of_app; right.
    + apply Forall_forall. intros sl Hsl'. apply Hno, elem_of_app. by left.
  - pose proof (sw_allocated _ _ _ Hwf) as Hall. destruct full.
    + rewrite El in Hcf. apply Forall_app in Hcf as [_ [Hf _]%Forall_cons]. split; [|done]. intros _. destruct chain; [done|]. cbn in *. lia.
    + rewrite El in Hcp. apply Forall_app in Hcp as [_ [Hf _]%Forall_cons]. split; [done|]. intros ->. cbn in *. lia.
Qed.

(** The lists of a cache when a slab has gone, and when it has one object less. *)
Lemma lists_without_ok o c full before slab after :
  cache_ok o c → (if full : bool then ca_full c else ca_part c) = before ++ slab :: after →
  let c' := lists_without c full before after in
  cache_ok o c' ∧ ca_part c' ++ ca_full c' ≡ₚ before ++ after ++ (if full then ca_part c else ca_full c).
Proof.
  intros [Hsh Hcp Hcf] El. unfold lists_without. destruct full; rewrite El in *; cbn [ca_part ca_full set_lists].
  - split; [split; [by apply set_lists_shaped|done|]|by rewrite (Permutation_app_comm (ca_part c)), <- app_assoc].
    cbn. apply Forall_app in Hcf as [? [_ ?]%Forall_cons]. by apply Forall_app.
  - split; [split; [by apply set_lists_shaped| |done]|by rewrite <- app_assoc].
    cbn. apply Forall_app in Hcp as [? [_ ?]%Forall_cons]. by apply Forall_app.
Qed.

Lemma lists_after_ok o c full before slab after slab' :
  cache_ok o c → (if full : bool then ca_full c else ca_part c) = before ++ slab :: after → sl_allocated slab' < ca_count (shape o) →
  let c' := lists_after_free c full before after slab' in
  cache_ok o c' ∧ ca_part c' ++ ca_full c' ≡ₚ slab' :: before ++ after ++ (if full then ca_part c else ca_full c).
Proof.
  intros [Hsh Hcp Hcf] El Hlt. unfold lists_after_free. destruct full; rewrite El in *; cbn [ca_part ca_full set_lists].
  - split; [split; [by apply set_lists_shaped|by constructor|]|cbn; by rewrite (Permutation_app_comm (ca_part c)), <- app_assoc].
    cbn. apply Forall_app in Hcf as [? [_ ?]%Forall_cons]. by apply Forall_app.
  - split; [split; [by apply set_lists_shaped| |done]|rewrite <- app_assoc; cbn; by rewrite <- Permutation_middle].
    cbn. apply Forall_app in Hcp as [? [_ ?]%Forall_cons]. apply Forall_app. split; [done|by constructor].
Qed.

(** *** Giving an object back

    The last object of a slab takes the slab with it; a header kept off the slab is then freed
    by a call of [kfree] of its own. *)

(** It was the last one of its slab. *)
Lemma last_object_heap X s o p c full before slab after chain :
  heap_inv X s → located s o p c full before slab after chain → (p ∉ internals (all_slabs s) (bigs s)) → sl_allocated slab = 1 →
  ∃ e', free_pages (sl_mem slab - ca_free_arr_size c - header o) (ca_pages c) s.1 = Ok (tt, e') ∧
    let s1 := (e', (with_cache o (lists_without c full before after) s).2) in
    heap_inv X s1 ∧ (inside o = true → sl_mem slab - ca_free_arr_size c - header o = sl_ptr slab) ∧
    (∀ q m, live_at s1 q m ↔ (live_at s q m ∧ q ≠ p) ∨ (inside o = false ∧ q = sl_ptr slab ∧ m = 32)) ∧
    (inside o = false → ¬ live_at s (sl_ptr slab) 32).
Proof.
  intros H [Hf Hwfc Huc _] Hpi Hone. pose proof (fi_cache _ _ _ _ _ _ _ _ Hf) as Hc. pose proof (hi_caches _ _ H o c Hc) as Hok.
  pose proof Hok as [Hsh _ _]. destruct (lists_without_ok o c full before slab after Hok (fi_list _ _ _ _ _ _ _ _ Hf)) as [Hok' Hp'].
  destruct (slab_in_front X s o c before slab after _ H Hc (split_perm _ _ _ _ _ (fi_list _ _ _ _ _ _ _ _ Hf))) as (rest & Hh & Hs & Hs').
  set (other := if full then ca_part c else ca_full c) in *. set (L := ((λ sl, (o, sl)) <$> before ++ after ++ other) ++ rest) in *.
  pose proof (ha_slabs _ _ _ _ Hh) as [Hslok _]%Forall_cons. pose proof (so_order _ Hslok) as Ho. cbn in Ho.
  pose proof (proj1 (shaped_wf o c slab chain Hsh) Hwfc) as Hwf. apply (shaped_in_use o) in Huc as (i & Hi & Hni & Ep); [|done].
  rewrite (gs_size _ (shape_good o Ho)) in Ep. subst p. rewrite (internals_perm _ _ _ _ Hs (Permutation_refl _)) in Hpi.
  assert (∀ q m, live_at s q m ↔ live ((o, slab) :: L) (bigs s) q m) as Hlive by (intros q m; by apply live_perm).
  assert (ca_pages c = ca_pages (shape o) ∧ ca_free_arr_size c = ca_free_arr_size (shape o)) as [-> ->] by by rewrite Hsh.
  set (s1 := with_cache o (lists_without c full before after) s). pose proof (Hs' _ _ Hp') as Hp1. fold other s1 L in Hp1.
  pose proof (others_used s o slab L (hi_used _ _ H) Hs) as Hothers. unfold all_used in Hothers.
  assert (holds s.1 ((slab_range (o, slab)) :: X ++ ranges L (bigs s))) as Hholds.
  { eapply holds_perm; [|exact (ha_holds _ _ _ _ Hh)]. unfold ranges. cbn. symmetry. apply Permutation_middle. }
  destruct (free_holds s.1 _ (slab_range (o, slab)).1 (slab_range (o, slab)).2 Hholds) as (e' & Efree & Hh').
  destruct (heap_drop s.1 e' X L (bigs s) o slab chain i Hh Hwf Hi Hni Hone Hpi Hh') as (H1 & Hl1 & Hnl).
  assert (heap_inv X (e', s1.2)) as Hinv1.
  { split; [|unfold all_used; by rewrite <- Hp1 in Hothers]. apply (with_cache_inv X X s o c); [exact (hi_pre _ _ H)|done|done|].
    eapply heap_perm; [done|symmetry; exact Hp1|done|exact H1]. }
  assert (∀ q m, live_at (e', s1.2) q m ↔ live L (bigs s) q m) as Hl1' by (intros q m; by apply live_perm).
  exists e'. split; [exact Efree|]. split; [exact Hinv1|]. split; [intros Ein; symmetry; exact (so_inside _ Hslok Ein)|]. split.
  - intros q m. rewrite Hl1', Hl1, Hlive. done.
  - intros Ein. rewrite Hlive. by apply Hnl.
Qed.

(** It was one of several. *)
Lemma object_back_heap X s o p c full before slab after chain i :
  heap_inv X s → located s o p c full before slab after chain → (p ∉ internals (all_slabs s) (bigs s)) → sl_allocated slab ≠ 1 →
  p = sl_mem slab + i * ca_size c → 0 ≤ i < ca_count c → (i ∉ chain) →
  let s1 := with_cache o (lists_after_free c full before after (given slab i)) s in
  heap_inv X s1 ∧ ∀ q m, live_at s1 q m ↔ live_at s q m ∧ q ≠ p.
Proof.
  intros H [Hf Hwfc _ _] Hpi Hmany Ep Hi Hni s1. pose proof (fi_cache _ _ _ _ _ _ _ _ Hf) as Hc. pose proof (hi_caches _ _ H o c Hc) as Hok.
  pose proof Hok as [Hsh _ _].
  destruct (slab_in_front X s o c before slab after _ H Hc (split_perm _ _ _ _ _ (fi_list _ _ _ _ _ _ _ _ Hf))) as (rest & Hh & Hs & Hs').
  set (other := if full then ca_part c else ca_full c) in *. set (L := ((λ sl, (o, sl)) <$> before ++ after ++ other) ++ rest) in *.
  pose proof (ha_slabs _ _ _ _ Hh) as [Hslok _]%Forall_cons. pose proof (so_order _ Hslok) as Ho. cbn in Ho.
  pose proof (proj1 (shaped_wf o c slab chain Hsh) Hwfc) as Hwf.
  assert (ca_size c = 2 ^ o ∧ ca_count c = ca_count (shape o)) as [Ecs Ecc] by (rewrite <- (gs_size _ (shape_good o Ho)); by rewrite Hsh).
  rewrite Ecs in Ep. rewrite Ecc in Hi. subst p. rewrite (internals_perm _ _ _ _ Hs (Permutation_refl _)) in Hpi.
  pose proof (others_used s o slab L (hi_used _ _ H) Hs) as Hothers. unfold all_used in Hothers.
  assert (0 < sl_allocated slab) as Hsl by (pose proof (hi_used _ _ H) as Hall; unfold all_used in Hall; rewrite Hs in Hall; by apply Forall_cons in Hall as []).
  destruct (heap_give s.1 X L (bigs s) o slab chain i Hh Hwf Hi Hni Hpi) as [H1 Hl1]. set (slab' := given slab i) in *.
  assert (sl_allocated slab' < ca_count (shape o)) as Hlt by (pose proof (sw_allocated _ _ _ Hwf); unfold slab', given; cbn; lia).
  destruct (lists_after_ok o c full before slab after slab' Hok (fi_list _ _ _ _ _ _ _ _ Hf) Hlt) as [Hok' Hp'].
  assert (all_slabs s1 ≡ₚ (o, slab') :: L) as Hp1 by exact (Hs' _ _ Hp'). split.
  - split; [|unfold all_used; rewrite Hp1; constructor; [cbn; lia|done]].
    apply (with_cache_inv X X s o c _ s.1); [exact (hi_pre _ _ H)|done|done|]. eapply heap_perm; [done|symmetry; exact Hp1|done|exact H1].
  - intros q m.
    assert (live_at s q m ↔ live ((o, slab) :: L) (bigs s) q m) as -> by by apply live_perm.
    rewrite <- (Hl1 q m). by apply live_perm.
Qed.

Lemma kfree_step fuel X s o p :
  heap_inv X s → used_in (all_slabs s) o p → (p ∉ internals (all_slabs s) (bigs s)) →
  ∃ s1, heap_inv X s1 ∧
    ((kfree free_pages (S fuel) p s = Ok (tt, s1) ∧ ∀ q m, live_at s1 q m ↔ live_at s q m ∧ q ≠ p) ∨
     (inside o = false ∧ ∃ ptr, kfree free_pages (S fuel) p s = kfree free_pages fuel ptr s1 ∧ ¬ live_at s ptr 32 ∧
        ∀ q m, live_at s1 q m ↔ (live_at s q m ∧ q ≠ p) ∨ (q = ptr ∧ m = 32))).
Proof.
  intros H Hup Hpi. destruct (locate X s o p H Hup) as (c & full & before & slab & after & chain & Hloc).
  pose proof Hloc as [Hf Hwfc Huc Hfull]. pose proof (hi_caches _ _ H o c (fi_cache _ _ _ _ _ _ _ _ Hf)) as [Hsh _ _].
  destruct (kfree_found_eq free_pages fuel o c p full before slab after chain s Hf Hwfc Huc Hfull) as (i & Ep & Hi & Hni & ->).
  rewrite (shaped_inside o c Hsh). destruct (Z.eqb_spec (sl_allocated slab) 1) as [Hone|Hmany].
  - destruct (last_object_heap X s o p c full before slab after chain H Hloc Hpi Hone) as (e' & Efree & H1 & Hptr & Hl & Hno).
    eexists. split; [exact H1|]. unfold header in *. destruct (inside o) eqn:Ein.
    + left. rewrite Hptr in Efree by done. unfold on_pages. cbn. rewrite Efree. split; [done|]. intros q m. rewrite Hl. naive_solver.
    + right. split; [done|]. exists (sl_ptr slab). rewrite Z.sub_0_r in Efree. split; [|split; [by apply Hno|]].
      * unfold on_pages, mbind, M_bind. cbn. by rewrite Efree.
      * intros q m. rewrite Hl. naive_solver.
  - destruct (object_back_heap X s o p c full before slab after chain i H Hloc Hpi Hmany Ep Hi Hni) as [H1 Hl].
    eexists. split; [exact H1|]. by left.
Qed.

Lemma kfree_inside fuel X s o p :
  heap_inv X s → used_in (all_slabs s) o p → (p ∉ internals (all_slabs s) (bigs s)) → o ≤ 8 →
  ∃ s', kfree free_pages (S fuel) p s = Ok (tt, s') ∧ heap_inv X s' ∧ ∀ q m, live_at s' q m ↔ live_at s q m ∧ q ≠ p.
Proof.
  intros H Hu Hni Ho. destruct (kfree_step fuel X s o p H Hu Hni) as (s1 & H1 & [[E1 Hl]|(Eo & _)]); [by exists s1|].
  pose proof (used_order (hi_heap _ _ H) _ _ Hu). rewrite inside_order in Eo; lia.
Qed.

(** A struct of the allocator that has become an object like any other. *)
Lemma kfree_struct fuel X s s1 p ptr :
  heap_inv X s1 → ¬ live_at s ptr 32 → (∀ q m, live_at s1 q m ↔ (live_at s q m ∧ q ≠ p) ∨ (q = ptr ∧ m = 32)) →
  ∃ s', kfree free_pages (S fuel) ptr s1 = Ok (tt, s') ∧ heap_inv X s' ∧ ∀ q m, live_at s' q m ↔ live_at s q m ∧ q ≠ p.
Proof.
  intros H1 Hno Hl1. assert (live_at s1 ptr 32) as Hptr by (apply Hl1; by right).
  destruct (live_32 _ _ _ _ _ (hi_heap _ _ H1) Hptr) as [Hu Hni].
  destruct (kfree_inside fuel X s1 5 ptr H1 Hu Hni ltac:(lia)) as (s2 & E2 & H2 & Hl2). exists s2. split_and!; [done|done|].
  intros q m. rewrite Hl2, Hl1. split; [naive_solver|]. intros [Hq Hne]. split; [by left|]. intros ->.
  assert (live_at s1 ptr m) as Hm by (apply Hl1; by left). by rewrite (live_unique (hi_heap _ _ H1) ptr m 32 Hm Hptr) in Hq.
Qed.

Lemma free_from_caches_none kf n o ptr s :
  4 ≤ o → o + Z.of_nat n ≤ 12 → none_below s 12 ptr → free_from_caches free_pages kf n o ptr s = Ok (false, s).
Proof.
  revert o. induction n as [|n IH]; intros o Ho Hn Hb; [done|].
  destruct (Hb o) as (c & Hc & Hp & Hf); [unfold CACHE_START_ORDER; lia|]. cbn [free_from_caches]. unfold mbind, M_bind at 1.
  rewrite (free_from_none free_pages kf ptr o false c s Hc Hp). cbn beta iota.
  unfold M_bind. rewrite (free_from_none free_pages kf ptr o true c s Hc Hf). cbn beta iota. apply IH; [lia|lia|done].
Qed.

(** The address of a page allocation is in no slab. *)
Lemma big_not_contained X s a : heap_inv X s → a ∈ bigs s → none_below s 12 (pa_ptr a).
Proof.
  intros H Ha o Ho. unfold CACHE_START_ORDER in Ho. destruct (proj2 (cache_at_order X s o H)) as [c Hc]; [lia|]. exists c. split; [done|].
  apply Forall_app, Forall_forall. intros sl Hsl. assert ((o, sl) ∈ all_slabs s) as Hin by (apply elem_all_slabs; by exists c).
  destruct (all_slabs_cache s o c Hc) as (rest & Hp & _). pose proof (co_shaped _ _ (hi_caches _ _ H o c Hc)) as Hsh.
  apply list_elem_of_split in Hin as (l1 & l2 & El). assert (all_slabs s ≡ₚ (o, sl) :: l1 ++ l2) as Hperm by (rewrite El; by rewrite Permutation_middle).
  pose proof (heap_perm _ _ _ _ _ _ _ (Permutation_refl X) Hperm (Permutation_refl (bigs s)) (hi_heap _ _ H)) as Hh.
  pose proof (slab_big_apart Hh (o, sl) a (list_elem_of_here _ _) Ha) as Hap.
  assert (range_valid (big_range a)) as (_ & Hpos & _).
  { apply (ranges_valid Hh), elem_of_app. right. apply elem_of_app. right. by apply list_elem_of_fmap_2. }
  apply not_true_is_false. intros Hcon. pose proof (ha_slabs _ _ _ _ Hh) as [[Ho' [chain [_ _ Hms [Hm0 Hm1] _ _ _ _]] _] _]%Forall_cons.
  cbn in Ho', Hms, Hm0, Hm1. destruct (shape_good o Ho') as [Hsz Hcnt _ _ _ Hfa Hfit _ _ _]. pose proof (header_range o).
  unfold contains in Hcon. assert (ca_mem_size c = ca_mem_size (shape o)) as Em by by rewrite Hsh. rewrite Em in Hcon.
  assert (0 < 2 ^ o) by (apply Z.pow_pos_nonneg; lia). rewrite Hms, Hsz in *. rewrite range_contains_iff in Hcon by nia.
  change (slab_range (o, sl)) with (sl_mem sl - ca_free_arr_size (shape o) - header o, ca_pages (shape o)) in Hap.
  unfold range_apart, PAGE_SIZE in *. cbn [fst snd big_range] in *. lia.
Qed.

(** A page allocation is gone; its entry is an object like any other now. *)
Lemma drop_big_heap X s b before after :
  heap_inv X s → bigs s ≡ₚ b :: before ++ after →
  ∃ e', free_pages (pa_ptr b) (pa_pages b) s.1 = Ok (tt, e') ∧
    let s1 := (e', {| sa_caches := sa_caches s.2; sa_page_allocations := before ++ after |}) in
    heap_inv X s1 ∧ (∀ q m, live_at s1 q m ↔ (live_at s q m ∧ q ≠ pa_ptr b) ∨ (q = pa_entry b ∧ m = 32)) ∧ ¬ live_at s (pa_entry b) 32.
Proof.
  intros H Hp. pose proof (heap_perm _ _ _ _ _ _ _ (Permutation_refl X) (Permutation_refl (all_slabs s)) Hp (hi_heap _ _ H)) as Hh.
  assert (holds s.1 ((pa_ptr b, pa_pages b) :: X ++ ranges (all_slabs s) (before ++ after))) as Hholds.
  { eapply holds_perm; [|exact (ha_holds _ _ _ _ Hh)]. unfold ranges. cbn. rewrite !app_assoc. symmetry. apply Permutation_middle. }
  destruct (free_holds s.1 _ (pa_ptr b) (pa_pages b) Hholds) as (e' & Efree & Hh').
  destruct (heap_drop_big s.1 e' X (all_slabs s) (before ++ after) b Hh Hh') as (H1 & Hl1 & Hno).
  assert (∀ q m, live_at s q m ↔ live (all_slabs s) (b :: before ++ after) q m) as Hlive by (intros q m; by apply live_perm).
  exists e'. split; [exact Efree|]. split; [|split].
  - split; [split; [apply (hi_pre _ _ H)|apply (hi_pre _ _ H)|exact H1]|apply H].
  - intros q m. rewrite Hlive. apply Hl1.
  - by rewrite Hlive.
Qed.

(** [kfree] of an object some client has, whatever state the caches are in: a slab that becomes
    empty, its struct and the entry of a page allocation go with it. *)
Lemma kfree_live fuel X s p n :
  heap_inv X s → live_at s p n →
  ∃ s', kfree free_pages (S (S fuel)) p s = Ok (tt, s') ∧ heap_inv X s' ∧
    ∀ q m, live_at s' q m ↔ live_at s q m ∧ q ≠ p.
Proof.
  intros H [(o & -> & Hu & Hni)|(a & Ha & -> & ->)].
  - destruct (kfree_step (S fuel) X s o p H Hu Hni) as (s1 & H1 & [[E1 Hl]|(_ & ptr & E1 & Hno & Hl)]); [by exists s1|].
    rewrite E1. by apply (kfree_struct fuel X s s1).
  - pose proof (big_not_contained X s a H Ha) as Hnone. remember (S fuel) as f1 eqn:Ef. cbn [kfree]. unfold mbind, M_bind at 1.
    rewrite free_from_caches_none; [|done|by vm_compute|done]. cbn beta iota. unfold M_bind at 1, gets. fold (bigs s).
    destruct (find_split (λ b, pa_ptr b =? pa_ptr a) (bigs s)) as [[[before b] after]|] eqn:Efs.
    2: { apply find_split_None in Efs. rewrite Forall_forall in Efs. specialize (Efs a Ha). cbn in Efs. lia. }
    apply find_split_Some in Efs as (El & Eb & _). apply Z.eqb_eq in Eb. rewrite <- Eb in *.
    assert (bigs s ≡ₚ b :: before ++ after) as Hp by (rewrite El; by rewrite Permutation_middle).
    destruct (drop_big_heap X s b before after H Hp) as (e' & Efree & H1 & Hl1 & Hno).
    destruct s as [e sa]. cbn [fst snd] in *. unfold M_bind, on_pages, set_page_allocations, modify. rewrite Efree. cbn beta iota. subst f1.
    by apply (kfree_struct fuel X (e, sa)).
Qed.

(** *** No client, no pages *)

Lemma used_object o slab chain :
  4 ≤ o ≤ 11 → slab_wf (shape o) slab chain → 0 < sl_allocated slab → ∃ p, in_use (shape o) slab chain p.
Proof.
  intros Ho Hwf Hpos. pose proof (gs_count _ (shape_good o Ho)) as Hc. set (n := Z.to_nat (ca_count (shape o))).
  destruct (decide (Forall (λ i, i ∈ chain) (Z.of_nat <$> seq 0 n))) as [Hall|Hex].
  - pose proof (sw_allocated _ _ _ Hwf) as Hal.
    assert (length (Z.of_nat <$> seq 0 n) ≤ length chain)%nat as Hlen.
    { apply submseteq_length, NoDup_submseteq; [apply NoDup_fmap_2; [apply _|apply NoDup_seq]|by apply Forall_forall]. }
    rewrite length_fmap, length_seq in Hlen. lia.
  - apply not_Forall_Exists, Exists_exists in Hex as (i & (j & -> & Hj%elem_of_seq)%list_elem_of_fmap & Hni); [|apply _].
    eexists. exists (Z.of_nat j). split; [lia|]. by split.
Qed.

(** When no client has anything, neither has the allocator. *)
Lemma heap_empty X s : heap_inv X s → (∀ p n, ¬ live_at s p n) → all_slabs s = [] ∧ bigs s = [] ∧ holds s.1 X.
Proof.
  intros [[_ _ H] Hu] Hnone.
  assert (bigs s = []) as Eb.
  { apply elem_of_nil_inv. intros a Ha. apply (Hnone (pa_ptr a) (pa_pages a * PAGE_SIZE)). right. by exists a. }
  assert (∀ x, x ∈ all_slabs s → ∃ p, used_in (all_slabs s) x.1 p) as Hsome.
  { intros [o slab] Hx. pose proof (ha_slabs _ _ _ _ H) as Hs. rewrite Forall_forall in Hs.
    unfold all_used in Hu. rewrite Forall_forall in Hu. destruct (Hs _ Hx) as [Ho [chain Hwf] _].
    destruct (used_object o slab chain Ho Hwf (Hu _ Hx)) as [p Hp]. by exists p, slab, chain. }
  assert (headers (all_slabs s) = []) as Eh.
  { apply elem_of_nil_inv. intros q ([o slab] & -> & [Ein Hx]%list_elem_of_filter)%list_elem_of_fmap. cbn in Ein.
    destruct (Hsome _ Hx) as [p Hp]. cbn in Hp. apply (Hnone p (2 ^ o)). left. exists o. split_and!; [done|done|].
    intros Hi. by rewrite (internal_order H o p Hi Hp) in Ein. }
  assert (all_slabs s = []) as El.
  { apply elem_of_nil_inv. intros [o slab] Hx. destruct (Hsome _ Hx) as [p Hp]. apply (Hnone p (2 ^ o)). left. exists o.
    split_and!; [done|done|]. unfold internals. rewrite Eh, Eb. apply not_elem_of_nil. }
  split_and!; [done|done|]. pose proof (ha_holds _ _ _ _ H) as Hh. by rewrite El, Eb, app_nil_r in Hh.
Qed.

(** A client's calls of [kfree], one after another. *)
Fixpoint kfree_each (fuel : nat) (ps : list Z) : M (E * SlabAllocator) unit :=
  match ps with
  | [] => mret tt
  | p :: ps => _ ← kfree free_pages fuel p; kfree_each fuel ps
  end.


(** ** Start

    With room for the cache of every order the heap starts empty. *)
Definition start_heap : SlabAllocator :=
  {| sa_caches := replicate (Z.to_nat (NUM_CACHES + 1)) no_cache; sa_page_allocations := [] |}.

Lemma slab_start X e :
  holds e X → ∃ s, initialize_slab_allocator (e, start_heap) = Ok (tt, s) ∧ s.1 = e ∧ heap_inv X s ∧ ∀ p n, ¬ live_at s p n.
Proof.
  intros Hh. eexists. split; [by vm_compute|]. split; [done|]. set (s := (e, _)).
  assert (all_slabs s = [] ∧ bigs s = []) as [El Eb] by done.
  split; [split; [split; [done| |]|by rewrite El; constructor]|].
  - intros o c Hc. unfold cache_at in Hc. pose proof (lookupZ_Some_range _ _ _ Hc) as Ho. cbn in Ho. unfold CACHE_START_ORDER in *.
    assert (4 ≤ o ≤ 11) as Hcases%order_cases by lia.
    by destruct Hcases as [->|[->|[->|[->|[->|[->|[->| ->]]]]]]]; injection Hc as <-; split.
  - rewrite El, Eb. split; [constructor|by rewrite app_nil_r|constructor|]. intros p Hp. by apply not_elem_of_nil in Hp.
  - intros p n. unfold live_at. rewrite El, Eb. intros [(o & _ & (sl & ch & Hin & _) & _)|(a & Ha & _)]; by eapply not_elem_of_nil.
Qed.
End heap.
End SlabHeap.
