(* ===== verification/SlabLinks.v ===== *)
(** The slab allocator with its lists as they are in memory
    (kernel/src/memory/slab_allocator.c): slabs and page allocations are structs at
    addresses, linked by pointers. *)
From S2P Require Import Prelude Util Slab.

Module SlabLinks.
Import Util Slab.

(** The struct of a slab: its pointers, and the fields that are not. *)
Record Node := { nd_next : Z; nd_prev : Z; nd_slab : Slab }.

(** The struct of a cache: the heads of its lists, and the fields that are not pointers. *)
Record Heads := { hd_part : Z; hd_full : Z; hd_cache : Cache }.

Record Entry := { en_next : Z; en_ptr : Z; en_pages : Z }.

Record Links := {
  lk_nodes : gmap Z Node;
  lk_entries : gmap Z Entry;
  lk_caches : list Heads;
  lk_allocations : Z;
}.

Definition with_nodes (m : gmap Z Node) (lk : Links) : Links :=
  {| lk_nodes := m; lk_entries := lk_entries lk; lk_caches := lk_caches lk; lk_allocations := lk_allocations lk |}.
Definition with_heads (order : Z) (c : Heads) (lk : Links) : Links :=
  {| lk_nodes := lk_nodes lk; lk_entries := lk_entries lk;
     lk_caches := insertZ (order - CACHE_START_ORDER) c (lk_caches lk); lk_allocations := lk_allocations lk |}.
Definition with_entries (m : gmap Z Entry) (head : Z) (lk : Links) : Links :=
  {| lk_nodes := lk_nodes lk; lk_entries := m; lk_caches := lk_caches lk; lk_allocations := head |}.

Definition head_of (full : bool) (c : Heads) : Z := if full then hd_full c else hd_part c.
Definition with_head (full : bool) (p : Z) (c : Heads) : Heads :=
  if full then {| hd_part := hd_part c; hd_full := p; hd_cache := hd_cache c |}
  else {| hd_part := p; hd_full := hd_full c; hd_cache := hd_cache c |}.

(** ** Structs in memory *)

Definition get_cache (order : Z) : M Links Heads :=
  c ← gets (λ lk, lookupZ (lk_caches lk) (order - CACHE_START_ORDER)); of_option OutOfBounds c.

Definition set_head (order : Z) (full : bool) (p : Z) : M Links unit :=
  c ← get_cache order; modify (with_heads order (with_head full p c)).

Definition get_node (p : Z) : M Links Node :=
  n ← gets (λ lk, lk_nodes lk !! p); of_option (BadPointer p) n.
Definition put_node (p : Z) (n : Node) : M Links unit := modify (λ lk, with_nodes (<[p := n]> (lk_nodes lk)) lk).

Definition set_next (p next : Z) : M Links unit :=
  n ← get_node p; put_node p {| nd_next := next; nd_prev := nd_prev n; nd_slab := nd_slab n |}.
Definition set_prev (p prev : Z) : M Links unit :=
  n ← get_node p; put_node p {| nd_next := nd_next n; nd_prev := prev; nd_slab := nd_slab n |}.
Definition set_slab (p : Z) (slab : Slab) : M Links unit :=
  n ← get_node p; put_node p {| nd_next := nd_next n; nd_prev := nd_prev n; nd_slab := slab |}.

(** ** Lists of slabs *)

Definition remove_slab_from_list (order : Z) (full : bool) (slab : Z) : M Links unit :=
  n ← get_node slab;
  _ ← (if nd_next n =? 0 then mret tt else set_prev (nd_next n) (nd_prev n));
  n ← get_node slab;
  _ ← (if nd_prev n =? 0 then mret tt else set_next (nd_prev n) (nd_next n));
  cache ← get_cache order;
  if slab =? head_of full cache then n ← get_node slab; set_head order full (nd_next n) else mret tt.

(** A slab becomes the first partial one of its cache. *)
Definition add_to_part (order slab : Z) : M Links unit :=
  cache ← get_cache order;
  _ ← set_next slab (hd_part cache);
  _ ← set_prev slab 0;
  _ ← (if hd_part cache =? 0 then mret tt else set_prev (hd_part cache) slab);
  set_head order false slab.

(** The first partial slab is full. *)
Definition part_to_full (order slab : Z) : M Links unit :=
  n ← get_node slab;
  _ ← set_head order false (nd_next n);
  _ ← (if nd_next n =? 0 then mret tt else set_prev (nd_next n) 0);
  cache ← get_cache order;
  _ ← set_next slab (hd_full cache);
  _ ← (if hd_full cache =? 0 then mret tt else set_prev (hd_full cache) slab);
  set_head order true slab.

(** The slab of a list with the object at [ptr], 0 when there is none. *)
Definition find_slab (c : Cache) (ptr slab : Z) : M Links Z :=
  fuel ← gets (λ lk, S (size (lk_nodes lk)));
  loop fuel (λ slab,
    if slab =? 0 then mret (inr 0)
    else n ← get_node slab; if contains c ptr (nd_slab n) then mret (inr slab) else mret (inl (nd_next n))) slab.

Definition initialize_slab_allocator : M Links unit :=
  for_range CACHE_START_ORDER (CACHE_END_ORDER + 1) (λ order,
    _ ← get_cache order;
    match new_cache order tt with
    | Ok (c, _) => modify (with_heads order {| hd_part := 0; hd_full := 0; hd_cache := c |})
    | Fault f => throw f
    end).

(** ** kalloc and kfree *)

Section allocator.
Context {E : Type}.
Context (alloc_pages : Z → Z → M E Z) (free_pages : Z → Z → M E unit).

Definition on_links {A} (m : M Links A) : M (E * Links) A := λ '(e, lk),
  match m lk with Ok (a, lk) => Ok (a, (e, lk)) | Fault f => Fault f end.

Definition alloc_from (order slab : Z) : M (E * Links) Z :=
  cache ← on_links (get_cache order);
  n ← on_links (get_node slab);
  '(obj_ptr, sl) ← take_object (hd_cache cache) (nd_slab n);
  _ ← on_links (set_slab slab sl);
  _ ← on_links (if sl_allocated sl =? ca_count (hd_cache cache) then part_to_full order slab else mret tt);
  _ ← kernel_assert (obj_ptr mod MIN max_align (ca_size (hd_cache cache)) =? 0)
        "kalloc pointer has incorrect alignment";
  mret obj_ptr.

(** A new slab, with its struct at [slab] and its memory at [mem]. *)
Definition add_slab (order slab mem : Z) : M (E * Links) unit :=
  cache ← on_links (get_cache order);
  _ ← on_links (put_node slab {| nd_next := 0; nd_prev := 0; nd_slab := new_slab (hd_cache cache) slab mem |});
  on_links (add_to_part order slab).

Fixpoint kalloc (fuel : nat) (size : Z) : M (E * Links) Z :=
  match fuel with
  | O => throw OutOfFuel
  | S fuel =>
      let order := get_min_cache_order size in
      if CACHE_END_ORDER <? order then
        let pages := u64 (u64 (size + PAGE_SIZE) - 1) / PAGE_SIZE in
        ptr ← on_pages (alloc_pages pages PAGING_WRITABLE);
        if ptr =? 0 then mret 0
        else
          allocation ← kalloc fuel sizeof_PageAllocation;
          if allocation =? 0 then throw NullDeref
          else
            _ ← on_links (modify (λ lk, with_entries
                  (<[allocation := {| en_next := lk_allocations lk; en_ptr := ptr; en_pages := pages |}]> (lk_entries lk))
                  allocation lk));
            mret ptr
      else
        cache ← on_links (get_cache order);
        if negb (hd_part cache =? 0) then alloc_from order (hd_part cache)
        else
          mem ← on_pages (alloc_pages (ca_pages (hd_cache cache)) PAGING_WRITABLE);
          if mem =? 0 then mret 0
          else if ca_size (hd_cache cache) <? OFF_SLAB_THRESHOLD then
            _ ← add_slab order mem (mem + sizeof_Slab);
            alloc_from order mem
          else
            slab ← kalloc fuel sizeof_Slab;
            if slab =? 0 then _ ← on_pages (free_pages mem (ca_pages (hd_cache cache))); mret 0
            else _ ← add_slab order slab mem; alloc_from order slab
  end.

(** An object less in use in the slab at [slab]. *)
Definition free_in_slab (kfree : Z → M (E * Links) unit) (ptr order slab : Z) : M (E * Links) unit :=
  cache ← on_links (get_cache order);
  let c := hd_cache cache in
  n ← on_links (get_node slab);
  sl ← give_object c ptr (nd_slab n);
  _ ← on_links (set_slab slab sl);
  _ ← (if sl_allocated sl =? ca_count c then
         _ ← on_links (remove_slab_from_list order true slab); on_links (add_to_part order slab)
       else mret tt);
  let sl := {| sl_ptr := sl_ptr sl; sl_mem := sl_mem sl; sl_allocated := u32 (sl_allocated sl - 1);
               sl_next_free := sl_next_free sl; sl_free := sl_free sl |} in
  _ ← on_links (set_slab slab sl);
  if sl_allocated sl =? 0 then
    _ ← on_links (remove_slab_from_list order false slab);
    if ca_size c <? OFF_SLAB_THRESHOLD then on_pages (free_pages slab (ca_pages c))
    else
      _ ← on_pages (free_pages (sl_mem sl - ca_free_arr_size c) (ca_pages c));
      kfree slab
  else mret tt.

Definition free_from_slab_list (kfree : Z → M (E * Links) unit) (ptr order slab : Z) : M (E * Links) bool :=
  cache ← on_links (get_cache order);
  slab ← on_links (find_slab (hd_cache cache) ptr slab);
  if slab =? 0 then mret false else _ ← free_in_slab kfree ptr order slab; mret true.

Fixpoint free_from_caches (kfree : Z → M (E * Links) unit) (n : nat) (order ptr : Z) : M (E * Links) bool :=
  match n with
  | O => mret false
  | S n =>
      cache ← on_links (get_cache order);
      found ← free_from_slab_list kfree ptr order (hd_part cache);
      if found : bool then mret true
      else
        cache ← on_links (get_cache order);
        found ← free_from_slab_list kfree ptr order (hd_full cache);
        if found : bool then mret true else free_from_caches kfree n (order + 1) ptr
  end.

(** The entry of the page allocation at [ptr] and the one before it, 0 when there is none. *)
Definition find_allocation (ptr : Z) : M Links (Z * Z) :=
  fuel ← gets (λ lk, S (size (lk_entries lk)));
  head ← gets lk_allocations;
  loop fuel (λ '(last, allocation),
    if allocation =? 0 then mret (inr (last, 0))
    else
      en ← gets (λ lk, lk_entries lk !! allocation);
      en ← of_option (BadPointer allocation) en;
      if en_ptr en =? ptr then mret (inr (last, allocation)) else mret (inl (allocation, en_next en))) (0, head).

(** The entry behind [last] leaves the list. *)
Definition unlink_allocation (last next : Z) : M Links unit :=
  if last =? 0 then modify (λ lk, with_entries (lk_entries lk) next lk)
  else
    en ← gets (λ lk, lk_entries lk !! last);
    en ← of_option (BadPointer last) en;
    modify (λ lk, with_entries
      (<[last := {| en_next := next; en_ptr := en_ptr en; en_pages := en_pages en |}]> (lk_entries lk)) (lk_allocations lk) lk).

Fixpoint kfree (fuel : nat) (ptr : Z) : M (E * Links) unit :=
  match fuel with
  | O => throw OutOfFuel
  | S fuel =>
      found ← free_from_caches (kfree fuel) (Z.to_nat (CACHE_END_ORDER - CACHE_START_ORDER + 1)) CACHE_START_ORDER ptr;
      if found : bool then mret tt
      else
        '(last, allocation) ← on_links (find_allocation ptr);
        if allocation =? 0 then throw (AssertFailed "Failed to free memory")
        else
          en ← on_links (gets (λ lk, lk_entries lk !! allocation));
          en ← of_option (BadPointer allocation) en;
          _ ← on_pages (free_pages (en_ptr en) (en_pages en));
          _ ← on_links (unlink_allocation last (en_next en));
          kfree fuel allocation
  end.
End allocator.
End SlabLinks.
