(* ===== verification/SlabLists.v ===== *)
(** The linked lists of SlabLinks.v: what their operations and searches do to the sequences
    they stand for. *)
From S2P Require Import Prelude Util Slab SlabLinks.

Module SlabLists.
Import Util Slab SlabLinks.

(** ** Doubly linked segments

    From [p] on, behind [prev], the slabs [l] are linked; [prev'] is the last of them and [p']
    what it points to. *)
Fixpoint dseg (m : gmap Z Node) (prev p : Z) (l : list Slab) (prev' p' : Z) : Prop :=
  match l with
  | [] => prev' = prev ∧ p' = p
  | x :: l => p = sl_ptr x ∧ p ≠ 0 ∧ ∃ next,
      m !! p = Some {| nd_next := next; nd_prev := prev; nd_slab := x |} ∧ dseg m p next l prev' p'
  end.

Definition dlist (m : gmap Z Node) (p : Z) (l : list Slab) : Prop := ∃ last, dseg m 0 p l last 0.

Abbreviation ptrs l := (sl_ptr <$> l).

(** [m'] differs from [m] at the addresses [ps] at most. *)
Definition same_but (ps : list Z) (m m' : gmap Z Node) : Prop := ∀ q, q ∉ ps → m' !! q = m !! q.

Lemma same_but_refl ps m : same_but ps m m.
Proof. done. Qed.
Lemma same_but_trans ps m1 m2 m3 : same_but ps m1 m2 → same_but ps m2 m3 → same_but ps m1 m3.
Proof. intros H1 H2 q Hq. by rewrite H2, H1. Qed.
Lemma same_but_insert ps m p n : p ∈ ps → same_but ps m (<[p := n]> m).
Proof. intros Hp q Hq. apply lookup_insert_ne. congruence. Qed.
Lemma same_but_weaken ps ps' m m' : (∀ q, q ∈ ps → q ∈ ps') → same_but ps m m' → same_but ps' m m'.
Proof. intros Hs H q Hq. apply H. naive_solver. Qed.

Section dseg.
Implicit Types (m : gmap Z Node) (l : list Slab).

Lemma dseg_frame m m' prev p l a b : dseg m prev p l a b → (∀ q, q ∈ ptrs l → m' !! q = m !! q) → dseg m' prev p l a b.
Proof.
  revert prev p. induction l as [|x l IH]; intros prev p; [done|]. cbn. intros (-> & Hp & next & Hx & Hl) Hm.
  split; [done|]. split; [done|]. exists next. split; [rewrite Hm; [done|left]|]. apply IH; [done|]. intros q Hq. apply Hm. by right.
Qed.

Lemma dseg_frame_but ps m m' prev p l a b :
  dseg m prev p l a b → same_but ps m m' → (∀ q, q ∈ ptrs l → q ∉ ps) → dseg m' prev p l a b.
Proof. intros Hd Hs Hp. eapply dseg_frame; [done|]. intros q Hq. by apply Hs, Hp. Qed.

Lemma dseg_app m prev p l1 l2 a b : dseg m prev p (l1 ++ l2) a b ↔ ∃ q r, dseg m prev p l1 q r ∧ dseg m q r l2 a b.
Proof.
  revert prev p. induction l1 as [|x l1 IH]; intros prev p; cbn.
  - split; [intros H; by exists prev, p|]. by intros (q & r & [-> ->] & ?).
  - setoid_rewrite IH. naive_solver.
Qed.

Lemma dseg_head m prev p x l a b : dseg m prev p (x :: l) a b → p = sl_ptr x ∧ p ≠ 0.
Proof. intros (? & ? & _). done. Qed.

Lemma dseg_last m prev p l x a b : dseg m prev p (l ++ [x]) a b → a = sl_ptr x ∧ a ≠ 0.
Proof. intros (q & r & _ & (-> & ? & next & _ & [-> ->]))%dseg_app. done. Qed.

(** The pointer back from the first slab, and the one forward from the last. *)
Lemma dseg_set_prev m prev p x l a b q :
  dseg m prev p (x :: l) a b → NoDup (ptrs (x :: l)) →
  ∃ n, m !! p = Some n ∧ dseg (<[p := {| nd_next := nd_next n; nd_prev := q; nd_slab := nd_slab n |}]> m) q p (x :: l) a b.
Proof.
  intros (-> & Hp & next & Hx & Hl) [Hni _]%NoDup_cons. eexists. split; [done|]. cbn. split_and!; [done|done|].
  exists next. rewrite lookup_insert_eq. split; [done|]. eapply dseg_frame; [done|]. intros r Hr. apply lookup_insert_ne. by intros <-.
Qed.

Lemma dseg_set_next m prev p l x a b q :
  dseg m prev p (l ++ [x]) a b → NoDup (ptrs (l ++ [x])) →
  ∃ n, m !! a = Some n ∧ dseg (<[a := {| nd_next := q; nd_prev := nd_prev n; nd_slab := nd_slab n |}]> m) prev p (l ++ [x]) a q.
Proof.
  intros (y & r & Hl & (-> & Hr & next & Hx & [-> ->]))%dseg_app Hnd. eexists. split; [done|].
  rewrite fmap_app in Hnd. apply NoDup_app in Hnd as (_ & Hd & _). apply dseg_app. exists y, (sl_ptr x). split.
  - eapply dseg_frame; [done|]. intros r Hr'. apply lookup_insert_ne. intros <-. apply (Hd _ Hr'). left.
  - cbn. split_and!; [done|done|]. exists q. by rewrite lookup_insert_eq.
Qed.

(** A slab's own fields. *)
Lemma dseg_set_slab m prev p l1 x l2 a b x' :
  dseg m prev p (l1 ++ x :: l2) a b → NoDup (ptrs (l1 ++ x :: l2)) → sl_ptr x' = sl_ptr x →
  ∃ n, m !! sl_ptr x = Some n ∧ nd_slab n = x ∧ 
    dseg (<[sl_ptr x := {| nd_next := nd_next n; nd_prev := nd_prev n; nd_slab := x' |}]> m) prev p (l1 ++ x' :: l2) a b.
Proof.
  intros (y & r & Hl & (-> & Hr & next & Hx & Hl2))%dseg_app Hnd Ex. eexists. split; [done|]. split; [done|].
  rewrite fmap_app in Hnd. apply NoDup_app in Hnd as (_ & Hd & [Hn2 _]%NoDup_cons).
  apply dseg_app. exists y, (sl_ptr x). split; [|split_and!; [done|done|]].
  - eapply dseg_frame; [done|]. intros q Hq. apply lookup_insert_ne. intros <-. apply (Hd _ Hq). left.
  - exists next. rewrite lookup_insert_eq. split; [done|]. eapply dseg_frame; [done|]. intros q Hq. apply lookup_insert_ne. by intros <-.
Qed.

(** Everything linked is in the memory of the structs. *)
Lemma dseg_size m prev p l a b : dseg m prev p l a b → NoDup (ptrs l) → (length l ≤ size m)%nat.
Proof.
  intros H Hnd. assert (∀ q, q ∈ ptrs l → q ∈ dom m) as Hdom.
  { revert prev p H. clear Hnd. induction l as [|x l IH]; intros prev p; cbn; [by intros _ q ?%not_elem_of_nil|].
    intros (-> & _ & next & Hx & Hl) q [->|Hq]%elem_of_cons; [by eapply elem_of_dom_2|by eapply IH]. }
  rewrite <- size_dom, <- (length_fmap sl_ptr), <- (size_list_to_set (C := gset Z)) by done.
  apply subseteq_size. intros q Hq%elem_of_list_to_set. by apply Hdom.
Qed.
End dseg.
(** ** The list operations *)

Definition heads_at (lk : Links) (order : Z) : option Heads := lookupZ (lk_caches lk) (order - CACHE_START_ORDER).

(** A step at one cache: the slabs at [ps] and the heads of cache [order] may be other ones. *)
Record cache_step (order : Z) (ps : list Z) (lk lk' : Links) : Prop := {
  cs_entries : lk_entries lk' = lk_entries lk;
  cs_allocations : lk_allocations lk' = lk_allocations lk;
  cs_others : ∀ o, o ≠ order → heads_at lk' o = heads_at lk o;
  cs_nodes : same_but ps (lk_nodes lk) (lk_nodes lk');
}.

Lemma cache_step_refl order ps lk : cache_step order ps lk lk.
Proof. done. Qed.

Lemma cache_step_trans order ps lk1 lk2 lk3 :
  cache_step order ps lk1 lk2 → cache_step order ps lk2 lk3 → cache_step order ps lk1 lk3.
Proof.
  intros [E1 A1 O1 N1] [E2 A2 O2 N2]. split; [congruence|congruence| |by eapply same_but_trans].
  intros o Ho. by rewrite O2, O1.
Qed.

Lemma cache_step_weaken order ps ps' lk lk' : (∀ q, q ∈ ps → q ∈ ps') → cache_step order ps lk lk' → cache_step order ps' lk lk'.
Proof. intros Hs []. split; [done|done|done|]. by eapply same_but_weaken. Qed.

Lemma step_nodes order ps p n lk : p ∈ ps → cache_step order ps lk (with_nodes (<[p := n]> (lk_nodes lk)) lk).
Proof. intros Hp. split; [done|done|done|]. by apply same_but_insert. Qed.

Lemma step_heads order ps c lk : cache_step order ps lk (with_heads order c lk).
Proof. split; [done|done| |done]. intros o Ho. apply lookupZ_insertZ_ne. lia. Qed.

Section ops.
Implicit Types (lk : Links).

Lemma get_node_eq p n lk : lk_nodes lk !! p = Some n → get_node p lk = Ok (n, lk).
Proof. intros Hn. unfold get_node, mbind, M_bind, gets. by rewrite Hn. Qed.

Lemma set_next_eq p v n lk :
  lk_nodes lk !! p = Some n →
  set_next p v lk = Ok (tt, with_nodes (<[p := {| nd_next := v; nd_prev := nd_prev n; nd_slab := nd_slab n |}]> (lk_nodes lk)) lk).
Proof. intros Hn. unfold set_next, mbind, M_bind. by rewrite (get_node_eq p n lk Hn). Qed.

Lemma set_prev_eq p v n lk :
  lk_nodes lk !! p = Some n →
  set_prev p v lk = Ok (tt, with_nodes (<[p := {| nd_next := nd_next n; nd_prev := v; nd_slab := nd_slab n |}]> (lk_nodes lk)) lk).
Proof. intros Hn. unfold set_prev, mbind, M_bind. by rewrite (get_node_eq p n lk Hn). Qed.

Lemma set_slab_eq p v n lk :
  lk_nodes lk !! p = Some n →
  set_slab p v lk = Ok (tt, with_nodes (<[p := {| nd_next := nd_next n; nd_prev := nd_prev n; nd_slab := v |}]> (lk_nodes lk)) lk).
Proof. intros Hn. unfold set_slab, mbind, M_bind. by rewrite (get_node_eq p n lk Hn). Qed.

Lemma get_heads_eq order c lk : heads_at lk order = Some c → get_cache order lk = Ok (c, lk).
Proof. intros Hc. unfold get_cache, mbind, M_bind, gets. unfold heads_at in Hc. by rewrite Hc. Qed.

Lemma set_head_eq order full p c lk :
  heads_at lk order = Some c → set_head order full p lk = Ok (tt, with_heads order (with_head full p c) lk).
Proof. intros Hc. unfold set_head, mbind, M_bind. by rewrite (get_heads_eq order c lk Hc). Qed.

Lemma heads_at_with order c c' lk : heads_at lk order = Some c → heads_at (with_heads order c' lk) order = Some c'.
Proof. intros Hc. unfold heads_at, with_heads. apply lookupZ_insertZ_eq. unfold heads_at in Hc. by rewrite Hc. Qed.

(** The neighbour behind a slab, if any, gets a pointer back. *)
Lemma set_prev_seg order p q l a b lk ps :
  dseg (lk_nodes lk) a p l b 0 → NoDup (ptrs l) → (∀ r, r ∈ ptrs l → r ∈ ps) →
  ∃ lk' last, (if p =? 0 then mret tt else set_prev p q) lk = Ok (tt, lk') ∧ dseg (lk_nodes lk') q p l last 0 ∧
    cache_step order ps lk lk' ∧ heads_at lk' order = heads_at lk order ∧ same_but (ptrs l) (lk_nodes lk) (lk_nodes lk').
Proof.
  intros Hl Hnd Hps. destruct l as [|x l].
  - destruct Hl as [-> <-]. by exists lk, q.
  - pose proof (dseg_head _ _ _ _ _ _ _ Hl) as [-> Hx]. destruct (dseg_set_prev _ _ _ _ _ _ _ q Hl Hnd) as (n & Hn & Hl').
    replace (sl_ptr x =? 0) with false by lia. rewrite (set_prev_eq _ q n lk Hn). eexists _, _. split; [done|]. split; [exact Hl'|].
    split; [apply step_nodes, Hps; left|]. split; [done|]. apply same_but_insert. left.
Qed.

Lemma remove_slab_eq order full before x after c last lk :
  heads_at lk order = Some c → dseg (lk_nodes lk) 0 (head_of full c) (before ++ x :: after) last 0 →
  NoDup (ptrs (before ++ x :: after)) →
  ∃ lk' p, remove_slab_from_list order full (sl_ptr x) lk = Ok (tt, lk') ∧
    heads_at lk' order = Some (with_head full p c) ∧ dlist (lk_nodes lk') p (before ++ after) ∧
    cache_step order (ptrs (before ++ after)) lk lk'.
Proof.
  intros Hc (a & r & Hb & (-> & Hx & next & Hnx & Ha))%dseg_app Hnd.
  assert (NoDup (ptrs before) ∧ NoDup (ptrs after) ∧ (sl_ptr x ∉ ptrs before) ∧ (sl_ptr x ∉ ptrs after) ∧
    ∀ q, q ∈ ptrs before → q ∉ ptrs after) as (Hndb & Hnda & Hxb & Hxa & Hab).
  { rewrite fmap_app in Hnd. apply NoDup_app in Hnd as (? & Hd & [? ?]%NoDup_cons). split_and!; [done|done| |done|].
    - intros Hq. apply (Hd _ Hq). left.
    - intros q Hq Hq'. apply (Hd _ Hq). by right. }
  set (ps := ptrs (before ++ after)).
  assert (∀ r, r ∈ ptrs after → r ∈ ps) as Hpa by (intros q Hq; unfold ps; rewrite fmap_app; apply elem_of_app; by right).
  unfold remove_slab_from_list, mbind, M_bind at 1. rewrite (get_node_eq _ _ _ Hnx). cbn [nd_next nd_prev].
  destruct (set_prev_seg order next a after (sl_ptr x) last lk ps Ha Hnda Hpa) as (lk1 & last1 & E1 & Ha1 & S1 & C1 & D1).
  unfold M_bind at 1. rewrite E1. cbn beta iota. unfold M_bind at 1. assert (lk_nodes lk1 !! sl_ptr x = lk_nodes lk !! sl_ptr x) as Ex1 by by apply D1.
  rewrite (get_node_eq (sl_ptr x) {| nd_next := next; nd_prev := a; nd_slab := x |} lk1) by by rewrite Ex1. cbn [nd_next nd_prev].
  assert (dseg (lk_nodes lk1) 0 (head_of full c) before a (sl_ptr x)) as Hb1 by (eapply dseg_frame_but; [exact Hb|exact D1|done]).
  assert (∃ lk2, (if a =? 0 then mret tt else set_next a next) lk1 = Ok (tt, lk2) ∧ heads_at lk2 order = heads_at lk1 order ∧
    cache_step order ps lk1 lk2 ∧ dseg (lk_nodes lk2) a next after last1 0 ∧ lk_nodes lk2 !! sl_ptr x = lk_nodes lk1 !! sl_ptr x ∧
    dseg (lk_nodes lk2) 0 (if sl_ptr x =? head_of full c then next else head_of full c) before a next) as (lk2 & E2 & C2 & S2 & Ha2 & Ex2 & Hb2).
  { destruct before as [|y before _] using rev_ind.
    - destruct Hb1 as [-> <-]. exists lk1. split_and!; [done|done|done|done|done|]. by rewrite Z.eqb_refl.
    - pose proof (dseg_last _ _ _ _ _ _ _ Hb1) as [-> Hy]. replace (sl_ptr y =? 0) with false by lia.
      destruct (dseg_set_next _ _ _ _ _ _ _ next Hb1 Hndb) as (n & Hn & Hb2). rewrite (set_next_eq _ next n lk1 Hn).
      assert (sl_ptr y ∈ ptrs (before ++ [y])) as Hyb by (rewrite fmap_app; apply elem_of_app; right; left).
      eexists. split; [done|]. split; [done|]. split_and!.
      + apply step_nodes. unfold ps. rewrite fmap_app. apply elem_of_app. by left.
      + eapply dseg_frame; [exact Ha1|]. intros q Hq. apply lookup_insert_ne. intros <-. by apply (Hab (sl_ptr y)).
      + apply lookup_insert_ne. congruence.
      + replace (sl_ptr x =? head_of full c) with false; [exact Hb2|]. symmetry. apply Z.eqb_neq. intros Eh.
        destruct before as [|z before]; destruct Hb1 as (Ez & _); apply Hxb; rewrite Eh, Ez; left. }
  unfold M_bind at 1. rewrite E2. cbn beta iota. unfold M_bind at 1. rewrite (get_heads_eq order c lk2) by congruence.
  assert (cache_step order ps lk lk2) as S12 by by eapply cache_step_trans.
  assert (dlist (lk_nodes lk2) (if sl_ptr x =? head_of full c then next else head_of full c) (before ++ after)) as Hl.
  { exists last1. apply dseg_app. by exists a, next. }
  destruct (sl_ptr x =? head_of full c).
  - unfold M_bind. rewrite (get_node_eq (sl_ptr x) {| nd_next := next; nd_prev := a; nd_slab := x |} lk2) by congruence. cbn [nd_next].
    rewrite (set_head_eq order full next c lk2) by congruence. eexists _, _. split; [done|]. split; [by eapply heads_at_with; rewrite C2, C1|].
    split; [exact Hl|]. eapply cache_step_trans; [exact S12|apply step_heads].
  - eexists _, _. split; [done|]. split; [|split; [exact Hl|exact S12]]. rewrite C2, C1, Hc. f_equal. by destruct c, full.
Qed.
Lemma add_to_part_eq order x n c l lk :
  heads_at lk order = Some c → lk_nodes lk !! sl_ptr x = Some n → nd_slab n = x → sl_ptr x ≠ 0 →
  dlist (lk_nodes lk) (hd_part c) l → NoDup (ptrs (x :: l)) →
  ∃ lk', add_to_part order (sl_ptr x) lk = Ok (tt, lk') ∧ heads_at lk' order = Some (with_head false (sl_ptr x) c) ∧
    dlist (lk_nodes lk') (sl_ptr x) (x :: l) ∧ cache_step order (ptrs (x :: l)) lk lk'.
Proof.
  intros Hc Hn Hx Hp [last Hl] [Hxl Hnd]%NoDup_cons. set (ps := ptrs (x :: l)).
  assert (sl_ptr x ∈ ps ∧ ∀ r, r ∈ ptrs l → r ∈ ps) as [Hxps Hlps] by (split; [left|by right]).
  unfold add_to_part, mbind, M_bind at 1. rewrite (get_heads_eq order c lk Hc).
  unfold M_bind at 1. rewrite (set_next_eq _ _ n lk Hn). set (lk1 := with_nodes _ lk). cbn beta iota.
  unfold M_bind at 1. rewrite (set_prev_eq _ _ {| nd_next := hd_part c; nd_prev := nd_prev n; nd_slab := x |} lk1) by (unfold lk1; cbn; by rewrite Hx, lookup_insert_eq).
  set (lk2 := with_nodes _ lk1). cbn beta iota. cbn [nd_next nd_prev nd_slab] in lk2.
  assert (cache_step order ps lk lk2) as S2.
  { eapply cache_step_trans; [by apply (step_nodes order ps (sl_ptr x))|by apply (step_nodes order ps (sl_ptr x))]. }
  assert (lk_nodes lk2 !! sl_ptr x = Some {| nd_next := hd_part c; nd_prev := 0; nd_slab := x |}) as Hx2 by apply lookup_insert_eq.
  assert (dseg (lk_nodes lk2) 0 (hd_part c) l last 0) as Hl2.
  { eapply dseg_frame; [exact Hl|]. intros q Hq. assert (sl_ptr x ≠ q) by (by intros <-). unfold lk2, lk1. cbn. by rewrite !lookup_insert_ne. }
  destruct (set_prev_seg order (hd_part c) (sl_ptr x) l 0 last lk2 ps Hl2 Hnd Hlps) as (lk3 & last3 & E3 & Hl3 & S3 & C3 & D3).
  unfold M_bind. rewrite E3. cbn beta iota. assert (heads_at lk3 order = Some c) as Hc3 by by rewrite C3.
  rewrite (set_head_eq order false _ c lk3 Hc3). eexists. split; [done|]. split; [by eapply heads_at_with|]. split.
  - exists last3. cbn. split_and!; [done|done|]. exists (hd_part c). split; [|exact Hl3]. by rewrite D3.
  - eapply cache_step_trans; [exact S2|]. eapply cache_step_trans; [exact S3|apply step_heads].
Qed.

Lemma part_to_full_eq order x c l l2 lk :
  heads_at lk order = Some c → dlist (lk_nodes lk) (hd_part c) (x :: l) → dlist (lk_nodes lk) (hd_full c) l2 →
  NoDup (ptrs (x :: l ++ l2)) →
  ∃ lk' p, part_to_full order (sl_ptr x) lk = Ok (tt, lk') ∧ heads_at lk' order = Some {| hd_part := p; hd_full := sl_ptr x; hd_cache := hd_cache c |} ∧
    dlist (lk_nodes lk') p l ∧ dlist (lk_nodes lk') (sl_ptr x) (x :: l2) ∧ cache_step order (ptrs (x :: l ++ l2)) lk lk'.
Proof.
  intros Hc [last (Ep & Hx & next & Hnx & Hl)] [last' Hl'] Hall. set (ps := ptrs (x :: l ++ l2)).
  assert ((sl_ptr x ∉ ptrs (l ++ l2)) ∧ NoDup (ptrs (l ++ l2))) as [Hxl Hnd] by by apply NoDup_cons.
  rewrite fmap_app in Hxl, Hnd. apply NoDup_app in Hnd as (Hnd & Hd & Hnd2). apply not_elem_of_app in Hxl as [Hxl Hxl2].
  assert (sl_ptr x ∈ ps ∧ (∀ r, r ∈ ptrs l → r ∈ ps) ∧ ∀ r, r ∈ ptrs l2 → r ∈ ps) as (Hxps & Hlps & Hl2ps).
  { unfold ps. cbn. rewrite fmap_app. split_and!; [left|intros r Hr; right; apply elem_of_app; by left|intros r Hr; right; apply elem_of_app; by right]. }
  rewrite Ep in Hx, Hnx, Hl. unfold part_to_full, mbind, M_bind at 1. rewrite (get_node_eq _ _ lk Hnx). cbn [nd_next].
  unfold M_bind at 1. rewrite (set_head_eq order false next c lk Hc). set (lk1 := with_heads _ _ lk). cbn beta iota.
  pose proof (heads_at_with order c (with_head false next c) lk Hc) as Hc1. fold lk1 in Hc1.
  destruct (set_prev_seg order next 0 l (sl_ptr x) last lk1 ps Hl Hnd Hlps) as (lk2 & last2 & E2 & Hl2 & S2 & C2 & D2).
  unfold M_bind at 1. rewrite E2. cbn beta iota. unfold M_bind at 1. rewrite (get_heads_eq order (with_head false next c) lk2) by congruence.
  cbn [hd_full with_head]. assert (lk_nodes lk2 !! sl_ptr x = Some {| nd_next := next; nd_prev := 0; nd_slab := x |}) as Hx2 by by rewrite D2.
  unfold M_bind at 1. rewrite (set_next_eq _ _ _ lk2 Hx2). cbn [nd_prev nd_slab]. set (lk3 := with_nodes _ lk2). cbn beta iota.
  assert (∀ q, sl_ptr x ≠ q → lk_nodes lk3 !! q = lk_nodes lk2 !! q) as N3 by (intros q Hq; by apply lookup_insert_ne).
  assert (dseg (lk_nodes lk3) 0 next l last2 0) as Hl3 by (eapply dseg_frame; [exact Hl2|]; intros q Hq; apply N3; by intros <-).
  assert (dseg (lk_nodes lk3) 0 (hd_full c) l2 last' 0) as Hl2'.
  { eapply dseg_frame; [exact Hl'|]. intros q Hq. rewrite N3 by (by intros <-). apply D2. intros Hql. by apply (Hd q). }
  destruct (set_prev_seg order (hd_full c) (sl_ptr x) l2 0 last' lk3 ps Hl2' Hnd2 Hl2ps) as (lk4 & last4 & E4 & Hl4 & S4 & C4 & D4).
  unfold M_bind. rewrite E4. cbn beta iota. assert (heads_at lk4 order = Some (with_head false next c)) as Hc4 by (rewrite C4; change (heads_at lk2 order = Some (with_head false next c)); congruence).
  rewrite (set_head_eq order true _ _ lk4 Hc4). eexists _, next. split; [done|]. split; [by eapply heads_at_with|]. split_and!.
  - exists last2. eapply dseg_frame_but; [exact Hl3|exact D4|]. intros q Hq Hq2. by apply (Hd q).
  - exists last4. cbn. split_and!; [done|done|]. exists (hd_full c). split; [|exact Hl4]. rewrite D4 by done. apply lookup_insert_eq.
  - eapply cache_step_trans; [apply (step_heads order ps (with_head false next c))|]. eapply cache_step_trans; [exact S2|].
    eapply cache_step_trans; [by apply (step_nodes order ps (sl_ptr x))|]. eapply cache_step_trans; [exact S4|apply step_heads].
Qed.
(** ** The searches *)

Lemma find_slab_eq c ptr p l a lk :
  dseg (lk_nodes lk) 0 p l a 0 → NoDup (ptrs l) →
  find_slab c ptr p lk = Ok (match find_split (contains c ptr) l with Some (_, x, _) => sl_ptr x | None => 0 end, lk).
Proof.
  intros Hl Hnd. pose proof (dseg_size _ _ _ _ _ _ Hl Hnd) as Hsize. unfold find_slab, mbind, M_bind at 1, gets. clear Hnd.
  revert p Hl Hsize. generalize 0 at 1 as prev. generalize (size (lk_nodes lk)) as k.
  induction l as [|x l IH]; intros k prev p Hl Hk.
  - destruct Hl as [_ <-]. by apply loop_done.
  - destruct Hl as (-> & Hp & next & Hx & Hl). cbn [length find_split] in *. destruct k as [|k]; [lia|].
    assert (sl_ptr x =? 0 = false) as Ep by lia. destruct (contains c ptr x) eqn:Hcon.
    + apply loop_done. rewrite Ep. unfold mbind, M_bind. rewrite (get_node_eq _ _ _ Hx). cbn. by rewrite Hcon.
    + erewrite loop_next. 2: { rewrite Ep. unfold mbind, M_bind. rewrite (get_node_eq _ _ _ Hx). cbn. by rewrite Hcon. }
      rewrite (IH k (sl_ptr x) next Hl) by lia. by destruct (find_split _ l) as [[[] ]|].
Qed.
(** What [kfree] does to the lists: a slab of the full list goes to the front of the other. *)
Lemma full_to_part_eq order x c l1 l2 l ps lk :
  heads_at lk order = Some c → dlist (lk_nodes lk) (hd_full c) (l1 ++ x :: l2) → dlist (lk_nodes lk) (hd_part c) l →
  NoDup (ptrs (l ++ l1 ++ x :: l2)) → (∀ q, q ∈ ptrs (l ++ l1 ++ x :: l2) → q ∈ ps) →
  ∃ lk1 lk2 p, remove_slab_from_list order true (sl_ptr x) lk = Ok (tt, lk1) ∧ add_to_part order (sl_ptr x) lk1 = Ok (tt, lk2) ∧
    heads_at lk2 order = Some {| hd_part := sl_ptr x; hd_full := p; hd_cache := hd_cache c |} ∧
    dlist (lk_nodes lk2) (sl_ptr x) (x :: l) ∧ dlist (lk_nodes lk2) p (l1 ++ l2) ∧ cache_step order ps lk lk2.
Proof.
  intros Hc [last Hf] [last' Hp] Hnd Hps. rewrite fmap_app in Hnd. apply NoDup_app in Hnd as (Hndl & Hd & Hndf).
  assert (sl_ptr x ∈ ptrs (l1 ++ x :: l2)) as Hxf by (rewrite fmap_app; apply elem_of_app; right; left).
  assert ((∀ q, q ∈ ptrs (l1 ++ l2) → q ∈ ptrs (l1 ++ x :: l2)) ∧ (sl_ptr x ∉ ptrs (l1 ++ l2))) as [Hsub Hxn].
  { rewrite !fmap_app, fmap_cons in *. split; [intros q; rewrite !elem_of_app, elem_of_cons; tauto|].
    rewrite <- Permutation_middle in Hndf. by apply NoDup_cons in Hndf as []. }
  destruct (proj1 (dseg_app _ _ _ _ _ _ _) Hf) as (q & r & _ & (-> & Hx0 & next & Hx & _)).
  destruct (remove_slab_eq order true l1 x l2 c last lk Hc Hf Hndf) as (lk1 & p & E1 & Hc1 & Hf1 & S1).
  pose proof (cs_nodes _ _ _ _ S1) as N1.
  assert (dlist (lk_nodes lk1) (hd_part (with_head true p c)) l) as Hp1.
  { exists last'. eapply dseg_frame_but; [exact Hp|exact N1|]. intros y Hy Hy'. by apply (Hd y Hy), Hsub. }
  assert (NoDup (ptrs (x :: l))) as Hndx by (constructor; [intros Hxl; by apply (Hd _ Hxl)|done]).
  destruct (add_to_part_eq order x {| nd_next := next; nd_prev := q; nd_slab := x |} _ l lk1 Hc1) as (lk2 & E2 & Hc2 & Hp2 & S2);
    [by rewrite N1|done|done|exact Hp1|exact Hndx|].
  exists lk1, lk2, p. split; [done|]. split; [done|]. split; [exact Hc2|]. split; [exact Hp2|]. split.
  - destruct Hf1 as [lastf Hf1]. exists lastf. eapply dseg_frame_but; [exact Hf1|apply S2|].
    intros y Hy [->|Hy']%elem_of_cons; [done|]. by apply (Hd y Hy'), Hsub.
  - rewrite fmap_app in Hps. setoid_rewrite elem_of_app in Hps. eapply cache_step_trans.
    + eapply cache_step_weaken; [|exact S1]. intros y Hy. apply Hps. right. by apply Hsub.
    + eapply cache_step_weaken; [|exact S2]. intros y [->|Hy]%elem_of_cons; apply Hps; [by right|by left].
Qed.
End ops.
(** ** Page allocations *)

(** From [p] on the entries of the page allocations [l] are linked. *)
Fixpoint slist (m : gmap Z Entry) (p : Z) (l : list PageAllocation) : Prop :=
  match l with
  | [] => p = 0
  | a :: l => p = pa_entry a ∧ p ≠ 0 ∧ ∃ next,
      m !! p = Some {| en_next := next; en_ptr := pa_ptr a; en_pages := pa_pages a |} ∧ slist m next l
  end.

Lemma slist_frame m m' p l : slist m p l → (∀ q, q ∈ pa_entry <$> l → m' !! q = m !! q) → slist m' p l.
Proof.
  revert p. induction l as [|a l IH]; intros p; [done|]. cbn. intros (-> & Hp & next & Ha & Hl) Hm. split_and!; [done|done|].
  exists next. split; [rewrite Hm; [done|left]|]. apply IH; [done|]. intros q Hq. apply Hm. by right.
Qed.

Lemma slist_size m p l : slist m p l → NoDup (pa_entry <$> l) → (length l ≤ size m)%nat.
Proof.
  intros H Hnd. assert (∀ q, q ∈ pa_entry <$> l → q ∈ dom m) as Hdom.
  { revert p H. clear Hnd. induction l as [|x l IH]; intros p; cbn; [by intros _ q ?%not_elem_of_nil|].
    intros (-> & _ & next & Hx & Hl) q [->|Hq]%elem_of_cons; [by eapply elem_of_dom_2|by eapply IH]. }
  rewrite <- size_dom, <- (length_fmap pa_entry), <- (size_list_to_set (C := gset Z)) by done.
  apply subseteq_size. intros q Hq%elem_of_list_to_set. by apply Hdom.
Qed.

(** The entry before the rest of the list, 0 at its head. *)
Definition entry_before (before : list PageAllocation) : Z := default 0 (pa_entry <$> last before).

Lemma slist_app m p l1 b l2 :
  slist m p (l1 ++ b :: l2) →
  pa_entry b ≠ 0 ∧ ∃ next, m !! pa_entry b = Some {| en_next := next; en_ptr := pa_ptr b; en_pages := pa_pages b |} ∧ slist m next l2.
Proof.
  revert p. induction l1 as [|x l1 IH]; intros p; cbn; [by intros (-> & ? & ?)|]. intros (_ & _ & next & _ & Hl). by apply (IH next).
Qed.

(** The list without [b]: the entry before it gets its pointer. *)
Lemma slist_unlink m p l1 y b l2 next en :
  slist m p ((l1 ++ [y]) ++ b :: l2) → NoDup (pa_entry <$> (l1 ++ [y]) ++ b :: l2) →
  slist m next l2 → m !! pa_entry y = Some en →
  slist (<[pa_entry y := {| en_next := next; en_ptr := en_ptr en; en_pages := en_pages en |}]> m) p ((l1 ++ [y]) ++ l2).
Proof.
  rewrite <- !app_assoc. cbn [app]. revert p. induction l1 as [|x l1 IH]; intros p; cbn [app].
  - intros (-> & Hp & n2 & Hy & Hl) Hnd Hnext Hen. rewrite Hy in Hen. injection Hen as <-. cbn. split_and!; [done|done|]. exists next.
    rewrite lookup_insert_eq. split; [done|]. eapply slist_frame; [exact Hnext|]. intros q Hq. apply lookup_insert_ne. intros <-.
    apply NoDup_cons in Hnd as [Hnd _]. apply Hnd. by right.
  - intros (-> & Hp & n2 & Hx & Hl) [Hxn Hnd]%NoDup_cons Hnext Hen. split_and!; [done|done|]. exists n2.
    rewrite lookup_insert_ne; [split; [done|by apply IH]|]. intros Exy. apply Hxn. change (pa_entry x ∈ pa_entry <$> l1 ++ y :: b :: l2).
    rewrite <- Exy, fmap_app. apply elem_of_app. right. left.
Qed.

Lemma find_allocation_eq ptr l before b after lk :
  slist (lk_entries lk) (lk_allocations lk) l → NoDup (pa_entry <$> l) → find_split (λ a, pa_ptr a =? ptr) l = Some (before, b, after) →
  ∃ last next lk', find_allocation ptr lk = Ok ((last, pa_entry b), lk) ∧
    lk_entries lk !! pa_entry b = Some {| en_next := next; en_ptr := pa_ptr b; en_pages := pa_pages b |} ∧ pa_entry b ≠ 0 ∧
    unlink_allocation last next lk = Ok (tt, lk') ∧ slist (lk_entries lk') (lk_allocations lk') (before ++ after) ∧
    lk_nodes lk' = lk_nodes lk ∧ lk_caches lk' = lk_caches lk.
Proof.
  intros Hl Hnd Efs. pose proof (find_split_Some _ _ _ _ _ Efs) as (El & _ & _). subst l.
  destruct (slist_app _ _ _ _ _ Hl) as (Hb0 & next & Hb & Hafter).
  assert (∃ lk', unlink_allocation (entry_before before) next lk = Ok (tt, lk') ∧ slist (lk_entries lk') (lk_allocations lk') (before ++ after) ∧
    lk_nodes lk' = lk_nodes lk ∧ lk_caches lk' = lk_caches lk) as (lk' & Hunlink).
  { unfold entry_before. destruct before as [|y before _] using rev_ind; [by eexists|].
    rewrite last_snoc. change (default 0 (pa_entry <$> Some y)) with (pa_entry y). rewrite <- app_assoc in Hl. destruct (slist_app _ _ _ _ _ Hl) as (Hy0 & n2 & Hy & _).
    rewrite app_assoc in Hl. unfold unlink_allocation. replace (pa_entry y =? 0) with false by lia.
    unfold mbind, M_bind, gets. rewrite Hy. eexists. split; [done|]. split; [|done]. by apply (slist_unlink _ _ _ _ b). }
  exists (entry_before before), next, lk'. split; [|by split_and!; [| |apply Hunlink..]].
  pose proof (slist_size _ _ _ Hl Hnd) as Hsize. unfold find_allocation, mbind, M_bind, gets. clear Hb Hafter Hnd.
  match goal with |- loop _ ?body _ _ = _ =>
    enough (∀ last0 k p, slist (lk_entries lk) p (before ++ b :: after) → (length (before ++ b :: after) ≤ k)%nat →
      loop (S k) body (last0, p) lk = Ok ((default last0 (pa_entry <$> last before), pa_entry b), lk)) as Hloop by by apply Hloop
  end.
  clear Hl Hsize Hunlink. revert Efs.
  induction before as [|x before IH]; intros Efs last0 k p Hl Hk.
  + destruct Hl as (-> & _ & n2 & Hb & _). cbn in Efs. destruct (pa_ptr b =? ptr) eqn:Eb; [|by destruct (find_split _ after) as [[[] ]|]].
    apply loop_done. replace (pa_entry b =? 0) with false by lia. rewrite Hb. cbn. by rewrite Eb.
  + destruct Hl as (-> & Hx0 & n2 & Hx & Hl). cbn in Efs, Hk. destruct (pa_ptr x =? ptr) eqn:Ex; [done|].
    destruct (find_split _ (before ++ b :: after)) as [[[b1 b2] b3]|] eqn:Ef; [|done]. injection Efs as -> -> ->.
    destruct k as [|k]; [lia|]. erewrite loop_next. 2: { replace (pa_entry x =? 0) with false by lia. rewrite Hx. cbn. by rewrite Ex. }
    rewrite (IH eq_refl (pa_entry x) k n2) by (done || lia). do 3 f_equal. rewrite last_cons. by destruct (last before).
Qed.
End SlabLists.
