(* ===== verification/SlabRefine.v ===== *)
(** The slab allocator in memory implements the one over sequences: [kalloc] and [kfree] of
    SlabLinks.v return what those of Slab.v return and leave lists that stand for theirs. *)
From S2P Require Import Prelude Util Slab SlabFree SlabHeap SlabLinks SlabLists.

Module SlabRefine.
Import Util Slab SlabFree SlabHeap SlabLists.
Import SlabLinks.

(** ** Structs of slabs are apart *)

Section heap.
Context {E : Type} (alloc_pages : Z → Z → M E Z) (free_pages : Z → Z → M E unit) `{!PageSource alloc_pages free_pages}.
Implicit Types (L : list (Z * Slab)) (A : list PageAllocation) (X : list (Z * Z)) (s : E * SlabAllocator) (t : E * Links).

Abbreviation heap_at := (heap_at alloc_pages free_pages).
Abbreviation heap_inv := (heap_inv alloc_pages free_pages).

Definition structs L : list Z := (λ x, sl_ptr x.2) <$> L.

Lemma elem_headers L x : x ∈ L → inside x.1 = false → sl_ptr x.2 ∈ headers L.
Proof. intros Hx Ein. apply list_elem_of_fmap. exists x. split; [done|]. by apply list_elem_of_filter. Qed.

Section apart.
Context {e : E} {X : list (Z * Z)} {L : list (Z * Slab)} {A : list PageAllocation} (H : heap_at e X L A).

Lemma slab_ok_elem x : x ∈ L → slab_ok x.
Proof. pose proof (ha_slabs _ _ _ _ _ _ H) as Hs. rewrite Forall_forall in Hs. apply Hs. Qed.

Lemma slab_range_valid x : x ∈ L → range_valid (slab_range x).
Proof. intros Hx. apply (ranges_valid _ _ H), elem_of_app. right. apply elem_of_app. left. by apply list_elem_of_fmap_2. Qed.

Lemma header_not_object x o p : x ∈ L → inside x.1 = true → used_in L o p → p ≠ sl_ptr x.2.
Proof.
  intros Hx Ein (sl & ch & Hin & Hwf & Hu). pose proof (slab_ok_elem _ Hx) as [_ _ Hp]. rewrite (Hp Ein).
  pose proof (slab_ok_elem _ Hin) as Hok. destruct (slab_range_valid x Hx) as (_ & Hpos & _ & _).
  destruct (slabs_apart _ _ H _ _ Hin Hx) as [<-|Ha].
  - destruct Hu as (i & Hi & _ & ->). pose proof (so_order _ Hok) as Ho. cbn in Ho. destruct (shape_good o Ho) as [Hsz _ _ _ _ Hfa _ _ _ _].
    unfold slab_range, header in *. cbn in *. rewrite Ein, Hsz. assert (0 < 2 ^ o) by (apply Z.pow_pos_nonneg; lia).
    unfold sizeof_Slab. nia.
  - pose proof (object_range _ _ _ _ Hok Hwf Hu) as [H1 H2]. pose proof (so_order _ Hok) as Ho. cbn in Ho.
    assert (0 < 2 ^ o) by (apply Z.pow_pos_nonneg; lia). unfold range_apart, PAGE_SIZE in *. lia.
Qed.

Lemma header_used x : x ∈ L → inside x.1 = false → used_in L 5 (sl_ptr x.2).
Proof. intros Hx Ein. apply (ha_internal _ _ _ _ _ _ H), elem_of_app. left. by apply elem_headers. Qed.

Lemma struct_inj x y : x ∈ L → y ∈ L → sl_ptr x.2 = sl_ptr y.2 → x = y.
Proof.
  intros Hx Hy Ep. destruct (inside x.1) eqn:Ex, (inside y.1) eqn:Ey.
  - destruct (slabs_apart _ _ H x y Hx Hy) as [?|Ha]; [done|exfalso].
    rewrite (so_inside _ (slab_ok_elem _ Hx) Ex), (so_inside _ (slab_ok_elem _ Hy) Ey) in Ep.
    destruct (slab_range_valid x Hx) as (_ & ? & _ & _), (slab_range_valid y Hy) as (_ & ? & _ & _). unfold range_apart, PAGE_SIZE in *. lia.
  - exfalso. by apply (header_not_object x 5 (sl_ptr y.2) Hx Ex (header_used y Hy Ey)).
  - exfalso. by apply (header_not_object y 5 (sl_ptr x.2) Hy Ey (header_used x Hx Ex)).
  - pose proof (ha_nodup _ _ _ _ _ _ H) as (Hnd & _)%NoDup_app. apply (fmap_inj_elem _ _ x y Hnd); [by apply list_elem_of_filter..|done].
Qed.

Lemma slabs_nodup : NoDup L.
Proof.
  pose proof (holds_apart _ _ (ha_holds _ _ _ _ _ _ H)) as (_ & Hr & _)%pairs_app. apply pairs_app in Hr as (Hl & _ & _). apply pairs_fmap in Hl.
  pose proof slab_range_valid as Hv. clear H. induction Hl as [|x l Hx Hl IH]; constructor; [|apply IH; intros y Hy; apply Hv; by right].
  intros Hin. rewrite Forall_forall in Hx. specialize (Hx x Hin). destruct (Hv x (list_elem_of_here _ _)) as (_ & ? & _ & _).
  unfold range_apart, PAGE_SIZE in *. lia.
Qed.

Lemma structs_nodup : NoDup (structs L).
Proof. apply NoDup_fmap_2_strong; [|exact slabs_nodup]. intros x y Hx Hy. by apply struct_inj. Qed.

(** A new struct is none of them, whether it is in new pages or in an object of a client. *)
Lemma live_struct p : live L A p 32 → p ∉ structs L.
Proof.
  intros Hl (x & -> & Hx)%list_elem_of_fmap. destruct (live_32 _ _ _ _ _ _ _ H Hl) as [Hu Hni]. destruct (inside x.1) eqn:Ein.
  - by apply (header_not_object x 5 (sl_ptr x.2)).
  - apply Hni, elem_of_app. left. by apply elem_headers.
Qed.
End apart.

Lemma new_pages_struct e r X L A : heap_at e (r :: X) L A → r.1 ∉ structs L.
Proof.
  intros H (x & Ep & Hx)%list_elem_of_fmap. pose proof (holds_apart _ _ (ha_holds _ _ _ _ _ _ H)) as Ha. inversion Ha as [|? ? Hr _]; subst.
  apply Forall_app in Hr as [_ [Hr _]%Forall_app]. rewrite Forall_fmap, Forall_forall in Hr.
  assert (∀ y, y ∈ L → range_apart r (slab_range y)) as Hry by exact Hr.
  destruct (ranges_valid _ _ H r (list_elem_of_here _ _)) as (_ & Hpos & _ & _). destruct (inside x.1) eqn:Ein.
  - rewrite (so_inside _ (slab_ok_elem H _ Hx) Ein) in Ep. specialize (Hry x Hx). destruct (slab_range_valid H x Hx) as (_ & ? & _ & _).
    unfold range_apart, PAGE_SIZE in *. lia.
  - destruct (used_range _ _ H _ _ (header_used H x Hx Ein)) as (y & Hy & _ & _ & H1 & H2). specialize (Hry y Hy).
    unfold range_apart, PAGE_SIZE in *. lia.
Qed.
(** ** What the structs stand for *)

Record cache_linked (m : gmap Z Node) (h : Heads) (c : Cache) : Prop := {
  cl_cache : hd_cache h = set_lists [] [] c;
  cl_part : dlist m (hd_part h) (ca_part c);
  cl_full : dlist m (hd_full h) (ca_full c);
}.

Record linked s (t : E * Links) : Prop := {
  ln_pages : t.1 = s.1;
  ln_caches : ∀ o c, cache_at s o = Some c → ∃ h, heads_at t.2 o = Some h ∧ cache_linked (lk_nodes t.2) h c;
  ln_entries : slist (lk_entries t.2) (lk_allocations t.2) (bigs s);
}.

Lemma cl_list m h c full : cache_linked m h c → dlist m (head_of full h) (if full : bool then ca_full c else ca_part c).
Proof. intros []. by destruct full. Qed.

Definition cache_ptrs (c : Cache) : list Z := ptrs (ca_part c ++ ca_full c).

Lemma structs_slabs o c : structs (slabs_of o c) = cache_ptrs c.
Proof. unfold structs, slabs_of, cache_ptrs. by rewrite <- list_fmap_compose. Qed.

(** The structs of one cache and of another. *)
Lemma cache_structs s o c :
  NoDup (structs (all_slabs s)) → cache_at s o = Some c →
  NoDup (cache_ptrs c) ∧ (∀ q, q ∈ cache_ptrs c → q ∈ structs (all_slabs s)) ∧
  ∀ o' c', o' ≠ o → cache_at s o' = Some c' → ∀ q, q ∈ cache_ptrs c' → q ∉ cache_ptrs c.
Proof.
  intros Hnd Hc. destruct (all_slabs_cache s o c Hc) as (rest & Hp & _). unfold structs in *. rewrite Hp, fmap_app in Hnd.
  fold (structs (slabs_of o c)) (structs rest) in Hnd. rewrite structs_slabs in Hnd. apply NoDup_app in Hnd as (Hnd & Hd & _).
  split; [done|]. split.
  - intros q Hq. rewrite Hp, fmap_app. apply elem_of_app. left. fold (structs (slabs_of o c)). by rewrite structs_slabs.
  - intros o' c' Hne Hc' q (sl & -> & Hsl)%list_elem_of_fmap Hq. apply (Hd _ Hq).
    assert ((o', sl) ∈ all_slabs s) as Hin by (apply elem_all_slabs; by exists c'). rewrite Hp in Hin.
    apply elem_of_app in Hin as [(? & [= -> ->] & _)%list_elem_of_fmap|Hin]; [done|]. by apply (list_elem_of_fmap_2 (λ x, sl_ptr x.2) rest (o', sl)).
Qed.

(** A step at one cache. *)
Lemma linked_step s t o c c' h' ps lk' :
  NoDup (structs (all_slabs s)) → linked s t → cache_at s o = Some c → cache_step o ps t.2 lk' →
  heads_at lk' o = Some h' → cache_linked (lk_nodes lk') h' c' →
  (∀ q, q ∈ ps → q ∈ cache_ptrs c ∨ q ∉ structs (all_slabs s)) → linked (with_cache o c' s) (t.1, lk').
Proof.
  intros Hnd [Hp Hcs He] Hc [E1 A1 O1 N1] Hh' Hl Hps. split; [done| |cbn [snd]; by rewrite E1, A1].
  intros o' c2 Hc2. destruct (decide (o' = o)) as [->|Hne].
  - rewrite (cache_at_with o c c' s Hc) in Hc2. injection Hc2 as <-. by exists h'.
  - rewrite cache_at_with_ne in Hc2 by done. destruct (Hcs o' c2 Hc2) as (h & Hh & [? [l1 Hp1] [l2 Hf1]]). exists h.
    cbn [snd]. rewrite O1 by done. split; [done|].
    destruct (cache_structs s o c Hnd Hc) as (_ & _ & Hd). destruct (cache_structs s o' c2 Hnd Hc2) as (_ & Hin & _).
    assert (∀ q, q ∈ cache_ptrs c2 → q ∉ ps) as Hout.
    { intros q Hq [Hq'|Hq']%Hps; [by eapply Hd|by apply Hq', Hin]. }
    unfold cache_ptrs in Hout. rewrite fmap_app in Hout. setoid_rewrite elem_of_app in Hout.
    split; [done|exists l1|exists l2]; (eapply dseg_frame_but; [done|exact N1|]); intros q Hq; apply Hout; [by left|by right].
Qed.

(** ** Simulation

    Where [m] returns, [m'] returns the same and the states stand for each other again. *)
Definition sim {B} (m : M (E * SlabAllocator) B) (m' : M (E * Links) B) s t : Prop :=
  ∀ b s', m s = Ok (b, s') → ∃ t', m' t = Ok (b, t') ∧ linked s' t'.

Lemma sim_ret {B} (b : B) s t : linked s t → sim (mret b) (mret b) s t.
Proof. intros H b' s' [= <- <-]. by exists t. Qed.

Lemma sim_fault {B} f (m' : M _ B) s t : sim (throw f) m' s t.
Proof. intros b s'. done. Qed.

Lemma sim_bind {B C} (m : M _ B) m' (k : B → M _ C) k' s t :
  sim m m' s t → (∀ b s1 t1, m s = Ok (b, s1) → linked s1 t1 → sim (k b) (k' b) s1 t1) → sim (m ≫= k) (m' ≫= k') s t.
Proof.
  intros Hm Hk c s' E1. unfold mbind, M_bind in *. destruct (m s) as [[b s1]|] eqn:Em; [|done].
  destruct (Hm b s1 Em) as (t1 & -> & Hl). by apply (Hk b s1 t1).
Qed.

Lemma sim_left {B C} (m : M _ B) (k : B → M _ C) m' b s s1 t : m s = Ok (b, s1) → sim (k b) m' s1 t → sim (m ≫= k) m' s t.
Proof. intros Hm Hk c s'. unfold mbind, M_bind. rewrite Hm. apply Hk. Qed.

Lemma sim_right {B C} (m : M _ C) (m' : M _ B) k' b s t t1 : m' t = Ok (b, t1) → sim m (k' b) s t1 → sim m (m' ≫= k') s t.
Proof. intros Hm Hk c s' E1. unfold mbind, M_bind. rewrite Hm. by apply Hk. Qed.

Lemma sim_pages {B} (m : M E B) s t : linked s t → sim (on_pages m) (on_pages m) s t.
Proof.
  destruct s as [e sa], t as [e' lk]. intros [Hp Hc He] b s'. cbn in Hp. subst e'. unfold on_pages.
  destruct (m e) as [[b' e1]|]; [|done]. intros [= <- <-]. exists (e1, lk). by split.
Qed.

Lemma on_links_eq {B} (m : M Links B) t b lk : m t.2 = Ok (b, lk) → on_links m t = Ok (b, (t.1, lk)).
Proof. destruct t as [e lk0]. cbn. by intros ->. Qed.

Lemma on_links_at {B} (m : M Links B) (e : E) lk b lk' : m lk = Ok (b, lk') → on_links m (e, lk) = Ok (b, (e, lk')).
Proof. apply (on_links_eq m (e, lk)). Qed.
Lemma sim_assert b msg s t : linked s t → sim (kernel_assert b msg) (kernel_assert b msg) s t.
Proof. intros H. destruct b; [by apply sim_ret|apply sim_fault]. Qed.

(** ** kalloc *)

Lemma take_object_any {St St'} c slab (s : St) (t : St') r (s1 : St) :
  take_object c slab s = Ok (r, s1) →
  s1 = s ∧ take_object (set_lists [] [] c) slab t = Ok (r, t) ∧ sl_ptr r.2 = sl_ptr slab.
Proof.
  unfold take_object, mbind, M_bind. destruct (lookupZ _ _); cbn; [|done]. by intros [= <- <-].
Qed.

Lemma alloc_from_sim s t o c slab part :
  NoDup (structs (all_slabs s)) → linked s t → cache_at s o = Some c → ca_part c = slab :: part →
  sim (alloc_from_part o) (alloc_from o (sl_ptr slab)) s t.
Proof.
  intros Hnd Hl Hc Hpart. destruct t as [e lk]. destruct (ln_caches _ _ Hl o c Hc) as (h & Hh & [Ehc [l1 Hd1] [l2 Hd2]]).
  cbn [snd] in *. rewrite Hpart in Hd1. pose proof (dseg_head _ _ _ _ _ _ _ Hd1) as [Ehp Hp0].
  destruct (cache_structs s o c Hnd Hc) as (Hndc & _ & _). unfold cache_ptrs in Hndc. rewrite Hpart in Hndc.
  assert (NoDup (ptrs (slab :: part)) ∧ ∀ q, q ∈ ptrs (slab :: part) → q ∉ ptrs (ca_full c)) as [Hnd1 Hdis].
  { rewrite fmap_app in Hndc. by apply NoDup_app in Hndc as (? & ? & _). }
  unfold alloc_from_part, alloc_from. apply (sim_left _ _ _ c s s); [by apply get_cache_eq|]. rewrite Hpart.
  apply (sim_right _ _ _ h _ _ (e, lk)); [apply (on_links_eq _ (e, lk)), get_heads_eq, Hh|].
  destruct (take_object c slab s) as [[[p slab'] s1]|f] eqn:Et; [|intros b s'; unfold mbind, M_bind; by rewrite Et].
  destruct (take_object_any c slab s (e, lk) _ s1 Et) as (-> & Et' & Es). cbn [snd] in Es. rewrite Ehc.
  destruct (dseg_set_slab _ _ _ [] slab part _ _ slab' Hd1 Hnd1 Es) as (n & Hn & Ens & Hd1'). rewrite <- Ens in Et'.
  apply (sim_right _ _ _ n _ _ (e, lk)); [by apply (on_links_eq _ (e, lk)), get_node_eq|].
  apply (sim_left _ _ _ (p, slab') s s); [done|]. apply (sim_right _ _ _ (p, slab') _ _ (e, lk)); [done|].
  set (lk1 := with_nodes (<[sl_ptr slab := {| nd_next := nd_next n; nd_prev := nd_prev n; nd_slab := slab' |}]> (lk_nodes lk)) lk).
  change (dseg (lk_nodes lk1) 0 (hd_part h) (slab' :: part) l1 0) in Hd1'. eapply (sim_right _ _ _ tt _ _ (e, lk1)); [by apply (on_links_eq _ (e, lk)), set_slab_eq|].
  set (ps := ptrs (slab' :: part ++ ca_full c)).
  assert (cache_step o ps lk lk1) as S1 by (apply step_nodes; unfold ps; cbn; rewrite Es; left).
  assert (dseg (lk_nodes lk1) 0 (hd_full h) (ca_full c) l2 0) as Hd2'.
  { eapply dseg_frame; [exact Hd2|]. intros q Hq. apply lookup_insert_ne. intros <-. apply (Hdis (sl_ptr slab)); [left|done]. }
  assert (∃ lk2 h2, (if sl_allocated slab' =? ca_count c then part_to_full o (sl_ptr slab) else mret tt) lk1 = Ok (tt, lk2) ∧
    heads_at lk2 o = Some h2 ∧ cache_linked (lk_nodes lk2) h2 (after_take c slab' part) ∧ cache_step o ps lk1 lk2) as (lk2 & h2 & E2 & Hh2 & Hl2 & S2).
  { unfold after_take. destruct (sl_allocated slab' =? ca_count c).
    - destruct (part_to_full_eq o slab' h part (ca_full c) lk1) as (lk2 & p2 & E2 & Hh2 & Hp2 & Hf2 & S2); [exact Hh|by exists l1|by exists l2| |].
      { cbn. rewrite Es. exact Hndc. }
      rewrite Es in E2. eexists lk2, _. split; [exact E2|]. split; [exact Hh2|]. split; [|exact S2]. split; [exact Ehc|exact Hp2|exact Hf2].
    - exists lk1, h. split; [done|]. split; [exact Hh|]. split; [|done]. split; [exact Ehc|by exists l1|by exists l2]. }
  eapply (sim_left _ _ _ tt s (with_cache o (after_take c slab' part) s)).
  { unfold after_take. by destruct (sl_allocated slab' =? ca_count c); apply set_cache_eq with c. }
  apply (sim_right _ _ _ tt _ _ (e, lk2)); [by apply (on_links_eq _ (e, lk1))|].
  assert (linked (with_cache o (after_take c slab' part) s) (e, lk2)) as Hl'.
  { apply (linked_step s (e, lk) o c _ h2 ps lk2); [done|done|done|by eapply cache_step_trans|done|done|].
    intros q Hq. left. unfold ps in Hq. cbn in Hq. rewrite Es in Hq. unfold cache_ptrs. by rewrite Hpart. }
  apply sim_bind; [by apply sim_assert|]. intros [] s1 t1 _ Hl1. by apply sim_ret.
Qed.

(** Pages and a place for the struct become a slab. *)
Lemma add_slab_sim s t o c p mem :
  NoDup (structs (all_slabs s)) → linked s t → cache_at s o = Some c → p ≠ 0 → (p ∉ structs (all_slabs s)) →
  sim (Slab.add_slab o p mem) (add_slab o p mem) s t ∧
  Slab.add_slab o p mem s = Ok (tt, with_cache o (set_lists (new_slab c p mem :: ca_part c) (ca_full c) c) s).
Proof.
  intros Hnd Hl Hc Hp Hnew. destruct t as [e lk]. destruct (ln_caches _ _ Hl o c Hc) as (h & Hh & [Ehc [l1 Hd1] [l2 Hd2]]). cbn [snd] in *.
  assert (Slab.add_slab o p mem s = Ok (tt, with_cache o (set_lists (new_slab c p mem :: ca_part c) (ca_full c) c) s)) as Ea.
  { unfold Slab.add_slab, mbind, M_bind. rewrite (get_cache_eq o c s Hc). by rewrite (set_cache_eq o c _ s Hc). }
  split; [|done]. intros [] s' E1. rewrite Ea in E1. injection E1 as <-.
  set (x := new_slab c p mem) in *. destruct (cache_structs s o c Hnd Hc) as (Hndc & Hin & _).
  assert (∀ q, q ∈ cache_ptrs c → p ≠ q) as Hpq by (intros q Hq <-; by apply Hnew, Hin).
  unfold cache_ptrs in Hndc, Hpq. rewrite fmap_app in Hndc, Hpq. apply NoDup_app in Hndc as (Hnd1 & Hdis & Hnd2). setoid_rewrite elem_of_app in Hpq.
  set (lk1 := with_nodes (<[p := {| nd_next := 0; nd_prev := 0; nd_slab := x |}]> (lk_nodes lk)) lk).
  assert (dlist (lk_nodes lk1) (hd_part h) (ca_part c)) as Hd1'.
  { exists l1. eapply dseg_frame; [exact Hd1|]. intros q Hq. apply lookup_insert_ne, Hpq. by left. }
  assert (dlist (lk_nodes lk1) (hd_full h) (ca_full c)) as [l2' Hd2'].
  { exists l2. eapply dseg_frame; [exact Hd2|]. intros q Hq. apply lookup_insert_ne, Hpq. by right. }
  destruct (add_to_part_eq o x {| nd_next := 0; nd_prev := 0; nd_slab := x |} h (ca_part c) lk1) as (lk2 & E2 & Hh2 & Hd & S2);
    [exact Hh|apply lookup_insert_eq|done|exact Hp|done| |].
  { constructor; [|done]. intros Hq. apply (Hpq p); [by left|done]. }
  exists (e, lk2). split.
  - unfold add_slab, mbind, M_bind. rewrite (on_links_eq _ (e, lk) _ _ (get_heads_eq o h lk Hh)). cbn [on_links put_node modify].
    rewrite Ehc. change (add_to_part o (sl_ptr x) (with_nodes (<[p := {| nd_next := 0; nd_prev := 0; nd_slab := x |}]> (lk_nodes lk)) lk) = Ok (tt, lk2)) in E2.
    cbn. unfold x, new_slab in *. cbn in *. by rewrite E2.
  - apply (linked_step s (e, lk) o c _ (with_head false p h) (ptrs (x :: ca_part c)) lk2); [done|done|done| |done| |].
    + eapply cache_step_trans; [apply (step_nodes o _ p); left|exact S2].
    + split; [exact Ehc|exact Hd|]. exists l2'. eapply dseg_frame_but; [exact Hd2'|apply S2|].
      intros q Hq [->|Hq']%elem_of_cons; [apply (Hpq p); [by right|done]|by apply (Hdis q)].
    + intros q [->|Hq]%elem_of_cons; [by right|left]. unfold cache_ptrs. rewrite fmap_app. apply elem_of_app. by left.
Qed.
Lemma add_and_alloc_sim s t o c p mem :
  NoDup (structs (all_slabs s)) → linked s t → cache_at s o = Some c → p ≠ 0 → (p ∉ structs (all_slabs s)) →
  sim (_ ← Slab.add_slab o p mem; alloc_from_part o) (_ ← add_slab o p mem; alloc_from o p) s t.
Proof.
  intros Hnd Hl Hc Hp Hnew. destruct (add_slab_sim s t o c p mem Hnd Hl Hc Hp Hnew) as [Hs Ea].
  apply sim_bind; [exact Hs|]. intros [] s1 t1 E1 Hl1. rewrite Ea in E1. injection E1 as <-.
  set (x := new_slab c p mem) in *. set (c' := set_lists (x :: ca_part c) (ca_full c) c) in *.
  apply (alloc_from_sim _ t1 o c' x (ca_part c)); [|done|by eapply cache_at_with|done].
  destruct (all_slabs_cache s o c Hc) as (rest & Hr & Hr'). unfold structs in *. rewrite Hr', Hr in *. by constructor.
Qed.

Lemma entry_nodup X s : heap_inv X s → NoDup (pa_entry <$> bigs s).
Proof. intros H. pose proof (ha_nodup _ _ _ _ _ _ (hi_heap _ _ _ _ H)) as (_ & _ & ?)%NoDup_app. done. Qed.

Lemma inv_structs X s : heap_inv X s → NoDup (structs (all_slabs s)).
Proof. intros H. exact (structs_nodup (hi_heap _ _ _ _ H)). Qed.

Lemma kalloc_small_sim fuel X s t size :
  heap_inv X s → linked s t → get_min_cache_order size ≤ 8 →
  sim (Slab.kalloc alloc_pages free_pages (S fuel) size) (kalloc alloc_pages free_pages (S fuel) size) s t.
Proof.
  intros H Hl Ho8. destruct (min_cache_order_spec size) as ([Ho4 _] & _). set (o := get_min_cache_order size) in *. unfold CACHE_START_ORDER in Ho4.
  assert (4 ≤ o ≤ 11) as Ho by lia. assert (inside o = true) as Ein by (rewrite inside_order; lia).
  destruct (proj2 (cache_at_order _ _ X s o H) Ho) as [c Hc]. destruct (hi_caches _ _ _ _ H o c Hc) as [Hsh _ _].
  destruct (ln_caches _ _ Hl o c Hc) as (h & Hh & [Ehc [l1 Hd1] _]). destruct t as [e lk]. cbn [Slab.kalloc kalloc]. fold o.
  unfold CACHE_END_ORDER. replace (11 <? o) with false by lia.
  apply (sim_left _ _ _ c s s); [by apply get_cache_eq|]. apply (sim_right _ _ _ h _ _ (e, lk)); [by apply (on_links_eq _ (e, lk)), get_heads_eq|].
  destruct (ca_part c) as [|slab part] eqn:Hpart.
  - destruct Hd1 as [_ <-]. cbn [negb Z.eqb]. rewrite Ehc. cbn [ca_pages ca_size set_lists].
    apply sim_bind; [by apply sim_pages|]. intros mem s1 t1 Ea Hl1.
    assert (ca_pages c = ca_pages (shape o)) as Epg by by rewrite Hsh. rewrite Epg in Ea.
    destruct (alloc_pages_heap _ _ X s _ mem s1 H (gs_pages _ (shape_good o Ho)) Ea) as (_ & Ecs & [[-> H1]|[Hm H1]]); [by apply sim_ret|].
    replace (mem =? 0) with false by lia. rewrite (shaped_inside o c Hsh), Ein.
    apply (add_and_alloc_sim s1 t1 o c mem); [by eapply inv_structs|done|unfold cache_at in *; by rewrite Ecs|lia|].
    exact (new_pages_struct _ _ _ _ _ (hi_heap _ _ _ _ H1)).
  - pose proof (dseg_head _ _ _ _ _ _ _ Hd1) as [-> Hp0]. replace (sl_ptr slab =? 0) with false by lia.
    apply (alloc_from_sim s (e, lk) o c slab part); [by eapply inv_structs|done|done|done].
Qed.

Lemma kalloc_mid_sim fuel X s t size :
  heap_inv X s → linked s t → 9 ≤ get_min_cache_order size ≤ 11 →
  sim (Slab.kalloc alloc_pages free_pages (S (S fuel)) size) (kalloc alloc_pages free_pages (S (S fuel)) size) s t.
Proof.
  intros H Hl Ho9. set (o := get_min_cache_order size) in *.
  assert (4 ≤ o ≤ 11) as Ho by lia. assert (inside o = false) as Ein by (rewrite inside_order; lia).
  destruct (proj2 (cache_at_order _ _ X s o H) Ho) as [c Hc]. destruct (hi_caches _ _ _ _ H o c Hc) as [Hsh _ _].
  destruct (ln_caches _ _ Hl o c Hc) as (h & Hh & [Ehc [l1 Hd1] _]). destruct t as [e lk].
  remember (S fuel) as f1 eqn:Ef. cbn [Slab.kalloc kalloc]. fold o.
  unfold CACHE_END_ORDER. replace (11 <? o) with false by lia.
  apply (sim_left _ _ _ c s s); [by apply get_cache_eq|]. apply (sim_right _ _ _ h _ _ (e, lk)); [by apply (on_links_eq _ (e, lk)), get_heads_eq|].
  destruct (ca_part c) as [|slab part] eqn:Hpart.
  - destruct Hd1 as [_ <-]. cbn [negb Z.eqb]. rewrite Ehc. cbn [ca_pages ca_size set_lists].
    apply sim_bind; [by apply sim_pages|]. intros mem s1 t1 Ea Hl1.
    assert (ca_pages c = ca_pages (shape o)) as Epg by by rewrite Hsh. rewrite Epg in Ea.
    destruct (alloc_pages_heap _ _ X s _ mem s1 H (gs_pages _ (shape_good o Ho)) Ea) as (_ & _ & [[-> H1]|[Hm H1]]); [by apply sim_ret|].
    replace (mem =? 0) with false by lia. rewrite (shaped_inside o c Hsh), Ein.
    subst f1. apply sim_bind; [eapply kalloc_small_sim; [exact H1|exact Hl1|by vm_compute]|]. intros ptr s2 t2 Ek Hl2.
    destruct (kalloc_inside _ _ fuel _ s1 sizeof_Slab ptr s2 H1 ltac:(by vm_compute) Ek) as [H2 Hptr].
    change (2 ^ get_min_cache_order sizeof_Slab) with 32 in Hptr. destruct Hptr as [[-> _]|(Hp0 & Hn2 & Hg2)].
    + cbn [Z.eqb]. apply sim_bind; [by apply sim_pages|]. intros [] s3 t3 _ Hl3. by apply sim_ret.
    + replace (ptr =? 0) with false by lia. destruct (proj2 (cache_at_order _ _ _ s2 o H2) Ho) as [c2 Hc2].
      apply (add_and_alloc_sim s2 t2 o c2 ptr); [by eapply inv_structs|done|done|lia|].
      apply (live_struct (hi_heap _ _ _ _ H2)). apply Hg2. by left.
  - pose proof (dseg_head _ _ _ _ _ _ _ Hd1) as [-> Hp0]. replace (sl_ptr slab =? 0) with false by lia.
    apply (alloc_from_sim s (e, lk) o c slab part); [by eapply inv_structs|done|done|done].
Qed.

Lemma kalloc_big_sim fuel X s t size :
  heap_inv X s → linked s t → 11 < get_min_cache_order size → 0 < size < 2 ^ 64 - PAGE_SIZE →
  sim (Slab.kalloc alloc_pages free_pages (S (S fuel)) size) (kalloc alloc_pages free_pages (S (S fuel)) size) s t.
Proof.
  intros H Hl Ho Hsize. remember (S fuel) as f1 eqn:Ef. cbn [Slab.kalloc kalloc].
  unfold CACHE_END_ORDER. replace (11 <? _) with true by lia. fold (big_pages size).
  apply sim_bind; [by apply sim_pages|]. intros ptr s1 t1 Ea Hl1.
  destruct (alloc_pages_heap _ _ X s _ ptr s1 H (big_pages_positive size Hsize) Ea) as (_ & _ & [[-> H1]|[Hm H1]]); [by apply sim_ret|].
  replace (ptr =? 0) with false by lia.
  subst f1. apply sim_bind; [eapply kalloc_small_sim; [exact H1|exact Hl1|by vm_compute]|]. intros entry s2 t2 Ek Hl2.
  destruct (kalloc_inside _ _ fuel _ s1 sizeof_PageAllocation entry s2 H1 ltac:(by vm_compute) Ek) as [H2 Hentry].
  change (2 ^ get_min_cache_order sizeof_PageAllocation) with 32 in Hentry. destruct Hentry as [[-> _]|(Hp0 & Hn2 & Hg2)]; [apply sim_fault|].
  replace (entry =? 0) with false by lia. intros b s' [= <- <-]. destruct t2 as [e lk], s2 as [e2 sa]. eexists. split; [done|].
  destruct Hl2 as [Hp Hc He]. split; [exact Hp|exact Hc|]. cbn [bigs snd sa_page_allocations slist lk_entries lk_allocations with_entries pa_entry pa_ptr pa_pages].
  split_and!; [done|lia|]. exists (lk_allocations lk). split; [apply lookup_insert_eq|]. eapply slist_frame; [exact He|].
  intros q Hq. apply lookup_insert_ne. intros <-. assert (live_at (e2, sa) entry 32) as Hlive by (apply Hg2; by left).
  destruct (live_32 _ _ _ _ _ _ _ (hi_heap _ _ _ _ H2) Hlive) as [_ Hni]. apply Hni, elem_of_app. by right.
Qed.
(** ** kfree *)

Section search.
Context (kf : Z → M (E * Links) unit) (ptr : Z) (s : E * SlabAllocator) (e : E) (lk : Links) (Hl : linked s (e, lk)) (Hnd : NoDup (structs (all_slabs s))).

Lemma list_nodup o c (full : bool) : cache_at s o = Some c → NoDup (ptrs (if full then ca_full c else ca_part c)).
Proof.
  intros Hc. destruct (cache_structs s o c Hnd Hc) as (Hndc & _ & _). unfold cache_ptrs in Hndc. rewrite fmap_app in Hndc.
  apply NoDup_app in Hndc as (? & _ & ?). by destruct full.
Qed.

Lemma find_slab_linked o c h (full : bool) :
  cache_at s o = Some c → cache_linked (lk_nodes lk) h c →
  find_slab (hd_cache h) ptr (head_of full h) lk =
    Ok (match find_split (contains c ptr) (if full then ca_full c else ca_part c) with Some (_, x, _) => sl_ptr x | None => 0 end, lk).
Proof.
  intros Hc Hcl. destruct (cl_list _ _ _ full Hcl) as [a Hd]. rewrite (cl_cache _ _ _ Hcl).
  by rewrite (find_slab_eq (set_lists [] [] c) ptr _ _ a lk Hd (list_nodup o c full Hc)).
Qed.

Lemma free_none_linked o c h (full : bool) :
  cache_at s o = Some c → heads_at lk o = Some h → cache_linked (lk_nodes lk) h c →
  Forall (λ slab, contains c ptr slab = false) (if full then ca_full c else ca_part c) →
  free_from_slab_list free_pages kf ptr o (head_of full h) (e, lk) = Ok (false, (e, lk)).
Proof.
  intros Hc Hh Hcl Hnone. unfold free_from_slab_list, mbind, M_bind at 1. rewrite (on_links_at _ e lk _ _ (get_heads_eq o h lk Hh)).
  unfold M_bind. rewrite (on_links_at _ e lk _ _ (find_slab_linked o c h full Hc Hcl)). by rewrite (proj2 (find_split_None _ _) Hnone).
Qed.

(** A cache without the object is passed over. *)
Lemma free_from_caches_next n o c :
  cache_at s o = Some c → Forall (λ slab, contains c ptr slab = false) (ca_part c) → Forall (λ slab, contains c ptr slab = false) (ca_full c) →
  free_from_caches free_pages kf (S n) o ptr (e, lk) = free_from_caches free_pages kf n (o + 1) ptr (e, lk).
Proof.
  intros Hc Hp Hf. destruct (ln_caches _ _ Hl o c Hc) as (h & Hh & Hcl). cbn [snd] in *.
  pose proof (on_links_at _ e lk _ _ (get_heads_eq o h lk Hh)) as Eget. cbn [free_from_caches].
  pose proof (free_none_linked o c h false Hc Hh Hcl Hp) as Ep. pose proof (free_none_linked o c h true Hc Hh Hcl Hf) as Ef.
  cbn [head_of] in *. unfold mbind, M_bind at 1. rewrite Eget. unfold M_bind at 1. rewrite Ep. unfold M_bind at 1. rewrite Eget. unfold M_bind. by rewrite Ef.
Qed.

Lemma free_from_caches_none_linked n o :
  4 ≤ o → o + Z.of_nat n ≤ 12 → none_below s 12 ptr → free_from_caches free_pages kf n o ptr (e, lk) = Ok (false, (e, lk)).
Proof.
  revert o. induction n as [|n IH]; intros o Ho Hn Hb; [done|].
  destruct (Hb o) as (c & Hc & Hp & Hf); [unfold CACHE_START_ORDER; lia|]. rewrite (free_from_caches_next n o c Hc Hp Hf). apply IH; [lia|lia|done].
Qed.

Lemma free_from_caches_reaches n o order c full before slab after :
  CACHE_START_ORDER ≤ o ≤ order → order < o + Z.of_nat n → found_in s order c ptr full before slab after → contains c ptr slab = true →
  free_from_caches free_pages kf n o ptr (e, lk) =
    match free_in_slab free_pages kf ptr order (sl_ptr slab) (e, lk) with Ok (_, t) => Ok (true, t) | Fault f => Fault f end.
Proof.
  revert o. induction n as [|n IH]; intros o Hle Hn Hf Hcon; [lia|]. pose proof Hf as [Ho Hc Hb El Hpart Hbefore]. destruct (decide (o = order)) as [->|Hne].
  - destruct (ln_caches _ _ Hl order c Hc) as (h & Hh & Hcl). cbn [snd] in *.
    pose proof (on_links_at _ e lk _ _ (get_heads_eq order h lk Hh)) as Eget.
    assert (free_from_slab_list free_pages kf ptr order (head_of full h) (e, lk) =
      match free_in_slab free_pages kf ptr order (sl_ptr slab) (e, lk) with Ok (_, t) => Ok (true, t) | Fault f => Fault f end) as Efree.
    { unfold free_from_slab_list, mbind, M_bind at 1. rewrite Eget. unfold M_bind at 1.
      rewrite (on_links_at _ e lk _ _ (find_slab_linked order c h full Hc Hcl)), El, find_split_app by done.
      destruct (cl_list _ _ _ full Hcl) as [a Hd]. rewrite El in Hd. apply dseg_app in Hd as (q & r & _ & (-> & Hp & _)).
      replace (sl_ptr slab =? 0) with false by lia. unfold M_bind. by destruct (free_in_slab _ _ _ _ _ _) as [[[] ?]|]. }
    cbn [free_from_caches]. unfold mbind, M_bind at 1. rewrite Eget. unfold M_bind at 1. destruct full.
    + pose proof (free_none_linked order c h false Hc Hh Hcl (Hpart eq_refl)) as Ep. cbn [head_of] in *. rewrite Ep.
      unfold M_bind at 1. rewrite Eget. unfold M_bind. rewrite Efree. by destruct (free_in_slab _ _ _ _ _ _) as [[[] ?]|].
    + cbn [head_of] in *. rewrite Efree. by destruct (free_in_slab _ _ _ _ _ _) as [[[] ?]|].
  - destruct (Hb o) as (c' & Hc' & Hp' & Hf'); [lia|]. rewrite (free_from_caches_next n o c' Hc' Hp' Hf'). apply IH; [lia|lia|done|done].
Qed.
End search.
Lemma wf_lists c slab chain : slab_wf c slab chain → slab_wf (set_lists [] [] c) slab chain.
Proof. by intros []. Qed.

(** What is left of a slab's lists when an object has come back: [x] in the partial list, behind
    [pb] and before [pa], and the full list [fl]. *)
Lemma free_in_slab_tail kf s e lk lk2 o c c' h2 pb x1 x pa fl :
  NoDup (structs (all_slabs s)) → linked s (e, lk) → cache_at s o = Some c → cache_step o (cache_ptrs c) lk lk2 →
  heads_at lk2 o = Some h2 → hd_cache h2 = set_lists [] [] c → dlist (lk_nodes lk2) (hd_part h2) (pb ++ x1 :: pa) → dlist (lk_nodes lk2) (hd_full h2) fl →
  sl_ptr x = sl_ptr x1 → NoDup (ptrs ((pb ++ x1 :: pa) ++ fl)) → (∀ q, q ∈ ptrs (pb ++ x1 :: pa) → q ∈ cache_ptrs c) →
  set_lists [] [] c' = set_lists [] [] c → ca_part c' = (if sl_allocated x =? 0 then pb ++ pa else pb ++ x :: pa) → ca_full c' = fl →
  ∃ lk', linked (with_cache o c' s) (e, lk') ∧
    (_ ← on_links (set_slab (sl_ptr x1) x);
     if sl_allocated x =? 0 then
       _ ← on_links (remove_slab_from_list o false (sl_ptr x1));
       if ca_size c <? OFF_SLAB_THRESHOLD then on_pages (free_pages (sl_ptr x1) (ca_pages c))
       else
         _ ← on_pages (free_pages (sl_mem x - ca_free_arr_size c) (ca_pages c));
         kf (sl_ptr x1)
     else mret tt) (e, lk2) =
    (if sl_allocated x =? 0 then
       if ca_size c <? OFF_SLAB_THRESHOLD then on_pages (free_pages (sl_ptr x1) (ca_pages c))
       else
         _ ← on_pages (free_pages (sl_mem x - ca_free_arr_size c) (ca_pages c));
         kf (sl_ptr x1)
     else mret tt) (e, lk').
Proof.
  intros Hnds Hl Hc S2 Hh2 Ehc [lp Hp] [lf Hf] Ex Hnd Hsub Ec' Ep' Ef'. rewrite fmap_app in Hnd. apply NoDup_app in Hnd as (Hndp & Hd & _).
  destruct (dseg_set_slab _ _ _ pb x1 pa _ _ x Hp Hndp Ex) as (n & Hn & _ & Hp3).
  set (lk3 := with_nodes (<[sl_ptr x1 := {| nd_next := nd_next n; nd_prev := nd_prev n; nd_slab := x |}]> (lk_nodes lk2)) lk2).
  assert (sl_ptr x1 ∈ ptrs (pb ++ x1 :: pa)) as Hin by (rewrite fmap_app; apply elem_of_app; right; left).
  assert (dlist (lk_nodes lk3) (hd_full h2) fl) as [lf3 Hf3].
  { exists lf. eapply dseg_frame; [exact Hf|]. intros q Hq. apply lookup_insert_ne. intros <-. by apply (Hd (sl_ptr x1)). }
  assert (cache_step o (cache_ptrs c) lk lk3) as S3.
  { eapply cache_step_trans; [exact S2|]. by apply step_nodes, Hsub. }
  assert (ptrs (pb ++ x :: pa) = ptrs (pb ++ x1 :: pa)) as Eptr by (rewrite !fmap_app; cbn; by rewrite Ex).
  unfold mbind, M_bind at 1. rewrite (on_links_at _ e lk2 _ _ (set_slab_eq _ x n lk2 Hn)). fold lk3. destruct (sl_allocated x =? 0).
  - destruct (remove_slab_eq o false pb x pa h2 lp lk3 Hh2 Hp3) as (lk4 & p & E4 & Hh4 & Hp4 & S4); [by rewrite Eptr|]. rewrite Ex in E4.
    exists lk4. unfold M_bind at 1. rewrite (on_links_at _ e lk3 _ _ E4). split; [|done].
    assert (∀ q, q ∈ ptrs (pb ++ pa) → q ∈ ptrs (pb ++ x1 :: pa)) as Hsub4.
    { intros q. rewrite !fmap_app, !elem_of_app, fmap_cons, elem_of_cons. tauto. }
    apply (linked_step s (e, lk) o c c' (with_head false p h2) (cache_ptrs c) lk4); [done|done|done| |done| |by left].
    + eapply cache_step_trans; [exact S3|]. eapply cache_step_weaken; [|exact S4]. intros q Hq. by apply Hsub, Hsub4.
    + split; [cbn; by rewrite Ehc, Ec'|rewrite Ep'; exact Hp4|]. rewrite Ef'. exists lf3. eapply dseg_frame_but; [exact Hf3|apply S4|].
      intros q Hq Hq'. by apply (Hd q); [apply Hsub4|].
  - exists lk3. split; [|done]. apply (linked_step s (e, lk) o c c' h2 (cache_ptrs c) lk3); [done|done|done|done|done| |by left].
    split; [by rewrite Ehc, Ec'|rewrite Ep'; by exists lp|rewrite Ef'; by exists lf3].
Qed.

(** Writing a slab of one list of a cache leaves the cache's other list as it is. *)
Lemma mark_slab s lk o c h full before slab after x1 :
  NoDup (structs (all_slabs s)) → cache_at s o = Some c → cache_linked (lk_nodes lk) h c →
  (if full : bool then ca_full c else ca_part c) = before ++ slab :: after → sl_ptr x1 = sl_ptr slab →
  ∃ n, lk_nodes lk !! sl_ptr slab = Some n ∧ nd_slab n = slab ∧
    let lk1 := with_nodes (<[sl_ptr slab := {| nd_next := nd_next n; nd_prev := nd_prev n; nd_slab := x1 |}]> (lk_nodes lk)) lk in
    cache_step o (cache_ptrs c) lk lk1 ∧ dlist (lk_nodes lk1) (head_of full h) (before ++ x1 :: after) ∧
    dlist (lk_nodes lk1) (head_of (negb full) h) (if full then ca_part c else ca_full c).
Proof.
  intros Hnd Hc Hcl El Ex. destruct (cache_structs s o c Hnd Hc) as (Hndc & _ & _).
  pose proof (list_nodup s Hnd o c full Hc) as Hndl. destruct (cl_list _ _ _ full Hcl) as [ll Hd]. rewrite El in Hndl, Hd.
  destruct (dseg_set_slab _ _ _ before slab after _ _ x1 Hd Hndl Ex) as (n & Hn & Ens & Hd1).
  exists n. split; [done|]. split; [done|]. intros lk1.
  assert (sl_ptr slab ∈ ptrs (if full then ca_full c else ca_part c)) as Hin by (rewrite El, fmap_app; apply elem_of_app; right; left).
  unfold cache_ptrs in *. rewrite fmap_app in Hndc. apply NoDup_app in Hndc as (_ & Hdis & _). split; [|split; [by exists ll|]].
  - apply step_nodes. rewrite fmap_app. apply elem_of_app. destruct full; tauto.
  - pose proof (cl_list _ _ _ (negb full) Hcl) as [lo Ho]. exists lo. eapply dseg_frame; [destruct full; exact Ho|].
    intros q Hq. apply lookup_insert_ne. intros <-. destruct full; by apply (Hdis (sl_ptr slab)).
Qed.

(** The lists of the cache after a free, and their sizes, in both cases of [kfree]. *)
Lemma freed_lists c (full : bool) before after x (last : bool) :
  let c' := if last then lists_without c full before after else lists_after_free c full before after x in
  set_lists [] [] c' = set_lists [] [] c ∧
  ca_part c' = (if full then if last then ca_part c else x :: ca_part c
                else if last then before ++ after else before ++ x :: after) ∧
  ca_full c' = (if full then before ++ after else ca_full c).
Proof. by destruct full, last. Qed.

Lemma free_in_slab_linked kf s e lk o c full before slab after chain i :
  NoDup (structs (all_slabs s)) → linked s (e, lk) → cache_at s o = Some c →
  (if full : bool then ca_full c else ca_part c) = before ++ slab :: after →
  slab_wf c slab chain → 0 ≤ i < ca_count c → (i ∉ chain) → (full = true ↔ chain = []) →
  ∃ lk', linked (with_cache o (if sl_allocated slab =? 1 then lists_without c full before after else lists_after_free c full before after (given slab i)) s) (e, lk') ∧
    free_in_slab free_pages kf (sl_mem slab + i * ca_size c) o (sl_ptr slab) (e, lk) =
    (if sl_allocated slab =? 1 then
       if ca_size c <? OFF_SLAB_THRESHOLD then on_pages (free_pages (sl_ptr slab) (ca_pages c))
       else
         _ ← on_pages (free_pages (sl_mem slab - ca_free_arr_size c) (ca_pages c));
         kf (sl_ptr slab)
     else mret tt) (e, lk').
Proof.
  intros Hnd Hl Hc El Hwf Hi Hni Hfull. destruct (ln_caches _ _ Hl o c Hc) as (h & Hh & Hcl). pose proof (cl_cache _ _ _ Hcl) as Ehc. cbn [snd] in *.
  destruct (cache_structs s o c Hnd Hc) as (Hndc & _ & _).
  set (x1 := {| sl_ptr := sl_ptr slab; sl_mem := sl_mem slab; sl_allocated := sl_allocated slab; sl_next_free := i;
                sl_free := insertZ i (sl_next_free slab) (sl_free slab) |}).
  destruct (mark_slab s lk o c h full before slab after x1 Hnd Hc Hcl El eq_refl) as (n & Hn & Ens & S1 & Hd1 & Hother).
  set (lk1 := with_nodes _ lk) in *.
  pose proof (in_use_allocated c slab chain i Hwf Hi Hni) as Hrange. pose proof (sw_allocated _ _ _ Hwf) as Hall.
  unfold free_in_slab, mbind, M_bind at 1. rewrite (on_links_at _ e lk _ _ (get_heads_eq o h lk Hh)). rewrite Ehc.
  unfold M_bind at 1. rewrite (on_links_at _ e lk _ _ (get_node_eq _ n lk Hn)). unfold M_bind at 1. rewrite Ens.
  pose proof (give_object_eq (set_lists [] [] c) slab chain i (e, lk) (wf_lists c slab chain Hwf) Hi) as Eg.
  cbn [ca_size set_lists] in Eg. rewrite Eg. fold x1.
  unfold M_bind at 1. rewrite (on_links_at _ e lk _ _ (set_slab_eq _ x1 n lk Hn)). change (with_nodes _ lk) with lk1.
  cbn [sl_allocated sl_ptr sl_mem sl_next_free sl_free x1 ca_count ca_size ca_pages ca_free_arr_size set_lists].
  rewrite wrap_small by lia. replace (sl_allocated slab - 1 =? 0) with (sl_allocated slab =? 1) by lia. fold (given slab i).
  set (x := given slab i).
  assert (sl_allocated x =? 0 = (sl_allocated slab =? 1)) as Ex0 by (unfold x, given; cbn; lia).
  destruct (freed_lists c full before after x (sl_allocated slab =? 1)) as (Ec' & Ep' & Ef').
  unfold cache_ptrs in Hndc. destruct full.
  - rewrite (proj1 Hfull eq_refl) in Hall. cbn [length] in Hall. replace (sl_allocated slab =? ca_count c) with true by lia.
    assert (ptrs (ca_part c ++ before ++ x1 :: after) = cache_ptrs c) as Eptr by (unfold cache_ptrs; by rewrite El, !fmap_app).
    destruct (full_to_part_eq o x1 h before after (ca_part c) (cache_ptrs c) lk1 Hh) as (lk2 & lk3 & p & E2 & E3 & Hh3 & Hp3 & Hf3 & S3);
      [done|done|by rewrite Eptr|by rewrite Eptr|]. change (sl_ptr x1) with (sl_ptr slab) in *.
    unfold M_bind at 1. unfold M_bind at 1. rewrite (on_links_at _ e lk1 _ _ E2), (on_links_at _ e lk2 _ _ E3).
    rewrite <- Ex0 in *. eapply (free_in_slab_tail kf s e lk lk3 o c _ _ [] x1 x (ca_part c) (before ++ after));
      [done|done|done|by eapply cache_step_trans|exact Hh3|exact Ehc|exact Hp3|exact Hf3|done| | |exact Ec'|exact Ep'|exact Ef'].
    + cbn [app]. rewrite El in Hndc. assert (ptrs (x1 :: ca_part c ++ before ++ after) ≡ₚ ptrs (ca_part c ++ before ++ slab :: after)) as ->; [|exact Hndc].
      rewrite (app_assoc (ca_part c)), (app_assoc (ca_part c) before (slab :: after)), <- Permutation_middle. done.
    + intros q Hq. rewrite <- Eptr. cbn [app] in Hq. rewrite !fmap_app, !fmap_cons, !elem_of_app, !elem_of_cons in *. tauto.
  - assert (chain ≠ []) as Hne by naive_solver. replace (sl_allocated slab =? ca_count c) with false by (destruct chain; [done|cbn in Hall; lia]).
    unfold M_bind at 1. cbn [mret M_ret]. rewrite <- Ex0 in *.
    assert (ptrs (before ++ x1 :: after) = ptrs (ca_part c)) as Eptr by by rewrite El, !fmap_app.
    eapply (free_in_slab_tail kf s e lk lk1 o c _ h before x1 x after (ca_full c));
      [done|done|done|exact S1|exact Hh|exact Ehc|exact Hd1|exact Hother|done| | |exact Ec'|exact Ep'|exact Ef'].
    + by rewrite fmap_app, Eptr, <- fmap_app.
    + intros q. rewrite Eptr. unfold cache_ptrs. rewrite fmap_app, elem_of_app. tauto.
Qed.

Lemma kfree_reaches_linked fuel s e lk o c p full before slab after :
  NoDup (structs (all_slabs s)) → linked s (e, lk) → found_in s o c p full before slab after → contains c p slab = true →
  kfree free_pages (S fuel) p (e, lk) = free_in_slab free_pages (kfree free_pages fuel) p o (sl_ptr slab) (e, lk).
Proof.
  intros Hnd Hl Hf Hcon. pose proof (fi_order _ _ _ _ _ _ _ _ Hf) as Ho. cbn [kfree]. unfold mbind, M_bind at 1.
  rewrite (free_from_caches_reaches (kfree free_pages fuel) p s e lk Hl Hnd _ _ o c full before slab after); [|lia|unfold CACHE_START_ORDER, CACHE_END_ORDER in *; lia|done|done].
  by destruct (free_in_slab _ _ _ _ _ _) as [[[] ?]|].
Qed.

Lemma sim_eq {B} (m m1 : M _ B) m' m1' s s1 t t1 : m s = m1 s1 → m' t = m1' t1 → sim m1 m1' s1 t1 → sim m m' s t.
Proof. unfold sim. by intros -> ->. Qed.

Lemma kfree_step_sim fuel X s t o p :
  heap_inv X s → linked s t → used_in (all_slabs s) o p → (p ∉ internals (all_slabs s) (bigs s)) →
  (inside o = false → ∀ s1 t1 q, heap_inv X s1 → linked s1 t1 → live_at s1 q 32 → sim (Slab.kfree free_pages fuel q) (kfree free_pages fuel q) s1 t1) →
  sim (Slab.kfree free_pages (S fuel) p) (kfree free_pages (S fuel) p) s t.
Proof.
  intros H Hl Hu Hpi Hrec. destruct (locate _ _ X s o p H Hu) as (c & full & before & slab & after & chain & Hloc).
  pose proof Hloc as [Hf Hwf Huc Hfull]. pose proof (fi_cache _ _ _ _ _ _ _ _ Hf) as Hc. pose proof (inv_structs X s H) as Hnd.
  destruct (hi_caches _ _ _ _ H o c Hc) as [Hsh _ _].
  destruct (kfree_found_eq free_pages fuel o c p full before slab after chain s Hf Hwf Huc Hfull) as (i & Ep & Hi & Hni & Eq).
  destruct t as [e lk]. pose proof (kfree_reaches_linked fuel s e lk o c p full before slab after Hnd Hl Hf (in_use_contains _ _ _ _ Hwf Huc)) as Eq'.
  destruct (free_in_slab_linked (kfree free_pages fuel) s e lk o c full before slab after chain i Hnd Hl Hc (fi_list _ _ _ _ _ _ _ _ Hf) Hwf Hi Hni Hfull)
    as (lk' & Hl' & Eq2). rewrite <- Ep in Eq2. rewrite Eq2 in Eq'. clear Eq2.
  rewrite (shaped_inside o c Hsh) in Eq, Eq'. destruct (Z.eqb_spec (sl_allocated slab) 1) as [Hone|].
  - destruct (last_object_heap _ _ X s o p c full before slab after chain H Hloc Hpi Hone) as (e' & Efree & H1 & Hptr & Hlive & _).
    eapply sim_eq; [exact Eq|exact Eq'|]. destruct (inside o) eqn:Ein; [by apply sim_pages|]. apply sim_bind; [by apply sim_pages|].
    intros [] s1 t1 E1 Hl1. unfold header in Efree. rewrite Ein, Z.sub_0_r in Efree. unfold on_pages in E1. cbn in E1. rewrite Efree in E1. injection E1 as <-.
    apply (Hrec eq_refl); [exact H1|exact Hl1|]. apply Hlive. right. done.
  - intros b s'. rewrite Eq. intros [= <- <-]. by exists (e, lk').
Qed.

Lemma kfree_small_sim fuel X s t q :
  heap_inv X s → linked s t → live_at s q 32 → sim (Slab.kfree free_pages (S fuel) q) (kfree free_pages (S fuel) q) s t.
Proof.
  intros H Hl Hq. destruct (live_32 _ _ _ _ _ _ _ (hi_heap _ _ _ _ H) Hq) as [Hu Hni].
  by apply (kfree_step_sim fuel X s t 5 q).
Qed.

Lemma kfree_big_sim fuel X s t a :
  heap_inv X s → linked s t → a ∈ bigs s →
  sim (Slab.kfree free_pages (S (S fuel)) (pa_ptr a)) (kfree free_pages (S (S fuel)) (pa_ptr a)) s t.
Proof.
  intros H Hl Ha. pose proof (big_not_contained _ _ X s a H Ha) as Hnone. destruct t as [e lk]. pose proof (ln_entries _ _ Hl) as Hen.
  remember (S fuel) as f1 eqn:Ef. cbn [Slab.kfree kfree].
  apply (sim_left _ _ _ false s s); [by apply free_from_caches_none|].
  apply (sim_right _ _ _ false _ _ (e, lk)); [by apply (free_from_caches_none_linked _ _ s e lk Hl (inv_structs X s H))|].
  apply (sim_left _ _ _ (bigs s) s s); [done|].
  destruct (find_split (λ b, pa_ptr b =? pa_ptr a) (bigs s)) as [[[before b] after]|] eqn:Efs; [|apply sim_fault].
  destruct (find_allocation_eq (pa_ptr a) (bigs s) before b after lk Hen (entry_nodup X s H) Efs) as (last & next & lk' & E1 & Eb & Hb0 & Eu & Hl' & En & Ecs).
  apply (sim_right _ _ _ (last, pa_entry b) _ _ (e, lk)); [by apply on_links_at|]. cbn beta iota. replace (pa_entry b =? 0) with false by lia.
  apply (sim_right _ _ _ (Some {| en_next := next; en_ptr := pa_ptr b; en_pages := pa_pages b |}) _ _ (e, lk)); [cbn; by rewrite Eb|].
  apply (sim_right _ _ _ {| en_next := next; en_ptr := pa_ptr b; en_pages := pa_pages b |} _ _ (e, lk)); [done|]. cbn [en_ptr en_pages en_next].
  apply find_split_Some in Efs as (El & Eab & _). apply Z.eqb_eq in Eab.
  assert (bigs s ≡ₚ b :: before ++ after) as Hp by (rewrite El; by rewrite Permutation_middle).
  destruct (drop_big_heap _ _ X s b before after H Hp) as (e' & Efree & H1 & Hlive).
  apply (sim_left _ _ _ tt s (e', s.2)); [unfold on_pages; destruct s; cbn in *; by rewrite Efree|].
  pose proof (ln_pages _ _ Hl) as Epg. cbn in Epg. subst e.
  apply (sim_right _ _ _ tt _ _ (e', lk)); [cbn; by rewrite Efree|].
  apply (sim_left _ _ _ tt (e', s.2) (e', {| sa_caches := sa_caches s.2; sa_page_allocations := before ++ after |})); [done|].
  apply (sim_right _ _ _ tt _ _ (e', lk')); [by apply on_links_at|].
  subst f1. eapply kfree_small_sim; [exact H1| |apply Hlive; by right].
  split; [done| |exact Hl']. intros o c Hc. unfold heads_at. cbn [snd]. rewrite En, Ecs. exact (ln_caches _ _ Hl o c Hc).
Qed.

(** The start of both, with room for the caches of all orders. *)
Definition start_links : Links :=
  {| lk_nodes := ∅; lk_entries := ∅;
     lk_caches := replicate (Z.to_nat (NUM_CACHES + 1)) {| hd_part := 0; hd_full := 0; hd_cache := no_cache |}; lk_allocations := 0 |}.

Lemma links_start e :
  ∃ s lk, Slab.initialize_slab_allocator (e, start_heap) = Ok (tt, s) ∧ initialize_slab_allocator start_links = Ok (tt, lk) ∧ linked s (e, lk).
Proof.
  eexists _, _. split; [by vm_compute|]. split; [by vm_compute|]. split; [done| |done].
  intros o c Hc. unfold cache_at in Hc. pose proof (lookupZ_Some_range _ _ _ Hc) as Ho. cbn in Ho. unfold CACHE_START_ORDER in *.
  assert (4 ≤ o ≤ 11) as Hcases%order_cases by lia.
  destruct Hcases as [->|[->|[->|[->|[->|[->|[->| ->]]]]]]]; injection Hc as <-; (eexists; split; [reflexivity|]); (split; [done|by exists 0|by exists 0]).
Qed.

End heap.
End SlabRefine.
