(* ===== verification/SlabExamples.v ===== *)
(** A page allocator for the slab allocator's interface, and the heap theorems at calls on top
    of it. *)
From S2P Require Import Prelude Util Slab SlabFree SlabHeap SlabLinks SlabRefine.

Module SlabExamples.
Import Util Slab SlabFree SlabHeap.
Import SlabLinks(Links). Import SlabRefine(start_links, linked, links_start).

(** ** Pages one after another

    The state is the address of the next page and the ranges that are handed out. *)
Definition Bump : Type := Z * list (Z * Z).

Definition bump_alloc (pages flags : Z) : M Bump Z := λ '(next, l),
  let next' := next + pages * PAGE_SIZE in
  if next' <? 2 ^ 64 then Ok (next, (next', (next, pages) :: l)) else Ok (0, (next, l)).

Definition bump_free (p pages : Z) : M Bump unit := λ '(next, l),
  Ok (tt, (next, filter (λ r, r ≠ (p, pages)) l)).

Definition range_below (next : Z) (r : Z * Z) : Prop := range_valid r ∧ r.1 + r.2 * PAGE_SIZE ≤ next.

Record bump_holds (e : Bump) (held : list (Z * Z)) : Prop := {
  bh_held : held ≡ₚ e.2;
  bh_next : 0 < e.1 ∧ (4096 | e.1);
  bh_below : Forall (range_below e.1) held;
  bh_apart : ForallOrdPairs range_apart held;
}.

Lemma filter_all {A} (P : A → Prop) `{∀ x, Decision (P x)} l : Forall P l → filter P l = l.
Proof. induction 1 as [|x l Hx _ IH]; [done|]. rewrite filter_cons_True by done. by rewrite IH. Qed.

Lemma range_apart_sym r r' : range_apart r r' → range_apart r' r.
Proof. unfold range_apart. lia. Qed.

Lemma pairs_perm {A} (R : A → A → Prop) l l' :
  (∀ x y, R x y → R y x) → l ≡ₚ l' → ForallOrdPairs R l → ForallOrdPairs R l'.
Proof.
  intros Hsym Hl. induction Hl as [|x l l' Hl IH|x y l|l l' l'' _ IH1 _ IH2]; [done| | |auto].
  - intros H. inversion H; subst. constructor; [by rewrite <- Hl|auto].
  - intros H. inversion H as [|? ? Hx Hy]; subst. inversion Hy; subst. apply Forall_cons in Hx as [? ?].
    constructor; [constructor; auto|by constructor].
Qed.

#[export] Instance bump_source : PageSource bump_alloc bump_free.
Proof.
  refine {| holds := bump_holds |}.
  - intros e held H. eapply Forall_impl; [apply H|]. by intros r [].
  - intros e held H. apply H.
  - intros e held held' Hp [Hh Hn Hb Ha]. split; [by rewrite <- Hp|done|by rewrite <- Hp|].
    by eapply pairs_perm; [exact range_apart_sym|exact Hp|].
  - intros [next l] held pages p e' [Hh [Hn Hd] Hb Ha] Hpages. unfold bump_alloc.
    destruct (Z.ltb_spec (next + pages * PAGE_SIZE) (2 ^ 64)); intros [= <- <-]; [right|by left].
    cbn [fst snd] in *. split; [done|]. unfold PAGE_SIZE in *. split; cbn [fst snd]; [by rewrite Hh| | |].
    + split; [lia|]. apply Z.divide_add_r; [done|by exists pages].
    + constructor; [split; [split_and!; cbn; [done|done|done|done]|cbn; unfold PAGE_SIZE; lia]|].
      eapply Forall_impl; [exact Hb|]. intros r [Hr Hle]. split; [done|]. lia.
    + constructor; [|done]. eapply Forall_impl; [exact Hb|]. intros r [_ Hle]. right. exact Hle.
  - intros [next l] held p pages [Hh Hn Hb Ha]. exists (next, filter (λ r, r ≠ (p, pages)) l). split; [done|].
    cbn [fst snd] in *. apply Forall_cons in Hb as [[(_ & Hpos & _) _] Hb]. inversion Ha as [|? ? Hne Ha']; subst. split; cbn [fst snd]; [|done|done|done].
    rewrite <- Hh, filter_cons_False by auto. apply Permutation_refl'. symmetry. apply filter_all.
    eapply Forall_impl; [exact Hne|]. intros r Hr ->. unfold range_apart, PAGE_SIZE in Hr. cbn in *. lia.
Defined.

Definition pages_start : Bump := (0x10000, []).

Lemma bump_start : holds (PageSource := bump_source) pages_start [].
Proof. split; [done|split; [done|by exists 16]|constructor|constructor]. Qed.

(** The heap over these pages after start-up: the orders 4 to 11, no slab. *)
Definition empty_heap : Bump * SlabAllocator :=
  match initialize_slab_allocator (pages_start, start_heap) with Ok (_, s) => s | Fault _ => (pages_start, start_heap) end.

Lemma empty_heap_inv : heap_inv bump_alloc bump_free [] empty_heap ∧ ∀ p n, ¬ live_at empty_heap p n.
Proof.
  destruct (slab_start bump_alloc bump_free [] pages_start bump_start) as (s & E1 & _ & H & Hl).
  unfold empty_heap. by rewrite E1.
Qed.

(** What a call of [kalloc] leaves. *)
Definition after_kalloc (size : Z) (s : Bump * SlabAllocator) : Bump * SlabAllocator :=
  match kalloc bump_alloc bump_free 2 size s with Ok (_, s) => s | Fault _ => s end.


Lemma after_kalloc_live :
  heap_inv bump_alloc bump_free [] (after_kalloc 600 empty_heap) ∧
  ∀ q m, live_at (after_kalloc 600 empty_heap) q m ↔ q = 0x10010 ∧ m = 1024.
Proof.
  destruct empty_heap_inv as [H Hnone].
  destruct (kalloc_outside bump_alloc bump_free 0 [] empty_heap 600 0x10010 (after_kalloc 600 empty_heap))
    as [H' [[? _]|(_ & _ & Hl)]]; [exact H|by vm_compute|by vm_compute|done|].
  split; [done|]. intros q m. specialize (Hnone q m). etransitivity; [apply Hl|]. split; [intros [?|?]; [done|by destruct Hnone]|by left].
Qed.


(** The same heap in memory. *)
Definition empty_links : Links :=
  match SlabLinks.initialize_slab_allocator start_links with Ok (_, lk) => lk | Fault _ => start_links end.

Lemma empty_linked : linked empty_heap (pages_start, empty_links).
Proof.
  destruct (links_start pages_start) as (s & lk & E1 & E2 & H). unfold empty_heap, empty_links. by rewrite E1, E2.
Qed.

End SlabExamples.
