(* ===== verification/Descriptors.v ===== *)
(** Segments, the task state and interrupt gates: kernel/src/gdt.c and kernel/src/idt.c.

    [cpu] holds the two tables, the task state and the registers the assembly sets. What
    the processor makes of a descriptor is given by [descriptor_base], [descriptor_limit]
    and [gate_offset], from the layout both files refer to. *)
From S2P Require Import Prelude Util.

Module Descriptors.
Import Util.

Definition GDT_KERNEL_CODE_SEGMENT : Z := 0x08.
Definition GDT_KERNEL_DATA_SEGMENT : Z := 0x10.
Definition GDT_USER_DATA_SEGMENT : Z := 0x20.
Definition GDT_USER_CODE_SEGMENT : Z := 0x28.
Definition GDT_TSS_SEGMENT : Z := 0x30.
Definition TSS_STACK_PAGES : Z := 2.
Definition INTERRUPT_GATE : Z := 14.
Definition TRAP_GATE : Z := 15.

Record GDTEntry := {
  limit_0_15 : Z;
  base_0_15 : Z;
  base_16_23 : Z;
  access : Z;
  limit_16_19_and_flags : Z;
  base_24_31 : Z;
}.

Definition gdt_entry (access flags : Z) : GDTEntry :=
  {| limit_0_15 := 0; base_0_15 := 0; base_16_23 := 0; access := access;
     limit_16_19_and_flags := flags; base_24_31 := 0 |}.

(** g_gdt, in the order of its fields: null, kernel_code, kernel_data, null2, user_data,
    user_code, tss_low, tss_high. *)
Definition g_gdt : list GDTEntry :=
  [gdt_entry 0 0; gdt_entry 0x9a 0xa0; gdt_entry 0x92 0xa0; gdt_entry 0 0;
   gdt_entry 0xf2 0xa0; gdt_entry 0xfa 0xa0; gdt_entry 0x89 0xa0; gdt_entry 0 0].

Record TSS := { tss_rsp : list Z; tss_interrupt_stack_table : list Z; tss_iopb_offset : Z }.
Definition sizeof_tss : Z := 4 + 3 * 8 + 8 + 7 * 8 + 10 + 2.

Record IDTEntry := {
  offset_0_15 : Z;
  selector : Z;
  ist : Z;
  type_attr : Z;
  offset_16_31 : Z;
  offset_32_63 : Z;
}.
Definition empty_gate : IDTEntry :=
  {| offset_0_15 := 0; selector := 0; ist := 0; type_attr := 0; offset_16_31 := 0; offset_32_63 := 0 |}.

(** A table register: the size field and the address. *)
Record TableRegister := { tr_size : Z; tr_base : Z }.

Record cpu := {
  cpu_gdt : list GDTEntry;
  cpu_tss : TSS;
  cpu_idt : list IDTEntry;
  cpu_gdtr : TableRegister;
  cpu_idtr : TableRegister;
  cpu_task : Z;
  cpu_cs : Z;
  cpu_data_segments : Z;
  cpu_interrupts : bool;
}.

Definition set_gdt (g : list GDTEntry) (t : TSS) (c : cpu) : cpu :=
  {| cpu_gdt := g; cpu_tss := t; cpu_idt := cpu_idt c; cpu_gdtr := cpu_gdtr c; cpu_idtr := cpu_idtr c;
     cpu_task := cpu_task c; cpu_cs := cpu_cs c; cpu_data_segments := cpu_data_segments c;
     cpu_interrupts := cpu_interrupts c |}.
Definition set_idt (i : list IDTEntry) (c : cpu) : cpu :=
  {| cpu_gdt := cpu_gdt c; cpu_tss := cpu_tss c; cpu_idt := i; cpu_gdtr := cpu_gdtr c; cpu_idtr := cpu_idtr c;
     cpu_task := cpu_task c; cpu_cs := cpu_cs c; cpu_data_segments := cpu_data_segments c;
     cpu_interrupts := cpu_interrupts c |}.

(** cli; lgdt; ltr; the segment registers; a far return for cs. *)
Definition set_gdt_and_tss (gdt : TableRegister) : M cpu unit :=
  modify (λ c, {| cpu_gdt := cpu_gdt c; cpu_tss := cpu_tss c; cpu_idt := cpu_idt c; cpu_gdtr := gdt;
                  cpu_idtr := cpu_idtr c; cpu_task := GDT_TSS_SEGMENT; cpu_cs := GDT_KERNEL_CODE_SEGMENT;
                  cpu_data_segments := GDT_KERNEL_DATA_SEGMENT; cpu_interrupts := false |}).

Definition set_tss_kernel_stack (stack_ptr : Z) : M cpu unit :=
  modify (λ c, set_gdt (cpu_gdt c) {| tss_rsp := insertZ 0 stack_ptr (tss_rsp (cpu_tss c));
    tss_interrupt_stack_table := tss_interrupt_stack_table (cpu_tss c);
    tss_iopb_offset := tss_iopb_offset (cpu_tss c) |} c).

(** The two halves of the TSS descriptor with the address of the TSS put in. *)
Definition tss_low (tss_base : Z) (e : GDTEntry) : GDTEntry :=
  {| limit_0_15 := u16 sizeof_tss; base_0_15 := Z.land tss_base 0xffff;
     base_16_23 := Z.land (Z.shiftr tss_base 16) 0xff; access := access e;
     limit_16_19_and_flags := limit_16_19_and_flags e;
     base_24_31 := Z.land (Z.shiftr tss_base 24) 0xff |}.
Definition tss_high (tss_base : Z) (e : GDTEntry) : GDTEntry :=
  {| limit_0_15 := Z.land (Z.shiftr tss_base 32) 0xffff; base_0_15 := Z.land (Z.shiftr tss_base 48) 0xffff;
     base_16_23 := base_16_23 e; access := access e; limit_16_19_and_flags := limit_16_19_and_flags e;
     base_24_31 := base_24_31 e |}.

Section setup.
(** The task state with a new stack for entry 1 of the interrupt stack table, and the
    descriptor that names it. *)
Definition fill_tss (tss_base stack : Z) : M cpu unit :=
  c ← gets id;
  low ← of_option OutOfBounds (lookupZ (cpu_gdt c) 6);
  high ← of_option OutOfBounds (lookupZ (cpu_gdt c) 7);
  modify (set_gdt
    (insertZ 7 (tss_high tss_base high) (insertZ 6 (tss_low tss_base low) (cpu_gdt c)))
    {| tss_rsp := tss_rsp (cpu_tss c);
       tss_interrupt_stack_table :=
         insertZ 0 (u64 (stack + TSS_STACK_PAGES * PAGE_SIZE)) (tss_interrupt_stack_table (cpu_tss c));
       tss_iopb_offset := sizeof_tss |}).

(** alloc_pages, and the addresses of g_tss, g_gdt and g_idt. *)
Context {S : Type} `{!Part cpu S} (alloc_pages : Z → Z → M S Z) (tss_base gdt_base idt_base : Z).

Definition setup_gdt_and_tss : M S unit :=
  stack ← alloc_pages TSS_STACK_PAGES 1;
  _ ← on_part (fill_tss tss_base stack);
  on_part (set_gdt_and_tss {| tr_size := 8 * 8 - 1; tr_base := gdt_base |}).

(** lidt; sti *)
Definition setup_idt : M cpu unit :=
  modify (λ c, {| cpu_gdt := cpu_gdt c; cpu_tss := cpu_tss c; cpu_idt := cpu_idt c; cpu_gdtr := cpu_gdtr c;
                  cpu_idtr := {| tr_size := 256 * 16 - 1; tr_base := idt_base |};
                  cpu_task := cpu_task c; cpu_cs := cpu_cs c; cpu_data_segments := cpu_data_segments c;
                  cpu_interrupts := true |}).
End setup.

Definition idt_gate (type handler_address segment_selector ist privilege : Z) : IDTEntry :=
  {| offset_0_15 := Z.land handler_address 0xffff; selector := segment_selector; ist := ist;
     type_attr := u8 (Z.lor (Z.lor 0x80 (Z.shiftl (Z.land privilege 3) 6)) type);
     offset_16_31 := Z.land (Z.shiftr handler_address 16) 0xffff;
     offset_32_63 := Z.land (Z.shiftr handler_address 32) 0xffffffff |}.

Definition set_idt_gate (irq type handler_address segment_selector ist privilege : Z) : M cpu unit :=
  modify (λ c, set_idt (insertZ irq (idt_gate type handler_address segment_selector ist privilege) (cpu_idt c)) c).

Definition register_interrupt (irq type : Z) (ist : bool) (handler : Z) : M cpu unit :=
  set_idt_gate irq type handler GDT_KERNEL_CODE_SEGMENT (if ist then 1 else 0) 0.

Definition unregister_interrupt (irq : Z) : M cpu unit :=
  modify (λ c, set_idt (insertZ irq empty_gate (cpu_idt c)) c).

(** ** How the processor reads descriptors *)

(** Base and limit of a system descriptor that takes two entries. With the granularity
    bit the limit counts pages. *)
Definition descriptor_base (low high : GDTEntry) : Z :=
  base_0_15 low + 2 ^ 16 * base_16_23 low + 2 ^ 24 * base_24_31 low +
  2 ^ 32 * limit_0_15 high + 2 ^ 48 * base_0_15 high.
Definition descriptor_limit (low : GDTEntry) : Z :=
  let limit := limit_0_15 low + 2 ^ 16 * get_bits 0 4 (limit_16_19_and_flags low) in
  if Z.testbit (limit_16_19_and_flags low) 7 then limit * 4096 + 4095 else limit.

(** The descriptor a selector names, and its privilege level. *)
Definition descriptor_of (gdt : list GDTEntry) (sel : Z) : option GDTEntry := lookupZ gdt (Z.shiftr sel 3).
Definition descriptor_privilege (e : GDTEntry) : Z := get_bits 5 2 (access e).

Definition gate_offset (g : IDTEntry) : Z :=
  offset_0_15 g + 2 ^ 16 * offset_16_31 g + 2 ^ 32 * offset_32_63 g.
Definition gate_present (g : IDTEntry) : bool := Z.testbit (type_attr g) 7.
Definition gate_privilege (g : IDTEntry) : Z := get_bits 5 2 (type_attr g).
Definition gate_type (g : IDTEntry) : Z := get_bits 0 4 (type_attr g).

(** ** Properties *)

Lemma land_mask n x : 0 ≤ n → Z.land x (2 ^ n - 1) = x mod 2 ^ n.
Proof. intros Hn. replace (2 ^ n - 1) with (Z.ones n) by (rewrite Z.ones_equiv; lia). by apply Z.land_ones. Qed.

(** A 64-bit number from the fields a descriptor splits it into. *)
Lemma join_fields x : 0 ≤ x < 2 ^ 64 →
  x mod 2 ^ 16 + 2 ^ 16 * ((x / 2 ^ 16) mod 2 ^ 16) + 2 ^ 32 * (x / 2 ^ 32) = x.
Proof.
  intros Hx. pose proof (Z.div_mod x (2 ^ 16) ltac:(lia)). pose proof (Z.div_mod (x / 2 ^ 16) (2 ^ 16) ltac:(lia)) as H2.
  rewrite Z.div_div in H2 by lia. change (2 ^ 16 * 2 ^ 16) with (2 ^ 32) in H2. lia.
Qed.

(** After [setup_gdt_and_tss] the segment registers name kernel segments, interrupts
    are off, and the processor reads back the address of the TSS from its descriptor. *)
Theorem setup_gdt_and_tss_spec {S} `{!Part cpu S, !PartLaws cpu S} alloc_pages tss_base gdt_base (s s1 : S) stack :
  alloc_pages TSS_STACK_PAGES 1 s = Ok (stack, s1) → cpu_gdt (part_of s1) = g_gdt → 0 ≤ tss_base < 2 ^ 64 →
  ∃ s' c' low high, setup_gdt_and_tss alloc_pages tss_base gdt_base s = Ok (tt, s') ∧ part_of s' = c' ∧
    descriptor_of (cpu_gdt c') GDT_TSS_SEGMENT = Some low ∧ lookupZ (cpu_gdt c') 7 = Some high ∧
    descriptor_base low high = tss_base ∧ cpu_task c' = GDT_TSS_SEGMENT ∧
    cpu_interrupts c' = false ∧ tr_size (cpu_gdtr c') = 8 * Z.of_nat (length (cpu_gdt c')) - 1 ∧
    (descriptor_privilege <$> descriptor_of (cpu_gdt c') (cpu_cs c')) = Some 0 ∧
    (descriptor_privilege <$> descriptor_of (cpu_gdt c') (cpu_data_segments c')) = Some 0 ∧
    (descriptor_privilege <$> descriptor_of (cpu_gdt c') GDT_USER_CODE_SEGMENT) = Some 3 ∧
    (descriptor_privilege <$> descriptor_of (cpu_gdt c') GDT_USER_DATA_SEGMENT) = Some 3.
Proof.
  intros Ha Hg Ht. unfold setup_gdt_and_tss, mbind, M_bind. rewrite Ha. unfold on_part.
  assert (fill_tss tss_base stack (part_of s1) = Ok (tt, set_gdt
    (insertZ 7 (tss_high tss_base (gdt_entry 0 0)) (insertZ 6 (tss_low tss_base (gdt_entry 0x89 0xa0)) g_gdt))
    {| tss_rsp := tss_rsp (cpu_tss (part_of s1));
       tss_interrupt_stack_table :=
         insertZ 0 (u64 (stack + TSS_STACK_PAGES * PAGE_SIZE)) (tss_interrupt_stack_table (cpu_tss (part_of s1)));
       tss_iopb_offset := sizeof_tss |} (part_of s1))) as ->.
  { unfold fill_tss, mbind, M_bind, gets, id. rewrite Hg. reflexivity. }
  rewrite part_of_with.
  eexists _, _, (tss_low tss_base (gdt_entry 0x89 0xa0)), (tss_high tss_base (gdt_entry 0 0)).
  split; [reflexivity|]. split; [apply part_of_with|]. split; [reflexivity|]. split; [reflexivity|]. split; [|by split_and!].
  unfold descriptor_base, tss_low, tss_high. cbn [base_0_15 base_16_23 base_24_31 limit_0_15].
  change 0xffff with (2 ^ 16 - 1). change 0xff with (2 ^ 8 - 1). rewrite !land_mask, !Z.shiftr_div_pow2 by lia.
  pose proof (join_fields tss_base Ht) as H1.
  assert (tss_base / 2 ^ 32 = (tss_base / 2 ^ 32) mod 2 ^ 16 + 2 ^ 16 * ((tss_base / 2 ^ 48) mod 2 ^ 16)) as H2.
  { pose proof (Z.div_mod (tss_base / 2 ^ 32) (2 ^ 16) ltac:(lia)) as H2. rewrite Z.div_div in H2 by lia.
    change (2 ^ 32 * 2 ^ 16) with (2 ^ 48) in H2. rewrite (Z.mod_small (tss_base / 2 ^ 48)); [lia|].
    split; [apply Z.div_pos; lia|apply Z.div_lt_upper_bound; lia]. }
  assert ((tss_base / 2 ^ 16) mod 2 ^ 16 = (tss_base / 2 ^ 16) mod 2 ^ 8 + 2 ^ 8 * ((tss_base / 2 ^ 24) mod 2 ^ 8)) as H3.
  { change (2 ^ 16) with (2 ^ 8 * 2 ^ 8) at 2. rewrite Z.rem_mul_r by lia. rewrite Z.div_div by lia. done. }
  generalize dependent (tss_base mod 2 ^ 16). generalize dependent ((tss_base / 2 ^ 16) mod 2 ^ 16).
  generalize dependent ((tss_base / 2 ^ 16) mod 2 ^ 8). generalize dependent ((tss_base / 2 ^ 24) mod 2 ^ 8).
  generalize dependent ((tss_base / 2 ^ 32) mod 2 ^ 16). generalize dependent ((tss_base / 2 ^ 48) mod 2 ^ 16).
  generalize dependent (tss_base / 2 ^ 32). intros. lia.
Qed.

(** A gate registered for a handler is present, has the kernel's code segment, level 0
    and the type asked for, and sends the processor to the handler. *)
Lemma register_interrupt_spec irq type use_ist handler c :
  0 ≤ irq < 256 → length (cpu_idt c) = 256%nat → type = INTERRUPT_GATE ∨ type = TRAP_GATE → 0 ≤ handler < 2 ^ 64 →
  ∃ c' g, register_interrupt irq type use_ist handler c = Ok (tt, c') ∧ lookupZ (cpu_idt c') irq = Some g ∧
    gate_present g = true ∧ gate_offset g = handler ∧ selector g = GDT_KERNEL_CODE_SEGMENT ∧
    gate_privilege g = 0 ∧ gate_type g = type ∧ ist g = Z.b2z use_ist ∧
    ∀ i, i ≠ irq → lookupZ (cpu_idt c') i = lookupZ (cpu_idt c) i.
Proof.
  intros Hi Hlen Hty Hh. eexists _, _. split; [reflexivity|]. cbn [cpu_idt set_idt].
  split; [apply lookupZ_insertZ_eq, lookupZ_is_Some; lia|]. split; [by destruct Hty as [->| ->]|].
  split; [|split; [done|]; split; [by destruct Hty as [->| ->]|]; split; [by destruct Hty as [->| ->]|];
    split; [by destruct use_ist|intros i Hne; by apply lookupZ_insertZ_ne]].
  unfold gate_offset, idt_gate. cbn [offset_0_15 offset_16_31 offset_32_63].
  change 0xffff with (2 ^ 16 - 1). change 0xffffffff with (2 ^ 32 - 1). rewrite !land_mask, !Z.shiftr_div_pow2 by lia.
  rewrite (Z.mod_small (handler / 2 ^ 32)); [by apply join_fields|].
  split; [apply Z.div_pos; lia|apply Z.div_lt_upper_bound; lia].
Qed.

(** The privilege of a gate is shifted one bit too far: bit 1 is lost in the presence bit
    and bit 0 becomes bit 1. *)
Theorem gate_privilege_shifted type handler seg ist privilege :
  type = INTERRUPT_GATE ∨ type = TRAP_GATE → 0 ≤ privilege < 4 →
  gate_privilege (idt_gate type handler seg ist privilege) = 2 * (privilege mod 2).
Proof.
  intros Hty Hp. assert (privilege = 0 ∨ privilege = 1 ∨ privilege = 2 ∨ privilege = 3) as Hc by lia.
  destruct Hc as [->|[->|[->| ->]]], Hty as [->| ->]; reflexivity.
Qed.

(** The TSS descriptor keeps its granularity bit, so its limit counts pages and lies
    far past the structure; the offset of the I/O bitmap, meant to be outside, is inside
    it. *)
Theorem tss_io_bitmap_inside tss_base :
  descriptor_limit (tss_low tss_base (gdt_entry 0x89 0xa0)) = sizeof_tss * 4096 + 4095 ∧
  sizeof_tss < descriptor_limit (tss_low tss_base (gdt_entry 0x89 0xa0)).
Proof. split; reflexivity. Qed.

Definition reset_cpu : cpu :=
  {| cpu_gdt := g_gdt; cpu_tss := {| tss_rsp := [0; 0; 0]; tss_interrupt_stack_table := replicate 7 0; tss_iopb_offset := 0 |};
     cpu_idt := replicate 256 empty_gate; cpu_gdtr := {| tr_size := 0; tr_base := 0 |};
     cpu_idtr := {| tr_size := 0; tr_base := 0 |}; cpu_task := 0; cpu_cs := 0; cpu_data_segments := 0;
     cpu_interrupts := true |}.

Lemma setup_gdt_and_tss_spec_witness :
  ∃ s' c' low high, setup_gdt_and_tss (λ _ _, mret 0x9000) 0xfffff00000012340 0x5000 reset_cpu = Ok (tt, s') ∧ part_of s' = c' ∧
    descriptor_of (cpu_gdt c') GDT_TSS_SEGMENT = Some low ∧ lookupZ (cpu_gdt c') 7 = Some high ∧
    descriptor_base low high = 0xfffff00000012340 ∧ cpu_task c' = GDT_TSS_SEGMENT ∧
    cpu_interrupts c' = false ∧ tr_size (cpu_gdtr c') = 8 * Z.of_nat (length (cpu_gdt c')) - 1 ∧
    (descriptor_privilege <$> descriptor_of (cpu_gdt c') (cpu_cs c')) = Some 0 ∧
    (descriptor_privilege <$> descriptor_of (cpu_gdt c') (cpu_data_segments c')) = Some 0 ∧
    (descriptor_privilege <$> descriptor_of (cpu_gdt c') GDT_USER_CODE_SEGMENT) = Some 3 ∧
    (descriptor_privilege <$> descriptor_of (cpu_gdt c') GDT_USER_DATA_SEGMENT) = Some 3.
Proof. apply (setup_gdt_and_tss_spec (λ _ _, mret 0x9000) _ _ reset_cpu reset_cpu 0x9000); [done|reflexivity|by vm_compute]. Defined.
End Descriptors.
