(* ===== verification/Asm.v ===== *)
(** The assembly of the naked functions: the instructions they use, over registers, the
    stack as 8-byte words, and an environment that takes calls, port accesses and stores
    to devices.

    The functions are written in Ports.v, Syscalls.v, ContextSwitch.v and Boot.v as lists
    of these instructions, in the order of their source. All their jumps are forward, so
    that running one is structural in its code. *)
From S2P Require Import Prelude.

Module Asm.

Inductive reg :=
  | RAX | RBX | RCX | RDX | RSI | RDI | RBP | RSP
  | R8 | R9 | R10 | R11 | R12 | R13 | R14 | R15.

#[export] Instance reg_eq_dec : EqDecision reg.
Proof. solve_decision. Defined.

(** How a function is left: ret; lretq; sysretq; iretq; a jump through a register. *)
Inductive exit :=
  | Returned (rip : Z)
  | FarReturned (rip cs : Z)
  | SysReturned (rip rflags : Z)
  | InterruptReturned (rip cs rflags ss : Z)
  | Jumped (rip : Z).

(** AT&T order is turned round: the destination comes first. [Mov16] and its like write
    the low bits of the destination. *)
Inductive instr :=
  | Label (l : string)
  | Push (r : reg) | Pop (r : reg)
  | Mov (d r : reg) | MovImm (d : reg) (i : Z)
  | Mov16 (d r : reg) | Mov32 (d r : reg) | MovCs16 (d : reg)
  | Add (d r : reg) | Sub (d r : reg) | ShlImm (d : reg) (n : Z)
  | Lea (d : reg) (address : Z) | Load (d r : reg)
  | CmpImm (r : reg) (i : Z) | CmpMemImm (r : reg) (i : Z)
  | Jge (l : string) | Jz (l : string)
  | CallMem (r : reg) | Call (address : Z)
  | StoreImm32 (offset : Z) (r : reg) (i : Z)
  | In (bits : Z) | Out (bits : Z)
  | Jmp (r : reg) | Ret | Lretq | Sysretq | Iretq.

Definition upd (r : reg) (v : Z) (f : reg → Z) : reg → Z := λ q, if decide (q = r) then v else f q.

(** [a_less] and [a_zero] are what the last comparison found: signed less, and equal. *)
Record cpu_state (E : Type) := {
  a_regs : reg → Z;
  a_memory : gmap Z Z;
  a_less : bool;
  a_zero : bool;
  a_cs : Z;
  a_env : E;
}.
Arguments a_regs {E} _ _.
Arguments a_memory {E} _.
Arguments a_less {E} _.
Arguments a_zero {E} _.
Arguments a_cs {E} _.
Arguments a_env {E} _.

(** What surrounds the code: a function called at an address, device ports of 8, 16 or 32
    bits, and 32-bit registers of devices. *)
Class Environment (E : Type) := {
  env_call : Z → M (cpu_state E) unit;
  env_in : Z → Z → M E Z;
  env_out : Z → Z → Z → M E unit;
  env_store : Z → Z → M E unit;
}.

Inductive next := Next | Goto (l : string) | Exit (e : exit).

Section code.
Context {E : Type}.
Implicit Types (s : cpu_state E) (f : reg → Z) (m : gmap Z Z).

Abbreviation AM := (M (cpu_state E)).

Definition with_regs f s : cpu_state E :=
  {| a_regs := f; a_memory := a_memory s; a_less := a_less s; a_zero := a_zero s; a_cs := a_cs s; a_env := a_env s |}.
Definition with_memory m s : cpu_state E :=
  {| a_regs := a_regs s; a_memory := m; a_less := a_less s; a_zero := a_zero s; a_cs := a_cs s; a_env := a_env s |}.
Definition with_flags (less zero : bool) s : cpu_state E :=
  {| a_regs := a_regs s; a_memory := a_memory s; a_less := less; a_zero := zero; a_cs := a_cs s; a_env := a_env s |}.
Definition with_env (e : E) s : cpu_state E :=
  {| a_regs := a_regs s; a_memory := a_memory s; a_less := a_less s; a_zero := a_zero s; a_cs := a_cs s; a_env := e |}.

Definition get_reg (r : reg) : AM Z := gets (λ s, a_regs s r).
Definition set_reg (r : reg) (v : Z) : AM unit := modify (λ s, with_regs (upd r v (a_regs s)) s).

Definition load8 (a : Z) : AM Z := w ← gets (λ s, a_memory s !! a); of_option (BadPointer a) w.
Definition store8 (a v : Z) : AM unit :=
  _ ← load8 a; modify (λ s, with_memory (<[a := v]> (a_memory s)) s).

Definition push (v : Z) : AM unit :=
  sp ← get_reg RSP;
  _ ← store8 (u64 (sp - 8)) v;
  set_reg RSP (u64 (sp - 8)).

Definition pop : AM Z :=
  sp ← get_reg RSP;
  v ← load8 sp;
  _ ← set_reg RSP (u64 (sp + 8));
  mret v.

Definition on_env {A} (m : M E A) : AM A := λ s,
  match m (a_env s) with
  | Ok (r, e) => Ok (r, with_env e s)
  | Fault f => Fault f
  end.

Context `{!Environment E}.

(** A call leaves the address to return to on the stack; [link] stands for it. *)
Definition call (link target : Z) : AM unit :=
  _ ← push link; _ ← env_call target; _ ← pop; mret tt.

Definition binop (g : Z → Z → Z) (d r : reg) : AM next :=
  x ← get_reg d; y ← get_reg r; _ ← set_reg d (g x y); mret Next.

Definition compare (x i : Z) : AM next :=
  _ ← modify (with_flags (signed 64 x <? i) (signed 64 x =? i)); mret Next.

(** [link] is the address after the instruction, for a call. *)
Definition step (link : Z) (i : instr) : AM next :=
  match i with
  | Label _ => mret Next
  | Push r => v ← get_reg r; _ ← push v; mret Next
  | Pop r => v ← pop; _ ← set_reg r v; mret Next
  | Mov d r => binop (λ _ y, y) d r
  | MovImm d x => _ ← set_reg d (u64 x); mret Next
  | Mov16 d r => binop (λ x y, set_bits 0 16 y x) d r
  | Mov32 d r => binop (λ _ y, u32 y) d r
  | MovCs16 d => x ← get_reg d; cs ← gets a_cs; _ ← set_reg d (set_bits 0 16 cs x); mret Next
  | Add d r => binop (λ x y, u64 (x + y)) d r
  | Sub d r => binop (λ x y, u64 (x - y)) d r
  | ShlImm d n => binop (λ x _, u64 (Z.shiftl x n)) d d
  | Lea d address => _ ← set_reg d address; mret Next
  | Load d r => a ← get_reg r; v ← load8 a; _ ← set_reg d v; mret Next
  | CmpImm r x => v ← get_reg r; compare v x
  | CmpMemImm r x => a ← get_reg r; v ← load8 a; compare v x
  | Jge l => b ← gets a_less; mret (if b : bool then Next else Goto l)
  | Jz l => b ← gets a_zero; mret (if b : bool then Goto l else Next)
  | CallMem r => a ← get_reg r; v ← load8 a; _ ← call link v; mret Next
  | Call address => _ ← call link address; mret Next
  | StoreImm32 offset r x =>
      a ← get_reg r; _ ← on_env (env_store (u64 (a + offset)) (u32 x)); mret Next
  | In bits =>
      x ← get_reg RAX; d ← get_reg RDX; v ← on_env (env_in bits (u16 d));
      _ ← set_reg RAX (if bits =? 32 then u32 v else set_bits 0 bits v x); mret Next
  | Out bits =>
      x ← get_reg RAX; d ← get_reg RDX; _ ← on_env (env_out bits (u16 d) (wrap bits x)); mret Next
  | Jmp r => a ← get_reg r; mret (Exit (Jumped a))
  | Ret => a ← pop; mret (Exit (Returned a))
  | Lretq => a ← pop; cs ← pop; mret (Exit (FarReturned a (u16 cs)))
  | Sysretq => a ← get_reg RCX; f ← get_reg R11; mret (Exit (SysReturned a f))
  | Iretq =>
      a ← pop; cs ← pop; f ← pop; sp ← pop; ss ← pop;
      _ ← set_reg RSP sp; mret (Exit (InterruptReturned a cs f ss))
  end.

Definition is_label (l : string) (i : instr) : bool :=
  match i with Label l' => bool_decide (l = l') | _ => false end.

(** Runs the code; while [skip] is a label, up to that label. Code that runs past its end
    is a fault. *)
Fixpoint exec (link : Z) (code : list instr) (skip : option string) : AM exit :=
  match code with
  | [] => throw OutOfBounds
  | i :: code =>
      match skip with
      | Some l => exec link code (if is_label l i then None else skip)
      | None =>
          n ← step link i;
          match n with
          | Next => exec link code None
          | Goto l => exec link code (Some l)
          | Exit e => mret e
          end
      end
  end.

Definition run (link : Z) (code : list instr) : AM exit := exec link code None.

(** ** Rules *)

Lemma upd_eq r v f : upd r v f r = v.
Proof. unfold upd. by rewrite decide_True. Qed.

Lemma upd_ne r q v f : q ≠ r → upd r v f q = f q.
Proof. intros. unfold upd. by rewrite decide_False. Qed.

(** The words at [a], [a + 8], ... *)
Definition words_at m (a : Z) (ws : list Z) : Prop :=
  ∀ i w, ws !! i = Some w → m !! (a + 8 * Z.of_nat i) = Some w.

(** There are [n] words of stack below [a]. *)
Definition stack_below m (a : Z) (n : nat) : Prop :=
  ∀ i, 1 ≤ i ≤ Z.of_nat n → is_Some (m !! (a - 8 * i)).

Lemma stack_below_check m a n :
  forallb (λ i, bool_decide (is_Some (m !! (a - 8 * Z.of_nat i)))) (seq 1 n) = true → stack_below m a n.
Proof.
  intros Hc i Hi. rewrite forallb_forall in Hc. specialize (Hc (Z.to_nat i) ltac:(apply in_seq; lia)).
  rewrite Z2Nat.id in Hc by lia. by apply bool_decide_eq_true in Hc.
Qed.

(** Nothing but the [n] words from [a] on differs. *)
Definition outside (a : Z) (n : nat) m m' : Prop :=
  ∀ x, x < a ∨ a + 8 * Z.of_nat n ≤ x → m' !! x = m !! x.

Lemma wp_load8 a v (Q : Z → cpu_state E → Prop) s : a_memory s !! a = Some v → Q v s → wp (load8 a) Q s.
Proof. intros Hv HQ. unfold load8. wp_step. wp_step. by wp_step. Qed.

Lemma wp_push v p (Q : unit → cpu_state E → Prop) s :
  a_regs s RSP = p → 8 ≤ p < 2 ^ 64 → is_Some (a_memory s !! (p - 8)) →
  Q tt (with_regs (upd RSP (p - 8) (a_regs s)) (with_memory (<[p - 8 := v]> (a_memory s)) s)) →
  wp (push v) Q s.
Proof.
  intros Hp Hr [w Hw] HQ. unfold push, get_reg, store8, set_reg. do 2 wp_step. rewrite Hp, wrap_small by lia.
  do 2 wp_step. eapply wp_load8; [done|]. do 2 wp_step. done.
Qed.

Lemma wp_pop p v (Q : Z → cpu_state E → Prop) s :
  a_regs s RSP = p → 0 ≤ p < 2 ^ 64 - 8 → a_memory s !! p = Some v →
  Q v (with_regs (upd RSP (p + 8) (a_regs s)) s) → wp pop Q s.
Proof.
  intros Hp Hr Hv HQ. unfold pop, get_reg, set_reg. do 2 wp_step. rewrite Hp. wp_step. eapply wp_load8; [done|].
  do 3 wp_step. by rewrite wrap_small by lia.
Qed.

Lemma wp_exec link i code (Q : exit → cpu_state E → Prop) s :
  wp (step link i) (λ n s', match n with
    | Next => wp (exec link code None) Q s'
    | Goto l => wp (exec link code (Some l)) Q s'
    | Exit e => Q e s' end) s →
  wp (exec link (i :: code) None) Q s.
Proof.
  intros Hw. cbn [exec]. apply wp_bind. eapply wp_mono; [exact Hw|].
  intros [|l|e] s' HQ; [done|done|by apply wp_ret].
Qed.

Lemma words_at_app m a l l' :
  words_at m a (l ++ l') → words_at m a l ∧ words_at m (a + 8 * Z.of_nat (length l)) l'.
Proof.
  intros Hw. split; intros i w Hi.
  - apply Hw. by apply lookup_app_l_Some.
  - replace (a + 8 * Z.of_nat (length l) + 8 * Z.of_nat i) with (a + 8 * Z.of_nat (length l + i)) by lia.
    apply Hw. by rewrite lookup_app_r, Nat.add_sub', Hi by lia.
Qed.

(** The registers but [rs] are the same. *)
Definition same_but (rs : list reg) f f' : Prop := ∀ q, (q ∉ rs) → f' q = f q.

Lemma same_but_upd rs r v f f' : same_but rs f f' → r ∈ rs → same_but rs f (upd r v f').
Proof. intros Hs Hr q Hq. rewrite upd_ne; [by apply Hs|]. by intros ->. Qed.

(** The registers [rs] pushed in turn: the last one is on top. *)
Lemma wp_pushes link rs code p (Q : exit → cpu_state E → Prop) s :
  a_regs s RSP = p → 8 * Z.of_nat (length rs) ≤ p < 2 ^ 64 → (RSP ∉ rs) → stack_below (a_memory s) p (length rs) →
  (∀ f m, f RSP = p - 8 * Z.of_nat (length rs) → same_but [RSP] (a_regs s) f →
     words_at m (p - 8 * Z.of_nat (length rs)) (reverse (a_regs s <$> rs)) → outside (p - 8 * Z.of_nat (length rs)) (length rs) (a_memory s) m →
     (∀ x, is_Some (a_memory s !! x) → is_Some (m !! x)) →
     wp (exec link code None) Q (with_regs f (with_memory m s))) →
  wp (exec link ((Push <$> rs) ++ code) None) Q s.
Proof.
  revert p s. induction rs as [|r rs IH]; intros p s Hp Hr Hrs Hst HQ; cbn [fmap list_fmap app length] in *.
  { specialize (HQ (a_regs s) (a_memory s)). destruct s. apply HQ; cbn in *; [lia|done|done|done|done]. }
  apply not_elem_of_cons in Hrs as [Hne Hrs]. apply wp_exec. cbn [step]. unfold get_reg. do 3 wp_step.
  eapply wp_push; [exact Hp|lia|specialize (Hst 1); rewrite Z.mul_1_r in Hst; apply Hst; lia|]. wp_step.
  apply (IH (p - 8)); [apply upd_eq|lia|done| |].
  { intros i Hi. cbn. apply lookup_insert_is_Some'. right. replace (p - 8 - 8 * i) with (p - 8 * (i + 1)) by lia.
    apply Hst. lia. }
  cbn [a_regs a_memory with_regs with_memory]. intros f m Hf Hsame Hw Hfrom Hkeep.
  assert (a_regs s <$> rs = upd RSP (p - 8) (a_regs s) <$> rs) as Efm.
  { apply list_fmap_ext. intros i q Hq. rewrite upd_ne; [done|]. intros ->. apply Hrs. by eapply list_elem_of_lookup_2. }
  change (wp (exec link code None) Q (with_regs f (with_memory m s))). apply HQ.
  - rewrite Hf. lia.
  - intros q Hq. rewrite Hsame by done. apply upd_ne. intros ->. by apply Hq, list_elem_of_singleton.
  - rewrite reverse_cons, Efm. intros i w [Hi|[Hge Hi]]%lookup_app_Some.
    + specialize (Hw i w Hi). rewrite <- Hw. f_equal. lia.
    + rewrite length_reverse, length_fmap in *. apply list_lookup_singleton_Some in Hi as [Hi <-].
      rewrite Hfrom by lia. replace (p - 8 * Z.of_nat (Datatypes.S (length rs)) + 8 * Z.of_nat i) with (p - 8) by lia.
      by rewrite lookup_insert_eq.
  - intros x Hx. rewrite Hfrom by lia. rewrite lookup_insert_ne; [done|lia].
  - intros x Hx. apply Hkeep. cbn. apply lookup_insert_is_Some'. by right.
Qed.

(** The registers [rs] popped in turn. *)
Lemma wp_pops link rs code p ws (Q : exit → cpu_state E → Prop) s :
  a_regs s RSP = p → 0 ≤ p → p + 8 * Z.of_nat (length rs) < 2 ^ 64 → (RSP ∉ rs) → NoDup rs →
  length ws = length rs → words_at (a_memory s) p ws →
  (∀ f, f RSP = p + 8 * Z.of_nat (length rs) → same_but (RSP :: rs) (a_regs s) f →
     (∀ i r w, rs !! i = Some r → ws !! i = Some w → f r = w) →
     wp (exec link code None) Q (with_regs f s)) →
  wp (exec link ((Pop <$> rs) ++ code) None) Q s.
Proof.
  revert p s ws. induction rs as [|r rs IH]; intros p s ws Hp H0 Hr Hrs Hnd Hlen Hw HQ; cbn [fmap list_fmap app length] in *.
  { specialize (HQ (a_regs s)). destruct s. apply HQ; cbn in *; [lia|done|done]. }
  destruct ws as [|w ws]; [done|]. apply not_elem_of_cons in Hrs as [Hne Hrs]. apply NoDup_cons in Hnd as [Hrr Hnd].
  apply wp_exec. cbn [step]. wp_step. eapply wp_pop; [exact Hp|lia|specialize (Hw 0%nat w eq_refl); by rewrite Z.add_0_r in Hw|].
  unfold set_reg. do 3 wp_step. cbn [length] in Hlen.
  apply (IH (p + 8) _ ws); [by cbn; rewrite upd_ne, upd_eq by done|lia|lia|done|done|lia| |].
  { intros i x Hx. specialize (Hw (Datatypes.S i) x Hx). cbn. rewrite <- Hw. f_equal. lia. }
  intros f Hf Hsame Hin. cbn [a_regs with_regs] in *.
  change (wp (exec link code None) Q (with_regs f s)). apply HQ.
  - rewrite Hf. lia.
  - intros q Hq. apply not_elem_of_cons in Hq as [Hq1 Hq2]. apply not_elem_of_cons in Hq2 as [Hq2 Hq3].
    rewrite Hsame, upd_ne, upd_ne; [done..|]. by apply not_elem_of_cons.
  - intros [|i] q x; cbn [lookup list_lookup].
    + intros [= ->] [= ->]. rewrite Hsame, upd_eq; [done|]. by apply not_elem_of_cons.
    + by apply Hin.
Qed.
Lemma wp_on_env {A} (m : M E A) r e (Q : A → cpu_state E → Prop) s :
  m (a_env s) = Ok (r, e) → Q r (with_env e s) → wp (on_env m) Q s.
Proof. intros Hm HQ. exists r, (with_env e s). unfold on_env. by rewrite Hm. Qed.
End code.

(** Reads of registers in a state that was built by writing them. *)
Ltac asm_simpl :=
  cbn [a_regs a_memory a_less a_zero a_cs a_env with_regs with_memory with_flags with_env];
  repeat first [rewrite upd_eq | rewrite upd_ne by done].

(** Membership of registers in lists: by computation, or from what is known of membership. *)
Ltac reg_solve :=
  first [apply (bool_decide_unpack _); vm_compute; exact I
        |repeat match goal with
                | H : ?T |- _ => lazymatch T with _ ∉ _ => fail | _ ∈ _ => fail | _ ≠ _ => fail | _ => clear H end
                end; set_solver].

Ltac same_but_solve := repeat (apply same_but_upd; [|reg_solve]); done.

(** Runs instructions up to the first that accesses memory or the environment. *)
Ltac asm_step := apply wp_exec; cbn [step]; unfold binop, compare, get_reg, set_reg; wp_steps; asm_simpl.
End Asm.
