(* ===== verification/Ports.v ===== *)
(** Device ports: the naked functions of kernel/src/port_io.c. *)
From S2P Require Import Prelude Asm.

Module Ports.
Import Asm.

(** The first argument is in rdi, the second in rsi, the result in the low bits of rax. *)
Definition port_out_u8 : list instr := [Mov16 RDX RDI; Mov16 RAX RSI; Out 8; Ret].
Definition port_out_u16 : list instr := [Mov16 RDX RDI; Mov16 RAX RSI; Out 16; Ret].
Definition port_out_u32 : list instr := [Mov16 RDX RDI; Mov32 RAX RSI; Out 32; Ret].
Definition port_in_u8 : list instr := [Mov16 RDX RDI; In 8; Ret].
Definition port_in_u16 : list instr := [Mov16 RDX RDI; In 16; Ret].
Definition port_in_u32 : list instr := [Mov16 RDX RDI; In 32; Ret].

Definition port_out (bits : Z) : list instr :=
  if bits =? 8 then port_out_u8 else if bits =? 16 then port_out_u16 else port_out_u32.
Definition port_in (bits : Z) : list instr :=
  if bits =? 8 then port_in_u8 else if bits =? 16 then port_in_u16 else port_in_u32.

Lemma wrap_set_bits w v x : 0 ≤ w → wrap w (set_bits 0 w v x) = wrap w v.
Proof.
  intros Hw. apply Z.bits_inj'. intros i Hi. rewrite !testbit_wrap, testbit_set_bits by lia.
  destruct (Z.ltb_spec i w); [|by rewrite !andb_false_r]. rewrite Z.sub_0_r.
  replace ((0 <=? i) && (i <? 0 + w)) with true by lia. done.
Qed.

Lemma wrap_set_bits_8 v x : wrap 8 (set_bits 0 16 v x) = wrap 8 v.
Proof.
  apply Z.bits_inj'. intros i Hi. rewrite !testbit_wrap, testbit_set_bits by lia.
  destruct (Z.ltb_spec i 8); [|by rewrite !andb_false_r]. rewrite Z.sub_0_r.
  replace ((0 <=? i) && (i <? 0 + 16)) with true by lia. done.
Qed.

Section spec.
Context {E : Type} `{!Environment E}.
Implicit Types s : cpu_state E.

(** [port_out_u8], [port_out_u16] and [port_out_u32] send exactly the low bits of their
    second argument to the port their first argument names, once, and return to the
    caller; only rax, rdx and rsp have changed. *)
Theorem port_out_spec bits link rip e s :
  bits = 8 ∨ bits = 16 ∨ bits = 32 →
  a_memory s !! a_regs s RSP = Some rip → 0 ≤ a_regs s RSP < 2 ^ 64 - 8 →
  env_out bits (u16 (a_regs s RDI)) (wrap bits (a_regs s RSI)) (a_env s) = Ok (tt, e) →
  wp (run link (port_out bits)) (λ x s', x = Returned rip ∧ a_regs s' RSP = a_regs s RSP + 8 ∧ a_env s' = e ∧
    same_but [RAX; RDX; RSP] (a_regs s) (a_regs s') ∧ a_memory s' = a_memory s) s.
Proof.
  intros Hb Hrip Hsp Hout.
  destruct Hb as [->|[->| ->]]; unfold run, port_out, port_out_u8, port_out_u16, port_out_u32; cbn [Z.eqb Pos.eqb];
    do 3 asm_step; rewrite ?wrap_set_bits, ?wrap_set_bits_8, ?wrap_wrap by lia;
    (eapply wp_on_env; [exact Hout|]); wp_step; asm_step;
    (eapply wp_pop; [asm_simpl; reflexivity|done|exact Hrip|]); wp_step; asm_simpl;
    (split_and!; [done..| |done]); same_but_solve.
Qed.

(** [port_in_u8], [port_in_u16] and [port_in_u32] read the port their argument names
    once and return what came in, in as many low bits of rax. *)
Theorem port_in_spec bits link rip v e s :
  bits = 8 ∨ bits = 16 ∨ bits = 32 →
  a_memory s !! a_regs s RSP = Some rip → 0 ≤ a_regs s RSP < 2 ^ 64 - 8 →
  env_in bits (u16 (a_regs s RDI)) (a_env s) = Ok (v, e) →
  wp (run link (port_in bits)) (λ x s', x = Returned rip ∧ a_regs s' RSP = a_regs s RSP + 8 ∧ a_env s' = e ∧
    wrap bits (a_regs s' RAX) = wrap bits v ∧ same_but [RAX; RDX; RSP] (a_regs s) (a_regs s')) s.
Proof.
  intros Hb Hrip Hsp Hin.
  destruct Hb as [->|[->| ->]]; unfold run, port_in, port_in_u8, port_in_u16, port_in_u32; cbn [Z.eqb Pos.eqb];
    do 2 asm_step; rewrite wrap_set_bits by lia;
    (eapply wp_on_env; [exact Hin|]); wp_steps; asm_step;
    (eapply wp_pop; [asm_simpl; reflexivity|done|exact Hrip|]); wp_step; asm_simpl;
    (split_and!; [done..|cbn [Z.eqb Pos.eqb]; first [by rewrite wrap_set_bits by lia|by rewrite wrap_wrap by lia]|]); same_but_solve.
Qed.
End spec.
End Ports.
