(* ===== verification/Boot.v ===== *)
(** The hand-over from the firmware to the kernel in assembly: the end of efi_main
    (bootloader/src/main.c), [stage1_kernel_entry] (kernel/src/stage1_entry.c) and
    [jump_to_kernel_virtual] (kernel/src/main.c). *)
From S2P Require Import Prelude Asm.

Module Boot.
Import Asm.

(** The asm block of efi_main; its operands are in registers the compiler chose among those
    that are not clobbered. *)
Definition enter_kernel (kernel_entry memory_map frame_buffer rsdp_addr : reg) : list instr :=
  [Mov RDI memory_map; Mov RSI frame_buffer; Mov RDX rsdp_addr;
   (* Push code segment and kernel entry address onto stack and do a long return *)
   MovCs16 RAX; Push RAX; Push kernel_entry; Lretq].

Definition stage1_kernel_entry (stack kernel_entry : reg) : list instr :=
  [Mov RSP stack; Mov RBP stack; Jmp kernel_entry].

Definition jump_to_kernel_virtual : list instr :=
  [ (* Calculate virtual address for base pointer *)
   Sub RBP RDI; Add RBP RSI;
   (* Calculate virtual address for stack pointer *)
   Sub RSP RDI; Add RSP RSI;
   (* Pop return address *)
   Pop RDX;
   (* Push cs offset onto stack *)
   MovCs16 RAX; Push RAX;
   (* Calculate virtual return address and push it onto stack *)
   Sub RDX RDI; Add RDX RSI; Push RDX;
   (* Do long return *)
   Lretq].

Section spec.
Context {E : Type} `{!Environment E}.
Implicit Types s : cpu_state E.

(** A far return to what was just pushed. *)
Lemma wp_far_return link a rip csw p (Q : exit → cpu_state E → Prop) s :
  a_regs s RSP = p → 0 ≤ p < 2 ^ 64 - 16 → a_memory s !! p = Some rip → a_memory s !! (p + 8) = Some csw → u16 csw = a →
  Q (FarReturned rip a) (with_regs (upd RSP (p + 8 + 8) (upd RSP (p + 8) (a_regs s))) s) →
  wp (exec link [Lretq] None) Q s.
Proof.
  intros Hp Hr H0 H1 Ha HQ. asm_step. eapply wp_pop; [exact Hp|lia|exact H0|]. wp_step.
  eapply wp_pop; [asm_simpl; reflexivity|lia|exact H1|]. wp_steps. by rewrite Ha.
Qed.

Lemma cs_word cs x : 0 ≤ cs < 2 ^ 16 → u16 (set_bits 0 16 cs x) = cs.
Proof.
  intros Hc. pose proof (get_set_bits_eq 0 16 cs x ltac:(lia) ltac:(lia)) as H.
  rewrite get_bits_div, Z.div_1_r in H by lia. rewrite H. by apply wrap_small.
Qed.

(** [stage1_kernel_entry] entered from [enter_kernel] jumps to the kernel with the three
    arguments as the calling convention has them and the kernel's stack. *)
Theorem boot_handover link link' ke mm fb rsdp stack entry p s :
  ke ∉ [RSP; RAX; RDI; RSI; RDX] → mm ∉ [RSP; RAX; RDI; RSI; RDX] → fb ∉ [RSP; RAX; RDI; RSI; RDX] → rsdp ∉ [RSP; RAX; RDI; RSI; RDX] →
  stack ∉ [RSP; RBP; RDI; RSI; RDX] → entry ∉ [RSP; RBP; RDI; RSI; RDX] →
  a_regs s RSP = p → 16 ≤ p < 2 ^ 64 - 16 → is_Some (a_memory s !! (p - 8)) → is_Some (a_memory s !! (p - 8 - 8)) → 0 ≤ a_cs s < 2 ^ 16 →
  wp (run link (enter_kernel ke mm fb rsdp)) (λ e s1,
    e = FarReturned (a_regs s ke) (a_cs s) ∧
    ∀ s2, a_regs s2 RDI = a_regs s1 RDI → a_regs s2 RSI = a_regs s1 RSI → a_regs s2 RDX = a_regs s1 RDX →
      wp (run link' (stage1_kernel_entry stack entry)) (λ e' s3,
        e' = Jumped (a_regs s2 entry) ∧ a_regs s3 RSP = a_regs s2 stack ∧ a_regs s3 RBP = a_regs s2 stack ∧
        a_regs s3 RDI = a_regs s mm ∧ a_regs s3 RSI = a_regs s fb ∧ a_regs s3 RDX = a_regs s rsdp) s2) s.
Proof.
  intros Hke Hmm Hfb Hrsdp Hstack Hentry Hp Hr H8 H16 Hcs. rewrite !not_elem_of_cons in Hke, Hmm, Hfb, Hrsdp, Hstack, Hentry.
  unfold run, enter_kernel. do 3 asm_step. asm_step. asm_step.
  eapply (wp_push _ p); [asm_simpl; exact Hp|lia|exact H8|]. wp_step.
  asm_step. eapply (wp_push _ (p - 8)); [by asm_simpl|lia|cbn; apply lookup_insert_is_Some'; by right|]. wp_step.
  eapply (wp_far_return _ (a_cs s)); [by asm_simpl|lia|cbn; by rewrite lookup_insert_eq| | |].
  - cbn [a_memory with_regs with_memory]. replace (p - 8 - 8 + 8) with (p - 8) by lia. rewrite lookup_insert_ne, lookup_insert_eq by lia. reflexivity.
  - apply cs_word. exact Hcs.
  - asm_simpl. split; [by rewrite !upd_ne by naive_solver|]. intros s2 Hdi Hsi Hdx. unfold stage1_kernel_entry.
    do 2 asm_step. apply wp_exec. cbn [step]. unfold get_reg. wp_steps. asm_simpl.
    rewrite !(upd_ne _ entry), !(upd_ne _ stack) by naive_solver. split_and!; [done..| | |].
    + rewrite !upd_ne by done. rewrite Hdi. cbn [a_regs with_regs]. by asm_simpl.
    + rewrite !upd_ne by done. rewrite Hsi. cbn [a_regs with_regs]. asm_simpl. by rewrite upd_ne by naive_solver.
    + rewrite !upd_ne by done. rewrite Hdx. cbn [a_regs with_regs]. asm_simpl. by rewrite !upd_ne by naive_solver.
Qed.

(** Called with the kernel's physical and virtual address, [jump_to_kernel_virtual]
    returns to its caller at the virtual address of where it was called from, in the same
    code segment, with the stack and base pointers moved by the same distance. *)
Theorem jump_to_kernel_virtual_spec link rip s :
  let p := a_regs s RDI in let v := a_regs s RSI in
  let move x := u64 (u64 (x - p) + v) in
  a_memory s !! move (a_regs s RSP) = Some rip → is_Some (a_memory s !! (move (a_regs s RSP) - 8)) →
  8 ≤ move (a_regs s RSP) < 2 ^ 64 - 16 → 0 ≤ a_cs s < 2 ^ 16 →
  wp (run link jump_to_kernel_virtual) (λ e s',
    e = FarReturned (move rip) (a_cs s) ∧ a_regs s' RSP = move (a_regs s RSP) + 8 ∧ a_regs s' RBP = move (a_regs s RBP) ∧
    same_but [RAX; RDX; RSP; RBP] (a_regs s) (a_regs s') ∧
    ∀ x, x ≠ move (a_regs s RSP) → x ≠ move (a_regs s RSP) - 8 → a_memory s' !! x = a_memory s !! x) s.
Proof.
  intros p v move Hrip Hroom Hr Hcs. set (sp := move (a_regs s RSP)) in *. unfold run, jump_to_kernel_virtual.
  do 4 asm_step. fold p v. change (u64 (u64 (a_regs s RSP - p) + v)) with sp. change (u64 (u64 (a_regs s RBP - p) + v)) with (move (a_regs s RBP)).
  asm_step. eapply (wp_pop sp); [by asm_simpl|lia|exact Hrip|]. wp_steps. asm_step. asm_step.
  eapply (wp_push _ (sp + 8)); [by asm_simpl|lia|cbn; replace (sp + 8 - 8) with sp by lia; by eexists|]. wp_step.
  replace (sp + 8 - 8) with sp by lia. do 3 asm_step. fold p v.
  eapply (wp_push _ sp); [by asm_simpl|lia|cbn; apply lookup_insert_is_Some'; by right|]. wp_step.
  eapply (wp_far_return _ (a_cs s)); [by asm_simpl|lia|cbn; rewrite lookup_insert_eq; reflexivity| | |].
  - cbn [a_memory with_regs with_memory]. replace (sp - 8 + 8) with sp by lia. rewrite lookup_insert_ne, lookup_insert_eq by lia. reflexivity.
  - apply cs_word. exact Hcs.
  - asm_simpl. split_and!; [done|lia|done|same_but_solve|]. intros x H1 H2. by rewrite !lookup_insert_ne by done.
Qed.
End spec.
End Boot.
