(* ===== verification/Rendering.v ===== *)
(** Text on the frame buffer: kernel/src/rendering.c.

    [screen] is the frame buffer's description and its memory, 4-byte pixels by address;
    a write where no pixel lies is a fault. A string is the list of its characters before
    the terminating NUL; [char] is signed. *)
From S2P Require Import Prelude Util Font.

Module Rendering.
Import Util Font.

Record Framebuffer := {
  fb_address : Z;
  fb_width : Z;
  fb_height : Z;
  fb_pixels_per_scanline : Z;
  fb_format : Z;
}.

Record screen := {
  sc_frame_buffer : Framebuffer;
  sc_pixels : gmap Z Z;
  sc_bg_color : Z;
  sc_fg_color : Z;
}.

Abbreviation RM := (M screen).

Definition set_pixels (p : gmap Z Z) (s : screen) : screen :=
  {| sc_frame_buffer := sc_frame_buffer s; sc_pixels := p; sc_bg_color := sc_bg_color s; sc_fg_color := sc_fg_color s |}.

(** The address [put_pixel] writes at. *)
Definition pixel_address (fb : Framebuffer) (x y : Z) : Z :=
  u64 (u64 (fb_address fb + u64 (u64 (4 * fb_pixels_per_scanline fb) * y)) + u64 (4 * x)).

Definition put_pixel (x y color : Z) : RM unit :=
  a ← gets (λ s, pixel_address (sc_frame_buffer s) x y);
  p ← gets (λ s, sc_pixels s !! a);
  _ ← of_option (BadPointer a) p;
  modify (λ s, set_pixels (<[a := color]> (sc_pixels s)) s).

Definition clear_screen (color : Z) : RM unit :=
  fb ← gets sc_frame_buffer;
  for_range 0 (fb_width fb) (λ x, for_range 0 (fb_height fb) (λ y, put_pixel x y color)).

(** The pages [remap_framebuffer] maps. *)
Definition framebuffer_pages (fb : Framebuffer) : result Z :=
  framebuffer_size ← round_up_to_multiple (u64 (u64 (fb_width fb * fb_height fb) * 4)) PAGE_SIZE;
  Ok (framebuffer_size / PAGE_SIZE).

(** [kmap_phys_range] is the kernel's; PAGING_WRITABLE | PAGING_CACHE_DISABLE is 5. *)
Definition set_address (address : Z) (s : screen) : screen :=
  let fb := sc_frame_buffer s in
  {| sc_frame_buffer := {| fb_address := address; fb_width := fb_width fb; fb_height := fb_height fb;
                           fb_pixels_per_scanline := fb_pixels_per_scanline fb; fb_format := fb_format fb |};
     sc_pixels := sc_pixels s; sc_bg_color := sc_bg_color s; sc_fg_color := sc_fg_color s |}.

Definition remap_framebuffer {S} `{!Part screen S} (kmap_phys_range : Z → Z → Z → M S Z) : M S unit :=
  fb ← on_part (gets sc_frame_buffer);
  pages ← (match framebuffer_pages fb with Ok p => mret p | Fault f => throw f end);
  address ← kmap_phys_range (fb_address fb) pages 5;
  on_part (modify (set_address address)).

Definition put_char (c x y fg bg : Z) : RM unit :=
  for_range 0 16 (λ cy, for_range 0 8 (λ cx,
    row ← of_option OutOfBounds (lookupZ font ((c - 31) * 16 + cy));
    put_pixel (u64 (cx + u64 (x * 8))) (u64 (cy + u64 (y * 16)))
      (if Z.land row (Z.shiftl 1 (7 - cx)) =? 0 then bg else fg))).

(** [put_char] in the current colours. *)
Definition put_plain (c x y : Z) : RM unit :=
  s ← gets id; put_char c x y (sc_fg_color s) (sc_bg_color s).

Fixpoint put_string_from (str : list Z) (i x y : Z) : RM Z :=
  match str with
  | [] => mret i
  | c :: str =>
      _ ← (if (33 <=? c) && (c <? 126) then put_plain c (u64 (x + i)) y else mret tt);
      put_string_from str (i + 1) x y
  end.

Definition put_string (str : list Z) (x y : Z) : RM Z := put_string_from str 0 x y.

Definition put_binary_len (value x y bits : Z) : RM unit :=
  _ ← put_string [48; 98] x y;
  for_range 0 bits (λ i,
    put_plain (48 + Z.land (Z.shiftr value (bits - i - 1)) 1) (u64 (x + 2 + i)) y).

Definition put_binary (value x y : Z) : RM Z :=
  if value =? 0 then _ ← put_string [48; 98; 48] x y; mret 3
  else
    leading_zeroes ← (match clzll value with Ok z => mret z | Fault f => throw f end);
    _ ← put_binary_len value x y (64 - leading_zeroes);
    mret (2 + 64 - leading_zeroes).

Definition put_binary_32 (value x y : Z) : RM unit := put_binary_len value x y 32.
Definition put_binary_64 (value x y : Z) : RM unit := put_binary_len value x y 64.

(** ** Decimal numbers

    [buf] has 21 bytes; the digits are written from its start, the lowest first, then
    reversed in place. *)

Definition write_buf (buf : list Z) (i c : Z) : result (list Z) :=
  if (0 <=? i) && (i <? Z.of_nat (length buf)) then Ok (insertZ i c buf) else Fault OutOfBounds.

(** while (value != 0) { *ptr = '0' + value % 10; ++ptr; value /= 10; } *)
Fixpoint write_digits (fuel : nat) (value : Z) (buf : list Z) (ptr : Z) : result (list Z * Z) :=
  match fuel with
  | O => Fault OutOfFuel
  | S fuel =>
      if value =? 0 then Ok (buf, ptr)
      else buf ← write_buf buf ptr (48 + value mod 10); write_digits fuel (value / 10) buf (ptr + 1)
  end.

(** while (begin < end) swap them, ++begin, --end *)
Fixpoint reverse_buf (fuel : nat) (buf : list Z) (begin stop : Z) : result (list Z) :=
  match fuel with
  | O => Fault OutOfFuel
  | S fuel =>
      if begin <? stop then
        match lookupZ buf begin, lookupZ buf stop with
        | Some b, Some e => reverse_buf fuel (insertZ stop b (insertZ begin e buf)) (begin + 1) (stop - 1)
        | _, _ => Fault OutOfBounds
        end
      else Ok buf
  end.

(** The characters up to the first NUL. *)
Fixpoint c_string (buf : list Z) : result (list Z) :=
  match buf with
  | [] => Fault OutOfBounds
  | c :: buf => if c =? 0 then Ok [] else l ← c_string buf; Ok (c :: l)
  end.

(** The string [put_uint] prints for a number that is not zero, and its length. *)
Definition uint_string (value : Z) : result (list Z * Z) :=
  '(buf, ptr) ← write_digits 65 value (replicate 21 0) 0;
  buf ← write_buf buf ptr 0;
  buf ← reverse_buf 65 buf 0 (ptr - 1);
  str ← c_string buf;
  Ok (str, ptr).

Definition put_uint (value x y : Z) : RM Z :=
  if value =? 0 then _ ← put_plain 48 x y; mret 1
  else
    '(str, len) ← (match uint_string value with Ok r => mret r | Fault f => throw f end);
    _ ← put_string str x y;
    mret len.

(** [value] is an int64_t. *)
Definition put_int (value x y : Z) : RM Z :=
  if value <? 0 then
    _ ← put_plain 45 x y;
    _ ← (if value =? - 2 ^ 63 then throw SignedOverflow else mret tt);
    n ← put_uint (- value) (u64 (x + 1)) y;
    mret (u64 (n + 1))
  else put_uint value x y.

(** ** Hexadecimal numbers *)

Definition hex_digit (num : Z) : Z := if 10 <=? num then 65 + num - 10 else 48 + num.

Definition nibble (value i : Z) : Z := Z.shiftr (Z.land value (Z.shiftl 15 (4 * i))) (4 * i).

Definition put_hex_len (value x y nibbles : Z) : RM unit :=
  _ ← put_plain 48 x y;
  _ ← put_plain 120 (u64 (x + 1)) y;
  for_range 0 nibbles (λ i,
    put_plain (hex_digit (nibble value (nibbles - 1 - i))) (u64 (x + 2 + i)) y).

(** while (nibbles > 2 && !(value & (0xF << 4 * --nibbles))) *)
Fixpoint hex_nibbles (fuel : nat) (value nibbles : Z) : Z :=
  match fuel with
  | O => nibbles
  | S fuel =>
      if 2 <? nibbles then
        if Z.land value (Z.shiftl 15 (4 * (nibbles - 1))) =? 0 then hex_nibbles fuel value (nibbles - 1)
        else nibbles - 1
      else nibbles
  end.

Definition put_hex (value x y : Z) : RM Z :=
  let nibbles := hex_nibbles 16 value 16 + 1 in
  _ ← put_hex_len value x y nibbles;
  mret (nibbles + 2).

Definition put_hex_32 (value x y : Z) : RM unit := put_hex_len value x y 8.
Definition put_hex_64 (value x y : Z) : RM unit := put_hex_len value x y 16.
End Rendering.
