(* ===== verification/RenderingProofs.v ===== *)
(** What ends up on the screen: numbers as strings, characters as pixels
    (kernel/src/rendering.c). *)
From S2P Require Import Prelude Util Libc Font Rendering.

Module RenderingProofs.
Import Util Libc Font Rendering.

(** ** Decimal numbers *)

Definition is_digit (c : Z) : Prop := 48 ≤ c ≤ 57.

(** The number whose digits, the lowest first, are the characters of the list. *)
Fixpoint low_first (ds : list Z) : Z :=
  match ds with
  | [] => 0
  | c :: ds => (c - 48) + 10 * low_first ds
  end.

Lemma insertZ_app_mid (pre post : list Z) x y :
  insertZ (Z.of_nat (length pre)) y (pre ++ x :: post) = pre ++ y :: post.
Proof.
  unfold insertZ. replace (Z.of_nat (length pre) <? 0) with false by blia.
  rewrite Nat2Z.id, insert_app_r_alt, Nat.sub_diag by lia. done.
Qed.

Lemma lookupZ_app_mid (pre post : list Z) x : lookupZ (pre ++ x :: post) (Z.of_nat (length pre)) = Some x.
Proof.
  unfold lookupZ. replace (Z.of_nat (length pre) <? 0) with false by blia.
  rewrite Nat2Z.id, lookup_app_r, Nat.sub_diag by lia. done.
Qed.

Lemma write_digits_spec k fuel value pre rest :
  0 ≤ value < 10 ^ Z.of_nat k → (k < fuel)%nat → (k ≤ length rest)%nat →
  ∃ ds, write_digits fuel value (pre ++ rest) (Z.of_nat (length pre)) =
      Ok (pre ++ ds ++ drop (length ds) rest, Z.of_nat (length pre) + Z.of_nat (length ds)) ∧
    (length ds ≤ k)%nat ∧ Forall is_digit ds ∧ low_first ds = value ∧ (value ≠ 0 → ds ≠ []).
Proof.
  revert fuel value pre rest. induction k as [|k IH]; intros fuel value pre rest Hv Hf Hr;
    (destruct fuel as [|fuel]; [lia|]); cbn [write_digits].
  - assert (value = 0) as -> by (change (10 ^ Z.of_nat 0) with 1 in Hv; lia). cbn [Z.eqb].
    exists []. cbn. rewrite Z.add_0_r. done.
  - destruct (Z.eqb_spec value 0) as [->|Hne].
    { exists []. cbn. rewrite Z.add_0_r. split_and!; [done|lia|done..]. }
    destruct rest as [|x rest]; [cbn in Hr; lia|]. unfold mbind, result_bind at 1, write_buf.
    rewrite length_app. cbn [length].
    replace ((0 <=? Z.of_nat (length pre)) && (Z.of_nat (length pre) <? Z.of_nat (length pre + S (length rest)))) with true by blia.
    rewrite insertZ_app_mid.
    destruct (IH fuel (value / 10) (pre ++ [48 + value mod 10]) rest) as (ds & E & Hlen & Hd & Hval & _).
    { rewrite Nat2Z.inj_succ, Z.pow_succ_r in Hv by lia. split; [apply Z.div_pos; lia|apply Z.div_lt_upper_bound; lia]. }
    { lia. } { cbn in Hr. lia. }
    rewrite <- app_assoc in E. cbn [app] in E. rewrite length_app in E. cbn [length] in E.
    replace (Z.of_nat (length pre) + 1) with (Z.of_nat (length pre + 1)) by lia. rewrite E.
    pose proof (Z.mod_pos_bound value 10 ltac:(lia)). pose proof (Z.div_mod value 10 ltac:(lia)).
    exists ((48 + value mod 10) :: ds). split_and!; [|cbn; lia| | |done].
    + rewrite <- app_assoc. cbn [app length drop]. do 2 f_equal. lia.
    + constructor; [unfold is_digit; lia|done].
    + cbn [low_first]. rewrite Hval. lia.
Qed.

(** Swapping from both ends reverses what lies between them. *)
Lemma reverse_buf_spec n fuel pre mid post :
  (length mid ≤ 2 * n + 1)%nat → (n < fuel)%nat →
  reverse_buf fuel (pre ++ mid ++ post) (Z.of_nat (length pre)) (Z.of_nat (length pre) + Z.of_nat (length mid) - 1) =
    Ok (pre ++ reverse mid ++ post).
Proof.
  revert fuel pre mid post. induction n as [|n IH]; intros fuel pre mid post Hn Hf;
    (destruct fuel as [|fuel]; [lia|]); cbn [reverse_buf].
  - replace (_ <? _) with false by blia. destruct mid as [|x [|]]; [done|done|cbn in Hn; lia].
  - destruct mid as [|x mid]; [by replace (_ <? _) with false by (cbn [length]; blia)|].
    destruct mid as [|y mid _] using rev_ind; [by replace (_ <? _) with false by (cbn [length]; blia)|].
    cbn [length] in *. rewrite length_app in *. cbn [length] in *. replace (_ <? _) with true by blia.
    replace (Z.of_nat (length pre) + Z.of_nat (S (length mid + 1)) - 1) with (Z.of_nat (length (pre ++ x :: mid)))
      by (rewrite length_app; cbn; lia).
    replace (pre ++ (x :: mid ++ [y]) ++ post) with ((pre ++ x :: mid) ++ y :: post)
      by (rewrite <- !app_assoc; cbn; by rewrite <- app_assoc).
    rewrite lookupZ_app_mid. replace ((pre ++ x :: mid) ++ y :: post) with (pre ++ x :: (mid ++ y :: post))
      by (by rewrite <- app_assoc).
    rewrite lookupZ_app_mid, insertZ_app_mid.
    replace (pre ++ y :: mid ++ y :: post) with ((pre ++ y :: mid) ++ y :: post) by (by rewrite <- app_assoc).
    replace (length (pre ++ x :: mid)) with (length (pre ++ y :: mid)) by (rewrite !length_app; done).
    rewrite insertZ_app_mid.
    replace ((pre ++ y :: mid) ++ x :: post) with ((pre ++ [y]) ++ mid ++ (x :: post)) by (by rewrite <- !app_assoc).
    replace (Z.of_nat (length pre) + 1) with (Z.of_nat (length (pre ++ [y]))) by (rewrite length_app; cbn; lia).
    replace (Z.of_nat (length (pre ++ y :: mid)) - 1) with (Z.of_nat (length (pre ++ [y])) + Z.of_nat (length mid) - 1)
      by (rewrite !length_app; cbn; lia).
    rewrite IH by lia. rewrite reverse_cons, reverse_snoc, <- !app_assoc. done.
Qed.

Lemma c_string_digits ds post : Forall is_digit ds → c_string (ds ++ 0 :: post) = Ok ds.
Proof.
  induction 1 as [|c ds Hc _ IH]; [done|]. cbn. unfold is_digit in Hc.
  replace (c =? 0) with false by lia. unfold mbind, result_bind. by rewrite IH.
Qed.

Lemma digits_value_reverse ds acc :
  digits_value (reverse ds) acc = acc * 10 ^ Z.of_nat (length ds) + low_first ds.
Proof.
  revert acc. induction ds as [|c ds IH]; intros acc; [cbn; lia|].
  rewrite reverse_cons. unfold digits_value in *. rewrite fold_left_app, IH. cbn [fold_left low_first length].
  rewrite Nat2Z.inj_succ, Z.pow_succ_r by lia. ring.
Qed.

(** C35: The string [put_uint] prints for a 64-bit number fits in its buffer with the NUL,
    consists of digits, and is the number in decimal; what is returned is its length. *)
Theorem uint_string_spec value :
  0 < value < 2 ^ 64 →
  ∃ str, uint_string value = Ok (str, Z.of_nat (length str)) ∧ (1 ≤ length str ≤ 20)%nat ∧
    Forall is_digit str ∧ digits_value str 0 = value.
Proof.
  intros Hv. unfold uint_string.
  destruct (write_digits_spec 20 65 value [] (replicate 21 0)) as (ds & E & Hlen & Hd & Hval & Hne);
    [cbn; lia|lia|cbn; lia|].
  cbn [app length] in E. rewrite Z.add_0_l in E.
  unfold mbind, result_bind. change (Z.of_nat 0) with 0 in E. rewrite E.
  assert (drop (length ds) (replicate 21 0) = 0 :: replicate (20 - length ds) 0) as ->.
  { rewrite drop_replicate. by replace (21 - length ds)%nat with (S (20 - length ds)) by lia. }
  unfold write_buf. rewrite length_app. cbn [length].
  replace ((0 <=? Z.of_nat (length ds)) && (Z.of_nat (length ds) <? Z.of_nat (length ds + S _))) with true by blia.
  rewrite insertZ_app_mid.
  pose proof (reverse_buf_spec 20 65 [] ds (0 :: replicate (20 - length ds) 0)) as Hrev.
  cbn [app length] in Hrev. change (Z.of_nat 0) with 0 in Hrev. rewrite Z.add_0_l in Hrev. rewrite Hrev by lia.
  assert (Forall is_digit (reverse ds)) as Hr by by apply Forall_reverse.
  rewrite c_string_digits by done. exists (reverse ds). rewrite length_reverse. split; [done|].
  split; [destruct ds; [by destruct Hne; [lia|]|cbn in *; lia]|]. split; [done|].
  rewrite digits_value_reverse, Hval. lia.
Qed.

Lemma uint_string_spec_witness :
  uint_string (2 ^ 64 - 1) = Ok ([49; 56; 52; 52; 54; 55; 52; 52; 48; 55; 51; 55; 48; 57; 53; 53; 49; 54; 49; 53], 20) ∧
  ∃ str, uint_string (2 ^ 64 - 1) = Ok (str, Z.of_nat (length str)) ∧ (1 ≤ length str ≤ 20)%nat ∧
    Forall is_digit str ∧ digits_value str 0 = 2 ^ 64 - 1.
Proof. split; [by vm_compute|]. apply (uint_string_spec (2 ^ 64 - 1)). by vm_compute. Defined.

(** ** Pixels *)

(** The memory of the frame buffer is there, below the end of the address space, and lines
    do not overlap. *)
Record screen_ok (s : screen) : Prop := {
  so_address : 0 ≤ fb_address (sc_frame_buffer s);
  so_width : 0 ≤ fb_width (sc_frame_buffer s) ≤ fb_pixels_per_scanline (sc_frame_buffer s);
  so_height : 0 ≤ fb_height (sc_frame_buffer s);
  so_end : fb_address (sc_frame_buffer s) +
    4 * (fb_pixels_per_scanline (sc_frame_buffer s) * fb_height (sc_frame_buffer s)) < 2 ^ 64;
  so_pixels : ∀ x y, 0 ≤ x < fb_width (sc_frame_buffer s) → 0 ≤ y < fb_height (sc_frame_buffer s) →
    is_Some (sc_pixels s !! pixel_address (sc_frame_buffer s) x y);
}.

Definition on_screen (s : screen) (x y : Z) : Prop :=
  0 ≤ x < fb_width (sc_frame_buffer s) ∧ 0 ≤ y < fb_height (sc_frame_buffer s).

Definition pixel (s : screen) (x y : Z) : option Z := sc_pixels s !! pixel_address (sc_frame_buffer s) x y.

Lemma pixel_address_eq s x y :
  screen_ok s → on_screen s x y →
  pixel_address (sc_frame_buffer s) x y =
    fb_address (sc_frame_buffer s) + 4 * (fb_pixels_per_scanline (sc_frame_buffer s) * y) + 4 * x.
Proof.
  intros [Ha Hw Hh He _] [Hx Hy]. unfold pixel_address. set (w := fb_pixels_per_scanline _) in *.
  set (h := fb_height _) in *. set (a := fb_address _) in *.
  assert (w * y ≤ w * (h - 1)) by (apply Z.mul_le_mono_nonneg_l; lia).
  assert (0 ≤ w * y) by (apply Z.mul_nonneg_nonneg; lia).
  assert (w ≤ w * h) by (rewrite <- (Z.mul_1_r w) at 1; apply Z.mul_le_mono_nonneg_l; lia).
  rewrite (wrap_small 64 (4 * w)) by lia. rewrite (wrap_small 64 (4 * w * y)) by lia.
  rewrite (wrap_small 64 (4 * x)) by lia. rewrite (wrap_small 64 (a + _)) by lia. rewrite wrap_small by lia. lia.
Qed.

Lemma pixel_address_inj s x y x' y' :
  screen_ok s → on_screen s x y → on_screen s x' y' →
  pixel_address (sc_frame_buffer s) x y = pixel_address (sc_frame_buffer s) x' y' → x = x' ∧ y = y'.
Proof.
  intros Hs Ho Ho' E. rewrite !pixel_address_eq in E by done. destruct Hs as [_ Hw _ _ _], Ho as [Hx Hy], Ho' as [Hx' Hy'].
  set (w := fb_pixels_per_scanline _) in *. destruct (Z.lt_trichotomy y y') as [Hlt|[->|Hgt]].
  - assert (w * (y + 1) ≤ w * y') by (apply Z.mul_le_mono_nonneg_l; lia). lia.
  - lia.
  - assert (w * (y' + 1) ≤ w * y) by (apply Z.mul_le_mono_nonneg_l; lia). lia.
Qed.

Definition same_screen (s s' : screen) : Prop :=
  sc_frame_buffer s' = sc_frame_buffer s ∧ sc_bg_color s' = sc_bg_color s ∧ sc_fg_color s' = sc_fg_color s.

Lemma wp_put_pixel x y color (Q : unit → screen → Prop) s :
  screen_ok s → on_screen s x y →
  (∀ s', screen_ok s' → same_screen s s' →
     (∀ px py, on_screen s px py → pixel s' px py = if decide (px = x ∧ py = y) then Some color else pixel s px py) →
     Q tt s') →
  wp (put_pixel x y color) Q s.
Proof.
  intros Hs Ho HQ. unfold put_pixel. do 4 wp_step. destruct (so_pixels s Hs x y) as [old Hold]; [apply Ho..|].
  wp_step. wp_step; [exact Hold|]. wp_step. apply HQ.
  - destruct Hs as [Ha Hw Hh He Hp]. split; try done. intros px py Hx Hy. cbn. apply lookup_insert_is_Some'. right. by apply Hp.
  - done.
  - intros px py Hpo. unfold pixel. cbn. case_decide as Hd.
    + destruct Hd as [-> ->]. by rewrite lookup_insert_eq.
    + rewrite lookup_insert_ne; [done|]. intros E. apply Hd.
      by destruct (pixel_address_inj s x y px py Hs Ho Hpo E) as [-> ->].
Qed.

(** Whether the glyph of [c] has a dot in column [cx] of row [cy]. *)
Definition glyph_dot (c cx cy : Z) : bool :=
  match lookupZ font ((c - 31) * 16 + cy) with
  | Some row => negb (Z.land row (Z.shiftl 1 (7 - cx)) =? 0)
  | None => false
  end.

(** The cell of the character at [x], [y], and how many of its pixels come before one. *)
Definition in_cell (x y px py : Z) : Prop := 8 * x ≤ px < 8 * x + 8 ∧ 16 * y ≤ py < 16 * y + 16.
#[export] Instance in_cell_dec x y px py : Decision (in_cell x y px py).
Proof. unfold in_cell. apply _. Defined.
Definition cell_index (x y px py : Z) : Z := 8 * (py - 16 * y) + (px - 8 * x).

(** The first [n] pixels of the cell are painted. *)
Definition painted (s : screen) (c x y fg bg n : Z) (s' : screen) : Prop :=
  screen_ok s' ∧ same_screen s s' ∧
  ∀ px py, on_screen s px py → pixel s' px py =
    if decide (in_cell x y px py ∧ cell_index x y px py < n)
    then Some (if glyph_dot c (px - 8 * x) (py - 16 * y) then fg else bg) else pixel s px py.

Lemma lookup_font c cy : 31 ≤ c ≤ 126 → 0 ≤ cy < 16 → is_Some (lookupZ font ((c - 31) * 16 + cy)).
Proof. intros. apply lookupZ_is_Some. change (Z.of_nat (length font)) with 1536. lia. Qed.

Lemma wp_put_char c x y fg bg (Q : unit → screen → Prop) s :
  screen_ok s → 31 ≤ c ≤ 126 → 0 ≤ x → 8 * x + 8 ≤ fb_width (sc_frame_buffer s) →
  0 ≤ y → 16 * y + 16 ≤ fb_height (sc_frame_buffer s) →
  fb_width (sc_frame_buffer s) < 2 ^ 64 → fb_height (sc_frame_buffer s) < 2 ^ 64 →
  (∀ s', painted s c x y fg bg 128 s' → Q tt s') →
  wp (put_char c x y fg bg) Q s.
Proof.
  intros Hs Hc Hx Hxw Hy Hyh Hw64 Hh64 HQ. unfold put_char.
  apply (wp_for_range (λ cy, painted s c x y fg bg (8 * cy))); [lia| | |intros s'; apply HQ].
  { split; [done|]. split; [done|]. intros px py _. rewrite decide_False; [done|].
    intros [Hin Hlt]. unfold in_cell, cell_index in *. lia. }
  intros cy s1 Hcy Hp. apply (wp_for_range (λ cx, painted s c x y fg bg (8 * cy + cx))); [lia|by rewrite Z.add_0_r| |
    by replace (8 * (cy + 1)) with (8 * cy + 8) by lia].
  clear s1 Hp. intros cx s1 Hcx (Hok1 & Hsame & Hpx).
  destruct (lookup_font c cy Hc Hcy) as [row Hrow]. wp_step. wp_step; [exact Hrow|].
  rewrite (wrap_small 64 (x * 8)), (wrap_small 64 (y * 16)), (wrap_small 64 (cx + _)), (wrap_small 64 (cy + _)) by lia.
  assert (∀ px py, on_screen s px py ↔ on_screen s1 px py) as Hon.
  { intros px py. unfold on_screen. by rewrite (proj1 Hsame). }
  apply wp_put_pixel; [done|apply Hon; unfold on_screen; lia|]. intros s2 Hok2 Hsame2 Hp2.
  split; [done|]. split; [destruct Hsame as (?&?&?), Hsame2 as (?&?&?); split_and!; congruence|].
  intros px py Ho. rewrite Hp2 by by apply Hon. unfold in_cell, cell_index in *. destruct (decide (px = cx + x * 8 ∧ py = cy + y * 16)) as [[-> ->]|Hne].
  - rewrite decide_True by lia. unfold glyph_dot. replace (cx + x * 8 - 8 * x) with cx by lia.
    replace (cy + y * 16 - 16 * y) with cy by lia. rewrite Hrow. by destruct (_ =? 0).
  - rewrite Hpx by done. apply decide_ext. lia.
Qed.

(** A printable character at a position inside the frame buffer is drawn: each of the
    128 pixels of its cell gets the foreground colour where the glyph has a dot and the
    background colour elsewhere; no other pixel changes and nothing is written outside
    the frame buffer. *)
Theorem put_char_spec c x y fg bg s :
  screen_ok s → 31 ≤ c ≤ 126 → 0 ≤ x → 8 * x + 8 ≤ fb_width (sc_frame_buffer s) < 2 ^ 64 →
  0 ≤ y → 16 * y + 16 ≤ fb_height (sc_frame_buffer s) < 2 ^ 64 →
  wp (put_char c x y fg bg) (λ _ s', screen_ok s' ∧ same_screen s s' ∧
    ∀ px py, on_screen s px py → pixel s' px py =
      if decide (in_cell x y px py)
      then Some (if glyph_dot c (px - 8 * x) (py - 16 * y) then fg else bg) else pixel s px py) s.
Proof.
  intros Hs Hc Hx [Hxw Hw] Hy [Hyh Hh]. apply wp_put_char; [done..|]. intros s' (Hok & Hsame & Hp).
  split; [done|]. split; [done|]. intros px py Ho. rewrite Hp by done. apply decide_ext.
  unfold in_cell, cell_index. lia.
Qed.

(** ** Strings *)

Definition printable (c : Z) : bool := (33 <=? c) && (c <? 126).

(** The character of [str], drawn from cell [x], [y] on, that the pixel belongs to. *)
Definition printed (str : list Z) (x y px py : Z) : option Z :=
  if decide (16 * y ≤ py < 16 * y + 16 ∧ 8 * x ≤ px) then
    match str !! Z.to_nat (px / 8 - x) with
    | Some c => if printable c then Some c else None
    | None => None
    end
  else None.

Lemma printed_nil x y px py : printed [] x y px py = None.
Proof. unfold printed. case_decide; [by rewrite lookup_nil|done]. Qed.

Lemma printed_cons c str x y px py :
  printed (c :: str) x y px py =
    if decide (in_cell x y px py) then if printable c then Some c else None else printed str (x + 1) y px py.
Proof.
  unfold printed, in_cell. pose proof (Z.div_mod px 8 ltac:(lia)). pose proof (Z.mod_pos_bound px 8 ltac:(lia)).
  destruct (decide (8 * x ≤ px < 8 * x + 8 ∧ 16 * y ≤ py < 16 * y + 16)).
  - rewrite decide_True by lia. by replace (px / 8 - x) with 0 by lia.
  - destruct (decide (16 * y ≤ py < 16 * y + 16 ∧ 8 * x ≤ px)), (decide (16 * y ≤ py < 16 * y + 16 ∧ 8 * (x + 1) ≤ px)); try lia; [|done].
    by replace (Z.to_nat (px / 8 - x)) with (S (Z.to_nat (px / 8 - (x + 1)))) by lia.
Qed.

Definition ink (s : screen) (c px py y : Z) : Z :=
  if glyph_dot c (px mod 8) (py - 16 * y) then sc_fg_color s else sc_bg_color s.

(** [s'] is [s] with [str] drawn. *)
Definition with_text (s : screen) (str : list Z) (x y : Z) (s' : screen) : Prop :=
  screen_ok s' ∧ same_screen s s' ∧
  ∀ px py, on_screen s px py → pixel s' px py =
    match printed str x y px py with Some c => Some (ink s c px py y) | None => pixel s px py end.

Lemma same_screen_on s s' px py : same_screen s s' → on_screen s px py ↔ on_screen s' px py.
Proof. intros Hs. unfold on_screen. by rewrite (proj1 Hs). Qed.
Lemma same_screen_ink s s' c px py y : same_screen s s' → ink s' c px py y = ink s c px py y.
Proof. intros (_ & Hb & Hf). unfold ink. by rewrite Hb, Hf. Qed.

Lemma wp_put_string_from str i x y (Q : Z → screen → Prop) s :
  screen_ok s → 0 ≤ i → 0 ≤ x → 8 * (x + i + Z.of_nat (length str)) ≤ fb_width (sc_frame_buffer s) < 2 ^ 64 →
  0 ≤ y → 16 * y + 16 ≤ fb_height (sc_frame_buffer s) < 2 ^ 64 →
  (∀ s', with_text s str (x + i) y s' → Q (i + Z.of_nat (length str)) s') →
  wp (put_string_from str i x y) Q s.
Proof.
  revert i s Q. induction str as [|c str IH]; intros i s Q Hs Hi Hx Hw Hy Hh HQ; cbn [put_string_from length] in *.
  - wp_step. specialize (HQ s). rewrite Z.add_0_r in HQ. apply HQ. split; [done|]. split; [done|].
    intros px py _. by rewrite printed_nil.
  - wp_step. rewrite (wrap_small 64 (x + i)) by lia. change ((33 <=? c) && (c <? 126)) with (printable c).
    assert (∀ s1, screen_ok s1 → same_screen s s1 →
      (∀ px py, on_screen s px py → pixel s1 px py =
         if decide (in_cell (x + i) y px py) then if printable c then Some (ink s c px py y) else pixel s px py else pixel s px py) →
      wp (put_string_from str (i + 1) x y) Q s1) as Hrest.
    { intros s1 Hs1 Hsame Hp. pose proof (proj1 Hsame) as Hfb. apply IH; rewrite ?Hfb; try done; try lia.
      intros s2 (Hs2 & Hsame2 & Hp2). specialize (HQ s2). replace (i + Z.of_nat (S (length str))) with (i + 1 + Z.of_nat (length str)) in HQ by lia.
      apply HQ. split; [done|]. split; [destruct Hsame as (?&?&?), Hsame2 as (?&?&?); split_and!; congruence|].
      intros px py Ho. rewrite Hp2 by by apply (same_screen_on s). rewrite printed_cons, Hp by done.
      replace (x + (i + 1)) with (x + i + 1) by lia. destruct (decide (in_cell (x + i) y px py)) as [Hin|Hout].
      - assert (printed str (x + i + 1) y px py = None) as ->.
        { unfold printed. rewrite decide_False; [done|]. unfold in_cell in Hin. lia. }
        by destruct (printable c).
      - destruct (printed str (x + i + 1) y px py); [|done]. f_equal. by apply same_screen_ink. }
    destruct (printable c) eqn:Ec.
    + unfold put_plain. wp_step. wp_step. unfold printable in Ec. apply andb_true_iff in Ec as [H1 H2].
      apply wp_put_char; try lia; [done|]. intros s1 (Hs1 & Hsame & Hp). apply Hrest; [done..|].
      intros px py Ho. rewrite Hp by done. unfold in_cell, cell_index, ink. unfold id.
      case_decide as Hd; case_decide as Hd'; try lia; [|done]. do 2 f_equal.
      replace (px mod 8) with (px - 8 * (x + i)); [done|]. apply Z.mod_unique_pos with (q := x + i); lia.
    + wp_step. apply Hrest; [done..|]. intros px py _. by case_decide.
Qed.

(** A string is drawn cell by cell: every pixel of the cell of a printable character gets
    that character's dot, every other pixel of the screen stays as it was, and the length of
    the string is returned. *)
Theorem put_string_spec str x y s :
  screen_ok s → 0 ≤ x → 8 * (x + Z.of_nat (length str)) ≤ fb_width (sc_frame_buffer s) < 2 ^ 64 →
  0 ≤ y → 16 * y + 16 ≤ fb_height (sc_frame_buffer s) < 2 ^ 64 →
  wp (put_string str x y) (λ n s', n = Z.of_nat (length str) ∧ with_text s str x y s') s.
Proof.
  intros Hs Hx Hw Hy Hh. apply wp_put_string_from; [done|done|done|by rewrite Z.add_0_r|done|done|].
  intros s' H. by rewrite Z.add_0_r in H.
Qed.

Lemma wp_clear_screen color (Q : unit → screen → Prop) s :
  screen_ok s → fb_width (sc_frame_buffer s) < 2 ^ 64 → fb_height (sc_frame_buffer s) < 2 ^ 64 →
  (∀ s', screen_ok s' → same_screen s s' → (∀ px py, on_screen s px py → pixel s' px py = Some color) → Q tt s') →
  wp (clear_screen color) Q s.
Proof.
  intros Hs Hw Hh HQ. unfold clear_screen. wp_step. wp_step. destruct (Hs) as [_ [Hw0 _] Hh0 _ _].
  set (cleared n m s' := screen_ok s' ∧ same_screen s s' ∧
    ∀ px py, on_screen s px py → px < n ∨ px = n ∧ py < m → pixel s' px py = Some color).
  apply (wp_for_range (λ n, cleared n 0)); [done|split_and!; [done|done|]; intros px py [? ?] ?; lia| |].
  - intros n s1 Hn Hd. apply (wp_for_range (cleared n)); [done|exact Hd| |].
    + clear s1 Hd. intros m s1 Hm (Hs1 & Hsame & Hp). apply wp_put_pixel; [done|apply (same_screen_on s); [done|by split]|].
      intros s2 Hs2 Hsame2 Hp2. split; [done|]. split; [destruct Hsame as (?&?&?), Hsame2 as (?&?&?); split_and!; congruence|].
      intros px py Ho Hlt. rewrite Hp2 by by apply (same_screen_on s). case_decide; [done|]. apply Hp; [done|lia].
    + intros s2 (Hs2 & Hsame & Hp). split; [done|]. split; [done|]. intros px py Ho Hlt. apply Hp; [done|].
      destruct Ho as [_ Ho]. lia.
  - intros s' (Hs' & Hsame & Hp). apply HQ; [done..|]. intros px py Ho. apply Hp; [done|]. destruct Ho. lia.
Qed.

(** [clear_screen] gives every pixel of the screen the colour. *)
Theorem clear_screen_spec color s :
  screen_ok s → fb_width (sc_frame_buffer s) < 2 ^ 64 → fb_height (sc_frame_buffer s) < 2 ^ 64 →
  wp (clear_screen color) (λ _ s', screen_ok s' ∧ same_screen s s' ∧
    ∀ px py, on_screen s px py → pixel s' px py = Some color) s.
Proof. intros Hs Hw Hh. by apply wp_clear_screen. Qed.

(** A frame buffer of one character cell. *)
Definition cell_screen : screen :=
  {| sc_frame_buffer := {| fb_address := 0x1000; fb_width := 8; fb_height := 16; fb_pixels_per_scanline := 8; fb_format := 0 |};
     sc_pixels := list_to_map ((λ i, (0x1000 + 4 * Z.of_nat i, 0)) <$> seq 0 128); sc_bg_color := 0; sc_fg_color := 0xffffff |}.

Lemma cell_screen_ok : screen_ok cell_screen.
Proof.
  split; [by vm_compute..|]. intros x y Hx Hy. cbn [cell_screen sc_frame_buffer fb_width fb_height] in *.
  assert (forallb (λ y, forallb (λ x, bool_decide (is_Some (sc_pixels cell_screen !!
    pixel_address (sc_frame_buffer cell_screen) (Z.of_nat x) (Z.of_nat y)))) (seq 0 8)) (seq 0 16) = true) as Hall
    by (by vm_compute).
  rewrite forallb_forall in Hall. specialize (Hall (Z.to_nat y) ltac:(apply in_seq; lia)).
  rewrite forallb_forall in Hall. specialize (Hall (Z.to_nat x) ltac:(apply in_seq; lia)).
  rewrite !Z2Nat.id in Hall by lia. by apply bool_decide_eq_true in Hall.
Qed.

Lemma put_char_spec_witness :
  wp (put_char 65 0 0 1 2) (λ _ s', screen_ok s' ∧ same_screen cell_screen s' ∧
    ∀ px py, on_screen cell_screen px py → pixel s' px py =
      if decide (in_cell 0 0 px py)
      then Some (if glyph_dot 65 (px - 8 * 0) (py - 16 * 0) then 1 else 2) else pixel cell_screen px py) cell_screen.
Proof. apply (put_char_spec 65 0 0 1 2 cell_screen cell_screen_ok); by vm_compute. Defined.

(** [remap_framebuffer] maps as many pages as the visible pixels need. When the lines
    in memory are longer, by a page of pixels or more, the last visible pixel lies past
    what was mapped. *)
Theorem remap_framebuffer_short fb :
  0 < fb_width fb → 1 < fb_height fb → fb_width fb + 1024 ≤ fb_pixels_per_scanline fb →
  4 * (fb_width fb * fb_height fb) + 4096 < 2 ^ 64 →
  ∃ pages, framebuffer_pages fb = Ok pages ∧
    pages * PAGE_SIZE ≤ 4 * (fb_pixels_per_scanline fb * (fb_height fb - 1)) + 4 * (fb_width fb - 1).
Proof.
  intros Hw Hh Hs Hm. assert (0 < fb_width fb * fb_height fb) as Hpos by (apply Z.mul_pos_pos; lia).
  unfold framebuffer_pages, mbind, result_bind.
  rewrite (wrap_small 64 (fb_width fb * fb_height fb)) by lia. rewrite wrap_small by lia.
  rewrite round_up_to_multiple_eq by (unfold PAGE_SIZE; lia). eexists. split; [done|].
  set (n := fb_width fb * fb_height fb * 4).
  assert ((n + PAGE_SIZE - 1) / PAGE_SIZE * PAGE_SIZE / PAGE_SIZE * PAGE_SIZE ≤ n + PAGE_SIZE - 1) as H1.
  { rewrite Z.div_mul by done. rewrite Z.mul_comm. apply Z.mul_div_le. done. }
  assert ((fb_width fb + 1024) * (fb_height fb - 1) ≤ fb_pixels_per_scanline fb * (fb_height fb - 1)) as H2.
  { apply Z.mul_le_mono_nonneg_r; lia. }
  unfold PAGE_SIZE in *. subst n. lia.
Qed.

Lemma remap_framebuffer_short_witness :
  ∃ pages, framebuffer_pages {| fb_address := 0; fb_width := 1024; fb_height := 768; fb_pixels_per_scanline := 2048; fb_format := 0 |} = Ok pages ∧
    pages * PAGE_SIZE ≤ 4 * (2048 * (768 - 1)) + 4 * (1024 - 1).
Proof. by apply (remap_framebuffer_short {| fb_address := 0; fb_width := 1024; fb_height := 768; fb_pixels_per_scanline := 2048; fb_format := 0 |}). Defined.
End RenderingProofs.
