(* ===== verification/Exceptions.v ===== *)
(** The processor's exceptions: kernel/src/exceptions.c with kernel/include/idt.h, and the
    screen a failed assertion leaves, kernel/include/kassert.h. *)
From S2P Require Import Prelude Util Rendering Descriptors.

Module Exceptions.
Import Util Rendering Descriptors.

Definition GENERAL_PROTECTION_FAULT : Z := 13.
Definition PAGE_FAULT : Z := 14.

(** The structs the processor's words are read as; for an exception with an error code that
    word comes first. *)
Record InterruptFrame := { if_rip : Z; if_cs : Z; if_flags : Z; if_rsp : Z; if_ss : Z }.
Record ErrorCodeInterruptFrame := { ef_err : Z; ef_frame : InterruptFrame }.

Definition read_frame (words : list Z) : option InterruptFrame :=
  match words with
  | rip :: cs :: flags :: rsp :: ss :: _ => Some {| if_rip := rip; if_cs := cs; if_flags := flags; if_rsp := rsp; if_ss := ss |}
  | _ => None
  end.
Definition read_error_frame (words : list Z) : option ErrorCodeInterruptFrame :=
  match words with
  | err :: words => match read_frame words with Some f => Some {| ef_err := err; ef_frame := f |} | None => None end
  | [] => None
  end.

(** ** What is drawn *)

Definition chars (s : string) : list Z := (λ a, Z.of_N (Ascii.N_of_ascii a)) <$> String.list_ascii_of_string s.

Definition set_fg_color (c : Z) : RM unit :=
  modify (λ s, {| sc_frame_buffer := sc_frame_buffer s; sc_pixels := sc_pixels s; sc_bg_color := sc_bg_color s; sc_fg_color := c |}).

(** A label at column 10 and a value behind it. *)
Definition put_value (label : string) (put : Z → Z → Z → RM Z) (value y : Z) : RM unit :=
  n ← put_string (chars label) 10 y; _ ← put value (10 + n) y; mret tt.

Definition title (s : string) : RM unit :=
  _ ← clear_screen 0; _ ← set_fg_color 0xff0000; _ ← put_string (chars s) 10 10; mret tt.

Definition show_unimplemented (f : InterruptFrame) : RM unit :=
  _ ← title "UNIMPLEMENTED EXCEPTION";
  _ ← put_value "Instruction   (RIP): " put_hex (if_rip f) 11;
  put_value "Stack pointer (RSP): " put_hex (if_rsp f) 12.

(** Bits 1 and 2 of the error code name the table, the bits from 3 on the entry; the
    handler takes those from bit 4 on. *)
Definition selector_table (err : Z) : Z := Z.land (Z.shiftr err 1) 3.
Definition selector_index (err : Z) : Z := Z.land (Z.shiftr err 4) (Z.shiftl 1 13 - 1).

Definition show_general_protection (f : ErrorCodeInterruptFrame) : RM unit :=
  _ ← title "GP";
  _ ← put_value "Instruction   (RIP): " put_hex (if_rip (ef_frame f)) 11;
  _ ← put_value "Stack pointer (RSP): " put_hex (if_rsp (ef_frame f)) 12;
  _ ← put_value "err: " put_binary (selector_table (ef_err f)) 14;
  put_value "selector index: " put_hex (selector_index (ef_err f)) 15.

(** What the error code of a page fault says, a line each. *)
Definition page_fault_info (err : Z) : list string :=
  [if Z.testbit err 0 then "page-protection violation"%string else "non-present page"%string;
   if Z.testbit err 1 then "while writing"%string else "while reading"%string] ++
  (if Z.testbit err 2 then ["user bit"%string] else []) ++
  (if Z.testbit err 3 then ["reserved bit"%string] else []) ++
  [if Z.testbit err 4 then "during an instruction fetch"%string else ""%string].

Fixpoint put_lines (l : list string) (y : Z) : RM unit :=
  match l with
  | [] => mret tt
  | s :: l => _ ← put_string (chars s) 10 y; put_lines l (y + 1)
  end.

Definition show_page_fault (f : ErrorCodeInterruptFrame) (cr2 : Z) : RM unit :=
  _ ← title "PAGE FAULT";
  _ ← put_value "Instruction   (RIP): " put_hex (if_rip (ef_frame f)) 11;
  _ ← put_value "Stack pointer (RSP): " put_hex (if_rsp (ef_frame f)) 12;
  _ ← put_value "Page fault address: " put_hex cr2 13;
  _ ← put_string (chars "Page fault info: ") 10 15;
  put_lines (page_fault_info (ef_err f)) 16.

(** while (1); *)
Definition halt {S} (fuel : nat) : M S unit := loop fuel (λ _, mret (inl tt)) tt.

Definition frame_of {A} (f : option A) : RM A := of_option OutOfBounds f.

Definition unimplemented_exception (fuel : nat) (words : list Z) : RM unit :=
  f ← frame_of (read_frame words); _ ← show_unimplemented f; halt fuel.
Definition general_protection_fault (fuel : nat) (words : list Z) : RM unit :=
  f ← frame_of (read_error_frame words); _ ← show_general_protection f; halt fuel.
Definition page_fault (fuel : nat) (cr2 : Z) (words : list Z) : RM unit :=
  f ← frame_of (read_error_frame words); _ ← show_page_fault f cr2; halt fuel.

(** ** KERNEL_ASSERT

    The macro with assertions enabled. [file], [func] and [line] are what the preprocessor
    puts in. The components' models end at a failed assertion, with [AssertFailed];
    [kernel_assert_stops] is why. *)
Definition KERNEL_ASSERT (fuel : nat) (condition : bool) (str file func line : string) : RM unit :=
  if negb condition then
    _ ← clear_screen 0;
    _ ← set_fg_color 0xff0000;
    _ ← put_string (chars str) 0 0;
    x ← put_string (chars file ++ chars ":") 0 1;
    n ← put_string (chars func) x 1;
    _ ← put_string (chars ":L" ++ chars line) (u64 (x + n)) 1;
    halt fuel
  else mret tt.

(** ** The gates

    The addresses of the three handlers. *)
Section gates.
Context (unimplemented general page : Z).

Definition register_exception_interrupts : M cpu unit :=
  _ ← for_range 0 0x20 (λ i, register_interrupt i INTERRUPT_GATE false unimplemented);
  _ ← register_interrupt PAGE_FAULT INTERRUPT_GATE false page;
  register_interrupt GENERAL_PROTECTION_FAULT INTERRUPT_GATE false general.

Definition handler_of (i : Z) : Z :=
  if i =? GENERAL_PROTECTION_FAULT then general else if i =? PAGE_FAULT then page else unimplemented.

Lemma wp_register_interrupt irq type ist handler (Q : unit → cpu → Prop) c :
  Q tt (set_idt (insertZ irq (idt_gate type handler GDT_KERNEL_CODE_SEGMENT (if ist : bool then 1 else 0) 0) (cpu_idt c)) c) →
  wp (register_interrupt irq type ist handler) Q c.
Proof. intros HQ. unfold register_interrupt, set_idt_gate. by wp_step. Qed.

Lemma gate_offset_of type handler seg ist privilege : 0 ≤ handler < 2 ^ 64 → gate_offset (idt_gate type handler seg ist privilege) = handler.
Proof.
  intros H. unfold gate_offset, idt_gate. cbn [offset_0_15 offset_16_31 offset_32_63].
  change 0xffff with (Z.ones 16). change 0xffffffff with (Z.ones 32). rewrite !Z.land_ones, !Z.shiftr_div_pow2 by lia.
  rewrite (Z.mod_small (handler / 2 ^ 32)) by (split; [apply Z.div_pos; lia|apply Z.div_lt_upper_bound; lia]).
  rewrite <- (Z.rem_mul_r handler (2 ^ 16) (2 ^ 16)) by lia. change (2 ^ 16 * 2 ^ 16) with (2 ^ 32).
  rewrite Z.add_comm. symmetry. apply Z.div_mod. lia.
Qed.

(** After [register_exception_interrupts] each of the 32 exceptions has a present
    interrupt gate of the kernel's code segment that leads to its handler: page faults and
    general protection faults to their own, all others to the common one. The gates from
    32 on are as they were. *)
Theorem register_exceptions_spec c :
  (32 ≤ length (cpu_idt c))%nat → 0 ≤ unimplemented < 2 ^ 64 → 0 ≤ general < 2 ^ 64 → 0 ≤ page < 2 ^ 64 →
  wp register_exception_interrupts (λ _ c',
    (∀ i, 0 ≤ i < 32 → ∃ g, lookupZ (cpu_idt c') i = Some g ∧ gate_present g = true ∧ gate_offset g = handler_of i ∧
       selector g = GDT_KERNEL_CODE_SEGMENT ∧ gate_type g = INTERRUPT_GATE) ∧
    (∀ i, 32 ≤ i → lookupZ (cpu_idt c') i = lookupZ (cpu_idt c) i) ∧ cpu_gdt c' = cpu_gdt c ∧ cpu_interrupts c' = cpu_interrupts c) c.
Proof.
  intros Hlen Hu Hg Hp. set (gate h := idt_gate INTERRUPT_GATE h GDT_KERNEL_CODE_SEGMENT 0 0).
  unfold register_exception_interrupts. wp_step.
  apply (wp_for_range (λ n c', cpu_gdt c' = cpu_gdt c ∧ cpu_interrupts c' = cpu_interrupts c ∧ length (cpu_idt c') = length (cpu_idt c) ∧
    (∀ i, 0 ≤ i < n → lookupZ (cpu_idt c') i = Some (gate unimplemented)) ∧ ∀ i, 32 ≤ i → lookupZ (cpu_idt c') i = lookupZ (cpu_idt c) i)); [lia| | |].
  - split_and!; [done..|lia|done].
  - intros n c' Hn (H1 & H2 & H3 & H4 & H5). apply wp_register_interrupt. cbn [set_idt cpu_gdt cpu_interrupts cpu_idt].
    split_and!; [done|done|by rewrite length_insertZ| |].
    + intros i Hi. destruct (Z.eq_dec n i) as [->|Hne].
      * rewrite lookupZ_insertZ_eq; [done|]. apply lookupZ_is_Some. lia.
      * rewrite lookupZ_insertZ_ne by done. apply H4. lia.
    + intros i Hi. rewrite lookupZ_insertZ_ne by lia. by apply H5.
  - intros c' (H1 & H2 & H3 & H4 & H5). wp_step. apply wp_register_interrupt, wp_register_interrupt.
    cbn [set_idt cpu_gdt cpu_interrupts cpu_idt]. split_and!; [|by intros i Hi; rewrite !lookupZ_insertZ_ne by (unfold PAGE_FAULT, GENERAL_PROTECTION_FAULT; lia); apply H5|done|done].
    assert (∀ h, 0 ≤ h < 2 ^ 64 → gate_present (gate h) = true ∧ gate_offset (gate h) = h ∧ selector (gate h) = GDT_KERNEL_CODE_SEGMENT ∧
      gate_type (gate h) = INTERRUPT_GATE) as Hgate by (intros h Hh; split_and!; [done|by apply gate_offset_of|done|done]).
    intros i Hi. unfold handler_of. destruct (Z.eqb_spec i GENERAL_PROTECTION_FAULT) as [->|Hne1].
    + exists (gate general). split; [|by apply Hgate]. apply lookupZ_insertZ_eq, lookupZ_is_Some.
      rewrite length_insertZ. unfold GENERAL_PROTECTION_FAULT. lia.
    + rewrite lookupZ_insertZ_ne by done. destruct (Z.eqb_spec i PAGE_FAULT) as [->|Hne2].
      * exists (gate page). split; [|by apply Hgate]. apply lookupZ_insertZ_eq, lookupZ_is_Some. unfold PAGE_FAULT. lia.
      * rewrite lookupZ_insertZ_ne by done. exists (gate unimplemented). split; [|by apply Hgate]. by apply H4.
Qed.

(** *** What the handlers are given

    The exceptions for which the processor pushes an error code below the return
    address. *)
Definition pushes_error_code (i : Z) : bool := bool_decide (i ∈ [8; 10; 11; 12; 13; 14; 17]).
Definition pushed (i err : Z) (f : InterruptFrame) : list Z :=
  (if pushes_error_code i then [err] else []) ++ [if_rip f; if_cs f; if_flags f; if_rsp f; if_ss f].

(** The frame the handler of exception [i] reads and shows. *)
Definition shown_frame (i : Z) (words : list Z) : option InterruptFrame :=
  if (i =? GENERAL_PROTECTION_FAULT) || (i =? PAGE_FAULT)
  then match read_error_frame words with Some f => Some (ef_frame f) | None => None end
  else read_frame words.

(** The common handler is wrong about the exceptions that come with an error code: it shows
    the error code as the address of the instruction, and rflags as the stack pointer. *)
Theorem shown_frame_spec i err f :
  0 ≤ i < 32 →
  shown_frame i (pushed i err f) =
    if bool_decide (i ∈ [8; 10; 11; 12; 17])
    then Some {| if_rip := err; if_cs := if_rip f; if_flags := if_cs f; if_rsp := if_flags f; if_ss := if_rsp f |}
    else Some f.
Proof.
  intros Hi. assert (∃ n, i = Z.of_nat n ∧ (n < 32)%nat) as (n & -> & Hn) by (exists (Z.to_nat i); lia).
  destruct f as [rip cs flags rsp ss]. do 32 (destruct n as [|n]; [reflexivity|]). lia.
Qed.
End gates.

(** The handlers never return. *)
Lemma halt_never_returns_any {S} fuel (s : S) : halt fuel s = Fault OutOfFuel.
Proof. unfold halt. induction fuel as [|fuel IH]; [done|]. cbn [loop]. unfold mbind, M_bind. exact IH. Qed.

(** An assertion that holds changes nothing; one that fails never lets the code behind it
    run. *)
Lemma kernel_assert_stops fuel (condition : bool) str file func line s :
  if condition then KERNEL_ASSERT fuel condition str file func line s = Ok (tt, s)
  else ∀ r, KERNEL_ASSERT fuel condition str file func line s ≠ Ok r.
Proof.
  destruct condition; [done|]. intros r. unfold KERNEL_ASSERT. cbn [negb]. unfold mbind, M_bind.
  intros Hr. repeat (case_match; try done). match goal with H : halt _ _ = Ok _ |- _ => by rewrite halt_never_returns_any in H end.
Qed.
End Exceptions.
