(* ===== verification/Devices.v ===== *)
(** What the drivers see of the hardware: ports, registers of devices in memory, and the
    processor's model-specific registers. *)
From S2P Require Import Prelude.

Module Devices.

(** [mmio_read n a] is a volatile read of [n] bytes. The same state may hold the kernel's
    memory, so that mapping a device is an operation on it too. *)
Class Devices (D : Type) := {
  port_in_u8 : Z → M D Z;
  port_out_u8 : Z → Z → M D unit;
  mmio_read : nat → Z → M D Z;
  mmio_write : nat → Z → Z → M D unit;
  rdmsr : Z → M D Z;
  wrmsr : Z → Z → M D unit;
}.

(** A read-modify-write of a 32-bit register, [reg = f(reg)]. *)
Definition mmio_update {D} `{!Devices D} (a : Z) (f : Z → Z) : M D unit :=
  v ← mmio_read 4 a; mmio_write 4 a (u32 (f v)).

(** ** A board of plain registers

    Every register keeps what was written to it, by its address; a log of what was written
    where, the last write first. The simplest thing the drivers can run on. *)
Record board := {
  bd_registers : gmap Z Z;
  bd_msrs : gmap Z Z;
  bd_ports : gmap Z Z;
  bd_log : list (Z * Z);
}.

#[export] Instance board_devices : Devices board := {|
  port_in_u8 p d := Ok (default 0 (bd_ports d !! p), d);
  port_out_u8 p v d := Ok (tt, {| bd_registers := bd_registers d; bd_msrs := bd_msrs d;
    bd_ports := bd_ports d; bd_log := (p, v) :: bd_log d |});
  mmio_read n a d := Ok (wrap (8 * Z.of_nat n) (default 0 (bd_registers d !! a)), d);
  mmio_write n a v d := Ok (tt, {| bd_registers := <[a := v]> (bd_registers d); bd_msrs := bd_msrs d;
    bd_ports := bd_ports d; bd_log := (a, v) :: bd_log d |});
  rdmsr r d := Ok (default 0 (bd_msrs d !! r), d);
  wrmsr r v d := Ok (tt, {| bd_registers := bd_registers d; bd_msrs := <[r := v]> (bd_msrs d);
    bd_ports := bd_ports d; bd_log := bd_log d |});
|}.

Definition empty_board : board := {| bd_registers := ∅; bd_msrs := ∅; bd_ports := ∅; bd_log := [] |}.
End Devices.
