(* ===== verification/IoApic.v ===== *)
(** The I/O interrupt controllers' registers: the end of kernel/src/apic.c and the structs
    of kernel/include/apic.h it uses.

    A controller shows one register at a time: its number is written at the controller's
    address, its value is then found 16 bytes on. *)
From S2P Require Import Prelude Devices.

Module IoApic.
Import Devices.

Definition REDTBL_OFFSET (irq : Z) : Z := 2 * irq + 0x10.
(** ((num) & ((1U << (ub)) - (1U << (lb)))) >> (lb) *)
Definition GET_BITRANGE_VALUE (num lb ub : Z) : Z :=
  Z.shiftr (Z.land num (u32 (Z.shiftl 1 ub - Z.shiftl 1 lb))) lb.

(** The two halves of an entry of the redirection table. *)
Record IOREDTBLEntry := { lower_dword : Z; upper_dword : Z }.

(** The union's bit fields: position and width in the 64 bits. *)
Definition redtbl_bits (e : IOREDTBLEntry) : Z := lower_dword e + 2 ^ 32 * upper_dword e.
Definition redtbl_of (x : Z) : IOREDTBLEntry := {| lower_dword := x mod 2 ^ 32; upper_dword := x / 2 ^ 32 |}.
Definition redtbl_field (lo w : Z) (e : IOREDTBLEntry) : Z := get_bits lo w (redtbl_bits e).
Definition set_redtbl_field (lo w v : Z) (e : IOREDTBLEntry) : IOREDTBLEntry := redtbl_of (set_bits lo w v (redtbl_bits e)).
Definition vector := redtbl_field 0 8.
Definition delivery_mode := redtbl_field 8 3.
Definition mask := redtbl_field 16 1.
Definition destination := redtbl_field 56 8.
Definition set_vector := set_redtbl_field 0 8.
Definition set_delivery_mode := set_redtbl_field 8 3.
Definition set_mask := set_redtbl_field 16 1.
Definition set_destination := set_redtbl_field 56 8.

Section registers.
Context {D : Type} `{!Devices D}.

Definition read_ioapic_register (ioapic_address offset : Z) : M D Z :=
  _ ← mmio_write 4 ioapic_address offset; mmio_read 4 (ioapic_address + 0x10).

Definition write_ioapic_register (ioapic_address offset value : Z) : M D unit :=
  _ ← mmio_write 4 ioapic_address offset; mmio_write 4 (ioapic_address + 0x10) value.

Definition read_ioapic_id (ioapic_address : Z) : M D Z :=
  r0 ← read_ioapic_register ioapic_address 0; mret (GET_BITRANGE_VALUE r0 24 27).
Definition read_ioapic_version (ioapic_address : Z) : M D Z :=
  r1 ← read_ioapic_register ioapic_address 1; mret (GET_BITRANGE_VALUE r1 0 8).
Definition read_ioapic_mre (ioapic_address : Z) : M D Z :=
  r1 ← read_ioapic_register ioapic_address 1; mret (GET_BITRANGE_VALUE r1 16 24).

Definition read_redtable_entry (ioapic_address irq : Z) : M D IOREDTBLEntry :=
  let lower_offset := u8 (REDTBL_OFFSET irq) in
  let upper_offset := u8 (lower_offset + 1) in
  lower ← read_ioapic_register ioapic_address lower_offset;
  upper ← read_ioapic_register ioapic_address upper_offset;
  mret {| lower_dword := lower; upper_dword := upper |}.

Definition write_redtable_entry (ioapic_address irq : Z) (entry : IOREDTBLEntry) : M D unit :=
  let lower_offset := u8 (REDTBL_OFFSET irq) in
  let upper_offset := u8 (lower_offset + 1) in
  _ ← write_ioapic_register ioapic_address lower_offset (lower_dword entry);
  write_ioapic_register ioapic_address upper_offset (upper_dword entry).

(** What the controller at [base] does: it keeps a number and a file of registers, each
    with the bits that can be written; the others keep their value. *)
Class IoApicAt (base : Z) := {
  io_ok : D → Prop;
  io_selected : D → Z;
  io_register : D → Z → Z;
  io_writable : Z → Z;
  io_select : ∀ d off, io_ok d → 0 ≤ off < 256 →
    ∃ d', mmio_write 4 base off d = Ok (tt, d') ∧ io_ok d' ∧ io_selected d' = off ∧ ∀ o, io_register d' o = io_register d o;
  io_read : ∀ d, io_ok d → mmio_read 4 (base + 0x10) d = Ok (io_register d (io_selected d), d);
  io_write : ∀ d v, io_ok d →
    ∃ d', mmio_write 4 (base + 0x10) v d = Ok (tt, d') ∧ io_ok d' ∧
      ∀ o, io_register d' o = if decide (o = io_selected d)
        then Z.lor (Z.land v (io_writable o)) (Z.ldiff (io_register d o) (io_writable o)) else io_register d o;
}.

Context (base : Z) `{!IoApicAt base}.

Lemma wp_read_register off (Q : Z → D → Prop) d :
  io_ok d → 0 ≤ off < 256 →
  (∀ d', io_ok d' → (∀ o, io_register d' o = io_register d o) → Q (io_register d off) d') →
  wp (read_ioapic_register base off) Q d.
Proof.
  intros Hd Ho HQ. unfold read_ioapic_register. wp_step.
  destruct (io_select d off Hd Ho) as (d' & E & Hd' & Hs & Hr). exists tt, d'. split; [done|].
  exists (io_register d' (io_selected d')), d'. split; [by apply io_read|]. rewrite Hs, Hr. by apply HQ.
Qed.

(** What [o] holds after [v] was written to it. *)
Definition stored (d : D) (o v : Z) : Z := Z.lor (Z.land v (io_writable o)) (Z.ldiff (io_register d o) (io_writable o)).

Lemma wp_write_register off v (Q : unit → D → Prop) d :
  io_ok d → 0 ≤ off < 256 →
  (∀ d', io_ok d' → (∀ o, io_register d' o = if decide (o = off) then stored d o v else io_register d o) → Q tt d') →
  wp (write_ioapic_register base off v) Q d.
Proof.
  intros Hd Ho HQ. unfold write_ioapic_register. wp_step.
  destruct (io_select d off Hd Ho) as (d' & E & Hd' & Hs & Hr). exists tt, d'. split; [done|].
  destruct (io_write d' v Hd') as (d2 & E2 & Hd2 & Hr2). exists tt, d2. split; [done|]. apply HQ; [done|].
  intros o. rewrite Hr2, Hs. unfold stored. by rewrite !Hr.
Qed.

Definition entry_of (d : D) (irq : Z) : IOREDTBLEntry :=
  {| lower_dword := io_register d (REDTBL_OFFSET irq); upper_dword := io_register d (REDTBL_OFFSET irq + 1) |}.

(** [e] holds [entry] in the bits that can be written. *)
Definition agrees (irq : Z) (entry e : IOREDTBLEntry) : Prop :=
  Z.land (lower_dword e) (io_writable (REDTBL_OFFSET irq)) = Z.land (lower_dword entry) (io_writable (REDTBL_OFFSET irq)) ∧
  Z.land (upper_dword e) (io_writable (REDTBL_OFFSET irq + 1)) = Z.land (upper_dword entry) (io_writable (REDTBL_OFFSET irq + 1)).

Lemma land_stored d o v : Z.land (stored d o v) (io_writable o) = Z.land v (io_writable o).
Proof.
  unfold stored. apply Z.bits_inj'. intros n Hn. rewrite !Z.land_spec, Z.lor_spec, Z.ldiff_spec, Z.land_spec.
  destruct (Z.testbit (io_writable o) n); by rewrite ?andb_true_r, ?andb_false_r, ?orb_false_r.
Qed.

Lemma wp_read_redtable_entry irq (Q : IOREDTBLEntry → D → Prop) d :
  io_ok d → 0 ≤ irq < 120 →
  (∀ d', io_ok d' → (∀ o, io_register d' o = io_register d o) → Q (entry_of d irq) d') →
  wp (read_redtable_entry base irq) Q d.
Proof.
  intros Hd Hi HQ. unfold read_redtable_entry, entry_of, REDTBL_OFFSET in *.
  rewrite (wrap_small 8 (2 * irq + 16)), (wrap_small 8 (2 * irq + 16 + 1)) by lia.
  wp_step. apply wp_read_register; [done|lia|]. intros d1 Hd1 Hr1. wp_step.
  apply wp_read_register; [done|lia|]. intros d2 Hd2 Hr2. wp_step. rewrite Hr1. apply HQ; [done|].
  intros o. by rewrite Hr2, Hr1.
Qed.

Lemma wp_write_redtable_entry irq entry (Q : unit → D → Prop) d :
  io_ok d → 0 ≤ irq < 120 →
  (∀ d', io_ok d' → agrees irq entry (entry_of d' irq) →
     (∀ o, o ≠ REDTBL_OFFSET irq → o ≠ REDTBL_OFFSET irq + 1 → io_register d' o = io_register d o) → Q tt d') →
  wp (write_redtable_entry base irq entry) Q d.
Proof.
  intros Hd Hi HQ. unfold write_redtable_entry, agrees, entry_of, REDTBL_OFFSET in *.
  rewrite (wrap_small 8 (2 * irq + 16)), (wrap_small 8 (2 * irq + 16 + 1)) by lia.
  wp_step. apply wp_write_register; [done|lia|]. intros d1 Hd1 Hr1.
  apply wp_write_register; [done|lia|]. intros d2 Hd2 Hr2. apply HQ; [done| |].
  - cbn [lower_dword upper_dword]. rewrite !Hr2, Hr1. rewrite decide_False, decide_True, decide_True by lia.
    split; apply land_stored.
  - intros o H1 H2. by rewrite Hr2, decide_False, Hr1, decide_False by done.
Qed.

(** An entry of the redirection table that is written is read back the same in every
    bit that can be written, and no other register of the controller changes. *)
Theorem redtable_roundtrip irq entry d :
  io_ok d → 0 ≤ irq < 120 →
  wp (_ ← write_redtable_entry base irq entry; read_redtable_entry base irq) (λ e d',
    agrees irq entry e ∧
    ∀ o, o ≠ REDTBL_OFFSET irq → o ≠ REDTBL_OFFSET irq + 1 → io_register d' o = io_register d o) d.
Proof.
  intros Hd Hi. wp_step. apply wp_write_redtable_entry; [done..|]. intros d1 Hd1 Ha Hr1.
  apply wp_read_redtable_entry; [done..|]. intros d2 Hd2 Hr2. split; [done|]. intros o H1 H2. by rewrite Hr2, Hr1.
Qed.
End registers.

(** The identifier [read_ioapic_id] returns has three bits: bit 27 of the register,
    the fourth bit of the identifier, is lost. *)
Theorem ioapic_id_truncated r : GET_BITRANGE_VALUE r 24 27 = get_bits 24 3 r.
Proof.
  apply Z.bits_inj'. intros i Hi. unfold GET_BITRANGE_VALUE. rewrite testbit_get_bits, Z.shiftr_spec, Z.land_spec by lia.
  change (u32 (Z.shiftl 1 27 - Z.shiftl 1 24)) with (Z.shiftl (Z.ones 3) 24). rewrite Z.shiftl_spec by lia.
  replace (i + 24 - 24) with i by lia. by rewrite testbit_ones by lia.
Qed.

Lemma redtbl_of_bits x : redtbl_bits (redtbl_of x) = x.
Proof. unfold redtbl_bits, redtbl_of. cbn. pose proof (Z.div_mod x (2 ^ 32)). lia. Qed.

Lemma redtbl_field_set lo w v e : 0 ≤ lo → 0 ≤ w → redtbl_field lo w (set_redtbl_field lo w v e) = wrap w v.
Proof. intros. unfold redtbl_field, set_redtbl_field. rewrite redtbl_of_bits. by apply get_set_bits_eq. Qed.

Lemma redtbl_field_set_ne lo w v e lo' w' :
  0 ≤ lo → 0 ≤ w → 0 ≤ lo' → 0 ≤ w' → lo' + w' ≤ lo ∨ lo + w ≤ lo' →
  redtbl_field lo' w' (set_redtbl_field lo w v e) = redtbl_field lo' w' e.
Proof. intros. unfold redtbl_field, set_redtbl_field. rewrite redtbl_of_bits. by apply get_set_bits_ne. Qed.
End IoApic.
