(* ===== verification/Acpi.v ===== *)
(** The tables of the firmware: kernel/src/acpi.c.

    The tables lie in memory that is mapped piece by piece; [ac_memory] is what is mapped,
    by virtual address. A signature is the list of its characters, so that memcmp with one
    is equality of the bytes at the address. *)
From S2P Require Import Prelude Util.

Module Acpi.
Import Util.

Definition sizeof_ACPISDTHeader : Z := 36.

Record ACPIMemRemap := { rm_phys : Z; rm_virt : Z; rm_size : Z }.

Record acpi := {
  ac_memory : gmap Z Z;
  ac_xsdt : Z;
  ac_remap_list : list ACPIMemRemap;
}.

Abbreviation CM := (M acpi).

Definition load_byte (a : Z) : CM Z :=
  b ← gets (λ s, ac_memory s !! a); of_option (BadPointer a) b.

Fixpoint load_bytes (a : Z) (n : nat) : CM (list Z) :=
  match n with
  | O => mret []
  | S n => b ← load_byte a; l ← load_bytes (a + 1) n; mret (b :: l)
  end.

Definition load_le (a : Z) (n : nat) : CM Z := l ← load_bytes a n; mret (le_value l).

(** [header->length] *)
Definition table_length (sdt : Z) : CM Z := load_le (sdt + 4) 4.

(** sum += bytes[i], in a uint8_t *)
Fixpoint sum_bytes (n : nat) (a sum : Z) : CM Z :=
  match n with
  | O => mret sum
  | S n => b ← load_byte a; sum_bytes n (a + 1) (u8 (sum + b))
  end.

Definition sdt_is_valid (sdt : Z) (signature : list Z) : CM bool :=
  sig ← load_bytes sdt 4;
  if bool_decide (sig = signature) then
    length ← table_length sdt;
    sum ← sum_bytes (Z.to_nat length) sdt 0;
    mret (sum =? 0)
  else mret false.

Fixpoint find_remap (l : list ACPIMemRemap) (physical : Z) : Z :=
  match l with
  | [] => 0
  | e :: l =>
      if range_contains physical (rm_phys e) (rm_size e)
      then u64 (u64 (rm_virt e - rm_phys e) + physical) else find_remap l physical
  end.

Definition get_virtual_acpi_address (physical : Z) : CM Z :=
  gets (λ s, find_remap (ac_remap_list s) physical).

(** The loop of [find_table] over the [n] entries from number [i] on. *)
Fixpoint find_entry (signature : list Z) (n : nat) (i : Z) : CM Z :=
  match n with
  | O => mret 0
  | S n =>
      xsdt ← gets ac_xsdt;
      physical ← load_le (xsdt + sizeof_ACPISDTHeader + 8 * i) 8;
      header ← get_virtual_acpi_address physical;
      sig ← load_bytes header 4;
      if bool_decide (sig = signature) then mret header else find_entry signature n (i + 1)
  end.

Definition find_table (signature : list Z) : CM Z :=
  xsdt ← gets ac_xsdt;
  length ← table_length xsdt;
  find_entry signature (Z.to_nat (u64 (length - sizeof_ACPISDTHeader) / 8)) 0.

Definition is_acpi (t : UEFIMemoryType) : bool :=
  match t with EfiACPIMemoryNVS | EfiACPIReclaimMemory => true | _ => false end.

Section prepare.
Context {S : Type} `{!Part acpi S} (kalloc : Z → M S Z) (kmap_phys_range : Z → Z → Z → M S Z).

Definition add_remap (e : ACPIMemRemap) : CM unit :=
  modify (λ s, {| ac_memory := ac_memory s; ac_xsdt := ac_xsdt s; ac_remap_list := ac_remap_list s ++ [e] |}).

(** The loop that maps the ranges and notes where. *)
Fixpoint store_remaps (memory_map : list UEFIMemoryDescriptor) : M S unit :=
  match memory_map with
  | [] => mret tt
  | desc :: memory_map =>
      _ ← (if is_acpi (md_type desc) then
             virt ← kmap_phys_range (md_physical_start desc) (md_num_pages desc) 0;
             on_part (add_remap {| rm_phys := md_physical_start desc; rm_virt := virt;
                                   rm_size := u64 (md_num_pages desc * PAGE_SIZE) |})
           else mret tt);
      store_remaps memory_map
  end.

Definition prepare_acpi_memory (memory_map : list UEFIMemoryDescriptor) : M S unit :=
  let entry_count := Z.of_nat (length (filter (λ d, is_acpi (md_type d) = true) memory_map)) in
  list ← kalloc (entry_count * 24);
  _ ← kernel_assert (negb (list =? 0)) "Out of memory";
  store_remaps memory_map.
End prepare.

(** "RSD PTR " and "XSDT" *)
Definition RSDP_SIGNATURE : list Z := [82; 83; 68; 32; 80; 84; 82; 32].
Definition XSDT_SIGNATURE : list Z := [88; 83; 68; 84].

Definition set_xsdt (a : Z) : CM unit :=
  modify (λ s, {| ac_memory := ac_memory s; ac_xsdt := a; ac_remap_list := ac_remap_list s |}).

Definition initialize_acpi (rsdp_ptr : Z) : CM unit :=
  rsdp ← get_virtual_acpi_address rsdp_ptr;
  _ ← kernel_assert (negb (rsdp =? 0)) "RSDP VIRTUAL ADDRESS NOT FOUND";
  sig ← load_bytes rsdp 8;
  _ ← kernel_assert (bool_decide (sig = RSDP_SIGNATURE)) "INVALID RSDP SIGNATURE";
  sum ← sum_bytes 20 rsdp 0;
  _ ← kernel_assert (sum =? 0) "INVALID RSDP";
  sum ← sum_bytes 16 (rsdp + 20) sum;
  _ ← kernel_assert (sum =? 0) "INVALID RSDP";
  xsdt_phys_addr ← load_le (rsdp + 24) 8;
  xsdt ← get_virtual_acpi_address xsdt_phys_addr;
  _ ← set_xsdt xsdt;
  _ ← kernel_assert (negb (xsdt =? 0)) "XSDT VIRTUAL ADDRESS NOT FOUND";
  valid_xsdt ← sdt_is_valid xsdt XSDT_SIGNATURE;
  kernel_assert valid_xsdt "INVALID XSDT".

(** ** Tables in memory *)

Definition bytes_at (m : gmap Z Z) (a : Z) (l : list Z) : Prop :=
  ∀ i b, l !! i = Some b → m !! (a + Z.of_nat i) = Some b.

Definition sum_of (l : list Z) : Z := foldr Z.add 0 l.

(** A table the standard accepts: its length field is its length and its bytes add up to 0
    modulo 256. *)
Record table_ok (signature l : list Z) : Prop := {
  to_bytes : Forall is_byte l;
  to_size : sizeof_ACPISDTHeader ≤ Z.of_nat (length l);
  to_signature : take 4 l = signature;
  to_length : le_value (take 4 (drop 4 l)) = Z.of_nat (length l);
  to_sum : sum_of l mod 256 = 0;
}.

Section tables.
Implicit Types s : acpi.

Lemma bytes_at_app m a l l' :
  bytes_at m a (l ++ l') ↔ bytes_at m a l ∧ bytes_at m (a + Z.of_nat (length l)) l'.
Proof.
  split.
  - intros Hb. split; intros i b Hi; [apply Hb; by apply lookup_app_l_Some|].
    rewrite <- Z.add_assoc, <- Nat2Z.inj_add. apply Hb. by rewrite lookup_app_r, Nat.add_sub' by lia.
  - intros [Hl Hr] i b [Hi|[Hge Hi]]%lookup_app_Some; [by apply Hl|]. specialize (Hr _ _ Hi). rewrite <- Hr. f_equal. lia.
Qed.

Lemma bytes_at_take_drop m a l i n : bytes_at m a l → bytes_at m (a + Z.of_nat i) (take n (drop i l)).
Proof.
  intros Hb j b [Hj _]%lookup_take_Some. rewrite lookup_drop in Hj. rewrite <- Z.add_assoc, <- Nat2Z.inj_add. by apply Hb.
Qed.

Lemma wp_load_byte a b (Q : Z → acpi → Prop) s : ac_memory s !! a = Some b → Q b s → wp (load_byte a) Q s.
Proof. intros Hb HQ. unfold load_byte. do 2 wp_step. by wp_step. Qed.

Lemma wp_load_bytes a n l (Q : list Z → acpi → Prop) s :
  length l = n → bytes_at (ac_memory s) a l → Q l s → wp (load_bytes a n) Q s.
Proof.
  intros <-. revert a Q. induction l as [|b l IH]; intros a Q Hl HQ; cbn [load_bytes length]; [by wp_step|].
  wp_step. eapply wp_load_byte; [specialize (Hl 0%nat b eq_refl); by rewrite Z.add_0_r in Hl|].
  wp_step. apply IH; [|by wp_step]. intros i x Hi. specialize (Hl (S i) x Hi). rewrite <- Hl. f_equal. lia.
Qed.

Lemma wp_load_le a n l (Q : Z → acpi → Prop) s :
  length l = n → bytes_at (ac_memory s) a l → Q (le_value l) s → wp (load_le a n) Q s.
Proof. intros Hn Hl HQ. unfold load_le. wp_step. eapply wp_load_bytes; [done..|]. by wp_step. Qed.

Lemma wp_sum_bytes n a l sum (Q : Z → acpi → Prop) s :
  length l = n → bytes_at (ac_memory s) a l → Q (if decide (n = 0%nat) then sum else u8 (sum + sum_of l)) s →
  wp (sum_bytes n a sum) Q s.
Proof.
  intros <-. revert a sum. induction l as [|b l IH]; intros a sum Hl HQ; cbn [sum_bytes length]; [by wp_step|].
  wp_step. eapply wp_load_byte; [specialize (Hl 0%nat b eq_refl); by rewrite Z.add_0_r in Hl|].
  apply IH; [intros i x Hi; specialize (Hl (S i) x Hi); rewrite <- Hl; f_equal; lia|].
  cbn [length sum_of foldr] in HQ. fold (sum_of l) in HQ. rewrite decide_False in HQ by done.
  case_decide as Hd.
  - destruct l; [|done]. by rewrite Z.add_0_r in HQ.
  - unfold wrap in *. rewrite Zplus_mod_idemp_l. by replace (sum + b + sum_of l) with (sum + (b + sum_of l)) by lia.
Qed.

(** Whether the table at [sdt] is accepted, when its bytes are [l]. *)
Lemma wp_sdt_is_valid sdt signature l (Q : bool → acpi → Prop) s :
  bytes_at (ac_memory s) sdt l → Forall is_byte l → sizeof_ACPISDTHeader ≤ Z.of_nat (length l) →
  le_value (take 4 (drop 4 l)) = Z.of_nat (length l) →
  Q (bool_decide (take 4 l = signature) && (sum_of l mod 256 =? 0)) s →
  wp (sdt_is_valid sdt signature) Q s.
Proof.
  intros Hl Hb Hs Hlen HQ. unfold sizeof_ACPISDTHeader in Hs. unfold sdt_is_valid. wp_step.
  apply (wp_load_bytes sdt 4 (take 4 l)).
  { rewrite length_take. lia. }
  { intros i b [Hi _]%lookup_take_Some. by apply Hl. }
  case_bool_decide; [|by wp_step]. wp_step. apply (wp_load_le (sdt + 4) 4 (take 4 (drop 4 l))).
  { rewrite length_take, length_drop. lia. }
  { change 4 with (Z.of_nat 4). by apply bytes_at_take_drop. }
  rewrite Hlen, Nat2Z.id. wp_step. eapply wp_sum_bytes; [done|done|]. wp_step.
  rewrite decide_False by lia. by rewrite Z.add_0_l.
Qed.
(** What [find_table] returns for tables at the virtual addresses and with the signatures
    of the list. *)
Definition first_table (signature : list Z) (tables : list (Z * list Z)) : Z :=
  match find_split (λ t, bool_decide (t.2 = signature)) tables with
  | Some (_, t, _) => t.1
  | None => 0
  end.

(** The root table has bytes [l] and one entry for each of [tables], whose memory can be
    read at the address its entry translates to. *)
Record root_table s (l : list Z) (tables : list (Z * list Z)) : Prop := {
  rt_bytes : bytes_at (ac_memory s) (ac_xsdt s) l;
  rt_byte : Forall is_byte l;
  rt_size : Z.of_nat (length l) = sizeof_ACPISDTHeader + 8 * Z.of_nat (length tables);
  rt_length : le_value (take 4 (drop 4 l)) = Z.of_nat (length l);
  rt_tables : ∀ i t, tables !! i = Some t →
    find_remap (ac_remap_list s) (le_value (take 8 (drop (36 + 8 * i) l))) = t.1 ∧
    length t.2 = 4%nat ∧ bytes_at (ac_memory s) t.1 t.2;
}.

Lemma wp_find_entry signature l tables k (Q : Z → acpi → Prop) s :
  root_table s l tables → Q (first_table signature (drop k tables)) s →
  wp (find_entry signature (length tables - k) (Z.of_nat k)) Q s.
Proof.
  intros Hr. remember (length tables - k)%nat as n eqn:En. revert k En. induction n as [|n IH]; intros k En HQ; cbn [find_entry].
  { rewrite drop_ge in HQ by lia. by wp_step. }
  destruct (lookup_lt_is_Some_2 tables k) as [t Ht]; [lia|]. destruct (rt_tables _ _ _ Hr k t Ht) as (Hm & Hlen & Hb).
  rewrite (drop_S _ t) in HQ by done. do 2 wp_step. pose proof (rt_size _ _ _ Hr) as Hsz. unfold sizeof_ACPISDTHeader in *.
  wp_step. apply (wp_load_le _ 8 (take 8 (drop (36 + 8 * k) l))).
  { rewrite length_take, length_drop. lia. }
  { replace (ac_xsdt s + 36 + 8 * Z.of_nat k) with (ac_xsdt s + Z.of_nat (36 + 8 * k)) by lia.
    apply bytes_at_take_drop, Hr. }
  wp_step. unfold get_virtual_acpi_address. wp_step. rewrite Hm. wp_step. eapply wp_load_bytes; [done|done|].
  unfold first_table in HQ. cbn [find_split] in HQ. case_bool_decide as E; [by wp_step|].
  replace (Z.of_nat k + 1) with (Z.of_nat (S k)) by lia. apply IH; [lia|]. unfold first_table.
  by destruct (find_split _ (drop (S k) tables)) as [[[? ?] ?]|].
Qed.

(** [find_table] returns the address of the first table of the root table, in its
    order, that has the signature, and the null pointer when there is none. *)
Theorem find_table_spec signature l tables s :
  root_table s l tables → find_table signature s = Ok (first_table signature tables, s).
Proof.
  intros Hr. apply wp_eq. unfold find_table. do 2 wp_step.
  pose proof (rt_size _ _ _ Hr) as Hsz. pose proof (rt_length _ _ _ Hr) as Hlen. unfold sizeof_ACPISDTHeader in *.
  wp_step. apply (wp_load_le _ 4 (take 4 (drop 4 l))).
  { rewrite length_take, length_drop. lia. }
  { change 4 with (Z.of_nat 4). apply bytes_at_take_drop, Hr. }
  assert (le_value (take 4 (drop 4 l)) < 2 ^ 32) as Hlt.
  { pose proof (le_value_range (take 4 (drop 4 l))) as Hv. rewrite length_take, length_drop in Hv.
    replace (4 `min` (length l - 4))%nat with 4%nat in Hv by lia. apply Hv, Forall_take, Forall_drop, Hr. }
  rewrite Hlen, Hsz in *. rewrite wrap_small by lia.
  replace (36 + 8 * Z.of_nat (length tables) - 36) with (Z.of_nat (length tables) * 8) by lia.
  rewrite Z.div_mul, Nat2Z.id by lia. replace (length tables) with (length tables - 0)%nat by lia.
  by apply (wp_find_entry signature l tables 0).
Qed.

(** What the standard asks of the root pointer, bytes [r], and of the root table, bytes
    [l]: its two checksums and signatures. *)
Definition firmware_tables_ok (r l : list Z) : Prop :=
  take 8 r = RSDP_SIGNATURE ∧ sum_of (take 20 r) mod 256 = 0 ∧ sum_of r mod 256 = 0 ∧
  take 4 l = XSDT_SIGNATURE ∧ sum_of l mod 256 = 0.
#[export] Instance firmware_tables_ok_dec r l : Decision (firmware_tables_ok r l).
Proof. unfold firmware_tables_ok. apply _. Defined.

Lemma sum_of_app l l' : sum_of (l ++ l') = sum_of l + sum_of l'.
Proof. unfold sum_of. induction l as [|x l IH]; cbn; lia. Qed.

(** The root pointer can be read at [rsdp] and its table at [xsdt]. *)
Record tables_mapped s (rsdp_ptr : Z) (r : list Z) (rsdp xsdt : Z) (l : list Z) : Prop := {
  tm_rsdp : find_remap (ac_remap_list s) rsdp_ptr = rsdp ∧ rsdp ≠ 0;
  tm_r : bytes_at (ac_memory s) rsdp r ∧ length r = 36%nat;
  tm_xsdt : find_remap (ac_remap_list s) (le_value (take 8 (drop 24 r))) = xsdt ∧ xsdt ≠ 0;
  tm_l : bytes_at (ac_memory s) xsdt l ∧ Forall is_byte l;
  tm_size : sizeof_ACPISDTHeader ≤ Z.of_nat (length l);
  tm_length : le_value (take 4 (drop 4 l)) = Z.of_nat (length l);
}.

Lemma acpi_load_bytes_eq a n l s : length l = n → bytes_at (ac_memory s) a l → load_bytes a n s = Ok (l, s).
Proof. intros Hn Hl. apply wp_eq. by eapply wp_load_bytes. Qed.

Lemma sum_bytes_eq n a l sum s :
  length l = S n → bytes_at (ac_memory s) a l → sum_bytes (S n) a sum s = Ok (u8 (sum + sum_of l), s).
Proof. intros Hn Hl. apply wp_eq. by eapply wp_sum_bytes. Qed.

(** C27: [initialize_acpi] ends normally exactly when the signatures and checksums of the
    root pointer and of the root table are right, with the root table's address noted;
    otherwise an assertion fails. *)
Theorem initialize_acpi_spec rsdp_ptr r rsdp xsdt l s :
  tables_mapped s rsdp_ptr r rsdp xsdt l →
  match initialize_acpi rsdp_ptr s with
  | Ok (_, s') => firmware_tables_ok r l ∧
      s' = {| ac_memory := ac_memory s; ac_xsdt := xsdt; ac_remap_list := ac_remap_list s |}
  | Fault f => ¬ firmware_tables_ok r l ∧ ∃ msg, f = AssertFailed msg
  end.
Proof.
  intros [[Hp Hp0] [Hr Hr36] [Hx Hx0] [Hl Hlb] Hsz Hlen]. unfold firmware_tables_ok, initialize_acpi.
  assert (∀ i n, (i + n ≤ 36)%nat → load_bytes (rsdp + Z.of_nat i) n s = Ok (take n (drop i r), s)) as Hload.
  { intros i n Hi. apply acpi_load_bytes_eq; [rewrite length_take, length_drop; lia|by apply bytes_at_take_drop]. }
  pose proof (Hload 0%nat 8%nat ltac:(lia)) as H8. rewrite Z.add_0_r, drop_0 in H8.
  pose proof (Hload 24%nat 8%nat ltac:(lia)) as H24.
  assert (bytes_at (ac_memory s) rsdp (take 20 r)) as Hb1 by (intros i b [Hi _]%lookup_take_Some; by apply Hr).
  assert (bytes_at (ac_memory s) (rsdp + 20) (drop 20 r)) as Hb2.
  { intros i b Hi. rewrite lookup_drop in Hi. specialize (Hr _ _ Hi). rewrite <- Hr. f_equal. lia. }
  assert (sum_bytes 20 rsdp 0 s = Ok (sum_of (take 20 r) mod 256, s)) as E20.
  { rewrite (sum_bytes_eq 19 rsdp (take 20 r)); [done|rewrite length_take; lia|done]. }
  assert (∀ x, sum_bytes 16 (rsdp + 20) x s = Ok (u8 (x + sum_of (drop 20 r)), s)) as E16.
  { intros x. apply sum_bytes_eq; [rewrite length_drop; lia|done]. }
  assert (sum_of r = sum_of (take 20 r) + sum_of (drop 20 r)) as Esum by (by rewrite <- sum_of_app, take_drop).
  unfold mbind, M_bind, get_virtual_acpi_address, gets. rewrite Hp. unfold kernel_assert.
  replace (rsdp =? 0) with false by lia. cbn [negb]. unfold mret, M_ret. rewrite H8.
  case_bool_decide as E8; [|split; [tauto|by eexists]]. rewrite E20.
  destruct (Z.eqb_spec (sum_of (take 20 r) mod 256) 0) as [E0|E0]; [|split; [tauto|by eexists]].
  rewrite E0, E16, Z.add_0_l. unfold wrap. change (2 ^ 8) with 256.
  assert (sum_of r mod 256 = sum_of (drop 20 r) mod 256) as Es.
  { rewrite Esum, Z.add_mod, E0 by lia. by rewrite Z.add_0_l, Zmod_mod. }
  rewrite <- Es. destruct (Z.eqb_spec (sum_of r mod 256) 0) as [Er|Er]; [|split; [tauto|by eexists]].
  unfold load_le, mbind, M_bind. change 24 with (Z.of_nat 24). rewrite H24. unfold mret, M_ret. rewrite Hx.
  unfold set_xsdt, modify. replace (xsdt =? 0) with false by lia. cbn [negb]. unfold mret, M_ret.
  set (s' := {| ac_xsdt := xsdt |}).
  assert (sdt_is_valid xsdt XSDT_SIGNATURE s' = Ok (bool_decide (take 4 l = XSDT_SIGNATURE) && (sum_of l mod 256 =? 0), s')) as ->.
  { apply wp_eq. by eapply wp_sdt_is_valid. }
  destruct (bool_decide_reflect (take 4 l = XSDT_SIGNATURE)); [|split; [tauto|by eexists]].
  destruct (Z.eqb_spec (sum_of l mod 256) 0); [|split; [tauto|by eexists]]. done.
Qed.
End tables.

(** ** Addresses *)

Section addresses.
Context {S : Type} `{!Part acpi S, !PartLaws acpi S}.
Context (kmap_phys_range : Z → Z → Z → M S Z) (kalloc : Z → M S Z) (virt : Z → Z).

(** [kmap_phys_range] maps a range at [virt] of its start, [kalloc] finds memory, and neither
    touches the list of mapped ranges. *)
Hypothesis kmap_ok : ∀ phys pages s, ∃ s',
  kmap_phys_range phys pages 0 s = Ok (virt phys, s') ∧ ac_remap_list (part_of s') = ac_remap_list (part_of s).
Hypothesis kalloc_ok : ∀ n s, ∃ p s',
  kalloc n s = Ok (p, s') ∧ p ≠ 0 ∧ ac_remap_list (part_of s') = ac_remap_list (part_of s).

Definition remap_of (d : UEFIMemoryDescriptor) : ACPIMemRemap :=
  {| rm_phys := md_physical_start d; rm_virt := virt (md_physical_start d); rm_size := u64 (md_num_pages d * PAGE_SIZE) |}.
Definition acpi_ranges (map : list UEFIMemoryDescriptor) : list UEFIMemoryDescriptor :=
  filter (λ d, is_acpi (md_type d) = true) map.

(** A range of whole pages below the top of the address space. *)
Definition descriptor_ok (d : UEFIMemoryDescriptor) : Prop :=
  0 ≤ md_physical_start d ∧ 0 ≤ md_num_pages d ∧ md_physical_start d + md_num_pages d * PAGE_SIZE < 2 ^ 64.
Definition in_descriptor (d : UEFIMemoryDescriptor) (p : Z) : Prop :=
  md_physical_start d ≤ p < md_physical_start d + md_num_pages d * PAGE_SIZE.

Lemma store_remaps_eq map s :
  ∃ s', store_remaps kmap_phys_range map s = Ok (tt, s') ∧
    ac_remap_list (part_of s') = ac_remap_list (part_of s) ++ (remap_of <$> acpi_ranges map).
Proof.
  revert s. induction map as [|d map IH]; intros s; cbn [store_remaps].
  - exists s. by rewrite app_nil_r.
  - unfold mbind, M_bind. unfold acpi_ranges. rewrite filter_cons. destruct (is_acpi (md_type d)) eqn:E.
    + destruct (kmap_ok (md_physical_start d) (md_num_pages d) s) as (s1 & -> & E1). unfold on_part, add_remap, modify.
      edestruct IH as (s2 & E2 & E3). exists s2. split; [exact E2|]. rewrite E3, part_of_with, E1. cbn [ac_remap_list].
      rewrite decide_True by done. cbn [fmap list_fmap]. by rewrite <- app_assoc.
    + unfold mret, M_ret. destruct (IH s) as (s' & -> & E'). exists s'. by rewrite decide_False by done.
Qed.

Lemma find_remap_in ds d p :
  Forall descriptor_ok ds → (∀ d', d' ∈ ds → in_descriptor d' p → d' = d) → d ∈ ds → in_descriptor d p →
  find_remap (remap_of <$> ds) p = u64 (virt (md_physical_start d) + (p - md_physical_start d)).
Proof.
  induction ds as [|d' ds IH]; intros Hok Huniq Hd Hp; [by apply not_elem_of_nil in Hd|].
  apply Forall_cons in Hok as [Hd' Hok]. cbn [fmap list_fmap find_remap]. destruct Hd' as (H0 & H1 & H2).
  cbn [rm_phys rm_size rm_virt remap_of]. unfold PAGE_SIZE in *. rewrite (wrap_small 64 (_ * _)) by lia.
  destruct (range_contains _ _ _) eqn:E; rewrite ?(range_contains_iff p) in E by lia.
  - rewrite (Huniq d' (list_elem_of_here _ _)) by (unfold in_descriptor, PAGE_SIZE; lia).
    unfold wrap. rewrite Zplus_mod_idemp_l. f_equal. lia.
  - apply elem_of_cons in Hd as [->|Hd].
    + exfalso. apply not_true_iff_false in E. apply E, range_contains_iff; [lia..|]. exact Hp.
    + apply IH; [done| |done|done]. intros d1 Hd1. apply Huniq. by apply list_elem_of_further.
Qed.

Lemma find_remap_out ds p :
  Forall descriptor_ok ds → (∀ d, d ∈ ds → ¬ in_descriptor d p) → find_remap (remap_of <$> ds) p = 0.
Proof.
  induction ds as [|d ds IH]; intros Hok Hout; [done|]. apply Forall_cons in Hok as [(H0 & H1 & H2) Hok].
  cbn [fmap list_fmap find_remap rm_phys rm_size remap_of]. unfold PAGE_SIZE in *. rewrite (wrap_small 64 (_ * _)) by lia.
  destruct (range_contains _ _ _) eqn:E; rewrite ?range_contains_iff in E by lia.
  - exfalso. apply (Hout d (list_elem_of_here _ _)). unfold in_descriptor, PAGE_SIZE. lia.
  - apply IH; [done|]. intros d' Hd'. apply Hout. by apply list_elem_of_further.
Qed.

(** C28: Once [prepare_acpi_memory] has run over a memory map whose ACPI ranges do not
    overlap, [get_virtual_acpi_address] takes every address of an ACPI range to the same
    offset in the virtual range it was mapped at, and every other address to null. *)
Theorem acpi_address_translation map s :
  Forall descriptor_ok map → ac_remap_list (part_of s) = [] →
  (∀ d d' p, d ∈ acpi_ranges map → d' ∈ acpi_ranges map → in_descriptor d p → in_descriptor d' p → d' = d) →
  wp (prepare_acpi_memory kalloc kmap_phys_range map) (λ _ s', ∀ p,
    (∀ d, d ∈ acpi_ranges map → in_descriptor d p →
       get_virtual_acpi_address p (part_of s') = Ok (u64 (virt (md_physical_start d) + (p - md_physical_start d)), part_of s')) ∧
    ((∀ d, d ∈ acpi_ranges map → ¬ in_descriptor d p) → get_virtual_acpi_address p (part_of s') = Ok (0, part_of s'))) s.
Proof.
  intros Hok Hs Hdisj. unfold prepare_acpi_memory. wp_step.
  destruct (kalloc_ok (Z.of_nat (length (acpi_ranges map)) * 24) s) as (l & s1 & Hl & Hl0 & E1). exists l, s1. split; [done|].
  wp_step. wp_step; [by replace (l =? 0) with false by lia|].
  destruct (store_remaps_eq map s1) as (s2 & Hm & E2). exists tt, s2. split; [exact Hm|]. rewrite E1, Hs in E2. cbn [app] in E2.
  assert (Forall descriptor_ok (acpi_ranges map)) as Hok'.
  { apply Forall_forall. intros d [_ Hd]%list_elem_of_filter. by rewrite Forall_forall in Hok; apply Hok. }
  intros p. unfold get_virtual_acpi_address, gets. rewrite E2. split.
  - intros d Hd Hp. rewrite (find_remap_in _ d); [done..| |done|done]. intros d' Hd' Hp'. by apply (Hdisj d d' p).
  - intros Hout. by rewrite find_remap_out.
Qed.
End addresses.
End Acpi.
