(* ===== verification/AcpiExamples.v ===== *)
(** The theorems of Acpi.v at concrete tables: a root pointer, a root table with two
    entries, and the two tables they name. *)
From S2P Require Import Prelude Util Acpi.

Module AcpiExamples.
Import Util Acpi.

Lemma bytes_at_check m a l :
  forallb (λ i, bool_decide (m !! (a + Z.of_nat i) = l !! i)) (seq 0 (length l)) = true → bytes_at m a l.
Proof.
  intros Hc i b Hi. rewrite forallb_forall in Hc. pose proof (lookup_lt_Some _ _ _ Hi).
  specialize (Hc i ltac:(apply in_seq; lia)). apply bool_decide_eq_true in Hc. by rewrite Hc.
Qed.

(** The byte that makes a table add up to 0, at position [i]. *)
Definition with_checksum (i : nat) (l : list Z) : list Z := <[i := (- sum_of l) mod 256]> l.

Definition virt (phys : Z) : Z := phys + 0xfffff00000000000.
Definition acpi_base : Z := 0x1000.

Definition xsdt_bytes : list Z :=
  with_checksum 9 (XSDT_SIGNATURE ++ le_bytes 4 52 ++ replicate 28 0 ++ le_bytes 8 0x1200 ++ le_bytes 8 0x1300).
Definition rsdp_bytes : list Z :=
  with_checksum 32 (with_checksum 8 (RSDP_SIGNATURE ++ replicate 8 0) ++ replicate 4 0 ++ le_bytes 4 36 ++ le_bytes 8 0x1100 ++ replicate 4 0).
(** "FACP" and "APIC" *)
Definition FACP : list Z := [70; 65; 67; 80].
Definition APIC : list Z := [65; 80; 73; 67].
Definition place (phys : Z) (l : list Z) : gmap Z Z := list_to_map (imap (λ i b, (virt phys + Z.of_nat i, b)) l).

Definition tables : acpi :=
  {| ac_memory := place 0x1000 rsdp_bytes ∪ place 0x1100 xsdt_bytes ∪ place 0x1200 FACP ∪ place 0x1300 APIC;
     ac_xsdt := virt 0x1100;
     ac_remap_list := [{| rm_phys := acpi_base; rm_virt := virt acpi_base; rm_size := 0x1000 |}] |}.

Lemma tables_root : root_table tables xsdt_bytes [(virt 0x1200, FACP); (virt 0x1300, APIC)].
Proof.
  split; [apply bytes_at_check; by vm_compute|apply (bool_decide_unpack _); by vm_compute|done|done|].
  intros [|[|i]] t; [intros [= <-]|intros [= <-]|done]; (split; [by vm_compute|]);
    (split; [done|]); apply bytes_at_check; by vm_compute.
Qed.

Lemma find_table_spec_witness :
  find_table APIC tables = Ok (first_table APIC [(virt 0x1200, FACP); (virt 0x1300, APIC)], tables).
Proof. apply (find_table_spec APIC xsdt_bytes _ tables tables_root). Defined.

Lemma tables_are_mapped : tables_mapped tables 0x1000 rsdp_bytes (virt 0x1000) (virt 0x1100) xsdt_bytes.
Proof.
  split; [by vm_compute|split; [apply bytes_at_check; by vm_compute|done]|by vm_compute| |done|done].
  split; [apply bytes_at_check; by vm_compute|apply (bool_decide_unpack _); by vm_compute].
Qed.

Lemma initialize_acpi_spec_witness :
  firmware_tables_ok rsdp_bytes xsdt_bytes ∧
  match initialize_acpi 0x1000 tables with
  | Ok (_, s') => firmware_tables_ok rsdp_bytes xsdt_bytes ∧
      s' = {| ac_memory := ac_memory tables; ac_xsdt := virt 0x1100; ac_remap_list := ac_remap_list tables |}
  | Fault f => ¬ firmware_tables_ok rsdp_bytes xsdt_bytes ∧ ∃ msg, f = AssertFailed msg
  end.
Proof. split; [by vm_compute|]. apply (initialize_acpi_spec _ _ _ _ _ _ tables_are_mapped). Defined.

Definition acpi_map : list UEFIMemoryDescriptor :=
  [{| md_type := EfiConventionalMemory; md_physical_start := 0; md_num_pages := 1 |};
   {| md_type := EfiACPIReclaimMemory; md_physical_start := 0x1000; md_num_pages := 1 |};
   {| md_type := EfiACPIMemoryNVS; md_physical_start := 0x8000; md_num_pages := 2 |}].
Definition unmapped : acpi := {| ac_memory := ∅; ac_xsdt := 0; ac_remap_list := [] |}.

Lemma acpi_address_translation_witness :
  wp (prepare_acpi_memory (λ _, mret 0x4000) (λ phys _ _, mret (virt phys)) acpi_map) (λ _ s', ∀ p,
    (∀ d, d ∈ acpi_ranges acpi_map → in_descriptor d p →
       get_virtual_acpi_address p (part_of s') = Ok (u64 (virt (md_physical_start d) + (p - md_physical_start d)), part_of s')) ∧
    ((∀ d, d ∈ acpi_ranges acpi_map → ¬ in_descriptor d p) → get_virtual_acpi_address p (part_of s') = Ok (0, part_of s'))) unmapped.
Proof.
  apply (acpi_address_translation (λ phys _ _, mret (virt phys)) (λ _, mret 0x4000) virt).
  - intros phys pages s. by exists s.
  - intros n s. by exists 0x4000, s.
  - unfold acpi_map. repeat (apply Forall_cons_2; [unfold descriptor_ok, PAGE_SIZE; cbn; lia|]). apply Forall_nil_2.
  - reflexivity.
  - intros d d' p Hd Hd'. cbv [acpi_ranges filter list_filter acpi_map is_acpi md_type decide decide_rel bool_eq_dec] in Hd, Hd'.
    cbn in Hd, Hd'. rewrite !elem_of_cons in Hd, Hd'. unfold in_descriptor, PAGE_SIZE.
    destruct Hd as [->|[->|Hd]]; [| |by apply not_elem_of_nil in Hd];
      (destruct Hd' as [->|[->|Hd']]; [| |by apply not_elem_of_nil in Hd']); cbn; try done; lia.
Defined.
End AcpiExamples.
