(* ===== verification/Apic.v ===== *)
(** The interrupt controllers: kernel/src/apic.c.

    The state is the component's tables, the firmware tables of Acpi.v and the devices. A
    found local APIC is the address of its entry in the firmware's table, as in the code. *)
From S2P Require Import Prelude Util Devices IoApic Acpi.

Module Apic.
Import Util Devices IoApic Acpi.

Definition MAX_IOAPIC_COUNT : nat := 4.
Definition MAX_LAPIC_COUNT : nat := 16.
Definition MAX_8259_IRQ_COUNT : nat := 16.
Definition APIC_BASE_MSR : Z := 0x1b.
Definition APIC_BASE_MSR_ENABLE : Z := 0x800.
Definition sizeof_MADT : Z := 44.

(** Offsets of the local APIC's registers that are used. *)
Definition LAPIC_ID : Z := 0x20.
Definition LAPIC_TASK_PRIORITY : Z := 0x80.
Definition LAPIC_EOI : Z := 0xb0.
Definition LAPIC_SPURIOUS : Z := 0xf0.
Definition LAPIC_LVT_TIMER : Z := 0x320.
Definition LAPIC_LVT_LINT0 : Z := 0x350.
Definition LAPIC_LVT_LINT1 : Z := 0x360.
Definition LAPIC_DIVIDE : Z := 0x3e0.

Record IOAPICInfo := {
  ioapic_id : Z;
  physical_address : Z;
  virtual_address : Z;
  gsi_offset : Z;
  used_irqs : Z;
}.

Record GSIOverrideEntry := { present : bool; gsi : Z; flags : Z }.

(** g_gsi_override_table, g_found_ioapics, g_found_lapics, g_lapic; the two counts are the
    lengths of the lists. *)
Record apic := {
  ap_gsi_override_table : list GSIOverrideEntry;
  ap_found_ioapics : list IOAPICInfo;
  ap_found_lapics : list Z;
  ap_lapic : Z;
}.

Record apic_state (D : Type) := { as_apic : apic; as_acpi : acpi; as_devices : D }.
Arguments as_apic {D} _.
Arguments as_acpi {D} _.
Arguments as_devices {D} _.

(** "APIC", the signature of the MADT. *)
Definition MADT_SIGNATURE : list Z := [65; 80; 73; 67].

(** The ports written to turn the 8259 off, in order. *)
Definition disable_pic : list (Z * Z) :=
  [(0x20, 0x11); (0xA0, 0x11); (0x21, 0x20); (0xA1, 0x28); (0x21, 0x04); (0xA1, 0x02);
   (0x21, 0x01); (0xA1, 0x01); (0x21, 0xff); (0xA1, 0xff)].

Section apic.
Context {D : Type} `{!Devices D} (kmap_phys_range : Z → Z → Z → M D Z).

Abbreviation SM := (M (apic_state D)).

Definition on_devices {A} (m : M D A) : SM A := λ s,
  match m (as_devices s) with
  | Ok (r, d) => Ok (r, {| as_apic := as_apic s; as_acpi := as_acpi s; as_devices := d |})
  | Fault f => Fault f
  end.
Definition on_acpi {A} (m : M acpi A) : SM A := λ s,
  match m (as_acpi s) with
  | Ok (r, a) => Ok (r, {| as_apic := as_apic s; as_acpi := a; as_devices := as_devices s |})
  | Fault f => Fault f
  end.
Definition modify_apic (f : apic → apic) : SM unit :=
  modify (λ s, {| as_apic := f (as_apic s); as_acpi := as_acpi s; as_devices := as_devices s |}).

Fixpoint port_outs (l : list (Z * Z)) : M D unit :=
  match l with [] => mret tt | (p, v) :: l => _ ← port_out_u8 p v; port_outs l end.

(** *** One entry of the MADT, at address [e] *)

Definition add_lapic (e : Z) : SM unit :=
  n ← gets (λ s, length (ap_found_lapics (as_apic s)));
  if (n <? MAX_LAPIC_COUNT)%nat then
    modify_apic (λ a, {| ap_gsi_override_table := ap_gsi_override_table a; ap_found_ioapics := ap_found_ioapics a;
      ap_found_lapics := ap_found_lapics a ++ [e]; ap_lapic := ap_lapic a |})
  else throw OutOfBounds.

Definition add_ioapic (e : Z) : SM unit :=
  n ← gets (λ s, length (ap_found_ioapics (as_apic s)));
  if (n <? MAX_IOAPIC_COUNT)%nat then
    base ← on_acpi (load_le (e + 8) 4);
    id ← on_acpi (load_byte (e + 2));
    phys ← on_acpi (load_le (e + 4) 4);
    (* PAGING_WRITABLE | PAGING_CACHE_DISABLE *)
    virt ← on_devices (kmap_phys_range phys 1 5);
    mre ← on_devices (read_ioapic_mre virt);
    _ ← modify_apic (λ a, {| ap_gsi_override_table := ap_gsi_override_table a;
      ap_found_ioapics := ap_found_ioapics a ++
        [{| ioapic_id := id; physical_address := phys; virtual_address := virt; gsi_offset := base; used_irqs := u32 (1 + mre) |}];
      ap_found_lapics := ap_found_lapics a; ap_lapic := ap_lapic a |});
    fetched_id ← on_devices (read_ioapic_id virt);
    kernel_assert (id =? u8 fetched_id) "ID MISMATCH WHEN LOADING IOAPIC"
  else throw OutOfBounds.

Definition set_override (i : Z) (f : GSIOverrideEntry → GSIOverrideEntry) : SM unit :=
  o ← gets (λ s, lookupZ (ap_gsi_override_table (as_apic s)) i);
  o ← of_option OutOfBounds o;
  modify_apic (λ a, {| ap_gsi_override_table := insertZ i (f o) (ap_gsi_override_table a);
    ap_found_ioapics := ap_found_ioapics a; ap_found_lapics := ap_found_lapics a; ap_lapic := ap_lapic a |}).

Definition add_override (e : Z) : SM unit :=
  irq_source ← on_acpi (load_byte (e + 3));
  g ← on_acpi (load_le (e + 4) 4);
  fl ← on_acpi (load_le (e + 8) 2);
  set_override irq_source (λ _, {| present := true; gsi := g; flags := fl |}).

(** The switch over the type of an entry; the address of the local APIC goes through. *)
Definition parse_entry (type e local_apic_phys_addr : Z) : SM Z :=
  if type =? 0 then _ ← add_lapic e; mret local_apic_phys_addr
  else if type =? 1 then _ ← add_ioapic e; mret local_apic_phys_addr
  else if type =? 2 then _ ← add_override e; mret local_apic_phys_addr
  else if type =? 5 then on_acpi (load_le (e + 4) 8)
  else mret local_apic_phys_addr.

(** while (curr_addr < end) *)
Definition parse_madt (fuel : nat) (stop curr local_apic_phys_addr : Z) : SM Z :=
  loop fuel (λ '(curr, local),
    if curr <? stop then
      len ← on_acpi (load_byte (curr + 1));
      type ← on_acpi (load_byte curr);
      local ← parse_entry type curr local;
      mret (inl (curr + len, local))
    else mret (inr local)) (curr, local_apic_phys_addr).

Definition enable_local_apic (local_apic_phys_addr : Z) : SM unit :=
  base ← on_devices (rdmsr APIC_BASE_MSR);
  _ ← on_devices (wrmsr APIC_BASE_MSR (Z.lor base APIC_BASE_MSR_ENABLE));
  lapic ← on_devices (kmap_phys_range local_apic_phys_addr 1 5);
  _ ← modify_apic (λ a, {| ap_gsi_override_table := ap_gsi_override_table a; ap_found_ioapics := ap_found_ioapics a;
        ap_found_lapics := ap_found_lapics a; ap_lapic := lapic |});
  _ ← on_devices (mmio_write 4 (lapic + LAPIC_SPURIOUS) (Z.lor 0xff (Z.shiftl 1 8)));
  on_devices (mmio_update (lapic + LAPIC_TASK_PRIORITY) (λ v, Z.land v (Z.lnot 0xff))).

Definition setup_apic (fuel : nat) : SM unit :=
  _ ← on_devices (port_outs disable_pic);
  madt ← on_acpi (find_table MADT_SIGNATURE);
  _ ← kernel_assert (negb (madt =? 0)) "MADT NOT FOUND";
  madt_valid ← on_acpi (sdt_is_valid madt MADT_SIGNATURE);
  _ ← kernel_assert madt_valid "INVALID MADT";
  _ ← for_range 0 (Z.of_nat MAX_8259_IRQ_COUNT) (λ i,
        set_override i (λ o, {| present := present o; gsi := i; flags := flags o |}));
  local ← on_acpi (load_le (madt + 36) 4);
  length ← on_acpi (table_length madt);
  local ← parse_madt fuel (madt + length) (madt + sizeof_MADT) local;
  enable_local_apic local.

(** *** What the drivers ask *)

Fixpoint find_ioapic (l : list IOAPICInfo) (g : Z) : option IOAPICInfo :=
  match l with
  | [] => None
  | io :: l =>
      if (gsi_offset io <=? g) && (g <? u32 (gsi_offset io + used_irqs io)) then Some io else find_ioapic l g
  end.

Definition get_responsible_ioapic (g : Z) : SM (option IOAPICInfo) :=
  gets (λ s, find_ioapic (ap_found_ioapics (as_apic s)) g).

Fixpoint find_lapic (l : list Z) (acpi_id : Z) : SM (option Z) :=
  match l with
  | [] => mret None
  | e :: l =>
      id ← on_acpi (load_byte (e + 2));
      if id =? acpi_id then a ← on_acpi (load_byte (e + 3)); mret (Some a) else find_lapic l acpi_id
  end.

(** The identifier, or [None] for [false]. *)
Definition get_lapic_id (acpi_id : Z) : SM (option Z) :=
  l ← gets (λ s, ap_found_lapics (as_apic s)); find_lapic l acpi_id.
End apic.
End Apic.
