(* ===== verification/ApicProofs.v ===== *)
(** What [setup_apic] makes of the firmware's description of the interrupt controllers
    (kernel/src/apic.c). *)
From S2P Require Import Prelude Util Devices IoApic Acpi Apic.

Module ApicProofs.
Import Util Devices IoApic Acpi Apic.

(** ** The entries of the MADT, and the bytes they are *)

Inductive madt_entry :=
  | LocalApicEntry (processor_id apic_id fl : Z)
  | IoApicEntry (id address gsi_base : Z)
  | OverrideEntry (bus irq g fl : Z)
  | AddressOverrideEntry (address : Z)
  | OtherEntry (type : Z) (data : list Z).

Definition encode (e : madt_entry) : list Z :=
  match e with
  | LocalApicEntry pid aid fl => [0; 8; pid; aid] ++ le_bytes 4 fl
  | IoApicEntry id address base => [1; 12; id; 0] ++ le_bytes 4 address ++ le_bytes 4 base
  | OverrideEntry bus irq g fl => [2; 10; bus; irq] ++ le_bytes 4 g ++ le_bytes 2 fl
  | AddressOverrideEntry address => [5; 12; 0; 0] ++ le_bytes 8 address
  | OtherEntry type data => type :: (2 + Z.of_nat (length data)) :: data
  end.

Definition size (e : madt_entry) : Z := Z.of_nat (length (encode e)).

(** The entries the code takes: numbers in range, an interrupt source the table has a
    place for, another type than the four. *)
Definition entry_ok (e : madt_entry) : Prop :=
  match e with
  | LocalApicEntry _ _ _ => True
  | IoApicEntry _ address base => 0 ≤ address < 2 ^ 32 ∧ 0 ≤ base < 2 ^ 32
  | OverrideEntry _ irq g fl => 0 ≤ irq < 16 ∧ 0 ≤ g < 2 ^ 32 ∧ 0 ≤ fl < 2 ^ 16
  | AddressOverrideEntry address => 0 ≤ address < 2 ^ 64
  | OtherEntry type _ => type ≠ 0 ∧ type ≠ 1 ∧ type ≠ 2 ∧ type ≠ 5
  end.

Fixpoint encode_all (es : list madt_entry) : list Z :=
  match es with [] => [] | e :: es => encode e ++ encode_all es end.

(** ** What they mean *)

Fixpoint lapic_addresses (pos : Z) (es : list madt_entry) : list Z :=
  match es with
  | [] => []
  | e :: es =>
      (match e with LocalApicEntry _ _ _ => [pos] | _ => [] end) ++ lapic_addresses (pos + size e) es
  end.

(** The first local APIC with this processor identifier. *)
Fixpoint lapic_of (es : list madt_entry) (acpi_id : Z) : option Z :=
  match es with
  | [] => None
  | LocalApicEntry pid aid _ :: es => if pid =? acpi_id then Some aid else lapic_of es acpi_id
  | _ :: es => lapic_of es acpi_id
  end.

Definition override (t : list GSIOverrideEntry) (e : madt_entry) : list GSIOverrideEntry :=
  match e with
  | OverrideEntry _ irq g fl => insertZ irq {| present := true; gsi := g; flags := fl |} t
  | _ => t
  end.

Definition local_address (a : Z) (e : madt_entry) : Z :=
  match e with AddressOverrideEntry address => address | _ => a end.

Section parse.
Context {D : Type} `{!Devices D} (kmap_phys_range : Z → Z → Z → M D Z).
(** Where a controller is mapped, and how many entries it says it has. *)
Context (virt mre : Z → Z) (ok : D → Prop).

Definition ioapics (es : list madt_entry) : list IOAPICInfo :=
  omap (λ e, match e with
    | IoApicEntry id address base => Some {| ioapic_id := id; physical_address := address;
        virtual_address := virt address; gsi_offset := base; used_irqs := u32 (1 + mre address) |}
    | _ => None end) es.

(** Controller [id] at [address] can be mapped and read. *)
Definition answers (id address : Z) : Prop :=
  ∀ d, ok d → ∃ d1 d2 d3, kmap_phys_range address 1 5 d = Ok (virt address, d1) ∧
    read_ioapic_mre (virt address) d1 = Ok (mre address, d2) ∧
    read_ioapic_id (virt address) d2 = Ok (id, d3) ∧ 0 ≤ id < 256 ∧ ok d3.

Definition all_answer (es : list madt_entry) : Prop :=
  ∀ id address base, IoApicEntry id address base ∈ es → answers id address.

Implicit Types s : apic_state D.

Lemma wp_on_acpi {A} (m : M acpi A) (Q : A → apic_state D → Prop) s :
  wp m (λ r a, Q r {| as_apic := as_apic s; as_acpi := a; as_devices := as_devices s |}) (as_acpi s) →
  wp (on_acpi m) Q s.
Proof. intros (r & a & E & HQ). eexists r, _. unfold on_acpi. by rewrite E. Qed.

Lemma wp_on_devices {A} (m : M D A) r d (Q : A → apic_state D → Prop) s :
  m (as_devices s) = Ok (r, d) → Q r {| as_apic := as_apic s; as_acpi := as_acpi s; as_devices := d |} →
  wp (on_devices m) Q s.
Proof. intros E HQ. eexists r, _. unfold on_devices. by rewrite E. Qed.

Lemma apic_state_eta s : {| as_apic := as_apic s; as_acpi := as_acpi s; as_devices := as_devices s |} = s.
Proof. by destruct s. Qed.

(** Reads of a part of an entry whose bytes are known. *)
Lemma wp_entry_byte a i b l (Q : Z → apic_state D → Prop) s :
  bytes_at (ac_memory (as_acpi s)) a l → l !! i = Some b → Q b s → wp (on_acpi (load_byte (a + Z.of_nat i))) Q s.
Proof. intros Hl Hi HQ. apply wp_on_acpi. eapply wp_load_byte; [by apply Hl|]. by rewrite apic_state_eta. Qed.

Lemma wp_entry_le a i n x l (Q : Z → apic_state D → Prop) s :
  bytes_at (ac_memory (as_acpi s)) a l → take n (drop i l) = le_bytes n x → 0 ≤ x < 2 ^ (8 * Z.of_nat n) →
  Q x s → wp (on_acpi (load_le (a + Z.of_nat i) n)) Q s.
Proof.
  intros Hl Hi Hx HQ. apply wp_on_acpi. apply (wp_load_le _ n (take n (drop i l))).
  - by rewrite Hi, length_le_bytes.
  - by apply bytes_at_take_drop.
  - rewrite Hi, le_value_bytes, wrap_small by done. by rewrite apic_state_eta.
Qed.

(** What parsing [e] at [pos] makes of the tables. *)
Definition parsed (pos : Z) (e : madt_entry) (a : apic) : apic :=
  {| ap_gsi_override_table := override (ap_gsi_override_table a) e;
     ap_found_ioapics := ap_found_ioapics a ++ ioapics [e];
     ap_found_lapics := ap_found_lapics a ++ lapic_addresses pos [e];
     ap_lapic := ap_lapic a |}.

Definition entry_type (e : madt_entry) : Z :=
  match e with
  | LocalApicEntry _ _ _ => 0 | IoApicEntry _ _ _ => 1 | OverrideEntry _ _ _ _ => 2
  | AddressOverrideEntry _ => 5 | OtherEntry t _ => t
  end.

Lemma apic_eta (a : apic) :
  {| ap_gsi_override_table := ap_gsi_override_table a; ap_found_ioapics := ap_found_ioapics a ++ [];
     ap_found_lapics := ap_found_lapics a ++ []; ap_lapic := ap_lapic a |} = a.
Proof. rewrite !app_nil_r. by destruct a. Qed.

Definition fits (a : apic) (es : list madt_entry) : Prop :=
  length (ap_gsi_override_table a) = 16%nat ∧
  (length (ap_found_ioapics a) + length (ioapics es) ≤ 4)%nat ∧
  (length (ap_found_lapics a) + length (lapic_addresses 0 es) ≤ 16)%nat.

Lemma wp_parse_entry pos e local (Q : Z → apic_state D → Prop) s :
  entry_ok e → bytes_at (ac_memory (as_acpi s)) pos (encode e) → ok (as_devices s) → all_answer [e] →
  fits (as_apic s) [e] →
  (∀ d, ok d → Q (local_address local e) {| as_apic := parsed pos e (as_apic s); as_acpi := as_acpi s; as_devices := d |}) →
  wp (parse_entry kmap_phys_range (entry_type e) pos local) Q s.
Proof.
  intros He Hb Hok Hans (Ht & Hio & Hla) HQ. unfold parse_entry.
  destruct e as [pid aid fl|id address base|bus irq g fl|address|type data]; cbn [entry_type Z.eqb Pos.eqb].
  - unfold add_lapic, modify_apic. wp_steps. cbn in Hla.
    replace (_ <? MAX_LAPIC_COUNT)%nat with true by (symmetry; apply Nat.ltb_lt; unfold MAX_LAPIC_COUNT; lia).
    wp_steps. specialize (HQ _ Hok). unfold parsed in HQ. cbn [ioapics omap list_omap override lapic_addresses app] in HQ.
    by rewrite app_nil_r in HQ.
  - unfold add_ioapic, modify_apic. wp_steps. cbn in Hio, He.
    replace (_ <? MAX_IOAPIC_COUNT)%nat with true by (symmetry; apply Nat.ltb_lt; unfold MAX_IOAPIC_COUNT; lia).
    destruct (Hans id address base (list_elem_of_here _ _) _ Hok) as (d1 & d2 & d3 & E1 & E2 & E3 & Hid & Hok3).
    wp_step. apply (wp_entry_le pos 8 4 base _ _ _ Hb); [done|apply He|].
    wp_step. apply (wp_entry_byte pos 2 id _ _ _ Hb); [done|].
    wp_step. apply (wp_entry_le pos 4 4 address _ _ _ Hb); [done|apply He|].
    wp_step. eapply wp_on_devices; [exact E1|]. wp_step. eapply wp_on_devices; [exact E2|]. wp_steps.
    eapply wp_on_devices; [exact E3|]. cbn [as_apic as_acpi as_devices].
    wp_step; [rewrite wrap_small by lia; lia|]. wp_step. specialize (HQ _ Hok3). unfold parsed in HQ.
    cbn [ioapics omap list_omap override lapic_addresses app] in HQ. by rewrite app_nil_r in HQ.
  - cbn in He. unfold add_override, set_override, modify_apic. wp_step. wp_step.
    apply (wp_entry_byte pos 3 irq _ _ _ Hb); [done|].
    wp_step. apply (wp_entry_le pos 4 4 g _ _ _ Hb); [done|apply He|].
    wp_step. apply (wp_entry_le pos 8 2 fl _ _ _ Hb); [done|apply He|]. wp_step. wp_step.
    destruct (proj2 (lookupZ_is_Some (ap_gsi_override_table (as_apic s)) irq)) as [o Ho]; [lia|].
    wp_step. wp_step; [exact Ho|]. wp_steps. specialize (HQ _ Hok). unfold parsed in HQ.
    cbn [ioapics omap list_omap override lapic_addresses app] in HQ. by rewrite !app_nil_r in HQ.
  - apply (wp_entry_le pos 4 8 address _ _ _ Hb); [done|apply He|]. specialize (HQ _ Hok). unfold parsed in HQ.
    cbn [ioapics omap list_omap override lapic_addresses app] in HQ. rewrite apic_eta in HQ. by rewrite apic_state_eta in HQ.
  - cbn in He. replace (type =? 0) with false by lia. replace (type =? 1) with false by lia.
    replace (type =? 2) with false by lia. replace (type =? 5) with false by lia. wp_step. specialize (HQ _ Hok).
    unfold parsed in HQ. cbn [ioapics omap list_omap override lapic_addresses app] in HQ.
    rewrite apic_eta in HQ. by rewrite apic_state_eta in HQ.
Qed.
Lemma length_lapic_addresses pos pos' es : length (lapic_addresses pos es) = length (lapic_addresses pos' es).
Proof.
  revert pos pos'. induction es as [|e es IH]; intros pos pos'; [done|]. cbn [lapic_addresses]. rewrite !length_app.
  rewrite (IH _ (pos' + size e)). by destruct e.
Qed.

Lemma ioapics_cons e es : ioapics (e :: es) = ioapics [e] ++ ioapics es.
Proof. unfold ioapics. cbn. by destruct e. Qed.

Lemma lapic_addresses_cons pos e es : lapic_addresses pos (e :: es) = lapic_addresses pos [e] ++ lapic_addresses (pos + size e) es.
Proof. cbn [lapic_addresses]. by rewrite app_nil_r. Qed.

Lemma fits_cons pos e a es : fits a (e :: es) → fits a [e] ∧ fits (parsed pos e a) es.
Proof.
  unfold fits. rewrite (ioapics_cons e es), (lapic_addresses_cons 0 e es), !length_app. intros (Ht & Hio & Hla).
  split; [split_and!; [done|lia|lia]|]. cbn [parsed ap_gsi_override_table ap_found_ioapics ap_found_lapics].
  rewrite !length_app, (length_lapic_addresses pos 0 [e]), (length_lapic_addresses 0 (0 + size e) es).
  split; [|lia]. destruct e; cbn [override]; rewrite ?length_insertZ; done.
Qed.

Lemma encode_header e : encode e !! 0%nat = Some (entry_type e) ∧ encode e !! 1%nat = Some (size e).
Proof.
  unfold size. destruct e; cbn [encode entry_type app]; (split; [done|]); cbn [lookup list_lookup length];
    rewrite ?length_app, ?length_le_bytes; try done. f_equal. lia.
Qed.

(** The tables after a list of entries from [pos] on. *)
Definition parsed_all (pos : Z) (es : list madt_entry) (a : apic) : apic :=
  {| ap_gsi_override_table := foldl override (ap_gsi_override_table a) es;
     ap_found_ioapics := ap_found_ioapics a ++ ioapics es;
     ap_found_lapics := ap_found_lapics a ++ lapic_addresses pos es;
     ap_lapic := ap_lapic a |}.

Lemma parsed_all_cons pos e es a : parsed_all (pos + size e) es (parsed pos e a) = parsed_all pos (e :: es) a.
Proof.
  unfold parsed_all, parsed. cbn [ap_gsi_override_table ap_found_ioapics ap_found_lapics ap_lapic foldl].
  by rewrite (ioapics_cons e es), (lapic_addresses_cons pos e es), !app_assoc.
Qed.

Lemma wp_parse_madt es fuel pos local (Q : Z → apic_state D → Prop) s :
  Forall entry_ok es → bytes_at (ac_memory (as_acpi s)) pos (encode_all es) → ok (as_devices s) → all_answer es →
  fits (as_apic s) es → (length es < fuel)%nat →
  (∀ d, ok d → Q (foldl local_address local es)
     {| as_apic := parsed_all pos es (as_apic s); as_acpi := as_acpi s; as_devices := d |}) →
  wp (parse_madt kmap_phys_range fuel (pos + Z.of_nat (length (encode_all es))) pos local) Q s.
Proof.
  revert fuel pos local s. induction es as [|e es IH]; intros fuel pos local s Hes Hb Hok Hans Hfit Hf HQ;
    (destruct fuel as [|fuel]; [cbn in Hf; lia|]); unfold parse_madt; apply wp_loop_unroll.
  - replace (pos <? pos + _) with false by (symmetry; apply Z.ltb_ge; cbn; lia). wp_step. specialize (HQ _ Hok). unfold parsed_all in HQ.
    cbn [ioapics omap list_omap lapic_addresses foldl] in HQ. rewrite apic_eta in HQ. by rewrite apic_state_eta in HQ.
  - apply Forall_cons in Hes as [He Hes]. cbn [encode_all] in *. apply bytes_at_app in Hb as [Hb Hb'].
    destruct (encode_header e) as [H0 H1]. rewrite length_app.
    assert (0 < length (encode e))%nat by (apply lookup_lt_Some in H0; lia).
    replace (pos <? _) with true by (symmetry; apply Z.ltb_lt; lia). wp_step.
    apply (wp_entry_byte pos 1 (size e) _ _ _ Hb H1). wp_step.
    replace (load_byte pos) with (load_byte (pos + Z.of_nat 0)) by (by rewrite Z.add_0_r).
    apply (wp_entry_byte pos 0 (entry_type e) _ _ _ Hb H0). wp_step.
    destruct (fits_cons pos e _ _ Hfit) as [Hfit1 Hfit2].
    assert (all_answer [e]) as Hans1.
    { intros id address base Hin%list_elem_of_singleton. apply (Hans id address base). rewrite Hin. apply list_elem_of_here. }
    apply wp_parse_entry; [done..|]. intros d Hd. wp_step.
    replace (pos + Z.of_nat (length (encode e) + length (encode_all es)))
      with (pos + size e + Z.of_nat (length (encode_all es))) by (unfold size; lia).
    apply IH; [done|done|done| |done|cbn in Hf; lia|].
    + intros id address base Hin. apply (Hans id address base). by apply list_elem_of_further.
    + intros d' Hd'. cbn [as_apic as_acpi as_devices]. rewrite parsed_all_cons. cbn [foldl] in HQ. by apply HQ.
Qed.

Lemma find_lapic_parsed es pos acpi_id s :
  bytes_at (ac_memory (as_acpi s)) pos (encode_all es) →
  find_lapic (lapic_addresses pos es) acpi_id s = Ok (lapic_of es acpi_id, s).
Proof.
  revert pos. induction es as [|e es IH]; intros pos Hb; [done|].
  cbn [encode_all] in Hb. apply bytes_at_app in Hb as [Hb Hb']. fold (size e) in Hb'.
  specialize (IH _ Hb'). cbn [lapic_addresses]. destruct e as [pid aid fl| | | |]; cbn [app lapic_of]; try exact IH.
  cbn [find_lapic]. apply wp_eq. wp_step. apply (wp_entry_byte pos 2 pid _ _ _ Hb); [done|].
  destruct (pid =? acpi_id).
  - wp_step. apply (wp_entry_byte pos 3 aid _ _ _ Hb); [done|]. by wp_step.
  - by exists (lapic_of es acpi_id), s.
Qed.

(** C21: Parsing the bytes of a list of entries gives back what the list says: the local
    APICs and the controllers in order, the last override of each interrupt source, the
    last address given for the local APIC. Fuel for one more step than there are entries
    is enough. [get_lapic_id] then finds the first local APIC of a processor. *)
Theorem parse_madt_spec es fuel pos local s :
  Forall entry_ok es → bytes_at (ac_memory (as_acpi s)) pos (encode_all es) → ok (as_devices s) → all_answer es →
  fits (as_apic s) es → (length es < fuel)%nat → ap_found_lapics (as_apic s) = [] →
  wp (parse_madt kmap_phys_range fuel (pos + Z.of_nat (length (encode_all es))) pos local) (λ a s',
    a = foldl local_address local es ∧
    ap_found_ioapics (as_apic s') = ap_found_ioapics (as_apic s) ++ ioapics es ∧
    ap_gsi_override_table (as_apic s') = foldl override (ap_gsi_override_table (as_apic s)) es ∧
    (∀ acpi_id, get_lapic_id acpi_id s' = Ok (lapic_of es acpi_id, s')) ∧ ok (as_devices s')) s.
Proof.
  intros Hes Hb Hok Hans Hfit Hf Hnil. apply wp_parse_madt; [done..|]. intros d Hd.
  split; [done|]. split; [done|]. split; [done|]. split; [|done]. intros acpi_id.
  unfold get_lapic_id, mbind, M_bind, gets. cbn [as_apic parsed_all ap_found_lapics]. rewrite Hnil. cbn [app].
  by apply find_lapic_parsed.
Qed.

(** C40: An entry of length 0 keeps the kernel in the loop of [setup_apic]: no number of
    rounds is enough. *)
Theorem madt_zero_length_hangs fuel stop pos type local s :
  ac_memory (as_acpi s) !! pos = Some type → ac_memory (as_acpi s) !! (pos + 1) = Some 0 →
  entry_ok (OtherEntry type []) → pos < stop →
  parse_madt kmap_phys_range fuel stop pos local s = Fault OutOfFuel.
Proof.
  intros H0 H1 (Ht0 & Ht1 & Ht2 & Ht5) Hs. unfold parse_madt. induction fuel as [|fuel IH]; [done|].
  assert (∀ a b, ac_memory (as_acpi s) !! a = Some b → on_acpi (load_byte a) s = Ok (b, s)) as Hl.
  { intros a b Hb. apply wp_eq, wp_on_acpi. eapply wp_load_byte; [done|]. by rewrite apic_state_eta. }
  cbn [loop]. unfold parse_entry in *. replace (type =? 0) with false by lia. replace (type =? 1) with false by lia.
  unfold mbind, M_bind in *. replace (pos <? stop) with true in * by lia. rewrite (Hl _ _ H1), (Hl _ _ H0).
  replace (type =? 0) with false by lia. replace (type =? 1) with false by lia.
  replace (type =? 2) with false by lia. replace (type =? 5) with false by lia. unfold mret, M_ret in *.
  by rewrite Z.add_0_r.
Qed.
End parse.

(** The controller [get_responsible_ioapic] returns is the first found one whose range
    of interrupts contains the number; there is none when no range does. *)
Theorem responsible_ioapic_spec {D} g (s : apic_state D) :
  (∀ io, io ∈ ap_found_ioapics (as_apic s) → 0 ≤ gsi_offset io ∧ 0 ≤ used_irqs io ∧ gsi_offset io + used_irqs io < 2 ^ 32) →
  ∃ r, get_responsible_ioapic g s = Ok (r, s) ∧
  match r with
  | Some io => gsi_offset io ≤ g < gsi_offset io + used_irqs io ∧
      ∃ before after, ap_found_ioapics (as_apic s) = before ++ io :: after ∧
        ∀ o, o ∈ before → ¬ gsi_offset o ≤ g < gsi_offset o + used_irqs o
  | None => ∀ o, o ∈ ap_found_ioapics (as_apic s) → ¬ gsi_offset o ≤ g < gsi_offset o + used_irqs o
  end.
Proof.
  intros Hok. eexists. split; [reflexivity|]. induction (ap_found_ioapics (as_apic s)) as [|io l IH]; cbn [find_ioapic].
  { intros o Ho. by apply not_elem_of_nil in Ho. }
  destruct (Hok io (list_elem_of_here _ _)) as (H0 & H1 & H2). rewrite wrap_small by lia.
  destruct ((gsi_offset io <=? g) && (g <? gsi_offset io + used_irqs io)) eqn:E.
  - split; [lia|]. exists [], l. split; [done|]. intros o Ho. by apply not_elem_of_nil in Ho.
  - assert (¬ gsi_offset io ≤ g < gsi_offset io + used_irqs io) as Hio by lia.
    specialize (IH (λ o Ho, Hok o (list_elem_of_further _ _ _ Ho))). destruct (find_ioapic l g) as [r|].
    + destruct IH as (Hr & before & after & -> & Hb). split; [done|]. exists (io :: before), after. split; [done|].
      intros o [->|Ho]%elem_of_cons; [done|by apply Hb].
    + intros o [->|Ho]%elem_of_cons; [done|by apply IH].
Qed.
End ApicProofs.
