(* ===== verification/Ps2.v ===== *)
(** The keyboard: kernel/src/ps2.c.

    The interrupt handler runs at any moment; [ps2_getch] polls a volatile variable the
    handler writes. Its argument says how many interrupts come in before each of its
    reads. *)
From S2P Require Import Prelude Util Devices IoApic Apic Descriptors.

Module Ps2.
Import Util Devices IoApic Apic Descriptors.

Definition PS2_STATUS : Z := 0x64.
Definition PS2_KEYCODE : Z := 0x60.
Definition KEYCODE_LSHIFT : Z := 0x2A.
Definition KEYCODE_RSHIFT : Z := 0x36.

Definition pad (l : list Z) : list Z := l ++ replicate (128 - length l) 0.

Definition translation_table : list Z := pad
  [0; 0; 49; 50; 51; 52; 53; 54; 55; 56; 57; 48; 45; 61; 0; 0; 113; 119;
   101; 114; 116; 121; 117; 105; 111; 112; 91; 93; 0; 0; 97; 115; 100; 102; 103; 104;
   106; 107; 108; 59; 39; 96; 0; 92; 122; 120; 99; 118; 98; 110; 109; 44; 46; 47].

Definition shift_translation_table : list Z := pad
  [0; 0; 33; 64; 35; 36; 37; 94; 38; 42; 40; 41; 95; 43; 0; 0; 81; 87;
   69; 82; 84; 89; 85; 73; 79; 80; 123; 125; 0; 0; 65; 83; 68; 70; 71; 72;
   74; 75; 76; 58; 34; 126; 0; 124; 90; 88; 67; 86; 66; 78; 77; 60; 62; 63].

(** g_kbstatus, g_last_char_changed, and the devices. *)
Record keyboard (D : Type) := {
  kb_status : list bool;
  kb_last_char_changed : Z;
  kb_devices : D;
}.
Arguments kb_status {D} _.
Arguments kb_last_char_changed {D} _.
Arguments kb_devices {D} _.

Definition key_down (status : list bool) (k : Z) : bool := default false (lookupZ status k).
Definition upper_case (status : list bool) : bool := key_down status KEYCODE_LSHIFT || key_down status KEYCODE_RSHIFT.
Definition scan_code_to_letter (status : list bool) (scan_code : Z) : option Z :=
  lookupZ (if upper_case status then shift_translation_table else translation_table) scan_code.

Section handler.
Context {D : Type} `{!Devices D} (g_lapic : Z).

Abbreviation KM := (M (keyboard D)).

Definition on_devices {A} (m : M D A) : KM A := λ s,
  match m (kb_devices s) with
  | Ok (r, d) => Ok (r, {| kb_status := kb_status s; kb_last_char_changed := kb_last_char_changed s; kb_devices := d |})
  | Fault f => Fault f
  end.

Definition set_key (k : Z) (pressed : bool) : KM unit :=
  _ ← (old ← gets (λ s, lookupZ (kb_status s) k); of_option OutOfBounds old);
  modify (λ s, {| kb_status := insertZ k pressed (kb_status s);
                  kb_last_char_changed := kb_last_char_changed s; kb_devices := kb_devices s |}).

Definition set_last_char (c : Z) : KM unit :=
  modify (λ s, {| kb_status := kb_status s; kb_last_char_changed := c; kb_devices := kb_devices s |}).

Definition has_byte : M D bool := s ← port_in_u8 PS2_STATUS; mret (negb (Z.land s 1 =? 0)).

Definition kb_handler : KM unit :=
  b ← on_devices has_byte;
  if b : bool then
    scan_code ← on_devices (port_in_u8 PS2_KEYCODE);
    let pressed := Z.land scan_code 0x80 =? 0 in
    let scan_code := Z.ldiff scan_code 0x80 in
    _ ← set_key scan_code pressed;
    _ ← (if pressed then
           status ← gets kb_status;
           c ← of_option OutOfBounds (scan_code_to_letter status scan_code);
           set_last_char c
         else mret tt);
    on_devices (mmio_write 4 (g_lapic + LAPIC_EOI) 0)
  else mret tt.

(** A read of [g_last_char_changed] before which [n] interrupts come in. *)
Definition read_last_char (n : nat) : KM Z :=
  _ ← for_range 0 (Z.of_nat n) (λ _, kb_handler); gets kb_last_char_changed.

(** while (g_last_char_changed == 0); what is left of the interrupts. *)
Fixpoint wait_char (polls : list nat) : KM (list nat) :=
  match polls with
  | [] => throw OutOfFuel
  | n :: polls => c ← read_last_char n; if c =? 0 then wait_char polls else mret polls
  end.

Definition ps2_getch (polls : list nat) : KM Z :=
  _ ← set_last_char 0;
  polls ← wait_char polls;
  match polls with [] => throw OutOfFuel | n :: _ => read_last_char n end.
End handler.

(** ** What a sequence of scan codes means *)

(** The keys that are down, and the last letter. *)
Abbreviation keys := (list bool * Z)%type.

Definition pressed_by (code : Z) : bool := negb (Z.testbit code 7).
Definition press (k : keys) (code : Z) : keys :=
  let status := insertZ (code mod 128) (pressed_by code) k.1 in
  (status, if pressed_by code then default 0 (scan_code_to_letter status (code mod 128)) else k.2).

Section spec.
Context {D : Type} `{!Devices D} (g_lapic : Z).

(** The controller has a byte, and it is [code]. *)
Definition arrives (d : D) (code : Z) (d' : D) : Prop :=
  ∃ st d1 d2, port_in_u8 PS2_STATUS d = Ok (st, d1) ∧ Z.land st 1 ≠ 0 ∧
    port_in_u8 PS2_KEYCODE d1 = Ok (code, d2) ∧ is_byte code ∧ mmio_write 4 (g_lapic + LAPIC_EOI) 0 d2 = Ok (tt, d').

Inductive feeds : D → list Z → D → Prop :=
  | feeds_nil d : feeds d [] d
  | feeds_cons d code d' codes d'' : arrives d code d' → feeds d' codes d'' → feeds d (code :: codes) d''.

Definition kb_of (k : keys) (d : D) : keyboard D :=
  {| kb_status := k.1; kb_last_char_changed := k.2; kb_devices := d |}.

Lemma press_length k code : length (press k code).1 = length k.1.
Proof. apply length_insertZ. Qed.

Lemma pressed_by_land code : (Z.land code 0x80 =? 0) = pressed_by code.
Proof.
  unfold pressed_by. change 0x80 with (2 ^ 7). destruct (Z.testbit code 7) eqn:E; cbn [negb].
  - apply Z.eqb_neq. intros H0. assert (Z.testbit (Z.land code (2 ^ 7)) 7 = true) as Ht.
    { rewrite Z.land_spec, E. done. } by rewrite H0, Z.bits_0 in Ht.
  - apply Z.eqb_eq, Z.bits_inj'. intros i Hi. rewrite Z.land_spec, Z.pow2_bits_eqb, Z.bits_0 by lia.
    destruct (Z.eqb_spec 7 i) as [<-|]; [by rewrite E|by rewrite andb_false_r].
Qed.

Lemma code_key code : is_byte code → Z.ldiff code 0x80 = code mod 128.
Proof.
  intros Hb. apply Z.bits_inj'. intros i Hi. change (code mod 128) with (wrap 7 code).
  rewrite Z.ldiff_spec, testbit_wrap by lia. change 0x80 with (2 ^ 7). rewrite Z.pow2_bits_eqb by lia.
  destruct (Z.ltb_spec i 7).
  - replace (7 =? i) with false by lia. done.
  - rewrite andb_false_r. destruct (Z.eqb_spec 7 i) as [<-|]; [by rewrite andb_false_r|].
    rewrite (bits_above 8) by (unfold is_byte in Hb; lia). done.
Qed.

Lemma kb_handler_eq k code d d' :
  length k.1 = 128%nat → arrives d code d' → kb_handler g_lapic (kb_of k d) = Ok (tt, kb_of (press k code) d').
Proof.
  intros Hlen (st & d1 & d2 & E1 & Hst & E2 & Hb & E3). destruct k as [status last]. cbn in Hlen.
  assert (0 ≤ code mod 128 < 128) as Hm by (apply Z.mod_pos_bound; lia).
  destruct (proj2 (lookupZ_is_Some status (code mod 128))) as [old Hold]; [lia|].
  unfold kb_handler, has_byte, set_key, set_last_char, on_devices, kb_of, press, mbind, M_bind, gets, modify.
  cbn [kb_devices kb_status kb_last_char_changed fst snd]. rewrite E1. unfold mret, M_ret.
  replace (Z.land st 1 =? 0) with false by lia. cbn [negb kb_devices kb_status]. rewrite E2, (code_key code Hb).
  cbn [kb_devices kb_status kb_last_char_changed]. rewrite Hold.
  cbn [of_option]. unfold mret, M_ret. cbn [kb_devices kb_status kb_last_char_changed].
  rewrite pressed_by_land. destruct (pressed_by code) eqn:Ep; cbn [kb_devices kb_status kb_last_char_changed].
  - assert (is_Some (scan_code_to_letter (insertZ (code mod 128) true status) (code mod 128))) as [c Hc].
    { unfold scan_code_to_letter. destruct (upper_case _); apply lookupZ_is_Some; cbn; lia. }
    rewrite Hc. cbn. by rewrite E3.
  - by rewrite E3.
Qed.

Lemma read_last_char_eq codes k d d' :
  length k.1 = 128%nat → feeds d codes d' →
  read_last_char g_lapic (length codes) (kb_of k d) = Ok ((foldl press k codes).2, kb_of (foldl press k codes) d').
Proof.
  intros Hlen Hf. unfold read_last_char, for_range. rewrite Z.sub_0_r, Nat2Z.id. generalize 0.
  revert k Hlen. induction Hf as [d|d code d1 codes d2 Ha Hf IH]; intros k Hlen a; [done|].
  cbn [length for_loop foldl]. specialize (IH (press k code) ltac:(by rewrite press_length) (a + 1)).
  unfold mbind, M_bind in *. by rewrite (kb_handler_eq k code d d1).
Qed.

Lemma feeds_app d codes codes' d' : feeds d (codes ++ codes') d' → ∃ d1, feeds d codes d1 ∧ feeds d1 codes' d'.
Proof.
  revert d. induction codes as [|code codes IH]; intros d Hf; [exists d; split; [constructor|done]|].
  inversion Hf as [|? ? d1 ? ? Ha Hf']; subst. destruct (IH d1 Hf') as (d2 & H1 & H2). exists d2. split; [by econstructor|done].
Qed.

Lemma foldl_press_length k codes : length (foldl press k codes).1 = length k.1.
Proof. revert k. induction codes as [|c codes IH]; intros k; cbn; [done|]. by rewrite IH, press_length. Qed.

Lemma wait_char_eq quiet hit rest k d d' :
  length k.1 = 128%nat →
  (∀ n, (n ≤ length quiet)%nat → (0 < n)%nat → (foldl press k (concat (take n quiet))).2 = 0) →
  (foldl press k (concat quiet ++ hit)).2 ≠ 0 → feeds d (concat quiet ++ hit) d' →
  wait_char g_lapic ((length <$> quiet) ++ length hit :: rest) (kb_of k d) =
    Ok (rest, kb_of (foldl press k (concat quiet ++ hit)) d').
Proof.
  revert k d. induction quiet as [|q quiet IH]; intros k d Hlen Hq Hhit Hf; cbn [fmap list_fmap app wait_char concat] in *.
  - unfold mbind, M_bind. rewrite (read_last_char_eq hit k d d') by done. by replace (_ =? 0) with false by lia.
  - rewrite <- app_assoc in *. apply feeds_app in Hf as (d1 & Hf1 & Hf2).
    unfold mbind, M_bind. rewrite (read_last_char_eq q k d d1) by done.
    pose proof (Hq 1%nat ltac:(cbn; lia) ltac:(lia)) as H1. cbn in H1. rewrite app_nil_r in H1.
    replace (_ =? 0) with true by lia. rewrite foldl_app in *. apply IH; [by rewrite foldl_press_length| |done|done].
    intros n Hn Hn0. specialize (Hq (S n) ltac:(cbn; lia) ltac:(lia)). cbn [take concat] in Hq. by rewrite foldl_app in Hq.
Qed.


(** While no read sees a letter [ps2_getch] keeps waiting: it returns nothing however
    many reads it gets. *)
Theorem getch_waits quiet k d d' :
  length k.1 = 128%nat →
  (∀ n, (n ≤ length quiet)%nat → (0 < n)%nat → (foldl press (k.1, 0) (concat (take n quiet))).2 = 0) →
  feeds d (concat quiet) d' →
  ps2_getch g_lapic (length <$> quiet) (kb_of k d) = Fault OutOfFuel.
Proof.
  intros Hlen Hq Hf. unfold ps2_getch, set_last_char, mbind, M_bind, modify.
  change {| kb_status := kb_status (kb_of k d); kb_last_char_changed := 0; kb_devices := kb_devices (kb_of k d) |}
    with (kb_of (k.1, 0) d).
  enough (wait_char g_lapic (length <$> quiet) (kb_of (k.1, 0) d) = Fault OutOfFuel) as -> by done.
  assert (length (k.1, 0).1 = 128%nat) as Hlen' by done. clear Hlen. revert Hq Hlen'. generalize (k.1, 0). clear k.
  revert d Hf. induction quiet as [|q quiet IH]; intros d Hf k Hq Hlen; [done|]. cbn [fmap list_fmap wait_char concat] in *.
  apply feeds_app in Hf as (d1 & Hf1 & Hf2). unfold mbind, M_bind. rewrite (read_last_char_eq q k d d1) by done.
  pose proof (Hq 1%nat ltac:(cbn; lia) ltac:(lia)) as H1. cbn in H1. rewrite app_nil_r in H1.
  replace (_ =? 0) with true by lia. apply (IH d1); [done| |by rewrite foldl_press_length].
  intros n Hn Hn0. specialize (Hq (S n) ltac:(cbn; lia) ltac:(lia)). cbn [take concat] in Hq. by rewrite foldl_app in Hq.
Qed.
End spec.
End Ps2.
