(* ===== verification/KeyboardSetup.v ===== *)
(** The keyboard's interrupt: [register_ps2_interrupt] of kernel/src/ps2.c, which ties the
    interrupt controllers of Apic.v to the gates of Descriptors.v. *)
From S2P Require Import Prelude Util Devices IoApic Apic Descriptors Ps2.

Module KeyboardSetup.
Import Util Devices IoApic Apic Descriptors Ps2.

Record setup_state (D : Type) := { ss_apic : apic_state D; ss_cpu : cpu }.
Arguments ss_apic {D} _.
Arguments ss_cpu {D} _.

Section setup.
Context {D : Type} `{!Devices D} (kb_handler_address : Z).

Definition on_apic {A} (m : M (apic_state D) A) : M (setup_state D) A := λ s,
  match m (ss_apic s) with
  | Ok (r, a) => Ok (r, {| ss_apic := a; ss_cpu := ss_cpu s |})
  | Fault f => Fault f
  end.
Definition on_cpu {A} (m : M cpu A) : M (setup_state D) A := λ s,
  match m (ss_cpu s) with
  | Ok (r, c) => Ok (r, {| ss_apic := ss_apic s; ss_cpu := c |})
  | Fault f => Fault f
  end.

(** The entry with the fields the code sets. *)
Definition keyboard_entry (lapic_id : Z) (entry : IOREDTBLEntry) : IOREDTBLEntry :=
  set_destination lapic_id (set_vector 0x21 (set_delivery_mode 0 (set_mask 0 entry))).

Definition register_ps2_interrupt : M (setup_state D) unit :=
  o ← on_apic (gets (λ s, lookupZ (ap_gsi_override_table (as_apic s)) 1));
  o ← of_option OutOfBounds o;
  let g := gsi o in
  ioapic ← on_apic (get_responsible_ioapic g);
  match ioapic with
  | None => throw (AssertFailed "NO IOAPIC THAT USES KB WAS FOUND")
  | Some ioapic =>
      let irq := u32 (g - gsi_offset ioapic) in
      entry ← on_apic (Apic.on_devices (read_redtable_entry (virtual_address ioapic) irq));
      lapic ← on_apic (gets (λ s, ap_lapic (as_apic s)));
      id ← on_apic (Apic.on_devices (mmio_read 4 (lapic + LAPIC_ID)));
      _ ← on_apic (Apic.on_devices (write_redtable_entry (virtual_address ioapic) irq (keyboard_entry id entry)));
      on_cpu (register_interrupt 0x21 INTERRUPT_GATE false kb_handler_address)
  end.

Lemma keyboard_entry_fields id e :
  mask (keyboard_entry id e) = 0 ∧ delivery_mode (keyboard_entry id e) = 0 ∧
  vector (keyboard_entry id e) = 0x21 ∧ destination (keyboard_entry id e) = id mod 256 ∧
  (∀ i, 11 ≤ i < 56 → i ≠ 16 → Z.testbit (redtbl_bits (keyboard_entry id e)) i = Z.testbit (redtbl_bits e) i).
Proof.
  unfold keyboard_entry, mask, delivery_mode, vector, destination, set_mask, set_delivery_mode, set_vector, set_destination.
  split_and!.
  - rewrite !(redtbl_field_set_ne _ _ _ _ 16 1) by lia. by apply redtbl_field_set.
  - rewrite !(redtbl_field_set_ne _ _ _ _ 8 3) by lia. by apply redtbl_field_set.
  - rewrite !(redtbl_field_set_ne _ _ _ _ 0 8) by lia. by apply redtbl_field_set.
  - by apply redtbl_field_set.
  - intros i Hi Hi16. unfold set_redtbl_field. rewrite !redtbl_of_bits, !testbit_set_bits by lia.
    replace ((56 <=? i) && (i <? 56 + 8)) with false by lia. replace ((0 <=? i) && (i <? 0 + 8)) with false by lia.
    replace ((8 <=? i) && (i <? 8 + 3)) with false by lia. by replace ((16 <=? i) && (i <? 16 + 1)) with false by lia.
Qed.

Definition with_devices (d : D) (s : setup_state D) : setup_state D :=
  {| ss_apic := {| as_apic := as_apic (ss_apic s); as_acpi := as_acpi (ss_apic s); as_devices := d |}; ss_cpu := ss_cpu s |}.

Lemma wp_on_controllers {A} (m : M D A) (Q : A → setup_state D → Prop) s :
  wp m (λ r d, Q r (with_devices d s)) (as_devices (ss_apic s)) → wp (on_apic (Apic.on_devices m)) Q s.
Proof. intros (r & d & E & HQ). eexists r, _. unfold on_apic, Apic.on_devices. by rewrite E. Qed.

(** C32: After [register_ps2_interrupt] the controller that is responsible for the keyboard's
    interrupt delivers it unmasked, as a fixed interrupt with vector 0x21, and gate 0x21
    leads to the handler; the entry's other bits and the controller's other registers are
    as they were. *)
Theorem keyboard_interrupt_routed o io id (s : setup_state D) (I : IoApicAt (virtual_address io)) :
  lookupZ (ap_gsi_override_table (as_apic (ss_apic s))) 1 = Some o →
  find_ioapic (ap_found_ioapics (as_apic (ss_apic s))) (gsi o) = Some io →
  gsi_offset io ≤ gsi o < gsi_offset io + 120 → 0 ≤ gsi_offset io →
  io_ok (as_devices (ss_apic s)) → (∀ d, io_ok d → mmio_read 4 (ap_lapic (as_apic (ss_apic s)) + LAPIC_ID) d = Ok (id, d)) →
  length (cpu_idt (ss_cpu s)) = 256%nat → 0 ≤ kb_handler_address < 2 ^ 64 →
  let irq := gsi o - gsi_offset io in
  wp register_ps2_interrupt (λ _ s', ∃ e g,
    agrees (virtual_address io) irq e (entry_of (virtual_address io) (as_devices (ss_apic s')) irq) ∧
    mask e = 0 ∧ delivery_mode e = 0 ∧ vector e = 0x21 ∧ destination e = id mod 256 ∧
    (∀ i, 11 ≤ i < 56 → i ≠ 16 →
       Z.testbit (redtbl_bits e) i = Z.testbit (redtbl_bits (entry_of (virtual_address io) (as_devices (ss_apic s)) irq)) i) ∧
    (∀ r, r ≠ REDTBL_OFFSET irq → r ≠ REDTBL_OFFSET irq + 1 →
       io_register (as_devices (ss_apic s')) r = io_register (as_devices (ss_apic s)) r) ∧
    lookupZ (cpu_idt (ss_cpu s')) 0x21 = Some g ∧ gate_present g = true ∧ gate_offset g = kb_handler_address) s.
Proof.
  intros Ho Hio Hg Hg0 Hok Hid Hidt Hh irq. unfold register_ps2_interrupt.
  assert (0 ≤ irq < 120) as Hirq by lia.
  wp_step. eexists _, _. split; [reflexivity|]. cbn [ss_apic ss_cpu]. rewrite Ho. wp_step. wp_step; [done|].
  wp_step. eexists _, _. split; [reflexivity|]. cbn [ss_apic ss_cpu]. rewrite Hio. rewrite wrap_small by lia. fold irq.
  wp_step. apply wp_on_controllers. apply (wp_read_redtable_entry (virtual_address io)); [done..|]. intros d1 Hd1 Hr1.
  wp_step. eexists _, _. split; [reflexivity|]. cbn [ss_apic ss_cpu with_devices as_apic as_devices].
  wp_step. apply wp_on_controllers. exists id, d1. cbn [ss_apic ss_cpu with_devices as_apic as_devices]. split; [by apply Hid|].
  wp_step. apply wp_on_controllers. cbn [ss_apic ss_cpu with_devices as_apic as_devices].
  apply (wp_write_redtable_entry (virtual_address io)); [done..|]. intros d2 Hd2 Ha2 Hr2. cbn [ss_apic ss_cpu with_devices as_apic as_devices].
  destruct (register_interrupt_spec 0x21 INTERRUPT_GATE false kb_handler_address (ss_cpu s))
    as (c & g & E & Hgate & Hpres & Hoff & _); [lia|done|by left|done|].
  eexists tt, _. unfold on_cpu. cbn [ss_cpu with_devices]. rewrite E. split; [done|]. cbn [ss_cpu ss_apic with_devices as_devices].
  destruct (keyboard_entry_fields id (entry_of (virtual_address io) (as_devices (ss_apic s)) irq)) as (? & ? & ? & ? & ?).
  eexists _, g. split; [exact Ha2|]. split_and!; try done. intros r Hlo Hhi. by rewrite Hr2, Hr1.
Qed.
End setup.
End KeyboardSetup.
