(* ===== verification/ProcessInit.v ===== *)
(** The timer: [initialize_process_system] of kernel/src/process_system.c, which gives the
    timer interrupt its gate and sets the local APIC. *)
From S2P Require Import Prelude Util Devices Apic Descriptors Exceptions.

Module ProcessInit.
Import Util Devices Apic Descriptors.

Definition APIC_TIMER_IRQ_MASK : Z := 0xff.
Definition APIC_TIMER_MASKED_MASK : Z := Z.shiftl 1 16.
Definition APIC_TIMER_MODE_MASK : Z := Z.shiftl 3 17.
Definition APIC_TIMER_PERIODIC_MODE : Z := Z.shiftl 1 17.
Definition APIC_TIMER_IRQ : Z := 32.

(** The processor's tables, g_lapic and the devices. *)
Record timer_setup (D : Type) := { ts_cpu : cpu; ts_lapic : Z; ts_devices : D }.
Arguments ts_cpu {D} _.
Arguments ts_lapic {D} _.
Arguments ts_devices {D} _.

Section init.
Context {D : Type} `{!Devices D} (context_switch_handler : Z).

Abbreviation TM := (M (timer_setup D)).

Definition on_cpu {A} (m : M cpu A) : TM A := λ s,
  match m (ts_cpu s) with
  | Ok (r, c) => Ok (r, {| ts_cpu := c; ts_lapic := ts_lapic s; ts_devices := ts_devices s |})
  | Fault f => Fault f
  end.

(** [g_lapic->reg = f(g_lapic->reg)] *)
Definition lapic_update (reg : Z) (f : Z → Z) : TM unit := λ s,
  match mmio_update (ts_lapic s + reg) f (ts_devices s) with
  | Ok (r, d) => Ok (r, {| ts_cpu := ts_cpu s; ts_lapic := ts_lapic s; ts_devices := d |})
  | Fault f => Fault f
  end.
Definition lapic_write (reg v : Z) : TM unit := λ s,
  match mmio_write 4 (ts_lapic s + reg) v (ts_devices s) with
  | Ok (r, d) => Ok (r, {| ts_cpu := ts_cpu s; ts_lapic := ts_lapic s; ts_devices := d |})
  | Fault f => Fault f
  end.

Definition initialize_process_system : TM unit :=
  _ ← on_cpu (register_interrupt APIC_TIMER_IRQ 14 false context_switch_handler);
  (* Set mode to periodic mode *)
  _ ← lapic_update LAPIC_LVT_TIMER (λ v, Z.ldiff v APIC_TIMER_MODE_MASK);
  _ ← lapic_update LAPIC_LVT_TIMER (λ v, Z.lor v APIC_TIMER_PERIODIC_MODE);
  (* Set irq *)
  _ ← lapic_update LAPIC_LVT_TIMER (λ v, Z.ldiff v APIC_TIMER_IRQ_MASK);
  _ ← lapic_update LAPIC_LVT_TIMER (λ v, Z.lor v APIC_TIMER_IRQ);
  (* Mask LINT0 and LINT1 interrupts *)
  _ ← lapic_update LAPIC_LVT_LINT0 (λ v, Z.lor v APIC_TIMER_MODE_MASK);
  _ ← lapic_update LAPIC_LVT_LINT1 (λ v, Z.lor v APIC_TIMER_MODE_MASK);
  lapic_write LAPIC_DIVIDE 0.
End init.

(** The mask bit and the mode of an entry of the local vector table. *)
Definition lvt_masked (v : Z) : bool := Z.testbit v 16.
Definition lvt_mode (v : Z) : Z := get_bits 17 2 v.
Definition lvt_vector (v : Z) : Z := get_bits 0 8 v.

Lemma wp_lapic_update {f reg v} (Q : unit → timer_setup board → Prop) s :
  bd_registers (ts_devices s) !! (ts_lapic s + reg) = Some v →
  Q tt {| ts_cpu := ts_cpu s; ts_lapic := ts_lapic s;
          ts_devices := {| bd_registers := <[ts_lapic s + reg := u32 (f (u32 v))]> (bd_registers (ts_devices s));
                           bd_msrs := bd_msrs (ts_devices s); bd_ports := bd_ports (ts_devices s);
                           bd_log := (ts_lapic s + reg, u32 (f (u32 v))) :: bd_log (ts_devices s) |} |} →
  wp (lapic_update reg f) Q s.
Proof. intros Hv HQ. eexists _, _. split; [|exact HQ]. unfold lapic_update, mmio_update, mbind, M_bind. cbn. rewrite Hv. done. Qed.

(** What the four updates make of the timer's entry. *)
Definition timer_entry (v : Z) : Z :=
  u32 (Z.lor (u32 (u32 (Z.ldiff (u32 (u32 (Z.lor (u32 (u32 (Z.ldiff (u32 v) APIC_TIMER_MODE_MASK)))
    APIC_TIMER_PERIODIC_MODE))) APIC_TIMER_IRQ_MASK))) APIC_TIMER_IRQ).
Definition lint_entry (v : Z) : Z := u32 (Z.lor (u32 v) APIC_TIMER_MODE_MASK).

Lemma testbit_mode_mask i : 0 ≤ i → Z.testbit APIC_TIMER_MODE_MASK i = (17 <=? i) && (i <? 19).
Proof.
  intros Hi. change APIC_TIMER_MODE_MASK with (Z.shiftl (Z.ones 2) 17). rewrite Z.shiftl_spec by done.
  destruct (Z.leb_spec 17 i).
  - rewrite testbit_ones by lia. destruct (Z.ltb_spec (i - 17) 2), (Z.ltb_spec i 19); lia || done.
  - by rewrite Z.testbit_neg_r by lia.
Qed.

Lemma testbit_timer_entry v i :
  0 ≤ i < 32 →
  Z.testbit (timer_entry v) i =
    (((Z.testbit v i && negb ((17 <=? i) && (i <? 19))) || (17 =? i)) && negb (i <? 8)) || (5 =? i).
Proof.
  intros Hi. unfold timer_entry.
  repeat first [rewrite testbit_wrap by lia|rewrite Z.lor_spec|rewrite Z.ldiff_spec].
  replace (i <? 32) with true by lia. rewrite !andb_true_r, testbit_mode_mask by lia.
  change APIC_TIMER_PERIODIC_MODE with (2 ^ 17). change APIC_TIMER_IRQ with (2 ^ 5). change APIC_TIMER_IRQ_MASK with (Z.ones 8).
  by rewrite !Z.pow2_bits_eqb, testbit_ones by lia.
Qed.

Lemma testbit_lint_entry v i : 0 ≤ i < 32 → Z.testbit (lint_entry v) i = Z.testbit v i || ((17 <=? i) && (i <? 19)).
Proof.
  intros Hi. unfold lint_entry. rewrite testbit_wrap, Z.lor_spec, testbit_wrap, testbit_mode_mask by lia.
  replace (i <? 32) with true by lia. by rewrite !andb_true_r.
Qed.

(** Two bits. *)
Lemma lvt_mode_bits v b0 b1 : Z.testbit v 17 = b0 → Z.testbit v 18 = b1 → lvt_mode v = Z.b2z b0 + 2 * Z.b2z b1.
Proof.
  intros H0 H1. apply Z.bits_inj'. intros i Hi. unfold lvt_mode. rewrite testbit_get_bits by lia.
  destruct (Z.eq_dec i 0) as [->|]; [change (0 <? 2) with true; rewrite Z.add_0_l, H0; by destruct b0, b1|].
  destruct (Z.eq_dec i 1) as [->|]; [change (1 <? 2) with true; change (1 + 17) with 18; rewrite ?H1; by destruct b0, b1|].
  replace (i <? 2) with false by lia. rewrite ?andb_false_r. symmetry.
  apply (bits_above 2); [destruct b0, b1; cbn; lia|lia|lia].
Qed.

Lemma timer_entry_vector v : lvt_vector (timer_entry v) = 32.
Proof.
  apply Z.bits_inj'. intros i Hi. unfold lvt_vector. rewrite testbit_get_bits by lia. change 32 with (2 ^ 5).
  rewrite Z.pow2_bits_eqb by lia. destruct (Z.ltb_spec i 8) as [H8|H8].
  - rewrite ?Z.add_0_r, testbit_timer_entry by lia. replace (i <? 8) with true by lia. by rewrite andb_false_r, ?andb_true_r.
  - rewrite ?andb_false_r. symmetry. lia.
Qed.

(** On registers that keep what is written, the timer ends up periodic, with vector 32
    and its mask bit as it was, and vector 32 has an interrupt gate to the context switch.
    The mask bits of LINT0 and LINT1 are not set: the bits that are belong to the mode. *)
Theorem initialize_process_system_spec handler timer lint0 lint1 c lapic (b : board) :
  (32 < length (cpu_idt c))%nat → 0 ≤ handler < 2 ^ 64 →
  bd_registers b !! (lapic + LAPIC_LVT_TIMER) = Some timer → bd_registers b !! (lapic + LAPIC_LVT_LINT0) = Some lint0 →
  bd_registers b !! (lapic + LAPIC_LVT_LINT1) = Some lint1 →
  wp (initialize_process_system handler) (λ _ s',
    (∃ g, lookupZ (cpu_idt (ts_cpu s')) 32 = Some g ∧ gate_present g = true ∧ gate_offset g = handler ∧ gate_type g = 14) ∧
    (∃ t, bd_registers (ts_devices s') !! (lapic + LAPIC_LVT_TIMER) = Some t ∧
      lvt_mode t = 1 ∧ lvt_vector t = 32 ∧ lvt_masked t = lvt_masked timer) ∧
    (∃ l, bd_registers (ts_devices s') !! (lapic + LAPIC_LVT_LINT0) = Some l ∧ lvt_masked l = lvt_masked lint0 ∧ lvt_mode l = 3) ∧
    (∃ l, bd_registers (ts_devices s') !! (lapic + LAPIC_LVT_LINT1) = Some l ∧ lvt_masked l = lvt_masked lint1 ∧ lvt_mode l = 3))
    {| ts_cpu := c; ts_lapic := lapic; ts_devices := b |}.
Proof.
  intros Hlen Hh Ht H0 H1. unfold initialize_process_system. wp_step.
  eexists _, _. split; [reflexivity|]. cbn [ts_cpu ts_lapic ts_devices].
  wp_step. eapply wp_lapic_update; [exact Ht|]. wp_step. eapply wp_lapic_update; [apply lookup_insert_eq|].
  wp_step. eapply wp_lapic_update; [apply lookup_insert_eq|]. wp_step. eapply wp_lapic_update; [apply lookup_insert_eq|].
  cbn [ts_cpu ts_lapic ts_devices bd_registers]. rewrite !insert_insert_eq. fold (timer_entry timer).
  unfold LAPIC_LVT_TIMER, LAPIC_LVT_LINT0, LAPIC_LVT_LINT1, LAPIC_DIVIDE in *.
  wp_step. eapply wp_lapic_update; [cbn; rewrite lookup_insert_ne by lia; exact H0|].
  wp_step. eapply wp_lapic_update; [cbn; rewrite !lookup_insert_ne by lia; exact H1|].
  eexists _, _. split; [reflexivity|]. cbn [ts_cpu ts_lapic ts_devices bd_registers set_idt cpu_idt].
  fold (lint_entry lint0). fold (lint_entry lint1). split_and!.
  - eexists. split; [apply lookupZ_insertZ_eq, lookupZ_is_Some; unfold APIC_TIMER_IRQ; lia|].
    split; [done|]. split; [by apply Exceptions.gate_offset_of|done].
  - eexists. split; [by rewrite !lookup_insert_ne, lookup_insert_eq by lia|].
    split; [by erewrite lvt_mode_bits by (rewrite testbit_timer_entry by lia; cbn; rewrite ?andb_false_r; reflexivity)|].
    split; [apply timer_entry_vector|]. unfold lvt_masked. rewrite testbit_timer_entry by lia. generalize (Z.testbit timer 16). by intros [].
  - eexists. split; [by rewrite !lookup_insert_ne, lookup_insert_eq by lia|].
    unfold lvt_masked. rewrite testbit_lint_entry by lia. split; [by rewrite orb_false_r|].
    by erewrite lvt_mode_bits by (rewrite testbit_lint_entry by lia; rewrite orb_true_r; reflexivity).
  - eexists. split; [by rewrite lookup_insert_ne, lookup_insert_eq by lia|].
    unfold lvt_masked. rewrite testbit_lint_entry by lia. split; [by rewrite orb_false_r|].
    by erewrite lvt_mode_bits by (rewrite testbit_lint_entry by lia; rewrite orb_true_r; reflexivity).
Qed.
End ProcessInit.
