(* ===== verification/ApicExamples.v ===== *)
(** The theorems on interrupt controllers and the keyboard at a concrete machine: one I/O
    controller, a keyboard with some bytes to be read, and a MADT that describes it. *)
From S2P Require Import Prelude Util Devices IoApic Acpi AcpiExamples Apic ApicProofs Descriptors Ps2 KeyboardSetup.

Module ApicExamples.
Import Util Devices IoApic Acpi AcpiExamples Apic ApicProofs Descriptors Ps2 KeyboardSetup.

(** ** The machine *)

Record io_board := {
  ib_selected : Z;
  ib_registers : gmap Z Z;
  ib_other : gmap Z Z;
  ib_keys : list Z;
}.

Definition ioapic_phys : Z := 0xfec00000.
Definition ioapic_virt : Z := 0xfffff000fec00000.
Definition lapic_virt : Z := 0xfffff000fee00000.

(** The bits of an entry that can be written: all but the delivery status and the remote
    IRR in the lower half, the destination in the upper half. *)
Definition writable (o : Z) : Z :=
  if o <? 0x10 then 0 else if Z.even o then 0x1afff else 0xff000000.
Definition reg (d : io_board) (o : Z) : Z := default 0 (ib_registers d !! o).

Definition board_write (a v : Z) (d : io_board) : io_board :=
  if a =? ioapic_virt then
    {| ib_selected := v; ib_registers := ib_registers d; ib_other := ib_other d; ib_keys := ib_keys d |}
  else if a =? ioapic_virt + 0x10 then
    let o := ib_selected d in
    {| ib_selected := o; ib_registers := <[o := Z.lor (Z.land v (writable o)) (Z.ldiff (reg d o) (writable o))]> (ib_registers d);
       ib_other := ib_other d; ib_keys := ib_keys d |}
  else {| ib_selected := ib_selected d; ib_registers := ib_registers d; ib_other := <[a := v]> (ib_other d); ib_keys := ib_keys d |}.

Definition board_read (a : Z) (d : io_board) : Z :=
  if a =? ioapic_virt + 0x10 then reg d (ib_selected d) else default 0 (ib_other d !! a).

#[export] Instance io_board_devices : Devices io_board := {|
  port_in_u8 p d :=
    if p =? PS2_STATUS then Ok (match ib_keys d with [] => 0 | _ => 1 end, d)
    else match ib_keys d with
         | [] => Ok (0, d)
         | k :: ks => Ok (k, {| ib_selected := ib_selected d; ib_registers := ib_registers d; ib_other := ib_other d; ib_keys := ks |})
         end;
  port_out_u8 _ _ d := Ok (tt, d);
  mmio_read _ a d := Ok (board_read a d, d);
  mmio_write _ a v d := Ok (tt, board_write a v d);
  rdmsr _ d := Ok (0, d);
  wrmsr _ _ d := Ok (tt, d);
|}.

#[export, refine] Instance board_ioapic : IoApicAt (D := io_board) ioapic_virt := {|
  io_ok d := ib_other d !! (lapic_virt + LAPIC_ID) = Some 0;
  io_selected := ib_selected;
  io_register := reg;
  io_writable := writable;
|}.
Proof.
  - intros d off Hd Ho. eexists. split; [reflexivity|]. split; [exact Hd|]. split; [done|]. done.
  - intros d _. reflexivity.
  - intros d v Hd. eexists. split; [reflexivity|]. split; [exact Hd|]. intros o. unfold board_write.
    replace (ioapic_virt + 0x10 =? ioapic_virt) with false by done. rewrite Z.eqb_refl. unfold reg at 1. cbn [ib_registers].
    case_decide as Ho; [subst; by rewrite lookup_insert_eq|by rewrite lookup_insert_ne].
Defined.

(** Controller 2 with 24 entries. *)
Definition machine0 (keys : list Z) : io_board :=
  {| ib_selected := 0; ib_registers := {[0 := Z.shiftl 2 24; 1 := Z.shiftl 23 16 + 0x11; 0x12 := 0x10000]};
     ib_other := {[lapic_virt + LAPIC_ID := 0]}; ib_keys := keys |}.

Lemma redtable_roundtrip_witness :
  wp (_ ← write_redtable_entry ioapic_virt 1 {| lower_dword := 0x21; upper_dword := 0 |}; read_redtable_entry ioapic_virt 1)
    (λ e d', agrees ioapic_virt 1 {| lower_dword := 0x21; upper_dword := 0 |} e ∧
      ∀ o, o ≠ REDTBL_OFFSET 1 → o ≠ REDTBL_OFFSET 1 + 1 → io_register d' o = io_register (machine0 []) o) (machine0 []).
Proof. apply (redtable_roundtrip ioapic_virt 1 {| lower_dword := 0x21; upper_dword := 0 |} (machine0 [])); [done|lia]. Defined.

(** ** The MADT *)

Definition kmap (phys pages fl : Z) : M io_board Z := mret (phys + 0xfffff00000000000).
Definition virt_of (phys : Z) : Z := phys + 0xfffff00000000000.

Definition entries : list madt_entry :=
  [LocalApicEntry 0 0 1; LocalApicEntry 1 4 1; IoApicEntry 2 ioapic_phys 0; OverrideEntry 0 0 2 0;
   OtherEntry 4 [255; 0; 0; 1]].
Definition madt_start : Z := 0x2000.

Definition blank : apic :=
  {| ap_gsi_override_table := (λ i, {| present := false; gsi := Z.of_nat i; flags := 0 |}) <$> seq 0 16;
     ap_found_ioapics := []; ap_found_lapics := []; ap_lapic := 0 |}.

Definition parsing (l : list Z) : apic_state io_board :=
  {| as_apic := blank;
     as_acpi := {| ac_memory := list_to_map (imap (λ i b, (madt_start + Z.of_nat i, b)) l); ac_xsdt := 0; ac_remap_list := [] |};
     as_devices := machine0 [] |}.

(** The state of the controller that matters for reading it. *)
Definition intact (d : io_board) : Prop := ib_registers d = ib_registers (machine0 []).

Lemma ioapic_answers : all_answer kmap virt_of (λ _, 23) intact entries.
Proof.
  intros id address base Hin. unfold entries in Hin. rewrite !elem_of_cons in Hin.
  destruct Hin as [|[|[[= -> -> ->]|[|[|Hin]]]]]; [done|done| |done|done|by apply not_elem_of_nil in Hin].
  intros d Hd. eexists _, _, _. split; [reflexivity|].
  assert (∀ o d', intact d' → read_ioapic_register ioapic_virt o d' =
    Ok (default 0 (ib_registers (machine0 []) !! o), board_write ioapic_virt o d') ∧ intact (board_write ioapic_virt o d')) as Hread.
  { intros o d' Hd'. split; [|exact Hd']. unfold intact in Hd'. unfold read_ioapic_register, mbind, M_bind. cbn [mmio_read mmio_write io_board_devices]. do 2 f_equal. unfold board_read, board_write, reg. rewrite !Z.eqb_refl. cbn. by rewrite Hd'. }
  destruct (Hread 1 d Hd) as [E1 Hd1]. destruct (Hread 0 _ Hd1) as [E2 Hd2].
  unfold read_ioapic_mre, read_ioapic_id, mbind, M_bind. change (virt_of ioapic_phys) with ioapic_virt.
  rewrite E1. split; [reflexivity|]. rewrite E2. split; [reflexivity|]. split; [lia|exact Hd2].
Qed.

Lemma parse_madt_spec_witness :
  wp (parse_madt kmap 6 (madt_start + Z.of_nat (length (encode_all entries))) madt_start 0xfee00000) (λ a s',
    a = foldl local_address 0xfee00000 entries ∧
    ap_found_ioapics (as_apic s') = [] ++ ioapics virt_of (λ _, 23) entries ∧
    ap_gsi_override_table (as_apic s') = foldl override (ap_gsi_override_table blank) entries ∧
    (∀ acpi_id, get_lapic_id acpi_id s' = Ok (lapic_of entries acpi_id, s')) ∧ intact (as_devices s')) (parsing (encode_all entries)).
Proof.
  apply (parse_madt_spec kmap virt_of (λ _, 23) intact entries 6 madt_start 0xfee00000 (parsing (encode_all entries))).
  - unfold entries. repeat (apply Forall_cons_2; [cbn [entry_ok]; unfold ioapic_phys; first [exact I|lia]|]). apply Forall_nil_2.
  - apply bytes_at_check. by vm_compute.
  - reflexivity.
  - exact ioapic_answers.
  - split; [done|]. split; cbn; lia.
  - cbn. lia.
  - reflexivity.
Defined.

Lemma madt_zero_length_hangs_witness :
  parse_madt kmap 1000 (madt_start + 8) madt_start 0 (parsing [7; 0; 0; 0]) = Fault OutOfFuel.
Proof. apply (madt_zero_length_hangs kmap 1000 (madt_start + 8) madt_start 7 0 (parsing [7; 0; 0; 0])); [reflexivity|reflexivity|by vm_compute|lia]. Defined.

Definition with_lapic (v : Z) (a : apic) : apic :=
  {| ap_gsi_override_table := ap_gsi_override_table a; ap_found_ioapics := ap_found_ioapics a;
     ap_found_lapics := ap_found_lapics a; ap_lapic := v |}.

Definition found : apic_state io_board :=
  {| as_apic := with_lapic lapic_virt (parsed_all virt_of (λ _, 23) madt_start entries blank); as_acpi := as_acpi (parsing []);
     as_devices := machine0 [] |}.

Lemma responsible_ioapic_spec_witness :
  ∃ r, get_responsible_ioapic 1 found = Ok (r, found) ∧
  match r with
  | Some io => gsi_offset io ≤ 1 < gsi_offset io + used_irqs io ∧
      ∃ before after, ap_found_ioapics (as_apic found) = before ++ io :: after ∧
        ∀ o, o ∈ before → ¬ gsi_offset o ≤ 1 < gsi_offset o + used_irqs o
  | None => ∀ o, o ∈ ap_found_ioapics (as_apic found) → ¬ gsi_offset o ≤ 1 < gsi_offset o + used_irqs o
  end.
Proof.
  apply (responsible_ioapic_spec 1 found). intros io Hio. cbn in Hio. apply list_elem_of_singleton in Hio as ->.
  cbn. vm_compute. split_and!; done.
Defined.

(** ** The keyboard *)

Definition idle : keys := (replicate 128 false, 0).
(** A pressed, A released, left shift pressed. *)
Definition A_DOWN : Z := 0x1e.
Definition A_UP : Z := 0x9e.
Definition SHIFT_DOWN : Z := 0x2a.

Definition after_keys (ks : list Z) (n : nat) : io_board :=
  {| ib_selected := 0; ib_registers := ib_registers (machine0 []); ib_keys := ks;
     ib_other := Nat.iter n (<[lapic_virt + LAPIC_EOI := 0]>) (ib_other (machine0 [])) |}.

Lemma keys_feed codes rest n :
  Forall is_byte codes → feeds lapic_virt (after_keys (codes ++ rest) n) codes (after_keys rest (n + length codes)).
Proof.
  intros Hb. revert n. induction Hb as [|c codes Hc Hb IH]; intros n; cbn [app length].
  - rewrite Nat.add_0_r. constructor.
  - apply (feeds_cons _ _ _ (after_keys (codes ++ rest) (S n))).
    + exists 1, (after_keys (c :: codes ++ rest) n), (after_keys (codes ++ rest) n). split_and!; try done; apply Hc.
    + replace (n + S (length codes))%nat with (S n + length codes)%nat by lia. apply IH.
Qed.


(** With the shift key between the two reads, NUL is returned. *)
Example getch_race :
  match ps2_getch lapic_virt [1; 1]%nat (kb_of idle (after_keys [A_DOWN; SHIFT_DOWN] 0)) with
  | Ok (c, _) => c = 0
  | Fault _ => False
  end.
Proof. vm_compute. reflexivity. Qed.

Lemma getch_waits_witness :
  ps2_getch lapic_virt (length <$> [[A_UP]; []; [SHIFT_DOWN]]) (kb_of idle (after_keys [A_UP; SHIFT_DOWN] 0)) = Fault OutOfFuel.
Proof.
  apply (getch_waits lapic_virt [[A_UP]; []; [SHIFT_DOWN]] idle (after_keys [A_UP; SHIFT_DOWN] 0) (after_keys [] 2)).
  - reflexivity.
  - intros n Hn Hn0. cbn in Hn. assert (n = 1 ∨ n = 2 ∨ n = 3)%nat as [->|[->| ->]] by lia; by vm_compute.
  - apply (keys_feed [A_UP; SHIFT_DOWN] [] 0). repeat (apply Forall_cons_2; [by vm_compute|]). apply Forall_nil_2.
Defined.

Definition setting_up : setup_state io_board :=
  {| ss_apic := found; ss_cpu := {| cpu_gdt := g_gdt; cpu_tss := {| tss_rsp := []; tss_interrupt_stack_table := []; tss_iopb_offset := 0 |};
       cpu_idt := replicate 256 empty_gate; cpu_gdtr := {| tr_size := 0; tr_base := 0 |}; cpu_idtr := {| tr_size := 0; tr_base := 0 |};
       cpu_task := 0; cpu_cs := 8; cpu_data_segments := 16; cpu_interrupts := true |} |}.

Definition the_ioapic : IOAPICInfo :=
  {| ioapic_id := 2; physical_address := ioapic_phys; virtual_address := ioapic_virt; gsi_offset := 0; used_irqs := 24 |}.

Lemma keyboard_interrupt_routed_witness :
  wp (register_ps2_interrupt 0xfffff00000402000) (λ _ s', ∃ e g,
    agrees ioapic_virt 1 e (entry_of ioapic_virt (as_devices (ss_apic s')) 1) ∧
    mask e = 0 ∧ delivery_mode e = 0 ∧ vector e = 0x21 ∧ destination e = 0 mod 256 ∧
    (∀ i, 11 ≤ i < 56 → i ≠ 16 →
       Z.testbit (redtbl_bits e) i = Z.testbit (redtbl_bits (entry_of ioapic_virt (machine0 []) 1)) i) ∧
    (∀ r, r ≠ REDTBL_OFFSET 1 → r ≠ REDTBL_OFFSET 1 + 1 →
       io_register (as_devices (ss_apic s')) r = io_register (machine0 []) r) ∧
    lookupZ (cpu_idt (ss_cpu s')) 0x21 = Some g ∧ gate_present g = true ∧ gate_offset g = 0xfffff00000402000) setting_up.
Proof.
  apply (keyboard_interrupt_routed 0xfffff00000402000 {| present := false; gsi := 1; flags := 0 |} the_ioapic 0 setting_up board_ioapic).
  - reflexivity.
  - vm_compute. reflexivity.
  - cbn. lia.
  - cbn. lia.
  - vm_compute. reflexivity.
  - intros d Hd. unfold mmio_read, io_board_devices, board_read. change (ap_lapic _ + LAPIC_ID) with (lapic_virt + LAPIC_ID).
    replace (lapic_virt + LAPIC_ID =? ioapic_virt + 0x10) with false by done. by rewrite Hd.
  - reflexivity.
  - lia.
Defined.
End ApicExamples.
