(* ===== verification/Pci.v ===== *)
(** The PCI devices: kernel/src/pci.c.

    The list of devices is only reached from its head and only grows there. *)
From S2P Require Import Prelude Util Devices Acpi.

Module Pci.
Import Util Devices Acpi.

Definition PCI_DEVICE_CLASS_MASK : Z := 0xff000000.
Definition PCI_DEVICE_SUBCLASS_MASK : Z := 0xffff0000.
Definition PCI_DEVICE_PROG_IF_MASK : Z := 0xffffff00.
Definition PCI_DEVICE_REVISION_ID_MASK : Z := 0xffffffff.

(** Offsets in the configuration space. *)
Definition VENDOR_ID : Z := 0.
Definition REVISION_ID : Z := 8.
Definition PROG_IF : Z := 9.
Definition SUBCLASS : Z := 10.
Definition CLASS_CODE : Z := 11.
Definition HEADER_TYPE : Z := 14.
Definition BAR5 : Z := 0x24.

Definition sizeof_MCFG : Z := 44.
Definition sizeof_MCFGEntry : Z := 16.
Definition sizeof_PCIDeviceEntry : Z := 20.
(** "MCFG" *)
Definition MCFG_SIGNATURE : list Z := [77; 67; 70; 71].

(** [type] is the union's other view of the four bytes. *)
Record PCIDeviceEntry := { config_space : Z; revision_ID : Z; prog_IF : Z; subclass : Z; class_code : Z }.
Definition type (e : PCIDeviceEntry) : Z :=
  revision_ID e + 2 ^ 8 * prog_IF e + 2 ^ 16 * subclass e + 2 ^ 24 * class_code e.

Record pci (D : Type) := { g_pci_device_list : list PCIDeviceEntry; pci_acpi : acpi; pci_hw : D }.
Arguments g_pci_device_list {D} _.
Arguments pci_acpi {D} _.
Arguments pci_hw {D} _.

(** The null pointer when there is none. *)
Fixpoint find_device (l : list PCIDeviceEntry) (ty mask : Z) : Z :=
  match l with
  | [] => 0
  | e :: l => if Z.land (type e) mask =? ty then config_space e else find_device l ty mask
  end.

Lemma find_device_find l ty mask :
  find_device l ty mask = match find (λ e, Z.land (type e) mask =? ty) l with Some e => config_space e | None => 0 end.
Proof. induction l as [|e l IH]; [done|]. cbn [find_device find]. rewrite IH. by destruct (_ =? _). Qed.

Section pci.
Context {D : Type} `{!Devices D} (kmap_phys_range : Z → Z → Z → M D Z) (kunmap_range : Z → Z → M D unit)
  (kalloc : Z → M D Z).

Abbreviation PM := (M (pci D)).

Definition get_pci_device (ty mask : Z) : PM Z := gets (λ s, find_device (g_pci_device_list s) ty mask).

Definition on_hw {A} (m : M D A) : PM A := λ s,
  match m (pci_hw s) with
  | Ok (r, d) => Ok (r, {| g_pci_device_list := g_pci_device_list s; pci_acpi := pci_acpi s; pci_hw := d |})
  | Fault f => Fault f
  end.
Definition on_tables {A} (m : M acpi A) : PM A := λ s,
  match m (pci_acpi s) with
  | Ok (r, a) => Ok (r, {| g_pci_device_list := g_pci_device_list s; pci_acpi := a; pci_hw := pci_hw s |})
  | Fault f => Fault f
  end.

Definition add_device (e : PCIDeviceEntry) : PM unit :=
  modify (λ s, {| g_pci_device_list := e :: g_pci_device_list s; pci_acpi := pci_acpi s; pci_hw := pci_hw s |}).

Definition config_address (base bus device func : Z) : Z :=
  u64 (base + Z.lor (Z.lor (Z.shiftl bus 20) (Z.shiftl device 15)) (Z.shiftl func 12)).

(** One function of a device; [false] for the break. *)
Definition probe_function (base bus device func : Z) : PM bool :=
  space ← on_hw (kmap_phys_range (config_address base bus device func) 1 5);
  vendor ← on_hw (mmio_read 2 (space + VENDOR_ID));
  let exists_ := negb (vendor =? 0xffff) in
  header_type ← on_hw (mmio_read 1 (space + HEADER_TYPE));
  let is_multi_func := negb (Z.land header_type 0x80 =? 0) in
  if (0 <? func) && negb is_multi_func then
    _ ← on_hw (kunmap_range space 1); mret false
  else if negb exists_ then
    _ ← on_hw (kunmap_range space 1); mret true
  else
    entry ← on_hw (kalloc sizeof_PCIDeviceEntry);
    if entry =? 0 then throw NullDeref
    else
      revision ← on_hw (mmio_read 1 (space + REVISION_ID));
      prog ← on_hw (mmio_read 1 (space + PROG_IF));
      sub ← on_hw (mmio_read 1 (space + SUBCLASS));
      class ← on_hw (mmio_read 1 (space + CLASS_CODE));
      _ ← add_device {| config_space := space; revision_ID := revision; prog_IF := prog; subclass := sub; class_code := class |};
      mret true.

(** for (func = 0; func < 8; ++func), from [func] on with [n] left. *)
Fixpoint probe_functions (n : nat) (base bus device func : Z) : PM unit :=
  match n with
  | O => mret tt
  | S n =>
      continue ← probe_function base bus device func;
      if continue : bool then probe_functions n base bus device (func + 1) else mret tt
  end.

Definition probe_bus (base bus : Z) : PM unit :=
  for_range 0 32 (λ device, probe_functions 8 base bus device 0).

Definition probe_entry (mcfg i : Z) : PM unit :=
  let e := mcfg + sizeof_MCFG + sizeof_MCFGEntry * i in
  base ← on_tables (load_le e 8);
  start_bus ← on_tables (load_byte (e + 10));
  end_bus ← on_tables (load_byte (e + 11));
  for_range start_bus end_bus (probe_bus base).

Definition enumerate_pci_devices : PM unit :=
  mcfg ← on_tables (find_table MCFG_SIGNATURE);
  _ ← kernel_assert (negb (mcfg =? 0)) "MCFG TABLE NOT FOUND";
  length ← on_tables (table_length mcfg);
  for_range 0 (u64 (length - sizeof_MCFG) / sizeof_MCFGEntry) (probe_entry mcfg).

(** ** The devices there are

    [cfg phys off n] is the field of [n] bytes at [off] of the configuration space at
    [phys], [virt phys] where it is mapped. *)

Context (virt : Z → Z) (cfg : Z → Z → nat → Z) (ok : D → Prop) (mapped : D → Z → Prop).
Hypothesis kmap_ok : ∀ phys d, ok d → ∃ d', kmap_phys_range phys 1 5 d = Ok (virt phys, d') ∧ ok d' ∧ mapped d' phys.
Hypothesis kunmap_ok : ∀ phys d, ok d → mapped d phys → ∃ d', kunmap_range (virt phys) 1 d = Ok (tt, d') ∧ ok d'.
Hypothesis kalloc_ok : ∀ phys n d, ok d → mapped d phys → ∃ p d', kalloc n d = Ok (p, d') ∧ p ≠ 0 ∧ ok d' ∧ mapped d' phys.
Hypothesis read_ok : ∀ phys off n d, ok d → mapped d phys → mmio_read n (virt phys + off) d = Ok (cfg phys off n, d).

Definition function_exists (phys : Z) : bool := negb (cfg phys VENDOR_ID 2 =? 0xffff).
Definition multi_function (phys : Z) : bool := negb (Z.land (cfg phys HEADER_TYPE 1) 0x80 =? 0).

Definition device_entry (phys : Z) : PCIDeviceEntry :=
  {| config_space := virt phys; revision_ID := cfg phys REVISION_ID 1; prog_IF := cfg phys PROG_IF 1;
     subclass := cfg phys SUBCLASS 1; class_code := cfg phys CLASS_CODE 1 |}.

(** The functions that are looked at: up to the first after number 0 whose header says it
    is alone. *)
Fixpoint looked_at (base bus device : Z) (funcs : list Z) : list Z :=
  match funcs with
  | [] => []
  | f :: funcs =>
      let phys := config_address base bus device f in
      if (0 <? f) && negb (multi_function phys) then [] else phys :: looked_at base bus device funcs
  end.

Definition device_functions (base bus device : Z) : list PCIDeviceEntry :=
  device_entry <$> filter (λ phys, function_exists phys = true) (looked_at base bus device (seqZ 0 8)).
Definition bus_functions (base bus : Z) : list PCIDeviceEntry := seqZ 0 32 ≫= device_functions base bus.
Definition segment_functions (base start_bus end_bus : Z) : list PCIDeviceEntry :=
  seqZ start_bus (end_bus - start_bus) ≫= bus_functions base.

Implicit Types s : pci D.

Definition added (l : list PCIDeviceEntry) s s' : Prop :=
  g_pci_device_list s' = reverse l ++ g_pci_device_list s ∧ pci_acpi s' = pci_acpi s ∧ ok (pci_hw s').

Lemma added_nil s : ok (pci_hw s) → added [] s s.
Proof. done. Qed.

Lemma added_trans l l' s s1 s2 : added l s s1 → added l' s1 s2 → added (l ++ l') s s2.
Proof.
  intros (E1 & A1 & _) (E2 & A2 & O2). split; [|split; [congruence|done]]. by rewrite E2, E1, reverse_app, app_assoc.
Qed.

Lemma wp_on_bus {A} (m : M D A) r d (Q : A → pci D → Prop) s :
  m (pci_hw s) = Ok (r, d) → Q r {| g_pci_device_list := g_pci_device_list s; pci_acpi := pci_acpi s; pci_hw := d |} →
  wp (on_hw m) Q s.
Proof. intros E HQ. eexists r, _. unfold on_hw. by rewrite E. Qed.

Lemma wp_probe_function base bus device func (Q : bool → pci D → Prop) s :
  ok (pci_hw s) → let phys := config_address base bus device func in
  (∀ s', added (if (0 <? func) && negb (multi_function phys) then [] else device_entry <$> filter (λ p, function_exists p = true) [phys]) s s' →
    Q (negb ((0 <? func) && negb (multi_function phys))) s') →
  wp (probe_function base bus device func) Q s.
Proof.
  intros Hok phys HQ. unfold probe_function. fold phys. destruct (kmap_ok phys (pci_hw s) Hok) as (d1 & E1 & Hok1 & Hm1).
  wp_step. eapply wp_on_bus; [exact E1|]. wp_step. eapply wp_on_bus; [by apply read_ok|].
  wp_step. eapply wp_on_bus; [by apply read_ok|]. cbn [g_pci_device_list pci_acpi pci_hw].
  change (negb (Z.land (cfg phys HEADER_TYPE 1) 128 =? 0)) with (multi_function phys).
  change (negb (cfg phys VENDOR_ID 2 =? 65535)) with (function_exists phys).
  destruct ((0 <? func) && negb (multi_function phys)).
  - destruct (kunmap_ok phys d1 Hok1 Hm1) as (d2 & E2 & Hok2).
    wp_step. eapply wp_on_bus; [exact E2|]. wp_step. by apply HQ.
  - rewrite filter_cons in HQ. destruct (function_exists phys); cbn [negb].
    + rewrite decide_True in HQ by done. destruct (kalloc_ok phys sizeof_PCIDeviceEntry d1 Hok1 Hm1) as (p & d2 & E2 & Hp & Hok2 & Hm2).
      wp_step. eapply wp_on_bus; [exact E2|]. replace (p =? 0) with false by lia.
      do 4 (wp_step; eapply wp_on_bus; [by apply read_ok|]; cbn [g_pci_device_list pci_acpi pci_hw]).
      unfold add_device. wp_steps. by apply HQ.
    + rewrite decide_False in HQ by done. destruct (kunmap_ok phys d1 Hok1 Hm1) as (d2 & E2 & Hok2).
      wp_step. eapply wp_on_bus; [exact E2|]. wp_step. by apply HQ.
Qed.

Lemma wp_probe_functions n base bus device func (Q : unit → pci D → Prop) s :
  ok (pci_hw s) →
  (∀ s', added (device_entry <$> filter (λ p, function_exists p = true) (looked_at base bus device (seqZ func (Z.of_nat n)))) s s' → Q tt s') →
  wp (probe_functions n base bus device func) Q s.
Proof.
  revert func s. induction n as [|n IH]; intros func s Hok HQ; cbn [probe_functions]; [wp_step; by apply HQ|].
  wp_step. apply wp_probe_function; [done|]. intros s1 H1. rewrite seqZ_cons in HQ by lia. cbn [looked_at] in HQ.
  replace (Z.succ func) with (func + 1) in HQ by lia. replace (Z.pred (Z.of_nat (S n))) with (Z.of_nat n) in HQ by lia.
  destruct ((0 <? func) && negb _); cbn [negb].
  - wp_step. by apply HQ.
  - apply IH; [apply H1|]. intros s2 H2. apply HQ. pose proof (added_trans _ _ _ _ _ H1 H2) as H3.
    rewrite <- fmap_app, <- filter_app in H3. exact H3.
Qed.

(** A loop whose rounds add one list after another. *)
Lemma wp_adding_range a b (body : Z → PM unit) (f : Z → list PCIDeviceEntry) (Q : unit → pci D → Prop) s :
  ok (pci_hw s) →
  (∀ i s1 (Q1 : unit → pci D → Prop), a ≤ i < b → pci_acpi s1 = pci_acpi s → ok (pci_hw s1) →
     (∀ s2, added (f i) s1 s2 → Q1 tt s2) → wp (body i) Q1 s1) →
  (∀ s', added (seqZ a (b - a) ≫= f) s s' → Q tt s') →
  wp (for_range a b body) Q s.
Proof.
  intros Hok Hbody HQ. destruct (Z.le_gt_cases a b) as [Hab|Hab].
  - apply (wp_for_range (λ i s', added (seqZ a (i - a) ≫= f) s s')); [done| | |done].
    + by rewrite Z.sub_diag.
    + intros i s1 Hi H1. apply Hbody; [done|apply H1|apply H1|]. intros s2 H2. replace (i + 1 - a) with (i - a + 1) by lia.
      rewrite seqZ_app, bind_app by lia. replace (a + (i - a)) with i by lia.
      replace (seqZ i 1 ≫= f) with (f i) by (symmetry; apply app_nil_r).
      by apply (added_trans _ _ _ s1).
  - unfold for_range. replace (Z.to_nat (b - a)) with 0%nat by lia. cbn [for_loop]. wp_step. apply HQ.
    by rewrite seqZ_nil by lia.
Qed.

Lemma wp_probe_bus base bus (Q : unit → pci D → Prop) s :
  ok (pci_hw s) → (∀ s', added (bus_functions base bus) s s' → Q tt s') → wp (probe_bus base bus) Q s.
Proof.
  intros Hok HQ. apply (wp_adding_range 0 32 _ (device_functions base bus)); [done| |done].
  intros i s1 Q1 _ _ Hok1 HQ1. by apply wp_probe_functions.
Qed.
(** C30: Where the firmware's table gives one segment, [enumerate_pci_devices] ends with a
    list of exactly the functions that answer on its buses from the first up to, but not
    including, the last, the latest found first; [get_pci_device] then returns the first
    of the list whose class bits are the ones asked for. *)
Theorem enumerate_spec mcfg base start_bus end_bus l s ty mask :
  find_table MCFG_SIGNATURE (pci_acpi s) = Ok (mcfg, pci_acpi s) → mcfg ≠ 0 →
  bytes_at (ac_memory (pci_acpi s)) mcfg l → length l = 60%nat → le_value (take 4 (drop 4 l)) = 60 →
  le_value (take 8 (drop 44 l)) = base → l !! 54%nat = Some start_bus → l !! 55%nat = Some end_bus →
  ok (pci_hw s) → g_pci_device_list s = [] →
  wp enumerate_pci_devices (λ _ s',
    g_pci_device_list s' = reverse (segment_functions base start_bus end_bus) ∧
    get_pci_device ty mask s' =
      Ok (match find (λ e, Z.land (type e) mask =? ty) (reverse (segment_functions base start_bus end_bus)) with
          | Some e => config_space e | None => 0 end, s')) s.
Proof.
  intros Hft Hm Hl Hlen Hsize Hbase Hstart Hend Hok Hnil. unfold enumerate_pci_devices.
  assert (∀ {A} (m : M acpi A) a (Q : A → pci D → Prop), m (pci_acpi s) = Ok (a, pci_acpi s) → Q a s → wp (on_tables m) Q s) as Hwp.
  { intros A m a Q E HQ. exists a, s. unfold on_tables. rewrite E. by destruct s. }
  assert (∀ i n x, le_value (take n (drop i l)) = x → (i + n ≤ 60)%nat →
    load_le (mcfg + Z.of_nat i) n (pci_acpi s) = Ok (x, pci_acpi s)) as Hle.
  { intros i n x Hx Hi. apply wp_eq. apply (wp_load_le _ n (take n (drop i l)));
      [rewrite length_take, length_drop; lia|by apply bytes_at_take_drop|done]. }
  wp_step. eapply Hwp; [exact Hft|]. wp_step. wp_step; [by replace (mcfg =? 0) with false by lia|].
  wp_step. eapply Hwp; [apply (Hle 4%nat 4%nat); [exact Hsize|lia]|].
  replace (u64 (60 - sizeof_MCFG) / sizeof_MCFGEntry) with 1 by done.
  apply (wp_adding_range 0 1 _ (λ _, segment_functions base start_bus end_bus)); [done| |].
  - intros i s1 Q1 Hi Ha Hok1 HQ1. assert (i = 0) as -> by lia. unfold probe_entry.
    assert (∀ {A} (m : M acpi A) a (Q : A → pci D → Prop), m (pci_acpi s) = Ok (a, pci_acpi s) → Q a s1 → wp (on_tables m) Q s1) as Hwp1.
    { intros A m a Q E HQ. exists a, s1. unfold on_tables. rewrite Ha, E, <- Ha. by destruct s1. }
    assert (∀ i b, l !! i = Some b → load_byte (mcfg + Z.of_nat i) (pci_acpi s) = Ok (b, pci_acpi s)) as Hbyte.
    { intros i b Hb. apply wp_eq. by eapply wp_load_byte; [apply Hl|]. }
    replace (mcfg + sizeof_MCFG + sizeof_MCFGEntry * 0) with (mcfg + 44) by (unfold sizeof_MCFG; lia).
    wp_step. eapply Hwp1; [apply (Hle 44%nat 8%nat); [exact Hbase|lia]|].
    wp_step. eapply Hwp1; [replace (mcfg + 44 + 10) with (mcfg + Z.of_nat 54) by lia; by apply Hbyte|].
    wp_step. eapply Hwp1; [replace (mcfg + 44 + 11) with (mcfg + Z.of_nat 55) by lia; by apply Hbyte|].
    apply (wp_adding_range _ _ _ (bus_functions base)); [done| |done].
    intros bus s2 Q2 _ _ Hok2 HQ2. by apply wp_probe_bus.
  - intros s' (E & _ & _). rewrite Hnil, app_nil_r in E.
    change (seqZ 0 (1 - 0) ≫= _) with (segment_functions base start_bus end_bus ++ []) in E. rewrite app_nil_r in E. split; [exact E|].
    unfold get_pci_device, gets. rewrite E. by rewrite find_device_find.
Qed.
End pci.
End Pci.
