(* ===== verification/Ahci.v ===== *)
(** The disk controller: kernel/src/ahci.c with kernel/include/ahci/hba.h and fis.h.

    The registers of the controller are device registers. The command headers and command
    tables it reads from memory are structs, by their virtual address; [ah_dma] is the
    memory that was allocated for them, and clearing anything outside it is a fault. *)
From S2P Require Import Prelude Util Devices Pci.

Module Ahci.
Import Util Devices.

Definition PRDT_LEN : Z := 8.
Definition CMD_TABLE_SIZE : Z := ((128 + PRDT_LEN * 16) + 128 - 1) / 128 * 128.
Definition PORT_CMD_CR : Z := Z.shiftl 1 15.
Definition PORT_CMD_FR : Z := Z.shiftl 1 14.
Definition PORT_CMD_FRE : Z := Z.shiftl 1 4.
Definition PORT_CMD_ST : Z := Z.shiftl 1 0.
Definition PORT_IPM_ACTIVE : Z := 1.
Definition PORT_DET_PRESENT : Z := 3.
Definition PORT_IS_TFES : Z := Z.shiftl 1 30.
Definition SATA_SIG_ATA : Z := 0x00000101.
Definition ATA_CMD_READ_DMA_EX : Z := 0x25.
Definition ATA_CMD_WRITE_DMA_EXT : Z := 0x35.
Definition ATA_DEV_DRQ : Z := 0x8.
Definition ATA_DEV_BUSY : Z := 0x80.
Definition FIS_TYPE_REG_H2D : Z := 0x27.
Definition sizeof_FISRegH2D : Z := 20.
Definition sizeof_CMDHeader : Z := 32.
Definition sizeof_Device : Z := 32.

(** Registers of the controller and of a port (AHCIController, AHCIPort). *)
Definition CAPABILITIES : Z := 0x00.
Definition PORT_IMPL : Z := 0x0C.
Definition port_address (controller p : Z) : Z := controller + 0x100 + 0x80 * p.
Definition CMD_LIST_BASE : Z := 0x00.
Definition FIS_BASE : Z := 0x08.
Definition INTERRUPT_STATUS : Z := 0x10.
Definition CMD : Z := 0x18.
Definition TASK_FILE_DATA : Z := 0x20.
Definition SIGNATURE : Z := 0x24.
Definition SATA_STATUS : Z := 0x28.
Definition SATA_ACTIVE : Z := 0x34.
Definition CMD_ISSUE : Z := 0x38.

(** The fields of a command header that are set. *)
Record CMDHeader := { cmd_fis_len : Z; hdr_write : bool; prdt_len : Z; cmd_table_base : Z }.
Definition zero_header : CMDHeader := {| cmd_fis_len := 0; hdr_write := false; prdt_len := 0; cmd_table_base := 0 |}.

(** [byte_count] has 22 bits. *)
Record PRDTEntry := { data_base : Z; byte_count : Z; interrupt : Z }.
Definition zero_entry : PRDTEntry := {| data_base := 0; byte_count := 0; interrupt := 0 |}.

Record FISRegH2D := {
  fis_type : Z; fis_c : Z; fis_cmd : Z;
  lba0 : Z; lba1 : Z; lba2 : Z; device_reg : Z; lba3 : Z; lba4 : Z; lba5 : Z;
  countl : Z; counth : Z;
}.
Definition zero_fis : FISRegH2D :=
  {| fis_type := 0; fis_c := 0; fis_cmd := 0; lba0 := 0; lba1 := 0; lba2 := 0; device_reg := 0;
     lba3 := 0; lba4 := 0; lba5 := 0; countl := 0; counth := 0 |}.

(** [prdt_entry] has room for PRDT_LEN entries. *)
Record CMDTable := { cmd_fis : FISRegH2D; prdt_entry : list PRDTEntry }.
Definition zero_table : CMDTable := {| cmd_fis := zero_fis; prdt_entry := replicate (Z.to_nat PRDT_LEN) zero_entry |}.

Record Device := { dev_port : Z; dev_cmd_header : Z; dev_fis_base : Z; dev_cmd_tables : Z }.

(** g_ahci, the structs in memory, and the rest of the machine. *)
Record ahci (D : Type) := {
  ah_controller : Z;
  ah_port_count : Z;
  ah_cmd_slots : Z;
  ah_devices : list Device;
  ah_headers : gmap Z CMDHeader;
  ah_tables : gmap Z CMDTable;
  ah_dma : Z * Z;
  ah_hw : D;
}.
Arguments ah_controller {D} _.
Arguments ah_port_count {D} _.
Arguments ah_cmd_slots {D} _.
Arguments ah_devices {D} _.
Arguments ah_headers {D} _.
Arguments ah_tables {D} _.
Arguments ah_dma {D} _.
Arguments ah_hw {D} _.

Section ahci.
Context {D : Type} `{!Devices D}.

Abbreviation HM := (M (ahci D)).
Implicit Types s : ahci D.

Definition with_hw (d : D) s : ahci D :=
  {| ah_controller := ah_controller s; ah_port_count := ah_port_count s; ah_cmd_slots := ah_cmd_slots s;
     ah_devices := ah_devices s; ah_headers := ah_headers s; ah_tables := ah_tables s; ah_dma := ah_dma s; ah_hw := d |}.
Definition with_controller (c ports slots : Z) s : ahci D :=
  {| ah_controller := c; ah_port_count := ports; ah_cmd_slots := slots;
     ah_devices := ah_devices s; ah_headers := ah_headers s; ah_tables := ah_tables s; ah_dma := ah_dma s; ah_hw := ah_hw s |}.
Definition with_devices (l : list Device) s : ahci D :=
  {| ah_controller := ah_controller s; ah_port_count := ah_port_count s; ah_cmd_slots := ah_cmd_slots s;
     ah_devices := l; ah_headers := ah_headers s; ah_tables := ah_tables s; ah_dma := ah_dma s; ah_hw := ah_hw s |}.
Definition with_headers (h : gmap Z CMDHeader) s : ahci D :=
  {| ah_controller := ah_controller s; ah_port_count := ah_port_count s; ah_cmd_slots := ah_cmd_slots s;
     ah_devices := ah_devices s; ah_headers := h; ah_tables := ah_tables s; ah_dma := ah_dma s; ah_hw := ah_hw s |}.
Definition with_tables (t : gmap Z CMDTable) s : ahci D :=
  {| ah_controller := ah_controller s; ah_port_count := ah_port_count s; ah_cmd_slots := ah_cmd_slots s;
     ah_devices := ah_devices s; ah_headers := ah_headers s; ah_tables := t; ah_dma := ah_dma s; ah_hw := ah_hw s |}.
Definition with_dma (r : Z * Z) s : ahci D :=
  {| ah_controller := ah_controller s; ah_port_count := ah_port_count s; ah_cmd_slots := ah_cmd_slots s;
     ah_devices := ah_devices s; ah_headers := ah_headers s; ah_tables := ah_tables s; ah_dma := r; ah_hw := ah_hw s |}.

Definition on_hw {A} (m : M D A) : HM A := λ s,
  match m (ah_hw s) with Ok (r, d) => Ok (r, with_hw d s) | Fault f => Fault f end.

(** *** Ports *)

Definition wait_clear (fuel : nat) (a bits : Z) : M D unit :=
  loop fuel (λ _, v ← mmio_read 4 a; mret (if Z.land v bits =? 0 then inr tt else inl tt)) tt.

Definition start_cmd (fuel : nat) (port : Z) : M D unit :=
  _ ← wait_clear fuel (port + CMD) PORT_CMD_CR;
  _ ← mmio_update (port + CMD) (λ v, Z.lor v PORT_CMD_FRE);
  mmio_update (port + CMD) (λ v, Z.lor v PORT_CMD_ST).

Definition stop_cmd (fuel : nat) (port : Z) : M D unit :=
  _ ← mmio_update (port + CMD) (λ v, Z.ldiff v PORT_CMD_ST);
  _ ← mmio_update (port + CMD) (λ v, Z.ldiff v PORT_CMD_FRE);
  loop fuel (λ _,
    v ← mmio_read 4 (port + CMD);
    if negb (Z.land v PORT_CMD_FR =? 0) then mret (inl tt)
    else
      v ← mmio_read 4 (port + CMD);
      mret (if negb (Z.land v PORT_CMD_CR =? 0) then inl tt else inr tt)) tt.

(** The first of [n] slots, numbered from [i], that is free in [slots]. *)
Fixpoint first_free (n : nat) (i slots : Z) : option Z :=
  match n with
  | O => None
  | S n => if Z.land slots 1 =? 0 then Some i else first_free n (i + 1) (Z.shiftr slots 1)
  end.

Definition find_cmd_slot (port : Z) : HM Z :=
  active ← on_hw (mmio_read 4 (port + SATA_ACTIVE));
  issue ← on_hw (mmio_read 4 (port + CMD_ISSUE));
  cmd_slots ← gets ah_cmd_slots;
  of_option (AssertFailed "Failed to find free cmd slot")
    (first_free (Z.to_nat cmd_slots) 0 (Z.lor active issue)).

(** *** Structs in memory *)

Definition update_header (a : Z) (f : CMDHeader → CMDHeader) : HM unit :=
  h ← gets (λ s, ah_headers s !! a); h ← of_option (BadPointer a) h;
  modify (λ s, with_headers (<[a := f h]> (ah_headers s)) s).
Definition update_table (a : Z) (f : CMDTable → CMDTable) : HM unit :=
  t ← gets (λ s, ah_tables s !! a); t ← of_option (BadPointer a) t;
  modify (λ s, with_tables (<[a := f t]> (ah_tables s)) s).

(** The memory [a, a + n) was allocated. *)
Definition in_dma (a n : Z) : HM unit :=
  r ← gets ah_dma; if (r.1 <=? a) && (a + n <=? r.2) then mret tt else throw (BadPointer a).

(** memset of a command table; of the 32 headers a kilobyte holds. *)
Definition clear_table (a : Z) : HM unit :=
  _ ← in_dma a CMD_TABLE_SIZE; modify (λ s, with_tables (<[a := zero_table]> (ah_tables s)) s).
Definition clear_headers (a : Z) : HM unit :=
  _ ← in_dma a 1024;
  modify (λ s, with_headers (foldr (λ i, <[a + 32 * Z.of_nat i := zero_header]>) (ah_headers s) (seq 0 32)) s).

Definition set_prdt (i : Z) (e : PRDTEntry) (t : CMDTable) : CMDTable :=
  {| cmd_fis := cmd_fis t; prdt_entry := insertZ i e (prdt_entry t) |}.

(** *** Reading and writing *)

Context (kvirt_to_phys_addr : Z → M D (option Z)).

(** The physical address, with the assertion every call is followed by. *)
Definition phys_of (v : Z) (msg : string) : HM Z :=
  p ← on_hw (kvirt_to_phys_addr v); of_option (AssertFailed msg) p.

(** Entry [i] of the table: [n] bytes at [buffer]. *)
Definition put_prdt (table i buffer n : Z) : HM unit :=
  phys ← phys_of buffer "Failed to get phys addr";
  t ← gets (λ s, ah_tables s !! table);
  t ← of_option (BadPointer table) t;
  if i <? Z.of_nat (length (prdt_entry t)) then
    update_table table (set_prdt i {| data_base := phys; byte_count := wrap 22 (n - 1); interrupt := 1 |})
  else throw OutOfBounds.

Definition setup_prdt (table prdt_len sector_count buffer : Z) : HM unit :=
  _ ← for_range 0 (prdt_len - 1) (λ i, put_prdt table i (buffer + 0x2000 * i) 0x2000);
  put_prdt table (prdt_len - 1) (buffer + 0x2000 * (prdt_len - 1)) ((sector_count mod 16) * 512).

Definition command_fis (sector sector_count : Z) (write : bool) : FISRegH2D :=
  let sector_l := u32 sector in
  let sector_h := u32 (Z.shiftr sector 32) in
  {| fis_type := FIS_TYPE_REG_H2D; fis_c := 1;
     fis_cmd := if write then ATA_CMD_WRITE_DMA_EXT else ATA_CMD_READ_DMA_EX;
     lba0 := u8 sector_l; lba1 := u8 (Z.shiftr sector_l 8); lba2 := u8 (Z.shiftr sector_l 16);
     device_reg := Z.shiftl 1 6; lba3 := u8 (Z.shiftr sector_l 24);
     lba4 := u8 sector_h; lba5 := u8 (Z.shiftr sector_h 8);
     countl := Z.land sector_count 0xff; counth := Z.land (Z.shiftr sector_count 8) 0xff |}.

(** The header and the table of a command. *)
Definition build_command (header table sector sector_count buffer : Z) (write : bool) : HM unit :=
  let len := Z.quot (sector_count - 1) 16 + 1 in
  _ ← update_header header (λ h, {| cmd_fis_len := sizeof_FISRegH2D / 4; hdr_write := write; prdt_len := len;
                                    cmd_table_base := cmd_table_base h |});
  _ ← clear_table table;
  _ ← setup_prdt table len sector_count buffer;
  update_table table (λ t, {| cmd_fis := command_fis sector sector_count write; prdt_entry := prdt_entry t |}).

(** while ((task_file_data & (BUSY | DRQ)) && spin < 1000000) spin++ *)
Definition wait_ready (port : Z) (limit : nat) : M D unit :=
  spin ← loop (S limit) (λ spin,
    v ← mmio_read 4 (port + TASK_FILE_DATA);
    mret (if negb (Z.land v (Z.lor ATA_DEV_BUSY ATA_DEV_DRQ) =? 0) && (spin <? Z.of_nat limit)
          then inl (spin + 1) else inr spin)) 0;
  kernel_assert (negb (spin =? Z.of_nat limit)) "Port hung".

Definition wait_done (fuel : nat) (port : Z) : M D unit :=
  loop fuel (λ _,
    issue ← mmio_read 4 (port + CMD_ISSUE);
    if issue =? 0 then mret (inr tt)
    else
      status ← mmio_read 4 (port + INTERRUPT_STATUS);
      _ ← kernel_assert (Z.land status PORT_IS_TFES =? 0) "Failed to read";
      mret (inl tt)) tt.

Definition spin_limit : nat := Z.to_nat 1000000.

Definition read_write_sectors (fuel : nat) (device_id sector sector_count buffer : Z) (write : bool) : HM unit :=
  dev ← gets (λ s, lookupZ (ah_devices s) device_id);
  dev ← of_option OutOfBounds dev;
  controller ← gets ah_controller;
  let port := port_address controller (dev_port dev) in
  cmd_slot ← find_cmd_slot port;
  _ ← on_hw (mmio_write 4 (port + INTERRUPT_STATUS) 0xffffffff);
  _ ← kernel_assert (sector_count * 512 <=? PRDT_LEN * 0x2000) "PRDT_LEN too small to support that many sectors";
  _ ← build_command (dev_cmd_header dev + sizeof_CMDHeader * cmd_slot) (dev_cmd_tables dev + CMD_TABLE_SIZE * cmd_slot)
        sector sector_count buffer write;
  _ ← on_hw (wait_ready port spin_limit);
  _ ← on_hw (mmio_update (port + CMD_ISSUE) (λ v, Z.lor v (Z.shiftl 1 cmd_slot)));
  on_hw (wait_done fuel port).

(** *** Initialisation *)

Context (pci_device : Z → Z → M D Z) (kmap_phys_range : Z → Z → Z → M D Z) (kalloc : Z → M D Z)
  (alloc_pages_contiguous : Z → Z → M D Z) (fuel : nat).

(** The address and the size in pages of the register block BAR5 names. *)
Definition probe_abar (config_space : Z) : M D (Z * Z) :=
  abar ← mmio_read 4 (config_space + Pci.BAR5);
  bar ← mmio_read 4 (config_space + Pci.BAR5);
  _ ← mmio_write 4 (config_space + Pci.BAR5) 0xffffffff;
  mask ← mmio_read 4 (config_space + Pci.BAR5);
  let size := u32 (u32 (Z.lnot (Z.land mask 0xfffffff0)) + 1) in
  _ ← mmio_write 4 (config_space + Pci.BAR5) abar;
  mret (Z.land bar 0xfffffff0, u32 (u32 (size + PAGE_SIZE) - 1) / PAGE_SIZE).

Definition setup_controller : HM unit :=
  config_space ← on_hw (pci_device 0x01060000 Pci.PCI_DEVICE_SUBCLASS_MASK);
  _ ← kernel_assert (negb (config_space =? 0)) "AHCI controller not found";
  '(phys, pages) ← on_hw (probe_abar config_space);
  controller ← on_hw (kmap_phys_range phys pages 5);
  capabilities ← on_hw (mmio_read 4 (controller + CAPABILITIES));
  _ ← kernel_assert (negb (Z.land capabilities (Z.shiftl 1 31) =? 0)) "AHCI controller does not support 64-bit addressing";
  c1 ← on_hw (mmio_read 4 (controller + CAPABILITIES));
  c2 ← on_hw (mmio_read 4 (controller + CAPABILITIES));
  modify (with_controller controller (Z.land c1 0x1f + 1) (Z.land (Z.shiftr c2 8) 0x1f + 1)).

(** The memory a device gets and what of it is used. *)
Definition dma_pages (cmd_slots : Z) : Z :=
  let cmd_headers_size := (32 * cmd_slots + 256 - 1) / 256 * 256 in
  (cmd_headers_size + 256 + cmd_slots * CMD_TABLE_SIZE + PAGE_SIZE - 1) / PAGE_SIZE.
Definition dma_used (cmd_slots : Z) : Z := 1024 + 256 + cmd_slots * CMD_TABLE_SIZE.

Definition alloc_dma : HM Z :=
  cmd_slots ← gets ah_cmd_slots;
  dma ← on_hw (alloc_pages_contiguous (dma_pages cmd_slots) 1);
  _ ← kernel_assert (negb (dma =? 0)) "Failed to allocate memory";
  _ ← modify (with_dma (dma, dma + dma_pages cmd_slots * PAGE_SIZE));
  mret dma.

(** The command headers and the area for received FISes. *)
Definition setup_lists (dma port : Z) : HM unit :=
  phys ← phys_of dma "Failed to get physical address";
  _ ← on_hw (mmio_write 8 (port + CMD_LIST_BASE) phys);
  _ ← clear_headers dma;
  let fis := dma + 1024 in
  phys ← phys_of fis "Failed to get physical address";
  _ ← on_hw (mmio_write 8 (port + FIS_BASE) phys);
  in_dma fis 256.

(** The header and the table of slot [i]. *)
Definition setup_table (header tables i : Z) : HM unit :=
  _ ← update_header (header + sizeof_CMDHeader * i) (λ h, {| cmd_fis_len := cmd_fis_len h; hdr_write := hdr_write h;
        prdt_len := PRDT_LEN; cmd_table_base := cmd_table_base h |});
  let table := tables + CMD_TABLE_SIZE * i in
  phys ← phys_of table "Failed to get physical address";
  _ ← kernel_assert (Z.land phys 63 =? 0) "Not aligned";
  _ ← update_header (header + sizeof_CMDHeader * i) (λ h, {| cmd_fis_len := cmd_fis_len h; hdr_write := hdr_write h;
        prdt_len := prdt_len h; cmd_table_base := phys |});
  clear_table table.

(** [devices] is the array of the devices. *)
Definition setup_device (devices p port : Z) : HM unit :=
  _ ← (if devices =? 0 then throw NullDeref else mret tt);
  dma ← alloc_dma;
  _ ← setup_lists dma port;
  let fis := dma + 1024 in
  let tables := fis + 256 in
  cmd_slots ← gets ah_cmd_slots;
  _ ← for_range 0 cmd_slots (setup_table dma tables);
  modify (λ s, with_devices (ah_devices s ++
    [{| dev_port := p; dev_cmd_header := dma; dev_fis_base := fis; dev_cmd_tables := tables |}]) s).

(** A port with an ATA drive that is present and active is set up. *)
Definition setup_port (devices port_impl p : Z) : HM unit :=
  if Z.land port_impl (Z.shiftl 1 p) =? 0 then mret tt
  else
    controller ← gets ah_controller;
    let port := port_address controller p in
    sata_status ← on_hw (mmio_read 4 (port + SATA_STATUS));
    if negb (Z.land sata_status 7 =? PORT_DET_PRESENT) then mret tt
    else if negb (Z.land (Z.shiftr sata_status 8) 7 =? PORT_IPM_ACTIVE) then mret tt
    else
      signature ← on_hw (mmio_read 4 (port + SIGNATURE));
      if negb (signature =? SATA_SIG_ATA) then mret tt
      else
        _ ← on_hw (stop_cmd fuel port);
        _ ← setup_device devices p port;
        on_hw (start_cmd fuel port).

Definition initialize_ahci : HM unit :=
  _ ← setup_controller;
  port_count ← gets ah_port_count;
  devices ← on_hw (kalloc (sizeof_Device * port_count));
  controller ← gets ah_controller;
  port_impl ← on_hw (mmio_read 4 (controller + PORT_IMPL));
  for_range 0 port_count (setup_port devices port_impl).
End ahci.
End Ahci.
