(* ===== verification/AhciProofs.v ===== *)
(** Theorems on the disk controller: the slot a command takes, what the command's table
    describes, the end of the waiting loops, the memory a device gets. *)
From S2P Require Import Prelude Util Devices Ahci.

Module AhciProofs.
Import Util Devices Ahci.

(** ** Slots *)

Lemma first_free_spec n i slots :
  match first_free n i slots with
  | Some k => i ≤ k < i + Z.of_nat n ∧ Z.testbit slots (k - i) = false ∧ ∀ j, i ≤ j < k → Z.testbit slots (j - i) = true
  | None => ∀ j, i ≤ j < i + Z.of_nat n → Z.testbit slots (j - i) = true
  end.
Proof.
  revert i slots. induction n as [|n IH]; intros i slots; cbn [first_free]; [lia|].
  assert ((Z.land slots 1 =? 0) = negb (Z.testbit slots 0)) as ->.
  { change 1 with (Z.ones 1) at 1. rewrite Z.land_ones by lia. change (2 ^ 1) with 2. rewrite <- Z.bit0_mod.
    by destruct (Z.testbit slots 0). }
  destruct (Z.testbit slots 0) eqn:E0; cbn [negb].
  - assert (∀ j, i ≤ j → (∀ j', i + 1 ≤ j' < j + 1 → Z.testbit (Z.shiftr slots 1) (j' - (i + 1)) = true) →
      ∀ j', i ≤ j' < j + 1 → Z.testbit slots (j' - i) = true) as Hup.
    { intros j Hj H j' Hj'. destruct (Z.eq_dec j' i) as [->|?]; [by rewrite Z.sub_diag|].
      rewrite <- (H j') by lia. rewrite Z.shiftr_spec by lia. f_equal. lia. }
    specialize (IH (i + 1) (Z.shiftr slots 1)). destruct (first_free n (i + 1) _) as [k|].
    + destruct IH as (Hk & Hfree & Hused). split; [lia|]. split.
      * rewrite Z.shiftr_spec in Hfree by lia. rewrite <- Hfree. f_equal. lia.
      * intros j Hj. apply (Hup (k - 1)); [lia| |lia]. intros j' Hj'. apply Hused. lia.
    + intros j Hj. apply (Hup (i + Z.of_nat n)); [lia| |lia]. intros j' Hj'. apply IH. lia.
  - split; [lia|]. split; [by rewrite Z.sub_diag|lia].
Qed.

(** ** What a table describes *)

(** The physical addresses an entry makes the controller transfer to or from. *)
Definition described (e : PRDTEntry) : list Z := seqZ (data_base e) (byte_count e + 1).

(** The 48-bit address and the count the drive reads off the FIS. *)
Definition fis_lba (f : FISRegH2D) : Z :=
  lba0 f + 2 ^ 8 * lba1 f + 2 ^ 16 * lba2 f + 2 ^ 24 * lba3 f + 2 ^ 32 * lba4 f + 2 ^ 40 * lba5 f.
Definition fis_count (f : FISRegH2D) : Z := countl f + 2 ^ 8 * counth f.

Lemma command_fis_lba sector count write : fis_lba (command_fis sector count write) = sector mod 2 ^ 48.
Proof.
  unfold fis_lba, command_fis. cbn [lba0 lba1 lba2 lba3 lba4 lba5].
  pose proof (le_value_bytes 4 (u32 sector)) as Hl. pose proof (le_value_bytes 2 (u32 (Z.shiftr sector 32))) as Hh.
  change (le_value _) with (u8 (u32 sector) + 256 * (u8 (Z.shiftr (u32 sector) 8) + 256 *
    (u8 (Z.shiftr (u32 sector) 16) + 256 * (u8 (Z.shiftr (u32 sector) 24) + 256 * 0)))) in Hl.
  change (le_value _) with (u8 (u32 (Z.shiftr sector 32)) + 256 * (u8 (Z.shiftr (u32 (Z.shiftr sector 32)) 8) + 256 * 0)) in Hh.
  change (8 * Z.of_nat 4) with 32 in Hl. change (8 * Z.of_nat 2) with 16 in Hh.
  rewrite wrap_wrap in Hl by lia.
  assert (sector mod 2 ^ 48 = u32 sector + 2 ^ 32 * wrap 16 (u32 (Z.shiftr sector 32))) as ->.
  { unfold wrap. rewrite Z.shiftr_div_pow2 by lia. change (2 ^ 48) with (2 ^ 32 * 2 ^ 16).
    rewrite Z.rem_mul_r, Z.mod_mod_divide by (try done; by exists (2 ^ 16)). done. }
  lia.
Qed.

Lemma command_fis_count sector count write : 0 ≤ count < 2 ^ 16 → fis_count (command_fis sector count write) = count.
Proof.
  intros H. unfold fis_count, command_fis. cbn [countl counth]. change 255 with (Z.ones 8).
  rewrite !Z.land_ones, Z.shiftr_div_pow2, <- Z.rem_mul_r by done. by apply Z.mod_small.
Qed.

Section commands.
Context {D : Type} `{!Devices D} (kvirt_to_phys_addr : Z → M D (option Z)) (phys : Z → Z).
Hypothesis translates : ∀ v d, kvirt_to_phys_addr v d = Ok (Some (phys v), d).

Implicit Types s : ahci D.

Lemma wp_on_hw {A} (m : M D A) r d (Q : A → ahci D → Prop) s :
  m (ah_hw s) = Ok (r, d) → Q r (with_hw d s) → wp (on_hw m) Q s.
Proof. intros E HQ. eexists r, _. unfold on_hw. by rewrite E. Qed.

Lemma with_hw_same s : with_hw (ah_hw s) s = s.
Proof. by destruct s. Qed.

Lemma wp_on_hw_pure {A} (m : M D A) r (Q : A → ahci D → Prop) s :
  m (ah_hw s) = Ok (r, ah_hw s) → Q r s → wp (on_hw m) Q s.
Proof. intros E HQ. eapply wp_on_hw; [exact E|]. by rewrite with_hw_same. Qed.

Lemma wp_phys_of v msg (Q : Z → ahci D → Prop) s : Q (phys v) s → wp (phys_of kvirt_to_phys_addr v msg) Q s.
Proof. intros HQ. unfold phys_of. wp_step. eapply wp_on_hw_pure; [apply translates|]. by wp_step. Qed.

Lemma wp_update_table a f t (Q : unit → ahci D → Prop) s :
  ah_tables s !! a = Some t → Q tt (with_tables (<[a := f t]> (ah_tables s)) s) → wp (update_table a f) Q s.
Proof. intros E HQ. unfold update_table. wp_steps; [exact E|]. by wp_steps. Qed.

Lemma wp_update_header a f h (Q : unit → ahci D → Prop) s :
  ah_headers s !! a = Some h → Q tt (with_headers (<[a := f h]> (ah_headers s)) s) → wp (update_header a f) Q s.
Proof. intros E HQ. unfold update_header. wp_steps; [exact E|]. by wp_steps. Qed.

Lemma wp_in_dma a n (Q : unit → ahci D → Prop) s :
  (ah_dma s).1 ≤ a → a + n ≤ (ah_dma s).2 → Q tt s → wp (in_dma a n) Q s.
Proof.
  intros H1 H2 HQ. unfold in_dma. wp_step. wp_step.
  replace ((_ <=? a) && (a + n <=? _)) with true by lia. by wp_step.
Qed.

Lemma wp_clear_table a (Q : unit → ahci D → Prop) s :
  (ah_dma s).1 ≤ a → a + CMD_TABLE_SIZE ≤ (ah_dma s).2 →
  Q tt (with_tables (<[a := zero_table]> (ah_tables s)) s) → wp (clear_table a) Q s.
Proof. intros H1 H2 HQ. unfold clear_table. wp_step. apply wp_in_dma; [done..|]. by wp_step. Qed.

Lemma wp_put_prdt table i buffer n t (Q : unit → ahci D → Prop) s :
  ah_tables s !! table = Some t → i < Z.of_nat (length (prdt_entry t)) →
  Q tt (with_tables (<[table := set_prdt i {| data_base := phys buffer; byte_count := wrap 22 (n - 1); interrupt := 1 |} t]>
    (ah_tables s)) s) →
  wp (put_prdt kvirt_to_phys_addr table i buffer n) Q s.
Proof.
  intros Ht Hi HQ. unfold put_prdt. wp_step. apply wp_phys_of. wp_steps; [exact Ht|].
  replace (i <? Z.of_nat (length (prdt_entry t))) with true by lia. by eapply wp_update_table.
Qed.

(** The entries of a command: whole chunks of 8 KiB and what [setup_prdt] puts last. *)
Definition chunk (buffer i : Z) : PRDTEntry :=
  {| data_base := phys (buffer + 0x2000 * i); byte_count := 0x1fff; interrupt := 1 |}.
Definition commanded (count buffer : Z) : list PRDTEntry :=
  let len := Z.quot (count - 1) 16 + 1 in
  (chunk buffer <$> seqZ 0 (len - 1)) ++
  [{| data_base := phys (buffer + 0x2000 * (len - 1)); byte_count := wrap 22 ((count mod 16) * 512 - 1); interrupt := 1 |}].

Lemma insertZ_front {A} (front back : list A) (k : nat) x :
  length front = k → (k < length (front ++ back))%nat →
  insertZ (Z.of_nat k) x (front ++ back) = (front ++ [x]) ++ drop 1 back.
Proof.
  intros <- Hl. unfold insertZ. replace (Z.of_nat (length front) <? 0) with false by lia. rewrite Nat2Z.id.
  rewrite length_app in Hl. destruct back as [|y back]; [cbn in Hl; lia|].
  rewrite <- app_assoc. cbn. rewrite drop_0. rewrite insert_app_r_alt, Nat.sub_diag by done. done.
Qed.

Lemma wp_setup_prdt table count buffer t (Q : unit → ahci D → Prop) s :
  ah_tables s !! table = Some t → length (prdt_entry t) = 8%nat → 1 ≤ count ≤ 128 →
  let len := Z.quot (count - 1) 16 + 1 in
  Q tt (with_tables (<[table := {| cmd_fis := cmd_fis t; prdt_entry := commanded count buffer ++ drop (Z.to_nat len) (prdt_entry t) |}]>
    (ah_tables s)) s) →
  wp (setup_prdt kvirt_to_phys_addr table len count buffer) Q s.
Proof.
  intros Ht Hlen Hc len HQ. assert (1 ≤ len ≤ 8) as Hl.
  { unfold len. Z.to_euclidean_division_equations. lia. }
  unfold setup_prdt. wp_step.
  apply (wp_for_range (λ i s', s' = with_tables (<[table := {| cmd_fis := cmd_fis t;
    prdt_entry := (chunk buffer <$> seqZ 0 i) ++ drop (Z.to_nat i) (prdt_entry t) |}]> (ah_tables s)) s)); [lia| | |].
  - rewrite drop_0. cbn [seqZ fmap]. destruct s, t. unfold with_tables. cbn in *. by rewrite insert_id.
  - intros i s' Hi ->. eapply wp_put_prdt; [apply lookup_insert_eq| |].
    + cbn [prdt_entry]. rewrite length_app, length_fmap, length_seqZ, length_drop. lia.
    + unfold with_tables. cbn [ah_tables]. rewrite insert_insert_eq. unfold set_prdt. cbn [cmd_fis prdt_entry ah_controller ah_port_count ah_cmd_slots ah_devices ah_headers ah_dma ah_hw].
      rewrite <- (Z2Nat.id i) at 1 by lia. rewrite insertZ_front; [|by rewrite length_fmap, length_seqZ; lia|rewrite length_app, length_fmap, length_seqZ, length_drop; lia].
      rewrite drop_drop. replace (Z.to_nat i + 1)%nat with (Z.to_nat (i + 1)) by lia. rewrite seqZ_app, fmap_app by lia. done.
  - intros s' ->. eapply wp_put_prdt; [apply lookup_insert_eq| |].
    + cbn [prdt_entry]. rewrite length_app, length_fmap, length_seqZ, length_drop. lia.
    + unfold with_tables in *. cbn [ah_tables ah_controller ah_port_count ah_cmd_slots ah_devices ah_headers ah_dma ah_hw]. rewrite insert_insert_eq.
      unfold set_prdt. cbn [cmd_fis prdt_entry].
      rewrite <- (Z2Nat.id (len - 1)) at 1 by lia. rewrite insertZ_front; [|by rewrite length_fmap, length_seqZ; lia|rewrite length_app, length_fmap, length_seqZ, length_drop; lia].
      rewrite drop_drop. replace (Z.to_nat (len - 1) + 1)%nat with (Z.to_nat len) by lia. exact HQ.
Qed.

Lemma wp_build_command header table sector count buffer write h (Q : unit → ahci D → Prop) s :
  ah_headers s !! header = Some h → (ah_dma s).1 ≤ table → table + CMD_TABLE_SIZE ≤ (ah_dma s).2 → 1 ≤ count ≤ 128 →
  let len := Z.quot (count - 1) 16 + 1 in
  Q tt (with_tables (<[table := {| cmd_fis := command_fis sector count write;
                                   prdt_entry := commanded count buffer ++ replicate (8 - Z.to_nat len) zero_entry |}]> (ah_tables s))
         (with_headers (<[header := {| cmd_fis_len := 5; hdr_write := write; prdt_len := len; cmd_table_base := cmd_table_base h |}]>
           (ah_headers s)) s)) →
  wp (build_command kvirt_to_phys_addr header table sector count buffer write) Q s.
Proof.
  intros Hh H1 H2 Hc len HQ. unfold build_command. wp_step. eapply wp_update_header; [exact Hh|].
  wp_step. apply wp_clear_table; [done..|]. wp_step. eapply wp_setup_prdt; [apply lookup_insert_eq|done|done|].
  eapply wp_update_table; [apply lookup_insert_eq|]. unfold with_tables, with_headers in *.
  cbn [ah_tables ah_controller ah_port_count ah_cmd_slots ah_devices ah_headers ah_dma ah_hw cmd_fis prdt_entry zero_table] in *.
  rewrite !insert_insert_eq. fold len. rewrite drop_replicate. exact HQ.
Qed.

(** ** The bytes of the buffer *)

(** Each chunk of 8 KiB lies in one piece in physical memory. *)
Definition chunks_contiguous (buffer : Z) : Prop :=
  ∀ i k, 0 ≤ i < 8 → 0 ≤ k < 0x2000 → phys (buffer + 0x2000 * i + k) = phys (buffer + 0x2000 * i) + k.

Lemma described_piece buffer i n e :
  chunks_contiguous buffer → 0 ≤ i < 8 → n ≤ 0x2000 →
  data_base e = phys (buffer + 0x2000 * i) → byte_count e + 1 = n →
  described e = phys <$> seqZ (buffer + 0x2000 * i) n.
Proof.
  intros Hc Hi Hn Hb He. unfold described. rewrite Hb, He. unfold seqZ. rewrite <- list_fmap_compose.
  apply list_fmap_ext. intros j k Hk. apply lookup_seq in Hk as [-> Hk]. cbn [compose].
  rewrite (Z.add_comm (Z.of_nat j) (buffer + _)), Hc by lia. lia.
Qed.

Lemma described_chunks buffer n :
  chunks_contiguous buffer → (n ≤ 8)%nat →
  (chunk buffer <$> seqZ 0 (Z.of_nat n)) ≫= described = phys <$> seqZ buffer (0x2000 * Z.of_nat n).
Proof.
  intros Hc. induction n as [|n IH]; intros Hn; [done|].
  replace (Z.of_nat (S n)) with (Z.of_nat n + 1) by lia. rewrite Z.mul_add_distr_l, !seqZ_app, !fmap_app, bind_app, IH by lia.
  f_equal. rewrite Z.add_0_l. change (seqZ (Z.of_nat n) 1) with [0 + Z.of_nat n]. cbn [fmap list_fmap mbind list_bind].
  rewrite app_nil_r, Z.add_0_l, Z.mul_1_r. by apply described_piece; [|lia| |cbn|cbn].
Qed.

(** The entries describe the buffer, byte by byte. *)
Lemma commanded_describes count buffer :
  chunks_contiguous buffer → 1 ≤ count ≤ 128 → count mod 16 ≠ 0 →
  commanded count buffer ≫= described = phys <$> seqZ buffer (count * 512).
Proof.
  intros Hc Hcount Hmod. unfold commanded. set (len := Z.quot (count - 1) 16 + 1).
  assert (len - 1 = count / 16 ∧ 0 ≤ len - 1 < 8 ∧ 0 < count mod 16 < 16) as (Hlen & Hl8 & Hm).
  { unfold len. Z.to_euclidean_division_equations. lia. }
  replace (count * 512) with (0x2000 * (len - 1) + count mod 16 * 512) by (rewrite Hlen; Z.to_euclidean_division_equations; lia).
  rewrite bind_app, seqZ_app, fmap_app by lia. rewrite <- (Z2Nat.id (len - 1)) at 1 3 by lia. rewrite described_chunks by (done || lia).
  f_equal. cbn [mbind list_bind]. rewrite app_nil_r. apply described_piece; [done|done|lia|done|].
  cbn [byte_count]. rewrite wrap_small; lia.
Qed.

(** A multiple of sixteen sectors: the last entry describes 4 MiB. *)
Lemma commanded_overruns count buffer :
  1 ≤ count ≤ 128 → count mod 16 = 0 →
  Z.of_nat (length (commanded count buffer ≫= described)) = 0x2000 * (count / 16 - 1) + 0x400000.
Proof.
  intros Hcount Hmod. unfold commanded. set (len := Z.quot (count - 1) 16 + 1).
  assert (len = count / 16 ∧ 1 ≤ len) as (Hlen & Hl8) by (unfold len; Z.to_euclidean_division_equations; lia).
  rewrite bind_app, length_app, Hmod. cbn [mbind list_bind]. rewrite app_nil_r. unfold described at 2. rewrite length_seqZ.
  cbn [byte_count]. change (Z.to_nat (wrap 22 (0 * 512 - 1) + 1)) with (Z.to_nat 0x400000). rewrite <- Hlen, Nat2Z.inj_add, Z2Nat.id by lia. f_equal.
  assert (∀ l : list Z, Z.of_nat (length ((chunk buffer <$> l) ≫= described)) = 0x2000 * Z.of_nat (length l)) as ->.
  { intros l. induction l as [|i l IH]; [done|]. cbn [fmap list_fmap mbind list_bind]. rewrite length_app.
    unfold described at 1. rewrite length_seqZ. cbn [chunk byte_count length] in *. unfold mbind, fmap in *. lia. }
  rewrite length_seqZ. lia.
Qed.

(** ** Reading and writing *)

(** A port that is ready: its registers are read without effect, [active] and [issued] are
    the commands it has, acknowledging interrupts leaves it ready, and a command issued to
    it is completed without an error within [bound] looks at it. [running n]: [n] looks
    from completion. *)
Context (port active issued : Z) (ready : D → Prop) (running : nat → D → Prop) (bound : nat).
Hypothesis ready_active : ∀ d, ready d → mmio_read 4 (port + SATA_ACTIVE) d = Ok (active, d).
Hypothesis ready_issued : ∀ d, ready d → mmio_read 4 (port + CMD_ISSUE) d = Ok (issued, d).
Hypothesis ready_status : ∀ d, ready d →
  ∃ v, mmio_read 4 (port + TASK_FILE_DATA) d = Ok (v, d) ∧ Z.land v (Z.lor ATA_DEV_BUSY ATA_DEV_DRQ) = 0.
Hypothesis ready_acknowledge : ∀ d, ready d →
  ∃ d', mmio_write 4 (port + INTERRUPT_STATUS) 0xffffffff d = Ok (tt, d') ∧ ready d'.
Hypothesis ready_issue : ∀ slot d, ready d → 0 ≤ slot → Z.testbit (Z.lor active issued) slot = false →
  ∃ d' n, mmio_write 4 (port + CMD_ISSUE) (u32 (Z.lor issued (Z.shiftl 1 slot))) d = Ok (tt, d') ∧ running n d' ∧ (n ≤ bound)%nat.
Hypothesis running_done : ∀ d, running 0 d → mmio_read 4 (port + CMD_ISSUE) d = Ok (0, d).
Hypothesis running_step : ∀ n d, running (S n) d →
  ∃ v d1 st d2, mmio_read 4 (port + CMD_ISSUE) d = Ok (v, d1) ∧ v ≠ 0 ∧
    mmio_read 4 (port + INTERRUPT_STATUS) d1 = Ok (st, d2) ∧ Z.land st PORT_IS_TFES = 0 ∧ running n d2.

Lemma wait_ready_ok limit d : (0 < limit)%nat → ready d → wait_ready port limit d = Ok (tt, d).
Proof.
  intros Hl Hd. apply wp_eq. unfold wait_ready. destruct (ready_status d Hd) as (v & E & Hv). wp_step.
  apply wp_loop_unroll. wp_step. eexists _, _. split; [exact E|]. wp_step. rewrite Hv.
  change (negb (0 =? 0)) with false. cbn [andb].
  wp_step; [|done]. by replace (0 =? Z.of_nat limit) with false by lia.
Qed.

Lemma wait_done_ok fuel n d : running n d → (n < fuel)%nat → ∃ d', wait_done fuel port d = Ok (tt, d').
Proof.
  revert fuel d. induction n as [|n IH]; intros fuel d Hd Hf; (destruct fuel as [|fuel]; [lia|]);
    unfold wait_done; cbn [loop]; unfold mbind, M_bind; fold (@mbind (M D)).
  - rewrite (running_done _ Hd). cbn. by eexists.
  - destruct (running_step _ _ Hd) as (v & d1 & st & d2 & E1 & Hv & E2 & Hst & Hd2). rewrite E1.
    replace (v =? 0) with false by lia. rewrite E2, Hst. cbn. apply (IH fuel d2 Hd2). lia.
Qed.

Lemma wp_find_cmd_slot (Q : Z → ahci D → Prop) s :
  ready (ah_hw s) → (∃ k, 0 ≤ k < ah_cmd_slots s ∧ Z.testbit (Z.lor active issued) k = false) →
  (∀ k, 0 ≤ k < ah_cmd_slots s → Z.testbit (Z.lor active issued) k = false →
    (∀ j, 0 ≤ j < k → Z.testbit (Z.lor active issued) j = true) → Q k s) →
  wp (find_cmd_slot port) Q s.
Proof.
  intros Hd (k & Hk & Hfree) HQ. unfold find_cmd_slot.
  wp_step. eapply wp_on_hw_pure; [by apply ready_active|]. wp_step. eapply wp_on_hw_pure; [by apply ready_issued|]. wp_step. wp_step.
  pose proof (first_free_spec (Z.to_nat (ah_cmd_slots s)) 0 (Z.lor active issued)) as H.
  destruct (first_free _ _ _) as [i|]; [|specialize (H k ltac:(lia)); rewrite Z.sub_0_r in H; congruence].
  destruct H as (Hi & Hfi & Hused). wp_step; [done|]. rewrite Z.sub_0_r in Hfi. apply HQ; [lia|done|].
  intros j Hj. rewrite <- (Hused j Hj). f_equal. lia.
Qed.

(** What memory holds of a command. *)
Definition command_ready (dev : Device) (slot sector count buffer : Z) (write : bool) (base : Z) s : Prop :=
  ∃ h t, ah_headers s !! (dev_cmd_header dev + sizeof_CMDHeader * slot) = Some h ∧
    ah_tables s !! (dev_cmd_tables dev + CMD_TABLE_SIZE * slot) = Some t ∧
    cmd_table_base h = base ∧ hdr_write h = write ∧ cmd_fis_len h * 4 = sizeof_FISRegH2D ∧
    fis_cmd (cmd_fis t) = (if write then ATA_CMD_WRITE_DMA_EXT else ATA_CMD_READ_DMA_EX) ∧
    fis_lba (cmd_fis t) = sector mod 2 ^ 48 ∧ fis_count (cmd_fis t) = count ∧
    (count mod 16 ≠ 0 → take (Z.to_nat (prdt_len h)) (prdt_entry t) ≫= described = phys <$> seqZ buffer (count * 512)) ∧
    (count mod 16 = 0 → Z.of_nat (length (take (Z.to_nat (prdt_len h)) (prdt_entry t) ≫= described)) =
      0x2000 * (count / 16 - 1) + 0x400000).


(** A port whose status stays busy is given up after 1000000 looks: the assertion
    "Port hung" fails, and nothing waits for ever. *)
Theorem wait_ready_hung limit v d :
  mmio_read 4 (port + TASK_FILE_DATA) d = Ok (v, d) → Z.land v (Z.lor ATA_DEV_BUSY ATA_DEV_DRQ) ≠ 0 →
  wait_ready port limit d = Fault (AssertFailed "Port hung").
Proof.
  intros E Hv. unfold wait_ready.
  match goal with |- (mbind _ (loop _ ?b _)) _ = _ => set (body := b) end.
  assert (∀ k n, (n + k = limit)%nat → wp (loop (S k) body (Z.of_nat n)) (λ b d', b = Z.of_nat limit ∧ d' = d) d) as Hloop.
  { induction k as [|k IH]; intros n Hn; apply wp_loop_unroll; unfold body at 1; wp_step; eexists v, d; (split; [exact E|]); wp_step;
      replace (Z.land v _ =? 0) with false by lia; cbn [negb andb].
    - replace (Z.of_nat n <? Z.of_nat limit) with false by lia. split; [lia|done].
    - replace (Z.of_nat n <? Z.of_nat limit) with true by lia. replace (Z.of_nat n + 1) with (Z.of_nat (S n)) by lia.
      apply IH. lia. }
  change 0 with (Z.of_nat 0) at 1. unfold mbind, M_bind. rewrite (wp_eq _ _ _ _ (Hloop limit 0%nat eq_refl)). unfold kernel_assert. by rewrite Z.eqb_refl.
Qed.

(** ** The memory of a device *)

Context (alloc_pages_contiguous : Z → Z → M D Z) (dma : Z).
Hypothesis alloc_ok : ∀ n d, ∃ d', alloc_pages_contiguous n 1 d = Ok (dma, d').
Hypothesis write_ok : ∀ n a v d, ∃ d', mmio_write n a v d = Ok (tt, d').
Hypothesis dma_linear : ∀ k, phys (dma + k) = phys dma + k.
Hypothesis dma_aligned : phys dma mod 4096 = 0.
Hypothesis dma_nonzero : dma ≠ 0.

Definition device_at (p : Z) : Device :=
  {| dev_port := p; dev_cmd_header := dma; dev_fis_base := dma + 1024; dev_cmd_tables := dma + 1024 + 256 |}.

(** Slot [i] of a device that was set up. *)
Definition slot_ready (dev : Device) (i : Z) s : Prop :=
  ah_headers s !! (dev_cmd_header dev + sizeof_CMDHeader * i) =
    Some {| cmd_fis_len := 0; hdr_write := false; prdt_len := PRDT_LEN;
            cmd_table_base := phys (dev_cmd_tables dev + CMD_TABLE_SIZE * i) |} ∧
  ah_tables s !! (dev_cmd_tables dev + CMD_TABLE_SIZE * i) = Some zero_table.

Lemma dma_fits slots :
  1 ≤ slots ≤ 32 → (dma_used slots ≤ dma_pages slots * PAGE_SIZE ↔ slots ≠ 12 ∧ slots ≠ 13).
Proof.
  intros H. transitivity ((dma_used slots <=? dma_pages slots * PAGE_SIZE) = true); [lia|].
  replace (dma_used slots <=? _) with (negb ((slots =? 12) || (slots =? 13))); [lia|].
  assert (∃ n, slots = Z.of_nat n ∧ (1 ≤ n ≤ 32)%nat) as (n & -> & Hn) by (exists (Z.to_nat slots); lia).
  do 33 (destruct n as [|n]; [vm_compute; done|]). lia.
Qed.

(** The headers that were cleared. *)
Lemma lookup_cleared (a : Z) n (m : gmap Z CMDHeader) i :
  0 ≤ i < Z.of_nat n → foldr (λ i, <[a + 32 * Z.of_nat i := zero_header]>) m (seq 0 n) !! (a + 32 * i) = Some zero_header.
Proof.
  intros Hi. assert (∀ l, Z.to_nat i ∈ l → foldr (λ i, <[a + 32 * Z.of_nat i := zero_header]>) m l !! (a + 32 * i) = Some zero_header) as H.
  { induction l as [|j l IH]; intros Hin; [by apply not_elem_of_nil in Hin|]. cbn [foldr].
    destruct (Z.eq_dec (Z.of_nat j) i) as [<-|Hne]; [apply lookup_insert_eq|]. rewrite lookup_insert_ne by lia.
    apply IH. apply elem_of_cons in Hin as [<-|]; [lia|done]. }
  apply H, elem_of_seq. lia.
Qed.

(** What the loop over the slots keeps. *)
Definition slots_done (slots top k : Z) s0 s : Prop :=
  ah_devices s = ah_devices s0 ∧ ah_dma s = (dma, top) ∧ ah_controller s = ah_controller s0 ∧ ah_cmd_slots s = ah_cmd_slots s0 ∧
  (∀ i, 0 ≤ i < k → slot_ready (device_at 0) i s) ∧
  (∀ i, k ≤ i < slots → ah_headers s !! (dma + sizeof_CMDHeader * i) = Some zero_header).

Lemma table_phys_aligned i : Z.land (phys (dma + 1024 + 256 + CMD_TABLE_SIZE * i)) 63 = 0.
Proof.
  replace (dma + 1024 + 256 + CMD_TABLE_SIZE * i) with (dma + (1280 + 256 * i)) by (change CMD_TABLE_SIZE with 256; lia).
  rewrite dma_linear. change 63 with (Z.ones 6). rewrite Z.land_ones by lia. change (2 ^ 6) with 64.
  pose proof dma_aligned as [q ->]%Z.mod_divide; [|done]. replace (q * 4096 + (1280 + 256 * i)) with ((64 * q + 20 + 4 * i) * 64) by lia.
  by rewrite Z.mod_mul.
Qed.

Lemma wp_setup_table slots top i s0 s :
  slots_done slots top i s0 s → 0 ≤ i < slots → dma + 1024 + 256 + CMD_TABLE_SIZE * (i + 1) ≤ top →
  wp (setup_table kvirt_to_phys_addr dma (dma + 1024 + 256) i) (λ _, slots_done slots top (i + 1) s0) s.
Proof.
  intros (Hd & Hr & Hc & Hs & Hdone & Hrest) Hi Htop. unfold setup_table. change CMD_TABLE_SIZE with 256 in *. change sizeof_CMDHeader with 32 in *.
  wp_step. eapply wp_update_header; [apply Hrest; lia|]. cbn zeta. wp_step. apply wp_phys_of.
  wp_step. wp_step; [by rewrite table_phys_aligned|]. wp_step. eapply wp_update_header; [apply lookup_insert_eq|].
  apply wp_clear_table; cbn; rewrite ?Hr; [cbn; lia|cbn; change CMD_TABLE_SIZE with 256; lia|].
  split_and!; [done..| |].
  - intros j Hj. unfold slot_ready. change CMD_TABLE_SIZE with 256. change sizeof_CMDHeader with 32. cbn.
    destruct (Z.eq_dec j i) as [->|Hne].
    + split; [by rewrite lookup_insert_eq|by rewrite lookup_insert_eq].
    + rewrite !lookup_insert_ne by lia. apply Hdone. lia.
  - intros j Hj. change sizeof_CMDHeader with 32. cbn. rewrite !lookup_insert_ne by lia. apply Hrest. lia.
Qed.

(** [setup_device] up to its loop. *)
Lemma wp_prepare port' (Q : Z → ahci D → Prop) s :
  1 ≤ ah_cmd_slots s ≤ 32 →
  (∀ s', slots_done (ah_cmd_slots s) (dma + dma_pages (ah_cmd_slots s) * PAGE_SIZE) 0 s s' → Q dma s') →
  wp (d ← alloc_dma alloc_pages_contiguous; _ ← setup_lists kvirt_to_phys_addr d port'; mret d) Q s.
Proof.
  intros Hs HQ. assert (1280 ≤ dma_pages (ah_cmd_slots s) * PAGE_SIZE) as Htop.
  { unfold dma_pages. change CMD_TABLE_SIZE with 256. change PAGE_SIZE with 4096.
    rewrite (Z.add_comm (_ / 256 * 256)). Z.to_euclidean_division_equations. lia. }
  unfold alloc_dma, setup_lists, clear_headers. destruct (alloc_ok (dma_pages (ah_cmd_slots s)) (ah_hw s)) as (d1 & E1).
  wp_step. wp_step. wp_step. wp_step. eapply wp_on_hw; [exact E1|]. wp_step. wp_step; [by replace (dma =? 0) with false by lia|].
  wp_step. wp_step. wp_step. wp_step. wp_step. apply wp_phys_of.
  wp_step. destruct (write_ok 8 (port' + CMD_LIST_BASE) (phys dma) d1) as (d2 & E2). eapply wp_on_hw; [exact E2|].
  wp_step. wp_step. apply wp_in_dma; [cbn; lia|cbn; lia|]. wp_step. wp_step. apply wp_phys_of.
  destruct (write_ok 8 (port' + FIS_BASE) (phys (dma + 1024)) d2) as (d3 & E3). wp_step. eapply wp_on_hw; [exact E3|].
  apply wp_in_dma; [cbn; lia|cbn; lia|]. wp_step. apply HQ. split_and!; [done..|lia|].
  intros i Hi. cbn [with_headers with_hw ah_headers]. apply (lookup_cleared dma 32). lia.
Qed.

Abbreviation setup_device_at := (setup_device kvirt_to_phys_addr alloc_pages_contiguous).

Lemma setup_device_run devices p port' s s1 :
  devices ≠ 0 →
  (d ← alloc_dma alloc_pages_contiguous; _ ← setup_lists kvirt_to_phys_addr d port'; mret d) s = Ok (dma, s1) →
  setup_device_at devices p port' s =
    (_ ← for_range 0 (ah_cmd_slots s1) (setup_table kvirt_to_phys_addr dma (dma + 1024 + 256));
     modify (λ s, with_devices (ah_devices s ++ [device_at p]) s)) s1.
Proof.
  intros Hdev. unfold setup_device, mbind, M_bind. replace (devices =? 0) with false by lia. cbn [mret M_ret].
  destruct (alloc_dma alloc_pages_contiguous s) as [[d s']|f]; [|done].
  destruct (setup_lists kvirt_to_phys_addr d port' s') as [[[] s'']|f]; [|done]. by intros [= -> ->].
Qed.

Lemma wp_setup_tables slots top n s0 s (Q : unit → ahci D → Prop) :
  slots_done slots top 0 s0 s → 0 ≤ n ≤ slots → dma + 1024 + 256 + CMD_TABLE_SIZE * n ≤ top →
  (∀ s', slots_done slots top n s0 s' → Q tt s') →
  wp (for_range 0 n (setup_table kvirt_to_phys_addr dma (dma + 1024 + 256))) Q s.
Proof.
  intros Hs Hn Htop HQ. apply (wp_for_range (λ i, slots_done slots top i s0)); [lia|done| |done].
  intros i s' Hi Hs'. apply wp_setup_table; [done|lia|]. change CMD_TABLE_SIZE with 256 in *. lia.
Qed.

(** C34: Unless the controller has 12 or 13 command slots, setting up a drive fits the
    pages allocated for it, for any number of slots the hardware can report, and leaves
    every slot with a header that points at the physical address of its own cleared table;
    with 12 or 13 slots clearing the tables runs past the pages. *)
Theorem setup_device_spec devices p port' s :
  devices ≠ 0 → 1 ≤ ah_cmd_slots s ≤ 32 →
  if (ah_cmd_slots s =? 12) || (ah_cmd_slots s =? 13)
  then ∃ a, setup_device_at devices p port' s = Fault (BadPointer a)
  else wp (setup_device_at devices p port') (λ _ s',
    ah_devices s' = ah_devices s ++ [device_at p] ∧
    (∀ i, 0 ≤ i < ah_cmd_slots s → slot_ready (device_at p) i s') ∧
    (ah_dma s').1 ≤ dev_cmd_tables (device_at p) ∧
    dev_cmd_tables (device_at p) + CMD_TABLE_SIZE * ah_cmd_slots s ≤ (ah_dma s').2) s.
Proof.
  intros Hdev Hs. set (top := dma + dma_pages (ah_cmd_slots s) * PAGE_SIZE).
  destruct (wp_prepare port' (λ d s1, d = dma ∧ slots_done (ah_cmd_slots s) top 0 s s1) s Hs) as (d & s1 & E & -> & H1); [done|].
  pose proof (setup_device_run devices p port' s s1 Hdev E) as Erun. pose proof H1 as (_ & _ & _ & Hslots & _). rewrite Hslots in Erun.
  destruct ((ah_cmd_slots s =? 12) || (ah_cmd_slots s =? 13)) eqn:Hbad.
  - assert (dma_pages (ah_cmd_slots s) = 1) as Hpages.
    { destruct (Z.eq_dec (ah_cmd_slots s) 12) as [->|]; [done|]. replace (ah_cmd_slots s) with 13 by lia. done. }
    assert (11 < ah_cmd_slots s) as H11 by lia.
    destruct (wp_setup_tables (ah_cmd_slots s) top 11 s s1 (λ _ s2, slots_done (ah_cmd_slots s) top 11 s s2)) as ([] & s2 & E2 & H2);
      [done|lia|unfold top; rewrite Hpages; change CMD_TABLE_SIZE with 256; change PAGE_SIZE with 4096; lia|done|].
    exists (dma + 1024 + 256 + CMD_TABLE_SIZE * 11). rewrite Erun. unfold mbind, M_bind. rewrite (for_range_split 0 11) by lia.
    unfold mbind, M_bind. rewrite E2, for_range_first by lia. unfold mbind, M_bind.
    replace (setup_table _ _ _ 11 s2) with (Fault (A := unit * ahci D) (BadPointer (dma + 1024 + 256 + CMD_TABLE_SIZE * 11))); [done|].
    destruct H2 as (_ & Hr & _ & _ & _ & Hrest).
    unfold setup_table, update_header, phys_of, on_hw, clear_table, in_dma, mbind, M_bind, gets, modify.
    rewrite Hrest by lia. cbn. rewrite translates. cbn.
    replace (dma + 1024 + 256 + CMD_TABLE_SIZE * 11) with (dma + 1024 + 256 + CMD_TABLE_SIZE * 11) by lia.
    rewrite table_phys_aligned. cbn. rewrite lookup_insert_eq. cbn. rewrite Hr. cbn.
    replace ((_ <=? _) && _) with false; [done|]. unfold top. rewrite Hpages. change CMD_TABLE_SIZE with 256. change PAGE_SIZE with 4096. lia.
  - unfold wp. rewrite Erun. assert (dma_used (ah_cmd_slots s) ≤ dma_pages (ah_cmd_slots s) * PAGE_SIZE) as Hfit by (apply dma_fits; lia).
    unfold dma_used in Hfit.
    change (wp (_ ← for_range 0 (ah_cmd_slots s) (setup_table kvirt_to_phys_addr dma (dma + 1024 + 256));
      modify (λ s, with_devices (ah_devices s ++ [device_at p]) s)) (λ _ s',
      ah_devices s' = ah_devices s ++ [device_at p] ∧ (∀ i, 0 ≤ i < ah_cmd_slots s → slot_ready (device_at p) i s') ∧
      (ah_dma s').1 ≤ dev_cmd_tables (device_at p) ∧
      dev_cmd_tables (device_at p) + CMD_TABLE_SIZE * ah_cmd_slots s ≤ (ah_dma s').2) s1).
    wp_step. apply (wp_setup_tables (ah_cmd_slots s) top _ s); [done|lia|unfold top; lia|].
    intros s2 (Hd & Hr & Hc & _ & Hdone & _). wp_step. cbn [with_devices ah_devices ah_dma]. rewrite Hd, Hr. cbn [fst snd device_at dev_cmd_tables].
    split_and!; [done|exact Hdone|lia|unfold top; lia].
Qed.
End commands.
End AhciProofs.
