(* ===== verification/DriverExamples.v ===== *)
(** The theorems on the PCI bus and the disk controller at concrete machines. *)
From S2P Require Import Prelude Util Devices Acpi AcpiExamples Pci Ahci AhciProofs.

Module DriverExamples.
Import Util Devices Acpi AcpiExamples Ahci AhciProofs.

(** ** A bus with one controller

    Bus 0 of the segment has a disk controller at device 31, function 2; function 0 of
    that device is a bridge. *)

Definition ecam : Z := 0xb0000000.
Definition bridge : Z := ecam + Z.shiftl 31 15.
Definition disk : Z := bridge + Z.shiftl 2 12.

Definition bus_cfg (phys off : Z) (n : nat) : Z :=
  if phys =? bridge then
    (if off =? Pci.VENDOR_ID then 0x8086 else if off =? Pci.HEADER_TYPE then 0x80 else if off =? Pci.CLASS_CODE then 6
     else if off =? Pci.SUBCLASS then 1 else 0)
  else if phys =? disk then
    (if off =? Pci.VENDOR_ID then 0x8086 else if off =? Pci.HEADER_TYPE then 0x80 else if off =? Pci.CLASS_CODE then 1
     else if off =? Pci.SUBCLASS then 6 else if off =? Pci.PROG_IF then 1 else 0)
  else if off =? Pci.VENDOR_ID then 0xffff else 0xff.

Definition high : Z := 0xffff800000000000.
Definition virt (phys : Z) : Z := phys + high.

(** Configuration spaces are pages. *)
Definition bus_read (n : nat) (a : Z) : Z := bus_cfg ((a - high) / 4096 * 4096) ((a - high) mod 4096) n.

#[local] Instance bus_devices : Devices unit := {|
  port_in_u8 _ d := Ok (0, d);
  port_out_u8 _ _ d := Ok (tt, d);
  mmio_read n a d := Ok (bus_read n a, d);
  mmio_write _ _ _ d := Ok (tt, d);
  rdmsr _ d := Ok (0, d);
  wrmsr _ _ d := Ok (tt, d);
|}.

Definition cfg_of (phys off : Z) (n : nat) : Z := bus_read n (virt phys + off).

Definition mcfg_bytes : list Z :=
  Pci.MCFG_SIGNATURE ++ le_bytes 4 60 ++ replicate 36 0 ++ le_bytes 8 ecam ++ [0; 0; 0; 1] ++ replicate 4 0.
Definition mcfg_xsdt : list Z := XSDT_SIGNATURE ++ le_bytes 4 44 ++ replicate 28 0 ++ le_bytes 8 0x1200.
Definition mcfg_tables : acpi :=
  {| ac_memory := place 0x1100 mcfg_xsdt ∪ place 0x1200 mcfg_bytes; ac_xsdt := AcpiExamples.virt 0x1100;
     ac_remap_list := [{| rm_phys := 0x1000; rm_virt := AcpiExamples.virt 0x1000; rm_size := 0x1000 |}] |}.
Definition bus0 : Pci.pci unit := {| Pci.g_pci_device_list := []; Pci.pci_acpi := mcfg_tables; Pci.pci_hw := tt |}.

Definition kmap (phys pages flags : Z) : M unit Z := mret (virt phys).
Definition kunmap (v pages : Z) : M unit unit := mret tt.
Definition kalloc (n : Z) : M unit Z := mret 1.

Lemma enumerate_spec_witness :
  wp (Pci.enumerate_pci_devices kmap kunmap kalloc) (λ _ s',
    Pci.g_pci_device_list s' = reverse (Pci.segment_functions virt cfg_of ecam 0 1) ∧
    Pci.get_pci_device 0x01060000 Pci.PCI_DEVICE_SUBCLASS_MASK s' =
      Ok (match find (λ e, Z.land (Pci.type e) Pci.PCI_DEVICE_SUBCLASS_MASK =? 0x01060000)
            (reverse (Pci.segment_functions virt cfg_of ecam 0 1)) with
          | Some e => Pci.config_space e | None => 0 end, s')) bus0.
Proof.
  apply (Pci.enumerate_spec kmap kunmap kalloc virt cfg_of (λ _, True) (λ _ _, True)) with (mcfg := AcpiExamples.virt 0x1200) (l := mcfg_bytes).
  - intros phys d _. by exists d.
  - intros phys d _ _. by exists d.
  - intros phys n d _ _. by exists 1, d.
  - intros phys off n d _ _. reflexivity.
  - vm_compute. reflexivity.
  - done.
  - apply bytes_at_check. by vm_compute.
  - reflexivity.
  - by vm_compute.
  - by vm_compute.
  - reflexivity.
  - reflexivity.
  - done.
  - reflexivity.
Defined.

(** The controller that was put there is found. *)
Example disk_found :
  match find (λ e, Z.land (Pci.type e) Pci.PCI_DEVICE_SUBCLASS_MASK =? 0x01060000)
    (reverse (Pci.segment_functions virt cfg_of ecam 0 1)) with Some e => Pci.config_space e =? virt disk | None => false end = true.
Proof. by vm_compute. Qed.

(** Where no device answers every bit reads as set, the busy bit too. *)
Lemma wait_ready_hung_witness :
  wait_ready (virt ecam + 4 - TASK_FILE_DATA) spin_limit tt = Fault (AssertFailed "Port hung").
Proof. apply (wait_ready_hung (virt ecam + 4 - TASK_FILE_DATA) spin_limit 0xff tt); [by vm_compute|done]. Defined.

(** ** A drive

    Slot 0 is taken; [Some n] when a command was issued and [n] more looks at it are
    needed. *)

Definition controller : Z := 0x1000.
Definition port0 : Z := port_address controller 0.

#[local] Instance drive_devices : Devices (option nat) := {|
  port_in_u8 _ d := Ok (0, d);
  port_out_u8 _ _ d := Ok (tt, d);
  mmio_read _ a d :=
    if a =? port0 + SATA_ACTIVE then Ok (1, d)
    else if a =? port0 + CMD_ISSUE then Ok (match d with Some (S n) => 2 | _ => 0 end, d)
    else if a =? port0 + INTERRUPT_STATUS then Ok (0, match d with Some (S n) => Some n | _ => d end)
    else Ok (0, d);
  mmio_write _ a _ d := Ok (tt, if a =? port0 + CMD_ISSUE then Some 3%nat else d);
  rdmsr _ d := Ok (0, d);
  wrmsr _ _ d := Ok (tt, d);
|}.

Definition to_phys (v : Z) : Z := v + 0x100000.
Definition translate (v : Z) : M (option nat) (option Z) := mret (Some (to_phys v)).
Definition drive : Device := {| dev_port := 0; dev_cmd_header := 0x10000; dev_fis_base := 0x10400; dev_cmd_tables := 0x10500 |}.
Definition with_drive : ahci (option nat) :=
  {| ah_controller := controller; ah_port_count := 1; ah_cmd_slots := 2; ah_devices := [drive];
     ah_headers := {[0x10000 := zero_header; 0x10020 := zero_header]}; ah_tables := ∅; ah_dma := (0x10000, 0x11000); ah_hw := None |}.


(** A controller with 12 slots. *)
Definition twelve_slots : ahci (option nat) :=
  {| ah_controller := controller; ah_port_count := 1; ah_cmd_slots := 12; ah_devices := [];
     ah_headers := ∅; ah_tables := ∅; ah_dma := (0, 0); ah_hw := None |}.

Lemma setup_device_spec_witness :
  ∃ a, setup_device translate (λ _ _, mret 0x10000) 1 0 port0 twelve_slots = Fault (BadPointer a).
Proof.
  refine (setup_device_spec translate to_phys _ (λ _ _, mret 0x10000) 0x10000 _ _ _ _ _ 1 0 port0 twelve_slots _ _).
  - done.
  - intros n d. by exists d.
  - intros n a v d. by eexists.
  - intros k. unfold to_phys. lia.
  - done.
  - done.
  - done.
  - done.
Defined.
End DriverExamples.
