(* ===== verification/Machine.v ===== *)
(** The memory a program sees: virtual addresses of the address space that is mapped.

    The kernel reaches the memory of a process (its stack, its segments, its frame
    buffer) at the virtual addresses of the process, so such an access needs the right
    address space mapped, goes through the page tables and ends in a physical byte. The
    class [UserSpaces] is that interface; [machine] implements it with the page tables of
    Paging.v, [map_address_space] and [unmap_address_space] of Memory.v and an array of
    physical memory. *)
From S2P Require Import Prelude Util MemState PageEntry AddressSpace Paging Memory Slab.

Module Machine.
Import Util Mem PageEntry AddressSpace Paging.

(** ** The interface *)

Class UserSpaces (S : Type) := {
  us_map : Z → M S unit;
  us_unmap : Z → M S unit;
  us_load : Z → M S Z;
  us_store : Z → Z → M S unit;
}.

(** [us_byte s a v] is the byte address space [a] has at [v]; [us_mapped s] the address
    space that is mapped. A store changes one byte of the mapped address space and
    nothing of another one. *)
Class UserSpacesSpec (S : Type) `{!UserSpaces S} := {
  us_ok : S → Prop;
  us_space : S → Z → Prop;
  us_mapped : S → option Z;
  us_byte : S → Z → Z → option Z;
  us_map_spec : ∀ s a, us_ok s → us_space s a →
    ∃ s', us_map a s = Ok (tt, s') ∧ us_ok s' ∧ us_mapped s' = Some a ∧
      (∀ b, us_space s b → us_space s' b) ∧ ∀ b v, us_byte s' b v = us_byte s b v;
  us_unmap_spec : ∀ s a, us_ok s → us_space s a →
    ∃ s', us_unmap a s = Ok (tt, s') ∧ us_ok s' ∧ us_mapped s' = None ∧
      (∀ b, us_space s b → us_space s' b) ∧ ∀ b v, us_byte s' b v = us_byte s b v;
  us_load_spec : ∀ s a v x, us_mapped s = Some a → us_byte s a v = Some x → us_load v s = Ok (x, s);
  us_store_spec : ∀ s a v x, us_ok s → us_space s a → us_mapped s = Some a → is_Some (us_byte s a v) →
    ∃ s', us_store v x s = Ok (tt, s') ∧ us_ok s' ∧ us_mapped s' = Some a ∧
      (∀ b, us_space s b → us_space s' b) ∧
      ∀ b w, us_space s b → us_byte s' b w = if decide (b = a ∧ w = v) then Some x else us_byte s b w;
}.

(** ** Blocks of bytes *)

Section blocks.
Context {S : Type} `{!UserSpaces S}.

(** memmove between kernel memory, given as the list of its bytes, and the mapped address
    space; the two do not overlap. *)
Fixpoint store_bytes (addr : Z) (l : list Z) : M S unit :=
  match l with
  | [] => mret tt
  | x :: l => _ ← us_store addr x; store_bytes (addr + 1) l
  end.

Fixpoint load_bytes (addr : Z) (n : nat) : M S (list Z) :=
  match n with
  | O => mret []
  | Datatypes.S n => x ← us_load addr; l ← load_bytes (addr + 1) n; mret (x :: l)
  end.

Context `{!UserSpacesSpec S}.
Implicit Types s : S.

Definition has_bytes s (a addr : Z) (l : list Z) : Prop :=
  ∀ i x, l !! i = Some x → us_byte s a (addr + Z.of_nat i) = Some x.

Definition has_room s (a addr : Z) (n : nat) : Prop :=
  ∀ i, 0 ≤ i < Z.of_nat n → is_Some (us_byte s a (addr + i)).

(** The bytes of [a] from [addr] on are [l], every other byte is as in [s]. *)
Definition written s (a addr : Z) (l : list Z) s' : Prop :=
  has_bytes s' a addr l ∧
  ∀ b w, us_space s b → b ≠ a ∨ w < addr ∨ addr + Z.of_nat (length l) ≤ w → us_byte s' b w = us_byte s b w.

Lemma load_bytes_eq s a addr l :
  us_mapped s = Some a → has_bytes s a addr l → load_bytes addr (length l) s = Ok (l, s).
Proof.
  intros Hm. revert addr. induction l as [|x l IH]; intros addr Hl; [done|]. cbn [load_bytes length].
  unfold mbind, M_bind. rewrite (us_load_spec s a addr x Hm).
  - rewrite IH; [done|]. intros i y Hy. specialize (Hl (Datatypes.S i) y Hy).
    replace (addr + 1 + Z.of_nat i) with (addr + Z.of_nat (Datatypes.S i)) by lia. done.
  - specialize (Hl 0%nat x eq_refl). by rewrite Z.add_0_r in Hl.
Qed.

Lemma store_bytes_spec s a addr l :
  us_ok s → us_space s a → us_mapped s = Some a → has_room s a addr (length l) →
  ∃ s', store_bytes addr l s = Ok (tt, s') ∧ us_ok s' ∧ us_mapped s' = Some a ∧
    (∀ b, us_space s b → us_space s' b) ∧ written s a addr l s'.
Proof.
  revert s addr. induction l as [|x l IH]; intros s addr Hok Hsp Hm Hroom; cbn [store_bytes].
  - exists s. split_and!; [done..|]. split; [intros i y; done|done].
  - destruct (us_store_spec s a addr x Hok Hsp Hm) as (s1 & E1 & Hok1 & Hm1 & Hs1 & Hb1).
    { rewrite <- (Z.add_0_r addr). apply Hroom. cbn. lia. }
    destruct (IH s1 (addr + 1)) as (s2 & E2 & Hok2 & Hm2 & Hs2 & Hin & Hout); [done|auto|done| |].
    { intros i Hi. rewrite Hb1 by done. case_decide; [done|].
      rewrite <- Z.add_assoc. apply Hroom. cbn [length]. lia. }
    exists s2. unfold mbind, M_bind. rewrite E1. split_and!; [done|done|done|auto|]. split.
    + intros [|i] y; cbn [lookup list_lookup].
      * intros [= ->]. rewrite Z.add_0_r, Hout by (auto; right; lia). rewrite Hb1 by done. by rewrite decide_True.
      * intros Hy. specialize (Hin i y Hy). by replace (addr + Z.of_nat (Datatypes.S i)) with (addr + 1 + Z.of_nat i) by lia.
    + cbn [length]. intros b w Hsb Hw. rewrite Hout by (auto; destruct Hw as [?|[?|?]]; auto; right; lia).
      rewrite Hb1 by done. rewrite decide_False; [done|]. intros [-> ->]. destruct Hw as [?|[?|?]]; [done|lia|lia].
Qed.
End blocks.

(** ** The machine *)

Record machine := {
  ma_kmem : kmem;
  ma_slab : Slab.SlabAllocator;
  ma_ram : gmap Z Z;
  ma_mapped : option Z;
}.

Abbreviation MM := (M machine).

Definition on_kmem {A} (m : KM A) : MM A := λ s,
  match m (ma_kmem s) with
  | Ok (r, k) => Ok (r, {| ma_kmem := k; ma_slab := ma_slab s; ma_ram := ma_ram s; ma_mapped := ma_mapped s |})
  | Fault f => Fault f
  end.

Definition set_mapped (a : option Z) : MM unit :=
  modify (λ s, {| ma_kmem := ma_kmem s; ma_slab := ma_slab s; ma_ram := ma_ram s; ma_mapped := a |}).
Definition set_ram (f : gmap Z Z → gmap Z Z) : MM unit :=
  modify (λ s, {| ma_kmem := ma_kmem s; ma_slab := ma_slab s; ma_ram := f (ma_ram s); ma_mapped := ma_mapped s |}).

(** The addresses of the first slot of the PML4, where the tables of a process are. *)
Definition in_slot (v : Z) : bool := (0 <=? v) && (v <? PDP_MEM_RANGE).

(** The physical address behind a virtual one: the walk the processor does over the same
    tables as [virt_to_phys_addr]; a page fault when there is none. *)
Definition physical (v : Z) : MM Z :=
  a ← gets ma_mapped;
  match a with
  | None => throw (BadPointer v)
  | Some a =>
      if in_slot v then p ← on_kmem (virt_to_phys_addr a v); of_option (BadPointer v) p
      else throw (BadPointer v)
  end.

#[export] Instance machine_spaces : UserSpaces machine := {|
  us_map a := _ ← on_kmem (Memory.map_address_space a); set_mapped (Some a);
  us_unmap a := _ ← on_kmem (Memory.unmap_address_space a); set_mapped None;
  us_load v := p ← physical v; gets (λ s, default 0 (ma_ram s !! p));
  us_store v x := p ← physical v; set_ram (insert p x);
|}.

(** ** The machine has the properties of the interface *)

(** What an address of address space [a] translates to. *)
Definition va (k : kmem) (a v : Z) : option Z :=
  match virt_to_phys_addr a v k with Ok (Some p, _) => Some p | _ => None end.

(** The parts of the paging state a translation reads. *)
Definition same_tables (k k' : kmem) : Prop :=
  pg_spaces (km_paging k') = pg_spaces (km_paging k) ∧ pg_tables (km_paging k') = pg_tables (km_paging k).

(** A computation that only reads, and reads only those parts. *)
Definition table_reader {A} (m : KM A) : Prop :=
  ∀ k k', same_tables k k' →
  match m k with
  | Ok (r, k1) => k1 = k ∧ m k' = Ok (r, k')
  | Fault f => m k' = Fault f
  end.

Lemma reader_bind {A B} (m : KM A) (f : A → KM B) :
  table_reader m → (∀ a, table_reader (f a)) → table_reader (m ≫= f).
Proof.
  intros Hm Hf k k' Hs. unfold mbind, M_bind. specialize (Hm k k' Hs).
  destruct (m k) as [[a k1]|e]; [|by rewrite Hm]. destruct Hm as [-> ->]. by apply Hf.
Qed.

Lemma reader_of_option {A} f (o : option A) : table_reader (of_option f o).
Proof. intros k k' _. by destruct o. Qed.

Lemma reader_get_space a : table_reader (get_space a).
Proof.
  apply reader_bind; [|intros; apply reader_of_option]. intros k k' [Hs _]. unfold gets. by rewrite Hs.
Qed.

Lemma reader_get_entry ptr i : table_reader (get_entry ptr i).
Proof.
  apply reader_bind; [|intros; apply reader_of_option]. unfold get_table. case_match; [by intros k k' _|].
  apply reader_bind; [|intros; apply reader_of_option]. intros k k' [_ Ht]. unfold gets. by rewrite Ht.
Qed.

Lemma reader_get_page_entries a e l : table_reader (get_page_entries a e l).
Proof.
  apply reader_bind; [|by intros m k k' _]. apply reader_bind; [apply reader_get_space|].
  intros; apply reader_of_option.
Qed.

Lemma virt_to_phys_same a v : table_reader (virt_to_phys_addr a v).
Proof.
  apply reader_bind; [apply reader_get_space|]. intros sp.
  apply reader_bind; [apply reader_get_entry|]. intros e.
  apply reader_bind; [apply reader_get_page_entries|]. intros pd. case_match; [by intros k k' _|].
  apply reader_bind; [apply reader_get_entry|]. intros e'.
  apply reader_bind; [apply reader_get_page_entries|]. intros pt. case_match; [by intros k k' _|].
  apply reader_bind; [apply reader_get_entry|]. intros e''. by case_match; intros k k' _.
Qed.

Lemma virt_to_phys_Ok k a v r k' : virt_to_phys_addr a v k = Ok (r, k') → k' = k.
Proof. intros E. pose proof (virt_to_phys_same a v k k (conj eq_refl eq_refl)) as Hv. rewrite E in Hv. by destruct Hv. Qed.

Lemma va_same k k' a v : same_tables k k' → va k' a v = va k a v.
Proof.
  intros Hs. pose proof (virt_to_phys_same a v k k' Hs) as Hv. unfold va.
  destruct (virt_to_phys_addr a v k) as [[r k1]|f]; [by destruct Hv as [_ ->]|by rewrite Hv].
Qed.

(** An address space a process can have: its tables hang off the first slot of the PML4. *)
Definition is_space (k : kmem) (a : Z) : Prop :=
  ∃ sp p, pg_spaces (km_paging k) !! a = Some sp ∧ as_pdp_index sp = 0 ∧
    virt_to_phys_addr g_kernel_space (as_pdp sp) k = Ok (Some p, k).

Lemma is_space_same k k' a : same_tables k k' → is_space k a → is_space k' a.
Proof.
  intros Hs (sp & p & Hsp & Hi & Hp). exists sp, p. split; [by rewrite (proj1 Hs)|]. split; [done|].
  pose proof (virt_to_phys_same g_kernel_space (as_pdp sp) k k' Hs) as Hv. rewrite Hp in Hv. by destruct Hv.
Qed.

(** No two addresses of the address spaces of processes share a physical byte. *)
Definition isolated (k : kmem) : Prop :=
  ∀ a b v w p, is_space k a → is_space k b → in_slot v = true → in_slot w = true →
    va k a v = Some p → va k b w = Some p → a = b ∧ v = w.

Definition machine_ok (s : machine) : Prop :=
  length (pg_pml4 (km_paging (ma_kmem s))) = 512%nat ∧ isolated (ma_kmem s).

Definition machine_byte (s : machine) (a v : Z) : option Z :=
  if in_slot v then p ← va (ma_kmem s) a v; Some (default 0 (ma_ram s !! p)) else None.

(** The state after the PML4 was written and translations invalidated. *)
Definition remapped (k k' : kmem) : Prop :=
  ∃ l inv, length l = length (pg_pml4 (km_paging k)) ∧
    k' = set_paging (with_invalidated inv (with_pml4 l (km_paging k))) k.

Lemma invalidate_pages_eq n v k :
  ∃ inv, Memory.invalidate_pages n v k = Ok (tt, set_paging (with_invalidated inv (km_paging k)) k).
Proof.
  revert v k. induction n as [|n IH]; intros v k; cbn [Memory.invalidate_pages].
  - exists (pg_invalidated (km_paging k)). unfold mret, M_ret. by destruct k as [? ? ? []].
  - unfold mbind, M_bind, invlpg, modify_paging, modify at 1.
    destruct (IH (u64 (v + PAGE_SIZE)) (set_paging (with_invalidated (v :: pg_invalidated (km_paging k)) (km_paging k)) k)) as [inv E].
    exists inv. by rewrite E.
Qed.

Lemma get_space_eq a sp k : pg_spaces (km_paging k) !! a = Some sp → get_space a k = Ok (sp, k).
Proof. intros Hsp. unfold get_space, mbind, M_bind, gets. by rewrite Hsp. Qed.

Lemma unmap_address_space_eq a k :
  is_space k a → ∃ k', Memory.unmap_address_space a k = Ok (tt, k') ∧ remapped k k'.
Proof.
  intros (sp & p & Hsp & Hi & Hp). unfold Memory.unmap_address_space, Memory.invalidate_space, mbind, M_bind.
  rewrite (get_space_eq a sp) by done. unfold Memory.set_pml4_entry, modify_paging, modify.
  match goal with |- context [Memory.invalidate_pages ?n ?v ?k] => destruct (invalidate_pages_eq n v k) as [inv E] end.
  rewrite E. eexists. split; [done|]. exists (insertZ (as_pdp_index sp) 0 (pg_pml4 (km_paging k))), inv.
  split; [apply length_insertZ|done].
Qed.

Lemma map_address_space_eq a k :
  is_space k a → length (pg_pml4 (km_paging k)) = 512%nat →
  ∃ k', Memory.map_address_space a k = Ok (tt, k') ∧ remapped k k'.
Proof.
  intros (sp & p & Hsp & Hi & Hp) Hlen.
  unfold Memory.map_address_space, Memory.kvirt_to_phys_addr, Memory.invalidate_space, mbind, M_bind.
  rewrite (get_space_eq a sp) by done. rewrite Hp, Hi. unfold get_paging, gets.
  destruct (proj2 (lookupZ_is_Some (pg_pml4 (km_paging k)) 0)) as [e He]; [lia|].
  rewrite He. cbn [of_option]. unfold mret, M_ret, Memory.set_pml4_entry, modify_paging, modify.
  match goal with |- context [Memory.invalidate_pages ?n ?v ?k] => destruct (invalidate_pages_eq n v k) as [inv E] end.
  rewrite E. eexists. split; [done|]. eexists _, inv. split; [|done]. apply length_insertZ.
Qed.

Lemma remapped_same k k' : remapped k k' → same_tables k k'.
Proof. by intros (l & inv & _ & ->). Qed.

Lemma isolated_same k k' : same_tables k k' → isolated k → isolated k'.
Proof.
  intros Hs Hi a b v w p Ha Hb Hv Hw. rewrite !(va_same k k') by done.
  assert (same_tables k' k) as Hs' by (destruct Hs; by split). apply Hi; try done; by eapply is_space_same.
Qed.

Lemma machine_ok_remapped k' s m :
  remapped (ma_kmem s) k' → machine_ok s →
  machine_ok {| ma_kmem := k'; ma_slab := ma_slab s; ma_ram := ma_ram s; ma_mapped := m |}.
Proof.
  intros Hr [Hlen Hi]. split; cbn [ma_kmem].
  - destruct Hr as (l & inv & El & ->). cbn. congruence.
  - by eapply isolated_same; [apply remapped_same|].
Qed.

Lemma machine_byte_same k' s m a v :
  same_tables (ma_kmem s) k' →
  machine_byte {| ma_kmem := k'; ma_slab := ma_slab s; ma_ram := ma_ram s; ma_mapped := m |} a v = machine_byte s a v.
Proof. intros Hs. unfold machine_byte. cbn. by rewrite (va_same _ _ _ _ Hs). Qed.

Lemma physical_eq s a v p :
  ma_mapped s = Some a → in_slot v = true → va (ma_kmem s) a v = Some p → physical v s = Ok (p, s).
Proof.
  intros Hm Hv Hp. unfold physical, mbind, M_bind, gets. rewrite Hm, Hv. unfold on_kmem. unfold va in Hp.
  destruct (virt_to_phys_addr a v (ma_kmem s)) as [[[q|] k']|f] eqn:E; try done.
  injection Hp as ->. apply virt_to_phys_Ok in E as ->. by destruct s.
Qed.

#[export, refine] Instance machine_spaces_spec : UserSpacesSpec machine := {|
  us_ok := machine_ok;
  us_space s := is_space (ma_kmem s);
  us_mapped := ma_mapped;
  us_byte := machine_byte;
|}.
Proof.
  - intros s a Hok Hsp. destruct (map_address_space_eq a (ma_kmem s) Hsp (proj1 Hok)) as (k' & E & Hr).
    pose proof (remapped_same _ _ Hr) as Hsame. unfold us_map, machine_spaces, mbind, M_bind, on_kmem. rewrite E.
    eexists. split; [reflexivity|]. split_and!; [by apply (machine_ok_remapped k' s (Some a))|done| |].
    + intros b. by apply (is_space_same (ma_kmem s) k').
    + intros b v. by apply (machine_byte_same k' s _ b v).
  - intros s a Hok Hsp. destruct (unmap_address_space_eq a (ma_kmem s) Hsp) as (k' & E & Hr).
    pose proof (remapped_same _ _ Hr) as Hsame. unfold us_unmap, machine_spaces, mbind, M_bind, on_kmem. rewrite E.
    eexists. split; [done|]. split_and!; [by apply (machine_ok_remapped k' s None)|done| |].
    + intros b. by apply (is_space_same (ma_kmem s) k').
    + intros b v. by apply (machine_byte_same k' s _ b v).
  - intros s a v x Hm Hx. unfold machine_byte in Hx. destruct (in_slot v) eqn:Hv; [|done]. destruct (va (ma_kmem s) a v) as [p|] eqn:E; [|done].
    injection Hx as <-. unfold us_load, machine_spaces, mbind, M_bind. by rewrite (physical_eq s a v p).
  - intros s a v x Hok Hsp Hm [y Hy]. unfold machine_byte in Hy.
    destruct (in_slot v) eqn:Hv; [|done]. destruct (va (ma_kmem s) a v) as [p|] eqn:E; [|done].
    unfold us_store, machine_spaces, mbind, M_bind. rewrite (physical_eq s a v p) by done.
    eexists. split; [done|]. split; [exact Hok|]. split; [exact Hm|]. split; [by intros b|].
    intros b w Hb. unfold machine_byte. cbn [ma_kmem ma_ram].
    destruct (in_slot w) eqn:Hw; [|rewrite decide_False; [done|]; intros [-> ->]; congruence]. destruct (va (ma_kmem s) b w) as [q|] eqn:Eq; cbn.
    + case_decide as Hd.
      * destruct Hd as [-> ->]. assert (q = p) as -> by congruence. by rewrite lookup_insert_eq.
      * rewrite lookup_insert_ne; [done|]. intros <-. by apply Hd, (proj2 Hok b a w v p).
    + rewrite decide_False; [done|]. intros [-> ->]. congruence.
Defined.
End Machine.
