(* ===== verification/PagingIsolation.v ===== *)
(** The address spaces of all processes and the kernel's together. No page of entries and
    no page a process reaches is free memory, no two pages that processes reach are in the
    same frame, and no frame of page entries is reached or used twice ([memory_ok]). A new
    address space and an allocation mapped for a process keep that, and the other
    processes see what they saw. *)
From S2P Require Import Prelude Util MemState PageEntry AddressSpace FrameAllocator FrameInvariant FrameProofs FrameAlloc FrameContiguous Paging Memory Slab Machine PagingInvariant PagingProofs PagingGrowth PagingKernel PagingSpec PagingUser.

Module PagingIsolation.
Import Util Mem PageEntry AddressSpace FrameAllocator FrameInvariant FrameProofs FrameAlloc FrameContiguous Paging
  PagingInvariant PagingProofs PagingGrowth PagingKernel PagingSpec PagingUser.
Implicit Types (s : kmem) (a : AddressSpace) (pds : gmap Z MappingEntry) (pts : gmap (Z * Z) MappingEntry).

(** An address space, the pages of entries it has and the frame of its top page. *)
Record Space := { sp_as : AddressSpace; sp_pds : gmap Z MappingEntry; sp_pts : gmap (Z * Z) MappingEntry; sp_top : Z }.
Implicit Types (k p q : Space) (ps : gmap Z Space).

Abbreviation space_at P s p := (pspace P s (sp_as p) (sp_pds p) (sp_pts p)).
Abbreviation in_space p m := (in_tree (sp_pds p) (sp_pts p) m).
Abbreviation kernel_has s k ptr := (kernel_owns s (sp_as k) (sp_pds k) (sp_pts k) ptr).
Abbreviation kernel_uses s k m := (kernel_page s (sp_pds k) (sp_pts k) m).
(** The physical address [v] has in [p]. *)
Abbreviation reaches s p v := (translate (pg s) (sp_pts p) v).

(** [p] has a page of entries at [ptr], in the frame [f]. *)
Definition space_page p (ptr f : Z) : Prop :=
  (ptr = as_pdp (sp_as p) ∧ f = sp_top p) ∨ ∃ m, in_space p m ∧ ptr = mapping_ptr m ∧ f = me_phys_addr m.

(** A frame of page entries the kernel uses or can come to use. *)
Definition kernel_frame s k (f : Z) : Prop := f = sp_top k ∨ ∃ m, kernel_uses s k m ∧ f = me_phys_addr m.

Definition entries_frame s k ps (f : Z) : Prop :=
  kernel_frame s k f ∨ ∃ P p ptr, ps !! P = Some p ∧ space_page p ptr f.

Lemma owns_page p ptr : owns (sp_as p) (sp_pds p) (sp_pts p) ptr ↔ ∃ f, space_page p ptr f.
Proof.
  split; [intros [->|(m & Hm & ->)]; [exists (sp_top p); by left|exists (me_phys_addr m); right; eauto]|].
  intros (f & [[-> _]|(m & Hm & -> & _)]); [by left|right; eauto].
Qed.

Section isolation.
Context {Ein : MemoryEntries}.
Context `{!MemoryEntries, !MemoryEntriesSpec} {lim : Z}.

Record memory_ok (n : Z) s k ps : Prop := {
  mo_kernel : provides (lim := lim) n s (sp_as k) (sp_pds k) (sp_pts k);
  (** the kernel's top page is the one the processor uses *)
  mo_pml4 : ∃ e, lookupZ (pg_pml4 (pg s)) (as_pdp_index (sp_as k)) = Some e ∧ phys_addr e = sp_top k;
  mo_kernel_top : frame_used s (sp_top k);
  mo_names : ps !! K = None;
  mo_all : ∀ P, P ≠ K → is_Some (pg_spaces (pg s) !! P) → is_Some (ps !! P);
  mo_space : ∀ P p, ps !! P = Some p → space_at P s p;
  (** the kernel has the pages of entries of the processes mapped *)
  mo_pages : ∀ P p ptr f, ps !! P = Some p → space_page p ptr f →
    ¬ kernel_has s k ptr ∧ slot_start (sp_as k) ≤ ptr < bump_addr (sp_as k) ∧ reaches s k ptr = Some (4096 * f) ∧
    frame_used s f ∧ ¬ kernel_frame s k f;
  mo_apart : ∀ P P' p p' ptr ptr' f f', ps !! P = Some p → ps !! P' = Some p' → P ≠ P' →
    space_page p ptr f → space_page p' ptr' f' → ptr ≠ ptr' ∧ f ≠ f';
  mo_memory : ∀ P p v x, ps !! P = Some p → reaches s p v = Some x →
    ¬ free_byte (fr s) x ∧ ∀ f, entries_frame s k ps f → ¬ in_block 0 (f * 4096) x;
  mo_isolated : ∀ P P' p p' v v' x, ps !! P = Some p → ps !! P' = Some p' →
    reaches s p v = Some x → reaches s p' v' = Some x → P = P' ∧ page_of v = page_of v';
}.

(** Frames nobody uses and that are not free: an allocation that is not mapped yet. *)
Record held s k ps (fs : list Z) : Prop := {
  hd_nodup : NoDup fs;
  hd_aligned : ∀ f, f ∈ fs → (4096 | f);
  hd_used : ∀ f x, f ∈ fs → in_block 0 f x → ¬ free_byte (fr s) x;
  hd_entries : ∀ f x g, f ∈ fs → in_block 0 f x → entries_frame s k ps g → ¬ in_block 0 (g * 4096) x;
  hd_memory : ∀ f x P p v, f ∈ fs → in_block 0 f x → ps !! P = Some p → reaches s p v ≠ Some x;
}.

Lemma held_nil s k ps : held s k ps [].
Proof using Type. split; [apply NoDup_nil_2|by intros f ?%elem_of_nil|by intros f x ?%elem_of_nil|by intros f x g ?%elem_of_nil|by intros f x P p v ?%elem_of_nil]. Qed.

(** ** One address space changes

    From [s] to [s'] the process [P] has come to have the pages of entries of [p'], and the
    frames [fs] at [v]; it may have been there before. *)
Record step s k ps P n' s' k' p' (v : Z) (fs : list Z) : Prop := {
  st_kernel : provides (lim := lim) n' s' (sp_as k') (sp_pds k') (sp_pts k');
  st_same : as_pdp (sp_as k') = as_pdp (sp_as k) ∧ as_pdp_index (sp_as k') = as_pdp_index (sp_as k) ∧ sp_top k' = sp_top k;
  st_bump : bump_addr (sp_as k) ≤ bump_addr (sp_as k');
  st_pml4 : pg_pml4 (pg s') = pg_pml4 (pg s);
  st_kernel_pages : ∀ m, kernel_uses s' k' m → kernel_uses s k m;
  st_translate : ∀ w, (∀ x, bump_addr (sp_as k) ≤ x < bump_addr (sp_as k') → page_of w ≠ page_of x) → reaches s' k' w = reaches s k w;
  st_spaces : ∀ Q, Q ≠ P → Q ≠ K → pg_spaces (pg s') !! Q = pg_spaces (pg s) !! Q;
  st_tables : ∀ Q q ptr f, Q ≠ P → ps !! Q = Some q → space_page q ptr f → pg_tables (pg s') !! ptr = pg_tables (pg s) !! ptr;
  st_free : ∀ x, free_byte (fr s') x → free_byte (fr s) x;
  st_space : space_at P s' p';
  st_pages : ∀ ptr f, space_page p' ptr f → (∃ p, ps !! P = Some p ∧ space_page p ptr f) ∨
    frame_free s f ∧ frame_used s' f ∧ bump_addr (sp_as k) ≤ ptr < bump_addr (sp_as k') ∧ reaches s' k' ptr = Some (4096 * f);
  st_reach : ∀ w x, reaches s' p' w = Some x →
    (∃ i f, fs !! i = Some f ∧ nth_page v (Z.of_nat i) w ∧ in_block 0 f x) ∨ ∃ p, ps !! P = Some p ∧ reaches s p w = Some x;
}.

Section stepping.
Context {n : Z} {s : kmem} {k : Space} {ps : gmap Z Space} (Hok : memory_ok n s k ps).
Context {P n' : Z} {s' : kmem} {k' p' : Space} {v : Z} {fs : list Z} (Hst : step s k ps P n' s' k' p' v fs).
Context (HP : P ≠ K) (Hn : 0 ≤ n) (Hn' : 0 ≤ n').

Lemma step_kernel_has ptr : kernel_has s' k' ptr → kernel_has s k ptr.
Proof using Hst.
  intros [->|(m & Hm & ->)]; [left; apply (st_same _ _ _ _ _ _ _ _ _ _ Hst)|].
  right. exists m. split; [by apply (st_kernel_pages _ _ _ _ _ _ _ _ _ _ Hst)|done].
Qed.

Lemma step_kernel_frame f : kernel_frame s' k' f → kernel_frame s k f.
Proof using Hst.
  intros [->|(m & Hm & ->)]; [left; apply (st_same _ _ _ _ _ _ _ _ _ _ Hst)|].
  right. exists m. split; [by apply (st_kernel_pages _ _ _ _ _ _ _ _ _ _ Hst)|done].
Qed.

Lemma kernel_frame_used f : kernel_frame s k f → frame_used s f.
Proof using Hok.
  intros [->|(m & Hm & ->)]; [apply Hok|]. by apply (pv_used _ _ _ _ _ (mo_kernel _ _ _ _ Hok)).
Qed.

Lemma step_frame_used f : frame_used s f → frame_used s' f.
Proof using Hst. intros Hf x Hx Hfree. by apply (Hf x Hx), (st_free _ _ _ _ _ _ _ _ _ _ Hst). Qed.

Lemma other_reaches Q q w : Q ≠ P → ps !! Q = Some q → reaches s' q w = reaches s q w.
Proof using Hst.
  intros Hne Hq. apply translate_keep. intros ij m Hm. apply (st_tables _ _ _ _ _ _ _ _ _ _ Hst Q q _ (me_phys_addr m)); [done|done|].
  right. exists m. split_and!; [right; eauto|done|done].
Qed.

Lemma other_space Q q : Q ≠ P → ps !! Q = Some q → space_at Q s' q.
Proof using Hst Hok.
  intros Hne Hq. pose proof (mo_space _ _ _ _ Hok Q q Hq) as [Hs Ht]. split.
  - rewrite (st_spaces _ _ _ _ _ _ _ _ _ _ Hst); [done|done|]. intros ->. pose proof (mo_names _ _ _ _ Hok). congruence.
  - apply (tree_same (pg s) _ (sp_as q)); [done..|]. intros ptr [f Ho]%owns_page. by apply (st_tables _ _ _ _ _ _ _ _ _ _ Hst Q q ptr f).
Qed.

(** The kernel reaches what is below its bump pointer where it did. *)
Lemma kernel_reaches x : slot_start (sp_as k) ≤ x < bump_addr (sp_as k) → reaches s' k' x = reaches s k x.
Proof using Hst Hok Hn Hn'.
  clear HP. intros Hx. apply (st_translate _ _ _ _ _ _ _ _ _ _ Hst). intros y Hy.
  pose proof (pv_bump _ _ _ _ _ (mo_kernel _ _ _ _ Hok)) as Hb. pose proof (pv_bump _ _ _ _ _ (st_kernel _ _ _ _ _ _ _ _ _ _ Hst)) as Hb'.
  destruct (bump_addr_slot _ _ Hb' Hn') as [_ Hslot]. unfold slot_start in *. destruct (st_same _ _ _ _ _ _ _ _ _ _ Hst) as (_ & Hidx & _). rewrite Hidx in Hslot.
  destruct (bump_addr_range _ _ Hb Hn) as (_ & Hal & _). eapply page_of_below; [exact Hx|lia| |exact Hal].
  by eapply slot_start_divide.
Qed.

(** A page of entries of the process is one it had, or it is in a frame that was free and
    at an address the kernel had not used. *)
Lemma pages_since Q q ptr f : <[P := p']> ps !! Q = Some q → space_page q ptr f →
  (∃ q0, ps !! Q = Some q0 ∧ space_page q0 ptr f) ∨ Q = P ∧ frame_free s f ∧ bump_addr (sp_as k) ≤ ptr.
Proof using Hst.
  intros [[<- <-]|[Hne Hq]]%lookup_insert_Some Ho; [|left; eauto].
  destruct (st_pages _ _ _ _ _ _ _ _ _ _ Hst ptr f Ho) as [Hold|(Hf & _ & Hb & _)]; [by left|right; split_and!; [done|done|lia]].
Qed.

Lemma entries_since f : entries_frame s' k' (<[P := p']> ps) f → entries_frame s k ps f ∨ frame_free s f.
Proof using Hst.
  intros [Hf|(Q & q & ptr & Hq & Ho)]; [left; left; by apply step_kernel_frame|].
  destruct (pages_since Q q ptr f Hq Ho) as [(q0 & Hq0 & Ho0)|(_ & Hf & _)]; [left; right; by exists Q, q0, ptr|by right].
Qed.

Lemma step_pages Q q ptr f : <[P := p']> ps !! Q = Some q → space_page q ptr f →
  ¬ kernel_has s' k' ptr ∧ slot_start (sp_as k') ≤ ptr < bump_addr (sp_as k') ∧ reaches s' k' ptr = Some (4096 * f) ∧
  frame_used s' f ∧ ¬ kernel_frame s' k' f.
Proof using Hst Hok Hn Hn'.
  clear HP. intros Hq Ho. pose proof (st_bump _ _ _ _ _ _ _ _ _ _ Hst) as Hle. destruct (st_same _ _ _ _ _ _ _ _ _ _ Hst) as (_ & Eidx & _).
  assert (slot_start (sp_as k') = slot_start (sp_as k)) as Eslot by (unfold slot_start; by rewrite Eidx).
  assert ((∃ q0, ps !! Q = Some q0 ∧ space_page q0 ptr f) ∨ frame_free s f ∧ frame_used s' f ∧
    bump_addr (sp_as k) ≤ ptr < bump_addr (sp_as k') ∧ reaches s' k' ptr = Some (4096 * f)) as [(q0 & Hq0 & Ho0)|(Hf & Hu & Hb & Hr)].
  { apply lookup_insert_Some in Hq as [[<- <-]|[_ Hq]]; [by apply (st_pages _ _ _ _ _ _ _ _ _ _ Hst)|left; eauto]. }
  - destruct (mo_pages _ _ _ _ Hok Q q0 ptr f Hq0 Ho0) as (H1 & H2 & H3 & H4 & H5). split_and!.
    + by intros Hk%step_kernel_has.
    + lia.
    + lia.
    + by rewrite kernel_reaches.
    + by apply step_frame_used.
    + by intros Hk%step_kernel_frame.
  - pose proof (mo_kernel _ _ _ _ Hok) as Hpv. destruct (bump_addr_slot _ _ (pv_bump _ _ _ _ _ Hpv) Hn) as [_ Hslot]. split_and!.
    + intros Hk%step_kernel_has. apply (pv_below _ _ _ _ _ Hpv) in Hk. lia.
    + lia.
    + lia.
    + done.
    + done.
    + intros Hk%step_kernel_frame%kernel_frame_used. by apply (frame_free_not_used s f).
Qed.

Lemma step_apart Q Q' q q' ptr ptr' f f' : <[P := p']> ps !! Q = Some q → <[P := p']> ps !! Q' = Some q' → Q ≠ Q' →
  space_page q ptr f → space_page q' ptr' f' → ptr ≠ ptr' ∧ f ≠ f'.
Proof using Hst Hok.
  clear HP Hn Hn'. intros Hq Hq' HQ Ho Ho'.
  destruct (pages_since Q q ptr f Hq Ho) as [(q0 & Hq0 & Ho0)|(-> & Hf & Hb)], (pages_since Q' q' ptr' f' Hq' Ho') as [(q0' & Hq0' & Ho0')|(-> & Hf' & Hb')].
  - by apply (mo_apart _ _ _ _ Hok Q Q' q0 q0').
  - destruct (mo_pages _ _ _ _ Hok Q q0 ptr f Hq0 Ho0) as (_ & Hlt & _ & Hu & _). split; [lia|]. intros ->. by apply (frame_free_not_used s f').
  - destruct (mo_pages _ _ _ _ Hok Q' q0' ptr' f' Hq0' Ho0') as (_ & Hlt & _ & Hu & _). split; [lia|]. intros ->. by apply (frame_free_not_used s f').
  - done.
Qed.

Context (Hh : held s k ps fs).

(** What a process reaches is new, or it did. *)
Lemma reach_since Q q w x : <[P := p']> ps !! Q = Some q → reaches s' q w = Some x →
  (∃ q0, ps !! Q = Some q0 ∧ reaches s q0 w = Some x) ∨ Q = P ∧ ∃ i f, fs !! i = Some f ∧ nth_page v (Z.of_nat i) w ∧ in_block 0 f x.
Proof using Hst.
  intros [[<- <-]|[Hne Hq]]%lookup_insert_Some Hx.
  - destruct (st_reach _ _ _ _ _ _ _ _ _ _ Hst w x Hx) as [Hnew|Hold]; [by right|by left].
  - rewrite (other_reaches Q q) in Hx by auto. left. eauto.
Qed.

(** Nothing anyone reaches is free or holds page entries. *)
Lemma step_memory Q q w x : <[P := p']> ps !! Q = Some q → reaches s' q w = Some x →
  ¬ free_byte (fr s') x ∧ ∀ f, entries_frame s' k' (<[P := p']> ps) f → ¬ in_block 0 (f * 4096) x.
Proof using Hst Hok Hh.
  clear HP Hn Hn'. intros Hq Hx. assert (¬ free_byte (fr s) x ∧ ∀ f, entries_frame s k ps f → ¬ in_block 0 (f * 4096) x) as [Hnf Hne].
  { destruct (reach_since Q q w x Hq Hx) as [(q0 & Hq0 & Hx0)|(_ & i & f & Hf & _ & Hb)]; [by apply (mo_memory _ _ _ _ Hok Q q0 w)|].
    apply list_elem_of_lookup_2 in Hf. split; [by apply (hd_used _ _ _ _ Hh f)|]. intros g. by apply (hd_entries _ _ _ _ Hh f). }
  split; [by intros Hf%(st_free _ _ _ _ _ _ _ _ _ _ Hst)|]. intros f [Hf|Hfree]%entries_since; [by apply Hne|]. intros Hb. by apply Hnf, Hfree.
Qed.

Lemma step_isolated Q Q' q q' w w' x : <[P := p']> ps !! Q = Some q → <[P := p']> ps !! Q' = Some q' →
  reaches s' q w = Some x → reaches s' q' w' = Some x → Q = Q' ∧ page_of w = page_of w'.
Proof using Hst Hok Hh.
  clear HP Hn Hn'. intros Hq Hq' Hx Hx'.
  destruct (reach_since Q q w x Hq Hx) as [(q0 & Hq0 & Hx0)|(-> & i & f & Hf & Hpg & Hb)],
    (reach_since Q' q' w' x Hq' Hx') as [(q0' & Hq0' & Hx0')|(-> & i' & f' & Hf' & Hpg' & Hb')].
  - by apply (mo_isolated _ _ _ _ Hok Q Q' q0 q0' w w' x).
  - apply list_elem_of_lookup_2 in Hf'. by destruct (hd_memory _ _ _ _ Hh f' x Q q0 w Hf' Hb' Hq0).
  - apply list_elem_of_lookup_2 in Hf. by destruct (hd_memory _ _ _ _ Hh f x Q' q0' w' Hf Hb Hq0').
  - split; [done|]. destruct (hd_aligned _ _ _ _ Hh f) as [c Hc]; [by eapply list_elem_of_lookup_2|].
    destruct (hd_aligned _ _ _ _ Hh f') as [c' Hc']; [by eapply list_elem_of_lookup_2|].
    assert (f = f') as <- by (unfold in_block in *; change (sz 0) with 4096 in *; lia).
    assert (i = i') as <- by (eapply (NoDup_lookup fs); [apply Hh|done|done]). unfold nth_page in *. congruence.
Qed.

Lemma memory_ok_step : memory_ok n' s' k' (<[P := p']> ps).
Proof using All.
  destruct (st_same _ _ _ _ _ _ _ _ _ _ Hst) as (_ & Eidx & Etop). split.
  - apply Hst.
  - rewrite Eidx, Etop, (st_pml4 _ _ _ _ _ _ _ _ _ _ Hst). apply Hok.
  - rewrite Etop. apply step_frame_used, Hok.
  - rewrite lookup_insert_ne by done. apply Hok.
  - intros Q HQ. destruct (decide (P = Q)) as [<-|Hne]; [by rewrite lookup_insert_eq|]. rewrite lookup_insert_ne by done.
    rewrite (st_spaces _ _ _ _ _ _ _ _ _ _ Hst) by done. by apply Hok.
  - intros Q q [[<- <-]|[Hne Hq]]%lookup_insert_Some; [apply Hst|]. apply other_space; auto.
  - apply step_pages.
  - apply step_apart.
  - apply step_memory.
  - apply step_isolated.
Qed.
End stepping.

(** ** The machine's isolation

    What [Machine.isolated] says of the address spaces the processor can be given. *)

Lemma translate_offset g pts v x : translate g pts v = Some x → x mod 4096 = v mod 4096.
Proof using Type.
  rewrite translate_of_leaf. destruct (leaf g pts v) as [e|]; [|done]. cbn [mbind option_bind]. destruct (present e); [|done].
  intros [= <-]. rewrite Z.add_comm, Z.mod_add by lia. apply Z.mod_mod. lia.
Qed.

Lemma slot_page_inj v w : Machine.in_slot v = true → Machine.in_slot w = true → page_of v = page_of w → v mod 4096 = w mod 4096 → v = w.
Proof using Type.
  unfold Machine.in_slot, page_of. change PDP_MEM_RANGE with (2 ^ 39). rewrite !andb_true_iff, !Z.leb_le, !Z.ltb_lt. intros Hv Hw E Eo.
  pose proof (Z.div_mod v 4096 ltac:(lia)). pose proof (Z.div_mod w 4096 ltac:(lia)).
  rewrite (Z.mod_small (v / 4096)), (Z.mod_small (w / 4096)) in E; [lia|..]; (split; [apply Z.div_pos; lia|apply Z.div_lt_upper_bound; lia]).
Qed.

Lemma process_of_space n s k ps P : memory_ok n s k ps → Machine.is_space s P → ∃ p, ps !! P = Some p.
Proof using Type.
  intros Hok (sp & x & Hsp & Hi & _). pose proof (mo_kernel _ _ _ _ Hok) as Hk. apply (mo_all _ _ _ _ Hok); [|by exists sp].
  intros ->. apply (pv_index _ _ _ _ _ Hk). pose proof (ps_space _ _ _ _ _ (ks_pspace _ _ _ _ (pv_space _ _ _ _ _ Hk))) as E. congruence.
Qed.

Lemma va_reaches n s k ps P p v x : memory_ok n s k ps → ps !! P = Some p → Machine.va s P v = Some x → reaches s p v = Some x.
Proof using Type.
  intros Hok Hp. unfold Machine.va. destruct (wp_virt_to_phys s _ _ _ v (λ r s', r = reaches s p v) (mo_space _ _ _ _ Hok P p Hp) eq_refl) as (r & s' & E & ->).
  rewrite E. by destruct (reaches s p v).
Qed.

Lemma memory_ok_isolated n s k ps : memory_ok n s k ps → Machine.isolated s.
Proof using Type.
  intros Hok a b v w x Ha Hb Hv Hw Hx Hx'.
  destruct (process_of_space _ _ _ _ _ Hok Ha) as [p Hp], (process_of_space _ _ _ _ _ Hok Hb) as [q Hq].
  apply (va_reaches _ _ _ _ _ _ _ _ Hok Hp) in Hx. apply (va_reaches _ _ _ _ _ _ _ _ Hok Hq) in Hx'.
  destruct (mo_isolated _ _ _ _ Hok a b p q v w x Hp Hq Hx Hx') as [-> Epg]. split; [done|]. apply slot_page_inj; [done..|].
  by rewrite <- (translate_offset _ _ _ _ Hx), <- (translate_offset _ _ _ _ Hx').
Qed.

(** ** Mapping an allocation for a process *)

Section growing.
Context {n : Z} {s : kmem} {k : Space} {ps : gmap Z Space} (Hok : memory_ok n s k ps).
Context {P : Z} {p : Space} (Hp : ps !! P = Some p).

Lemma process_not_kernel : P ≠ K.
Proof using Hok Hp. intros ->. pose proof (mo_names _ _ _ _ Hok). congruence. Qed.

Abbreviation user_now := (user_at (lim := lim) (s0 := s) (aK0 := sp_as k) (pdsK0 := sp_pds k) (ptsK0 := sp_pts k) (P := P)
  (a0 := sp_as p) (pds0 := sp_pds p) (pts0 := sp_pts p)).

Lemma user_start : user_now n s (sp_as p) (sp_pds p) (sp_pts p) (sp_as k) (sp_pds k) (sp_pts k).
Proof using Hok Hp.
  assert (∀ m, in_space p m → space_page p (mapping_ptr m) (me_phys_addr m)) as Hpage by (intros m Hm; right; eauto). split.
  - by apply Hok.
  - apply Hok.
  - intros ptr [f Ho]%owns_page. destruct (mo_pages _ _ _ _ Hok P p ptr f Hp Ho) as (H1 & H2 & _). split; [done|lia].
  - intros m Hm. by apply (mo_pages _ _ _ _ Hok P p _ (me_phys_addr m)), Hpage.
  - intros m Hm. by apply (mo_pages _ _ _ _ Hok P p (mapping_ptr m)), Hpage.
  - intros m Hm. by apply (mo_pages _ _ _ _ Hok P p), Hpage.
  - split; try done; auto.
Qed.

Context {n' : Z} {s' : kmem} {k' p' : Space} (Htop : sp_top k' = sp_top k ∧ sp_top p' = sp_top p).
Context (Hu : user_now n' s' (sp_as p') (sp_pds p') (sp_pts p') (sp_as k') (sp_pds k') (sp_pts k')).
Context {v : Z} {fs : list Z} (Hr : range_mapped (pg s) (sp_pts p) v fs (pg s') (sp_pts p')).

Lemma user_step : step s k ps P n' s' k' p' v fs.
Proof using All.
  destruct Hu as [U1 U2 U3 U4 U5 U6 [S1 S2 S3 S4 (S5 & S6 & S7) S8 S9 S10 S11]], Htop as [Ek Ep]. split; try done.
  - by injection S3.
  - intros Q q ptr f Hne Hq Ho. destruct (mo_pages _ _ _ _ Hok Q q ptr f Hq Ho) as (H1 & H2 & _).
    apply S2; [lia|done|]. intros [f' Ho']%owns_page. by destruct (mo_apart _ _ _ _ Hok Q P q p ptr ptr f f' Hq Hp Hne Ho Ho').
  - intros ptr f [[-> ->]|(m & Hm & -> & ->)]; [left; exists p; split; [done|]; left; by rewrite S10, Ep|].
    destruct (S11 m Hm) as [Hm0|[Hf Hb]]; [left; exists p; split; [done|]; right; eauto|]. right.
    split_and!; [done|by apply U5|done|apply U3; right; eauto|by apply U6].
  - intros w x Hx. destruct Hr as [Hin Hout].
    destruct (decide (Exists (λ i, nth_page v (Z.of_nat i) w) (seq 0 (length fs)))) as [Hex|Hno].
    + left. apply Exists_exists in Hex as (i & Hi%elem_of_seq & Hpg). destruct (fs !! i) as [f|] eqn:Ef; [|apply lookup_ge_None in Ef; lia].
      rewrite (Hin i f w Ef Hpg) in Hx. injection Hx as <-. exists i, f. split_and!; [done|done|].
      unfold in_block. change (sz 0) with 4096. pose proof (Z.mod_pos_bound w 4096 ltac:(lia)). lia.
    + right. exists p. split; [done|]. rewrite Hout in Hx; [done|]. intros i Hi Hpg. apply Hno, Exists_exists. exists (Z.to_nat i).
      rewrite elem_of_seq, Z2Nat.id by lia. split; [lia|done].
Qed.
End growing.

Lemma frames_of_aligned l f : Forall mappable l → f ∈ frames_of l → (4096 | f).
Proof using Type.
  intros Hl (fs & (b & <- & Hb)%in_map_iff & Hf)%list_elem_of_In%in_concat.
  apply list_elem_of_In in Hb, Hf. apply page_list_elem in Hf as (i & _ & ->).
  rewrite Forall_forall in Hl. destruct (Hl b Hb) as (_ & _ & _ & Hd). apply Z.divide_add_r; [done|]. by exists i; lia.
Qed.

Context (ops : Memory.KernelOps).
Abbreviation kmap_of_kernel := (@Memory.kmap_phys_range Ein ops).

(** C4: mapping an allocation that nobody uses into the address space of a process, with
    the pages of entries this takes from the frame allocator and mapped for the kernel:
    the pages translate to the frames of the allocation in order, every other page of the
    process, every page of every other process and what the kernel had mapped translate
    as before, and the processes stay isolated: no frame is reached by two pages, none is
    free memory and none holds page entries. *)
Theorem map_allocation_isolated n s k ps P p l flags :
  let N := Z.of_nat (length (frames_of l)) in let v := bump_addr (sp_as p) in
  memory_ok n s k ps → ps !! P = Some p → can_bump (sp_as p) N → Forall mappable l → held s k ps (frames_of l) →
  0 < N ≤ 2 ^ 27 → entries_for v N ≤ n →
  wp (map_allocation (@Memory.kmap_allocation Ein ops) kmap_of_kernel P l flags) (λ r s', r = v ∧ ∃ k' p',
    memory_ok (n - entries_for v N) s' k' (<[P := p']> ps) ∧ Machine.isolated s' ∧
    (∀ i f w, frames_of l !! i = Some f → nth_page v (Z.of_nat i) w → reaches s' p' w = Some (f + w mod 4096)) ∧
    (∀ w, (∀ i, 0 ≤ i < N → ¬ nth_page v i w) → reaches s' p' w = reaches s p w) ∧
    (∀ Q q w, Q ≠ P → ps !! Q = Some q → reaches s' q w = reaches s q w) ∧
    (∀ w, slot_start (sp_as k) ≤ w < bump_addr (sp_as k) → reaches s' k' w = reaches s k w)) s.
Proof.
  intros N v Hok Hp Hb Hl Hh HN Hent. pose proof (process_not_kernel Hok Hp) as HPK.
  assert (0 < entries_for v N) as Hpos.
  { unfold entries_for. pose proof (region_mono v (v + 4096 * (N - 1)) ltac:(lia)). lia. }
  pose proof (user_grows (Ein := Ein) (lim := lim) (Memory.ko_kmap_allocation ops) (Memory.ko_kmap_phys_range ops) (@Memory.kmap_allocation Ein ops) HPK
    (s0 := s) (aK0 := sp_as k) (pdsK0 := sp_pds k) (ptsK0 := sp_pts k) (a0 := sp_as p) (pds0 := sp_pds p) (pts0 := sp_pts p)) as HG.
  change kmap_of_kernel with (kmap_phys_range (Ein := Ein) (Memory.ko_kmap_allocation ops) (Memory.ko_kmap_phys_range ops)).
  apply (wp_map_allocation (lim := lim) (Grows0 := HG)) with (N := n) (a := sp_as p) (pds := sp_pds p) (pts := sp_pts p); try done.
  - intros n1 s1 a1 pds1 pts1 (aK & pdsK & ptsK & Hu). apply (pv_frames _ _ _ _ _ (ua_kernel _ _ _ _ _ _ _ _ Hu)).
  - exists (sp_as k), (sp_pds k), (sp_pts k). exact (user_start Hok Hp).
  - intros s' a' pds' pts' (aK & pdsK & ptsK & Hu) Hm. fold N v in Hu.
    assert (range_mapped (pg s) (sp_pts p) v (frames_of l) (pg s') pts') as Hr by exact (mp_range _ _ _ _ _ _ _ _ _ _ Hm).
    set (k' := {| sp_as := aK; sp_pds := pdsK; sp_pts := ptsK; sp_top := sp_top k |}).
    set (p' := {| sp_as := a'; sp_pds := pds'; sp_pts := pts'; sp_top := sp_top p |}).
    pose proof (user_step Hok Hp (k' := k') (p' := p') (conj eq_refl eq_refl) Hu Hr) as Hst.
    assert (memory_ok (n - entries_for v N) s' k' (<[P := p']> ps)) as Hok' by (apply (memory_ok_step Hok Hst); [done|lia|lia|done]).
    split; [done|]. exists k', p'. split_and!; [done|by eapply memory_ok_isolated|by apply Hr|by apply Hr|apply (other_reaches Hst)|].
    intros w. apply (kernel_reaches Hok Hst); lia.
Qed.

(** ** A new address space *)

(** What [new_address_space] stores, its top page at [pdp]. *)
Definition empty_space (index prot pdp : Z) : AddressSpace :=
  {| as_current_address := if index * PDP_MEM_RANGE =? 0 then PAGE_SIZE else index * PDP_MEM_RANGE; as_pdp_index := index; as_pdp := pdp;
     as_prot := prot; as_free_list := 0; as_entry_maps := [[]; []] |}.

Lemma empty_can_bump index prot pdp m : 0 ≤ index < 512 → 0 ≤ prot < 16 → m < 2 ^ 27 - 1 → can_bump (empty_space index prot pdp) m.
Proof using Type.
  intros Hi Hp Hm. unfold empty_space. split; cbn [as_free_list as_pdp_index as_current_address as_prot]; unfold PAGE_SIZE; change PDP_MEM_RANGE with (2 ^ 39); try done;
    destruct (Z.eqb_spec (index * 2 ^ 39) 0); try lia; [by exists 1|by exists (index * 2 ^ 27); lia].
Qed.

Section creating.
Context {n : Z} {s : kmem} {k : Space} {ps : gmap Z Space} (Hok : memory_ok n s k ps) (Hn : 0 < n).
Context {P index prot : Z} (HPK : P ≠ K) (HP : ps !! P = None).
Let v := bump_addr (sp_as k).
Context {f : Z} {a0 : AddressSpace} {s1 s3 s6 : kmem} {aK : AddressSpace} {pdsK : gmap Z MappingEntry} {ptsK : gmap (Z * Z) MappingEntry}.
Let sA := set_paging (with_spaces (<[P := a0]> (pg_spaces (pg s))) (pg s)) s.
Let k' := {| sp_as := aK; sp_pds := pdsK; sp_pts := ptsK; sp_top := sp_top k |}.
Let p' := {| sp_as := empty_space index prot v; sp_pds := ∅; sp_pts := ∅; sp_top := f |}.
Context (Hpm : page_made (lim := lim) n sA (sp_as k) (sp_pds k) (sp_pts k) f s6 aK pdsK ptsK) (Epg : pg s1 = pg sA).
Context (Hs3 : since s1 (sp_as k) (sp_pds k) (sp_pts k) s3 aK pdsK ptsK).
Context (Epg6 : pg s6 = with_tables (<[v := replicate 512 0]> (pg_tables (pg s3))) (with_spaces (<[P := sp_as p']> (pg_spaces (pg s3))) (pg s3))).

Lemma create_step : step s k ps P (n - 1) s6 k' p' 0 [].
Proof using All.
  destruct Hpm as [M1 (M2 & M3 & M4) M5 (M6 & M7 & M8) M9 M10 M11]. fold v in M4, M10, M11.
  destruct Hs3 as [I1 I2 I3 I4 I5 I6]. rewrite Epg in I2. injection I2 as I2a I2b I2c.
  pose proof (mo_kernel _ _ _ _ Hok) as Hpv. split; cbn [sp_as sp_pds sp_pts sp_top k' p'].
  - done.
  - done.
  - subst v. lia.
  - by rewrite Epg6.
  - exact M5.
  - intros w Hw. apply M10, Hw. subst v. lia.
  - intros Q H1 H2. rewrite Epg6. cbn. rewrite lookup_insert_ne, I3, Epg by done. cbn. by rewrite lookup_insert_ne.
  - intros Q q ptr g Hne Hq Ho. destruct (mo_pages _ _ _ _ Hok Q q ptr g Hq Ho) as (H1 & H2 & _).
    rewrite Epg6. cbn. rewrite lookup_insert_ne by (subst v; lia). rewrite I6; [by rewrite Epg|].
    intros Hk. apply H1. revert Hk. unfold kernel_owns, kernel_page, pool. by rewrite Epg.
  - exact M9.
  - split; [rewrite Epg6; cbn; by rewrite lookup_insert_eq|]. apply tree_empty; [done| |rewrite Epg6; cbn; by rewrite lookup_insert_eq].
    cbn. subst v. pose proof (bump_addr_pos _ _ _ _ _ Hpv). lia.
  - intros ptr g [[-> ->]|(m & [[i Hi]|[i Hi]] & _)]; [|cbn in Hi; simplify_map_eq..]. right. cbn [sp_as sp_top p' empty_space as_pdp].
    split_and!; [exact M7|done|subst v; lia|lia|done].
  - intros w x. unfold translate, leaf. cbn [sp_pts p']. by rewrite lookup_empty.
Qed.
End creating.

(** C5: a new address space, with its top page from the frame allocator and mapped for the
    kernel, maps nothing, can take addresses in its slot, and leaves the processes there are
    isolated and every translation as it was. *)
Theorem new_address_space_isolated n s k ps P index prot :
  memory_ok n s k ps → 0 < n → 2 ≤ room s → P ≠ K → ps !! P = None → 0 ≤ index < KERNEL_PML4_OFFSET → 0 ≤ prot ≤ 15 →
  wp (Memory.new_address_space ops P index prot) (λ _ s', ∃ k' p',
    memory_ok (n - 1) s' k' (<[P := p']> ps) ∧ Machine.isolated s' ∧
    (∀ w, reaches s' p' w = None) ∧ (∀ m, m < 2 ^ 27 - 1 → can_bump (sp_as p') m) ∧
    (∀ Q q w, Q ≠ P → ps !! Q = Some q → reaches s' q w = reaches s q w) ∧
    (∀ w, slot_start (sp_as k) ≤ w < bump_addr (sp_as k) → reaches s' k' w = reaches s k w)) s.
Proof.
  intros Hok Hn Hroom HPK HP Hi Hprot. pose proof (mo_kernel _ _ _ _ Hok) as Hpv. unfold Memory.new_address_space, Memory.alloc_pages_contiguous.
  unfold KERNEL_PML4_OFFSET in *. do 2 (wp_step; wp_step; [lia|]). wp_step. apply wp_set_space.
  set (a0 := {| as_current_address := _ |}). set (sA := set_paging _ s).
  assert (kernel_kept s (sp_as k) (sp_pds k) (sp_pts k) sA) as HkA by (split; [cbn; by rewrite lookup_insert_ne|done|done]).
  assert (stock sA = stock s ∧ room sA = room s) as [EstA EroA] by (unfold sA; by rewrite stock_paging, room_paging).
  pose proof (provides_kept n s _ _ _ sA Hpv HkA eq_refl EstA EroA) as HpvA.
  do 2 wp_step. eapply (wp_take_page (lim := lim)); [exact HpvA|done|]. intros addr s1 Hbt.
  pose proof (bt_took _ _ _ _ Hbt) as (j & Hj & Hst1 & Hro1 & Es1). injection Es1 as _ Epg1.
  change (Memory.kmap_phys_range ops) with (kmap_phys_range (Memory.ko_kmap_allocation ops) (Memory.ko_kmap_phys_range ops)).
  eapply (wp_map_page_made (lim := lim)); [exact HpvA|done|exact Hbt|split; by rewrite Epg1|done|].
  intros s3 aK pdsK ptsK Hs3 _ Hmade. wp_step.
  apply (wp_get_space _ a0); [rewrite (si_spaces _ _ _ _ _ _ _ _ Hs3), Epg1 by done; cbn; by rewrite lookup_insert_eq|].
  wp_step. apply wp_set_space. pose proof (bump_addr_pos n s _ _ _ Hpv ltac:(lia)) as Hpos.
  wp_step. wp_step; [destruct (Z.eqb_spec (bump_addr (sp_as k)) 0); [lia|done]|].
  unfold clear_page, modify_paging. wp_step. set (s6 := set_paging _ _).
  assert (pg s6 = with_tables (<[bump_addr (sp_as k) := replicate 512 0]> (pg_tables (pg s3)))
    (with_spaces (<[P := empty_space index prot (bump_addr (sp_as k))]> (pg_spaces (pg s3))) (pg s3))) as Epg6.
  { unfold s6, a0, empty_space. change PDP_MEM_RANGE with (2 ^ 39). rewrite (wrap_small 64) by lia. done. }
  pose proof (si_state _ _ _ _ _ _ _ _ Hs3) as Es3.
  assert (stock s6 = stock s1 ∧ room s6 = room s1 ∧ fr s6 = fr s1) as (Est6 & Ero6 & Efr6).
  { unfold s6. rewrite Es3. by rewrite !stock_paging, !room_paging. }
  assert (page_made (lim := lim) n sA (sp_as k) (sp_pds k) (sp_pts k) (addr / 4096) s6 aK pdsK ptsK) as Hpm.
  { apply Hmade; [|done|lia|lia]. eapply (stored_kept (lim := lim) (P := P) n sA); [done|exact HpvA|split; by rewrite Epg1|exact Hs3|by rewrite Epg6..]. }
  pose proof (create_step Hok Hn HPK HP Hpm Epg1 Hs3 Epg6) as Hst.
  set (k' := {| sp_as := aK; sp_top := _ |}) in Hst. set (p' := {| sp_as := empty_space _ _ _; sp_top := _ |}) in Hst.
  assert (memory_ok (n - 1) s6 k' (<[P := p']> ps)) as Hok' by (apply (memory_ok_step Hok Hst); [done|lia|lia|apply held_nil]).
  exists k', p'. split_and!; [done|by eapply memory_ok_isolated| | |apply (other_reaches Hst)|].
  - intros w. unfold translate, leaf. cbn [sp_pts p']. by rewrite lookup_empty.
  - intros m Hm. apply empty_can_bump; lia.
  - intros w. apply (kernel_reaches Hok Hst); lia.
Qed.
End isolation.
End PagingIsolation.
