(* ===== verification/PagingIsolationExamples.v ===== *)
(** Two processes over the small kernel of PagingExamples.v: one has a page, the other gets
    two. *)
From S2P Require Import Prelude Util MemState FrameAllocator FrameInvariant FrameProofs FrameAlloc FrameInit FrameExamples PageEntry AddressSpace Paging Memory Machine PagingInvariant PagingProofs PagingGrowth PagingKernel PagingSpec PagingExamples PagingUser PagingIsolation.

Module PagingIsolationExamples.
Import Util Mem FrameAllocator FrameInvariant FrameProofs FrameAlloc FrameInit FrameExamples PageEntry AddressSpace Paging
  PagingInvariant PagingProofs PagingGrowth PagingKernel PagingSpec PagingExamples PagingUser PagingIsolation.

#[local] Existing Instance example_entries.
#[local] Existing Instance example_entries_spec.

(** ** The state *)

(** One page has been taken from the allocator, so there are small blocks. *)
Definition split_kmem : kmem := Eval vm_compute in after (alloc_frames 1) lent_kmem.

Definition process (i : Z) (bump : Z) (maps : list (list MappingEntry)) : AddressSpace :=
  {| as_current_address := bump; as_pdp_index := 0; as_pdp := mapping_ptr (page i); as_prot := 4;
     as_free_list := 0; as_entry_maps := maps |}.

Definition kernel_side : Space := {| sp_as := demo_space; sp_pds := demo_pds; sp_pts := demo_pts; sp_top := 0x4000 |}.

(** Process 1 has the frame 0x7000 at 0x10000, process 2 has nothing. *)
Definition process_1 : Space :=
  {| sp_as := process 0x70 0x11000 [[page 0x72]; [page 0x71]];
     sp_pds := {[0 := page 0x71]}; sp_pts := {[(0, 0) := page 0x72]}; sp_top := me_phys_addr (page 0x70) |}.
Definition process_2 : Space :=
  {| sp_as := process 0x73 0x400000 [[]; []]; sp_pds := ∅; sp_pts := ∅; sp_top := me_phys_addr (page 0x73) |}.
Definition processes : gmap Z Space := <[1 := process_1]> {[2 := process_2]}.

Definition user_page : list Z := insertZ 16 0x7007 zeros.

(** The kernel has the pages of entries of the processes mapped. *)
Definition kernel_table : list Z :=
  foldr (λ i, insertZ (16 + i) (table_entry (page i))) zeros [0x70; 0x71; 0x72; 0x73].

(** The processor's table has the kernel's top page, which is at 0x4000000. *)
Definition two_paging : PagingState :=
  with_pml4 (insertZ 480 0x4000003 zeros) (with_spaces (<[1 := sp_as process_1]> (<[2 := sp_as process_2]> (pg_spaces demo_paging)))
    (with_tables (<[mapping_ptr (page 1) := kernel_table]>
      (<[mapping_ptr (page 0x70) := insertZ 0 (table_entry (page 0x71)) zeros]>
      (<[mapping_ptr (page 0x71) := insertZ 0 (table_entry (page 0x72)) zeros]>
      (<[mapping_ptr (page 0x72) := user_page]>
      (<[mapping_ptr (page 0x73) := zeros]> (pg_tables demo_paging)))))) demo_paging)).

Definition two_kmem : kmem := set_paging two_paging split_kmem.

Abbreviation managed_lim := (managed example_size).

(** ** What is free *)

Lemma split_wf : allocator_wf managed_lim (fr two_kmem) ∧ ∀ x, free_byte (fr two_kmem) x → free_byte (fr lent_kmem) x.
Proof.
  destruct (wp_alloc_frames (lim := managed_lim) lent_kmem 1) as (l & s' & E & H); [apply lent_wf|lia|by vm_compute..|].
  assert (fr two_kmem = fr s') as ->.
  { apply (f_equal (λ r, match r with Ok (_, s) => fr s | Fault _ => fr lent_kmem end)) in E.
    rewrite <- E. by vm_compute. }
  destruct H as [(_ & _ & [Hwf _ Hby _])|(_ & _ & Hwf & Hby)]; split; try done; intros x Hx; apply Hby; auto.
Qed.

(** The block that was lent is not free, and nothing beyond the managed memory is. *)
Lemma not_free x : 0 ≤ x < 524288 ∨ 2097152 ≤ x → ¬ free_byte (fr two_kmem) x.
Proof.
  intros [Hx|Hx] Hf.
  - apply split_wf in Hf. destruct lent_wf as [[Hwf _] [_ _ Hap]]. apply Forall_inv in Hap.
    refine (proj1 (apart_from_bytes (lim := managed_lim) (fr lent_kmem) 7 0 (wf_blocks _ _ Hwf) ltac:(done)) Hap x _ Hf).
    unfold in_block. change (sz 7) with 524288. lia.
  - destruct Hf as (o & b & Hf & Hb). pose proof (blocks_ok _ _ (wf_blocks _ _ (awf_frames _ _ (proj1 split_wf))) _ _ Hf) as (_ & _ & _ & Hlim).
    unfold in_block in Hb. change managed_lim with 2097152 in Hlim. lia.
Qed.

Lemma page_used i : 0 ≤ i → frame_used two_kmem (me_phys_addr (page i)).
Proof. intros Hi x Hx. apply not_free. unfold in_block, page in Hx. cbn [me_phys_addr] in Hx. lia. Qed.

(** ** Pages of entries *)

Lemma kernel_page_case m : kernel_page two_kmem demo_pds demo_pts m → ∃ i, 0 ≤ i < 42 ∧ m = page i.
Proof.
  intros [(i & -> & Hi%elem_of_seq)%list_elem_of_fmap|[-> | ->]%demo_in_tree]; [exists (Z.of_nat i)|exists 0|exists 1]; (split; [lia|done]).
Qed.

Lemma kernel_ptr ptr : kernel_owns two_kmem demo_space demo_pds demo_pts ptr →
  ptr = kernel_pdp ∨ ∃ i, 0 ≤ i < 42 ∧ ptr = mapping_ptr (page i).
Proof.
  intros [->|(m & Hm & ->)]; [by left|right]. destruct (kernel_page_case m Hm) as (i & Hi & ->). eauto.
Qed.

Lemma kernel_space_ok : kspace two_kmem demo_space demo_pds demo_pts.
Proof.
  split; [split; [done|]|apply demo_fresh|split; apply (bool_decide_unpack _); by vm_compute|done|done].
  eapply small_tree; [apply demo_pages_ok|by vm_compute|by vm_compute|by vm_compute|done].
Qed.

Lemma process_1_tree : space_at 1 two_kmem process_1.
Proof.
  split; [done|]. eapply (small_tree _ _ _ _ user_page); [|by vm_compute|by vm_compute|by vm_compute|done].
  split_and!; [done|by vm_compute|apply (bool_decide_unpack _); by vm_compute|apply (bool_decide_unpack _); by vm_compute|].
  repeat constructor; by vm_compute.
Qed.

Lemma process_2_tree : space_at 2 two_kmem process_2.
Proof. split; [done|]. by apply tree_empty. Qed.

Lemma processes_case P p : processes !! P = Some p → (P = 1 ∧ p = process_1) ∨ (P = 2 ∧ p = process_2).
Proof.
  unfold processes. intros [[<- <-]|[_ [<- <-]%lookup_singleton_Some]]%lookup_insert_Some; auto.
Qed.

(** The pages of entries of a process. *)
Lemma process_page P p ptr f : processes !! P = Some p → space_page p ptr f →
  ∃ i, ptr = mapping_ptr (page i) ∧ f = me_phys_addr (page i) ∧ (P = 1 ∧ i ∈ [0x70; 0x71; 0x72] ∨ P = 2 ∧ i = 0x73).
Proof.
  intros [[-> ->]|[-> ->]]%processes_case [[-> ->]|(m & Hm & -> & ->)].
  - exists 0x70. split_and!; [done|done|]. left. split; [done|]. by left.
  - apply small_in_tree in Hm as [-> | ->]; [exists 0x71|exists 0x72]; (split_and!; [done|done|]); left; (split; [done|]); right; [by left|right; by left].
  - exists 0x73. split_and!; [done|done|]. by right.
  - destruct Hm as [[i Hi]|[i Hi]]; cbn in Hi; simplify_map_eq.
Qed.

Lemma process_index P i : (P = 1 ∧ i ∈ [0x70; 0x71; 0x72] ∨ P = 2 ∧ i = 0x73) → 0x70 ≤ i ≤ 0x73 ∧ (P = 2 ↔ i = 0x73).
Proof. rewrite !elem_of_cons, elem_of_nil. intros H. lia. Qed.

Lemma kernel_frame_case f : kernel_frame two_kmem kernel_side f → f = 0x4000 ∨ ∃ i, 0 ≤ i < 42 ∧ f = 0x200 + i.
Proof. intros [->|(m & Hm & ->)]; [by left|right]. destruct (kernel_page_case m Hm) as (i & Hi & ->). by exists i. Qed.

Lemma process_reach P p v x : processes !! P = Some p → reaches two_kmem p v = Some x →
  P = 1 ∧ page_of v = 16 ∧ in_block 0 0x7000 x.
Proof.
  intros [[-> ->]|[-> ->]]%processes_case; rewrite translate_of_leaf; unfold leaf; cbn [sp_pts process_1 process_2]; [|by rewrite lookup_empty].
  destruct (_ !! (_, _)) as [m|] eqn:E; [|done]. apply lookup_singleton_Some in E as [[= E1 E2] <-]. cbn [mbind option_bind].
  change (pg_tables (pg two_kmem) !! mapping_ptr (page 0x72)) with (Some user_page). cbn [mbind option_bind].
  pose proof (level_index_range v PT ltac:(unfold PT; lia)) as Hl. unfold user_page. rewrite lookupZ_insert by done.
  case_decide as El; [|by rewrite lookup_zeros by done]. cbn [mbind option_bind].
  change (present 0x7007) with true. intros [= <-]. split; [done|]. split; [by rewrite indices_page, <- E1, <- E2, <- El|].
  change (phys_addr 0x7007) with 7. unfold in_block. change (sz 0) with 4096. pose proof (Z.mod_pos_bound v 4096 ltac:(lia)). lia.
Qed.

(** ** Two isolated processes *)

Lemma kernel_provides : provides (lim := managed_lim) 2 two_kmem demo_space demo_pds demo_pts.
Proof.
  split.
  - apply kernel_space_ok.
  - apply demo_bump. lia.
  - done.
  - by vm_compute.
  - intros ptr [->|(i & Hi & ->)]%kernel_ptr; [by vm_compute|]. rewrite page_ptr by lia. change (bump_addr demo_space) with 0xfffff00000102000. lia.
  - intros m (i & Hi & ->)%kernel_page_case. apply page_used. lia.
  - apply split_wf.
  - done.
  - intros x Hx. apply not_free. unfold in_block in Hx. change (sz 0) with 4096 in Hx. lia.
  - by vm_compute.
  - by vm_compute.
  - by vm_compute.
Qed.

(** A frame below the managed memory's end holds no page entries. *)
Lemma low_not_entries x f : x < 2097152 → entries_frame two_kmem kernel_side processes f → ¬ in_block 0 (f * 4096) x.
Proof.
  intros Hx Hf. unfold in_block. change (sz 0) with 4096. enough (0x200 ≤ f) by lia.
  destruct Hf as [[->|(i & Hi & ->)]%kernel_frame_case|(P & p & ptr & Hp & Ho)]; [done|lia|].
  destruct (process_page P p ptr f Hp Ho) as (i & _ & -> & Hi%process_index). cbn. lia.
Qed.

Lemma two_pages_ok P p ptr f : processes !! P = Some p → space_page p ptr f →
  ¬ kernel_has two_kmem kernel_side ptr ∧ slot_start demo_space ≤ ptr < bump_addr demo_space ∧
  reaches two_kmem kernel_side ptr = Some (4096 * f) ∧ frame_used two_kmem f ∧ ¬ kernel_frame two_kmem kernel_side f.
Proof.
  intros Hp Ho. destruct (process_page P p ptr f Hp Ho) as (i & -> & -> & Hi). pose proof (process_index P i Hi) as [Hr _]. split_and!.
  - intros [E|(j & Hj & E)]%kernel_ptr; rewrite page_ptr in E by lia; [change kernel_pdp with 0xfffff00000001000 in E; lia|].
    rewrite page_ptr in E by lia. lia.
  - rewrite page_ptr by lia. change (slot_start demo_space) with 0xfffff00000000000. lia.
  - rewrite page_ptr by lia. change (bump_addr demo_space) with 0xfffff00000102000. lia.
  - assert (i = 0x70 ∨ i = 0x71 ∨ i = 0x72 ∨ i = 0x73) as [-> |[-> |[-> | ->]]] by lia; by vm_compute.
  - apply page_used. lia.
  - intros [E|(j & Hj & E)]%kernel_frame_case; cbn in E; lia.
Qed.

Lemma two_ok : memory_ok (lim := managed_lim) 2 two_kmem kernel_side processes.
Proof.
  split.
  - apply kernel_provides.
  - exists 0x4000003. by vm_compute.
  - intros x Hx. apply not_free. unfold in_block in Hx. cbn in Hx. lia.
  - by vm_compute.
  - intros P HP [a Ha].
    change (pg_spaces (pg two_kmem)) with (<[1 := sp_as process_1]> (<[2 := sp_as process_2]> ({[K := demo_space]} : gmap Z AddressSpace))) in Ha.
    destruct (decide (P = 1)) as [->|H1]; [by exists process_1|]. destruct (decide (P = 2)) as [->|H2]; [by exists process_2|].
    by rewrite !lookup_insert_ne, lookup_singleton_ne in Ha.
  - intros P p [[-> ->]|[-> ->]]%processes_case; [apply process_1_tree|apply process_2_tree].
  - apply two_pages_ok.
  - intros P P' p p' ptr ptr' f f' Hp Hp' HP Ho Ho'.
    destruct (process_page P p ptr f Hp Ho) as (i & -> & -> & Hi), (process_page P' p' ptr' f' Hp' Ho') as (j & -> & -> & Hj).
    apply process_index in Hi as [Hi Ei], Hj as [Hj Ej]. rewrite !page_ptr by lia. cbn.
    apply processes_case in Hp as [[-> _]|[-> _]], Hp' as [[-> _]|[-> _]]; lia.
  - intros P p v x Hp Hx. destruct (process_reach P p v x Hp Hx) as (_ & _ & Hb). unfold in_block in Hb. change (sz 0) with 4096 in Hb.
    split; [apply not_free; lia|]. intros f. apply low_not_entries. lia.
  - intros P P' p p' v v' x Hp Hp' Hx Hx'. destruct (process_reach P p v x Hp Hx) as (-> & -> & _).
    by destruct (process_reach P' p' v' x Hp' Hx') as (-> & -> & _).
Qed.

(** Two pages that were allocated from the lent block. *)
Definition two_pages : list PageFrameAllocation := [{| pfa_ptr := 0x9000; pfa_addr := 0x8000; pfa_order := 1 |}].

Lemma two_pages_held : held two_kmem kernel_side processes (frames_of two_pages).
Proof.
  assert (∀ f, f ∈ frames_of two_pages → f = 0x8000 ∨ f = 0x9000) as Hf by 
    (intros f; change (frames_of two_pages) with [0x8000; 0x9000]; rewrite !elem_of_cons, elem_of_nil; naive_solver).
  split.
  - apply (bool_decide_unpack _). by vm_compute.
  - intros f [-> | ->]%Hf; [by exists 8|by exists 9].
  - intros f x Hin Hx. apply not_free. unfold in_block in Hx. change (sz 0) with 4096 in Hx. destruct (Hf f Hin); lia.
  - intros f x m Hin Hx. apply low_not_entries. unfold in_block in Hx. change (sz 0) with 4096 in Hx. destruct (Hf f Hin); lia.
  - intros f x P p v Hin Hx Hp Hr. destruct (process_reach P p v x Hp Hr) as (_ & _ & Hb). unfold in_block in *. change (sz 0) with 4096 in *.
    destruct (Hf f Hin); lia.
Qed.

Lemma map_allocation_isolated_witness :
  wp (map_allocation (Memory.kmap_allocation Memory.no_ops) (Memory.kmap_phys_range Memory.no_ops) 2 two_pages PAGING_WRITABLE) (λ r s',
    r = 0x400000 ∧ ∃ k' p',
    memory_ok (lim := managed_lim) 0 s' k' (<[2 := p']> processes) ∧ Machine.isolated s' ∧
    (∀ i f w, frames_of two_pages !! i = Some f → nth_page 0x400000 (Z.of_nat i) w → reaches s' p' w = Some (f + w mod 4096)) ∧
    (∀ w, (∀ i, 0 ≤ i < 2 → ¬ nth_page 0x400000 i w) → reaches s' p' w = reaches two_kmem process_2 w) ∧
    (∀ Q q w, Q ≠ 2 → processes !! Q = Some q → reaches s' q w = reaches two_kmem q w) ∧
    (∀ w, slot_start demo_space ≤ w < bump_addr demo_space → reaches s' k' w = reaches two_kmem kernel_side w)) two_kmem.
Proof.
  apply (map_allocation_isolated (lim := managed_lim) Memory.no_ops 2 two_kmem kernel_side processes 2 process_2 two_pages PAGING_WRITABLE);
    [apply two_ok|done| | |apply two_pages_held|by vm_compute|by vm_compute].
  - split; try done. by exists 0x400.
  - apply Forall_singleton. split_and!; try done. by exists 8.
Defined.

Lemma new_address_space_isolated_witness :
  wp (Memory.new_address_space Memory.no_ops 3 0 3) (λ _ s', ∃ k' p',
    memory_ok (lim := managed_lim) 1 s' k' (<[3 := p']> processes) ∧ Machine.isolated s' ∧
    (∀ w, reaches s' p' w = None) ∧ (∀ m, m < 2 ^ 27 - 1 → can_bump (sp_as p') m) ∧
    (∀ Q q w, Q ≠ 3 → processes !! Q = Some q → reaches s' q w = reaches two_kmem q w) ∧
    (∀ w, slot_start demo_space ≤ w < bump_addr demo_space → reaches s' k' w = reaches two_kmem kernel_side w)) two_kmem.
Proof.
  apply (new_address_space_isolated (lim := managed_lim) Memory.no_ops 2 two_kmem kernel_side processes 3 0 3);
    [apply two_ok|done|by vm_compute|done|done|done|done].
Defined.

(** The two pages are where they should be and the other process has its own. *)
Example two_processes :
  match map_allocation (Memory.kmap_allocation Memory.no_ops) (Memory.kmap_phys_range Memory.no_ops) 2 two_pages PAGING_WRITABLE two_kmem with
  | Ok (_, s') => (Machine.va s' 2 0x400123, Machine.va s' 2 0x401456, Machine.va s' 2 0x402000, Machine.va s' 1 0x10789)
  | Fault _ => (None, None, None, None)
  end = (Some 0x8123, Some 0x9456, None, Some 0x7789).
Proof. by vm_compute. Qed.
End PagingIsolationExamples.
