(* ===== verification/Elf.v ===== *)
(** The ELF loader: kernel/src/elf_loader.c.

    The file is the list of its bytes; a read past its end is a fault. Segments are
    written at their virtual addresses in the address space that is mapped, whatever
    address space they were mapped into. *)
From S2P Require Import Prelude Util MemState FrameAllocator PageEntry Paging Memory Machine.

Module Elf.
Import Util Mem Machine.

Definition ELFCLASS64 : Z := 2.
Definition ELFDATA2MSB : Z := 2.
Definition PT_LOAD : Z := 1.
Definition PF_X : Z := 1.
Definition PF_W : Z := 2.
Definition sizeof_Elf64Phdr : Z := 56.

(** The fields the loader reads. *)
Record Elf64Ehdr := {
  e_ident : list Z;
  e_entry : Z;
  e_phoff : Z;
  e_phnum : Z;
}.

Record Elf64Phdr := {
  p_type : Z;
  p_flags : Z;
  p_offset : Z;
  p_vaddr : Z;
  p_filesz : Z;
  p_memsz : Z;
}.

(** The little-endian number of [n] bytes at [off]. *)
Definition read_le (data : list Z) (off : Z) (n : nat) : option Z :=
  let l := take n (drop (Z.to_nat off) data) in
  if (0 <=? off) && bool_decide (length l = n) then Some (le_value l) else None.

Definition read_bytes (data : list Z) (off n : Z) : option (list Z) :=
  let l := take (Z.to_nat n) (drop (Z.to_nat off) data) in
  if (0 <=? off) && bool_decide (length l = Z.to_nat n) then Some l else None.

Definition read_file_header (data : list Z) : option Elf64Ehdr :=
  ident ← read_bytes data 0 16;
  entry ← read_le data 24 8;
  phoff ← read_le data 32 8;
  phnum ← read_le data 56 2;
  Some {| e_ident := ident; e_entry := entry; e_phoff := phoff; e_phnum := phnum |}.

Definition read_program_header (data : list Z) (off : Z) : option Elf64Phdr :=
  type ← read_le data off 4;
  flags ← read_le data (off + 4) 4;
  offset ← read_le data (off + 8) 8;
  vaddr ← read_le data (off + 16) 8;
  filesz ← read_le data (off + 32) 8;
  memsz ← read_le data (off + 40) 8;
  Some {| p_type := type; p_flags := flags; p_offset := offset; p_vaddr := vaddr;
          p_filesz := filesz; p_memsz := memsz |}.

(** The checks of the file header. *)
Definition valid_ident (ident : list Z) : bool :=
  bool_decide (take 4 ident = [0x7f; 0x45; 0x4c; 0x46]) &&
  bool_decide (ident !! 4%nat = Some ELFCLASS64) && negb (bool_decide (ident !! 5%nat = Some ELFDATA2MSB)).

Definition segment_pages (header : Elf64Phdr) : Z :=
  u64 (u64 (p_memsz header + PAGE_SIZE) - 1) / PAGE_SIZE.

Definition segment_flags (header : Elf64Phdr) : Z :=
  Z.lor (if Z.land (p_flags header) PF_X =? 0 then 0 else PageEntry.PAGING_EXECUTABLE)
        (if Z.land (p_flags header) PF_W =? 0 then 0 else PageEntry.PAGING_WRITABLE).

(** memset over the pages of a segment, then memcpy of its bytes of the file. *)
Definition fill_segment {S : Type} `{!UserSpaces S} (vaddr size : Z) (bytes : list Z) : M S unit :=
  _ ← store_bytes vaddr (replicate (Z.to_nat size) 0); store_bytes vaddr bytes.

Section loader.
Context `{!MemoryEntries} (K : Memory.KernelOps).

(** One program header; [false] when the file is refused. *)
Definition load_segment (addr_space : Z) (data : list Z) (header : Elf64Phdr) : MM bool :=
  if negb (p_type header =? PT_LOAD) then mret true
  else if negb (p_vaddr header mod PAGE_SIZE =? 0) then mret false
  else
    let pages := segment_pages header in
    allocation ← on_kmem (FrameAllocator.alloc_frames pages);
    if FrameAllocator.is_null allocation then mret false
    else
      success ← on_kmem (Paging.map_allocation_to_range (Memory.ko_kmap_allocation K)
        (Memory.ko_kmap_phys_range K) addr_space allocation (p_vaddr header) PageEntry.PAGING_WRITABLE);
      _ ← on_kmem (FrameAllocator.free_frame_allocation_entries allocation);
      if success : bool then
        bytes ← of_option OutOfBounds (read_bytes data (p_offset header) (p_filesz header));
        _ ← fill_segment (p_vaddr header) (u64 (pages * PAGE_SIZE)) bytes;
        success ← on_kmem (Paging.range_set_flags (Memory.ko_kmap_allocation K)
          (Memory.ko_kmap_phys_range K) addr_space (p_vaddr header) pages (segment_flags header));
        _ ← kernel_assert success "Failed to change flags of mapped memory";
        mret true
      else mret false.

(** The loop over the program headers, [n] of them left from [off] on. *)
Fixpoint load_segments (addr_space : Z) (data : list Z) (n : nat) (off : Z) : MM bool :=
  match n with
  | O => mret true
  | S n =>
      header ← of_option OutOfBounds (read_program_header data off);
      success ← load_segment addr_space data header;
      if success : bool then load_segments addr_space data n (off + sizeof_Elf64Phdr) else mret false
  end.

(** The entry point, or [None] for [false]. *)
Definition load_elf_from_buff (addr_space : Z) (data : list Z) : MM (option Z) :=
  file_header ← of_option OutOfBounds (read_file_header data);
  if valid_ident (e_ident file_header) then
    success ← load_segments addr_space data (Z.to_nat (e_phnum file_header)) (e_phoff file_header);
    mret (if success : bool then Some (e_entry file_header) else None)
  else mret None.

(** A file that does not start with the four magic bytes, is not a 64-bit one or says
    it is big-endian is refused, and nothing has been allocated, mapped or written. *)
Theorem load_elf_refuses addr_space data h s :
  read_file_header data = Some h →
  take 4 (e_ident h) ≠ [0x7f; 0x45; 0x4c; 0x46] ∨ e_ident h !! 4%nat ≠ Some ELFCLASS64 ∨
  e_ident h !! 5%nat = Some ELFDATA2MSB →
  load_elf_from_buff addr_space data s = Ok (None, s).
Proof.
  intros Hh Hbad. unfold load_elf_from_buff, mbind, M_bind. rewrite Hh. unfold of_option, mret, M_ret.
  replace (valid_ident (e_ident h)) with false; [done|].
  unfold valid_ident. repeat case_bool_decide; cbn; try done. destruct Hbad as [|[|]]; done.
Qed.

(** A segment that does not start on a page boundary stops the loading. *)
Lemma load_segment_unaligned addr_space data header s :
  p_type header = PT_LOAD → p_vaddr header mod PAGE_SIZE ≠ 0 →
  load_segment addr_space data header s = Ok (false, s).
Proof.
  intros Ht Hv. unfold load_segment. rewrite Ht. cbn [negb Z.eqb Pos.eqb].
  by replace (p_vaddr header mod PAGE_SIZE =? 0) with false by lia.
Qed.
End loader.

(** ** What a segment holds *)

Section contents.
Context {S : Type} `{!UserSpaces S, !UserSpacesSpec S}.
Implicit Types s : S.

Lemma has_bytes_app s a addr l l' :
  has_bytes s a addr l → has_bytes s a (addr + Z.of_nat (length l)) l' → has_bytes s a addr (l ++ l').
Proof.
  intros Hl Hl' i x [Hi|[Hge Hi]]%lookup_app_Some; [by apply Hl|].
  specialize (Hl' _ x Hi). replace (addr + Z.of_nat i) with (addr + Z.of_nat (length l) + Z.of_nat (i - length l)) by lia.
  done.
Qed.

(** Where memory is mapped for a whole number of pages, filling a segment leaves the
    bytes of the file at its start and zeros up to the end of its last page, and changes
    no other byte of any address space. *)
Theorem fill_segment_spec s a vaddr size bytes :
  us_ok s → us_space s a → us_mapped s = Some a → has_room s a vaddr (Z.to_nat size) →
  (length bytes ≤ Z.to_nat size)%nat →
  wp (fill_segment vaddr size bytes) (λ _ s',
    us_ok s' ∧ us_mapped s' = Some a ∧
    written s a vaddr (bytes ++ replicate (Z.to_nat size - length bytes) 0) s') s.
Proof.
  intros Hok Hsp Hm Hroom Hlen. unfold fill_segment. wp_step.
  destruct (store_bytes_spec s a vaddr (replicate (Z.to_nat size) 0)) as (s1 & E1 & Hok1 & Hm1 & Hs1 & Hb1 & Ho1);
    [done..|by rewrite length_replicate|]. exists tt, s1. split; [exact E1|].
  destruct (store_bytes_spec s1 a vaddr bytes) as (s2 & E2 & Hok2 & Hm2 & Hs2 & Hb2 & Ho2); [done|auto|done| |].
  { intros i Hi. exists 0. specialize (Hb1 (Z.to_nat i) 0). rewrite Z2Nat.id in Hb1 by lia.
    apply Hb1, lookup_replicate. split; [done|lia]. }
  exists tt, s2. split; [exact E2|]. split; [done|]. split; [done|]. split.
  - apply has_bytes_app; [done|]. intros i x [-> Hi]%lookup_replicate.
    rewrite Ho2 by (auto; right; right; lia). rewrite <- Z.add_assoc, <- Nat2Z.inj_add. apply Hb1, lookup_replicate. split; [done|lia].
  - rewrite length_app, length_replicate. intros b w Hb Hw.
    rewrite Ho2 by (auto; destruct Hw as [?|[?|?]]; auto; right; lia).
    apply Ho1; [done|]. rewrite length_replicate. destruct Hw as [?|[?|?]]; auto; right; lia.
Qed.
End contents.
End Elf.
