(* ===== verification/Bootloader.v ===== *)
(** The boot loader: bootloader/src/elf-loader.c, rsdp-finder.c and main.c.

    The firmware's services are the class [Firmware]: every service returns a status and
    what it stores through its pointer arguments. Physical memory is a map of bytes; what
    the loader stores has to lie in the pages it allocated for the kernel, a store outside
    of them is a fault, as is a use of bytes the firmware did not store. *)
From S2P Require Import Prelude Util Elf.

Module Bootloader.
Import Util Elf.

(** ** Statuses *)

Definition EFIERR (a : Z) : Z := Z.lor 0x8000000000000000 a.
Definition EFI_ERROR (status : Z) : bool := signed 64 status <? 0.
Definition EFI_SUCCESS : Z := 0.
Definition EFI_UNSUPPORTED : Z := EFIERR 3.
Definition EFI_BUFFER_TOO_SMALL : Z := EFIERR 5.
Definition EFI_NOT_FOUND : Z := EFIERR 14.
Definition EFI_NOT_STARTED : Z := EFIERR 19.
Definition EFI_SIZE_TO_PAGES (a : Z) : Z := Z.shiftr a 12 + (if Z.land a 0xfff =? 0 then 0 else 1).

(** ** The firmware *)

Record EFI_GRAPHICS_OUTPUT_MODE_INFORMATION := {
  gi_PixelFormat : Z;
  gi_PixelsPerScanLine : Z;
  gi_HorizontalResolution : Z;
  gi_VerticalResolution : Z;
}.

(** What GetMemoryMap stores: the size, the key, the size of a descriptor, and the
    descriptors when they fit. *)
Record firmware_map := { fm_nbytes : Z; fm_mapkey : Z; fm_desc_size : Z; fm_descs : list UEFIMemoryDescriptor }.

Inductive protocol := GraphicsOutput | SimpleFileSystem.

(** [fw_read file n] stores at most [n] bytes; [fw_query_mode] may leave the pointer to the
    information unset. *)
Class Firmware (F : Type) := {
  fw_set_watchdog_timer : Z → M F Z;
  fw_locate_protocol : protocol → M F (Z * Z);
  fw_query_mode : Z → M F (Z * option EFI_GRAPHICS_OUTPUT_MODE_INFORMATION);
  fw_set_mode : Z → Z → M F Z;
  fw_frame_buffer_base : Z → M F Z;
  fw_open_volume : Z → M F (Z * Z);
  fw_open : Z → string → M F (Z * Z);
  fw_close : Z → M F Z;
  fw_set_position : Z → Z → M F Z;
  fw_read : Z → Z → M F (Z * list Z);
  fw_allocate_pool : Z → M F (Z * Z);
  fw_free_pool : Z → M F Z;
  fw_allocate_pages : Z → M F (Z * Z);
  fw_configuration_table : M F (list (list Z * Z));
  fw_get_memory_map : Z → M F (Z * firmware_map);
  fw_exit_boot_services : Z → M F Z;
}.

(** The firmware, physical memory and the pages [first, last) of the kernel. *)
Record loader (F : Type) := { ld_firmware : F; ld_memory : gmap Z Z; ld_pages : Z * Z }.
Arguments ld_firmware {F} _.
Arguments ld_memory {F} _.
Arguments ld_pages {F} _.

Fixpoint write_bytes (m : gmap Z Z) (a : Z) (l : list Z) : gmap Z Z :=
  match l with [] => m | x :: l => write_bytes (<[a := x]> m) (a + 1) l end.

(** The span of the segments that are loaded: the lowest address, what the loop takes for
    the highest, and their number. *)
Definition span_step (st : Z * Z * Z) (header : Elf64Phdr) : Z * Z * Z :=
  let '(low, high, loaded) := st in
  if p_type header =? PT_LOAD then
    (if p_vaddr header <? low then p_vaddr header else low,
     if high <? p_vaddr header then u64 (p_vaddr header + p_memsz header) else high,
     loaded + 1)
  else st.
Definition kernel_span (headers : list Elf64Phdr) : Z * Z * Z := foldl span_step (0xffffffffffffffff, 0, 0) headers.

(** The first table with the GUID. *)
Definition ACPI_20_TABLE_GUID : list Z :=
  [0x71; 0xe8; 0x68; 0x88; 0xf1; 0xe4; 0xd3; 0x11; 0xbc; 0x22; 0x00; 0x80; 0xc7; 0x3c; 0x88; 0x81].

(** The loop over the 16 bytes of two GUIDs. *)
Fixpoint same_guid (n : nat) (guid acpi_guid : list Z) : bool :=
  match n, guid, acpi_guid with
  | O, _, _ => true
  | S n, x :: guid, y :: acpi_guid => if x =? y then same_guid n guid acpi_guid else false
  | _, _, _ => false
  end.

Fixpoint find_table_entry (tables : list (list Z * Z)) : option Z :=
  match tables with
  | [] => None
  | (guid, table) :: tables => if same_guid 16 guid ACPI_20_TABLE_GUID then Some table else find_table_entry tables
  end.

(** EfiLoaderCode is left only where [kernel_entry] lies. *)
Definition retag (kernel_entry : Z) (desc : UEFIMemoryDescriptor) : UEFIMemoryDescriptor :=
  if bool_decide (md_type desc = EfiLoaderCode) &&
     negb ((md_physical_start desc <=? kernel_entry) &&
           (kernel_entry <? u64 (md_physical_start desc + u64 (md_num_pages desc * 4096))))
  then {| md_type := EfiLoaderData; md_physical_start := md_physical_start desc; md_num_pages := md_num_pages desc |}
  else desc.

Section loader.
Context {F : Type} `{!Firmware F}.

Abbreviation LM := (M (loader F)).

Definition on_firmware {A} (m : M F A) : LM A := λ s,
  match m (ld_firmware s) with
  | Ok (r, f) => Ok (r, {| ld_firmware := f; ld_memory := ld_memory s; ld_pages := ld_pages s |})
  | Fault f => Fault f
  end.

(** [status = m; if (EFI_ERROR(status)) return status;] The second component of what is
    returned is [*entry_point]. *)
Definition checked {A} (entry : Z) (m : M F (Z * A)) (k : A → LM (Z * Z)) : LM (Z * Z) :=
  '(status, a) ← on_firmware m; if EFI_ERROR status then mret (status, entry) else k a.
Definition checked_ (entry : Z) (m : M F Z) (k : LM (Z * Z)) : LM (Z * Z) :=
  status ← on_firmware m; if EFI_ERROR status then mret (status, entry) else k.

(** A store of [l] at [a]. *)
Definition store_block (a : Z) (l : list Z) : LM unit :=
  r ← gets ld_pages;
  if bool_decide (l = []) || ((r.1 <=? a) && (a + Z.of_nat (length l) <=? r.2)) then
    modify (λ s, {| ld_firmware := ld_firmware s; ld_memory := write_bytes (ld_memory s) a l; ld_pages := ld_pages s |})
  else throw (BadPointer a).

(** SetMem with zeros; more than the pages hold is a fault without the list being made. *)
Definition zero_block (a n : Z) : LM unit :=
  r ← gets ld_pages;
  if (n =? 0) || ((r.1 <=? a) && (a + n <=? r.2)) then store_block a (replicate (Z.to_nat n) 0) else throw (BadPointer a).

Definition set_pages (base pages : Z) : LM unit :=
  modify (λ s, {| ld_firmware := ld_firmware s; ld_memory := ld_memory s; ld_pages := (base, base + pages * 4096) |}).

(** One program header of the loop that reads the segments. *)
Definition load_segment (file base low entry : Z) (header : Elf64Phdr) (k : LM (Z * Z)) : LM (Z * Z) :=
  if p_type header =? PT_LOAD then
    let physical_addr := u64 (u64 (base + p_vaddr header) - low) in
    let fill :=
      _ ← zero_block (u64 (physical_addr + p_filesz header)) (u64 (p_memsz header - p_filesz header)); k in
    if 0 <? p_filesz header then
      checked_ entry (fw_set_position file (p_offset header)) (
      checked entry (fw_read file (p_filesz header)) (λ bytes,
      _ ← store_block physical_addr bytes; fill))
    else fill
  else k.

Fixpoint load_segments (file base low entry : Z) (headers : list Elf64Phdr) (k : LM (Z * Z)) : LM (Z * Z) :=
  match headers with
  | [] => k
  | header :: headers => load_segment file base low entry header (load_segments file base low entry headers k)
  end.

(** The program headers in the bytes that were read. *)
Definition read_program_headers (data : list Z) (n : Z) : option (list Elf64Phdr) :=
  mapM (λ p, read_program_header data (sizeof_Elf64Phdr * Z.of_nat p)) (seq 0 (Z.to_nat n)).

Definition sizeof_Elf64Ehdr : Z := 64.

Definition load_kernel (root : Z) (filename : string) : LM (Z * Z) :=
  checked 0 (fw_open root filename) (λ file,
  checked_ 0 (fw_set_position file 0) (
  checked 0 (fw_allocate_pool sizeof_Elf64Ehdr) (λ file_header_ptr,
  checked 0 (fw_read file sizeof_Elf64Ehdr) (λ bytes,
  file_header ← of_option OutOfBounds (read_file_header bytes);
  if negb (valid_ident (e_ident file_header)) then mret (EFI_UNSUPPORTED, 0)
  else
  let len := sizeof_Elf64Phdr * e_phnum file_header in
  checked 0 (fw_allocate_pool len) (λ program_headers_ptr,
  checked_ 0 (fw_set_position file (e_phoff file_header)) (
  checked 0 (fw_read file len) (λ bytes,
  headers ← of_option OutOfBounds (read_program_headers bytes (e_phnum file_header));
  let '(low, high, loaded) := kernel_span headers in
  if loaded =? 0 then mret (EFI_NOT_FOUND, 0)
  else
  let entry_point_offset := u64 (e_entry file_header - low) in
  let num_kernel_pages := EFI_SIZE_TO_PAGES (u64 (high - low)) in
  checked 0 (fw_allocate_pages num_kernel_pages) (λ base,
  _ ← set_pages base num_kernel_pages;
  let entry := u64 (base + entry_point_offset) in
  load_segments file base low entry headers (
  checked_ entry (fw_free_pool program_headers_ptr) (
  checked_ entry (fw_free_pool file_header_ptr) (
  checked_ entry (fw_close file) (mret (EFI_SUCCESS, entry))))))))))))).

Definition find_rsdp : LM (Z * Z) :=
  tables ← on_firmware fw_configuration_table;
  match find_table_entry tables with
  | Some table => mret (EFI_SUCCESS, table)
  | None => mret (EFI_NOT_FOUND, 0)
  end.

(** ** efi_main *)

Record frame_buffer := { fb_address : Z; fb_width : Z; fb_height : Z; fb_pixels_per_scanline : Z; fb_format : Z }.
Record memory_map := { mm_nbytes : Z; mm_mapkey : Z; mm_desc_size : Z; mm_descs : list UEFIMemoryDescriptor }.

(** What the kernel is entered with. *)
Record handover := { ho_kernel_entry : Z; ho_memory_map : memory_map; ho_frame_buffer : frame_buffer; ho_rsdp : Z }.

(** [efi_main] returns a status or does not return. *)
Definition early {A B} (m : M F (Z * A)) (k : A → LM (Z + B)) : LM (Z + B) :=
  '(status, a) ← on_firmware m; if EFI_ERROR status then mret (inl status) else k a.
Definition early_ {B} (m : M F Z) (k : LM (Z + B)) : LM (Z + B) :=
  status ← on_firmware m; if EFI_ERROR status then mret (inl status) else k.

Definition PixelRedGreenBlueReserved8BitPerColor : Z := 0.
Definition PixelBlueGreenRedReserved8BitPerColor : Z := 1.

Definition find_frame_buffer (gop : Z) (k : frame_buffer → LM (Z + handover)) : LM (Z + handover) :=
  '(status, info) ← on_firmware (fw_query_mode gop);
  let populate : LM (Z + handover) :=
    info ← of_option NullDeref info;
    if negb (gi_PixelFormat info =? PixelRedGreenBlueReserved8BitPerColor) &&
       negb (gi_PixelFormat info =? PixelBlueGreenRedReserved8BitPerColor)
    then mret (inl EFI_UNSUPPORTED)
    else
      base ← on_firmware (fw_frame_buffer_base gop);
      k {| fb_address := base; fb_width := gi_HorizontalResolution info; fb_height := gi_VerticalResolution info;
           fb_pixels_per_scanline := gi_PixelsPerScanLine info; fb_format := gi_PixelFormat info |} in
  if EFI_ERROR status then
    if negb (status =? EFI_NOT_STARTED) then mret (inl status)
    else early_ (fw_set_mode gop 0) populate
  else populate.

(** Twice GetMemoryMap: for the size, then for the map, with room for two more. *)
Definition get_memory_map (kernel_entry : Z) (k : memory_map → LM (Z + handover)) : LM (Z + handover) :=
  '(status, sizes) ← on_firmware (fw_get_memory_map 0);
  if EFI_ERROR status && negb (status =? EFI_BUFFER_TOO_SMALL) then mret (inl status)
  else
    let nbytes := u64 (fm_nbytes sizes + u64 (fm_desc_size sizes * 2)) in
    early (fw_allocate_pool nbytes) (λ _,
    early (fw_get_memory_map nbytes) (λ m,
    k {| mm_nbytes := fm_nbytes m; mm_mapkey := fm_mapkey m; mm_desc_size := fm_desc_size m;
         mm_descs := retag kernel_entry <$> fm_descs m |})).

Definition efi_main : LM (Z + handover) :=
  early_ (fw_set_watchdog_timer 0) (
  early (fw_locate_protocol GraphicsOutput) (λ gop,
  find_frame_buffer gop (λ fb,
  early (fw_locate_protocol SimpleFileSystem) (λ file_system_protocol,
  early (fw_open_volume file_system_protocol) (λ root,
  '(status, kernel_entry) ← load_kernel root "KERNEL.ELF";
  if EFI_ERROR status then mret (inl status)
  else
  early_ (fw_close root) (
  '(status, rsdp) ← find_rsdp;
  if EFI_ERROR status then mret (inl status)
  else
  get_memory_map kernel_entry (λ map,
  early_ (fw_exit_boot_services (mm_mapkey map)) (
  mret (inr {| ho_kernel_entry := kernel_entry; ho_memory_map := map; ho_frame_buffer := fb; ho_rsdp := rsdp |}))))))))).
End loader.
End Bootloader.
