(* ===== verification/BootloaderProofs.v ===== *)
(** Theorems on the boot loader: where the kernel ends up in memory, which table is the
    root pointer, and what the kernel is handed. *)
From stdpp Require Import sorting.
From S2P Require Import Prelude Util Elf Bootloader.

Module BootloaderProofs.
Import Util Elf Bootloader.

(** ** Blocks *)

Lemma write_bytes_lookup l m a x :
  write_bytes m a l !! x = if (a <=? x) && (x <? a + Z.of_nat (length l)) then l !! Z.to_nat (x - a) else m !! x.
Proof.
  revert m a. induction l as [|b l IH]; intros m a; cbn [write_bytes length].
  - change (Z.of_nat 0) with 0. destruct ((a <=? x) && (x <? a + 0)) eqn:E; [lia|done].
  - rewrite IH. destruct (Z.eq_dec x a) as [->|Hne].
    + replace (a + 1 <=? a) with false by blia. cbn [andb]. rewrite lookup_insert_eq, Z.sub_diag.
      by replace ((a <=? a) && (a <? a + Z.of_nat (S (length l)))) with true by blia.
    + destruct (Z.leb_spec a x).
      * replace (a + 1 <=? x) with true by blia. cbn [andb].
        replace (x <? a + 1 + Z.of_nat (length l)) with (x <? a + Z.of_nat (S (length l))) by (f_equal; lia).
        destruct (x <? _); [|by rewrite lookup_insert_ne]. replace (Z.to_nat (x - a)) with (S (Z.to_nat (x - (a + 1)))) by blia. done.
      * replace (a + 1 <=? x) with false by blia. cbn [andb]. by rewrite lookup_insert_ne.
Qed.

(** ** The span of the segments *)

Definition loads (headers : list Elf64Phdr) : list Elf64Phdr := filter (λ h, p_type h = PT_LOAD) headers.

(** A segment with contents: its bytes are in the file, its memory does not wrap. *)
Definition segment_ok (contents : list Z) (h : Elf64Phdr) : Prop :=
  0 < p_vaddr h ∧ 0 < p_memsz h ∧ p_vaddr h + p_memsz h < 2 ^ 64 ∧ 0 ≤ p_filesz h ≤ p_memsz h ∧
  0 ≤ p_offset h ∧ p_offset h + p_filesz h ≤ Z.of_nat (length contents).

(** One segment lies behind the other, with a byte between them at least. *)
Definition before (a b : Elf64Phdr) : Prop := p_vaddr a + p_memsz a < p_vaddr b.

Lemma span_loads headers st : foldl span_step st headers = foldl span_step st (loads headers).
Proof.
  revert st. induction headers as [|h headers IH]; intros st; [done|]. unfold loads. rewrite filter_cons. fold (loads headers).
  destruct (decide (p_type h = PT_LOAD)) as [Hl|Hl]; cbn [foldl]; [apply IH|].
  rewrite IH. f_equal. destruct st as [[low high] n]. unfold span_step. by replace (p_type h =? PT_LOAD) with false by lia.
Qed.

Definition segment_end (h : Elf64Phdr) : Z := p_vaddr h + p_memsz h.
Definition ends (l : list Elf64Phdr) (high : Z) : Z := foldl (λ _ h, segment_end h) high l.

Lemma span_ascending contents l low high n :
  Forall (segment_ok contents) l → Forall (λ h, p_type h = PT_LOAD) l → StronglySorted before l →
  Forall (λ h, low ≤ p_vaddr h ∧ high < p_vaddr h) l →
  foldl span_step (low, high, n) l = (low, ends l high, n + Z.of_nat (length l)).
Proof.
  revert low high n. induction l as [|h l IH]; intros low high n Hok Hload Hs Hlow; [cbn; f_equal; lia|].
  apply Forall_cons in Hok as [(Hv & Hm & Hw & _) Hok]. apply Forall_cons in Hload as [Hl Hload]. apply Forall_cons in Hlow as [[Hlo Hhi] Hlow].
  apply StronglySorted_inv in Hs as [Hs Hbefore]. unfold ends. cbn [foldl length]. fold (ends l (segment_end h)).
  unfold span_step at 2. rewrite Hl, Z.eqb_refl. replace (p_vaddr h <? low) with false by lia.
  replace (high <? p_vaddr h) with true by lia. rewrite wrap_small by lia. rewrite IH; [unfold segment_end; f_equal; lia|done..|].
  apply Forall_forall. intros h' Hin. rewrite Forall_forall in Hlow, Hbefore. specialize (Hlow h' Hin). specialize (Hbefore h' Hin).
  unfold before in Hbefore. lia.
Qed.

Lemma ends_ge contents l high h :
  Forall (segment_ok contents) l → StronglySorted before l → h ∈ l → segment_end h ≤ ends l high.
Proof.
  revert high h. induction l as [|h' l IH]; intros high h Hok Hs Hin; [by apply not_elem_of_nil in Hin|].
  apply Forall_cons in Hok as [_ Hok]. apply StronglySorted_inv in Hs as [Hs Hbefore]. unfold ends; cbn [foldl]; fold (ends l).
  apply elem_of_cons in Hin as [->|Hin]; [|by apply IH]. destruct l as [|h2 l]; [unfold ends; cbn [foldl]; lia|].
  specialize (IH (segment_end h') h2 Hok Hs ltac:(apply elem_of_cons; by left)).
  rewrite Forall_forall in Hbefore. specialize (Hbefore h2 ltac:(apply elem_of_cons; by left)). unfold before in Hbefore.
  apply Forall_cons in Hok as [(_ & Hm & _) _]. etrans; [|exact IH]. unfold segment_end. lia.
Qed.

Lemma ends_bound contents l high : Forall (segment_ok contents) l → 0 ≤ high < 2 ^ 64 → 0 ≤ ends l high < 2 ^ 64.
Proof.
  revert high. induction l as [|h l IH]; intros high Hok Hh; [done|]. apply Forall_cons in Hok as [(Hv & Hm & Hw & _) Hok].
  unfold ends; cbn [foldl]; fold (ends l). apply IH; [done|]. unfold segment_end. lia.
Qed.

(** What the loop finds for segments in ascending order. *)
Lemma kernel_span_ascending contents headers first rest :
  loads headers = first :: rest → Forall (segment_ok contents) (first :: rest) → StronglySorted before (first :: rest) →
  kernel_span headers = (p_vaddr first, ends (first :: rest) 0, Z.of_nat (S (length rest))).
Proof.
  intros E Hok Hs. unfold kernel_span. rewrite span_loads, E.
  assert (Forall (λ h, p_type h = PT_LOAD) (first :: rest)) as Hload.
  { rewrite <- E. apply Forall_forall. intros h Hin. by apply list_elem_of_filter in Hin as [? _]. }
  apply Forall_cons in Hload as [Hf Hload]. pose proof Hok as [(Hv & Hm & Hw & _) Hok']%Forall_cons.
  apply StronglySorted_inv in Hs as [Hs Hbefore]. unfold ends. cbn [foldl]. unfold span_step at 2. rewrite Hf, Z.eqb_refl.
  replace (p_vaddr first <? 0xffffffffffffffff) with true by lia. replace (0 <? p_vaddr first) with true by lia.
  rewrite wrap_small by lia. rewrite (span_ascending contents); [unfold segment_end; f_equal; lia|done..|].
  apply Forall_forall. intros h Hin. rewrite Forall_forall in Hbefore. specialize (Hbefore h Hin). unfold before in Hbefore. lia.
Qed.

Lemma size_to_pages n : 0 ≤ n → n ≤ EFI_SIZE_TO_PAGES n * 4096 < n + 4096.
Proof.
  intros Hn. unfold EFI_SIZE_TO_PAGES. change 0xfff with (Z.ones 12). rewrite Z.land_ones, Z.shiftr_div_pow2 by lia. change (2 ^ 12) with 4096.
  destruct (Z.eqb_spec (n mod 4096) 0); Z.to_euclidean_division_equations; lia.
Qed.

(** ** Loading *)

Section loading.
Context {F : Type} `{!Firmware F}.
Implicit Types s : loader F.

(** A firmware that works, with the file [contents] open as [file] and [base] the pages it
    will allocate. *)
Context (ok : F → Prop) (pos : F → Z) (contents : list Z) (root file base : Z).
Hypothesis open_ok : ∀ name f, ok f → ∃ f', fw_open root name f = Ok ((0, file), f') ∧ ok f'.
Hypothesis position_ok : ∀ p f, ok f → ∃ f', fw_set_position file p f = Ok (0, f') ∧ ok f' ∧ pos f' = p.
Hypothesis read_ok : ∀ n f, ok f →
  ∃ f', fw_read file n f = Ok ((0, take (Z.to_nat n) (drop (Z.to_nat (pos f)) contents)), f') ∧ ok f'.
Hypothesis pool_ok : ∀ n f, ok f → ∃ p f', fw_allocate_pool n f = Ok ((0, p), f') ∧ ok f' ∧ pos f' = pos f.
Hypothesis free_ok : ∀ p f, ok f → ∃ f', fw_free_pool p f = Ok (0, f') ∧ ok f'.
Hypothesis close_ok : ∀ f, ok f → ∃ f', fw_close file f = Ok (0, f') ∧ ok f'.
Hypothesis pages_ok : ∀ n f, ok f → ∃ f', fw_allocate_pages n f = Ok ((0, base), f') ∧ ok f'.

Definition with_firmware (f : F) s : loader F := {| ld_firmware := f; ld_memory := ld_memory s; ld_pages := ld_pages s |}.

Lemma wp_on_firmware {A} (m : M F A) r f (Q : A → loader F → Prop) s :
  m (ld_firmware s) = Ok (r, f) → Q r (with_firmware f s) → wp (on_firmware m) Q s.
Proof. intros E HQ. eexists r, _. unfold on_firmware. by rewrite E. Qed.

Lemma checked_run {A} entry (m : M F (Z * A)) k a f s :
  m (ld_firmware s) = Ok ((0, a), f) → checked entry m k s = k a (with_firmware f s).
Proof. intros E. unfold checked, on_firmware, mbind, M_bind. by rewrite E. Qed.

Lemma checked_run_ entry (m : M F Z) k f s : m (ld_firmware s) = Ok (0, f) → checked_ entry m k s = k (with_firmware f s).
Proof. intros E. unfold checked_, on_firmware, mbind, M_bind. by rewrite E. Qed.

Lemma wp_checked {A} entry (m : M F (Z * A)) k a f (Q : Z * Z → loader F → Prop) s :
  m (ld_firmware s) = Ok ((0, a), f) → wp (k a) Q (with_firmware f s) → wp (checked entry m k) Q s.
Proof. intros E HQ. unfold checked. wp_step. eapply wp_on_firmware; [exact E|]. done. Qed.

Lemma wp_checked_ entry (m : M F Z) k f (Q : Z * Z → loader F → Prop) s :
  m (ld_firmware s) = Ok (0, f) → wp k Q (with_firmware f s) → wp (checked_ entry m k) Q s.
Proof. intros E HQ. unfold checked_. wp_step. eapply wp_on_firmware; [exact E|]. done. Qed.

Lemma wp_store_block a l (Q : unit → loader F → Prop) s :
  (ld_pages s).1 ≤ a → a + Z.of_nat (length l) ≤ (ld_pages s).2 →
  Q tt {| ld_firmware := ld_firmware s; ld_memory := write_bytes (ld_memory s) a l; ld_pages := ld_pages s |} →
  wp (store_block a l) Q s.
Proof.
  intros H1 H2 HQ. unfold store_block. wp_step. wp_step.
  replace (_ || ((_ <=? a) && _)) with true; [by wp_step|]. symmetry. apply orb_true_iff. right. blia.
Qed.

Lemma wp_zero_block a n (Q : unit → loader F → Prop) s :
  0 ≤ n → (ld_pages s).1 ≤ a → a + n ≤ (ld_pages s).2 →
  Q tt {| ld_firmware := ld_firmware s; ld_memory := write_bytes (ld_memory s) a (replicate (Z.to_nat n) 0); ld_pages := ld_pages s |} →
  wp (zero_block a n) Q s.
Proof.
  intros Hn H1 H2 HQ. unfold zero_block. wp_step. wp_step.
  replace (_ || ((_ <=? a) && _)) with true by (symmetry; apply orb_true_iff; right; blia).
  apply wp_store_block; [done|rewrite length_replicate; lia|done].
Qed.

(** The bytes of a segment, at the distance from [base] that its address has from [low]. *)
Definition segment_at (low : Z) (h : Elf64Phdr) (m : gmap Z Z) : Prop :=
  ∀ i, 0 ≤ i < p_memsz h →
    m !! (base + (p_vaddr h - low) + i) = if i <? p_filesz h then contents !! Z.to_nat (p_offset h + i) else Some 0.

(** The loader's state between two segments. *)
Definition loading (pages : Z) (low : Z) (l : list Elf64Phdr) s : Prop :=
  ok (ld_firmware s) ∧ ld_pages s = (base, base + pages * 4096) ∧ Forall (λ h, segment_at low h (ld_memory s)) l.

Lemma load_segment_run pages low entry h done_ k s :
  loading pages low done_ s → p_type h = PT_LOAD → segment_ok contents h → low ≤ p_vaddr h →
  segment_end h - low ≤ pages * 4096 → 0 ≤ base → base + pages * 4096 < 2 ^ 64 → Forall (λ d, before d h) done_ →
  ∃ s', load_segment file base low entry h k s = k s' ∧ loading pages low (done_ ++ [h]) s'.
Proof.
  intros (Hok & Hpages & Hdone) Hl (Hv & Hm & Hw & Hf & Ho & Hoff) Hlow Hend Hb Hb2 Hbefore.
  unfold load_segment. rewrite Hl, Z.eqb_refl. cbv zeta. unfold segment_end in Hend.
  set (a := base + (p_vaddr h - low)). replace (u64 (u64 (base + p_vaddr h) - low)) with a.
  2:{ rewrite wrap_sub_l, wrap_small by lia. unfold a. lia. }
  rewrite (wrap_small 64 (a + _)) by lia. rewrite (wrap_small 64 (p_memsz h - _)) by lia.
  set (bytes := take (Z.to_nat (p_filesz h)) (drop (Z.to_nat (p_offset h)) contents)).
  assert (length bytes = Z.to_nat (p_filesz h)) as Hlen by (unfold bytes; rewrite length_take, length_drop; lia).
  assert (∀ f m', ok f → m' = write_bytes (write_bytes (ld_memory s) a bytes) (a + p_filesz h) (replicate (Z.to_nat (p_memsz h - p_filesz h)) 0) →
    loading pages low (done_ ++ [h]) {| ld_firmware := f; ld_memory := m'; ld_pages := ld_pages s |}) as Hloaded.
  { intros f m' Hokf ->. split; [done|]. split; [done|]. cbn [ld_memory]. apply Forall_app. split; [|apply Forall_singleton].
    - rewrite Forall_forall in Hdone, Hbefore |- *. intros d Hd i Hi. specialize (Hbefore d Hd). unfold before in Hbefore.
      rewrite !write_bytes_lookup, length_replicate.
      replace ((a + p_filesz h <=? _) && _) with false by blia.
      replace ((a <=? base + (p_vaddr d - low) + i) && _) with false by blia. by apply Hdone.
    - intros i Hi. fold a. rewrite !write_bytes_lookup, length_replicate, Hlen. destruct (Z.ltb_spec i (p_filesz h)).
      + replace ((a + p_filesz h <=? a + i) && _) with false by blia.
        replace ((a <=? a + i) && (a + i <? a + Z.of_nat (Z.to_nat (p_filesz h)))) with true by blia.
        replace (a + i - a) with i by lia. unfold bytes. rewrite lookup_take_lt, lookup_drop by lia. f_equal. lia.
      + replace ((a + p_filesz h <=? a + i) && (a + i <? a + p_filesz h + Z.of_nat (Z.to_nat (p_memsz h - p_filesz h)))) with true by blia.
        rewrite lookup_replicate_2; [done|lia]. }
  assert (∀ f, ok f → ∃ s', (_ ← zero_block (a + p_filesz h) (p_memsz h - p_filesz h); k)
    {| ld_firmware := f; ld_memory := write_bytes (ld_memory s) a bytes; ld_pages := ld_pages s |} = k s' ∧ loading pages low (done_ ++ [h]) s') as Hzero.
  { intros f Hokf. eexists. split; [|by apply (Hloaded f)]. unfold mbind, M_bind. erewrite wp_eq; [reflexivity|].
    apply wp_zero_block; [lia|cbn; rewrite Hpages; cbn; lia|cbn; rewrite Hpages; cbn; lia|done]. }
  destruct (Z.ltb_spec 0 (p_filesz h)) as [Hpos|Hz].
  - destruct (position_ok (p_offset h) _ Hok) as (f1 & E1 & Hok1 & Hpos1). erewrite checked_run_ by exact E1.
    destruct (read_ok (p_filesz h) f1 Hok1) as (f2 & E2 & Hok2). erewrite checked_run by exact E2. rewrite Hpos1. fold bytes.
    destruct (Hzero f2 Hok2) as (s' & E & Hl'). exists s'. split; [|done]. rewrite <- E. unfold mbind at 1, M_bind at 1.
    erewrite wp_eq; [reflexivity|]. apply wp_store_block; [cbn; rewrite Hpages; cbn; lia|cbn; rewrite Hpages, Hlen; cbn; lia|done].
  - assert (bytes = []) as E by (apply length_zero_iff_nil; rewrite Hlen; lia). specialize (Hzero _ Hok). rewrite E in Hzero.
    cbn [write_bytes] in Hzero. destruct s. exact Hzero.
Qed.

Lemma wp_load_segment pages low entry h done_ k (Q : Z * Z → loader F → Prop) s :
  loading pages low done_ s → p_type h = PT_LOAD → segment_ok contents h → low ≤ p_vaddr h →
  segment_end h - low ≤ pages * 4096 → 0 ≤ base → base + pages * 4096 < 2 ^ 64 → Forall (λ d, before d h) done_ →
  (∀ s', loading pages low (done_ ++ [h]) s' → wp k Q s') →
  wp (load_segment file base low entry h k) Q s.
Proof.
  intros H1 H2 H3 H4 H5 H6 H7 H8 HQ. destruct (load_segment_run pages low entry h done_ k s) as (s' & E & Hl); try done.
  unfold wp. rewrite E. by apply HQ.
Qed.

Lemma wp_load_segments pages low entry headers done_ k (Q : Z * Z → loader F → Prop) s :
  loading pages low done_ s → Forall (segment_ok contents) (loads headers) → Forall (λ h, low ≤ p_vaddr h) (loads headers) →
  Forall (λ h, segment_end h - low ≤ pages * 4096) (loads headers) → 0 ≤ base → base + pages * 4096 < 2 ^ 64 →
  StronglySorted before (loads headers) → Forall (λ d, Forall (before d) (loads headers)) done_ →
  (∀ s', loading pages low (done_ ++ loads headers) s' → wp k Q s') →
  wp (load_segments file base low entry headers k) Q s.
Proof.
  revert done_ s. induction headers as [|h headers IH]; intros done_ s Hl Hok Hlow Hend Hb Hb2 Hs Hbefore HQ; cbn [load_segments].
  { apply HQ. by rewrite app_nil_r. }
  unfold loads in *. rewrite filter_cons in *. fold (loads headers) in *. destruct (decide (p_type h = PT_LOAD)) as [Ht|Ht].
  - apply Forall_cons in Hok as [Hok1 Hok]. apply Forall_cons in Hlow as [Hlow1 Hlow]. apply Forall_cons in Hend as [Hend1 Hend].
    apply StronglySorted_inv in Hs as [Hs Hs1].
    apply (wp_load_segment pages low entry h done_); try done.
    + rewrite Forall_forall in Hbefore |- *. intros d Hd. specialize (Hbefore d Hd). by apply Forall_cons in Hbefore as [? _].
    + intros s' Hl'. apply (IH (done_ ++ [h])); try done.
      * apply Forall_app. split; [|by apply Forall_singleton]. rewrite Forall_forall in Hbefore |- *. intros d Hd.
        specialize (Hbefore d Hd). by apply Forall_cons in Hbefore as [_ ?].
      * intros s2 Hl2. apply HQ. by rewrite <- app_assoc in Hl2.
  - unfold load_segment. replace (p_type h =? PT_LOAD) with false by lia. by apply (IH done_).
Qed.

(** *** From the file to the kernel *)

(** The file is an ELF file with the headers [headers]. *)
Record elf_file (fh : Elf64Ehdr) (headers : list Elf64Phdr) : Prop := {
  ef_header : read_file_header (take 64 contents) = Some fh;
  ef_ident : valid_ident (e_ident fh) = true;
  ef_headers : read_program_headers (take (Z.to_nat (sizeof_Elf64Phdr * e_phnum fh)) (drop (Z.to_nat (e_phoff fh)) contents)) (e_phnum fh) = Some headers;
}.

Definition close_kernel (headers_ptr header_ptr entry : Z) : M (loader F) (Z * Z) :=
  checked_ entry (fw_free_pool headers_ptr) (checked_ entry (fw_free_pool header_ptr) (
  checked_ entry (fw_close file) (mret (EFI_SUCCESS, entry)))).

(** [load_kernel] up to the loop that reads the segments. *)
Lemma load_kernel_run name fh headers low high n s :
  ok (ld_firmware s) → elf_file fh headers → kernel_span headers = (low, high, n) → n ≠ 0 →
  ∃ p q s', load_kernel root name s =
      load_segments file base low (u64 (base + u64 (e_entry fh - low))) headers
        (close_kernel p q (u64 (base + u64 (e_entry fh - low)))) s' ∧
    loading (EFI_SIZE_TO_PAGES (u64 (high - low))) low [] s' ∧ ld_memory s' = ld_memory s.
Proof.
  intros Hok [Hh Hid Hhs] Hspan Hn.
  destruct (open_ok name _ Hok) as (f1 & E1 & Hok1). destruct (position_ok 0 f1 Hok1) as (f2 & E2 & Hok2 & Hpos2).
  destruct (pool_ok sizeof_Elf64Ehdr f2 Hok2) as (q & f3 & E3 & Hok3 & Hpos3).
  destruct (read_ok sizeof_Elf64Ehdr f3 Hok3) as (f4 & E4 & Hok4). rewrite Hpos3, Hpos2 in E4.
  destruct (pool_ok (sizeof_Elf64Phdr * e_phnum fh) f4 Hok4) as (p & f5 & E5 & Hok5 & Hpos5).
  destruct (position_ok (e_phoff fh) f5 Hok5) as (f6 & E6 & Hok6 & Hpos6).
  destruct (read_ok (sizeof_Elf64Phdr * e_phnum fh) f6 Hok6) as (f7 & E7 & Hok7). rewrite Hpos6 in E7.
  destruct (pages_ok (EFI_SIZE_TO_PAGES (u64 (high - low))) f7 Hok7) as (f8 & E8 & Hok8).
  eexists p, q, _. split.
  - unfold load_kernel. erewrite checked_run by exact E1. erewrite checked_run_ by exact E2. erewrite checked_run by exact E3.
    erewrite checked_run by exact E4. unfold mbind at 1, M_bind at 1. change (take _ (drop _ contents)) with (take 64 contents) at 1.
    rewrite Hh. cbn [of_option mret M_ret]. rewrite Hid. cbn [negb]. cbv zeta.
    erewrite checked_run by exact E5. erewrite checked_run_ by exact E6. erewrite checked_run by exact E7.
    unfold mbind at 1, M_bind at 1. rewrite Hhs. cbn [of_option mret M_ret]. rewrite Hspan. replace (n =? 0) with false by lia.
    erewrite checked_run by exact E8. unfold mbind at 1, M_bind at 1, set_pages, modify. reflexivity.
  - split; [|done]. split; [exact Hok8|]. split; [done|]. constructor.
Qed.

(** C22: On a firmware that works, [load_kernel] succeeds for an ELF file whose segments come
    in ascending order with space between them: each is in memory, the bytes of the file
    followed by zeros, at its distance from the first, and the entry point lies at its
    distance too. *)
Theorem load_kernel_spec name fh headers first rest s :
  ok (ld_firmware s) → elf_file fh headers → loads headers = first :: rest →
  Forall (segment_ok contents) (first :: rest) → StronglySorted before (first :: rest) →
  p_vaddr first ≤ e_entry fh < 2 ^ 64 → 0 ≤ base → base + (e_entry fh - p_vaddr first) < 2 ^ 64 →
  base + (ends (first :: rest) 0 - p_vaddr first) + 4096 < 2 ^ 64 →
  wp (load_kernel root name) (λ r s',
    r = (EFI_SUCCESS, base + (e_entry fh - p_vaddr first)) ∧
    Forall (λ h, segment_at (p_vaddr first) h (ld_memory s')) (first :: rest)) s.
Proof.
  intros Hok Hfile Hl Hseg Hs Hentry Hb Hbe Hroom. set (low := p_vaddr first) in *. set (high := ends (first :: rest) 0) in *.
  pose proof (kernel_span_ascending contents headers first rest Hl Hseg Hs) as Hspan. fold low high in Hspan.
  destruct (load_kernel_run name fh headers low high _ s Hok Hfile Hspan ltac:(lia)) as (p & q & s1 & E & Hload & _).
  assert (0 < low) as Hlow by (apply Forall_cons in Hseg as [[? _] _]; done).
  assert (low ≤ high) as Hlh.
  { pose proof (ends_ge contents (first :: rest) 0 first Hseg Hs ltac:(apply elem_of_cons; by left)) as Hge.
    apply Forall_cons in Hseg as [(_ & ? & _) _]. unfold segment_end in Hge. fold low high in Hge. lia. }
  pose proof (ends_bound contents (first :: rest) 0 Hseg ltac:(lia)) as Hhb. fold high in Hhb.
  rewrite (wrap_small 64 (high - low)) in * by lia. pose proof (size_to_pages (high - low) ltac:(lia)) as Hpages.
  rewrite (wrap_small 64 (e_entry fh - low)), (wrap_small 64 (base + _)) in E by lia.
  unfold wp. rewrite E. clear E.
  change (wp (load_segments file base low (base + (e_entry fh - low)) headers (close_kernel p q (base + (e_entry fh - low))))
    (λ r s', r = (EFI_SUCCESS, base + (e_entry fh - low)) ∧ Forall (λ h, segment_at low h (ld_memory s')) (first :: rest)) s1).
  apply (wp_load_segments (EFI_SIZE_TO_PAGES (high - low)) low _ headers []); rewrite ?Hl; try done; [| |lia|].
  - apply Forall_cons. split; [done|]. apply StronglySorted_inv in Hs as [_ Hs]. apply Forall_cons in Hseg as [(_ & ? & _) _].
    eapply Forall_impl; [exact Hs|]. intros h Hh. unfold before in Hh. fold low in Hh. lia.
  - apply Forall_forall. intros h Hh. pose proof (ends_ge contents (first :: rest) 0 h Hseg Hs Hh) as Hge. fold high in Hge. lia.
  - intros s2 (Hok2 & _ & Hsegs). unfold close_kernel.
    destruct (free_ok p _ Hok2) as (f1 & E1 & Hok3). eapply wp_checked_; [exact E1|].
    destruct (free_ok q f1 Hok3) as (f2 & E2 & Hok4). eapply wp_checked_; [exact E2|].
    destruct (close_ok f2 Hok4) as (f3 & E3 & _). eapply wp_checked_; [exact E3|]. wp_step. by split.
Qed.

(** With nothing between two segments the second is not counted: when the first fills
    its pages, reading the second runs past the memory that was allocated for the kernel. *)
Theorem load_kernel_adjacent name fh headers a b s :
  ok (ld_firmware s) → elf_file fh headers → headers = [a; b] → loads headers = [a; b] →
  segment_ok contents a → segment_ok contents b → p_vaddr b = segment_end a → p_memsz a mod 4096 = 0 →
  0 < p_filesz b → 0 ≤ base → base + p_memsz a + p_memsz b < 2 ^ 63 →
  load_kernel root name s = Fault (BadPointer (base + p_memsz a)).
Proof.
  intros Hok Hfile -> Hl Ha Hb Hadj Hfull Hfb Hbase Hroom. pose proof Ha as (Hva & Hma & Hwa & Hfa & _). pose proof Hb as (Hvb & Hmb & Hwb & Hfsb & Hob & Hoffb).
  assert (p_type a = PT_LOAD ∧ p_type b = PT_LOAD) as [Hta Htb].
  { split; (assert (Hin : ∀ h, h ∈ loads [a; b] → p_type h = PT_LOAD) by (intros h Hh; by apply list_elem_of_filter in Hh as [? _])); apply Hin; rewrite Hl; set_solver. }
  unfold segment_end in Hadj.
  assert (kernel_span [a; b] = (p_vaddr a, p_vaddr a + p_memsz a, 2)) as Hspan.
  { unfold kernel_span. cbn [foldl]. unfold span_step. rewrite Hta, Htb, Z.eqb_refl.
    replace (p_vaddr a <? 0xffffffffffffffff) with true by lia. replace (0 <? p_vaddr a) with true by lia. rewrite (wrap_small 64 (p_vaddr a + _)) by lia.
    replace (p_vaddr b <? p_vaddr a) with false by lia. by replace (p_vaddr a + p_memsz a <? p_vaddr b) with false by lia. }
  destruct (load_kernel_run name fh [a; b] _ _ _ s Hok Hfile Hspan ltac:(lia)) as (p & q & s1 & E & Hload & _).
  replace (p_vaddr a + p_memsz a - p_vaddr a) with (p_memsz a) in Hload by lia. rewrite wrap_small in Hload by lia.
  assert (EFI_SIZE_TO_PAGES (p_memsz a) * 4096 = p_memsz a) as Hpages.
  { unfold EFI_SIZE_TO_PAGES. change 0xfff with (Z.ones 12). rewrite Z.land_ones, Z.shiftr_div_pow2 by lia. change (2 ^ 12) with 4096.
    rewrite Hfull. cbn [Z.eqb]. apply Z.mod_divide in Hfull as [k Hk]; [|done]. rewrite Hk, Z.div_mul by done. lia. }
  rewrite E. clear E. set (entry := u64 _). cbn [load_segments].
  set (k := load_segment file base (p_vaddr a) entry b (close_kernel p q entry)).
  assert (∀ s', loading (EFI_SIZE_TO_PAGES (p_memsz a)) (p_vaddr a) [a] s' → k s' = Fault (BadPointer (base + p_memsz a))) as Hk.
  { intros s' (Hok' & Hp' & _). unfold k, load_segment. rewrite Htb, Z.eqb_refl. cbv zeta. replace (0 <? p_filesz b) with true by lia.
    destruct (position_ok (p_offset b) _ Hok') as (f1 & E1 & Hok1 & Hpos1). erewrite checked_run_ by exact E1.
    destruct (read_ok (p_filesz b) f1 Hok1) as (f2 & E2 & Hok2). erewrite checked_run by exact E2. rewrite Hpos1.
    rewrite wrap_sub_l, (wrap_small 64 (base + _ - _)) by lia. replace (base + p_vaddr b - p_vaddr a) with (base + p_memsz a) by lia.
    set (bytes := take _ _). assert (length bytes = Z.to_nat (p_filesz b)) as Hlen by (unfold bytes; rewrite length_take, length_drop; lia).
    unfold mbind at 1, M_bind at 1, store_block, mbind at 1, M_bind at 1, gets. cbn [ld_pages with_firmware]. rewrite Hp'. cbn [fst snd].
    rewrite Hpages, bool_decide_eq_false_2 by (intros E; rewrite E in Hlen; cbn in Hlen; lia). cbn [orb].
    by replace ((base <=? base + p_memsz a) && (base + p_memsz a + Z.of_nat (length bytes) <=? base + p_memsz a)) with false by blia. }
  destruct (load_segment_run (EFI_SIZE_TO_PAGES (p_memsz a)) (p_vaddr a) entry a [] k s1) as (s2 & -> & H2); rewrite ?Hpages; unfold segment_end; try done; try lia.
  by apply Hk.
Qed.
End loading.

(** ** What the kernel is handed *)

Lemma same_guid_take n guid acpi_guid :
  same_guid n guid acpi_guid = true → take n guid = take n acpi_guid.
Proof.
  revert guid acpi_guid. induction n as [|n IH]; intros [|x guid] [|y acpi_guid]; cbn; try done.
  destruct (Z.eqb_spec x y) as [->|]; [|done]. intros E. by rewrite (IH _ _ E).
Qed.

Lemma find_table_entry_elem tables table :
  find_table_entry tables = Some table → ∃ guid, (guid, table) ∈ tables ∧ take 16 guid = ACPI_20_TABLE_GUID.
Proof.
  induction tables as [|[guid t] tables IH]; cbn [find_table_entry]; [done|]. destruct (same_guid 16 guid ACPI_20_TABLE_GUID) eqn:E.
  - intros [= ->]. exists guid. split; [set_solver|]. by apply same_guid_take in E.
  - intros H. destruct (IH H) as (g & ? & ?). exists g. split; [set_solver|done].
Qed.

Lemma bind_inv {S A B} (m : M S A) (k : A → M S B) (s0 : S) r s2 :
  (x ← m; k x) s0 = Ok (r, s2) → ∃ x s1, m s0 = Ok (x, s1) ∧ k x s1 = Ok (r, s2).
Proof. unfold mbind, M_bind. destruct (m s0) as [[x s1]|] eqn:E; [|done]. by eauto. Qed.

Section handover.
Context {F : Type} `{!Firmware F}.
Implicit Types s : loader F.

Lemma on_firmware_inv {A} (m : M F A) s r s' :
  on_firmware m s = Ok (r, s') → m (ld_firmware s) = Ok (r, ld_firmware s').
Proof. unfold on_firmware. destruct (m (ld_firmware s)) as [[x f]|] eqn:E; [|done]. by intros [= -> <-]. Qed.

Lemma early_inv {A B} (m : M F (Z * A)) (k : A → M (loader F) (Z + B)) s h s' :
  early m k s = Ok (inr h, s') →
  ∃ status a s1, m (ld_firmware s) = Ok ((status, a), ld_firmware s1) ∧ EFI_ERROR status = false ∧ k a s1 = Ok (inr h, s').
Proof.
  intros ([status a] & s1 & E & H)%bind_inv. apply on_firmware_inv in E. exists status, a, s1.
  cbv beta iota in H. destruct (EFI_ERROR status) eqn:Es; [done|]. done.
Qed.

Lemma early_inv_ {B} (m : M F Z) (k : M (loader F) (Z + B)) s h s' :
  early_ m k s = Ok (inr h, s') →
  ∃ status s1, m (ld_firmware s) = Ok (status, ld_firmware s1) ∧ EFI_ERROR status = false ∧ k s1 = Ok (inr h, s').
Proof.
  intros (status & s1 & E & H)%bind_inv. apply on_firmware_inv in E. exists status, s1.
  cbv beta iota in H. destruct (EFI_ERROR status) eqn:Es; [done|]. done.
Qed.

Definition supported_format (fb : frame_buffer) : Prop :=
  fb_format fb = PixelRedGreenBlueReserved8BitPerColor ∨ fb_format fb = PixelBlueGreenRedReserved8BitPerColor.

Lemma find_frame_buffer_inv gop k s h s' :
  find_frame_buffer gop k s = Ok (inr h, s') → ∃ fb s1, supported_format fb ∧ k fb s1 = Ok (inr h, s').
Proof.
  unfold find_frame_buffer. intros ([status info] & s1 & _ & H)%bind_inv. cbv zeta in H.
  match type of H with context [early_ _ ?p] => set (populate := p) in * end.
  assert (∃ s2, populate s2 = Ok (inr h, s')) as [s2 Hp].
  { destruct (EFI_ERROR status); [|by eauto]. destruct (negb (status =? EFI_NOT_STARTED)); [done|].
    apply early_inv_ in H as (? & s2 & _ & _ & H). by eauto. }
  unfold populate in Hp. apply bind_inv in Hp as (i & s3 & _ & Hp). destruct (negb _ && negb _) eqn:Ef; [done|].
  apply bind_inv in Hp as (b & s4 & _ & Hp). eexists _, s4. split; [|exact Hp]. unfold supported_format. cbn.
  apply andb_false_iff in Ef as [E|E]; apply negb_false_iff, Z.eqb_eq in E; auto.
Qed.

(** Where the code of the kernel is, and nothing else, is left as loader code. *)
Definition tagged (kernel_entry : Z) (d : UEFIMemoryDescriptor) : Prop :=
  md_type d = EfiLoaderCode →
  md_physical_start d ≤ kernel_entry < u64 (md_physical_start d + u64 (md_num_pages d * 4096)).

Lemma retag_tagged kernel_entry d : tagged kernel_entry (retag kernel_entry d).
Proof.
  unfold tagged, retag. case_bool_decide as Ht; cbn [andb]; [|by intros].
  destruct (negb _) eqn:E; [done|]. intros _. apply negb_false_iff in E. blia.
Qed.

(** C29: When [efi_main] enters the kernel, the pixel format is one the kernel knows, the
    root pointer comes from a table of the firmware with the GUID of ACPI 2.0, of the loader
    code of the memory map only the region that holds the entry point of the loaded kernel
    is left, and the last service called was ExitBootServices, right after that map was
    read and with its key. *)
Theorem efi_main_hands_over s h s' :
  efi_main s = Ok (inr h, s') →
  supported_format (ho_frame_buffer h) ∧
  (∃ f f' tables guid, fw_configuration_table f = Ok (tables, f') ∧ (guid, ho_rsdp h) ∈ tables ∧
    take 16 guid = ACPI_20_TABLE_GUID) ∧
  (∃ root s1 s2 status, load_kernel root "KERNEL.ELF" s1 = Ok ((status, ho_kernel_entry h), s2) ∧ EFI_ERROR status = false) ∧
  Forall (tagged (ho_kernel_entry h)) (mm_descs (ho_memory_map h)) ∧
  ∃ f1 f2 nbytes m ok1 ok2, fw_get_memory_map nbytes f1 = Ok ((ok1, m), f2) ∧ EFI_ERROR ok1 = false ∧
    mm_descs (ho_memory_map h) = retag (ho_kernel_entry h) <$> fm_descs m ∧
    fw_exit_boot_services (fm_mapkey m) f2 = Ok (ok2, ld_firmware s') ∧ EFI_ERROR ok2 = false.
Proof.
  unfold efi_main. intros (? & s1 & _ & _ & H)%early_inv_. apply early_inv in H as (? & gop & s2 & _ & _ & H).
  apply find_frame_buffer_inv in H as (fb & s3 & Hfb & H). apply early_inv in H as (? & fsp & s4 & _ & _ & H).
  apply early_inv in H as (? & root & s5 & _ & _ & H). apply bind_inv in H as ([st entry] & s6 & Hk & H). cbv beta iota in H.
  destruct (EFI_ERROR st) eqn:Est; [done|]. apply early_inv_ in H as (? & s7 & _ & _ & H).
  apply bind_inv in H as ([st2 rsdp] & s8 & Hr & H). cbv beta iota in H. destruct (EFI_ERROR st2) eqn:Est2; [done|].
  apply bind_inv in Hr as (tables & s9 & Et & Hr). apply on_firmware_inv in Et.
  destruct (find_table_entry tables) as [table|] eqn:Ef; [|by injection Hr as <- <- <-]. injection Hr as <- <- <-.
  apply find_table_entry_elem in Ef as (guid & Hin & Hg). unfold get_memory_map in H.
  apply bind_inv in H as ([st3 sizes] & s10 & _ & H). cbv beta iota zeta in H. destruct (_ && _); [done|].
  apply early_inv in H as (? & ? & s11 & _ & _ & H). apply early_inv in H as (ok1 & m & s12 & Em & Hok1 & H).
  apply early_inv_ in H as (ok2 & s13 & Ex & Hok2 & H). injection H as <- <-. cbn [ho_frame_buffer ho_rsdp ho_kernel_entry ho_memory_map mm_descs].
  split_and!; [done|by eauto 10|by eauto 10| |].
  2:{ eexists _, _, _, m, ok1, ok2. split_and!; done || exact Em || exact Ex. }
  apply Forall_fmap, Forall_forall. intros d _. apply retag_tagged.
Qed.
End handover.
End BootloaderProofs.
