(* ===== verification/BootExamples.v ===== *)
(** The theorems on the boot path at a concrete firmware with a kernel of two segments, and
    at a concrete processor. *)
From stdpp Require Import sorting.
From S2P Require Import Prelude Util Elf Devices Apic Descriptors Exceptions ProcessInit Asm Boot Bootloader BootloaderProofs.

Module BootExamples.
Import Util Elf Devices Apic Descriptors Exceptions ProcessInit Asm Boot Bootloader BootloaderProofs.

(** ** The firmware

    Its state is the position in the file. *)
Definition kernel_base : Z := 0x200000.
Definition other_guid : list Z := replicate 16 0xee.
Definition screen_info : EFI_GRAPHICS_OUTPUT_MODE_INFORMATION :=
  {| gi_PixelFormat := 1; gi_PixelsPerScanLine := 1024; gi_HorizontalResolution := 1000; gi_VerticalResolution := 700 |}.
Definition regions : list UEFIMemoryDescriptor :=
  [ {| md_type := EfiLoaderCode; md_physical_start := 0x100000; md_num_pages := 16 |};
    {| md_type := EfiLoaderCode; md_physical_start := kernel_base; md_num_pages := 2 |};
    {| md_type := EfiConventionalMemory; md_physical_start := 0x400000; md_num_pages := 64 |} ].

Definition uefi (contents : list Z) : Firmware Z := {|
  fw_set_watchdog_timer _ f := Ok (0, f);
  fw_locate_protocol p f := Ok ((0, match p with GraphicsOutput => 0x10 | SimpleFileSystem => 0x20 end), f);
  fw_query_mode _ f := Ok ((0, Some screen_info), f);
  fw_set_mode _ _ f := Ok (0, f);
  fw_frame_buffer_base _ f := Ok (0xfd000000, f);
  fw_open_volume _ f := Ok ((0, 0x30), f);
  fw_open _ _ f := Ok ((0, 0x40), f);
  fw_close _ f := Ok (0, f);
  fw_set_position _ p f := Ok (0, p);
  fw_read _ n f := Ok ((0, take (Z.to_nat n) (drop (Z.to_nat f) contents)), f + n);
  fw_allocate_pool _ f := Ok ((0, 0x50), f);
  fw_free_pool _ f := Ok (0, f);
  fw_allocate_pages _ f := Ok ((0, kernel_base), f);
  fw_configuration_table f := Ok ([(other_guid, 0x7d000); (ACPI_20_TABLE_GUID, 0x7e000); (ACPI_20_TABLE_GUID, 0x7f000)], f);
  fw_get_memory_map n f :=
    let m := {| fm_nbytes := 144; fm_mapkey := 7; fm_desc_size := 48; fm_descs := if n <? 144 then [] else regions |} in
    Ok ((if n <? 144 then EFI_BUFFER_TOO_SMALL else 0, m), f);
  fw_exit_boot_services key f := Ok (if key =? 7 then 0 else EFI_NOT_STARTED, f);
|}.

(** ** Kernels *)

Definition header_bytes (entry n : Z) : list Z :=
  [0x7f; 0x45; 0x4c; 0x46; 2; 1] ++ replicate 18 0 ++ le_bytes 8 entry ++ le_bytes 8 64 ++ replicate 16 0 ++ le_bytes 2 n ++ replicate 6 0.
Definition segment_bytes (h : Elf64Phdr) : list Z :=
  le_bytes 4 (p_type h) ++ le_bytes 4 (p_flags h) ++ le_bytes 8 (p_offset h) ++ le_bytes 8 (p_vaddr h) ++ replicate 8 0 ++
  le_bytes 8 (p_filesz h) ++ le_bytes 8 (p_memsz h) ++ replicate 8 0.

Definition text : Elf64Phdr := {| p_type := 1; p_flags := 5; p_offset := 176; p_vaddr := 0xfffff00000000000; p_filesz := 4; p_memsz := 8 |}.
Definition data : Elf64Phdr := {| p_type := 1; p_flags := 6; p_offset := 180; p_vaddr := 0xfffff00000001000; p_filesz := 2; p_memsz := 16 |}.
Definition kernel : list Z := header_bytes 0xfffff00000000004 2 ++ segment_bytes text ++ segment_bytes data ++ [1; 2; 3; 4; 5; 6].

(** Text that fills its page, with the data right behind it. *)
Definition full_text : Elf64Phdr := {| p_type := 1; p_flags := 5; p_offset := 176; p_vaddr := 0xfffff00000000000; p_filesz := 4; p_memsz := 4096 |}.
Definition tight : list Z := header_bytes 0xfffff00000000004 2 ++ segment_bytes full_text ++ segment_bytes data ++ [1; 2; 3; 4; 5; 6].

Definition elf_header : Elf64Ehdr :=
  {| e_ident := [0x7f; 0x45; 0x4c; 0x46; 2; 1] ++ replicate 10 0; e_entry := 0xfffff00000000004; e_phoff := 64; e_phnum := 2 |}.
Definition starting : loader Z := {| ld_firmware := 0; ld_memory := ∅; ld_pages := (0, 0) |}.

Lemma kernel_file : elf_file kernel elf_header [text; data].
Proof. by split; vm_compute. Qed.
Lemma tight_file : elf_file tight elf_header [full_text; data].
Proof. by split; vm_compute. Qed.

Lemma text_ok : segment_ok kernel text.
Proof. split_and!; by vm_compute. Qed.
Lemma data_ok : segment_ok kernel data.
Proof. split_and!; by vm_compute. Qed.

Lemma load_kernel_spec_witness :
  wp (@load_kernel Z (uefi kernel) 0x30 "KERNEL.ELF") (λ r s',
    r = (0, 0x200004) ∧ Forall (λ h, segment_at kernel kernel_base 0xfffff00000000000 h (ld_memory s')) [text; data]) starting.
Proof.
  apply (@load_kernel_spec Z (uefi kernel) (λ _, True) id kernel 0x30 0x40 kernel_base) with (fh := elf_header) (headers := [text; data]) (first := text) (rest := [data]);
    try by eauto.
  - repeat apply Forall_cons_2; try apply Forall_nil_2; split_and!; by vm_compute.
  - repeat constructor.
Defined.

Lemma load_kernel_adjacent_witness :
  @load_kernel Z (uefi tight) 0x30 "KERNEL.ELF" starting = Fault (BadPointer 0x201000).
Proof.
  apply (@load_kernel_adjacent Z (uefi tight) (λ _, True) id tight 0x30 0x40 kernel_base) with (fh := elf_header) (headers := [full_text; data]) (a := full_text) (b := data);
    try by eauto.
Defined.

(** *** What the kernel is handed *)

Definition handed : handover :=
  {| ho_kernel_entry := 0x200004;
     ho_memory_map := {| mm_nbytes := 144; mm_mapkey := 7; mm_desc_size := 48; mm_descs :=
       [ {| md_type := EfiLoaderData; md_physical_start := 0x100000; md_num_pages := 16 |};
         {| md_type := EfiLoaderCode; md_physical_start := kernel_base; md_num_pages := 2 |};
         {| md_type := EfiConventionalMemory; md_physical_start := 0x400000; md_num_pages := 64 |} ] |};
     ho_frame_buffer := {| fb_address := 0xfd000000; fb_width := 1000; fb_height := 700; fb_pixels_per_scanline := 1024; fb_format := 1 |};
     ho_rsdp := 0x7e000 |}.

Definition after_efi_main : loader Z :=
  match @efi_main Z (uefi kernel) starting with Ok (_, s) => s | Fault _ => starting end.

Lemma efi_main_hands_over_witness :
  Forall (tagged 0x200004) (mm_descs (ho_memory_map handed)) ∧ supported_format (ho_frame_buffer handed) ∧
  @efi_main Z (uefi kernel) starting = Ok (inr handed, after_efi_main).
Proof.
  assert (@efi_main Z (uefi kernel) starting = Ok (inr handed, after_efi_main)) as E by by vm_compute.
  pose proof (@efi_main_hands_over Z (uefi kernel) starting handed after_efi_main E) as (H1 & _ & _ & H4 & _). split; [exact H4|split; [exact H1|exact E]].
Defined.

(** *** The processor *)

Definition booting : cpu :=
  {| cpu_gdt := g_gdt; cpu_tss := {| tss_rsp := []; tss_interrupt_stack_table := []; tss_iopb_offset := 0 |};
     cpu_idt := replicate 256 empty_gate; cpu_gdtr := {| tr_size := 0; tr_base := 0 |}; cpu_idtr := {| tr_size := 0; tr_base := 0 |};
     cpu_task := 0; cpu_cs := 8; cpu_data_segments := 16; cpu_interrupts := false |}.

Lemma register_exceptions_spec_witness :
  wp (register_exception_interrupts 0xfffff00000401000 0xfffff00000402000 0xfffff00000403000) (λ _ c',
    (∀ i, 0 ≤ i < 32 → ∃ g, lookupZ (cpu_idt c') i = Some g ∧ gate_present g = true ∧
       gate_offset g = handler_of 0xfffff00000401000 0xfffff00000402000 0xfffff00000403000 i ∧
       selector g = GDT_KERNEL_CODE_SEGMENT ∧ gate_type g = INTERRUPT_GATE) ∧
    (∀ i, 32 ≤ i → lookupZ (cpu_idt c') i = lookupZ (cpu_idt booting) i) ∧ cpu_gdt c' = cpu_gdt booting ∧
    cpu_interrupts c' = cpu_interrupts booting) booting.
Proof. apply (register_exceptions_spec _ _ _ booting); first [lia|by vm_compute|vm_compute; lia]. Defined.

Definition lapic_registers : board :=
  {| bd_registers := list_to_map [(0x1000 + LAPIC_LVT_TIMER, 0x10000); (0x1000 + LAPIC_LVT_LINT0, 0x700); (0x1000 + LAPIC_LVT_LINT1, 0x400)];
     bd_msrs := ∅; bd_ports := ∅; bd_log := [] |}.

Lemma initialize_process_system_spec_witness :
  wp (initialize_process_system 0xfffff00000404000) (λ _ s',
    ∃ t, bd_registers (ts_devices s') !! (0x1000 + LAPIC_LVT_TIMER) = Some t ∧ lvt_mode t = 1 ∧ lvt_vector t = 32 ∧ lvt_masked t = true)
    {| ts_cpu := booting; ts_lapic := 0x1000; ts_devices := lapic_registers |}.
Proof.
  eapply wp_mono; [apply (initialize_process_system_spec 0xfffff00000404000 0x10000 0x700 0x400 booting 0x1000 lapic_registers); first [lia|by vm_compute|vm_compute; lia]|].
  cbv beta. intros _ s' (_ & H & _). exact H.
Defined.

#[local] Instance bare : Environment unit := {|
  env_call _ s := Ok (tt, s); env_in _ _ e := Ok (0, e); env_out _ _ _ e := Ok (tt, e); env_store _ _ e := Ok (tt, e) |}.

(** In the kernel at its physical addresses, called from 0x204567. *)
Definition identity_mapped : cpu_state unit :=
  {| a_regs := λ r, match r with RDI => 0x200000 | RSI => 0xfffff00000000000 | RSP => 0x20a000 | RBP => 0x20b000 | _ => 5 end;
     a_memory := list_to_map [(0xfffff0000000a000, 0x204567); (0xfffff00000009ff8, 0)];
     a_less := false; a_zero := false; a_cs := 0x38; a_env := tt |}.

Lemma jump_to_kernel_virtual_spec_witness :
  wp (run 0 jump_to_kernel_virtual) (λ e s',
    e = FarReturned 0xfffff00000004567 0x38 ∧ a_regs s' RSP = 0xfffff0000000a008 ∧ a_regs s' RBP = 0xfffff0000000b000 ∧
    same_but [RAX; RDX; RSP; RBP] (a_regs identity_mapped) (a_regs s') ∧
    ∀ x, x ≠ 0xfffff0000000a000 → x ≠ 0xfffff0000000a000 - 8 → a_memory s' !! x = a_memory identity_mapped !! x) identity_mapped.
Proof.
  apply (jump_to_kernel_virtual_spec 0 0x204567 identity_mapped); try by vm_compute. by eexists.
Defined.

(** In efi_main, with the operands in rcx, r8, r9 and r10. *)
Definition leaving_firmware : cpu_state unit :=
  {| a_regs := λ r, match r with RCX => 0x200004 | R8 => 0x7c000 | R9 => 0x7c100 | R10 => 0x7e000 | RSP => 0x9000 | RBX => 0x208000 | _ => 5 end;
     a_memory := list_to_map [(0x8ff8, 0); (0x8ff0, 0)]; a_less := false; a_zero := false; a_cs := 0x38; a_env := tt |}.

Lemma boot_handover_witness :
  wp (run 0 (enter_kernel RCX R8 R9 R10)) (λ e s1,
    e = FarReturned 0x200004 0x38 ∧
    ∀ s2, a_regs s2 RDI = a_regs s1 RDI → a_regs s2 RSI = a_regs s1 RSI → a_regs s2 RDX = a_regs s1 RDX →
      wp (run 0 (stage1_kernel_entry RBX RAX)) (λ e' s3,
        e' = Jumped (a_regs s2 RAX) ∧ a_regs s3 RSP = a_regs s2 RBX ∧ a_regs s3 RBP = a_regs s2 RBX ∧
        a_regs s3 RDI = 0x7c000 ∧ a_regs s3 RSI = 0x7c100 ∧ a_regs s3 RDX = 0x7e000) s2) leaving_firmware.
Proof.
  apply (boot_handover 0 0 RCX R8 R9 R10 RBX RAX 0x9000 leaving_firmware); try (by vm_compute); try (by apply (bool_decide_unpack _)); by eexists.
Defined.
End BootExamples.
