(* ===== verification/ProcessSystem.v ===== *)
(** Processes: kernel/src/process_system.c.

    The queue is the heap of [Process] structs with their next pointers, a head and a
    tail. [context_switch] gets the 160 bytes the interrupt left on the kernel's stack
    (the 15 registers the handler pushed, then rip, cs, rflags, rsp and ss) and returns
    what it puts in their place; the memory of the processes is any [UserSpaces]. *)
From S2P Require Import Prelude Util Machine.

Module ProcessSystem.
Import Util Machine.

Definition USER_STACK_SIZE : Z := 0x8000.
Definition USER_STACK_SAVE_SIZE : Z := 8 * 20.

Record Process := {
  pr_next : Z;
  pr_addr_space : Z;
  pr_pid : Z;
  pr_context_stack_ptr : Z;
}.

(** g_process_queue, the structs it links and the memory behind them. *)
Record ProcessState (S : Type) := {
  ps_mem : S;
  ps_processes : gmap Z Process;
  ps_head : Z;
  ps_tail : Z;
}.
Arguments ps_mem {S} _.
Arguments ps_processes {S} _.
Arguments ps_head {S} _.
Arguments ps_tail {S} _.

Definition set_next (p : Z) (pr : Process) : Process :=
  {| pr_next := p; pr_addr_space := pr_addr_space pr; pr_pid := pr_pid pr;
     pr_context_stack_ptr := pr_context_stack_ptr pr |}.
Definition set_context (p : Z) (pr : Process) : Process :=
  {| pr_next := pr_next pr; pr_addr_space := pr_addr_space pr; pr_pid := pr_pid pr;
     pr_context_stack_ptr := p |}.

(** [((uint64_t* )bytes)[i]] *)
Definition word (i : nat) (bytes : list Z) : Z :=
  le_value (take 8 (drop (8 * i) bytes)).

(** The eight bytes of a word, the lowest first. *)
Definition word_bytes (w : Z) : list Z := le_bytes 8 w.

Section processes.
Context {S : Type} `{!UserSpaces S}.

Abbreviation PM := (M (ProcessState S)).

Definition with_mem (x : S) (s : ProcessState S) : ProcessState S :=
  {| ps_mem := x; ps_processes := ps_processes s; ps_head := ps_head s; ps_tail := ps_tail s |}.

Definition on_mem {A} (m : M S A) : PM A := λ s,
  match m (ps_mem s) with
  | Ok (r, x) => Ok (r, with_mem x s)
  | Fault f => Fault f
  end.

Definition get_process (p : Z) : PM Process :=
  if p =? 0 then throw NullDeref
  else pr ← gets (λ s, ps_processes s !! p); of_option (BadPointer p) pr.

Definition update_process (p : Z) (f : Process → Process) : PM unit :=
  pr ← get_process p;
  modify (λ s, {| ps_mem := ps_mem s; ps_processes := <[p := f pr]> (ps_processes s);
                  ps_head := ps_head s; ps_tail := ps_tail s |}).

Definition set_head (p : Z) : PM unit :=
  modify (λ s, {| ps_mem := ps_mem s; ps_processes := ps_processes s; ps_head := p; ps_tail := ps_tail s |}).
Definition set_tail (p : Z) : PM unit :=
  modify (λ s, {| ps_mem := ps_mem s; ps_processes := ps_processes s; ps_head := ps_head s; ps_tail := p |}).

(** [g_process_queue.head->addr_space] *)
Definition get_current_process_addr_space : PM Z :=
  head ← gets ps_head; pr ← get_process head; mret (pr_addr_space pr).

Definition get_current_process_pid : PM Z :=
  head ← gets ps_head; pr ← get_process head; mret (pr_pid pr).

(** The head of the queue becomes its tail, when there is another process. *)
Definition rotate_queue : PM unit :=
  tmp ← gets ps_head;
  pr ← get_process tmp;
  if negb (pr_next pr =? 0) then
    _ ← set_head (pr_next pr);
    _ ← update_process tmp (set_next 0);
    tail ← gets ps_tail;
    _ ← update_process tail (set_next tmp);
    set_tail tmp
  else mret tt.

(** Save register and return state on process stack *)
Definition save_context (rsp : list Z) : PM unit :=
  let process_stack := u64 (word 18 rsp - USER_STACK_SAVE_SIZE) in
  _ ← on_mem (store_bytes process_stack rsp);
  head ← gets ps_head;
  update_process head (set_context process_stack).

Definition context_switch (rsp : list Z) : PM (list Z) :=
  _ ← save_context rsp;
  space ← get_current_process_addr_space;
  _ ← on_mem (us_unmap space);
  _ ← rotate_queue;
  space ← get_current_process_addr_space;
  _ ← on_mem (us_map space);
(* Restore register and return state from process stack *)
  head ← gets ps_head;
  pr ← get_process head;
  on_mem (load_bytes (pr_context_stack_ptr pr) (Z.to_nat USER_STACK_SAVE_SIZE)).

(** ** The queue as a list *)

Implicit Types (s : ProcessState S) (p q : Z) (l : list Z).

(** The structs from [p] on are linked in the order of the list, up to a null pointer. *)
Fixpoint linked (ps : gmap Z Process) (p : Z) (l : list Z) : Prop :=
  match l with
  | [] => p = 0
  | q :: l => p = q ∧ q ≠ 0 ∧ ∃ pr, ps !! q = Some pr ∧ linked ps (pr_next pr) l
  end.

Record queue s l : Prop := {
  qu_linked : linked (ps_processes s) (ps_head s) l;
  qu_nodup : NoDup l;
  qu_tail : last l = Some (ps_tail s);
}.

Lemma linked_lookup ps p l q : linked ps p l → q ∈ l → q ≠ 0 ∧ is_Some (ps !! q).
Proof.
  revert p. induction l as [|r l IH]; intros p Hl Hq; [by apply not_elem_of_nil in Hq|].
  destruct Hl as (-> & Hr & pr & Hpr & Hl). apply elem_of_cons in Hq as [->|Hq]; [eauto|by eapply IH].
Qed.

Lemma linked_frame ps p l q pr : (q ∉ l) → linked ps p l → linked (<[q := pr]> ps) p l.
Proof.
  revert p. induction l as [|r l IH]; intros p Hq Hl; [done|].
  destruct Hl as (-> & Hr & pr' & Hpr & Hl). apply not_elem_of_cons in Hq as [Hne Hq].
  split; [done|]. split; [done|]. exists pr'. rewrite lookup_insert_ne by done. eauto.
Qed.

(** A field other than the next pointer changes. *)
Lemma linked_update ps p l q pr pr' :
  ps !! q = Some pr → pr_next pr' = pr_next pr → linked ps p l → linked (<[q := pr']> ps) p l.
Proof.
  intros Hq Hn. revert p. induction l as [|r l IH]; intros p Hl; [done|].
  destruct Hl as (-> & Hr & pr1 & Hpr & Hl). split; [done|]. split; [done|].
  destruct (decide (r = q)) as [->|Hne].
  - exists pr'. rewrite lookup_insert_eq. split; [done|]. rewrite Hn. simplify_eq. eauto.
  - exists pr1. rewrite lookup_insert_ne by done. eauto.
Qed.

(** A new last struct. *)
Lemma linked_snoc ps p l q r pr pr' :
  linked ps p (l ++ [q]) → NoDup (l ++ [q]) → (r ∉ l ++ [q]) → r ≠ 0 →
  ps !! q = Some pr → ps !! r = Some pr' → pr_next pr' = 0 →
  linked (<[q := set_next r pr]> ps) p (l ++ [q; r]).
Proof.
  revert p. induction l as [|x l IH]; intros p Hl Hnd Hr Hr0 Hq Hpr' Hn; cbn [app] in *.
  - destruct Hl as (-> & Hq0 & pr1 & Hpr & Hl). split; [done|]. split; [done|]. exists (set_next r pr).
    rewrite lookup_insert_eq. split; [done|]. cbn [pr_next set_next]. split; [done|]. split; [done|].
    exists pr'. apply not_elem_of_cons in Hr as [Hne _]. by rewrite lookup_insert_ne.
  - destruct Hl as (-> & Hx & pr1 & Hpr & Hl). apply NoDup_cons in Hnd as [Hxl Hnd].
    apply not_elem_of_cons in Hr as [_ Hr]. split; [done|]. split; [done|]. exists pr1.
    rewrite lookup_insert_ne; [split; [done|]; by apply IH|].
    intros ->. apply Hxl, elem_of_app. right. apply list_elem_of_here.
Qed.

(** *** Rules *)

Lemma wp_on_mem {A} (m : M S A) (Q : A → ProcessState S → Prop) s :
  wp m (λ a x, Q a (with_mem x s)) (ps_mem s) → wp (on_mem m) Q s.
Proof. intros (a & x & E & HQ). exists a, (with_mem x s). unfold on_mem. by rewrite E. Qed.

Lemma wp_get_process p pr (Q : Process → ProcessState S → Prop) s :
  p ≠ 0 → ps_processes s !! p = Some pr → Q pr s → wp (get_process p) Q s.
Proof. intros Hp Hpr HQ. unfold get_process. replace (p =? 0) with false by lia. by wp_steps. Qed.

Lemma wp_update_process p pr f (Q : unit → ProcessState S → Prop) s :
  p ≠ 0 → ps_processes s !! p = Some pr →
  Q tt {| ps_mem := ps_mem s; ps_processes := <[p := f pr]> (ps_processes s);
          ps_head := ps_head s; ps_tail := ps_tail s |} →
  wp (update_process p f) Q s.
Proof. intros Hp Hpr HQ. unfold update_process. wp_step. eapply wp_get_process; [done..|]. by wp_step. Qed.

Lemma wp_get_current_space p pr l (Q : Z → ProcessState S → Prop) s :
  queue s (p :: l) → ps_processes s !! p = Some pr → Q (pr_addr_space pr) s →
  wp get_current_process_addr_space Q s.
Proof.
  intros [(E & Hp & _) _ _] Hpr HQ. unfold get_current_process_addr_space. do 2 wp_step. rewrite E.
  wp_step. eapply wp_get_process; [done..|]. by wp_step.
Qed.

(** Nothing but next pointers and saved contexts differs. *)
Definition same_process (pr pr' : Process) : Prop :=
  pr_addr_space pr' = pr_addr_space pr ∧ pr_pid pr' = pr_pid pr.

Definition relinked s s' : Prop :=
  ∀ q pr, ps_processes s !! q = Some pr → ∃ pr', ps_processes s' !! q = Some pr' ∧ same_process pr pr' ∧
    pr_context_stack_ptr pr' = pr_context_stack_ptr pr.

Lemma relinked_insert m p pr n (ps : gmap Z Process) h t q r :
  ps !! p = Some pr → ps !! q = Some r →
  ∃ r', ps_processes {| ps_mem := m : S; ps_processes := <[p := set_next n pr]> ps; ps_head := h; ps_tail := t |} !! q
    = Some r' ∧ same_process r r' ∧ pr_context_stack_ptr r' = pr_context_stack_ptr r.
Proof.
  intros Hp Hq. cbn. destruct (decide (p = q)) as [->|Hne].
  - rewrite lookup_insert_eq. simplify_eq. eexists. split; [done|]. done.
  - rewrite lookup_insert_ne by done. eexists. split; [done|]. done.
Qed.

Lemma wp_rotate_queue p l (Q : unit → ProcessState S → Prop) s :
  queue s (p :: l) →
  (∀ s', queue s' (l ++ [p]) → ps_mem s' = ps_mem s → relinked s s' → Q tt s') →
  wp rotate_queue Q s.
Proof.
  intros [Hl Hnd Htl] HQ. pose proof Hl as (E & Hp & pr & Hpr & Hnext). unfold rotate_queue.
  do 2 wp_step. rewrite E. wp_step. eapply wp_get_process; [done..|].
  destruct l as [|q l]; cbn [app] in *.
  - cbn in Hnext. rewrite Hnext. cbn. wp_step. apply HQ; [by split|done|intros r pr' ?; by exists pr'].
  - pose proof Hnext as (Eq & Hq & _). rewrite Eq. rewrite Eq in Hnext. replace (q =? 0) with false by lia. cbn [negb].
    unfold set_head, set_tail. do 3 wp_step. eapply wp_update_process; [done|exact Hpr|]. cbn [ps_mem ps_processes ps_head ps_tail].
    do 2 wp_step. cbn [ps_tail]. wp_step.
    destruct (exists_last (l := q :: l)) as (l0 & t & El); [done|].
    apply NoDup_cons in Hnd as [Hpl Hnd].
    assert (ps_tail s = t) as Et.
    { rewrite last_cons, El, last_snoc in Htl. by injection Htl. }
    assert (t ∈ q :: l) as Htin by (rewrite El; apply elem_of_app; right; apply list_elem_of_here).
    destruct (linked_lookup _ _ _ _ Hnext Htin) as [Ht0 [prt Hprt]].
    assert (p ≠ t) as Hpt by (intros ->; done). rewrite Et.
    eapply wp_update_process; [done|cbn; rewrite lookup_insert_ne by done; exact Hprt|].
    cbn [ps_mem ps_processes ps_head ps_tail]. wp_step.
    apply HQ; [split; cbn [ps_processes ps_head ps_tail]| |].
    + rewrite app_comm_cons, El, <- app_assoc. cbn [app].
      eapply linked_snoc with (pr' := set_next 0 pr); rewrite <- ?El; try done.
      * by apply linked_frame.
      * by rewrite lookup_insert_ne.
      * apply lookup_insert_eq.
    + rewrite app_comm_cons. apply NoDup_app. split; [done|]. split; [|apply NoDup_singleton].
      intros x Hx ->%list_elem_of_singleton. done.
    + rewrite app_comm_cons. by rewrite last_snoc.
    + done.
    + intros r pr0 Hr. destruct (relinked_insert (ps_mem s) p pr 0 (ps_processes s) 0 0 r pr0 Hpr Hr) as (r1 & Hr1 & Hs1 & Hc1).
      destruct (relinked_insert (ps_mem s) t prt p (<[p := set_next 0 pr]> (ps_processes s)) 0 0 r r1) as (r2 & Hr2 & Hs2 & Hc2).
      * by rewrite lookup_insert_ne.
      * exact Hr1.
      * exists r2. split; [exact Hr2|]. destruct Hs1, Hs2. split; [split; congruence|congruence].
Qed.

(** ** Switching *)

Context `{!UserSpacesSpec S}.

(** The context of process [p], as it will be resumed, is [f]. *)
Definition saved s p (f : list Z) : Prop :=
  ∃ pr, ps_processes s !! p = Some pr ∧ length f = Z.to_nat USER_STACK_SAVE_SIZE ∧
    has_bytes (ps_mem s) (pr_addr_space pr) (pr_context_stack_ptr pr) f.

(** The processes of the queue [l] have address spaces of their own, and the one of the
    first process is mapped. *)
Record running s l : Prop := {
  ru_queue : queue s l;
  ru_ok : us_ok (ps_mem s);
  ru_spaces : ∀ p pr, p ∈ l → ps_processes s !! p = Some pr → us_space (ps_mem s) (pr_addr_space pr);
  ru_distinct : ∀ p q pr pr', p ∈ l → q ∈ l → ps_processes s !! p = Some pr → ps_processes s !! q = Some pr' →
    pr_addr_space pr = pr_addr_space pr' → p = q;
  ru_mapped : ∀ p pr, head l = Some p → ps_processes s !! p = Some pr → us_mapped (ps_mem s) = Some (pr_addr_space pr);
}.

(** There is memory below the stack pointer in the interrupt frame [f] of [p]. *)
Definition stack_room s p (f : list Z) : Prop :=
  ∃ pr, ps_processes s !! p = Some pr ∧
    has_room (ps_mem s) (pr_addr_space pr) (u64 (word 18 f - USER_STACK_SAVE_SIZE)) (Z.to_nat USER_STACK_SAVE_SIZE).

(** Every struct stays, with its address space and its number. *)
Definition same_processes s s' : Prop :=
  ∀ q pr, ps_processes s !! q = Some pr → ∃ pr', ps_processes s' !! q = Some pr' ∧ same_process pr pr'.

Lemma saved_functional s p f g : saved s p f → saved s p g → f = g.
Proof.
  intros (pr & Hp & Lf & Hf) (pr' & Hp' & Lg & Hg). simplify_eq. apply list_eq. intros i.
  destruct (f !! i) as [x|] eqn:Ef.
  - assert (is_Some (g !! i)) as [y Ey] by (apply lookup_lt_is_Some; apply lookup_lt_Some in Ef; lia).
    rewrite Ey. f_equal. pose proof (Hf i x Ef) as H1. pose proof (Hg i y Ey) as H2. congruence.
  - symmetry. apply lookup_ge_None. apply lookup_ge_None in Ef. lia.
Qed.

(** The queue, and what is known of each of its processes, in a state where the structs
    kept their address spaces and the memory its bytes. *)
Lemma running_of s s' l l' :
  running s l → queue s' l' → (∀ q, q ∈ l' ↔ q ∈ l) → same_processes s s' → us_ok (ps_mem s') →
  (∀ a, us_space (ps_mem s) a → us_space (ps_mem s') a) →
  (∀ p pr, head l' = Some p → ps_processes s' !! p = Some pr → us_mapped (ps_mem s') = Some (pr_addr_space pr)) →
  running s' l'.
Proof.
  intros Hr Hq Hl Hsame Hok Hsp Hm.
  assert (∀ p pr', p ∈ l' → ps_processes s' !! p = Some pr' →
    ∃ pr, p ∈ l ∧ ps_processes s !! p = Some pr ∧ pr_addr_space pr' = pr_addr_space pr) as Hback.
  { intros p pr' Hp Hpr'. apply Hl in Hp. destruct (linked_lookup _ _ _ _ (qu_linked _ _ (ru_queue _ _ Hr)) Hp) as [_ [pr Hpr]].
    destruct (Hsame p pr Hpr) as (pr1 & Hpr1 & Ha & _). exists pr. simplify_eq. done. }
  split; [done..| | |done].
  - intros p pr' Hp Hpr'. destruct (Hback p pr' Hp Hpr') as (pr & Hin & Hpr & ->). by apply Hsp, (ru_spaces _ _ Hr p).
  - intros p q pr' qr' Hp Hq' Hpr' Hqr' E. destruct (Hback p pr' Hp Hpr') as (pr & Hin & Hpr & E1).
    destruct (Hback q qr' Hq' Hqr') as (qr & Hinq & Hqr & E2). apply (ru_distinct _ _ Hr p q pr qr); congruence.
Qed.

Lemma queue_with_mem s x l : queue s l → queue (with_mem x s) l.
Proof. by intros []. Qed.

(** The processor state after the frame of [p] was saved on its stack. *)
Lemma wp_save p l f (Q : unit → ProcessState S → Prop) s :
  running s (p :: l) → length f = Z.to_nat USER_STACK_SAVE_SIZE → stack_room s p f →
  (∀ s', running s' (p :: l) → saved s' p f → (∀ q g, q ∈ l → saved s q g → saved s' q g) →
     same_processes s s' → ps_head s' = ps_head s → Q tt s') →
  wp (save_context f) Q s.
Proof.
  intros Hr Hlen (pr & Hpr & Hroom) HQ. unfold save_context. set (sp := u64 (word 18 f - USER_STACK_SAVE_SIZE)) in *.
  pose proof (ru_queue _ _ Hr) as Hqu. pose proof Hqu as [(Eh & Hp0 & _) Hnd _].
  assert (p ∈ p :: l) as Hin by apply list_elem_of_here.
  destruct (store_bytes_spec (ps_mem s) (pr_addr_space pr) sp f) as (m & E & Hok & Hm & Hs & [Hb Ho]).
  { apply Hr. } { by apply (ru_spaces _ _ Hr p). } { by apply (ru_mapped _ _ Hr p). } { by rewrite Hlen. }
  wp_step. apply wp_on_mem. exists tt, m. split; [exact E|]. do 2 wp_step. cbn [ps_head with_mem]. rewrite Eh.
  eapply wp_update_process; [done|exact Hpr|]. cbn [ps_mem ps_processes ps_head ps_tail with_mem].
  set (s' := {| ps_mem := m |}).
  assert (same_processes s s') as Hsame.
  { intros q qr Hq. cbn. destruct (decide (p = q)) as [->|Hne].
    - rewrite lookup_insert_eq. simplify_eq. by eexists.
    - rewrite lookup_insert_ne by done. by exists qr. }
  apply HQ; [| | |done|done].
  - eapply running_of; [done| |done|done|done|done|].
    + destruct Hqu as [Hl _ Ht]. split; [|done|done].
      change (linked (<[p := set_context sp pr]> (ps_processes s)) (ps_head s) (p :: l)). by eapply linked_update.
    + intros q qr [= <-] Hq. cbn in Hq |- *. rewrite lookup_insert_eq in Hq. by simplify_eq.
  - exists (set_context sp pr). cbn. rewrite lookup_insert_eq. done.
  - intros q g Hq (qr & Hqr & Lg & Hg). apply NoDup_cons in Hnd as [Hpl _].
    assert (q ≠ p) as Hne by (intros ->; done). exists qr. cbn. rewrite lookup_insert_ne by done.
    split; [done|]. split; [done|]. intros i x Hx. rewrite Ho; [by apply Hg| |].
    + apply (ru_spaces _ _ Hr q); [by apply list_elem_of_further|done].
    + left. intros Ea. apply Hne. eapply (ru_distinct _ _ Hr); [|exact Hin|done..|done]. by apply list_elem_of_further.
Qed.

Lemma same_processes_relinked s s' x : relinked s s' → same_processes s (with_mem x s').
Proof. intros Hr q pr Hq. destruct (Hr q pr Hq) as (pr' & ? & ? & _). by exists pr'. Qed.

Lemma saved_relinked s s' x p f :
  relinked s s' → (∀ a v, us_byte x a v = us_byte (ps_mem s) a v) → saved s p f → saved (with_mem x s') p f.
Proof.
  intros Hr Hb (pr & Hpr & Lf & Hf). destruct (Hr p pr Hpr) as (pr' & Hpr' & [Ha _] & Hc).
  exists pr'. split; [done|]. split; [done|]. cbn. rewrite Ha, Hc. intros i y Hy. rewrite Hb. by apply Hf.
Qed.

Lemma wp_context_switch p l f (Q : list Z → ProcessState S → Prop) s :
  running s (p :: l) → length f = Z.to_nat USER_STACK_SAVE_SIZE → stack_room s p f →
  (∀ q, q ∈ l → ∃ g, saved s q g) →
  (∀ g s', running s' (l ++ [p]) → saved s' p f → (∀ q g, q ∈ l → saved s q g → saved s' q g) →
     (∀ n, head (l ++ [p]) = Some n → saved s' n g) → same_processes s s' → Q g s') →
  wp (context_switch f) Q s.
Proof.
  intros Hr Hlen Hroom Hall HQ. unfold context_switch.
  wp_step. eapply wp_save; [done..|]. intros s1 Hr1 Hsv1 Hoth1 Hsame1 _.
  pose proof (ru_queue _ _ Hr1) as Hq1. pose proof (qu_linked _ _ Hq1) as (Eh & Hp0 & pr & Hpr & _).
  assert (p ∈ p :: l) as Hin by apply list_elem_of_here.
  wp_step. eapply wp_get_current_space; [done..|].
  destruct (us_unmap_spec (ps_mem s1) (pr_addr_space pr)) as (m2 & E2 & Hok2 & Hm2 & Hs2 & Hb2).
  { apply Hr1. } { by apply (ru_spaces _ _ Hr1 p). }
  wp_step. apply wp_on_mem. exists tt, m2. split; [exact E2|].
  wp_step. eapply wp_rotate_queue; [by apply queue_with_mem|]. intros s3 Hq3 Em3 Hrel3.
  assert (∃ n l', l ++ [p] = n :: l') as (n & l' & El) by (destruct l; eauto).
  rewrite El in Hq3. pose proof (qu_linked _ _ Hq3) as (Eh3 & Hn0 & nr & Hnr & _).
  assert (n ∈ p :: l) as Hnl.
  { rewrite elem_of_cons. pose proof (list_elem_of_here n l') as Hn. rewrite <- El in Hn.
    apply elem_of_app in Hn as [Hn|Hn%list_elem_of_singleton]; [by right|by left]. }
  wp_step. eapply wp_get_current_space; [done..|].
  assert (us_space (ps_mem s3) (pr_addr_space nr)) as Hns.
  { rewrite Em3. cbn. apply Hs2. destruct (linked_lookup _ _ _ _ (qu_linked _ _ Hq1) Hnl) as [_ [nr1 Hnr1]].
    destruct (Hrel3 n nr1 Hnr1) as (nr2 & Hnr2 & [Ha _] & _).
    assert (nr2 = nr) as -> by congruence. rewrite Ha. by apply (ru_spaces _ _ Hr1 n). }
  destruct (us_map_spec (ps_mem s3) (pr_addr_space nr)) as (m4 & E4 & Hok4 & Hm4 & Hs4 & Hb4); [by rewrite Em3|done|].
  wp_step. apply wp_on_mem. exists tt, m4. split; [exact E4|]. set (s4 := with_mem m4 s3).
  assert (∀ a v, us_byte m4 a v = us_byte (ps_mem s1) a v) as Hb.
  { intros a v. by rewrite Hb4, Em3, <- Hb2. }
  assert (∀ q g, saved s1 q g → saved s4 q g) as Hsv4 by (intros q g; by apply saved_relinked).
  assert (∃ g, saved s4 n g) as [g Hg].
  { apply elem_of_cons in Hnl as [->|Hnl]; [eauto|]. destruct (Hall n Hnl) as [g Hg]. eauto. }
  do 2 wp_step. cbn [ps_head with_mem s4]. rewrite Eh3. wp_step. eapply wp_get_process; [done|exact Hnr|].
  apply wp_on_mem. pose proof Hg as (nr' & Hnr' & Lg & Hgb). cbn in Hnr'.
  assert (nr' = nr) as -> by congruence.
  exists g, m4. split; [rewrite <- Lg; by eapply load_bytes_eq|].
  replace (with_mem m4 (with_mem m4 s3)) with s4 by done.
  apply HQ; [| |by eauto| |].
  - rewrite El. eapply running_of; [exact Hr1|exact (queue_with_mem s3 m4 _ Hq3)| |exact (same_processes_relinked s1 s3 m4 Hrel3)|done| |].
    + intros q. rewrite <- El, elem_of_app, list_elem_of_singleton, elem_of_cons. tauto.
    + intros a Ha. apply Hs4. rewrite Em3. by apply Hs2.
    + intros q qr [= <-] Hq. cbn in Hq |- *. by assert (qr = nr) as -> by congruence.
  - by apply Hsv4.
  - intros n' Hn'. rewrite El in Hn'. by injection Hn' as <-.
  - intros q qr Hq. destruct (Hsame1 q qr Hq) as (qr1 & Hq1' & [Ha1 Hb1]).
    destruct (Hrel3 q qr1 Hq1') as (qr2 & Hq2 & [Ha2 Hp2] & _). exists qr2. split; [done|]. split; congruence.
Qed.

(** Switching from process [p], with room below its stack pointer, does not
    fault: [p] goes to the end of the queue with its registers saved in its own memory,
    the next process gets its address space and its registers back as they were saved,
    and what is saved of the others stays. *)
Lemma context_switch_spec s p l f :
  running s (p :: l) → length f = Z.to_nat USER_STACK_SAVE_SIZE → stack_room s p f →
  (∀ q, q ∈ l → ∃ g, saved s q g) →
  wp (context_switch f) (λ g s',
    running s' (l ++ [p]) ∧ saved s' p f ∧ (∀ q h, q ∈ l → saved s q h → saved s' q h) ∧
    (∀ n l', l = n :: l' → saved s n g) ∧ (l = [] → g = f)) s.
Proof.
  intros Hr Hlen Hroom Hall. apply (wp_context_switch p l); [done..|]. intros g s' Hr' Hp Hl Hn _.
  split_and!; [done|done|done| |].
  - intros n l' ->. destruct (Hall n) as [h Hh]; [apply list_elem_of_here|].
    rewrite (saved_functional s' n g h); [done|by apply Hn|]. apply Hl; [apply list_elem_of_here|done].
  - intros ->. by apply (saved_functional s' p); [apply Hn|].
Qed.

(** ** Turns *)

(** The running process [p] computes: it changes its own memory and nothing else. *)
Record ran p s s' : Prop := {
  ra_processes : ps_processes s' = ps_processes s;
  ra_queue : ps_head s' = ps_head s ∧ ps_tail s' = ps_tail s;
  ra_ok : us_ok (ps_mem s) → us_ok (ps_mem s');
  ra_spaces : ∀ a, us_space (ps_mem s) a → us_space (ps_mem s') a;
  ra_mapped : us_mapped (ps_mem s') = us_mapped (ps_mem s);
  ra_others : ∀ pr a v, ps_processes s !! p = Some pr → a ≠ pr_addr_space pr →
    us_byte (ps_mem s') a v = us_byte (ps_mem s) a v;
}.

(** [n] times: the first process of the queue runs, with [f] in its registers at the
    start and [f'] at the end, and the timer interrupts it. *)
Inductive turns : nat → ProcessState S * list Z → ProcessState S * list Z → Prop :=
  | turns_none x : turns 0 x x
  | turns_more n p l s f s1 f' s2 g y :
      queue s (p :: l) → ran p s s1 → length f' = Z.to_nat USER_STACK_SAVE_SIZE → stack_room s1 p f' →
      context_switch f' s1 = Ok (g, s2) → turns n (s2, g) y → turns (Datatypes.S n) (s, f) y.

Lemma linked_functional ps p l l' : linked ps p l → linked ps p l' → l = l'.
Proof.
  revert p l'. induction l as [|q l IH]; intros p [|q' l'] Hl Hl'; [done| | |].
  - cbn in Hl. destruct Hl' as (-> & ? & _). done.
  - cbn in Hl'. destruct Hl as (-> & ? & _). done.
  - destruct Hl as (-> & _ & pr & Hpr & Hl). destruct Hl' as (-> & _ & pr' & Hpr' & Hl').
    f_equal. apply (IH (pr_next pr)); [done|]. by assert (pr' = pr) as <- by congruence.
Qed.

Lemma running_ran p l s s' : running s (p :: l) → ran p s s' → running s' (p :: l).
Proof.
  intros Hr [Hps [Hh Ht] Hok Hsp Hm _]. eapply running_of; [exact Hr| |done| |apply Hok, Hr|done|].
  - destruct (ru_queue _ _ Hr). split; [by rewrite Hps, Hh|done|by rewrite Ht].
  - intros q pr Hq. exists pr. by rewrite Hps.
  - intros q pr Hq. rewrite Hps, Hm. by apply (ru_mapped _ _ Hr).
Qed.

Lemma saved_ran p l s s' q g :
  running s (p :: l) → ran p s s' → q ∈ l → saved s q g → saved s' q g.
Proof.
  intros Hr Hran Hq (qr & Hqr & Lg & Hg). pose proof (ru_queue _ _ Hr) as [(_ & _ & pr & Hpr & _) Hnd _].
  apply NoDup_cons in Hnd as [Hp _]. exists qr. rewrite (ra_processes _ _ _ Hran).
  split; [done|]. split; [done|]. intros i x Hx. rewrite (ra_others _ _ _ Hran pr) by
    (done || intros E; apply Hp; enough (q = p) as <- by done;
     apply (ru_distinct _ _ Hr q p qr pr); auto using list_elem_of_here, list_elem_of_further).
  by apply Hg.
Qed.

Lemma switched p l f g s s' :
  running s (p :: l) → length f = Z.to_nat USER_STACK_SAVE_SIZE → stack_room s p f →
  (∀ q, q ∈ l → ∃ h, saved s q h) → context_switch f s = Ok (g, s') →
  running s' (l ++ [p]) ∧ saved s' p f ∧ (∀ q h, q ∈ l → saved s q h → saved s' q h) ∧
  (∀ n, head (l ++ [p]) = Some n → saved s' n g).
Proof.
  intros Hr Hlen Hroom Hall E. refine (wp_run (context_switch f) (λ g s', running s' (l ++ [p]) ∧ saved s' p f ∧
    (∀ q h, q ∈ l → saved s q h → saved s' q h) ∧ ∀ n, head (l ++ [p]) = Some n → saved s' n g) s g s' _ E).
  by apply (wp_context_switch p l).
Qed.

Lemma tail_elem (q : Z) l : q ∈ tail l → q ∈ l.
Proof. destruct l; [done|]. apply list_elem_of_further. Qed.

Lemma turns_reach l1 p l2 s f g y :
  running s (l1 ++ p :: l2) → (∀ q, q ∈ tail (l1 ++ p :: l2) → ∃ h, saved s q h) → saved s p g →
  (l1 = [] → f = g) → turns (length l1) (s, f) y →
  running y.1 (p :: l2 ++ l1) ∧ y.2 = g.
Proof.
  revert l2 s f. induction l1 as [|x l1 IH]; intros l2 s f Hr Hall Hp Hf Ht; cbn [app tail length] in *.
  - inversion Ht; subst. cbn. rewrite app_nil_r. auto.
  - inversion Ht as [|n x' l s' f0 s1 f' s2 h y' Hq Hran Hlen Hroom E Ht']; subst.
    assert (x' :: l = x :: l1 ++ p :: l2) as [= -> ->].
    { eapply linked_functional; [apply Hq|]. apply (ru_queue _ _ Hr). }
    pose proof (running_ran _ _ _ _ Hr Hran) as Hr1.
    assert (∀ q k, q ∈ l1 ++ p :: l2 → saved s q k → saved s1 q k) as Hsv1 by (intros q k; by eapply saved_ran).
    assert (p ∈ l1 ++ p :: l2) as Hpin by (apply elem_of_app; right; apply list_elem_of_here).
    destruct (switched x (l1 ++ p :: l2) f' h s1 s2) as (Hr2 & Hx & Hsv2 & Hn); [done..| |done|].
    { intros q Hq'. destruct (Hall q Hq') as [k Hk]. eauto. }
    rewrite <- app_assoc, <- app_comm_cons in Hr2, Hn. cbn [app] in Hr2, Hn.
    replace (p :: l2 ++ x :: l1) with (p :: (l2 ++ [x]) ++ l1) by (by rewrite <- app_assoc).
    apply (IH (l2 ++ [x]) s2 h); [done| |by apply Hsv2, Hsv1| |done].
    + intros q Hq'. apply tail_elem in Hq'. rewrite app_comm_cons, app_assoc in Hq'.
      apply elem_of_app in Hq' as [Hq'| ->%list_elem_of_singleton]; [|eauto].
      destruct (Hall q Hq') as [k Hk]. eauto.
    + intros ->. cbn [app head] in Hn. apply (saved_functional s2 p); [by apply Hn|]. by apply Hsv2, Hsv1.
Qed.

(** C19: The queue is served in turns. A process that is [length l1] places from the front
    is the running one after exactly so many turns, whatever the processes before it do
    in theirs, and finds its registers as they were when it was interrupted. *)
Theorem round_robin l1 p l2 s f g y :
  running s (l1 ++ p :: l2) → (∀ q, q ∈ tail (l1 ++ p :: l2) → ∃ h, saved s q h) → saved s p g →
  l1 ≠ [] → turns (length l1) (s, f) y →
  running y.1 (p :: l2 ++ l1) ∧ y.2 = g.
Proof. intros Hr Hall Hp Hne Ht. by apply (turns_reach l1 p l2 s f g y). Qed.
End processes.
End ProcessSystem.
