(* ===== verification/ContextSwitch.v ===== *)
(** The timer interrupt: [context_switch_handler] of kernel/src/process_system.c, from the
    registers it pushes to the iretq it ends with, around [context_switch] of
    ProcessSystem.v. *)
From S2P Require Import Prelude Util Machine ProcessSystem Asm.

Module ContextSwitch.
Import Util Machine ProcessSystem Asm.

(** The order the registers are popped in, which is the order they have in memory. *)
Definition saved_registers : list reg :=
  [R15; R14; R13; R12; R11; R10; R9; R8; RBP; RDI; RSI; RDX; RCX; RBX; RAX].

Section handler.
Context {S : Type} `{!UserSpaces S}.
(** The addresses of [context_switch] and of the pointer g_lapic. *)
Context (context_switch_address g_lapic : Z).

(** The processes, and the device registers written, the last one first. *)
Record interrupted := { in_processes : ProcessState S; in_stores : list (Z * Z) }.

Definition context_switch_handler : list instr :=
  [Push RAX; Push RBX; Push RCX; Push RDX; Push RSI; Push RDI; Push RBP; Push R8; Push R9;
   Push R10; Push R11; Push R12; Push R13; Push R14; Push R15;
   (* Switch process *)
   Mov RDI RSP;
   Call context_switch_address;
   (* Restore registers *)
   Pop R15; Pop R14; Pop R13; Pop R12; Pop R11; Pop R10; Pop R9; Pop R8; Pop RBP; Pop RDI;
   Pop RSI; Pop RDX; Pop RCX; Pop RBX;
   (* Send EOI to local APIC *)
   Lea RAX g_lapic;
   Load RAX RAX;
   StoreImm32 0xb0 RAX 0;
   Pop RAX;
   Iretq].

(** *** The call of [context_switch], which gets the address of the 20 words *)

Fixpoint load_words (a : Z) (n : nat) : M (cpu_state interrupted) (list Z) :=
  match n with
  | O => mret []
  | Datatypes.S n => w ← load8 a; ws ← load_words (a + 8) n; mret (w :: ws)
  end.

Fixpoint store_words (a : Z) (ws : list Z) : M (cpu_state interrupted) unit :=
  match ws with
  | [] => mret tt
  | w :: ws => _ ← store8 a w; store_words (a + 8) ws
  end.

Definition on_processes {A} (m : M (ProcessState S) A) : M interrupted A := λ s,
  match m (in_processes s) with
  | Ok (r, p) => Ok (r, {| in_processes := p; in_stores := in_stores s |})
  | Fault f => Fault f
  end.

(** What the call leaves in the registers a C function may use. *)
Context (scratch : reg → Z).
Definition callee_saved : list reg := [RBX; RBP; RSP; R12; R13; R14; R15].
Definition clobber (f : reg → Z) : reg → Z := λ r, if bool_decide (r ∈ callee_saved) then f r else scratch r.

Definition call_context_switch : M (cpu_state interrupted) unit :=
  a ← get_reg RDI;
  ws ← load_words a 20;
  g ← on_env (on_processes (context_switch (concat (word_bytes <$> ws))));
  _ ← store_words a ((λ i, word i g) <$> seq 0 20);
  modify (λ s, with_regs (clobber (a_regs s)) s).

#[local] Instance handler_environment : Environment interrupted := {|
  env_call target := if target =? context_switch_address then call_context_switch else throw (BadPointer target);
  env_in _ p := throw (BadPointer p);
  env_out _ p _ := throw (BadPointer p);
  env_store a v := modify (λ s, {| in_processes := in_processes s; in_stores := (a, v) :: in_stores s |});
|}.

Definition handle (link : Z) : M (cpu_state interrupted) exit := run link context_switch_handler.

(** *** Words and bytes *)

(** The 20 words of an interrupted process: its registers, then what the processor pushed. *)
Definition frame_words (f : reg → Z) (pushed : list Z) : list Z := (f <$> saved_registers) ++ pushed.
Definition frame_bytes (ws : list Z) : list Z := concat (word_bytes <$> ws).

Lemma length_frame_bytes ws : length (frame_bytes ws) = (8 * length ws)%nat.
Proof.
  unfold frame_bytes. induction ws as [|w ws IH]; [done|]. cbn [fmap list_fmap concat length].
  rewrite length_app, IH. unfold word_bytes. rewrite length_le_bytes. lia.
Qed.

Lemma word_frame_bytes ws i w : ws !! i = Some w → 0 ≤ w < 2 ^ 64 → word i (frame_bytes ws) = w.
Proof.
  intros Hi Hw. destruct (list_elem_of_split_length ws i w Hi) as (l & l' & -> & ->).
  unfold word, frame_bytes. rewrite fmap_app, concat_app. cbn [fmap list_fmap concat].
  rewrite drop_app_length' by (symmetry; apply length_frame_bytes).
  rewrite take_app_length' by (symmetry; apply length_le_bytes). unfold word_bytes. rewrite le_value_bytes. by apply wrap_small.
Qed.

Lemma word_frame_bytes_eq ws : Forall (λ w, 0 ≤ w < 2 ^ 64) ws → ((λ i, word i (frame_bytes ws)) <$> seq 0 (length ws)) = ws.
Proof.
  intros Hr. apply list_eq. intros i. rewrite list_lookup_fmap. destruct (ws !! i) as [w|] eqn:E.
  - pose proof (lookup_lt_Some _ _ _ E). rewrite lookup_seq_lt by done. cbn. f_equal. apply word_frame_bytes; [done|].
    rewrite Forall_forall in Hr. apply Hr. by eapply list_elem_of_lookup_2.
  - rewrite lookup_seq_ge; [done|]. by apply lookup_ge_None.
Qed.

Lemma wp_load_words a ws (Q : list Z → cpu_state interrupted → Prop) s :
  words_at (a_memory s) a ws → Q ws s → wp (load_words a (length ws)) Q s.
Proof.
  revert a Q. induction ws as [|w ws IH]; intros a Q Hw HQ; cbn [load_words length]; [by wp_step|].
  wp_step. eapply wp_load8; [specialize (Hw 0%nat w eq_refl); by rewrite Z.add_0_r in Hw|].
  wp_step. apply IH.
  - intros i x Hx. specialize (Hw (Datatypes.S i) x Hx). rewrite <- Hw. f_equal. lia.
  - by wp_step.
Qed.

Lemma wp_store_words a ws (Q : unit → cpu_state interrupted → Prop) s :
  (∀ i, 0 ≤ i < Z.of_nat (length ws) → is_Some (a_memory s !! (a + 8 * i))) →
  (∀ m, words_at m a ws → outside a (length ws) (a_memory s) m → Q tt (with_memory m s)) →
  wp (store_words a ws) Q s.
Proof.
  revert a Q s. induction ws as [|w ws IH]; intros a Q s Hr HQ; cbn [store_words length] in *.
  { wp_step. specialize (HQ (a_memory s)). destruct s. apply HQ; [by intros i x|done]. }
  wp_step. unfold store8. wp_step. destruct (Hr 0 ltac:(lia)) as [old Hold]. rewrite Z.add_0_r in Hold.
  eapply wp_load8; [exact Hold|]. wp_step. apply IH.
  - intros i Hi. cbn. apply lookup_insert_is_Some'. right. replace (a + 8 + 8 * i) with (a + 8 * (i + 1)) by lia. apply Hr. lia.
  - cbn [a_memory with_memory]. intros m Hw Ho. change (Q tt (with_memory m s)). apply HQ.
    + intros [|i] x; cbn [lookup list_lookup].
      * intros [= ->]. rewrite Z.add_0_r, Ho by lia. by rewrite lookup_insert_eq.
      * intros Hx. rewrite <- (Hw i x Hx). f_equal. lia.
    + intros x Hx. rewrite Ho by lia. rewrite lookup_insert_ne by lia. done.
Qed.

(** *** The handler *)

Context `{!UserSpacesSpec S}.

(** The interrupt came in with the five words [pushed] on the stack at [a], with room for
    the registers and a return address below, and g_lapic not among them. *)
Record interrupt_stack (s : cpu_state interrupted) (a lapic : Z) (pushed : list Z) : Prop := {
  is_rsp : a_regs s RSP = a;
  is_range : 168 ≤ a ∧ a + 48 < 2 ^ 64;
  is_room : stack_below (a_memory s) a 16;
  is_pushed : words_at (a_memory s) a pushed;
  is_five : length pushed = 5%nat;
  is_lapic : a_memory s !! g_lapic = Some lapic;
  is_apart : g_lapic < a - 128 ∨ a + 40 ≤ g_lapic;
}.

(** The state resumes the process whose 20 words are [g]: registers, stack pointer, and
    where iretq goes. *)
Definition resumes (g : list Z) (e : exit) (s : cpu_state interrupted) : Prop :=
  e = InterruptReturned (word 15 g) (word 16 g) (word 17 g) (word 19 g) ∧
  a_regs s RSP = word 18 g ∧ ∀ i r, saved_registers !! i = Some r → a_regs s r = word i g.

Definition words_of (g : list Z) : list Z := (λ i, word i g) <$> seq 0 20.

Lemma words_of_lookup g i : (i < 20)%nat → words_of g !! i = Some (word i g).
Proof. intros Hi. unfold words_of. by rewrite list_lookup_fmap, lookup_seq_lt. Qed.

Lemma wp_call_context_switch a ws g ps (Q : unit → cpu_state interrupted → Prop) s :
  a_regs s RDI = a → words_at (a_memory s) a ws → length ws = 20%nat →
  context_switch (frame_bytes ws) (in_processes (a_env s)) = Ok (g, ps) →
  (∀ m, words_at m a (words_of g) → outside a 20 (a_memory s) m →
     Q tt (with_regs (clobber (a_regs s)) (with_env {| in_processes := ps; in_stores := in_stores (a_env s) |} (with_memory m s)))) →
  wp call_context_switch Q s.
Proof.
  intros Ha Hw Hlen Hsw HQ. unfold call_context_switch, get_reg. do 2 wp_step. rewrite Ha. wp_step. rewrite <- Hlen.
  eapply wp_load_words; [done|]. wp_step. eapply wp_on_env; [unfold on_processes; fold (frame_bytes ws); by rewrite Hsw|].
  wp_step. rewrite Hlen. fold (words_of g). apply wp_store_words.
  - intros i Hi. cbn. destruct (lookup_lt_is_Some_2 ws (Z.to_nat i)) as [w Hiw]; [change (length (words_of g)) with 20%nat in Hi; lia|].
    exists w. specialize (Hw _ _ Hiw). rewrite Z2Nat.id in Hw by lia. done.
  - intros m Hm Ho. wp_step. by apply HQ.
Qed.

Lemma clobber_keeps f r : r ∈ callee_saved → clobber f r = f r.
Proof. intros Hr. unfold clobber. by rewrite bool_decide_true. Qed.

(** The handler up to the pops: the frame of the process is on the stack, [context_switch]
    has put another in its place. *)
Lemma wp_enter link a lapic pushed g ps code (Q : exit → cpu_state interrupted → Prop) s :
  interrupt_stack s a lapic pushed →
  context_switch (frame_bytes (frame_words (a_regs s) pushed)) (in_processes (a_env s)) = Ok (g, ps) →
  (∀ f m, f RSP = a - 120 → words_at m (a - 120) (words_of g) → m !! g_lapic = Some lapic →
     wp (exec link code None) Q
       (with_regs f (with_env {| in_processes := ps; in_stores := in_stores (a_env s) |} (with_memory m s)))) →
  wp (exec link ((Push <$> reverse saved_registers) ++ Mov RDI RSP :: Call context_switch_address :: code) None) Q s.
Proof.
  intros [Hsp Hr Hroom Hpushed Hfive Hlapic Hap] Hsw HQ.
  apply (wp_pushes link (reverse saved_registers) _ a); [done|cbn; lia|reg_solve| |].
  { intros i Hi. apply Hroom. cbn in Hi. lia. }
  intros f m Hf Hsame Hw Hfrom Hkeep. change (length (reverse saved_registers)) with 15%nat in *. change (8 * Z.of_nat 15) with 120 in *.
  rewrite fmap_reverse, reverse_involutive in Hw.
  asm_step. apply wp_exec. cbn [step]. unfold call. do 2 wp_step.
  assert (is_Some (m !! (a - 120 - 8))) as Hlink.
  { apply Hkeep. replace (a - 120 - 8) with (a - 8 * 16) by lia. apply Hroom. lia. }
  eapply (wp_push link (a - 120)); [asm_simpl; exact Hf|lia|exact Hlink|]. wp_step.
  cbn [env_call handler_environment]. rewrite Z.eqb_refl.
  eapply (wp_call_context_switch (a - 120) (frame_words (a_regs s) pushed)); [asm_simpl; exact Hf| |by cbn; rewrite Hfive|exact Hsw|].
  { cbn [a_memory with_regs with_memory]. unfold frame_words. intros i w [Hi|[Hge Hi]]%lookup_app_Some.
    - rewrite lookup_insert_ne by lia. by apply Hw.
    - rewrite length_fmap in *. change (length saved_registers) with 15%nat in *. rewrite lookup_insert_ne, Hfrom by (cbn [length]; lia).
      rewrite <- (Hpushed _ _ Hi). f_equal. lia. }
  intros m' Hw' Ho'. cbn [a_memory with_regs with_memory] in Ho'. wp_step.
  eapply (wp_pop (a - 120 - 8) link); [asm_simpl; rewrite clobber_keeps by reg_solve; by asm_simpl|lia| |].
  { cbn [a_memory with_regs with_memory with_env]. rewrite Ho' by lia. by rewrite lookup_insert_eq. }
  wp_steps. replace (a - 120 - 8 + 8) with (a - 120) by lia.
  apply (HQ (upd RSP (a - 120) _) m'); [by rewrite upd_eq|done|].
  rewrite Ho', lookup_insert_ne, Hfrom by lia. done.
Qed.
Lemma NoDup_saved : NoDup saved_registers.
Proof. apply (bool_decide_unpack _). by vm_compute. Qed.

(** The handler from the pops on. *)
Lemma wp_leave link a lapic g (Q : exit → cpu_state interrupted → Prop) s :
  a_regs s RSP = a - 120 → 120 ≤ a → a + 48 < 2 ^ 64 → words_at (a_memory s) (a - 120) (words_of g) →
  a_memory s !! g_lapic = Some lapic →
  (∀ e s', resumes g e s' → a_env s' =
     {| in_processes := in_processes (a_env s); in_stores := (u64 (lapic + 0xb0), 0) :: in_stores (a_env s) |} → Q e s') →
  wp (exec link ((Pop <$> take 14 saved_registers) ++
    [Lea RAX g_lapic; Load RAX RAX; StoreImm32 0xb0 RAX 0; Pop RAX; Iretq]) None) Q s.
Proof.
  intros Hsp Ha Ha' Hw Hl HQ.
  apply (wp_pops link _ _ (a - 120) (take 14 (words_of g))); [done|lia|cbn; lia|reg_solve| |done| |].
  { apply (sublist_NoDup _ saved_registers); [apply NoDup_saved|apply sublist_take]. }
  { intros i w [Hi _]%lookup_take_Some. by apply Hw. }
  change (8 * Z.of_nat (length (take 14 saved_registers))) with 112. intros f Hf Hsame Hin.
  do 2 asm_step. eapply wp_load8; [asm_simpl; exact Hl|]. wp_steps. asm_step.
  eapply wp_on_env; [reflexivity|]. wp_step. asm_step.
  assert (∀ i b, b = a - 120 + 8 * Z.of_nat i → (i < 20)%nat → a_memory s !! b = Some (word i g)) as Hwi.
  { intros i b -> Hi. by apply Hw, words_of_lookup. }
  eapply (wp_pop (a - 8)); [asm_simpl; lia|lia|asm_simpl; apply (Hwi 14%nat); lia|].
  wp_steps. asm_step.
  eapply (wp_pop a); [asm_simpl; lia|lia|asm_simpl; apply (Hwi 15%nat); lia|]. wp_steps.
  eapply (wp_pop (a + 8)); [asm_simpl; lia|lia|asm_simpl; apply (Hwi 16%nat); lia|]. wp_steps.
  eapply (wp_pop (a + 16)); [asm_simpl; lia|lia|asm_simpl; apply (Hwi 17%nat); lia|]. wp_steps.
  eapply (wp_pop (a + 24)); [asm_simpl; lia|lia|asm_simpl; apply (Hwi 18%nat); lia|]. wp_steps.
  eapply (wp_pop (a + 32)); [asm_simpl; lia|lia|asm_simpl; apply (Hwi 19%nat); lia|]. wp_steps.
  apply HQ; [|reflexivity]. split; [done|]. split; [by asm_simpl|]. intros i r Hi. cbn [a_regs with_regs].
  assert (r ≠ RSP) as Hne by (intros ->; apply list_elem_of_lookup_2 in Hi; set_solver).
  rewrite !(upd_ne RSP r) by done. destruct (decide (r = RAX)) as [->|Hrax].
  - rewrite upd_eq. f_equal. symmetry. by apply (NoDup_lookup saved_registers i 14 RAX NoDup_saved).
  - rewrite (upd_ne RAX r), (upd_ne RSP r), !(upd_ne RAX r) by done. assert (i < 14)%nat.
    { pose proof (lookup_lt_Some _ _ _ Hi) as Hlt. cbn in Hlt. enough (i ≠ 14%nat) by lia. intros ->.
      cbn in Hi. congruence. }
    apply (Hin i); rewrite lookup_take_lt by done; [done|]. apply words_of_lookup. lia.
Qed.
(** C6: A timer interrupt in process [p], whose stack the processor pushed its five words
    on, ends with iretq into the process that is next in the queue, with every register,
    the flags and the stack pointer as they were saved for it, its address space mapped,
    and the local APIC told that the interrupt is over. The registers of [p] are saved in
    its own memory, what is saved of the others stays; when [p] is alone it gets all of
    its own registers back. *)
Theorem timer_interrupt_spec link a lapic pushed p l s :
  interrupt_stack s a lapic pushed →
  let frame := frame_bytes (frame_words (a_regs s) pushed) in
  running (in_processes (a_env s)) (p :: l) → stack_room (in_processes (a_env s)) p frame →
  (∀ q, q ∈ l → ∃ g, saved (in_processes (a_env s)) q g) →
  Forall (λ w, 0 ≤ w < 2 ^ 64) (frame_words (a_regs s) pushed) →
  wp (handle link) (λ e s', ∃ g,
    resumes g e s' ∧ in_stores (a_env s') = (u64 (lapic + 0xb0), 0) :: in_stores (a_env s) ∧
    running (in_processes (a_env s')) (l ++ [p]) ∧ saved (in_processes (a_env s')) p frame ∧
    (∀ q h, q ∈ l → saved (in_processes (a_env s)) q h → saved (in_processes (a_env s')) q h) ∧
    (∀ n l', l = n :: l' → saved (in_processes (a_env s)) n g) ∧
    (l = [] → (∀ r, r ≠ RSP → a_regs s' r = a_regs s r) ∧ (words_of g = frame_words (a_regs s) pushed))) s.
Proof.
  intros Hi frame Hrun Hroom Hall Hrange. pose proof Hi as [_ [Ha Ha'] _ _ Hfive _ _].
  destruct (context_switch_spec _ p l frame Hrun) as (g & ps & Hsw & Hrun' & Hsaved & Hoth & Hnext & Halone);
    [unfold frame, frame_words; rewrite length_frame_bytes, length_app, Hfive; done|done..|].
  unfold handle, run. change context_switch_handler with ((Push <$> reverse saved_registers) ++
    Mov RDI RSP :: Call context_switch_address :: ((Pop <$> take 14 saved_registers) ++
    [Lea RAX g_lapic; Load RAX RAX; StoreImm32 0xb0 RAX 0; Pop RAX; Iretq])).
  eapply wp_enter; [done|exact Hsw|]. intros f m Hf Hm Hl. eapply wp_leave; [exact Hf|lia|lia|exact Hm|exact Hl|].
  intros e s' Hres Henv. exists g. rewrite Henv. cbn [in_processes in_stores a_env with_regs with_env with_memory].
  split_and!; [done..|]. intros Hnil. specialize (Halone Hnil) as ->.
  assert (words_of frame = frame_words (a_regs s) pushed) as Hwf.
  { unfold words_of, frame. pose proof (word_frame_bytes_eq _ Hrange) as Hb. 
    by replace (length (frame_words (a_regs s) pushed)) with 20%nat in Hb by (unfold frame_words; rewrite length_app, Hfive; done). }
  split; [|done]. intros r Hr. destruct Hres as (_ & _ & Hregs).
  destruct (list_elem_of_lookup_1 saved_registers r) as [i Hir]; [destruct r; try done; reg_solve|].
  rewrite (Hregs i r Hir). unfold frame. assert (frame_words (a_regs s) pushed !! i = Some (a_regs s r)) as Hw.
  { unfold frame_words. apply lookup_app_l_Some. by rewrite list_lookup_fmap, Hir. }
  apply word_frame_bytes; [done|]. rewrite Forall_forall in Hrange. apply Hrange. by eapply list_elem_of_lookup_2.
Qed.
End handler.
Arguments interrupted S : clear implicits.
End ContextSwitch.
