(* ===== verification/ProcessExamples.v ===== *)
(** The theorems of ProcessSystem.v at a concrete queue of two processes, and the one on
    segments of Elf.v, over the simplest memory there is: every address space has a byte at
    every address. *)
From S2P Require Import Prelude Util Machine Elf ProcessSystem Asm ContextSwitch.

Module ProcessExamples.
Import Util Machine ProcessSystem Asm ContextSwitch.

Record flat := { fl_bytes : gmap (Z * Z) Z; fl_mapped : option Z }.

#[export] Instance flat_spaces : UserSpaces flat := {|
  us_map a s := Ok (tt, {| fl_bytes := fl_bytes s; fl_mapped := Some a |});
  us_unmap a s := Ok (tt, {| fl_bytes := fl_bytes s; fl_mapped := None |});
  us_load v s := match fl_mapped s with
    | Some a => Ok (default 0 (fl_bytes s !! (a, v)), s) | None => Fault (BadPointer v) end;
  us_store v x s := match fl_mapped s with
    | Some a => Ok (tt, {| fl_bytes := <[(a, v) := x]> (fl_bytes s); fl_mapped := fl_mapped s |})
    | None => Fault (BadPointer v) end;
|}.

#[export, refine] Instance flat_spaces_spec : UserSpacesSpec flat := {|
  us_ok _ := True;
  us_space _ _ := True;
  us_mapped := fl_mapped;
  us_byte s a v := Some (default 0 (fl_bytes s !! (a, v)));
|}.
Proof.
  - intros s a _ _. eexists. by split.
  - intros s a _ _. eexists. by split.
  - intros s a v x Hm Hx. cbn. rewrite Hm. by simplify_eq.
  - intros s a v x _ _ Hm _. cbn. rewrite Hm. eexists. split; [done|]. split_and!; [done|done|done|].
    intros b w _. cbn. case_decide as Hd.
    + destruct Hd as [-> ->]. by rewrite lookup_insert_eq.
    + rewrite lookup_insert_ne; [done|]. intros [= -> ->]. by apply Hd.
Defined.

Definition process (next space : Z) : Process :=
  {| pr_next := next; pr_addr_space := space; pr_pid := 0; pr_context_stack_ptr := 0x8000 |}.

Definition two_processes : ProcessState flat :=
  {| ps_mem := {| fl_bytes := ∅; fl_mapped := Some 0x10 |};
     ps_processes := {[ 0x1000 := process 0x2000 0x10; 0x2000 := process 0 0x20 ]};
     ps_head := 0x1000; ps_tail := 0x2000 |}.

Definition frame : list Z := replicate 160 7.
Definition zero_frame : list Z := replicate 160 0.

Lemma two_running : running two_processes [0x1000; 0x2000].
Proof.
  split; [|done|done| |].
  - split; [|repeat constructor; set_solver|done]. cbn. split; [done|]. split; [done|].
    eexists. split; [reflexivity|]. cbn. split; [done|]. split; [done|]. eexists. split; [reflexivity|]. done.
  - intros p q pr pr' Hp Hq.
    repeat (apply elem_of_cons in Hp as [->|Hp]); repeat (apply elem_of_cons in Hq as [->|Hq]);
      try (by apply not_elem_of_nil in Hp); try (by apply not_elem_of_nil in Hq); try done;
      vm_compute; intros [= <-] [= <-]; done.
  - intros p pr [= <-]. vm_compute. by intros [= <-].
Qed.

Lemma two_saved : saved two_processes 0x2000 zero_frame.
Proof.
  exists (process 0 0x20). split; [reflexivity|]. split; [reflexivity|]. intros i x Hx.
  apply lookup_replicate in Hx as [-> _]. done.
Qed.

Lemma two_room : stack_room two_processes 0x1000 frame.
Proof. exists (process 0x2000 0x10). split; [reflexivity|]. intros i _. eexists. reflexivity. Qed.

(** *** The timer interrupt *)

Definition lapic_pointer : Z := 0x100.
Definition pushed_words : list Z := [0x401000; 0x2b; 0x202; 0x7f00; 0x23].

Definition interrupted_cpu : cpu_state (interrupted flat) :=
  {| a_regs r := if decide (r = RSP) then 0x9000 else 7;
     a_memory := <[lapic_pointer := 0xfee00000]> (list_to_map
       ((λ i, (0x9000 + 8 * (Z.of_nat i - 16), default 0 ((replicate 16 0 ++ pushed_words) !! i))) <$> seq 0 21));
     a_less := false; a_zero := false; a_cs := 8;
     a_env := {| in_processes := two_processes; in_stores := [] |} |}.

Lemma interrupted_stack : interrupt_stack lapic_pointer interrupted_cpu 0x9000 0xfee00000 pushed_words.
Proof.
  split; [done|done| | |done|done|left; by vm_compute].
  - apply stack_below_check. by vm_compute.
  - intros i w. do 5 (destruct i as [|i]; [intros [= <-]; by vm_compute|]). done.
Qed.

Lemma timer_interrupt_spec_witness :
  let s := interrupted_cpu in
  wp (handle 0x5000 lapic_pointer (λ _, 1) 0x5abc) (λ e s', ∃ g,
    resumes g e s' ∧ in_stores (a_env s') = [(0xfee000b0, 0)] ∧
    running (in_processes (a_env s')) [0x2000; 0x1000] ∧
    saved (in_processes (a_env s')) 0x1000 (frame_bytes (frame_words (a_regs s) pushed_words)) ∧
    (∀ q h, q ∈ [0x2000] → saved two_processes q h → saved (in_processes (a_env s')) q h) ∧
    (∀ n l', [0x2000] = n :: l' → saved two_processes n g) ∧
    ([0x2000] = [] → (∀ r, r ≠ RSP → a_regs s' r = a_regs s r) ∧ (words_of g = frame_words (a_regs s) pushed_words))) s.
Proof.
  apply (timer_interrupt_spec 0x5000 lapic_pointer (λ _, 1) 0x5abc 0x9000 0xfee00000 pushed_words 0x1000 [0x2000] interrupted_cpu
    interrupted_stack).
  - exact two_running.
  - exists (process 0x2000 0x10). split; [reflexivity|]. intros i _. eexists. reflexivity.
  - intros q ->%list_elem_of_singleton. exists zero_frame. exact two_saved.
  - apply (bool_decide_unpack _). by vm_compute.
Defined.

(** One turn of the first process. *)
Definition after_turn : ProcessState flat * list Z :=
  match context_switch frame two_processes with
  | Ok (g, s) => (s, g)
  | Fault _ => (two_processes, frame)
  end.

Lemma first_turn_ok : match context_switch frame two_processes with Ok _ => true | Fault _ => false end = true.
Proof. by vm_compute. Qed.

Lemma one_turn : turns 1 (two_processes, zero_frame) after_turn.
Proof.
  eapply (turns_more 0 0x1000 [0x2000] _ _ two_processes frame after_turn.1 after_turn.2).
  - apply two_running.
  - by split.
  - reflexivity.
  - exact two_room.
  - unfold after_turn. destruct (context_switch frame two_processes) as [[g s]|f] eqn:E; [done|].
    pose proof first_turn_ok as Hok. by rewrite E in Hok.
  - rewrite <- surjective_pairing. constructor.
Qed.

Lemma round_robin_witness :
  running after_turn.1 [0x2000; 0x1000] ∧ after_turn.2 = zero_frame.
Proof.
  apply (round_robin [0x1000] 0x2000 [] two_processes zero_frame zero_frame after_turn).
  - exact two_running.
  - intros q ->%list_elem_of_singleton. exists zero_frame. exact two_saved.
  - exact two_saved.
  - done.
  - exact one_turn.
Defined.

Lemma fill_segment_spec_witness :
  wp (Elf.fill_segment 0x401000 8 [1; 2; 3]) (λ _ s',
    us_ok s' ∧ us_mapped s' = Some 0x10 ∧
    written {| fl_bytes := ∅; fl_mapped := Some 0x10 |} 0x10 0x401000 ([1; 2; 3] ++ replicate (Z.to_nat 8 - 3) 0) s')
    {| fl_bytes := ∅; fl_mapped := Some 0x10 |}.
Proof.
  apply (Elf.fill_segment_spec {| fl_bytes := ∅; fl_mapped := Some 0x10 |} 0x10 0x401000 8 [1; 2; 3]).
  - done.
  - done.
  - reflexivity.
  - intros i _. eexists. reflexivity.
  - cbn [length]. lia.
Defined.
End ProcessExamples.
