(* ===== verification/ProcessStart.v ===== *)
(** Starting a process: [start_user_process] of kernel/src/process_system.c, over the
    memory of the machine, and a machine that does it. *)
From S2P Require Import Prelude Util MemState EntryPool FrameAllocator PageEntry AddressSpace Paging Memory Slab Machine ProcessSystem Elf Descriptors PagingExamples.

Module ProcessStart.
Import Util Mem Machine ProcessSystem Elf Descriptors.

Definition sizeof_Process : Z := 32.
Definition sizeof_AddressSpace : Z := 56.

Abbreviation PM := (M (ProcessState machine)).

(** A call of the slab allocator. *)
Definition on_slab {A} (m : M (kmem * Slab.SlabAllocator) A) : MM A := λ s,
  match m (ma_kmem s, ma_slab s) with
  | Ok (r, (k, sa)) => Ok (r, {| ma_kmem := k; ma_slab := sa; ma_ram := ma_ram s; ma_mapped := ma_mapped s |})
  | Fault f => Fault f
  end.

(** The 20 words a new process is resumed with: all registers zero, rip, cs, rflags, rsp, ss. *)
Definition initial_frame (entry context_stack_ptr : Z) : list Z :=
  replicate 15 0 ++ [entry; Z.lor GDT_USER_CODE_SEGMENT 3; 0x202; context_stack_ptr; Z.lor GDT_USER_DATA_SEGMENT 3].

Section start.
Context {entries : MemoryEntries} (K : Memory.KernelOps) (fuel : nat).

Definition kalloc (size : Z) : MM Z :=
  on_slab (Slab.kalloc (Memory.ko_alloc_pages K)
    (@Memory.free_pages entries K) fuel size).

(** memset of a struct that was just allocated; the null pointer is not one. *)
Definition new_process (p : Z) (pr : Process) : PM unit :=
  if p =? 0 then throw NullDeref
  else modify (λ s, {| ps_mem := ps_mem s; ps_processes := <[p := pr]> (ps_processes s);
                       ps_head := ps_head s; ps_tail := ps_tail s |}).

Definition alloc_process_and_addr_space (paging_prot : Z) : PM Z :=
  process ← on_mem (kalloc sizeof_Process);
  _ ← new_process process {| pr_next := 0; pr_addr_space := 0; pr_pid := 0; pr_context_stack_ptr := 0 |};
  space ← on_mem (kalloc sizeof_AddressSpace);
  _ ← update_process process (λ pr, {| pr_next := pr_next pr; pr_addr_space := space; pr_pid := pr_pid pr;
                                       pr_context_stack_ptr := pr_context_stack_ptr pr |});
  if space =? 0 then throw NullDeref
  else
    _ ← on_mem (on_kmem (@Memory.new_address_space entries K space 0 paging_prot));
    mret process.

(** [process] behind the last one. *)
Definition enqueue (process : Z) : PM unit :=
  tail ← gets ps_tail;
  _ ← update_process tail (set_next process);
  set_tail process.

Definition start_user_process (elf_data : list Z) : PM unit :=
  head ← gets ps_head;
  _ ← kernel_assert (negb (head =? 0)) "start_user_process can't be called without previously running process";
  process ← alloc_process_and_addr_space 3;
  pr ← get_process process;
  let space := pr_addr_space pr in
  _ ← on_mem (us_map space);
  entry ← on_mem (load_elf_from_buff K space elf_data);
  match entry with
  | None => throw (AssertFailed "Failed to load terminal ELF file")
  | Some entry =>
      (* Allocate user stack *)
      allocation ← on_mem (on_kmem (FrameAllocator.alloc_frames (USER_STACK_SIZE / PAGE_SIZE)));
      stack ← on_mem (on_kmem (Paging.map_allocation (Memory.ko_kmap_allocation K)
        (Memory.ko_kmap_phys_range K) space allocation PageEntry.PAGING_WRITABLE));
      let context_stack_ptr := u64 (u64 (stack + USER_STACK_SIZE) - USER_STACK_SAVE_SIZE) in
      _ ← update_process process (set_context context_stack_ptr);
      _ ← on_mem (on_kmem (FrameAllocator.free_frame_allocation_entries allocation));
      (* The area that registers will be popped from *)
      _ ← on_mem (store_bytes context_stack_ptr (replicate (Z.to_nat USER_STACK_SAVE_SIZE) 0));
      _ ← on_mem (store_bytes (context_stack_ptr + 8 * 15)
            (concat (word_bytes <$> drop 15 (initial_frame entry context_stack_ptr))));
      enqueue process
  end.
End start.

(** ** A machine that starts a process *)

(** The slab allocator as it is after its initialisation, with the eight caches it means
    to have. *)
Definition fresh_slabs : Slab.SlabAllocator :=
  match Slab.initialize_slab_allocator (tt, {| Slab.sa_caches := replicate 8 Slab.no_cache; Slab.sa_page_allocations := [] |}) with
  | Ok (_, (_, sa)) => sa
  | Fault _ => {| Slab.sa_caches := []; Slab.sa_page_allocations := [] |}
  end.

(** A program of one segment at 0x401000, three bytes long in the file. *)
Definition program : list Z :=
  [0x7f; 0x45; 0x4c; 0x46; 2; 1; 1; 0] ++ replicate 8 0 ++
  le_bytes 2 2 ++ le_bytes 2 62 ++ le_bytes 4 1 ++ le_bytes 8 0x401000 ++ le_bytes 8 64 ++ le_bytes 8 0 ++ le_bytes 4 0 ++ le_bytes 2 64 ++ le_bytes 2 56 ++ le_bytes 2 1 ++ replicate 6 0 ++
  le_bytes 4 1 ++ le_bytes 4 5 ++ le_bytes 8 120 ++ le_bytes 8 0x401000 ++ le_bytes 8 0 ++ le_bytes 8 3 ++ le_bytes 8 0x800 ++ le_bytes 8 0x1000 ++
  [0xeb; 0xfe; 0x90].

Definition demo_ops : Memory.KernelOps := Memory.kernel 3.
Definition demo_entries : MemoryEntries := EntryPool.pool_entries (Memory.ko_alloc_pages demo_ops).

(** The kernel's address space of PagingExamples.v with two megabytes of memory, and a
    queue of one process. *)
Definition demo_machine : ProcessState machine :=
  {| ps_mem := {| ma_kmem := PagingExamples.demo_kmem; ma_slab := fresh_slabs; ma_ram := ∅; ma_mapped := Some 0x77 |};
     ps_processes := {[0x1000 := {| pr_next := 0; pr_addr_space := 0x77; pr_pid := 0; pr_context_stack_ptr := 0 |}]};
     ps_head := 0x1000; ps_tail := 0x1000 |}.

Definition start : PM unit := @start_user_process demo_entries demo_ops 5 program.

(** What a run returns, [d] when it faults. *)
Definition returned {S A} (d : A) (m : M S A) (s : S) : A := match m s with Ok (a, _) => a | Fault _ => d end.

(** The last process of the queue and its struct. *)
Definition last_process : PM (Z * Process) := p ← gets ps_tail; pr ← get_process p; mret (p, pr).

(** The bytes of the user memory that is mapped, as 8-byte words. *)
Definition read_words (addr : Z) (n : nat) : PM (list Z) :=
  l ← on_mem (load_bytes addr (8 * n)); mret ((λ i, word i l) <$> seq 0 n).


(** [start_user_process] returns to the running process with the address space of the
    new one mapped instead of its own. *)
Theorem start_user_process_leaves_mapped :
  returned None (
    _ ← start;
    own ← get_current_process_addr_space;
    '(p, pr) ← last_process;
    m ← gets (λ s, ma_mapped (ps_mem s));
    mret (Some (bool_decide (m = Some own), bool_decide (m = Some (pr_addr_space pr))))) demo_machine =
  Some (false, true).
Proof. vm_compute. reflexivity. Qed.

(** The program with its third byte changed is no ELF file. *)
Definition bad_program : list Z := <[2%nat := 0]> program.

Lemma load_elf_refuses_witness :
  @load_elf_from_buff demo_entries demo_ops 0x77 bad_program (ps_mem demo_machine) = Ok (None, ps_mem demo_machine).
Proof.
  apply (@load_elf_refuses demo_entries demo_ops 0x77 bad_program
    (default {| e_ident := []; e_entry := 0; e_phoff := 0; e_phnum := 0 |} (read_file_header bad_program))).
  - vm_compute. reflexivity.
  - left. vm_compute. discriminate.
Defined.

(** Two started processes take turns over the page tables of the machine: the second
    starts with its initial registers, the first gets its own back. *)
Definition take_turns : PM (list Z * list Z * list Z) :=
  _ ← start;
  '(p, pr) ← last_process;
  _ ← start;
  _ ← set_head p;
  _ ← on_mem (us_map (pr_addr_space pr));
  let f := concat (word_bytes <$> (Z.of_nat <$> seq 100 18) ++ [0x4000; 0x23]) in
  g ← context_switch f;
  h ← context_switch g;
  mret (f, g, h).

Example two_processes_take_turns :
  let '(f, g, h) := returned ([], [], []) take_turns demo_machine in
  h = f ∧ length f = 160%nat ∧
  ((λ i, word i g) <$> seq 0 20) = initial_frame 0x401000 (0x1000 + USER_STACK_SIZE - USER_STACK_SAVE_SIZE).
Proof. vm_compute. split_and!; reflexivity. Qed.
End ProcessStart.
