(* ===== verification/Syscalls.v ===== *)
(** System calls: kernel/src/syscalls.c with kernel/include/syscalls.h.

    [syscall_dispatcher] is its instructions, run by Asm.v; the functions it calls run on
    the processes and the memory of the machine, the keyboard and the screen. *)
From S2P Require Import Prelude Util MemState FrameAllocator PageEntry Paging Memory Machine ProcessSystem Rendering Descriptors Devices Ps2 Asm.

Module Syscalls.
Import Util Mem Machine ProcessSystem Rendering Descriptors Devices Ps2 Asm.

Definition NUM_SYSCALLS : Z := 5.
Definition SYSCALL_HALT : Z := 0.
Definition SYSCALL_ALLOC_PAGES : Z := 1.
Definition SYSCALL_GET_FRAMEBUFFER : Z := 2.
Definition SYSCALL_GETCH : Z := 3.
Definition SYSCALL_GET_KEYSTATE : Z := 4.

(** ** The dispatcher *)

Definition syscall_dispatcher (g_syscall_table : Z) : list instr :=
  [Push RSP; Push RCX; Push R11; Push RBP; Mov RBP RSP;
   (* Make sure syscall is within bounds *)
   CmpImm RAX NUM_SYSCALLS; Jge "_oob";
   (* Turn rax into a table entry pointer *)
   ShlImm RAX 3; Lea RCX g_syscall_table; Add RAX RCX;
   (* Make sure syscall exists *)
   CmpMemImm RAX 0; Jz "_oob";
   CallMem RAX;
   Label "_oob";
   Pop RBP; Pop R11; Pop RCX; Pop RSP; Sysretq].

(** ** The functions *)

(** The processes and the machine's memory, the keyboard, and g_frame_buffer. *)
Record sys (D : Type) := {
  sys_processes : ProcessState machine;
  sys_keyboard : keyboard D;
  sys_frame_buffer : Framebuffer;
}.
Arguments sys_processes {D} _.
Arguments sys_keyboard {D} _.
Arguments sys_frame_buffer {D} _.

Lemma find_distinct (f : Z → Z) l n : NoDup (f <$> l) → n ∈ l → find (λ m, f m =? f n) l = Some n.
Proof.
  induction l as [|m l IH]; intros Hnd Hn; [by apply not_elem_of_nil in Hn|]. cbn [find].
  apply NoDup_cons in Hnd as [Hm Hnd]. destruct (Z.eqb_spec (f m) (f n)) as [E|Hne].
  - apply elem_of_cons in Hn as [->|Hn]; [done|]. exfalso. apply Hm. rewrite E. by apply list_elem_of_fmap_2.
  - apply IH; [done|]. by apply elem_of_cons in Hn as [->|Hn].
Qed.

Section functions.
Context {D : Type} `{!Devices D} {entries : MemoryEntries} (K : Memory.KernelOps) (g_lapic : Z).

Abbreviation SM := (M (sys D)).

Definition on_processes {A} (m : M (ProcessState machine) A) : SM A := λ s,
  match m (sys_processes s) with
  | Ok (r, p) => Ok (r, {| sys_processes := p; sys_keyboard := sys_keyboard s; sys_frame_buffer := sys_frame_buffer s |})
  | Fault f => Fault f
  end.
Definition on_keyboard {A} (m : M (keyboard D) A) : SM A := λ s,
  match m (sys_keyboard s) with
  | Ok (r, k) => Ok (r, {| sys_processes := sys_processes s; sys_keyboard := k; sys_frame_buffer := sys_frame_buffer s |})
  | Fault f => Fault f
  end.

(** while (1); *)
Definition syscall_halt (fuel : nat) : SM unit := loop fuel (λ _, mret (inl tt)) tt.

Definition syscall_get_keystate (keycode : Z) : SM bool :=
  if 0x80 <=? keycode then mret false
  else
    status ← gets (λ s, kb_status (sys_keyboard s));
    of_option OutOfBounds (lookupZ status keycode).

Definition syscall_getch (polls : list nat) : SM Z := on_keyboard (ps2_getch g_lapic polls).

(** The bytes of the packed struct. *)
Definition sizeof_Framebuffer : Z := 36.
Definition framebuffer_bytes (fb : Framebuffer) : list Z :=
  le_bytes 8 (fb_address fb) ++ le_bytes 8 (fb_width fb) ++ le_bytes 8 (fb_height fb) ++
  le_bytes 8 (fb_pixels_per_scanline fb) ++ le_bytes 4 (fb_format fb).

(** [fb] is the process's pointer. What [kvirt_to_phys_addr] says about success is not
    looked at: a null result leaves phys_addr uninitialised, which is a fault. *)
Definition syscall_get_framebuffer (fb : Z) : SM unit :=
  userspace ← on_processes get_current_process_addr_space;
  g ← gets sys_frame_buffer;
  _ ← on_processes (on_mem (store_bytes fb (framebuffer_bytes g)));
  phys ← on_processes (on_mem (on_kmem (Memory.kvirt_to_phys_addr (fb_address g))));
  phys ← of_option (BadPointer (fb_address g)) phys;
  pages ← (match framebuffer_pages g with Ok p => mret p | Fault f => throw f end);
  address ← on_processes (on_mem (on_kmem (Paging.map_phys_range (Memory.ko_kmap_allocation K)
    (Memory.ko_kmap_phys_range K) userspace phys pages PageEntry.PAGING_WRITABLE)));
  on_processes (on_mem (store_bytes fb (le_bytes 8 address))).

Definition syscall_alloc_pages (pages : Z) : SM Z :=
  allocation ← on_processes (on_mem (on_kmem (FrameAllocator.alloc_frames pages)));
  if FrameAllocator.is_null allocation then mret 0
  else
    userspace ← on_processes get_current_process_addr_space;
    ptr ← on_processes (on_mem (on_kmem (Paging.map_allocation (Memory.ko_kmap_allocation K)
      (Memory.ko_kmap_phys_range K) userspace allocation PageEntry.PAGING_WRITABLE)));
    _ ← on_processes (on_mem (on_kmem (FrameAllocator.free_frame_allocation_entries allocation)));
    mret ptr.

(** The entry of the table with the number [n], called with [arg] in rdi: what it makes of
    rax, whose upper bits it leaves when it returns a char or a bool. The interrupts that
    come in while it runs are [polls]. *)
Definition syscall_function (fuel : nat) (polls : list nat) (n arg : Z) : SM (Z → Z) :=
  if n =? SYSCALL_HALT then _ ← syscall_halt fuel; mret (λ x, x)
  else if n =? SYSCALL_ALLOC_PAGES then p ← syscall_alloc_pages arg; mret (λ _, p)
  else if n =? SYSCALL_GET_FRAMEBUFFER then _ ← syscall_get_framebuffer arg; mret (λ x, x)
  else if n =? SYSCALL_GETCH then c ← syscall_getch polls; mret (set_bits 0 8 c)
  else if n =? SYSCALL_GET_KEYSTATE then b ← syscall_get_keystate (u8 arg); mret (set_bits 0 8 (Z.b2z b))
  else throw (BadPointer n).

(** ** A call from the dispatcher

    [address_of n] is the address of function [n]; [scratch] what a call leaves in the
    registers a C function may change. *)
Context (address_of : Z → Z) (scratch : reg → Z) (fuel : nat) (polls : list nat).

Definition callee_saved : list reg := [RBX; RBP; RSP; R12; R13; R14; R15].

Definition call_function (n : Z) : M (cpu_state (sys D)) unit :=
  arg ← get_reg RDI;
  g ← on_env (syscall_function fuel polls n arg);
  modify (λ s, with_regs (λ r, if decide (r ∈ callee_saved) then a_regs s r else if decide (r = RAX) then g (scratch RAX) else scratch r) s).

#[local] Instance syscall_environment : Environment (sys D) := {|
  env_call target :=
    match find (λ n, address_of n =? target) [0; 1; 2; 3; 4] with
    | Some n => call_function n
    | None => throw (BadPointer target)
    end;
  env_in _ p := throw (BadPointer p);
  env_out _ p _ := throw (BadPointer p);
  env_store a _ := throw (BadPointer a);
|}.

Definition dispatch (g_syscall_table link : Z) : M (cpu_state (sys D)) exit := run link (syscall_dispatcher g_syscall_table).

(** ** What the dispatcher does *)

Implicit Types s : cpu_state (sys D).

(** A process came in with its stack pointer at [sp] and room for five words below, the
    table and the word [table - 8 * below] under it lying apart from them. *)
Record syscall_entry s (sp table below : Z) : Prop := {
  se_rsp : a_regs s RSP = sp;
  se_range : 40 ≤ sp < 2 ^ 64 - 8;
  se_room : stack_below (a_memory s) sp 5;
  se_apart : table + 40 ≤ sp - 40 ∨ sp ≤ table - 8 * below;
}.

Lemma wp_enter_kernel link code sp (Q : exit → cpu_state (sys D) → Prop) s :
  a_regs s RSP = sp → 40 ≤ sp < 2 ^ 64 - 8 → stack_below (a_memory s) sp 5 →
  (∀ f m, f RSP = sp - 32 → same_but [RSP; RBP] (a_regs s) f →
     words_at m (sp - 32) [a_regs s RBP; a_regs s R11; a_regs s RCX; sp] → outside (sp - 32) 4 (a_memory s) m →
     is_Some (m !! (sp - 40)) →
     wp (exec link code None) Q (with_regs f (with_memory m s))) →
  wp (exec link (Push RSP :: Push RCX :: Push R11 :: Push RBP :: Mov RBP RSP :: code) None) Q s.
Proof.
  intros Hsp Hr Hroom HQ. apply wp_exec. cbn [step]. unfold get_reg. do 3 wp_step.
  eapply wp_push; [exact Hsp|lia|specialize (Hroom 1); rewrite Z.mul_1_r in Hroom; apply Hroom; lia|]. wp_step.
  change (Push RCX :: Push R11 :: Push RBP :: Mov RBP RSP :: code) with ((Push <$> [RCX; R11; RBP]) ++ Mov RBP RSP :: code).
  apply (wp_pushes link [RCX; R11; RBP] _ (sp - 8)); [apply upd_eq|cbn; lia|reg_solve| |].
  { intros i Hi. cbn in Hi. cbn. apply lookup_insert_is_Some'. right. replace (sp - 8 - 8 * i) with (sp - 8 * (i + 1)) by lia.
    apply Hroom. lia. }
  cbn [length a_regs a_memory with_regs with_memory]. change (8 * Z.of_nat 3) with 24. intros f m Hf Hsame Hw Hfrom Hkeep.
  change (reverse _) with [upd RSP (sp - 8) (a_regs s) RBP; upd RSP (sp - 8) (a_regs s) R11; upd RSP (sp - 8) (a_regs s) RCX] in Hw.
  rewrite !upd_ne in Hw by done. asm_step.
  apply (HQ (upd RBP (f RSP) f) m).
  - rewrite upd_ne by done. rewrite Hf. lia.
  - intros q Hq. rewrite upd_ne by reg_solve. rewrite Hsame by reg_solve. rewrite upd_ne by reg_solve. done.
  - rewrite <- (app_nil_r [_; _; _; _]). change [a_regs s RBP; a_regs s R11; a_regs s RCX; sp] with ([a_regs s RBP; a_regs s R11; a_regs s RCX] ++ [sp]).
    intros i w [Hi|[Hge Hi]]%lookup_app_Some; [|by apply lookup_nil_Some in Hi || done].
    apply lookup_app_Some in Hi as [Hi|[Hge Hi]].
    + rewrite <- (Hw i w Hi). f_equal. lia.
    + apply list_lookup_singleton_Some in Hi as [Hi <-]. cbn [length] in *. rewrite Hfrom by lia.
      replace (sp - 32 + 8 * Z.of_nat i) with (sp - 8) by lia. by rewrite lookup_insert_eq, Hsp.
  - intros x Hx. rewrite Hfrom by lia. rewrite lookup_insert_ne by lia. done.
  - apply Hkeep. apply lookup_insert_is_Some'. right. replace (sp - 40) with (sp - 8 * 5) by lia. apply Hroom. lia.
Qed.

Lemma wp_leave_kernel link sp rbp r11 rcx (Q : exit → cpu_state (sys D) → Prop) s :
  a_regs s RSP = sp - 32 → 40 ≤ sp < 2 ^ 64 - 8 → words_at (a_memory s) (sp - 32) [rbp; r11; rcx; sp] →
  (∀ f, f RSP = sp → f RBP = rbp → same_but [RSP; RBP; R11; RCX] (a_regs s) f → Q (SysReturned rcx r11) (with_regs f s)) →
  wp (exec link [Pop RBP; Pop R11; Pop RCX; Pop RSP; Sysretq] None) Q s.
Proof.
  intros Hsp Hr Hw HQ. change [Pop RBP; Pop R11; Pop RCX; Pop RSP; Sysretq] with ((Pop <$> [RBP; R11; RCX]) ++ [Pop RSP; Sysretq]).
  apply (wp_pops link _ _ (sp - 32) [rbp; r11; rcx]); [done|lia|cbn; lia|reg_solve| |done| |].
  { apply (bool_decide_unpack _). by vm_compute. }
  { intros i w Hi. apply Hw. change [rbp; r11; rcx; sp] with ([rbp; r11; rcx] ++ [sp]). by apply lookup_app_l_Some. }
  change (8 * Z.of_nat (length [RBP; R11; RCX])) with 24. intros f Hf Hsame Hin.
  asm_step. eapply (wp_pop (sp - 8)); [asm_simpl; lia|lia|asm_simpl; replace (sp - 8) with (sp - 32 + 8 * Z.of_nat 3) by lia; by apply Hw|].
  wp_steps. asm_step. rewrite (Hin 2%nat RCX rcx), (Hin 1%nat R11 r11) by done.
  apply HQ; [by asm_simpl|asm_simpl; by apply (Hin 0%nat)|]. intros q Hq. rewrite !upd_ne by reg_solve. apply Hsame. reg_solve.
Qed.

Definition slot_of (g_syscall_table n : Z) : Z := u64 (u64 (Z.shiftl n 3) + g_syscall_table).

(** [x] is not in the part of the stack that is used. *)
Definition off_stack (sp x : Z) : Prop := x < sp - 40 ∨ sp ≤ x.

(** Nothing happened but that [rax] is [v], and rdx, rcx and r11 what they were. *)
Definition refused (v : Z) s (e : exit) s' : Prop :=
  e = SysReturned (a_regs s RCX) (a_regs s R11) ∧ a_env s' = a_env s ∧
  (∀ q, q ∉ [RAX; RCX; R11] → a_regs s' q = a_regs s q) ∧ a_regs s' RAX = v ∧
  ∀ x, off_stack (a_regs s RSP) x → a_memory s' !! x = a_memory s !! x.

Lemma wp_refuse link sp f m (Q : exit → cpu_state (sys D) → Prop) v less zero s :
  a_regs s RSP = sp → 40 ≤ sp < 2 ^ 64 - 8 → f RSP = sp - 32 → same_but [RSP; RBP; RAX; RCX] (a_regs s) f → f RAX = v →
  words_at m (sp - 32) [a_regs s RBP; a_regs s R11; a_regs s RCX; sp] → outside (sp - 32) 4 (a_memory s) m →
  (∀ e s', refused v s e s' → Q e s') →
  wp (exec link [Pop RBP; Pop R11; Pop RCX; Pop RSP; Sysretq] None) Q (with_flags less zero (with_regs f (with_memory m s))).
Proof.
  intros Hsp Hr Hf Hsame Hv Hw Ho HQ. eapply (wp_leave_kernel link sp); [exact Hf|done|exact Hw|].
  intros f' Hsp' Hbp' Hsame'. apply HQ. cbn [a_regs with_regs with_flags with_memory] in *. split_and!; [done|done| | |].
  - intros q Hq. cbn [a_regs with_regs]. destruct (decide (q = RSP)) as [->|]; [congruence|]. destruct (decide (q = RBP)) as [->|]; [done|].
    rewrite Hsame' by reg_solve. apply Hsame. reg_solve.
  - cbn [a_regs with_regs]. rewrite Hsame' by reg_solve. done.
  - intros x Hx. cbn [a_memory with_regs with_flags with_memory]. apply Ho. destruct Hx as [Hx|Hx]; rewrite Hsp in Hx; cbn; lia.
Qed.

(** A number that is not below 5, as a signed number. *)
Lemma wp_dispatch_refused table link sp (Q : exit → cpu_state (sys D) → Prop) s :
  a_regs s RSP = sp → 40 ≤ sp < 2 ^ 64 - 8 → stack_below (a_memory s) sp 5 →
  NUM_SYSCALLS ≤ signed 64 (a_regs s RAX) →
  (∀ e s', refused (a_regs s RAX) s e s' → Q e s') →
  wp (dispatch table link) Q s.
Proof.
  intros Hsp Hr Hroom Hn HQ. unfold dispatch, run, syscall_dispatcher. apply (wp_enter_kernel link _ sp); [done..|].
  intros f m Hf Hsame Hw Ho _. do 2 asm_step. rewrite (Hsame RAX) by reg_solve.
  replace (signed 64 (a_regs s RAX) <? NUM_SYSCALLS) with false by lia.
  cbn [exec is_label]. eapply (wp_refuse link sp f m); [done..| |by apply Hsame; reg_solve|done|done|done].
  intros q Hq. apply Hsame. reg_solve.
Qed.

(** The code from the call on, at the slot the number chose. *)
Lemma wp_chosen table link sp (Q : exit → cpu_state (sys D) → Prop) s :
  a_regs s RSP = sp → 40 ≤ sp < 2 ^ 64 - 8 → stack_below (a_memory s) sp 5 →
  signed 64 (a_regs s RAX) < NUM_SYSCALLS →
  (∀ f m less zero, f RSP = sp - 32 → same_but [RSP; RBP; RAX; RCX] (a_regs s) f → f RAX = slot_of table (a_regs s RAX) →
     words_at m (sp - 32) [a_regs s RBP; a_regs s R11; a_regs s RCX; sp] → outside (sp - 32) 4 (a_memory s) m →
     is_Some (m !! (sp - 40)) →
     wp (exec link [CmpMemImm RAX 0; Jz "_oob"; CallMem RAX; Label "_oob"; Pop RBP; Pop R11; Pop RCX; Pop RSP; Sysretq] None) Q
       (with_flags less zero (with_regs f (with_memory m s)))) →
  wp (dispatch table link) Q s.
Proof.
  intros Hsp Hr Hroom Hn HQ. unfold dispatch, run, syscall_dispatcher. apply (wp_enter_kernel link _ sp); [done..|].
  intros f m Hf Hsame Hw Ho Hlink. do 2 asm_step. rewrite (Hsame RAX) by reg_solve.
  replace (signed 64 (a_regs s RAX) <? NUM_SYSCALLS) with true by lia.
  do 3 asm_step. apply (HQ (upd RAX (slot_of table (f RAX)) (upd RCX table (upd RAX (u64 (Z.shiftl (f RAX) 3)) f))) m
    true (signed 64 (a_regs s RAX) =? NUM_SYSCALLS)); [by asm_simpl| | |exact Hw|exact Ho|exact Hlink].
  - intros q Hq. rewrite !upd_ne by reg_solve. apply Hsame. reg_solve.
  - asm_simpl. by rewrite (Hsame RAX) by reg_solve.
Qed.

Lemma signed_nonzero x : 0 < x < 2 ^ 64 → (signed 64 x =? 0) = false.
Proof. intros H. unfold signed. rewrite wrap_small by lia. destruct (_ <? _) eqn:E; lia. Qed.

(** The registers a process finds after function [n] returned [g]. *)
Definition returned_to (g : Z → Z) s (e : exit) s' : Prop :=
  e = SysReturned (a_regs s RCX) (a_regs s R11) ∧
  a_regs s' RSP = a_regs s RSP ∧ a_regs s' RAX = g (scratch RAX) ∧
  (∀ r, r ∈ callee_saved → a_regs s' r = a_regs s r) ∧
  ∀ x, off_stack (a_regs s RSP) x → a_memory s' !! x = a_memory s !! x.

(** A number that is below 5, as a signed number, and chooses a word [target] that is the
    address of function [n]. *)
Lemma wp_dispatch_call table link sp n target g env' (Q : exit → cpu_state (sys D) → Prop) s :
  a_regs s RSP = sp → 40 ≤ sp < 2 ^ 64 - 8 → stack_below (a_memory s) sp 5 →
  signed 64 (a_regs s RAX) < NUM_SYSCALLS → off_stack sp (slot_of table (a_regs s RAX)) →
  a_memory s !! slot_of table (a_regs s RAX) = Some target → 0 < target < 2 ^ 64 →
  find (λ n, address_of n =? target) [0; 1; 2; 3; 4] = Some n →
  syscall_function fuel polls n (a_regs s RDI) (a_env s) = Ok (g, env') →
  (∀ e s', returned_to g s e s' → a_env s' = env' → Q e s') →
  wp (dispatch table link) Q s.
Proof.
  intros Hsp Hr Hroom Hn Hoff Ht Htr Hfind Hfun HQ. apply (wp_chosen _ _ sp); [done..|].
  intros f m less zero Hf Hsame Hrax Hw Ho Hlink.
  assert (m !! slot_of table (a_regs s RAX) = Some target) as Hslot by (rewrite <- Ht; apply Ho; destruct Hoff; cbn; lia).
  asm_step. eapply wp_load8; [asm_simpl; rewrite Hrax; exact Hslot|]. wp_steps. rewrite signed_nonzero by done. asm_step.
  asm_step. eapply wp_load8; [asm_simpl; rewrite Hrax; exact Hslot|]. wp_step. unfold call. wp_step.
  eapply (wp_push link (sp - 32)); [exact Hf|lia|cbn; replace (sp - 32 - 8) with (sp - 40) by lia; exact Hlink|]. wp_step.
  cbn [env_call syscall_environment]. rewrite Hfind. unfold call_function, get_reg. do 2 wp_step. asm_simpl.
  rewrite (Hsame RDI) by reg_solve. wp_step. eapply wp_on_env; [exact Hfun|]. do 2 wp_step.
  cbn [a_regs with_regs]. match goal with |- wp _ _ (with_regs ?h _) => set (f' := h) end.
  assert (∀ r, r ∈ callee_saved → f' r = upd RSP (sp - 32 - 8) f r) as Hsaved.
  { intros r Hin. unfold f'. by rewrite decide_True. }
  eapply (wp_pop (sp - 32 - 8) link); [cbn [a_regs with_regs]; rewrite Hsaved by reg_solve; by asm_simpl|lia|cbn; by rewrite lookup_insert_eq|].
  wp_steps. asm_step.
  eapply (wp_leave_kernel link sp (a_regs s RBP)); [asm_simpl; lia|done| |].
  { cbn. intros i w Hi. pose proof (lookup_lt_Some _ _ _ Hi). rewrite lookup_insert_ne by lia. by apply Hw. }
  intros f2 Hsp2 Hbp2 Hsame2. cbn [a_regs with_regs] in Hsame2. apply HQ; [|done]. split_and!; [done|cbn; congruence| | |].
  - cbn [a_regs with_regs]. rewrite Hsame2 by reg_solve. rewrite upd_ne by done. unfold f'.
    rewrite decide_False by (by apply (bool_decide_unpack _); vm_compute). by rewrite decide_True.
  - intros r Hin. cbn [a_regs with_regs]. destruct (decide (r = RSP)) as [->|]; [congruence|]. destruct (decide (r = RBP)) as [->|]; [done|].
    assert (r ∉ [RSP; RBP; R11; RCX] ∧ r ∉ [RSP; RBP; RAX; RCX]) as [H1 H2].
    { unfold callee_saved in Hin. split; reg_solve. }
    rewrite Hsame2 by done. rewrite upd_ne by done. rewrite Hsaved, upd_ne by done. by apply Hsame.
  - intros x Hx. rewrite Hsp in Hx. cbn. rewrite lookup_insert_ne by (destruct Hx; lia). apply Ho. destruct Hx; cbn; lia.
Qed.

Lemma slot_of_table table n : 0 ≤ n < 5 → 0 ≤ table → table + 40 < 2 ^ 64 → slot_of table n = table + 8 * n.
Proof.
  intros Hn H0 H1. unfold slot_of. rewrite Z.shiftl_mul_pow2 by lia. change (2 ^ 3) with 8.
  rewrite (wrap_small 64 (n * 8)) by lia. rewrite wrap_small by lia. lia.
Qed.

(** The table [prepare_syscalls] leaves. *)
Definition table_ready (table : Z) s : Prop :=
  words_at (a_memory s) table (address_of <$> [0; 1; 2; 3; 4]) ∧ 0 ≤ table ∧ table + 40 < 2 ^ 64 ∧
  (table + 40 ≤ a_regs s RSP - 40 ∨ a_regs s RSP ≤ table).

(** A call of function [n], 0 to 4. *)
Lemma wp_dispatch_number table link n g env' (Q : exit → cpu_state (sys D) → Prop) s :
  table_ready table s → 0 ≤ n < 5 → a_regs s RAX = n → 40 ≤ a_regs s RSP < 2 ^ 64 - 8 → stack_below (a_memory s) (a_regs s RSP) 5 →
  (∀ i, 0 ≤ i < 5 → 0 < address_of i < 2 ^ 64) → NoDup (address_of <$> [0; 1; 2; 3; 4]) →
  syscall_function fuel polls n (a_regs s RDI) (a_env s) = Ok (g, env') →
  (∀ e s', returned_to g s e s' → a_env s' = env' → Q e s') →
  wp (dispatch table link) Q s.
Proof.
  intros (Hw & H0 & H1 & Hap) Hn Hrax Hr Hroom Hadr Hnd Hfun HQ.
  assert ([0; 1; 2; 3; 4] !! Z.to_nat n = Some n) as Hnth.
  { assert (n = 0 ∨ n = 1 ∨ n = 2 ∨ n = 3 ∨ n = 4) as [->|[->|[->|[->| ->]]]] by lia; done. }
  apply (wp_dispatch_call table link (a_regs s RSP) n (address_of n) g env'); try done.
  - rewrite Hrax. unfold signed. rewrite wrap_small by lia. unfold NUM_SYSCALLS. destruct (_ <? _); lia.
  - rewrite Hrax, slot_of_table by lia. destruct Hap; [left|right]; lia.
  - rewrite Hrax, slot_of_table by lia. replace n with (Z.of_nat (Z.to_nat n)) at 1 by lia. apply Hw. by rewrite list_lookup_fmap, Hnth.
  - by apply Hadr.
  - apply find_distinct; [done|]. by eapply list_elem_of_lookup_2.
Qed.

(** C13: a process that makes system call 0 to 4 gets what the function with that number
    returns for its argument, in rax; it resumes behind its syscall instruction with its
    flags and stack pointer, and rbx, rbp and r12 to r15 are as it left them. *)
Theorem syscall_dispatch_spec table link n g env' s :
  table_ready table s → 0 ≤ n < 5 → a_regs s RAX = n → 40 ≤ a_regs s RSP < 2 ^ 64 - 8 → stack_below (a_memory s) (a_regs s RSP) 5 →
  (∀ i, 0 ≤ i < 5 → 0 < address_of i < 2 ^ 64) → NoDup (address_of <$> [0; 1; 2; 3; 4]) →
  syscall_function fuel polls n (a_regs s RDI) (a_env s) = Ok (g, env') →
  wp (dispatch table link) (λ e s', returned_to g s e s' ∧ a_env s' = env') s.
Proof. intros. eapply (wp_dispatch_number table link n g env'); try done. Qed.

(** A number of 5 or more is refused: the process resumes behind its syscall
    instruction and no register but rcx and r11, which the instruction itself writes, has
    changed, nor has anything in the kernel. *)
Theorem syscall_refused_spec table link s :
  40 ≤ a_regs s RSP < 2 ^ 64 - 8 → stack_below (a_memory s) (a_regs s RSP) 5 →
  5 ≤ a_regs s RAX < 2 ^ 63 →
  wp (dispatch table link) (λ e s', refused (a_regs s RAX) s e s') s.
Proof.
  intros Hr Hroom Hrax. eapply wp_dispatch_refused; [done..| |done].
  unfold signed. rewrite wrap_small by lia. replace (a_regs s RAX <? 2 ^ (64 - 1)) with true by lia. unfold NUM_SYSCALLS. lia.
Qed.

End functions.

(** ** Setting the system calls up *)

Definition EFER : Z := 0xC0000080.
Definition STAR : Z := 0xC0000081.
Definition LSTAR : Z := 0xC0000082.

(** The model-specific registers, and the table. *)
Record setup (D : Type) := { su_devices : D; su_table : list Z }.
Arguments su_devices {D} _.
Arguments su_table {D} _.

Section prepare.
Context {D : Type} `{!Devices D} (syscall_dispatcher_address : Z) (address_of : Z → Z).

Definition on_devices {A} (m : M D A) : M (setup D) A := λ s,
  match m (su_devices s) with
  | Ok (r, d) => Ok (r, {| su_devices := d; su_table := su_table s |})
  | Fault f => Fault f
  end.

Definition set_entry (n : Z) : M (setup D) unit :=
  old ← gets (λ s, lookupZ (su_table s) n); _ ← of_option OutOfBounds old;
  modify (λ s, {| su_devices := su_devices s; su_table := insertZ n (address_of n) (su_table s) |}).

Definition star_high : Z :=
  u32 (Z.lor GDT_KERNEL_CODE_SEGMENT (Z.shiftl (Z.lor GDT_USER_CODE_SEGMENT 3 - 0x10) 16)).

(** rdmsr and wrmsr take edx:eax; or and mov change one half. *)
Definition enable_syscalls : M D unit :=
  efer ← rdmsr EFER;
  _ ← wrmsr EFER (Z.lor efer 1);
  star ← rdmsr STAR;
  _ ← wrmsr STAR (u32 star + 2 ^ 32 * star_high);
  wrmsr LSTAR (u32 syscall_dispatcher_address + 2 ^ 32 * u32 (Z.shiftr syscall_dispatcher_address 32)).

Definition prepare_syscalls : M (setup D) unit :=
  _ ← on_devices enable_syscalls;
  _ ← set_entry SYSCALL_HALT;
  _ ← set_entry SYSCALL_ALLOC_PAGES;
  _ ← set_entry SYSCALL_GET_FRAMEBUFFER;
  _ ← set_entry SYSCALL_GETCH;
  set_entry SYSCALL_GET_KEYSTATE.
End prepare.

Lemma wp_set_table_entry {D} address_of n (Q : unit → setup D → Prop) s :
  0 ≤ n < Z.of_nat (length (su_table s)) →
  Q tt {| su_devices := su_devices s; su_table := insertZ n (address_of n) (su_table s) |} → wp (set_entry address_of n) Q s.
Proof.
  intros Hn HQ. unfold set_entry. wp_step. wp_step. apply lookupZ_is_Some in Hn as [old Hold].
  wp_step. wp_step; [exact Hold|]. by wp_step.
Qed.

(** [prepare_syscalls] sets the processor up so that a syscall instruction enters the
    dispatcher in the kernel's code segment and sysret goes back to the user segments with
    privilege 3, turns the instruction on, keeps the rest of those registers, and fills
    every entry of the table. *)
Theorem prepare_syscalls_spec dispatcher address_of (b : board) t :
  length t = 5%nat → 0 ≤ dispatcher < 2 ^ 64 →
  let old r := default 0 (bd_msrs b !! r) in
  wp (prepare_syscalls dispatcher address_of) (λ _ s',
    su_table s' = address_of <$> [0; 1; 2; 3; 4] ∧
    bd_msrs (su_devices s') !! LSTAR = Some dispatcher ∧
    bd_msrs (su_devices s') !! EFER = Some (Z.lor (old EFER) 1) ∧
    (∀ star, bd_msrs (su_devices s') !! STAR = Some star →
      get_bits 32 16 star = GDT_KERNEL_CODE_SEGMENT ∧ get_bits 48 16 star + 16 = Z.lor GDT_USER_CODE_SEGMENT 3 ∧
      get_bits 48 16 star + 8 = Z.lor GDT_USER_DATA_SEGMENT 3 ∧ u32 star = u32 (old STAR)) ∧
    is_Some (bd_msrs (su_devices s') !! STAR) ∧
    ∀ r, r ≠ EFER → r ≠ STAR → r ≠ LSTAR → bd_msrs (su_devices s') !! r = bd_msrs b !! r)
    {| su_devices := b; su_table := t |}.
Proof.
  intros Hlen Hd old. unfold prepare_syscalls. wp_step.
  destruct t as [|t0 [|t1 [|t2 [|t3 [|t4 [|]]]]]]; try done. eexists _, _. split; [reflexivity|].
  do 4 (wp_step; apply wp_set_table_entry; [by vm_compute|]). apply wp_set_table_entry; [by vm_compute|].
  cbn [su_devices su_table bd_msrs]. split_and!; [done| | | | |].
  - rewrite lookup_insert_eq. f_equal. unfold wrap. rewrite Z.shiftr_div_pow2 by lia. rewrite (Z.mod_small (dispatcher / _)).
    + rewrite Z.add_comm. symmetry. apply Z.div_mod. lia.
    + split; [apply Z.div_pos; lia|apply Z.div_lt_upper_bound; lia].
  - by rewrite !lookup_insert_ne, lookup_insert_eq by done.
  - intros star. rewrite lookup_insert_ne, lookup_insert_eq by done. intros [= <-]. rewrite lookup_insert_ne by done.
    fold (old STAR). set (low := u32 (old STAR)). assert (0 ≤ low < 2 ^ 32) as Hlow by (apply wrap_range; lia).
    assert (∀ i, 0 ≤ i → (low + 2 ^ 32 * star_high) / 2 ^ (32 + i) = star_high / 2 ^ i) as Hdiv.
    { intros i Hi. rewrite Z.pow_add_r, <- Z.div_div, (Z.mul_comm (2 ^ 32) star_high), Z.div_add by lia.
      by rewrite (Z.div_small low) by lia. }
    rewrite !get_bits_div by lia. change 32 with (32 + 0) at 2. change 48 with (32 + 16). rewrite !Hdiv by lia.
    split_and!; [by vm_compute..|]. unfold low at 1. rewrite (Z.mul_comm (2 ^ 32)). unfold wrap at 1. rewrite Z.mod_add by lia. by apply wrap_wrap.
  - rewrite lookup_insert_ne, lookup_insert_eq by done. done.
  - intros r H1 H2 H3. by rewrite !lookup_insert_ne by done.
Qed.
End Syscalls.
