(* ===== verification/SyscallExamples.v ===== *)
(** The theorems on system calls at a concrete process, and system calls that run on the
    machine of ProcessStart.v. *)
From S2P Require Import Prelude Util MemState FrameAllocator PageEntry Paging Memory Machine ProcessSystem ProcessStart Rendering Descriptors Devices Ps2 Asm Syscalls.

Module SyscallExamples.
Import Util Mem Machine ProcessSystem ProcessStart Rendering Devices Ps2 Asm Syscalls.

Definition table : Z := 0xffffffff80200000.
Definition address_of (n : Z) : Z := 0xffffffff80100000 + 0x40 * n.
Definition user_stack : Z := 0x8f00.
Definition rip : Z := 0x401002.

(** The frame buffer: 64 by 32 pixels at [screen_phys]. *)
Definition screen_phys : Z := 0xfd000000.

Definition idle_keyboard : keyboard board :=
  {| kb_status := <[0x1e%nat := true]> (replicate 128 false); kb_last_char_changed := 0; kb_devices := empty_board |}.
Definition screen_of (address : Z) : Framebuffer :=
  {| fb_address := address; fb_width := 64; fb_height := 32; fb_pixels_per_scanline := 64; fb_format := 1 |}.
Definition system : sys board :=
  {| sys_processes := demo_machine; sys_keyboard := idle_keyboard; sys_frame_buffer := screen_of 0 |}.

(** A process that makes system call [n] with argument [arg]; [below] is the word under
    the table. *)
Definition calling (n arg below : Z) (e : sys board) : cpu_state (sys board) :=
  {| a_regs := λ r, match r with RAX => n | RDI => arg | RSP => user_stack | RCX => rip | R11 => 0x202 | _ => 7 end;
     a_memory := list_to_map (((λ i, (user_stack - 8 * Z.of_nat i, 0)) <$> seq 1 5) ++
       ((λ i, (table + 8 * i, address_of i)) <$> [0; 1; 2; 3; 4]) ++ [(table - 8, below)]);
     a_less := false; a_zero := false; a_cs := 8; a_env := e |}.

Abbreviation run_syscall := (@dispatch board board_devices demo_entries demo_ops 0 address_of (λ _, 0) 5 [] table 0).

Lemma calling_room n arg below e : stack_below (a_memory (calling n arg below e)) user_stack 5.
Proof. apply stack_below_check. by vm_compute. Qed.

Lemma calling_table n arg below e : table_ready address_of table (calling n arg below e).
Proof.
  split; [|split; [done|split; [by vm_compute|right; by vm_compute]]]. intros i w Hi.
  do 5 (destruct i as [|i]; [injection Hi as <-; by vm_compute|]). done.
Qed.

(** The state of key 0x1e, which is held down. *)
Lemma syscall_dispatch_spec_witness :
  wp run_syscall (λ e s', returned_to (λ _, 0) (set_bits 0 8 1) (calling 4 0x1e 0 system) e s' ∧ a_env s' = system)
    (calling 4 0x1e 0 system).
Proof.
  apply (syscall_dispatch_spec demo_ops 0 address_of (λ _, 0) 5 []) with (n := 4).
  - apply calling_table.
  - lia.
  - reflexivity.
  - done.
  - apply calling_room.
  - intros i Hi. unfold address_of. lia.
  - apply (bool_decide_unpack _). by vm_compute.
  - reflexivity.
Defined.

Lemma syscall_refused_spec_witness :
  wp run_syscall (λ e s', refused 5 (calling 5 0 0 system) e s') (calling 5 0 0 system).
Proof.
  apply (syscall_refused_spec demo_ops 0 address_of (λ _, 0) 5 [] table 0 (calling 5 0 0 system)); [done|apply calling_room|cbn; lia].
Defined.


Lemma prepare_syscalls_spec_witness :
  wp (prepare_syscalls 0xffffffff80100200 address_of) (λ _ s',
    su_table s' = address_of <$> [0; 1; 2; 3; 4] ∧
    bd_msrs (su_devices s') !! LSTAR = Some 0xffffffff80100200 ∧
    bd_msrs (su_devices s') !! EFER = Some (Z.lor 0 1) ∧
    (∀ star, bd_msrs (su_devices s') !! STAR = Some star →
      get_bits 32 16 star = Descriptors.GDT_KERNEL_CODE_SEGMENT ∧
      get_bits 48 16 star + 16 = Z.lor Descriptors.GDT_USER_CODE_SEGMENT 3 ∧
      get_bits 48 16 star + 8 = Z.lor Descriptors.GDT_USER_DATA_SEGMENT 3 ∧ u32 star = u32 0) ∧
    is_Some (bd_msrs (su_devices s') !! STAR) ∧
    ∀ r, r ≠ EFER → r ≠ STAR → r ≠ LSTAR → bd_msrs (su_devices s') !! r = bd_msrs empty_board !! r)
    {| su_devices := empty_board; su_table := replicate 5 0 |}.
Proof. apply (prepare_syscalls_spec 0xffffffff80100200 address_of empty_board (replicate 5 0)); [done|lia]. Defined.

(** ** Runs *)

(** The result of a system call of the process, which is back behind its syscall
    instruction with its stack pointer. *)
Definition system_call (n arg : Z) : M (sys board) (option Z) := λ s,
  match run_syscall (calling n arg 0 s) with
  | Ok (e, c) => Ok (match e with
      | SysReturned a f => if (a =? rip) && (f =? 0x202) && (a_regs c RSP =? user_stack) then Some (a_regs c RAX) else None
      | _ => None end, a_env c)
  | Fault f => Fault f
  end.

(** What a run returns, [d] when it faults. *)
Definition result_of {A} (d : A) (m : M (sys board) A) (s : sys board) : A := match m s with Ok (a, _) => a | Fault _ => d end.

Definition user_load (a : Z) (n : nat) : M (sys board) (list Z) := on_processes (on_mem (load_bytes a n)).
Definition user_store (a : Z) (l : list Z) : M (sys board) unit := on_processes (on_mem (store_bytes a l)).
Definition user_phys (a : Z) : M (sys board) (option Z) :=
  space ← on_processes get_current_process_addr_space; on_processes (on_mem (on_kmem (Paging.virt_to_phys_addr space a))).

(** The program of ProcessStart.v is started and runs, the kernel has mapped the screen. *)
Definition boot : M (sys board) unit :=
  _ ← on_processes start;
  '(p, _) ← on_processes last_process;
  _ ← on_processes (set_head p);
  address ← on_processes (on_mem (on_kmem (Memory.ko_kmap_phys_range demo_ops screen_phys 2 5)));
  modify (λ s, {| sys_processes := sys_processes s; sys_keyboard := sys_keyboard s; sys_frame_buffer := screen_of address |}).

(** What a process can do with system calls 1 and 2: write and read back two pages it was
    given, and have the screen's description put in them, with an address of its own at
    which it reaches the same physical memory as the kernel. *)
Definition use_memory : M (sys board) (option Z * list Z * list Z * list (option Z)) :=
  _ ← boot;
  p ← system_call SYSCALL_ALLOC_PAGES 2;
  let a := default 0 p in
  _ ← user_store a [1; 2; 3]; _ ← user_store (a + 0x1000) [4; 5];
  _ ← system_call SYSCALL_GET_FRAMEBUFFER (a + 0x100);
  fb ← user_load (a + 0x100) (Z.to_nat sizeof_Framebuffer);
  first ← user_load a 3; second ← user_load (a + 0x1000) 2;
  let screen := le_value (take 8 fb) in
  x ← user_phys screen; y ← user_phys (screen + 0x1ffc); z ← user_phys (screen + 0x2000);
  mret (p, first ++ second, drop 8 fb, [x; y; z]).


(** System call 0 does not come back, however long it runs. *)
Theorem halt_never_returns fuel polls arg e :
  @syscall_function board board_devices demo_entries demo_ops 0 fuel polls SYSCALL_HALT arg e = Fault OutOfFuel.
Proof.
  unfold syscall_function, syscall_halt. cbn [Z.eqb SYSCALL_HALT]. unfold mbind, M_bind.
  assert (loop fuel (λ _ : unit, mret (inl tt)) tt e = Fault (A := unit * sys board) OutOfFuel) as ->; [|done].
  induction fuel as [|fuel IH]; [done|]. cbn [loop]. unfold mbind, M_bind. exact IH.
Qed.
End SyscallExamples.
