(* ===== verification/Kernel.v ===== *)
(** The kernel as a whole: [kernel_entry] of kernel/src/main.c, over one state that has every
    component's.

    A component's computation runs on its part of that state (the instances of [Part] below).
    The drivers' devices are behind the kernel's page tables: a register is accessed at a
    virtual address, which is translated as the processor does, and found at the physical
    one. *)
From S2P Require Import Prelude Util MemState EntryPool FrameAllocator PageEntry AddressSpace Paging Memory Slab PagingStart Descriptors Asm Boot Rendering Exceptions Devices IoApic Acpi Apic Ps2 KeyboardSetup ProcessInit Pci Ahci Machine ProcessSystem Syscalls.

Module Kernel.
Import Util Mem PageEntry AddressSpace Paging PagingStart Descriptors Asm Rendering Exceptions Devices Acpi Apic Pci Ahci.

(** ** The platform: memory and devices *)

Record platform (D : Type) := {
  pf_paging : paging_setup;
  pf_slab : Slab.SlabAllocator;
  pf_devices : D;
}.
Arguments pf_paging {D} _.
Arguments pf_slab {D} _.
Arguments pf_devices {D} _.

Section platform.
Context {D : Type}.

#[export] Instance paging_part : Part (paging_setup * Slab.SlabAllocator) (platform D) :=
  {| part_of s := (pf_paging s, pf_slab s);
     with_part t s := {| pf_paging := t.1; pf_slab := t.2; pf_devices := pf_devices s |} |}.
#[export] Instance kmem_part : Part kmem (platform D) :=
  {| part_of s := pu_kmem (pf_paging s);
     with_part k s := {| pf_paging := {| pu_kmem := k; pu_pages := pu_pages (pf_paging s); pu_active := pu_active (pf_paging s) |};
                         pf_slab := pf_slab s; pf_devices := pf_devices s |} |}.
#[export] Instance slab_part : Part (kmem * Slab.SlabAllocator) (platform D) :=
  {| part_of s := (pu_kmem (pf_paging s), pf_slab s);
     with_part t s := {| pf_paging := {| pu_kmem := t.1; pu_pages := pu_pages (pf_paging s); pu_active := pu_active (pf_paging s) |};
                         pf_slab := t.2; pf_devices := pf_devices s |} |}.

Definition on_device {A} (m : M D A) : M (platform D) A := λ s,
  match m (pf_devices s) with
  | Ok (r, d) => Ok (r, {| pf_paging := pf_paging s; pf_slab := pf_slab s; pf_devices := d |})
  | Fault f => Fault f
  end.

(** The physical address an access of the kernel ends at; without one it is a page fault. *)
Definition reach (v : Z) : M (platform D) Z :=
  p ← on_part (virt_to_phys_addr g_kernel_space v); of_option (BadPointer v) p.

#[export] Instance platform_devices `{!Devices D} : Devices (platform D) := {|
  port_in_u8 p := on_device (port_in_u8 p);
  port_out_u8 p v := on_device (port_out_u8 p v);
  mmio_read n a := p ← reach a; on_device (mmio_read n p);
  mmio_write n a v := p ← reach a; on_device (mmio_write n p v);
  rdmsr r := on_device (rdmsr r);
  wrmsr r v := on_device (wrmsr r v);
|}.
End platform.

(** ** The state

    [k_regs] and [k_stack] are the registers and the kernel's stack, as words by address;
    [k_firmware] is the bytes of the firmware's tables, by physical address. The screen's
    pixels and the words of the stack are known by the addresses the kernel has for them. *)
Record kernel_state (D : Type) := {
  k_regs : reg → Z;
  k_stack : gmap Z Z;
  k_cpu : cpu;
  k_platform : platform D;
  k_screen : screen;
  k_acpi : acpi;
  k_firmware : gmap Z Z;
  k_pci_devices : list PCIDeviceEntry;
  k_apic : apic;
  k_ahci : ahci unit;
  k_syscall_table : list Z;
}.
Arguments k_regs {D} _ _.
Arguments k_stack {D} _.
Arguments k_cpu {D} _.
Arguments k_platform {D} _.
Arguments k_screen {D} _.
Arguments k_acpi {D} _.
Arguments k_firmware {D} _.
Arguments k_pci_devices {D} _.
Arguments k_apic {D} _.
Arguments k_ahci {D} _.
Arguments k_syscall_table {D} _.

Section parts.
Context {D : Type}.
Implicit Types s : kernel_state D.

Definition set_regs (f : reg → Z) s : kernel_state D :=
  {| k_regs := f; k_stack := k_stack s; k_cpu := k_cpu s; k_platform := k_platform s; k_screen := k_screen s;
     k_acpi := k_acpi s; k_firmware := k_firmware s; k_pci_devices := k_pci_devices s; k_apic := k_apic s;
     k_ahci := k_ahci s; k_syscall_table := k_syscall_table s |}.
Definition set_stack (m : gmap Z Z) s : kernel_state D :=
  {| k_regs := k_regs s; k_stack := m; k_cpu := k_cpu s; k_platform := k_platform s; k_screen := k_screen s;
     k_acpi := k_acpi s; k_firmware := k_firmware s; k_pci_devices := k_pci_devices s; k_apic := k_apic s;
     k_ahci := k_ahci s; k_syscall_table := k_syscall_table s |}.
Definition set_cpu (c : cpu) s : kernel_state D :=
  {| k_regs := k_regs s; k_stack := k_stack s; k_cpu := c; k_platform := k_platform s; k_screen := k_screen s;
     k_acpi := k_acpi s; k_firmware := k_firmware s; k_pci_devices := k_pci_devices s; k_apic := k_apic s;
     k_ahci := k_ahci s; k_syscall_table := k_syscall_table s |}.
Definition set_platform (p : platform D) s : kernel_state D :=
  {| k_regs := k_regs s; k_stack := k_stack s; k_cpu := k_cpu s; k_platform := p; k_screen := k_screen s;
     k_acpi := k_acpi s; k_firmware := k_firmware s; k_pci_devices := k_pci_devices s; k_apic := k_apic s;
     k_ahci := k_ahci s; k_syscall_table := k_syscall_table s |}.
Definition set_screen (x : screen) s : kernel_state D :=
  {| k_regs := k_regs s; k_stack := k_stack s; k_cpu := k_cpu s; k_platform := k_platform s; k_screen := x;
     k_acpi := k_acpi s; k_firmware := k_firmware s; k_pci_devices := k_pci_devices s; k_apic := k_apic s;
     k_ahci := k_ahci s; k_syscall_table := k_syscall_table s |}.
Definition set_acpi (a : acpi) s : kernel_state D :=
  {| k_regs := k_regs s; k_stack := k_stack s; k_cpu := k_cpu s; k_platform := k_platform s; k_screen :=
     k_screen s; k_acpi := a; k_firmware := k_firmware s; k_pci_devices := k_pci_devices s; k_apic := k_apic
     s; k_ahci := k_ahci s; k_syscall_table := k_syscall_table s |}.
Definition set_pci_devices (l : list PCIDeviceEntry) s : kernel_state D :=
  {| k_regs := k_regs s; k_stack := k_stack s; k_cpu := k_cpu s; k_platform := k_platform s; k_screen :=
     k_screen s; k_acpi := k_acpi s; k_firmware := k_firmware s; k_pci_devices := l; k_apic := k_apic s;
     k_ahci := k_ahci s; k_syscall_table := k_syscall_table s |}.
Definition set_apic (a : apic) s : kernel_state D :=
  {| k_regs := k_regs s; k_stack := k_stack s; k_cpu := k_cpu s; k_platform := k_platform s; k_screen :=
     k_screen s; k_acpi := k_acpi s; k_firmware := k_firmware s; k_pci_devices := k_pci_devices s; k_apic :=
     a; k_ahci := k_ahci s; k_syscall_table := k_syscall_table s |}.
Definition set_ahci (a : ahci unit) s : kernel_state D :=
  {| k_regs := k_regs s; k_stack := k_stack s; k_cpu := k_cpu s; k_platform := k_platform s; k_screen :=
     k_screen s; k_acpi := k_acpi s; k_firmware := k_firmware s; k_pci_devices := k_pci_devices s; k_apic :=
     k_apic s; k_ahci := a; k_syscall_table := k_syscall_table s |}.
Definition set_syscall_table (t : list Z) s : kernel_state D :=
  {| k_regs := k_regs s; k_stack := k_stack s; k_cpu := k_cpu s; k_platform := k_platform s; k_screen :=
     k_screen s; k_acpi := k_acpi s; k_firmware := k_firmware s; k_pci_devices := k_pci_devices s; k_apic :=
     k_apic s; k_ahci := k_ahci s; k_syscall_table := t |}.

#[export] Instance platform_part : Part (platform D) (kernel_state D) := {| part_of := k_platform; with_part := set_platform |}.
#[export] Instance cpu_part : Part cpu (kernel_state D) := {| part_of := k_cpu; with_part := set_cpu |}.
#[export] Instance screen_part : Part screen (kernel_state D) := {| part_of := k_screen; with_part := set_screen |}.
#[export] Instance screen_laws : PartLaws screen (kernel_state D).
Proof. split; [done|by intros []]. Qed.
#[export] Instance acpi_part : Part acpi (kernel_state D) := {| part_of := k_acpi; with_part := set_acpi |}.

(** The registers and the stack, with the code segment the processor's tables have set. *)
#[export] Instance core_part : Part (cpu_state unit) (kernel_state D) :=
  {| part_of s := {| a_regs := k_regs s; a_memory := k_stack s; a_less := false; a_zero := false; a_cs := cpu_cs (k_cpu s); a_env := tt |};
     with_part t s := set_regs (a_regs t) (set_stack (a_memory t) s) |}.

#[export] Instance pci_part : Part (pci (platform D)) (kernel_state D) :=
  {| part_of s := {| g_pci_device_list := k_pci_devices s; pci_acpi := k_acpi s; pci_hw := k_platform s |};
     with_part t s := set_pci_devices (g_pci_device_list t) (set_acpi (pci_acpi t) (set_platform (pci_hw t) s)) |}.
#[export] Instance apic_part : Part (apic_state (platform D)) (kernel_state D) :=
  {| part_of s := {| as_apic := k_apic s; as_acpi := k_acpi s; as_devices := k_platform s |};
     with_part t s := set_apic (as_apic t) (set_acpi (as_acpi t) (set_platform (as_devices t) s)) |}.

(** The same tables over another machine. *)
Definition ahci_over {D1 D2} (d : D2) (a : ahci D1) : ahci D2 :=
  {| ah_controller := ah_controller a; ah_port_count := ah_port_count a; ah_cmd_slots := ah_cmd_slots a; ah_devices := ah_devices a;
     ah_headers := ah_headers a; ah_tables := ah_tables a; ah_dma := ah_dma a; ah_hw := d |}.
#[export] Instance ahci_part : Part (ahci (platform D)) (kernel_state D) :=
  {| part_of s := ahci_over (k_platform s) (k_ahci s);
     with_part t s := set_ahci (ahci_over tt t) (set_platform (ah_hw t) s) |}.
#[export] Instance setup_part : Part (Syscalls.setup (platform D)) (kernel_state D) :=
  {| part_of s := {| Syscalls.su_devices := k_platform s; Syscalls.su_table := k_syscall_table s |};
     with_part t s := set_syscall_table (Syscalls.su_table t) (set_platform (Syscalls.su_devices t) s) |}.
#[export] Instance keyboard_part : Part (KeyboardSetup.setup_state (platform D)) (kernel_state D) :=
  {| part_of s := {| KeyboardSetup.ss_apic := part_of s; KeyboardSetup.ss_cpu := k_cpu s |};
     with_part t s := set_cpu (KeyboardSetup.ss_cpu t) (with_part (KeyboardSetup.ss_apic t) s) |}.
#[export] Instance timer_part : Part (ProcessInit.timer_setup (platform D)) (kernel_state D) :=
  {| part_of s := {| ProcessInit.ts_cpu := k_cpu s; ProcessInit.ts_lapic := ap_lapic (k_apic s); ProcessInit.ts_devices := k_platform s |};
     with_part t s := set_cpu (ProcessInit.ts_cpu t) (set_platform (ProcessInit.ts_devices t) (set_apic
       {| ap_gsi_override_table := ap_gsi_override_table (k_apic s); ap_found_ioapics := ap_found_ioapics (k_apic s);
          ap_found_lapics := ap_found_lapics (k_apic s); ap_lapic := ProcessInit.ts_lapic t |} s)) |}.
End parts.

(** ** Memory at two addresses *)

(** What [ram] has in the [size] bytes from [phys] on, at [virt]. *)
Definition seen_at (phys virt size : Z) (ram : gmap Z Z) : gmap Z Z :=
  kmap (λ a, a - phys + virt) (filter (λ kv, phys <= kv.1 < phys + size) ram).

(** ** What the linker and the firmware settle *)

Record image := {
  im_data_start : Z; im_data_end : Z; im_rodata_start : Z; im_rodata_end : Z;
  im_tss : Z; im_gdt : Z; im_idt : Z;
  im_unimplemented_exception : Z; im_general_protection_fault : Z; im_page_fault : Z;
  im_syscall_dispatcher : Z; im_syscall_function : Z → Z;
  im_kb_handler : Z; im_context_switch_handler : Z;
  (** the address behind the call of jump_to_kernel_virtual *)
  im_after_jump : Z;
}.

(** [fw_edx] is what CPUID returns in edx, [fw_pml4] the firmware's first page table,
    [fw_null_descriptor_end] as in FrameInit.v. *)
Record firmware_state := { fw_edx : Z; fw_pml4 : list Z; fw_null_descriptor_end : result Z }.

(** ** kernel_entry *)

Section entry.
Context {D : Type} `{!Devices D} (im : image) (fw : firmware_state) (K : Memory.KernelOps) (fuel : nat).

Abbreviation BM := (M (kernel_state D)).
Abbreviation FM := (M (platform D)).

#[local] Instance entries : MemoryEntries := EntryPool.pool_entries (Memory.ko_alloc_pages K).

(** *** What the components call *)

Definition alloc_pages (pages flags : Z) : FM Z := on_part (Memory.ko_alloc_pages K pages flags).
Definition kmap_phys_range (phys_addr pages flags : Z) : FM Z := on_part (Memory.ko_kmap_phys_range K phys_addr pages flags).
Definition kunmap_range (virt_addr pages : Z) : FM unit := on_part (Memory.kunmap_range K virt_addr pages).
Definition kvirt_to_phys_addr (virt_addr : Z) : FM (option Z) := on_part (Memory.kvirt_to_phys_addr virt_addr).
Definition alloc_pages_contiguous (pages flags : Z) : FM Z := on_part (Memory.alloc_pages_contiguous K pages flags).
Definition kalloc (size : Z) : FM Z :=
  on_part (Slab.kalloc (Memory.ko_alloc_pages K) (Memory.free_pages K) fuel size).

(** *** Memory that is in use while it is mapped *)

(** The screen's pixels are where they are mapped. *)
Definition kmap_screen (phys_addr pages flags : Z) : BM Z :=
  address ← on_part (kmap_phys_range phys_addr pages flags);
  _ ← on_part (modify (λ x, set_pixels (seen_at phys_addr address (pages * PAGE_SIZE) (sc_pixels x) ∪ sc_pixels x) x));
  mret address.

(** The firmware's tables can be read where they are mapped. *)
Definition kmap_tables (phys_addr pages flags : Z) : BM Z :=
  address ← on_part (kmap_phys_range phys_addr pages flags);
  firmware ← gets k_firmware;
  _ ← on_part (modify (λ a, {| ac_memory := seen_at phys_addr address (pages * PAGE_SIZE) firmware ∪ ac_memory a;
                               ac_xsdt := ac_xsdt a; ac_remap_list := ac_remap_list a |}));
  mret address.

(** The kernel's pages are mapped where it is linked: so is its stack, which is one of them. *)
Definition map_stack (kernel_phys_addr kernel_virt_addr size : Z) : BM unit :=
  modify (λ s, set_stack (seen_at kernel_phys_addr kernel_virt_addr size (k_stack s) ∪ k_stack s) s).

(** The call of [jump_to_kernel_virtual], which comes back at the virtual address. *)
Definition enter_virtual (kernel_phys_addr kernel_virt_addr size : Z) : BM unit :=
  _ ← on_part (_ ← set_reg RDI kernel_phys_addr; _ ← set_reg RSI kernel_virt_addr; push (im_after_jump im));
  _ ← map_stack kernel_phys_addr kernel_virt_addr size;
  e ← on_part (@run unit {| env_call _ := throw OutOfBounds; env_in _ _ := throw OutOfBounds;
                            env_out _ _ _ := throw OutOfBounds; env_store _ _ := throw OutOfBounds |}
                 0 Boot.jump_to_kernel_virtual);
  cs ← gets (λ s, cpu_cs (k_cpu s));
  match e with
  | FarReturned rip cs' =>
      if (rip =? u64 (u64 (im_after_jump im - kernel_phys_addr) + kernel_virt_addr)) && (cs' =? cs) then mret tt
      else throw (BadPointer rip)
  | _ => throw OutOfBounds
  end.

(** With the identity mapping gone only addresses of the kernel are left. *)
Definition forget_low (m : gmap Z Z) : gmap Z Z := filter (λ kv, SIGN_EXT_ADDR KERNEL_OFFSET <= kv.1) m.
Definition remove_identity (map : list UEFIMemoryDescriptor) : BM unit :=
  _ ← on_part (on_part (T := kmem) (free_uefi_memory_and_remove_identity_mapping map) : FM unit);
  modify (λ s, set_stack (forget_low (k_stack s))
    (set_screen (set_pixels (forget_low (sc_pixels (k_screen s))) (k_screen s)) s)).

(** *** The calls, in order

    [wipe] clears the screen and [say] draws one line of the progress report. *)
Definition wipe_screen : BM unit := on_part (color ← gets sc_bg_color; clear_screen color).
Definition draw_line (str : string) (y : Z) : BM unit := _ ← on_part (put_string (chars str) 10 y); mret tt.

Section calls.
Context (wipe : BM unit) (say : string → Z → BM unit).

Definition set_frame_buffer (fb : Framebuffer) (x : screen) : screen :=
  {| sc_frame_buffer := fb; sc_pixels := sc_pixels x; sc_bg_color := sc_bg_color x; sc_fg_color := sc_fg_color x |}.

Definition show_logo (fb : Framebuffer) : BM unit :=
  _ ← on_part (modify (set_frame_buffer fb));
  _ ← wipe;
  _ ← say "       _     _____  _____  " 4;
  _ ← say "   _ _| |_  |     ||  ___| " 5;
  _ ← say " _| |_   _| |  |  ||___  | " 6;
  _ ← say "|_   _|_|   |_____||_____| " 7;
  say "  |_|               Week-1 " 8.

(** From the memory map to a kernel that runs at its virtual addresses; returns the map as
    it is left. *)
Definition bring_up_memory (mm : list UEFIMemoryDescriptor) : BM (list UEFIMemoryDescriptor) :=
  '(kernel_phys_addr, kernel_virt_addr, mm) ← on_part (on_part
    (initialize_memory (im_data_start im) (im_data_end im) (im_rodata_start im) (im_rodata_end im)
       (fw_edx fw) (fw_pml4 fw) (fw_null_descriptor_end fw) mm) : FM _);
  _ ← say "Memory initialized" 9;
  let '(_, _, kernel_size) := foldl measure_step (0, None, 0) mm in
  _ ← enter_virtual kernel_phys_addr kernel_virt_addr kernel_size;
  _ ← say "Kernel now running in virtual address space" 10;
  mret mm.

Definition bring_up_cpu (mm : list UEFIMemoryDescriptor) : BM unit :=
  _ ← prepare_acpi_memory (λ n, on_part (kalloc n)) kmap_tables mm;
  _ ← say "Prepared ACPI memory" 12;
  _ ← setup_gdt_and_tss (λ p f, on_part (alloc_pages p f)) (im_tss im) (im_gdt im);
  _ ← say "Global descriptor table initalized" 13;
  _ ← on_part (setup_idt (im_idt im));
  _ ← say "Interrupt descriptor table initalized" 14;
  _ ← on_part (register_exception_interrupts (im_unimplemented_exception im) (im_general_protection_fault im) (im_page_fault im));
  say "Registered exception interrupts" 15.

Definition bring_up_devices (mm : list UEFIMemoryDescriptor) (rsdp : Z) : BM unit :=
  _ ← remove_identity mm;
  _ ← say "UEFI data deallocated and identity mapping removed" 16;
  _ ← on_part (initialize_acpi rsdp);
  _ ← say "ACPI Initialized" 17;
  _ ← on_part (enumerate_pci_devices kmap_phys_range kunmap_range kalloc);
  _ ← say "PCI devices enumerated" 18;
  _ ← on_part (setup_apic kmap_phys_range fuel);
  _ ← say "APIC(s) set up and usable" 19;
  devices ← gets k_pci_devices;
  _ ← on_part (initialize_ahci kvirt_to_phys_addr (λ ty mask, mret (find_device devices ty mask)) kmap_phys_range kalloc
                 alloc_pages_contiguous fuel);
  _ ← say "AHCI Initialized" 20;
  _ ← on_part (Syscalls.prepare_syscalls (im_syscall_dispatcher im) (im_syscall_function im));
  _ ← say "Syscalls enabled" 21;
  _ ← on_part (KeyboardSetup.register_ps2_interrupt (im_kb_handler im));
  _ ← say "Keyboard initialized" 22;
  _ ← on_part (ProcessInit.initialize_process_system (im_context_switch_handler im));
  say "Process system initialized" 23.

Definition bring_up (mm : list UEFIMemoryDescriptor) (fb : Framebuffer) (rsdp : Z) : BM unit :=
  _ ← show_logo fb;
  mm ← bring_up_memory mm;
  _ ← remap_framebuffer kmap_screen;
  _ ← say "Framebuffer remapped to virtual address space" 11;
  _ ← bring_up_cpu mm;
  bring_up_devices mm rsdp.

End calls.

(** Everything up to the idle loop, which never ends. *)
Definition kernel_entry (idle : nat) (mm : list UEFIMemoryDescriptor) (fb : Framebuffer) (rsdp : Z) : BM unit :=
  _ ← bring_up wipe_screen draw_line mm fb rsdp; halt idle.
End entry.
End Kernel.
