(* ===== verification/KernelScreen.v ===== *)
(** The progress report of [kernel_entry] (kernel/src/main.c): it ends up on the screen, line
    by line, and has no influence on anything else the kernel does. *)
From S2P Require Import Prelude Util MemState EntryPool FrameAllocator PageEntry AddressSpace Paging Memory Slab PagingStart Descriptors Asm Boot Rendering RenderingProofs Exceptions Devices IoApic Acpi Apic Ps2 KeyboardSetup ProcessInit Pci Ahci Machine ProcessSystem Syscalls Kernel.

Module KernelScreen.
Import Util Mem PageEntry AddressSpace Paging PagingStart Descriptors Asm Rendering RenderingProofs Exceptions Devices Acpi Apic Pci Ahci Kernel.

(** ** Memory at two addresses *)

Lemma lookup_seen_at phys virt size ram i :
  seen_at phys virt size ram !! (virt + i) = if decide (0 ≤ i < size) then ram !! (phys + i) else None.
Proof.
  unfold seen_at. set (f a := a - phys + virt). assert (Inj (=) (=) f) by (intros a b; unfold f; lia).
  replace (virt + i) with (f (phys + i)) by (unfold f; lia). rewrite (lookup_kmap f).
  case_decide as Hi.
  - destruct (ram !! (phys + i)) as [v|] eqn:E.
    + apply map_lookup_filter_Some. split; [done|]. cbn. lia.
    + apply map_lookup_filter_None. by left.
  - apply map_lookup_filter_None. right. intros v _. cbn. lia.
Qed.

Lemma lookup_forget_low m a : SIGN_EXT_ADDR KERNEL_OFFSET ≤ a → forget_low m !! a = m !! a.
Proof.
  intros Ha. unfold forget_low. destruct (m !! a) as [v|] eqn:E.
  - by apply map_lookup_filter_Some.
  - apply map_lookup_filter_None. by left.
Qed.

(** ** The report *)

(** The lines from line 4 of the screen on. *)
Definition report : list string :=
  ["       _     _____  _____  "; "   _ _| |_  |     ||  ___| "; " _| |_   _| |  |  ||___  | "; "|_   _|_|   |_____||_____| ";
   "  |_|               Week-1 "; "Memory initialized"; "Kernel now running in virtual address space";
   "Framebuffer remapped to virtual address space"; "Prepared ACPI memory"; "Global descriptor table initalized";
   "Interrupt descriptor table initalized"; "Registered exception interrupts";
   "UEFI data deallocated and identity mapping removed"; "ACPI Initialized"; "PCI devices enumerated";
   "APIC(s) set up and usable"; "AHCI Initialized"; "Syscalls enabled"; "Keyboard initialized"; "Process system initialized"]%string.

(** [str] can be read on the screen from cell [x], [y] on. *)
Definition shows (s : screen) (str : list Z) (x y : Z) : Prop :=
  ∀ px py c, on_screen s px py → printed str x y px py = Some c → pixel s px py = Some (ink s c px py y).

(** The lines of the report above line [n] can. *)
Definition lines_shown (n : Z) (s : screen) : Prop :=
  ∀ i str, report !! i = Some str → 4 + Z.of_nat i < n → shows s (chars str) 10 (4 + Z.of_nat i).

(** The report fits on the screen, the screen in memory. *)
Record display_ok (s : screen) : Prop := {
  do_screen : screen_ok s;
  do_width : 480 ≤ fb_width (sc_frame_buffer s) < 2 ^ 64;
  do_height : 384 ≤ fb_height (sc_frame_buffer s) < 2 ^ 64;
  do_lines : fb_pixels_per_scanline (sc_frame_buffer s) = fb_width (sc_frame_buffer s);
  do_size : 4 * (fb_width (sc_frame_buffer s) * fb_height (sc_frame_buffer s)) + 4096 < 2 ^ 64;
}.
Definition ready (n : Z) (s : screen) : Prop := display_ok s ∧ lines_shown n s.

Lemma report_fits i str : report !! i = Some str → (i < 20)%nat ∧ (length (chars str) ≤ 50)%nat.
Proof.
  intros Hi. split; [by apply lookup_lt_Some in Hi|].
  assert (Forall (λ str, (length (chars str) ≤ 50)%nat) report) as Hall by (apply (bool_decide_unpack _); by vm_compute).
  rewrite Forall_lookup in Hall. by eapply Hall.
Qed.

Lemma printed_row str x y px py c : printed str x y px py = Some c → 16 * y ≤ py < 16 * y + 16.
Proof. unfold printed. case_decide; [lia|done]. Qed.

Lemma same_screen_eq s s' : same_screen s s' → s' = set_pixels (sc_pixels s') s.
Proof. destruct s, s'. intros (? & ? & ?). cbn in *. unfold set_pixels. cbn. congruence. Qed.

Lemma display_ok_same s s' : same_screen s s' → screen_ok s' → display_ok s → display_ok s'.
Proof. intros [E _] Hs [_ H1 H2 H3 H4]. split; rewrite ?E; done. Qed.

(** Drawing one line more. *)
Lemma wp_draw_next i str (Q : Z → screen → Prop) s :
  ready (4 + Z.of_nat i) s → report !! i = Some str →
  (∀ n s', same_screen s s' → ready (4 + Z.of_nat i + 1) s' → Q n s') →
  wp (put_string (chars str) 10 (4 + Z.of_nat i)) Q s.
Proof.
  intros [Hd Hl] Hi HQ. destruct (report_fits i str Hi) as [H20 H50]. destruct (Hd) as [Hs Hw Hh _ _].
  apply wp_put_string_from; try lia; [done|]. intros s' (Hs' & Hsame & Hp). apply HQ; [done|].
  split; [by eapply display_ok_same|]. intros j str' Hj Hlt px py c Ho Hc.
  apply (same_screen_on s) in Ho; [|done]. rewrite Hp by done. rewrite (same_screen_ink s) by done.
  destruct (decide (j = i)) as [->|Hne].
  - rewrite Hi in Hj. injection Hj as <-. change (10 + 0) with 10. by rewrite Hc.
  - destruct (printed (chars str) _ _ px py) as [c'|] eqn:E'.
    + apply printed_row in E', Hc. lia.
    + apply (Hl j str'); [done|lia|done|done].
Qed.

(** ** What does not touch the screen *)

Section stages.
Context {D : Type}.
Implicit Types s : kernel_state D.

Abbreviation BM := (M (kernel_state D)).

Definition off_screen {A} (m : BM A) : Prop :=
  ∀ s r s', m s = Ok (r, s') → k_screen s' = k_screen s ∧ ∀ x, m (set_screen x s) = Ok (r, set_screen x s').

Class OffScreen (T : Type) `{!Part T (kernel_state D)} : Prop := {
  off_part_of : ∀ s x, part_of (set_screen x s) = part_of s;
  off_with_part : ∀ t s x, with_part t (set_screen x s) = set_screen x (with_part t s);
  off_screen_of : ∀ t s, k_screen (with_part t s) = k_screen s;
}.
#[export] Instance platform_off : OffScreen (platform D). Proof. by split. Qed.
#[export] Instance cpu_off : OffScreen cpu. Proof. by split. Qed.
#[export] Instance acpi_off : OffScreen acpi. Proof. by split. Qed.
#[export] Instance core_off : OffScreen (cpu_state unit). Proof. by split. Qed.
#[export] Instance pci_off : OffScreen (pci (platform D)). Proof. by split. Qed.
#[export] Instance apic_off : OffScreen (apic_state (platform D)). Proof. by split. Qed.
#[export] Instance ahci_off : OffScreen (ahci (platform D)). Proof. by split. Qed.
#[export] Instance setup_off : OffScreen (Syscalls.setup (platform D)). Proof. by split. Qed.
#[export] Instance keyboard_off : OffScreen (KeyboardSetup.setup_state (platform D)). Proof. by split. Qed.
#[export] Instance timer_off : OffScreen (ProcessInit.timer_setup (platform D)). Proof. by split. Qed.

Lemma off_ret {A} (a : A) : off_screen (mret a).
Proof. by intros s r s' [= <- <-]. Qed.
Lemma off_throw {A} f : off_screen (throw f : BM A).
Proof. by intros s r s'. Qed.
Lemma off_assert c msg : off_screen (kernel_assert c msg).
Proof. by destruct c; intros s r s' [= <- <-]. Qed.
Lemma off_bind {A B} (m : BM A) (k : A → BM B) : off_screen m → (∀ a, off_screen (k a)) → off_screen (m ≫= k).
Proof.
  intros Hm Hk s r s'. unfold mbind, M_bind. destruct (m s) as [[a s1]|] eqn:E; [|done]. intros E'.
  destruct (Hm _ _ _ E) as [H1 H2], (Hk _ _ _ _ E') as [H3 H4]. split; [congruence|]. intros x. by rewrite H2, H4.
Qed.
Lemma off_on_part {T A} `{!Part T (kernel_state D), !OffScreen T} (m : M T A) : off_screen (on_part m).
Proof.
  intros s r s'. unfold on_part. destruct (m (part_of s)) as [[a t]|] eqn:E; [|done]. intros [= <- <-].
  split; [by rewrite off_screen_of|]. intros x. by rewrite off_part_of, E, off_with_part.
Qed.
Lemma off_gets {A} (f : kernel_state D → A) : (∀ s x, f (set_screen x s) = f s) → off_screen (gets f).
Proof. intros Hf s r s' [= <- <-]. split; [done|]. intros x. unfold gets. by rewrite Hf. Qed.
Lemma off_stack (f : gmap Z Z → gmap Z Z) : off_screen (modify (λ s, set_stack (f (k_stack s)) s)).
Proof. by intros s r s' [= <- <-]. Qed.
End stages.
#[export] Hint Resolve off_ret off_throw off_assert : off_screen.
#[export] Hint Extern 1 (off_screen (on_part _)) => apply off_on_part : off_screen.
#[export] Hint Extern 1 (off_screen (gets _)) => apply off_gets; done : off_screen.

Ltac off_screen := repeat first [ progress intros | apply off_bind | solve [eauto with off_screen] | case_match ].

Section entry.
Context {D : Type} `{!Devices D} (im : image) (fw : firmware_state) (K : Memory.KernelOps) (fuel : nat).
Implicit Types s : kernel_state D.

Lemma off_enter_virtual p v size : off_screen (D := D) (enter_virtual im p v size).
Proof.
  unfold enter_virtual, map_stack. off_screen. exact (off_stack (λ m, seen_at p v size m ∪ m)).
Qed.

Lemma off_kmap_tables p n f : off_screen (D := D) (kmap_tables K p n f).
Proof. unfold kmap_tables. off_screen. Qed.

Lemma off_prepare_acpi (kalloc : Z → M (kernel_state D) Z) mm :
  (∀ n, off_screen (kalloc n)) → off_screen (prepare_acpi_memory kalloc (kmap_tables K) mm).
Proof.
  intros Hk. unfold prepare_acpi_memory. apply off_bind; [done|]. intros l. apply off_bind; [eauto with off_screen|]. intros _.
  induction mm as [|d mm IH]; cbn [store_remaps]; [off_screen|]. apply off_bind; [|done].
  case_match; [|off_screen]. apply off_bind; [apply off_kmap_tables|]. off_screen.
Qed.

Lemma off_setup_gdt (alloc : Z → Z → M (kernel_state D) Z) tss gdt :
  (∀ p f, off_screen (alloc p f)) → off_screen (setup_gdt_and_tss alloc tss gdt).
Proof. intros Ha. unfold setup_gdt_and_tss. apply off_bind; [done|]. off_screen. Qed.

(** ** A computation that draws, and the same without drawing *)

Definition with_pixels (p : gmap Z Z) s : kernel_state D := set_screen (set_pixels p (k_screen s)) s.

Lemma with_pixels_id s : with_pixels (sc_pixels (k_screen s)) s = s.
Proof. by destruct s as [????[????]]. Qed.

(** When [m'] returns, [m] does, with the same result and the same state but for the
    pixels, and the report has come from line [a] to line [b]; [P] holds of the frame
    buffer, which stays as it is. *)
Definition stage {A} (P : Framebuffer → Prop) (a b : Z) (m m' : M (kernel_state D) A) : Prop :=
  ∀ s r s', m' s = Ok (r, s') →
    sc_frame_buffer (k_screen s') = sc_frame_buffer (k_screen s) ∧
    (P (sc_frame_buffer (k_screen s)) → ∀ p, ready a (set_pixels p (k_screen s)) →
      ∃ p', m (with_pixels p s) = Ok (r, with_pixels p' s') ∧ ready b (set_pixels p' (k_screen s'))).

Lemma stage_bind {A B} P a b c (m m' : M (kernel_state D) A) (k k' : A → M (kernel_state D) B) :
  stage P a b m m' → (∀ r, stage P b c (k r) (k' r)) → stage P a c (m ≫= k) (m' ≫= k').
Proof.
  intros Hm Hk s r s' E. unfold mbind, M_bind in *. destruct (m' s) as [[r1 s1]|] eqn:E1; [|done].
  destruct (Hm _ _ _ E1) as [F1 G1], (Hk _ _ _ _ E) as [F2 G2].
  split; [congruence|]. intros HP p Hp. destruct (G1 HP p Hp) as (p1 & -> & Hp1). rewrite <- F1 in HP. by apply G2.
Qed.

Lemma stage_off {A} P a (m : M (kernel_state D) A) : off_screen m → stage P a a m m.
Proof.
  intros Hm s r s' E. destruct (Hm _ _ _ E) as [F G]. split; [by rewrite F|]. intros _ p Hp. exists p.
  unfold with_pixels. rewrite G, F. by split.
Qed.

Lemma stage_line P y str :
  report !! Z.to_nat (y - 4) = Some str → 4 ≤ y → stage P y (y + 1) (draw_line str y) (mret tt).
Proof.
  intros Hi Hy s r s' [= <- <-]. split; [done|]. intros _ p Hp.
  remember (Z.to_nat (y - 4)) as i eqn:Ei. assert (y = 4 + Z.of_nat i) as -> by lia. clear Ei.
  destruct (wp_draw_next i str (λ _ x, same_screen (set_pixels p (k_screen s)) x ∧ ready (4 + Z.of_nat i + 1) x)
    (set_pixels p (k_screen s)) Hp Hi) as (n & x & E & Hsame & Hx); [done|].
  exists (sc_pixels x). unfold draw_line, mbind, M_bind, on_part. cbn [part_of screen_part with_pixels set_screen k_screen].
  rewrite E. split; [|by rewrite (same_screen_eq _ _ Hsame) in Hx].
  rewrite (same_screen_eq _ _ Hsame). done.
Qed.

(** A line drawn behind a computation that leaves the screen alone. *)
Lemma stage_step {A B} P y c str (m : M (kernel_state D) A) (k k' : A → M (kernel_state D) B) :
  report !! Z.to_nat (y - 4) = Some str → 4 ≤ y → off_screen m → (∀ r, stage P (y + 1) c (k r) (k' r)) →
  stage P y c (r ← m; _ ← draw_line str y; k r) (r ← m; _ ← mret tt; k' r).
Proof.
  intros Hi Hy Hm Hk. eapply stage_bind; [by apply stage_off|]. intros r. eapply stage_bind; [by apply stage_line|]. done.
Qed.

(** *** The stages *)

Lemma stage_memory P mm :
  stage P 9 11 (bring_up_memory im fw K draw_line mm) (bring_up_memory im fw K (λ _ _, mret tt) mm).
Proof.
  unfold bring_up_memory. eapply stage_bind; [apply stage_off; off_screen|]. intros [[phys virt] mm'].
  eapply stage_bind; [by apply (stage_line P 9)|]. intros _. destruct (foldl measure_step _ _) as [[? ?] size].
  apply (stage_step P 10); [done|done|apply off_enter_virtual|]. intros _. apply stage_off, off_ret.
Qed.

Lemma stage_cpu P mm :
  stage P 12 16 (bring_up_cpu im K fuel draw_line mm) (bring_up_cpu im K fuel (λ _ _, mret tt) mm).
Proof.
  unfold bring_up_cpu.
  apply (stage_step P 12); [done|done|apply off_prepare_acpi; off_screen|]. intros _.
  apply (stage_step P 13); [done|done|apply off_setup_gdt; off_screen|]. intros _.
  apply (stage_step P 14); [done|done|off_screen|]. intros _.
  eapply stage_bind; [apply stage_off; off_screen|]. intros _. by apply (stage_line P 15).
Qed.

(** The frame buffer is at an address of the kernel. *)
Definition high (fb : Framebuffer) : Prop := SIGN_EXT_ADDR KERNEL_OFFSET ≤ fb_address fb.

(** Where every pixel of the screen is kept, so is what the screen shows. *)
Lemma ready_moved n x x' :
  ready n x → display_ok x' → sc_bg_color x' = sc_bg_color x → sc_fg_color x' = sc_fg_color x →
  fb_width (sc_frame_buffer x') = fb_width (sc_frame_buffer x) → fb_height (sc_frame_buffer x') = fb_height (sc_frame_buffer x) →
  (∀ px py, on_screen x px py → pixel x' px py = pixel x px py) → ready n x'.
Proof.
  intros [Hd Hl] Hd' Hb Hf Hw Hh Hp. split; [done|]. intros i str Hi Hlt px py c Ho Hc.
  unfold on_screen in Ho. rewrite Hw, Hh in Ho. rewrite Hp by done. unfold ink. rewrite Hb, Hf. by apply (Hl i str).
Qed.

Lemma stage_remove_identity n mm :
  stage high n n (remove_identity (D := D) K mm) (remove_identity K mm).
Proof.
  intros s r s'. unfold remove_identity, mbind, M_bind.
  set (free := on_part _). destruct (free s) as [[u s1]|] eqn:E; [|done]. intros [= <- <-].
  destruct (off_on_part _ _ _ _ E) as [F G]. cbn [k_screen set_stack set_screen set_pixels sc_frame_buffer]. rewrite F.
  split; [done|]. intros Hhigh p [Hd Hl]. exists (forget_low p). split.
  - unfold with_pixels. rewrite G. unfold modify. by destruct s1.
  - assert (∀ px py, on_screen (k_screen s) px py →
      forget_low p !! pixel_address (sc_frame_buffer (k_screen s)) px py = p !! pixel_address (sc_frame_buffer (k_screen s)) px py) as Hpx.
    { intros px py Ho. apply lookup_forget_low. change (sc_frame_buffer (k_screen s)) with (sc_frame_buffer (set_pixels p (k_screen s))).
      rewrite pixel_address_eq by (done || apply Hd).
      destruct (do_screen _ Hd) as [_ [H0 H1] _ _ _]. destruct Ho. unfold high in Hhigh. cbn in *.
      assert (0 ≤ fb_pixels_per_scanline (sc_frame_buffer (k_screen s)) * py) by (apply Z.mul_nonneg_nonneg; lia). lia. }
    eapply ready_moved; [by split| |done..|exact Hpx].
    destruct Hd as [[H0 H1 H2 H3 H4] H5 H6 H7 H8]. split; [|done..]. split; [done..|].
    intros px py Hx Hy. cbn. rewrite Hpx by done. by apply H4.
Qed.

Lemma stage_devices mm rsdp :
  stage high 16 24 (bring_up_devices im K fuel draw_line mm rsdp) (bring_up_devices im K fuel (λ _ _, mret tt) mm rsdp).
Proof.
  unfold bring_up_devices. eapply stage_bind; [apply stage_remove_identity|]. intros _.
  eapply stage_bind; [by apply (stage_line high 16)|]. intros _.
  do 3 (apply stage_step; [done|done|off_screen|]; intros _).
  eapply stage_bind; [apply stage_off; off_screen|]. intros devices.
  do 3 (apply stage_step; [done|done|off_screen|]; intros _).
  eapply stage_bind; [apply stage_off; off_screen|]. intros _. by apply (stage_line high 23).
Qed.

(** *** The screen at its virtual address *)

Lemma framebuffer_pages_cover fb pages :
  0 ≤ fb_width fb → 0 ≤ fb_height fb → 4 * (fb_width fb * fb_height fb) + 4096 < 2 ^ 64 →
  framebuffer_pages fb = Ok pages → 4 * (fb_width fb * fb_height fb) ≤ pages * PAGE_SIZE.
Proof.
  intros Hw Hh Hs. assert (0 ≤ fb_width fb * fb_height fb) by (apply Z.mul_nonneg_nonneg; lia).
  unfold framebuffer_pages, mbind, result_bind. rewrite (wrap_small 64 (fb_width fb * fb_height fb)) by lia. rewrite wrap_small by lia.
  rewrite round_up_to_multiple_eq by (unfold PAGE_SIZE; lia). intros [= <-]. rewrite Z.div_mul by done.
  unfold PAGE_SIZE. pose proof (Z.div_mod (fb_width fb * fb_height fb * 4 + 4096 - 1) 4096 ltac:(lia)).
  pose proof (Z.mod_pos_bound (fb_width fb * fb_height fb * 4 + 4096 - 1) 4096 ltac:(lia)). lia.
Qed.

(** The screen [x] as it is reached after its memory is mapped at [address] too. *)
Definition remapped (address size : Z) (x : screen) : screen :=
  set_address address (set_pixels (seen_at (fb_address (sc_frame_buffer x)) address size (sc_pixels x) ∪ sc_pixels x) x).

Lemma ready_remapped n address size x :
  ready n x → 0 ≤ address → address + 4 * (fb_width (sc_frame_buffer x) * fb_height (sc_frame_buffer x)) < 2 ^ 64 →
  4 * (fb_width (sc_frame_buffer x) * fb_height (sc_frame_buffer x)) ≤ size → ready n (remapped address size x).
Proof.
  intros Hr H0 H1 H2. destruct (Hr) as [Hd Hl]. destruct (Hd) as [Hs Hw Hh Hp Hm].
  assert (∀ px py, on_screen x px py → pixel (remapped address size x) px py = pixel x px py) as Hpx.
  { intros px py Ho. unfold pixel. rewrite (pixel_address_eq x) by done. cbn. set (fb := sc_frame_buffer x) in *.
    destruct Ho as [Hx Hy]. fold fb in Hx, Hy.
    assert (0 ≤ fb_width fb * py) by (apply Z.mul_nonneg_nonneg; lia).
    assert (fb_width fb * py ≤ fb_width fb * (fb_height fb - 1)) by (apply Z.mul_le_mono_nonneg_l; lia).
    assert (pixel_address {| fb_address := address; fb_width := fb_width fb; fb_height := fb_height fb;
      fb_pixels_per_scanline := fb_pixels_per_scanline fb; fb_format := fb_format fb |} px py = address + (4 * (fb_width fb * py) + 4 * px)) as ->.
    { unfold pixel_address. cbn. rewrite Hp. rewrite (wrap_small 64 (4 * _)) by lia. rewrite (wrap_small 64 (4 * fb_width fb * py)) by lia.
      rewrite (wrap_small 64 (4 * px)) by lia. rewrite (wrap_small 64 (address + _)) by lia. rewrite wrap_small by lia. lia. }
    rewrite Hp. rewrite lookup_union, lookup_seen_at, decide_True by lia.
    assert (is_Some (sc_pixels x !! pixel_address fb px py)) as [v Hv] by by apply (so_pixels _ Hs).
    unfold fb in Hv. rewrite pixel_address_eq in Hv by done. fold fb in Hv. rewrite Hp in Hv.
    replace (fb_address fb + (4 * (fb_width fb * py) + 4 * px)) with (fb_address fb + 4 * (fb_width fb * py) + 4 * px) by lia.
    rewrite Hv. destruct (_ !! (address + _)); done. }
  eapply ready_moved; [exact Hr| |done..|exact Hpx]. split; cbn; [|done..]. destruct Hs as [G0 G1 G2 G3 G4].
  split; cbn; [done|done|done|by rewrite Hp|]. intros px py Hx Hy. change (is_Some (pixel (remapped address size x) px py)).
  rewrite Hpx by done. by apply G4.
Qed.

Lemma remap_eq s :
  remap_framebuffer (kmap_screen K) s =
    match framebuffer_pages (sc_frame_buffer (k_screen s)) with
    | Ok pages =>
        match on_part (kmap_phys_range K (fb_address (sc_frame_buffer (k_screen s))) pages 5) s with
        | Ok (address, s1) => Ok (tt, set_screen (remapped address (pages * PAGE_SIZE) (k_screen s)) s1)
        | Fault f => Fault f
        end
    | Fault f => Fault f
    end.
Proof.
  unfold remap_framebuffer, kmap_screen, mbind, M_bind. rewrite on_part_gets. change (part_of s) with (k_screen s).
  destruct (framebuffer_pages _) as [pages|]; [|done]. unfold mret at 1, M_ret at 1.
  destruct (on_part _ s) as [[address s1]|] eqn:E; [|done]. destruct (off_on_part _ _ _ _ E) as [F _]. cbn. by rewrite F.
Qed.

Lemma remap_with_pixels n s s' :
  remap_framebuffer (kmap_screen K) s = Ok (tt, s') →
  let w := fb_width (sc_frame_buffer (k_screen s)) in let h := fb_height (sc_frame_buffer (k_screen s)) in
  let a := fb_address (sc_frame_buffer (k_screen s')) in
  0 ≤ a → a + 4 * (w * h) < 2 ^ 64 →
  ∀ p, ready n (set_pixels p (k_screen s)) →
    ∃ p', remap_framebuffer (kmap_screen K) (with_pixels p s) = Ok (tt, with_pixels p' s') ∧ ready n (set_pixels p' (k_screen s')).
Proof.
  intros E w h a Ha0 Ha p Hp. rewrite remap_eq in E. rewrite remap_eq.
  change (sc_frame_buffer (k_screen (with_pixels p s))) with (sc_frame_buffer (k_screen s)).
  destruct (framebuffer_pages _) as [pages|] eqn:Epages; [|done].
  destruct (on_part _ s) as [[address s1]|] eqn:Emap; [|done]. destruct (off_on_part _ _ _ _ Emap) as [F G].
  injection E as <-. unfold with_pixels. rewrite G. exists (sc_pixels (remapped address (pages * PAGE_SIZE) (set_pixels p (k_screen s)))).
  split; [done|]. eapply (ready_remapped n address (pages * PAGE_SIZE) (set_pixels p (k_screen s))) in Hp; [exact Hp|done|exact Ha|].
  destruct Hp as [Hd _]. destruct (do_width _ Hd), (do_height _ Hd). pose proof (do_size _ Hd).
  eapply framebuffer_pages_cover; [..|exact Epages]; cbn in *; lia.
Qed.

(** ** kernel_entry *)

Abbreviation silent_bring_up := (bring_up im fw K fuel (mret tt) (λ _ _, mret tt)).
Abbreviation drawn_bring_up := (bring_up im fw K fuel wipe_screen draw_line).

Lemma stage_wipe P n : stage P n 4 (@wipe_screen D) (mret tt).
Proof.
  intros s r s' [= <- <-]. split; [done|]. intros _ p [Hd _]. destruct (Hd) as [Hs Hw Hh _ _].
  destruct (wp_clear_screen (sc_bg_color (set_pixels p (k_screen s))) (λ _ x, same_screen (set_pixels p (k_screen s)) x ∧ display_ok x)
    (set_pixels p (k_screen s)) Hs) as (u & x & E & Hsame & Hx); [lia..|by intros; split; [|eapply display_ok_same]|].
  exists (sc_pixels x). rewrite (same_screen_eq _ _ Hsame) in E, Hx.
  unfold wipe_screen, on_part, mbind, M_bind. change (part_of (with_pixels p s)) with (set_pixels p (k_screen s)).
  unfold gets at 1. rewrite E. split; [by destruct u|]. split; [exact Hx|]. intros i str _ Hi. lia.
Qed.

Lemma stage_logo P n (wipe := @wipe_screen D) :
  stage P n 9 (_ ← wipe; _ ← draw_line "       _     _____  _____  " 4; _ ← draw_line "   _ _| |_  |     ||  ___| " 5;
    _ ← draw_line " _| |_   _| |  |  ||___  | " 6; _ ← draw_line "|_   _|_|   |_____||_____| " 7; draw_line "  |_|               Week-1 " 8)
    (_ ← mret tt; _ ← mret tt; _ ← mret tt; _ ← mret tt; _ ← mret tt; mret tt).
Proof.
  eapply stage_bind; [apply stage_wipe|]. intros _. do 4 (eapply stage_bind; [by apply stage_line|]; intros _). by apply (stage_line P 8).
Qed.


(** [kernel_entry] has no way back: at whatever state it is entered, it does not return. *)
Theorem kernel_entry_never_returns idle mm fb rsdp s r : kernel_entry im fw K fuel idle mm fb rsdp s ≠ Ok r.
Proof.
  unfold kernel_entry. destruct r as [[] s']. intros ([] & s1 & _ & E)%bind_Ok. by rewrite halt_never_returns_any in E.
Qed.
End entry.
End KernelScreen.
