(* ===== verification/KernelGates.v ===== *)
(** What the processor finds in its tables when [kernel_entry] (kernel/src/main.c) has brought
    every component up. *)
From S2P Require Import Prelude Util MemState EntryPool PageEntry AddressSpace Paging Memory Slab PagingStart Descriptors Asm Boot Rendering Exceptions Devices IoApic Acpi Apic Ps2 KeyboardSetup ProcessInit Pci Ahci Syscalls Kernel.

Module KernelGates.
Import Util Mem Paging PagingStart Descriptors Asm Rendering Exceptions Devices Acpi Kernel.

(** A present interrupt gate of the kernel's code segment that leads to [handler]. *)
Definition leads (g : IDTEntry) (handler : Z) : Prop :=
  gate_present g = true ∧ gate_offset g = handler ∧ selector g = GDT_KERNEL_CODE_SEGMENT ∧ gate_type g = INTERRUPT_GATE.

Definition gate_of (handler : Z) : IDTEntry := idt_gate INTERRUPT_GATE handler GDT_KERNEL_CODE_SEGMENT 0 0.

Lemma leads_gate handler : 0 ≤ handler < 2 ^ 64 → leads (gate_of handler) handler.
Proof. intros H. split_and!; [done|by apply gate_offset_of|done|done]. Qed.

Definition add_gate (irq handler : Z) (c : cpu) : cpu := set_idt (insertZ irq (gate_of handler) (cpu_idt c)) c.

(** *** What the components that set gates do to the processor's tables *)

Section parts.
Context {D : Type} `{!Devices D}.

Lemma keeps_on_apic {A} (m : M (Apic.apic_state D) A) : keeps KeyboardSetup.ss_cpu (KeyboardSetup.on_apic m).
Proof. intros t r t'. unfold KeyboardSetup.on_apic. destruct (m _) as [[? ?]|]; [|done]. by intros [= _ <-]. Qed.

Lemma keyboard_adds_gate handler :
  updates KeyboardSetup.ss_cpu (add_gate 0x21 handler) (KeyboardSetup.register_ps2_interrupt (D := D) handler).
Proof.
  unfold KeyboardSetup.register_ps2_interrupt. apply updates_behind; [apply keeps_on_apic|]. intros o.
  apply updates_behind; [eauto with keeps|]. intros e. apply updates_behind; [apply keeps_on_apic|]. intros [io|]; [|apply updates_throw].
  do 4 (apply updates_behind; [apply keeps_on_apic|]; intros ?). by intros s r s' [= _ <-].
Qed.

Lemma keeps_lapic_update reg f : keeps ProcessInit.ts_cpu (ProcessInit.lapic_update (D := D) reg f).
Proof. intros t r t'. unfold ProcessInit.lapic_update. destruct (mmio_update _ _ _) as [[? ?]|]; [|done]. by intros [= _ <-]. Qed.

Lemma timer_adds_gate handler :
  updates ProcessInit.ts_cpu (add_gate 32 handler) (ProcessInit.initialize_process_system (D := D) handler).
Proof.
  unfold ProcessInit.initialize_process_system. apply updates_before; [by intros s r s' [= _ <-]|]. intros _.
  do 6 (apply keeps_bind; [apply keeps_lapic_update|]; intros ?). intros t r t'. unfold ProcessInit.lapic_write.
  destruct (mmio_write _ _ _ _) as [[? ?]|]; [|done]. by intros [= _ <-].
Qed.
End parts.

Lemma exceptions_gates unimplemented general page (c c' : cpu) :
  (32 ≤ length (cpu_idt c))%nat → 0 ≤ unimplemented < 2 ^ 64 → 0 ≤ general < 2 ^ 64 → 0 ≤ page < 2 ^ 64 →
  register_exception_interrupts unimplemented general page c = Ok (tt, c') →
  (∀ i, 0 ≤ i < 32 → ∃ g, lookupZ (cpu_idt c') i = Some g ∧ leads g (handler_of unimplemented general page i)) ∧
  (∀ i, 32 ≤ i → lookupZ (cpu_idt c') i = lookupZ (cpu_idt c) i) ∧ cpu_gdt c' = cpu_gdt c ∧ cpu_interrupts c' = cpu_interrupts c.
Proof.
  intros Hlen Hu Hg Hp E. eapply (wp_run _ _ _ _ _ (register_exceptions_spec _ _ _ c Hlen Hu Hg Hp)) in E. exact E.
Qed.

Section entry.
Context {D : Type} `{!Devices D} (im : image) (fw : firmware_state) (K : Memory.KernelOps) (fuel : nat).
Implicit Types s : kernel_state D.

Definition idt_of s : list IDTEntry := cpu_idt (k_cpu s).

Lemma keeps_idt {A} (m : M (kernel_state D) A) : keeps k_cpu m → keeps idt_of m.
Proof. intros Hm s r s' E. unfold idt_of. by rewrite (Hm _ _ _ E). Qed.

Context (wipe : M (kernel_state D) unit) (say : string → Z → M (kernel_state D) unit).
Hypothesis (wipe_keeps : keeps k_cpu wipe) (say_keeps : ∀ str y, keeps k_cpu (say str y)).
#[local] Hint Resolve wipe_keeps say_keeps : keeps.

Lemma logo_keeps fb : keeps k_cpu (show_logo wipe say fb).
Proof. unfold show_logo. keeps. Qed.

Lemma memory_keeps mm : keeps k_cpu (bring_up_memory im fw K say mm).
Proof. unfold bring_up_memory, enter_virtual, map_stack. keeps. Qed.

Lemma remap_keeps : keeps (S := kernel_state D) k_cpu (remap_framebuffer (kmap_screen K)).
Proof. unfold remap_framebuffer, kmap_screen. keeps. Qed.

Lemma prepare_keeps mm : keeps (S := kernel_state D) k_cpu (prepare_acpi_memory (λ n, on_part (kalloc K fuel n)) (kmap_tables K) mm).
Proof.
  unfold prepare_acpi_memory. do 2 (apply keeps_bind; [eauto with keeps|]; intros ?).
  induction mm as [|d mm IH]; cbn [store_remaps]; [keeps|]. apply keeps_bind; [|done]. unfold kmap_tables. keeps.
Qed.

Lemma setup_gdt_keeps : keeps idt_of (setup_gdt_and_tss (λ p f, on_part (alloc_pages (D := D) K p f)) (im_tss im) (im_gdt im)).
Proof.
  unfold setup_gdt_and_tss. apply keeps_bind; [apply keeps_idt; eauto with keeps|]. intros stack. apply keeps_bind.
  - intros s r s' (c & E & ->)%on_part_Ok. unfold fill_tss in E.
    apply bind_Ok in E as (c0 & c1 & [= <- <-] & E). apply bind_Ok in E as (low & c2 & E1 & E).
    apply bind_Ok in E as (high & c3 & E2 & E). injection E as _ <-.
    apply (keeps_of_option cpu_idt) in E1, E2. cbn in *. unfold idt_of. cbn. congruence.
  - intros _ s r s' (c & [= _ <-] & ->)%on_part_Ok. done.
Qed.

Lemma keyboard_gate : updates (S := kernel_state D) k_cpu (add_gate 0x21 (im_kb_handler im))
  (on_part (KeyboardSetup.register_ps2_interrupt (im_kb_handler im))).
Proof. intros s r s' (t & E & ->)%on_part_Ok. exact (keyboard_adds_gate _ _ _ _ E). Qed.

Lemma timer_gate : updates (S := kernel_state D) k_cpu (add_gate 32 (im_context_switch_handler im))
  (on_part (ProcessInit.initialize_process_system (im_context_switch_handler im))).
Proof. intros s r s' (t & E & ->)%on_part_Ok. exact (timer_adds_gate _ _ _ _ E). Qed.

Lemma devices_gates mm rsdp :
  updates k_cpu (λ c, add_gate 32 (im_context_switch_handler im) (add_gate 0x21 (im_kb_handler im) c)) (bring_up_devices im K fuel say mm rsdp).
Proof.
  unfold bring_up_devices, remove_identity.
  do 13 (apply updates_behind; [solve [keeps]|]; intros ?).
  intros s r s' (u & s1 & E1 & E)%bind_Ok. apply keyboard_gate in E1. apply bind_Ok in E as (u2 & s2 & E2 & E).
  apply say_keeps in E2. apply (updates_before _ _ _ _ timer_gate) in E; [|eauto with keeps]. by rewrite E, E2, E1.
Qed.

End entry.
End KernelGates.
