(* ===== verification/KernelExamples.v ===== *)
(** The kernel brought up on a concrete machine: 8 MB of memory, a display, one I/O
    controller, a PCI bus with a disk controller, and the firmware's tables. *)
From S2P Require Import Prelude Util MemState EntryPool PageEntry AddressSpace Paging Memory Slab PagingStart PagingStartExamples Descriptors Asm Rendering RenderingProofs Exceptions Devices IoApic Acpi AcpiExamples Apic ApicProofs Ps2 KeyboardSetup ProcessInit Pci Ahci Machine Syscalls Kernel KernelScreen KernelGates.

Module KernelExamples.
Import Util Mem AddressSpace PagingStart PagingStartExamples Descriptors Asm Rendering Devices Acpi AcpiExamples Apic ApicProofs Exceptions RenderingProofs Kernel KernelScreen KernelGates.

(** ** The devices, by physical address *)

Definition ecam : Z := 0xb0000000.
Definition disk_phys : Z := 0xfebf1000.
Definition ioapic_phys : Z := 0xfec00000.
Definition lapic_phys : Z := 0xfee00000.
Definition display : Z := 0xfd000000.

(** [ch_ioapic] is the registers of the I/O controller, behind its window;
    [ch_registers] those of the other devices. *)
Record chipset := { ch_selected : Z; ch_ioapic : gmap Z Z; ch_registers : gmap Z Z; ch_msrs : gmap Z Z }.

(** Where no function of a device answers, all bits are set. *)
Definition missing (a : Z) : Z := if (ecam <=? a) && (a <? ecam + 2 ^ 28) then 2 ^ 64 - 1 else 0.

#[local] Instance chipset_devices : Devices chipset := {|
  port_in_u8 _ d := Ok (0, d);
  port_out_u8 _ _ d := Ok (tt, d);
  mmio_read n a d := Ok (wrap (8 * Z.of_nat n)
    (if a =? ioapic_phys + 0x10 then default 0 (ch_ioapic d !! ch_selected d) else default (missing a) (ch_registers d !! a)), d);
  mmio_write n a v d := Ok (tt,
    if a =? ioapic_phys then {| ch_selected := v; ch_ioapic := ch_ioapic d; ch_registers := ch_registers d; ch_msrs := ch_msrs d |}
    else if a =? ioapic_phys + 0x10
    then {| ch_selected := ch_selected d; ch_ioapic := <[ch_selected d := v]> (ch_ioapic d); ch_registers := ch_registers d; ch_msrs := ch_msrs d |}
    else {| ch_selected := ch_selected d; ch_ioapic := ch_ioapic d; ch_registers := <[a := v]> (ch_registers d); ch_msrs := ch_msrs d |});
  rdmsr r d := Ok (default 0 (ch_msrs d !! r), d);
  wrmsr r v d := Ok (tt, {| ch_selected := ch_selected d; ch_ioapic := ch_ioapic d; ch_registers := ch_registers d; ch_msrs := <[r := v]> (ch_msrs d) |});
|}.

(** Device 1 of bus 0 is the disk controller: one port, four slots, a drive. *)
Definition disk_function : Z := ecam + Z.shiftl 1 15.
Definition disk_registers : list (Z * Z) :=
  [(disk_function + Pci.VENDOR_ID, 0x8086); (disk_function + Pci.HEADER_TYPE, 0); (disk_function + Pci.REVISION_ID, 2);
   (disk_function + Pci.PROG_IF, 1); (disk_function + Pci.SUBCLASS, 6); (disk_function + Pci.CLASS_CODE, 1);
   (disk_function + Pci.BAR5, disk_phys);
   (disk_phys + Ahci.CAPABILITIES, Z.shiftl 1 31 + Z.shiftl 3 8); (disk_phys + Ahci.PORT_IMPL, 1);
   (Ahci.port_address disk_phys 0 + Ahci.SATA_STATUS, Z.shiftl 1 8 + 3); (Ahci.port_address disk_phys 0 + Ahci.SIGNATURE, Ahci.SATA_SIG_ATA)].

Definition chips : chipset :=
  {| ch_selected := 0; ch_ioapic := {[0 := Z.shiftl 2 24; 1 := Z.shiftl 23 16 + 0x11; 0x12 := 0x10000]};
     ch_registers := list_to_map (disk_registers ++ [(lapic_phys + LAPIC_LVT_TIMER, 0x10000)]); ch_msrs := ∅ |}.

(** ** The firmware's tables, in the page at [acpi_base] *)

Definition acpi_base : Z := 0x7c0000.
Definition mcfg_bytes : list Z :=
  with_checksum 9 (Pci.MCFG_SIGNATURE ++ le_bytes 4 60 ++ replicate 36 0 ++ le_bytes 8 ecam ++ le_bytes 2 0 ++ [0; 1] ++ replicate 4 0).
Definition madt_entries : list madt_entry :=
  [LocalApicEntry 0 0 1; IoApicEntry 2 ioapic_phys 0; OverrideEntry 0 0 2 0].
Definition madt_bytes : list Z :=
  let body := le_bytes 4 lapic_phys ++ le_bytes 4 1 ++ encode_all madt_entries in
  with_checksum 9 (MADT_SIGNATURE ++ le_bytes 4 (36 + Z.of_nat (length body)) ++ replicate 28 0 ++ body).
Definition xsdt_bytes : list Z :=
  with_checksum 9 (XSDT_SIGNATURE ++ le_bytes 4 52 ++ replicate 28 0 ++ le_bytes 8 (acpi_base + 0x200) ++ le_bytes 8 (acpi_base + 0x300)).
Definition rsdp_bytes : list Z :=
  with_checksum 32 (with_checksum 8 (RSDP_SIGNATURE ++ replicate 8 0) ++ replicate 4 0 ++ le_bytes 4 36 ++ le_bytes 8 (acpi_base + 0x100) ++ replicate 4 0).

Definition place (a : Z) (l : list Z) : gmap Z Z := list_to_map (imap (λ i b, (a + Z.of_nat i, b)) l).
Definition firmware_bytes : gmap Z Z :=
  place acpi_base rsdp_bytes ∪ place (acpi_base + 0x100) xsdt_bytes ∪ place (acpi_base + 0x200) mcfg_bytes ∪ place (acpi_base + 0x300) madt_bytes.

Definition memory_map : list UEFIMemoryDescriptor :=
  [ {| md_type := EfiConventionalMemory; md_physical_start := 0; md_num_pages := 160 |};
    {| md_type := EfiBootServicesData; md_physical_start := 0xa0000; md_num_pages := 96 |};
    {| md_type := EfiLoaderCode; md_physical_start := 0x100000; md_num_pages := 20 |};
    {| md_type := EfiConventionalMemory; md_physical_start := 0x114000; md_num_pages := 1708 |};
    {| md_type := EfiACPIReclaimMemory; md_physical_start := acpi_base; md_num_pages := 1 |};
    {| md_type := EfiLoaderData; md_physical_start := 0x7c1000; md_num_pages := 63 |} ].

(** ** The kernel as the boot loader enters it *)

Definition frame_buffer : Framebuffer :=
  {| fb_address := display; fb_width := 480; fb_height := 384; fb_pixels_per_scanline := 480; fb_format := 1 |}.

Definition the_image : image :=
  {| im_data_start := data_start; im_data_end := data_end; im_rodata_start := rodata_start; im_rodata_end := rodata_end;
     im_tss := 0xfffff00000009000; im_gdt := 0xfffff00000009100; im_idt := 0xfffff0000000a000;
     im_unimplemented_exception := 0xfffff00000001000; im_general_protection_fault := 0xfffff00000001100; im_page_fault := 0xfffff00000001200;
     im_syscall_dispatcher := 0xfffff00000002000; im_syscall_function n := 0xfffff00000002100 + 0x40 * n;
     im_kb_handler := 0xfffff00000003000; im_context_switch_handler := 0xfffff00000004000; im_after_jump := 0x100500 |}.

Definition the_firmware : firmware_state := {| fw_edx := 0x100000; fw_pml4 := firmware_pml4; fw_null_descriptor_end := Ok 0 |}.

Definition stack_top : Z := 0x113000.

(** [pixels] is what the display shows when the kernel is entered. *)
Definition entered (pixels : gmap Z Z) : kernel_state chipset :=
  {| k_regs r := match r with RSP | RBP => stack_top | _ => 0 end;
     k_stack := {[stack_top - 8 := 0; stack_top - 16 := 0]};
     k_cpu := reset_cpu;
     k_platform := {| pf_paging := loaded false; pf_slab := caches; pf_devices := chips |};
     k_screen := {| sc_frame_buffer := {| fb_address := 0; fb_width := 0; fb_height := 0; fb_pixels_per_scanline := 0; fb_format := 0 |};
                    sc_pixels := pixels; sc_bg_color := 0; sc_fg_color := 0xffffff |};
     k_acpi := {| ac_memory := ∅; ac_xsdt := 0; ac_remap_list := [] |};
     k_firmware := firmware_bytes;
     k_pci_devices := [];
     k_apic := {| ap_gsi_override_table := replicate 16 {| present := false; gsi := 0; flags := 0 |};
                  ap_found_ioapics := []; ap_found_lapics := []; ap_lapic := 0 |};
     k_ahci := {| Ahci.ah_controller := 0; Ahci.ah_port_count := 0; Ahci.ah_cmd_slots := 0; Ahci.ah_devices := [];
                  Ahci.ah_headers := ∅; Ahci.ah_tables := ∅; Ahci.ah_dma := (0, 0); Ahci.ah_hw := tt |};
     k_syscall_table := replicate 5 0 |}.

Definition the_ops : Memory.KernelOps := Memory.kernel 3.
Abbreviation silent_boot :=
  (bring_up the_image the_firmware the_ops 10 (mret tt) (λ _ _, mret tt) memory_map frame_buffer acpi_base).
Abbreviation drawn_boot :=
  (bring_up the_image the_firmware the_ops 10 wipe_screen draw_line memory_map frame_buffer acpi_base).



(** ** Coming up *)

(** What can be seen of the machine afterwards: the disk controller and the drive that were
    found, the I/O controller with the entry of the keyboard's interrupt, the local APIC's
    timer, the entry point of system calls, the mapping of the firmware's addresses, which
    is gone, and the stack, which moved with the kernel. *)
Definition seen (s : kernel_state chipset) :=
  let chips := pf_devices (k_platform s) in
  (((λ e, (Pci.type e, (Ahci.ah_port_count (k_ahci s), Ahci.ah_cmd_slots (k_ahci s), Ahci.dev_port <$> Ahci.ah_devices (k_ahci s)))) <$> k_pci_devices s),
   (ioapic_id <$> ap_found_ioapics (k_apic s), ch_ioapic chips !! 0x12, ch_registers chips !! (lapic_phys + LAPIC_LVT_TIMER)),
   (ch_msrs chips !! Syscalls.LSTAR, k_syscall_table s),
   forallb (λ e, e =? 0) (take (Z.to_nat PageEntry.KERNEL_PML4_OFFSET) (pg_pml4 (km_paging (part_of (k_platform s))))),
   k_regs s RSP).


(** *** With a display *)

Definition final {S A} (m : M S A) (s : S) : S := match m s with Ok (_, s') => s' | Fault _ => s end.
Definition booted (pixels : gmap Z Z) : kernel_state chipset := final silent_boot (entered pixels).

Lemma silent_boot_eq pixels : silent_boot (entered pixels) = Ok (tt, booted pixels).
Proof.
  assert (match silent_boot (entered pixels) with Ok _ => true | Fault _ => false end = true) as H by (by vm_compute).
  unfold booted, final. by destruct (silent_boot (entered pixels)) as [[[] s]|].
Qed.

(** Where the screen ends up. *)
Lemma screen_address pixels : fb_address (sc_frame_buffer (k_screen (booted pixels))) = 0xfffff0000002e000.
Proof. vm_compute. reflexivity. Qed.

(** [n] black pixels from [a] on. *)
Fixpoint black (a : Z) (n : nat) : gmap Z Z :=
  match n with O => ∅ | S n => <[a := 0]> (black (a + 4) n) end.

Lemma lookup_black a n k : 0 ≤ k < Z.of_nat n → black a n !! (a + 4 * k) = Some 0.
Proof.
  revert a k. induction n as [|n IH]; intros a k Hk; [lia|]. cbn [black]. destruct (decide (k = 0)) as [->|Hne].
  - rewrite Z.mul_0_r, Z.add_0_r. apply lookup_insert_eq.
  - rewrite lookup_insert_ne by lia. replace (a + 4 * k) with (a + 4 + 4 * (k - 1)) by lia. apply IH. lia.
Qed.

(** All the display's pixels, black. *)
Definition is_blank (pixels : gmap Z Z) : Prop := ∀ k, 0 ≤ k < 480 * 384 → pixels !! (display + 4 * k) = Some 0.

Lemma blank_display : ∃ pixels, is_blank pixels.
Proof. exists (black display (Z.to_nat (480 * 384))). intros k Hk. apply lookup_black. lia. Qed.

Lemma display_is_ok pixels : is_blank pixels → display_ok (set_frame_buffer frame_buffer (k_screen (entered pixels))).
Proof.
  intros Hb. split; [|cbn; lia..]. split; cbn; [unfold display; lia..|]. intros x y Hx Hy. exists 0.
  replace (pixel_address frame_buffer x y) with (display + 4 * (480 * y + x)); [apply Hb; lia|].
  unfold pixel_address, frame_buffer. change display with 4244635648. cbn [fb_address fb_pixels_per_scanline].
  rewrite (wrap_small 64 (4 * 480)) by lia. rewrite (wrap_small 64 (_ * y)) by lia. rewrite (wrap_small 64 (4 * x)) by lia.
  rewrite (wrap_small 64 (4244635648 + _)) by lia. rewrite wrap_small by lia. lia.
Qed.


End KernelExamples.
