(* ===== verification/Terminal.v ===== *)
(** The terminal program: apps/terminal/src/main.c, from its system call to the pixels it
    paints. *)
From S2P Require Import Prelude Util MemState PageEntry Paging Memory Machine Elf ProcessSystem Rendering Devices Ps2 Asm Syscalls.

Module Terminal.
Import Util Mem Machine ProcessSystem Rendering Devices Ps2 Asm Syscalls.

Definition PIXEL : Z := 0xff0000.

(** ** _start

    [fb] is the address of the local variable; every test of the loop and every pixel reads
    it again. [store_bytes] and [load_bytes] are the program's own accesses. *)
Section program.
Context {S : Type} `{!UserSpaces S}.

Definition load_u64 (addr : Z) : M S Z := l ← load_bytes addr 8; mret (le_value l).

(** for (uint64_t i = 0; i < fb.height * fb.width; ++i) *)
Definition paint (fuel : nat) (fb : Z) : M S unit :=
  loop fuel (λ i,
    height ← load_u64 (fb + 16);
    width ← load_u64 (fb + 8);
    if i <? u64 (height * width) then
      address ← load_u64 fb;
      _ ← store_bytes (u64 (address + u64 (i * 4))) (le_bytes 4 PIXEL);
      mret (inl (u64 (i + 1)))
    else mret (inr tt)) 0.

Context `{!UserSpacesSpec S}.
Implicit Types s : S.

(** The fields of the struct are 64-bit numbers. *)
Record screen_ok (f : Framebuffer) : Prop := {
  so_address : 0 ≤ fb_address f < 2 ^ 64;
  so_width : 0 ≤ fb_width f < 2 ^ 64;
  so_height : 0 ≤ fb_height f < 2 ^ 64;
  so_fits : 0 ≤ fb_height f * fb_width f ∧ fb_address f + 4 * (fb_height f * fb_width f) < 2 ^ 64;
}.

Lemma has_bytes_slice s a addr l k n :
  has_bytes s a addr l → (k + n ≤ length l)%nat → has_bytes s a (addr + Z.of_nat k) (take n (drop k l)).
Proof.
  intros H Hlen i x Hi. destruct (decide (i < n)%nat) as [Hlt|Hge].
  - rewrite lookup_take_lt, lookup_drop in Hi by done. specialize (H _ _ Hi).
    by replace (addr + Z.of_nat k + Z.of_nat i) with (addr + Z.of_nat (k + i)) by lia.
  - rewrite lookup_take_ge in Hi by lia. done.
Qed.

Lemma wp_load_u64 s a addr fb l k x (Q : Z → S → Prop) :
  us_mapped s = Some a → has_bytes s a fb l → (k + 8 ≤ length l)%nat → take 8 (drop k l) = le_bytes 8 x → 0 ≤ x < 2 ^ 64 →
  addr = fb + Z.of_nat k → Q x s → wp (load_u64 addr) Q s.
Proof.
  intros Hm Hb Hk Hl Hx -> HQ. unfold load_u64. wp_step. eexists (le_bytes 8 x), s. split.
  - rewrite <- (length_le_bytes 8 x) at 1. apply (load_bytes_eq s a); [done|]. rewrite <- Hl. by apply has_bytes_slice.
  - wp_step. rewrite le_value_bytes. change (8 * Z.of_nat 8) with 64. by rewrite wrap_small.
Qed.

Lemma length_framebuffer_bytes f : length (framebuffer_bytes f) = 36%nat.
Proof. done. Qed.

(** One block behind another. *)
Lemma written_app s a addr l l' s1 s2 :
  written s a addr l s1 → (∀ b, us_space s b → us_space s1 b) → us_space s a →
  written s1 a (addr + Z.of_nat (length l)) l' s2 → written s a addr (l ++ l') s2.
Proof.
  intros [H1 O1] Hsp Ha [H2 O2]. split.
  - apply Elf.has_bytes_app; [|done]. intros i x Hi. rewrite O2; [by apply H1|auto|]. apply lookup_lt_Some in Hi. right. lia.
  - intros b w Hb Hw. rewrite length_app in Hw. rewrite O2, O1; [done|done| |auto|]; destruct Hw as [?|[?|?]]; auto; right; lia.
Qed.

Definition pixels (n : nat) : list Z := concat (replicate n (le_bytes 4 PIXEL)).

Lemma length_pixels n : length (pixels n) = (4 * n)%nat.
Proof. unfold pixels. induction n as [|n IH]; [done|]. cbn [replicate concat]. rewrite length_app, IH, length_le_bytes. lia. Qed.

Lemma pixels_snoc n : pixels (Datatypes.S n) = pixels n ++ le_bytes 4 PIXEL.
Proof. unfold pixels. rewrite replicate_S_end, concat_app. cbn [concat]. by rewrite app_nil_r. Qed.

(** Between two rounds: [i] pixels are painted and nothing else has changed. *)
Definition painted s a (f : Framebuffer) (fb i : Z) s' : Prop :=
  0 ≤ i ≤ fb_height f * fb_width f ∧ us_ok s' ∧ us_mapped s' = Some a ∧ (∀ b, us_space s b → us_space s' b) ∧
  has_bytes s' a fb (framebuffer_bytes f) ∧ written s a (fb_address f) (pixels (Z.to_nat i)) s'.

Lemma wp_paint s a f fb fuel :
  us_ok s → us_space s a → us_mapped s = Some a → screen_ok f → has_bytes s a fb (framebuffer_bytes f) →
  let n := Z.to_nat (fb_height f * fb_width f) in
  has_room s a (fb_address f) (4 * n) → fb + 36 ≤ fb_address f ∨ fb_address f + 4 * Z.of_nat n ≤ fb → (n < fuel)%nat →
  wp (paint fuel fb) (λ _ s', us_mapped s' = Some a ∧ written s a (fb_address f) (pixels n) s') s.
Proof.
  intros Hok Hsp Hm [Ha Hw Hh [Hn0 Hn]] Hfb n Hroom Hdis Hfuel. unfold paint.
  apply (wp_loop (painted s a f fb) (λ i _, Z.to_nat (fb_height f * fb_width f - i))).
  - split; [lia|]. split_and!; [done..|]. split; [by intros i x|done].
  - subst n. lia.
  - intros i s1 (Hi & Hok1 & Hm1 & Hs1 & Hfb1 & Hwr). assert (0 ≤ fb_height f * fb_width f < 2 ^ 64) as Hlt by lia.
    wp_step. eapply (wp_load_u64 s1 a _ fb _ 16 (fb_height f)); [done|exact Hfb1|rewrite length_framebuffer_bytes; lia|done|done|done|].
    wp_step. eapply (wp_load_u64 s1 a _ fb _ 8 (fb_width f)); [done|exact Hfb1|rewrite length_framebuffer_bytes; lia|done|done|done|].
    rewrite (wrap_small 64 (fb_height f * fb_width f)) by done. destruct (Z.ltb_spec i (fb_height f * fb_width f)) as [Hlti|Hge].
    + wp_step. eapply (wp_load_u64 s1 a _ fb _ 0 (fb_address f)); [done|exact Hfb1|rewrite length_framebuffer_bytes; lia|done|done|by rewrite Z.add_0_r|].
      rewrite (wrap_small 64 (i * 4)) by lia. rewrite (wrap_small 64 (fb_address f + _)) by lia. wp_step.
      destruct (store_bytes_spec s1 a (fb_address f + i * 4) (le_bytes 4 PIXEL)) as (s2 & E & Hok2 & Hm2 & Hs2 & Hwr2); [done|auto|done| |].
      { rewrite length_le_bytes. intros j Hj. destruct Hwr as [Hin Hout]. rewrite Hout; [|done|right; rewrite length_pixels; lia].
        rewrite <- Z.add_assoc. apply Hroom. subst n. lia. }
      exists tt, s2. split; [exact E|]. wp_step. rewrite (wrap_small 64 (i + 1)) by lia. split; [|lia].
      split; [lia|]. split_and!; [done|done|auto| |].
      * intros j x Hj. destruct Hwr2 as [_ Hout]. rewrite Hout; [by apply Hfb1|auto|]. apply lookup_lt_Some in Hj.
        rewrite length_framebuffer_bytes in Hj. rewrite length_le_bytes. right. subst n. lia.
      * replace (Z.to_nat (i + 1)) with (Datatypes.S (Z.to_nat i)) by lia. rewrite pixels_snoc. eapply written_app; [exact Hwr|done|done|].
        rewrite length_pixels. by replace (fb_address f + Z.of_nat (4 * Z.to_nat i)) with (fb_address f + i * 4) by lia.
    + wp_step. split; [done|]. assert (i = fb_height f * fb_width f) as -> by lia. done.
Qed.

(** The program paints the first width * height pixels from the address of its screen
    on, changes no other byte of any address space, and its loop ends. *)
Theorem paint_spec s a f fb fuel :
  us_ok s → us_space s a → us_mapped s = Some a → screen_ok f → has_bytes s a fb (framebuffer_bytes f) →
  let n := Z.to_nat (fb_height f * fb_width f) in
  has_room s a (fb_address f) (4 * n) → fb + 36 ≤ fb_address f ∨ fb_address f + 4 * Z.of_nat n ≤ fb → (n < fuel)%nat →
  wp (paint fuel fb) (λ _ s', us_mapped s' = Some a ∧ written s a (fb_address f) (pixels n) s') s.
Proof. intros. by apply wp_paint. Qed.

(** Lines are pixels_per_scanline apart: when that is more than the width, the last pixel of
    the screen stays as it was. *)
Theorem paint_misses_pixels s a f fb fuel :
  us_ok s → us_space s a → us_mapped s = Some a → screen_ok f → has_bytes s a fb (framebuffer_bytes f) →
  let n := Z.to_nat (fb_height f * fb_width f) in
  has_room s a (fb_address f) (4 * n) → fb + 36 ≤ fb_address f ∨ fb_address f + 4 * Z.of_nat n ≤ fb → (n < fuel)%nat →
  fb_width f < fb_pixels_per_scanline f → 0 < fb_width f → 2 ≤ fb_height f →
  let last := fb_address f + 4 * ((fb_height f - 1) * fb_pixels_per_scanline f + (fb_width f - 1)) in
  wp (paint fuel fb) (λ _ s', ∀ j, 0 ≤ j < 4 → us_byte s' a (last + j) = us_byte s a (last + j)) s.
Proof.
  intros Hok Hsp Hm Hs Hfb n Hroom Hdis Hfuel Hw Hw0 Hh last. eapply wp_mono; [by apply (wp_paint s a f fb fuel)|]. cbv beta.
  intros [] s' (_ & _ & Hout) j Hj. apply Hout; [done|]. right. right. rewrite length_pixels. subst n last. nia.
Qed.
End program.

(** ** get_framebuffer *)

Section call.
Context {D : Type} `{!Devices D} {entries : MemoryEntries} (K : Memory.KernelOps) (g_lapic : Z).
Context (address_of : Z → Z) (scratch : reg → Z) (fuel : nat) (polls : list nat) (table link : Z).

Abbreviation dispatch := (dispatch K g_lapic address_of scratch fuel polls table link).

(** The instruction: [rip] is the address behind it, [rflags] the flags. The processor goes on
    in the dispatcher, which must come back there. *)
Definition syscall (rip rflags : Z) : M (cpu_state (sys D)) unit :=
  _ ← set_reg RCX rip; _ ← set_reg R11 rflags;
  e ← dispatch;
  match e with
  | SysReturned a f => if (a =? rip) && (f =? rflags) then mret tt else throw (BadPointer a)
  | _ => throw OutOfBounds
  end.

(** mov $2, %rax; syscall; ret *)
Definition get_framebuffer (rip rflags : Z) : M (cpu_state (sys D)) exit :=
  _ ← set_reg RAX 2;
  _ ← syscall rip rflags;
  a ← pop; mret (Returned a).

(** Called with a pointer, get_framebuffer returns to its caller when the system call has
    filled in the structure, with the stack pointer and the registers a caller relies on
    as they were. *)
Theorem get_framebuffer_returns rip rflags g env' ret s :
  table_ready address_of table s → 40 ≤ a_regs s RSP < 2 ^ 64 - 8 → stack_below (a_memory s) (a_regs s RSP) 5 →
  (∀ i, 0 ≤ i < 5 → 0 < address_of i < 2 ^ 64) → NoDup (address_of <$> [0; 1; 2; 3; 4]) →
  a_memory s !! a_regs s RSP = Some ret →
  syscall_function K g_lapic fuel polls SYSCALL_GET_FRAMEBUFFER (a_regs s RDI) (a_env s) = Ok (g, env') →
  wp (get_framebuffer rip rflags) (λ e s', e = Returned ret ∧ a_regs s' RSP = a_regs s RSP + 8 ∧ a_env s' = env' ∧
    ∀ r, r ∈ callee_saved → r ≠ RSP → a_regs s' r = a_regs s r) s.
Proof.
  intros Ht Hsp Hroom Hadr Hnd Hret Hfun. unfold get_framebuffer, syscall. wp_step. unfold set_reg. wp_step. wp_step. wp_step. wp_step. wp_step. wp_step. wp_step.
  eapply (wp_dispatch_number _ _ _ _ _ _ _ _ 2 g env').
  - exact Ht.
  - lia.
  - asm_simpl. done.
  - asm_simpl. exact Hsp.
  - asm_simpl. exact Hroom.
  - done.
  - done.
  - asm_simpl. exact Hfun.
  - intros e s' (-> & Hsp' & _ & Hcs & Hm) He. asm_simpl. rewrite !Z.eqb_refl. cbn [andb]. wp_step. wp_step.
    cbn [a_regs with_regs] in Hsp', Hcs, Hm. rewrite !upd_ne in Hsp' by done.
    eapply (wp_pop (a_regs s RSP)); [exact Hsp'|lia| |].
    + rewrite Hm; [exact Hret|]. asm_simpl. right. lia.
    + wp_step. split; [done|]. split; [by asm_simpl|]. split; [done|]. intros r Hr Hne. asm_simpl.
      rewrite Hcs by done. rewrite !upd_ne; [done|..]; intros ->; revert Hr; unfold callee_saved; set_solver.
Qed.
End call.
End Terminal.
