(* ===== verification/TerminalExamples.v ===== *)
(** The terminal program at concrete screens: the theorems of Terminal.v where their
    hypotheses hold, and the whole program on the machine of ProcessStart.v. *)
From S2P Require Import Prelude Util MemState FrameAllocator PageEntry Paging Memory Machine Elf ProcessSystem ProcessExamples ProcessStart Rendering Devices Ps2 Asm Syscalls SyscallExamples Terminal.

Module TerminalExamples.
Import Util Mem Machine ProcessSystem ProcessExamples ProcessStart Rendering Devices Ps2 Asm Syscalls SyscallExamples Terminal.

(** A screen of three by two pixels whose lines are four pixels apart. *)
Definition small : Framebuffer :=
  {| fb_address := 0x20000; fb_width := 3; fb_height := 2; fb_pixels_per_scanline := 4; fb_format := 1 |}.

(** The program's memory: the structure at 0x8000. *)
Definition program : flat :=
  {| fl_bytes := list_to_map (imap (λ i x, ((0x1000, 0x8000 + Z.of_nat i), x)) (framebuffer_bytes small)); fl_mapped := Some 0x1000 |}.

Lemma program_structure : has_bytes program 0x1000 0x8000 (framebuffer_bytes small).
Proof. intros i x Hi. do 36 (destruct i as [|i]; [injection Hi as <-; by vm_compute|]). done. Qed.

Lemma small_ok : screen_ok small.
Proof. split; cbn; lia. Qed.

Lemma paint_spec_witness :
  wp (paint 7 0x8000) (λ _ s', us_mapped s' = Some 0x1000 ∧ written program 0x1000 0x20000 (pixels 6) s') program.
Proof.
  apply (paint_spec program 0x1000 small 0x8000 7).
  - done.
  - done.
  - done.
  - apply small_ok.
  - apply program_structure.
  - intros i Hi. eexists. reflexivity.
  - left. cbn. lia.
  - cbn. lia.
Defined.

(** Its sixth and last pixel is the second of the second line: the third of that line, at
    [0x20000 + 4 * 6], stays as it was. *)
Lemma paint_misses_pixels_witness :
  wp (paint 7 0x8000) (λ _ s', ∀ j, 0 ≤ j < 4 → us_byte s' 0x1000 (0x20018 + j) = us_byte program 0x1000 (0x20018 + j)) program.
Proof.
  apply (paint_misses_pixels program 0x1000 small 0x8000 7).
  - done.
  - done.
  - done.
  - apply small_ok.
  - apply program_structure.
  - intros i Hi. eexists. reflexivity.
  - left. cbn. lia.
  - cbn. lia.
  - cbn. lia.
  - cbn. lia.
  - cbn. lia.
Defined.

(** The caller of get_framebuffer at [back], with the structure at [arg]. *)
Definition back : Z := 0x401050.
Definition calling_get_framebuffer (arg : Z) (e : sys board) : cpu_state (sys board) :=
  let c := calling 0 arg 0 e in
  {| a_regs := a_regs c; a_memory := <[user_stack := back]> (a_memory c); a_less := false; a_zero := false; a_cs := 8; a_env := e |}.

Abbreviation run_get_framebuffer :=
  (@get_framebuffer board board_devices demo_entries demo_ops 0 address_of (λ _, 0) 5 [] table 0 rip 0x202).

(** The machine's screen with 16 by 2 pixels of its memory in use. *)
Definition two_lines (s : sys board) : sys board :=
  let f := sys_frame_buffer s in
  {| sys_processes := sys_processes s; sys_keyboard := sys_keyboard s;
     sys_frame_buffer := {| fb_address := fb_address f; fb_width := 16; fb_height := 2; fb_pixels_per_scanline := 16; fb_format := 1 |} |}.

(** The program after the kernel has started it: the address its call comes back to, the
    screen's first and last pixel and the word behind the last. *)
Definition terminal : M (sys board) (option Z * list Z * list Z * list Z) :=
  _ ← boot; _ ← modify two_lines;
  p ← system_call SYSCALL_ALLOC_PAGES 1;
  let fb := default 0 p in
  s ← gets id;
  match run_get_framebuffer (calling_get_framebuffer fb s) with
  | Ok (e, c) =>
    _ ← modify (λ _, a_env c);
    _ ← on_processes (on_mem (paint 33 fb));
    screen ← user_load fb 8;
    first ← user_load (le_value screen) 4; final ← user_load (le_value screen + 0x7c) 4;
    behind ← user_load (le_value screen + 0x80) 4;
    mret (match e with Returned a => if a_regs c RSP =? user_stack + 8 then Some a else None | _ => None end, first, final, behind)
  | Fault f => throw f
  end.

(** From the start of the program on, the call comes back to it with the structure filled
    in, and its loop leaves the screen, at the address the structure gives, painted
    from the first pixel to the last and no further. *)
Theorem terminal_runs :
  result_of (None, [], [], []) terminal system =
  (Some back, le_bytes 4 PIXEL, le_bytes 4 PIXEL, [0; 0; 0; 0]).
Proof. vm_compute. reflexivity. Qed.
End TerminalExamples.
